(* ===== verification/_CoqProject ===== *)
-Q . S2P
Prelude.v
Bitmap.v
Mm.v
Stdio.v
Linked.v
CString.v
List.v
Snake.v
Srec.v
Ustdio.v
Regexp.v
RegSyntax.v
RegMatch.v
RegSearch.v
RegParse.v
RegCode.v
RegComp.v
RegFind.v
RegSub.v
Grep.v
Env.v
Parse.v
UHeap.v
Timer.v
Slab.v
Kernel.v
Proc.v
Ipc.v
Reply.v
Cache.v
Coherence.v
Blocks.v
Inode.v
Dirs.v
Paths.v
Alloc.v
Makefs.v
Signal.v
Filp.v
Pipe.v
Fifo.v
Rootfs.v
Shell.v
FileIO.v
Exit.v
Wait.v
Syscalls.v
Fork.v
Fsys.v
Files.v
Opens.v
Cp.v
Exec.v
Dispatch.v
Except.v
