(* ===== verification/Prelude.v ===== *)
(** * WINIX, verified in parts

    WINIX is a small UNIX-like kernel for the WRAMP processor: a page allocator and a
    kernel heap under a table of processes that send messages to one system task,
    which serves the system calls, among them those of an in-memory file system.
    This library is a shallow embedding of the kernel, written after the C code of
    src/, and the theorems about it.

    ** How the program is laid out, and where it is modelled

    - [Prelude]: this header, arrays with bounds ([aget], [aset]), 32-bit words ([u32],
      [s32]), the state and error monad [ST], error numbers.  [Linked]: the shape of
      intrusive lists ([seg], [chain]), used by timers and ready queues.
    - [Bitmap] is winix/bitmap.c.  [Mm] is winix/mm.c: the system page map and the
      protection tables of the processes, both bitmaps.  [Slab] is winix/slab.c, the
      kernel heap on top of [Mm].  [Timer] is winix/timer.c.
    - [Stdio] is the number formatting and kprintf of winix/sys_stdio.c with the parsers
      of lib/stdlib and lib/util; [CString] is lib/ansi/string.c on word memory.
    - [Kernel] has the structures of include/kernel, include/sys/ipc.h and include/fs and
      the one record [kst] of everything the kernel keeps in static variables.
    - [Proc] is kernel/proc.c and the queues of kernel/sched.c; [Ipc] is
      kernel/wini_ipc.c and the replies of kernel/system.c; [Signal] the signal sets and
      the signal frame; [Exit] is exit, waitpid, the default actions and sched;
      [Syscalls] the other files of kernel/system and kernel/clock.c.
    - [Cache], [Inode], [Filp], [Pipe], [Rootfs], [Fsys] are fs: the block cache over
      the RAM disk, inodes and directories, open files, pipes, device files with the
      terminal of driver/tty.c, and the file system calls.
    - Theorems that join components have files of their own: [Coherence] has the
      invariant of the block cache and its refinement, [Blocks] what the layers above
      rely on, [Dirs] directories, [Paths] path names, [Alloc] block allocation and
      [FileIO] files on top of it; [Fifo] is pipes as queues, [Reply] how a reply reaches its process, [Wait]
      waitpid and the end of a child, [Fork] the copy of the memory, [Files] open files of any
      number of blocks as maps, [Opens] any number of them at once.
    - [UHeap] is malloc of the user library, lib/stdlib/stdlib.c; [Parse] the shell's reading of
      a command line, user/bash/parse.c, and [Shell] how it runs it, user/bash/bash.c; [Env] getenv, putenv and setenv of lib/ansi;
      [Ustdio] the reading side of lib/stdio/stdio.c with the command wc over it.
    - [Regexp] is lib/regex/regexp.c and [RegSub] lib/regex/regsub.c, regular expressions.  [RegSyntax] has
      their syntax, a parser and what they match; [RegMatch] the layout of a compiled program and
      [regmatch] on it, [RegSearch] the search of regexec, [RegParse] the end of the parser, [RegCode] the
      words of a program, [RegComp] that both passes of regcomp follow the parser, and [RegFind] joins
      them.  [Grep] is user/commands/grep.c on top of [Ustdio] and [RegFind], [Cp] is cp.c and
      mv.c on top of [Fsys] and [Opens].
    - [List] is include/winix/list.h and winix/list.c: the list macros, whose arguments are
      expressions.  [Snake] is the game user/snake/snake.c, which uses them.
    - [Srec] is fs/makefs_only/srec_import.c, which reads programs for the disk image;
      [Makefs] is fs/makefs.c, which makes its empty file system.
    - [Exec] is do_execve.c.  [Dispatch] ties it together: a trap
      ([syscall_handler]) becomes a message, [system_step] is one round of system_main
      and calls the handler the table names, whose reply goes back through [Ipc].
      [Except] is the rest of kernel/exception.c: which pending lines are served, and in
      which order.

    ** Conventions

    A C [unsigned] is a [Z] in [0, 2^32) and [int]s are brought into range with [s32]
    where the source computes with them; a pointer is an address or the key of the
    object it points to, [None] for NULL.  An operation is a function in [ST s A] =
    [s -> option (A * s)]: [None] is a panic, an access through NULL or outside of an
    array, or a loop that the fuel did not finish.  A loop over an array is a recursion
    over its indices.  A walk along a list has the size of the table it lives in as
    fuel, which a list without repetition never exceeds ([NoDup_length_size]);
    theorems that say a call succeeds therefore show that the fuel is enough.  The fuel
    of strings in memory is the number of words of the machine, that of [sched] is
    [SCHED_FUEL], a file operation has one round per zone of an inode and one to see the
    end ([ZONE_ROUNDS]), and that of number formatting is a parameter of which 12 is shown to
    be enough.  The recursion of regcomp has [rounds] of the length of the expression; the
    fuel of a match is a parameter of which enough is shown to exist.  Interrupts are disabled in the kernel while it runs
    these operations, so each is atomic.

    ** What is shown

    - Memory: the searches of the bit map are first and last fit, setting and clearing
      are inverse, the allocator refines a set of used pages, and however processes are
      loaded, fork, grow and exit no two of them share a page ([page_isolation]).  The heap
      keeps its blocks disjoint, gives out fresh ones and frees exactly the one named; the
      malloc of user programs gives out fresh areas below the break as long as the kernel
      grants the memory ([malloc_fresh]).
    - Processes: the ready queues refine five lists, [pick_proc] takes the longest
      waiting process of the highest priority; the timer list refines a queue by
      deadline.
    - Messages: a send to a waiting process arrives, a blocked send arrives when the
      destination receives, a cycle of two is refused.
    - One round of the system task ends with the reply in the caller's buffer and the
      caller in its ready queue ([system_step_replies]); exceptions are served from the
      highest line down to the first that schedules ([exception_serves]).
    - Files: the four buffers of the cache answer as an array of all blocks
      ([block_cache_transparent]); a pipe is a bounded queue of words
      ([pipe_fifo_refines]); open files are maps from offsets to words, each its own, through any
      interleaving of writes, seeks and reads ([files_refine]), so that cp copies ([cp_copies]); a directory of one block is a finite map from names to
      inode numbers ([directory_refines]) and a path leads through these maps
      ([path_resolves]); free blocks are handed out once each
      ([alloc_blocks_distinct]); the image of the disk that is built with the kernel mounts
      ([image_mounts]).
    - Life of a process: fork copies the memory to fresh pages ([copy_mm_copies]), waitpid
      reports the right child or blocks ([do_waitpid_reports]), and the end of a child
      completes the call of its parent ([check_waiting_reports]).
    - Signals: pending signals are found by number, masks change as asked, and
      returning from a handler restores the interrupted context.
    - Lists: the macros keep circular doubly linked lists that hold what a map from heads to
      sequences says ([lists_refine]), also while a loop deletes ([safe_loop_prunes]); a game of
      snake on two of them follows its rules ([snake_refines]).
    - The shell: the parser yields the words and pipes of a line, and the programs of the line
      are run in order and connected, in processes of their own ([exec_cmd_runs]).
    - Text: kprintf writes exactly
      the reference text; numbers read back as printed; the words of a program come back from its
      S-records and a wrong check byte is refused ([decode_srec_reads],
      [bad_checksum_refused]); wc sees the text however it was cut into reads
      ([wc_counts]); a variable that was set is found ([setenv_getenv]).
    - Regular expressions: regcomp refuses what the grammar refuses and lays the program of
      everything else out ([regcomp_accepts]); regexec ends with the leftmost match ([regexec_finds],
      [regexec_exact]), and grep prints the lines in which there is one ([grep_prints]).
    - Limits of the code: the inputs for which an operation leaves its arrays, does not end
      or does something else than its comment says are theorems of their own
      ([is_bit_on_bounds], [realloc_overruns], [kmalloc_large_overruns], [grow_overflow_unchecked],
      [list_add_tail_loses], [setenv_removes_neighbour], [dequeue_schedule_tail_loses], [cancel_last_leaves_timeout], [kputd_int_min_diverges],
      [exactly_matches_apart], [grep_second_file] and others), stated next to the theorem that holds elsewhere.

    The rules a theorem compares the code with are stated without the functions of the code:
    the choice of waitpid ([Wait.selects]), the rules of snake ([Snake.spec_play]), the white
    space of wc ([Ustdio.white]), the language of an expression ([RegSyntax]) and so on.

    ** Not modelled

    The text the kernel prints for debugging (klog, kreport and the two
    system calls that only print: they are parameters of [system_step]); the assembly
    of the processor and the set-up of the exception vector and the devices; programs that run in user
    mode and the library they are linked with but for the parts named above (system call wrappers,
    the commands and the prompt of the shell, printing and most programs); the other tools that build the disk image.
    The one list of the kernel that uses list.h is written out in [Ipc] over the fields of the
    processes. *)
From stdpp Require Export base list list_numbers gmap numbers option sets.
From Stdlib Require Export ZArith Lia.

#[global] Open Scope Z_scope.

(** Bounds of machine words ([words]). *)
Create HintDb words.

(** Linear arithmetic with division and remainder by constants. *)
Ltac zlia := Z.to_euclidean_division_equations; lia.

Lemma obind_Some {A B} (a : A) (f : A -> option B) : (Some a ≫= f) = f a.
Proof. reflexivity. Qed.

Lemma filter_all {A} (P : A -> Prop) `{!forall x, Decision (P x)} (l : list A) :
  Forall P l -> filter P l = l.
Proof.
  induction 1 as [|x l Hx Hl IH]; [done|]. by rewrite filter_cons_True, IH.
Qed.

(** ** C arrays

    An array is a list; an index is a C [int].  Reading or writing outside of
    the array is undefined behaviour and makes the whole operation [None]. *)
Section arrays.
Context {A : Type}.

Definition aget (l : list A) (i : Z) : option A :=
  if decide (0 <= i) then l !! Z.to_nat i else None.

Definition aset (l : list A) (i : Z) (v : A) : option (list A) :=
  if decide (0 <= i < Z.of_nat (length l)) then Some (<[Z.to_nat i := v]> l) else None.

Definition alen (l : list A) : Z := Z.of_nat (length l).

Lemma aget_Some_bound (l : list A) i v : aget l i = Some v -> 0 <= i < alen l.
Proof.
  unfold aget, alen. case_decide; [|done].
  intros H'%lookup_lt_Some. lia.
Qed.

Lemma aget_in (l : list A) i : 0 <= i < alen l -> is_Some (aget l i).
Proof.
  unfold aget, alen. intros ?. rewrite decide_True by lia.
  apply lookup_lt_is_Some. lia.
Qed.

Lemma aget_oob (l : list A) i : ~ (0 <= i < alen l) -> aget l i = None.
Proof.
  unfold aget, alen. intros ?. case_decide; [|done].
  apply lookup_ge_None. lia.
Qed.

Lemma aset_in (l : list A) i v :
  0 <= i < alen l -> aset l i v = Some (<[Z.to_nat i := v]> l).
Proof. unfold aset, alen. intros ?. by rewrite decide_True. Qed.

Lemma aset_Some (l l' : list A) i v :
  aset l i v = Some l' ->
  0 <= i < alen l /\ l' = <[Z.to_nat i := v]> l.
Proof. unfold aset, alen. case_decide; intros; simplify_eq; done. Qed.

Lemma alen_aset (l l' : list A) i v : aset l i v = Some l' -> alen l' = alen l.
Proof. intros [? ->]%aset_Some. unfold alen. by rewrite length_insert. Qed.

Lemma aget_insert (l : list A) i j v :
  0 <= i < alen l -> 0 <= j ->
  aget (<[Z.to_nat i := v]> l) j = if decide (i = j) then Some v else aget l j.
Proof.
  unfold aget, alen. intros ??. rewrite (decide_True _ _ (P := 0 <= j)) by lia.
  case_decide as E.
  - subst. rewrite list_lookup_insert_eq; [done|lia].
  - rewrite list_lookup_insert_ne by lia. by rewrite decide_True.
Qed.

Lemma alen_insert (l : list A) (n : nat) v : alen (<[n := v]> l) = alen l.
Proof. unfold alen. by rewrite length_insert. Qed.

Lemma alen_nonneg (l : list A) : 0 <= alen l.
Proof. unfold alen. lia. Qed.

Lemma alen_app (x y : list A) : alen (x ++ y) = alen x + alen y.
Proof. unfold alen. rewrite length_app. lia. Qed.

Lemma aget_app_l (x y : list A) j v : aget x j = Some v -> aget (x ++ y) j = Some v.
Proof. unfold aget. case_decide; [|done]. apply lookup_app_l_Some. Qed.
End arrays.

(** ** C strings in arrays

    The string [s] and its 0 at index [off]. *)
Fixpoint str_at (w : list Z) (off : Z) (s : list Z) : Prop :=
  match s with
  | [] => aget w off = Some 0
  | c :: s' => aget w off = Some c /\ str_at w (off + 1) s'
  end.

Lemma str_at_frame w w' s : forall off,
  (forall j, off <= j <= off + alen s -> aget w' j = aget w j) -> str_at w off s -> str_at w' off s.
Proof.
  induction s as [|c s IH]; cbn; intros off Hf.
  - rewrite Hf by (unfold alen; cbn; lia). done.
  - unfold alen in Hf. cbn in Hf. rewrite Hf by lia. intros [-> H]. split; [done|].
    apply IH; [|done]. intros j Hj. apply Hf. unfold alen in Hj. lia.
Qed.

Lemma str_at_mono w w' s : forall off, (forall j v, aget w j = Some v -> aget w' j = Some v) -> str_at w off s -> str_at w' off s.
Proof. induction s as [|c s IH]; cbn; intros off Hm; [apply Hm|]. intros [H1 H2]. split; [by apply Hm|by apply IH]. Qed.

Lemma str_at_intro w s : forall off,
  (forall j, 0 <= j <= alen s -> aget w (off + j) = aget (s ++ [0]) j) -> str_at w off s.
Proof.
  induction s as [|c s IH]; intros off H; cbn.
  - specialize (H 0). rewrite Z.add_0_r in H. apply H. done.
  - split; [specialize (H 0); rewrite Z.add_0_r in H; apply H; unfold alen; lia|].
    apply IH. intros j Hj. rewrite <- Z.add_assoc, H by (unfold alen in *; cbn; lia).
    unfold aget. rewrite !decide_True by lia. replace (Z.to_nat (1 + j)) with (S (Z.to_nat j)) by lia. done.
Qed.

(** ** Machine words: [unsigned int] and [int] of the 32-bit WRAMP *)
Definition UINT_MOD : Z := 4294967296.
Definition u32 (z : Z) : Z := z mod UINT_MOD.
Definition s32 (z : Z) : Z := (z + 2147483648) mod UINT_MOD - 2147483648.
Definition is_u32 (z : Z) : Prop := 0 <= z < UINT_MOD.
Definition is_s32 (z : Z) : Prop := -2147483648 <= z < 2147483648.

Lemma u32_id z : is_u32 z -> u32 z = z.
Proof. unfold is_u32, u32. apply Z.mod_small. Qed.

Lemma u32_range z : is_u32 (u32 z).
Proof. unfold is_u32, u32. apply Z.mod_pos_bound. reflexivity. Qed.

Lemma s32_id z : is_s32 z -> s32 z = z.
Proof. unfold is_s32, s32, UINT_MOD. intros ?. rewrite Z.mod_small; lia. Qed.

Lemma s32_range z : is_s32 (s32 z).
Proof.
  unfold is_s32, s32, UINT_MOD.
  pose proof (Z.mod_pos_bound (z + 2147483648) 4294967296 eq_refl). lia.
Qed.

Lemma testbit_u32 z k :
  0 <= k -> Z.testbit (u32 z) k = (k <? 32) && Z.testbit z k.
Proof.
  intros ?. unfold u32. change UINT_MOD with (2 ^ 32).
  destruct (Z.ltb_spec k 32); simpl.
  - by apply Z.mod_pow2_bits_low.
  - apply Z.mod_pow2_bits_high. lia.
Qed.

Lemma testbit_pow2 i k : 0 <= i -> 0 <= k -> Z.testbit (2 ^ i) k = bool_decide (i = k).
Proof.
  intros ??. case_bool_decide; subst; [by apply Z.pow2_bits_true|].
  by apply Z.pow2_bits_false.
Qed.

Lemma land_pow2_eqb0 w i :
  0 <= i -> (Z.land w (2 ^ i) =? 0) = negb (Z.testbit w i).
Proof.
  intros Hi. destruct (Z.testbit w i) eqn:E; simpl.
  - apply Z.eqb_neq. intros H0.
    assert (Z.testbit (Z.land w (2 ^ i)) i = false) as H1 by (rewrite H0; apply Z.bits_0).
    rewrite Z.land_spec, E, Z.pow2_bits_true in H1 by lia. done.
  - apply Z.eqb_eq. apply Z.bits_inj'. intros k Hk.
    rewrite Z.land_spec, testbit_pow2, Z.bits_0 by lia.
    case_bool_decide; subst; [by rewrite E|by rewrite andb_false_r].
Qed.

(** ** Record update

    [r <| f := v |>] is [r] with field [f] replaced.  The setter of a projection
    is synthesised from the eta-expansion of its record type. *)
Class Settable (R : Type) := mkEta { eta : R -> R }.
Arguments mkEta {R} _.
Arguments eta R {Settable}.
Class Setter {R T : Type} (proj : R -> T) := mkSetter { setter : (T -> T) -> R -> R }.

Ltac build_setter p :=
  match type of p with
  | ?R -> ?T =>
      let s := constr:(_ : Settable R) in
      let e := eval cbv [eta] in (@eta R s) in
      let e := eval hnf in e in
      let e' := eval pattern p in e in
      match e' with
      | ?F p =>
          let g := eval cbv beta in (fun (f : T -> T) (r : R) => F (fun r' : R => f (p r')) r) in
          exact (mkSetter R T p g)
      end
  end.

#[export] Hint Extern 1 (Setter ?p) => build_setter p : typeclass_instances.

Definition upd {R T} (proj : R -> T) {S : Setter proj} (f : T -> T) (r : R) : R :=
  setter (proj := proj) f r.
#[global] Arguments upd : simpl never.

#[warnings="-postfix-notation-not-level-1"]
Notation "r <| p ::= f |>" := (upd p f r)
  (at level 12, left associativity, p at level 11, f at level 99).
#[warnings="-postfix-notation-not-level-1"]
Notation "r <| p := v |>" := (upd p (fun _ => v) r)
  (at level 12, left associativity, p at level 11, v at level 99).

(** Reduce projections of updated records. *)
Ltac rsimpl := unfold upd, setter in *; cbn in *.
Ltac gsimpl := unfold upd, setter; cbn.

(** ** State and failure

    [ST S A] is a C function with state [S] and result [A]; [None] is undefined
    behaviour or a kernel panic. *)
Definition ST (S A : Type) : Type := S -> option (A * S).

Section state_monad.
Context {S : Type}.

#[global] Instance st_ret : MRet (ST S) := fun _ a s => Some (a, s).
#[global] Instance st_bind : MBind (ST S) := fun _ _ f m s =>
  match m s with Some (a, s') => f a s' | None => None end.

Definition getS : ST S S := fun s => Some (s, s).
Definition gets {A} (f : S -> A) : ST S A := fun s => Some (f s, s).
Definition putS (s : S) : ST S unit := fun _ => Some (tt, s).
Definition modifyS (f : S -> S) : ST S unit := fun s => Some (tt, f s).
Definition crash {A} : ST S A := fun _ => None.
Definition liftO {A} (o : option A) : ST S A := fun s =>
  match o with Some a => Some (a, s) | None => None end.

(** Total correctness: from a state satisfying [P] the code terminates without
    undefined behaviour in a result and a state satisfying [Q]. *)
Definition triple {A} (P : S -> Prop) (c : ST S A) (Q : A -> S -> Prop) : Prop :=
  forall s, P s -> exists a s', c s = Some (a, s') /\ Q a s'.

Lemma bind_Some {A B} (m : ST S A) (f : A -> ST S B) s r :
  (m ≫= f) s = Some r <-> exists a s', m s = Some (a, s') /\ f a s' = Some r.
Proof.
  unfold mbind, st_bind. destruct (m s) as [[a s']|]; split.
  - intros. eauto.
  - intros (? & ? & ? & ?). by simplify_eq.
  - done.
  - intros (? & ? & ? & ?). by simplify_eq.
Qed.

Lemma bind_run {A B} (m : ST S A) (f : A -> ST S B) s a s' :
  m s = Some (a, s') -> (m ≫= f) s = f a s'.
Proof. unfold mbind, st_bind. by intros ->. Qed.
End state_monad.

(** A sub-component's code runs on its part of a larger state. *)
Definition zoom {S T A} (get : S -> T) (put : T -> S -> S) (c : ST T A) : ST S A :=
  fun s => match c (get s) with
           | Some (a, t) => Some (a, put t s)
           | None => None
           end.

(** ** Error numbers, include/posix_include/errno.h under _SYSTEM *)
Definition OK : Z := 0.
Definition ERR : Z := -1.
Definition EPERM : Z := -1.
Definition ENOENT : Z := -2.
Definition ESRCH : Z := -3.
Definition EINTR : Z := -4.
Definition EIO : Z := -5.
Definition ENXIO : Z := -6.
Definition EBADF : Z := -9.
Definition ECHILD : Z := -10.
Definition EAGAIN : Z := -11.
Definition ENOMEM : Z := -12.
Definition EACCES : Z := -13.
Definition EFAULT : Z := -14.
Definition EBUSY : Z := -16.
Definition EEXIST : Z := -17.
Definition ENOTDIR : Z := -20.
Definition EISDIR : Z := -21.
Definition EINVAL : Z := -22.
Definition ENFILE : Z := -23.
Definition EMFILE : Z := -24.
Definition ENOSPC : Z := -28.
Definition ESPIPE : Z := -29.
Definition EPIPE : Z := -32.
Definition ERANGE : Z := -34.
Definition EDEADLK : Z := -35.
Definition ENAMETOOLONG : Z := -36.
Definition ENOSYS : Z := -38.

(** Status values of a handler, include/winix/comm.h *)
Definition SUSPEND : Z := -998.
Definition DONTREPLY : Z := -997.
Definition PAGE_LEN : Z := 1024.
