(* ===== verification/Bitmap.v ===== *)
(** * winix/bitmap.c: the bitmap module

    A bitmap is an array of 32-bit words, most significant bit first.  The
    definitions follow winix/bitmap.c function by function; an index outside of
    the array makes the result [None].  The lemmas reduce every operation to the
    bit view [bit map k], and the searches to a scan of that view. *)
From S2P Require Import Prelude.

Definition BITMASK_NR : Z := 32.
Definition ZERO_BITS : Z := 1.
Definition ONE_BITS : Z := 2.

(** ** Definitions *)

(** for(i=BITMASK_NR-2;i>=0;i--) mask[i] = mask[i+1] << 1, from i = n-1 down *)
Fixpoint init_mask_loop (n : nat) (mask : list Z) : list Z :=
  match n with
  | O => mask
  | S i => init_mask_loop i (<[i := u32 (Z.shiftl (mask !!! S i) 1)]> mask)
  end.

Definition init_bitmap : list Z :=
  init_mask_loop 31 (<[31%nat := 1]> (replicate 32 0)).

(** The static array after [init_bitmap], the first call of the kernel's main. *)
Definition mask : list Z := Eval vm_compute in init_bitmap.

Definition get_mask (i : Z) : option Z :=
  if (i <? 0) || (i >=? 32) then Some ERR else aget mask i.

Fixpoint fill_loop (n : nat) (i v : Z) (map : list Z) : option (list Z) :=
  match n with
  | O => Some map
  | S n' => map' ← aset map i v; fill_loop n' (i + 1) v map'
  end.

Definition bitmap_clear (map : list Z) (map_len : Z) : option (Z * list Z) :=
  map' ← fill_loop (Z.to_nat map_len) 0 0 map; Some (OK, map').

Definition bitmap_fill (map : list Z) (map_len : Z) : option (Z * list Z) :=
  map' ← fill_loop (Z.to_nat map_len) 0 0xffffffff map; Some (OK, map').

(** The inner loop over j of one word: a result to return, or the run so far. *)
Fixpoint search_word (n : nat) (map : list Z) (i j num count : Z) : option (Z + Z) :=
  match n with
  | O => Some (inr count)
  | S n' =>
      w ← aget map i;
      m ← aget mask j;
      if Z.land w m =? 0 then
        let count := count + 1 in
        if count =? num then Some (inl (i * 32 + j - count + 1))
        else search_word n' map i (j + 1) num count
      else search_word n' map i (j + 1) num 0
  end.

Fixpoint search_rows (n : nat) (map : list Z) (i j num count : Z) : option Z :=
  match n with
  | O => Some ERR
  | S n' =>
      r ← search_word (Z.to_nat (BITMASK_NR - j)) map i j num count;
      match r with
      | inl res => Some res
      | inr count => search_rows n' map (i + 1) 0 num count
      end
  end.

Definition bitmap_search_from (map : list Z) (map_len start num : Z) : option Z :=
  if (num >=? map_len * 32) || (start >=? map_len * 32) then Some ERR
  else
    let i := Z.quot start 32 in
    let j := Z.rem start 32 in
    search_rows (Z.to_nat (map_len - i)) map i j num 0.

Fixpoint search_word_rev (n : nat) (map : list Z) (i num count : Z) : option (Z + Z) :=
  match n with
  | O => Some (inr count)
  | S n' =>
      let j := Z.of_nat n' in
      w ← aget map i;
      m ← aget mask j;
      if Z.land w m =? 0 then
        let count := count + 1 in
        if count =? num then Some (inl (i * 32 + j))
        else search_word_rev n' map i num count
      else search_word_rev n' map i num 0
  end.

Fixpoint search_rows_rev (n : nat) (map : list Z) (num count : Z) : option Z :=
  match n with
  | O => Some ERR
  | S n' =>
      r ← search_word_rev 32 map (Z.of_nat n') num count;
      match r with
      | inl res => Some res
      | inr count => search_rows_rev n' map num count
      end
  end.

Definition bitmap_search_reverse (map : list Z) (map_len num : Z) : option Z :=
  if num >=? map_len * 32 then Some ERR
  else search_rows_rev (Z.to_nat map_len) map num 0.

(** map[inum/32] = map[inum/32] | mask[inum%32] *)
Definition or_mask (map : list Z) (inum : Z) : option (list Z) :=
  w ← aget map (Z.quot inum 32);
  m ← aget mask (Z.rem inum 32);
  aset map (Z.quot inum 32) (Z.lor w m).

(** map[inum/32] = map[inum/32] & (~mask[inum%32]) *)
Definition andnot_mask (map : list Z) (inum : Z) : option (list Z) :=
  w ← aget map (Z.quot inum 32);
  m ← aget mask (Z.rem inum 32);
  aset map (Z.quot inum 32) (Z.land w (u32 (Z.lnot m))).

Definition bitmap_set_bit (map : list Z) (map_len start : Z) : option (Z * list Z) :=
  if start >=? map_len * 32 then Some (ERR, map)
  else map' ← or_mask map start; Some (OK, map').

Definition bitmap_clear_bit (map : list Z) (map_len start : Z) : option (Z * list Z) :=
  if start >=? map_len * 32 then Some (ERR, map)
  else map' ← andnot_mask map start; Some (OK, map').

Fixpoint nbits_loop (f : list Z -> Z -> option (list Z)) (n : nat) (map : list Z) (inum : Z)
  : option (list Z) :=
  match n with
  | O => Some map
  | S n' => map' ← f map inum; nbits_loop f n' map' (inum + 1)
  end.

Definition bitmap_set_nbits (map : list Z) (map_len start len : Z) : option (Z * list Z) :=
  if start + len >=? map_len * 32 then Some (ERR, map)
  else map' ← nbits_loop or_mask (Z.to_nat len) map start; Some (OK, map').

Definition bitmap_clear_nbits (map : list Z) (map_len start len : Z) : option (Z * list Z) :=
  if start + len >=? map_len * 32 then Some (ERR, map)
  else map' ← nbits_loop andnot_mask (Z.to_nat len) map start; Some (OK, map').

Definition bitmap_set_pattern (map : list Z) (map_len index pattern pattern_len : Z)
  : option (Z * list Z) :=
  let i := Z.quot index 32 in
  let j := Z.rem index 32 in
  w ← aget map i;
  map1 ← aset map i (Z.lor w (Z.shiftr pattern j));
  if (i <? map_len - 1) && (32 - j <? pattern_len) then
    w' ← aget map1 (i + 1);
    map2 ← aset map1 (i + 1) (Z.lor w' (u32 (Z.shiftl pattern (32 - j))));
    Some (OK, map2)
  else Some (OK, map1).

Definition is_bit_on (map : list Z) (map_len bitnr : Z) : option bool :=
  let i := Z.quot bitnr 32 in
  let j := Z.rem bitnr 32 in
  if bitnr >? map_len * 32 then Some false
  else
    w ← aget map i;
    m ← aget mask j;
    Some (negb (Z.land w m =? 0)).

Fixpoint count_word (n : nat) (and_mask : bool) (unit j count : Z) : option Z :=
  match n with
  | O => Some count
  | S n' =>
      m ← aget mask j;
      let hit := if and_mask then negb (Z.land m unit =? 0) else (Z.land m unit =? 0) in
      count_word n' and_mask unit (j + 1) (if hit then count + 1 else count)
  end.

Fixpoint count_rows (n : nat) (and_mask : bool) (map : list Z) (i count : Z) : option Z :=
  match n with
  | O => Some count
  | S n' =>
      unit ← aget map i;
      count ← count_word 32 and_mask unit 0 count;
      count_rows n' and_mask map (i + 1) count
  end.

Definition count_bits (map : list Z) (map_len flags : Z) : option Z :=
  if flags =? ONE_BITS then count_rows (Z.to_nat map_len) true map 0 0
  else if flags =? ZERO_BITS then count_rows (Z.to_nat map_len) false map 0 0
  else Some ERR.

Fixpoint xor_loop (n : nat) (map1 map2 : list Z) (i : Z) : option (list Z) :=
  match n with
  | O => Some map1
  | S n' =>
      w1 ← aget map1 i;
      w2 ← aget map2 i;
      map1 ← aset map1 i (Z.lxor w1 w2);
      xor_loop n' map1 map2 (i + 1)
  end.

Definition bitmap_xor (map1 map2 : list Z) (map_len : Z) : option (Z * list Z) :=
  m ← xor_loop (Z.to_nat map_len) map1 map2 0; Some (OK, m).

(** ** The bit view *)
Definition bit (map : list Z) (k : Z) : bool :=
  match aget map (k / 32) with
  | Some w => Z.testbit w (31 - k mod 32)
  | None => false
  end.

Definition wf_map (map : list Z) (map_len : Z) : Prop :=
  alen map = map_len /\ Forall is_u32 map.

Ltac wf_concrete :=
  split; [reflexivity|];
  repeat (apply Forall_cons; split; [unfold is_u32, UINT_MOD; lia|]); by apply Forall_nil.

(** Reference scans of the bit view: the first, and the last, run of [num]
    zero bits. *)
Fixpoint scan (n : nat) (b : Z -> bool) (k num count : Z) : Z :=
  match n with
  | O => ERR
  | S n' =>
      if b k then scan n' b (k + 1) num 0
      else if count + 1 =? num then k - count
      else scan n' b (k + 1) num (count + 1)
  end.

Fixpoint scan_down (n : nat) (b : Z -> bool) (num count : Z) : Z :=
  match n with
  | O => ERR
  | S n' =>
      if b (Z.of_nat n') then scan_down n' b num 0
      else if count + 1 =? num then Z.of_nat n'
      else scan_down n' b num (count + 1)
  end.

(** The bits from [k], [num] of them, are all zero. *)
Definition run_free (b : Z -> bool) (k num : Z) : Prop :=
  forall x, k <= x < k + num -> b x = false.

Fixpoint count_if (n : nat) (b : Z -> bool) (k : Z) : Z :=
  match n with
  | O => 0
  | S n' => (if b k then 1 else 0) + count_if n' b (k + 1)
  end.

(** ** Lemmas *)
Lemma mask_is_init : mask = init_bitmap.
Proof. reflexivity. Qed.

Lemma mask_get j : 0 <= j < 32 -> aget mask j = Some (2 ^ (31 - j)).
Proof.
  intros Hj.
  assert (Forall (fun n : nat => aget mask (Z.of_nat n) = Some (2 ^ (31 - Z.of_nat n))) (seq 0 32))
    as HF by (repeat constructor).
  rewrite Forall_forall in HF.
  specialize (HF (Z.to_nat j)). rewrite Z2Nat.id in HF by lia.
  apply HF. rewrite elem_of_seq. lia.
Qed.

Lemma divmod32 i j : 0 <= j < 32 -> (i * 32 + j) / 32 = i /\ (i * 32 + j) mod 32 = j.
Proof.
  intros ?. rewrite (Z.add_comm (i * 32) j). split.
  - rewrite Z.div_add by lia. rewrite Z.div_small by lia. lia.
  - rewrite Z.mod_add by lia. by apply Z.mod_small.
Qed.

Lemma index32 k : 0 <= k ->
  Z.quot k 32 = k / 32 /\ Z.rem k 32 = k mod 32 /\ 0 <= k mod 32 < 32 /\ k = k / 32 * 32 + k mod 32.
Proof.
  intros ?. rewrite Z.quot_div_nonneg, Z.rem_mod_nonneg by lia.
  pose proof (Z.mod_pos_bound k 32 ltac:(lia)). pose proof (Z.div_mod k 32 ltac:(lia)). lia.
Qed.

Lemma bit_get map i j w :
  aget map i = Some w -> 0 <= j < 32 -> bit map (i * 32 + j) = Z.testbit w (31 - j).
Proof. intros Hw Hj. unfold bit. destruct (divmod32 i j Hj) as [-> ->]. by rewrite Hw. Qed.

Lemma bit_oob map k : ~ (0 <= k < 32 * alen map) -> bit map k = false.
Proof.
  intros Hk. unfold bit. rewrite aget_oob; [done|].
  intros [??]. apply Hk. pose proof (Z.div_mod k 32 ltac:(lia)). pose proof (Z.mod_pos_bound k 32 ltac:(lia)). lia.
Qed.

(** Testing a word against a mask entry reads one bit of the view. *)
Lemma mask_test map i j w :
  aget map i = Some w -> 0 <= j < 32 ->
  exists m, aget mask j = Some m /\ (Z.land w m =? 0) = negb (bit map (i * 32 + j)).
Proof.
  intros Hw Hj. exists (2 ^ (31 - j)). split; [by apply mask_get|].
  by rewrite land_pow2_eqb0, (bit_get map i j w) by (done || lia).
Qed.

Section search.
Context (map : list Z) (num : Z).

Lemma search_word_scan i (n : nat) : forall j count,
  0 <= i < alen map -> 0 <= j -> j + Z.of_nat n <= 32 ->
  exists r, search_word n map i j num count = Some r /\
    forall m : nat, scan (n + m) (bit map) (i * 32 + j) num count =
      match r with
      | inl v => v
      | inr c => scan m (bit map) (i * 32 + j + Z.of_nat n) num c
      end.
Proof.
  induction n as [|n IH]; intros j count Hi Hj Hn; cbn [search_word scan Nat.add].
  { exists (inr count). split; [done|]. intros m. f_equal. lia. }
  destruct (aget_in map i) as [w Hw]; [done|].
  destruct (mask_test map i j w) as (m0 & Hm & Ht); [done|lia|].
  rewrite Hw; simpl. rewrite Hm; simpl. rewrite Ht.
  destruct (bit map (i * 32 + j)) eqn:Eb; simpl.
  - destruct (IH (j + 1) 0) as (r & Hr & Hs); [lia..|].
    exists r. split; [done|]. intros m.
    replace (i * 32 + j + 1) with (i * 32 + (j + 1)) by lia. rewrite Hs.
    destruct r; [done|]. f_equal. lia.
  - case (Z.eqb_spec (count + 1) num) as [E|E].
    + eexists (inl _). split; [done|]. intros m. cbn. lia.
    + destruct (IH (j + 1) (count + 1)) as (r & Hr & Hs); [lia..|].
      exists r. split; [done|]. intros m.
      replace (i * 32 + j + 1) with (i * 32 + (j + 1)) by lia. rewrite Hs.
      destruct r; [done|]. f_equal. lia.
Qed.

Lemma search_rows_scan (n : nat) : forall i j count,
  0 <= i -> i + Z.of_nat n = alen map -> 0 <= j < 32 ->
  search_rows n map i j num count =
    Some (scan (Z.to_nat (32 * Z.of_nat n - j)) (bit map) (i * 32 + j) num count).
Proof.
  induction n as [|n IH]; intros i j count Hi Hn Hj; cbn [search_rows].
  { replace (Z.to_nat (32 * Z.of_nat 0 - j)) with O by lia. done. }
  destruct (search_word_scan i (Z.to_nat (BITMASK_NR - j)) j count) as (r & Hr & Hs);
    [unfold BITMASK_NR; lia..|].
  rewrite Hr; simpl.
  specialize (Hs (Z.to_nat (32 * Z.of_nat n))).
  replace (Z.to_nat (BITMASK_NR - j) + Z.to_nat (32 * Z.of_nat n))%nat
    with (Z.to_nat (32 * Z.of_nat (S n) - j)) in Hs by (unfold BITMASK_NR; lia).
  rewrite Hs. destruct r as [v|c]; [done|].
  rewrite IH by lia. f_equal. rewrite Z.sub_0_r. f_equal.
  unfold BITMASK_NR. lia.
Qed.

Lemma search_word_rev_scan i (n : nat) : forall count,
  0 <= i < alen map -> (n <= 32)%nat ->
  exists r, search_word_rev n map i num count = Some r /\
    scan_down (Z.to_nat (i * 32) + n) (bit map) num count =
      match r with
      | inl v => v
      | inr c => scan_down (Z.to_nat (i * 32)) (bit map) num c
      end.
Proof.
  induction n as [|n IH]; intros count Hi Hn.
  { exists (inr count). split; [done|]. f_equal. lia. }
  cbn [search_word_rev]. rewrite Nat.add_succ_r. cbn [scan_down].
  destruct (aget_in map i) as [w Hw]; [done|].
  destruct (mask_test map i (Z.of_nat n) w) as (m0 & Hm & Ht); [done|lia|].
  rewrite Hw; simpl. rewrite Hm; simpl. rewrite Ht.
  replace (Z.of_nat (Z.to_nat (i * 32) + n)) with (i * 32 + Z.of_nat n) by lia.
  destruct (bit map (i * 32 + Z.of_nat n)) eqn:Eb; simpl.
  - apply IH; lia.
  - case (Z.eqb_spec (count + 1) num) as [E|E].
    + eexists (inl _). done.
    + apply IH; lia.
Qed.

Lemma search_rows_rev_scan (n : nat) : forall count,
  Z.of_nat n <= alen map ->
  search_rows_rev n map num count = Some (scan_down (32 * n) (bit map) num count).
Proof.
  induction n as [|n IH]; intros count Hn; [done|].
  cbn [search_rows_rev].
  destruct (search_word_rev_scan (Z.of_nat n) 32 count) as (r & Hr & Hs); [lia..|].
  rewrite Hr; cbn [mbind option_bind].
  replace (Z.to_nat (Z.of_nat n * 32) + 32)%nat with (32 * S n)%nat in Hs by lia.
  rewrite Hs. destruct r as [v|c]; [done|].
  rewrite IH by lia. do 2 f_equal. lia.
Qed.
End search.

(** What a scan returns: the lowest run, or no run exists. *)
Lemma scan_spec b num (n : nat) : forall k count,
  0 <= count < num -> run_free b (k - count) count ->
  let r := scan n b k num count in
  (r = ERR /\ forall x, k - count <= x -> x + num <= k + Z.of_nat n -> ~ run_free b x num) \/
  (k - count <= r /\ r + num <= k + Z.of_nat n /\ run_free b r num /\
   forall x, k - count <= x < r -> ~ run_free b x num).
Proof.
  induction n as [|n IH]; intros k count Hc Hrun; cbn [scan].
  { left. split; [done|]. lia. }
  destruct (b k) eqn:Eb.
  - assert (Hno : forall x, k - count <= x <= k -> ~ run_free b x num).
    { intros x Hx Hf. specialize (Hf k). rewrite Eb in Hf. discriminate Hf. lia. }
    destruct (IH (k + 1) 0) as [[-> Hr]|(H1 & H2 & H3 & H4)]; [lia|intros x; lia| |].
    + left. split; [done|]. intros x Hx Hx'.
      destruct (Z_le_gt_dec x k); [by apply Hno; lia|]. apply Hr; lia.
    + right. split; [lia|]. split; [lia|]. split; [done|].
      intros x Hx. destruct (Z_le_gt_dec x k); [by apply Hno; lia|]. apply H4; lia.
  - case (Z.eqb_spec (count + 1) num) as [E|E].
    + right. split; [lia|]. split; [lia|]. split; [|lia].
      intros x Hx. destruct (decide (x = k)) as [->|]; [done|]. apply Hrun. lia.
    + destruct (IH (k + 1) (count + 1)) as [[-> Hr]|(H1 & H2 & H3 & H4)]; [lia| | |].
      * intros x Hx. destruct (decide (x = k)) as [->|]; [done|]. apply Hrun. lia.
      * left. split; [done|]. intros x Hx Hx'. apply Hr; lia.
      * right. split; [lia|]. split; [lia|]. split; [done|]. intros x Hx. apply H4; lia.
Qed.

Lemma scan_down_spec b num (n : nat) : forall count,
  0 <= count < num -> run_free b (Z.of_nat n) count ->
  let r := scan_down n b num count in
  (r = ERR /\ forall x, 0 <= x -> x + num <= Z.of_nat n + count -> ~ run_free b x num) \/
  (0 <= r /\ r + num <= Z.of_nat n + count /\ run_free b r num /\
   forall x, r < x -> x + num <= Z.of_nat n + count -> ~ run_free b x num).
Proof.
  induction n as [|n IH]; intros count Hc Hrun; cbn [scan_down].
  { left. split; [done|]. lia. }
  destruct (b (Z.of_nat n)) eqn:Eb.
  - assert (Hno : forall x, x <= Z.of_nat n < x + num -> ~ run_free b x num).
    { intros x Hx Hf. specialize (Hf (Z.of_nat n)). rewrite Eb in Hf. discriminate Hf. lia. }
    destruct (IH 0) as [[-> Hr]|(H1 & H2 & H3 & H4)]; [lia|intros x; lia| |].
    + left. split; [done|]. intros x Hx Hx'.
      destruct (Z_le_gt_dec (x + num) (Z.of_nat n)); [by apply Hr; lia|]. apply Hno; lia.
    + right. split; [lia|]. split; [lia|]. split; [done|].
      intros x Hx Hx'.
      destruct (Z_le_gt_dec (x + num) (Z.of_nat n)); [by apply H4; lia|]. apply Hno; lia.
  - assert (Hrun' : run_free b (Z.of_nat n) (count + 1)).
    { intros x Hx. destruct (decide (x = Z.of_nat n)) as [->|]; [done|]. apply Hrun. lia. }
    case (Z.eqb_spec (count + 1) num) as [E|E].
    + right. rewrite <- E. split; [lia|]. split; [lia|]. split; [done|]. lia.
    + destruct (IH (count + 1)) as [[-> Hr]|(H1 & H2 & H3 & H4)]; [lia|done| |].
      * left. split; [done|]. intros x Hx Hx'. apply Hr; lia.
      * right. split; [lia|]. split; [lia|]. split; [done|]. intros x Hx ?. apply H4; lia.
Qed.

(** With num <= 0 the run counter never meets [num]. *)
Lemma scan_nonpos b num (n : nat) : forall k count,
  num <= 0 -> 0 <= count -> scan n b k num count = ERR.
Proof.
  induction n as [|n IH]; intros; cbn [scan]; [done|].
  destruct (b k); [apply IH; lia|]. rewrite (proj2 (Z.eqb_neq _ _)) by lia. apply IH; lia.
Qed.

Lemma scan_down_nonpos b num (n : nat) : forall count,
  num <= 0 -> 0 <= count -> scan_down n b num count = ERR.
Proof.
  induction n as [|n IH]; intros; cbn [scan_down]; [done|].
  destruct (b _); [apply IH; lia|]. rewrite (proj2 (Z.eqb_neq _ _)) by lia. apply IH; lia.
Qed.

Lemma search_from_scan map map_len start num :
  wf_map map map_len -> 0 <= start < map_len * 32 -> num < map_len * 32 ->
  bitmap_search_from map map_len start num =
    Some (scan (Z.to_nat (map_len * 32 - start)) (bit map) start num 0).
Proof.
  intros [Hl _] Hs Hn. unfold bitmap_search_from.
  destruct (Z.geb_spec num (map_len * 32)); [lia|].
  destruct (Z.geb_spec start (map_len * 32)); [lia|]. simpl.
  destruct (index32 start) as (-> & -> & Hj & Hd); [lia|].
  rewrite search_rows_scan; [|lia..]. f_equal. f_equal; lia.
Qed.

Lemma search_reverse_scan map map_len num :
  wf_map map map_len -> num < map_len * 32 ->
  bitmap_search_reverse map map_len num =
    Some (scan_down (Z.to_nat (map_len * 32)) (bit map) num 0).
Proof.
  intros [Hl _] Hn. pose proof (alen_nonneg map). unfold bitmap_search_reverse.
  destruct (Z.geb_spec num (map_len * 32)); [lia|].
  rewrite search_rows_rev_scan by lia.
  replace (32 * Z.to_nat map_len)%nat with (Z.to_nat (map_len * 32)) by lia. done.
Qed.

(** *** Setting and clearing bits *)
Lemma is_u32_bits w : is_u32 w <-> 0 <= w /\ forall k, 32 <= k -> Z.testbit w k = false.
Proof.
  unfold is_u32. change UINT_MOD with (2 ^ 32). split.
  - intros [? Hw]. split; [done|]. intros k Hk.
    destruct (decide (w = 0)) as [->|]; [apply Z.bits_0|].
    apply Z.bits_above_log2; [done|].
    assert (Z.log2 w < 32) by (apply Z.log2_lt_pow2; lia). lia.
  - intros [? Hb]. split; [done|].
    assert (w = w mod 2 ^ 32) as ->; [|by apply Z.mod_pos_bound].
    apply Z.bits_inj'. intros k Hk. destruct (Z.ltb_spec k 32).
    + by rewrite Z.mod_pow2_bits_low.
    + rewrite Z.mod_pow2_bits_high by lia. by apply Hb.
Qed.

Lemma is_u32_lor a b : is_u32 a -> is_u32 b -> is_u32 (Z.lor a b).
Proof.
  rewrite !is_u32_bits. intros [? Ha] [? Hb]. split; [by apply Z.lor_nonneg|].
  intros k Hk. by rewrite Z.lor_spec, Ha, Hb.
Qed.

Lemma is_u32_land_l a b : is_u32 a -> is_u32 (Z.land a b).
Proof.
  rewrite !is_u32_bits. intros [? Ha]. split; [apply Z.land_nonneg; by left|].
  intros k Hk. by rewrite Z.land_spec, Ha.
Qed.

Lemma is_u32_lxor a b : is_u32 a -> is_u32 b -> is_u32 (Z.lxor a b).
Proof.
  rewrite !is_u32_bits. intros [? Ha] [? Hb]. split; [by apply Z.lxor_nonneg|].
  intros k Hk. by rewrite Z.lxor_spec, Ha, Hb.
Qed.

Lemma is_u32_pow2 j : 0 <= j < 32 -> is_u32 (2 ^ j).
Proof.
  unfold is_u32. change UINT_MOD with (2 ^ 32). intros ?.
  split; [apply Z.pow_nonneg; lia|]. apply Z.pow_lt_mono_r; lia.
Qed.

#[export] Hint Resolve is_u32_lor is_u32_land_l is_u32_lxor : words.

Lemma wf_map_get map map_len i w : wf_map map map_len -> aget map i = Some w -> is_u32 w.
Proof.
  intros [_ HF]. unfold aget. case_decide; [|done].
  intros Hw. by eapply Forall_lookup_1 in HF.
Qed.

Lemma wf_map_insert map map_len (n : nat) w :
  wf_map map map_len -> is_u32 w -> wf_map (<[n := w]> map) map_len.
Proof.
  intros [Hl HF] Hw. split; [by rewrite alen_insert|]. by apply Forall_insert.
Qed.

Lemma bit_insert map i j w k :
  0 <= i < alen map -> 0 <= j < 32 -> 0 <= k ->
  (forall x, 0 <= x < 32 -> x <> j ->
     Z.testbit w (31 - x) = bit map (i * 32 + x)) ->
  bit (<[Z.to_nat i := w]> map) k =
    if decide (k = i * 32 + j) then Z.testbit w (31 - j) else bit map k.
Proof.
  intros Hi Hj Hk Hsame.
  destruct (index32 k Hk) as (_ & _ & Hm & Hd).
  unfold bit at 1. rewrite aget_insert by (done || zlia).
  destruct (decide (i = k / 32)) as [->|Hne].
  - case_decide as E.
    + by replace (k mod 32) with j by lia.
    + rewrite Hsame by lia. f_equal. lia.
  - rewrite decide_False; [done|]. intros ->. destruct (divmod32 i j Hj). lia.
Qed.

(** One [or_mask]/[andnot_mask] step changes exactly one bit of the view. *)
Lemma or_mask_spec map map_len k :
  wf_map map map_len -> 0 <= k < map_len * 32 ->
  exists map', or_mask map k = Some map' /\ wf_map map' map_len /\
    forall x, 0 <= x -> bit map' x = (bit map x || bool_decide (x = k)).
Proof.
  intros Hwf Hk. destruct (index32 k) as (Hq & Hr & Hj & Hd); [lia|].
  assert (Hi : 0 <= k / 32 < alen map) by (destruct Hwf as [-> _]; zlia).
  destruct (aget_in map (k / 32)) as [w Hw]; [done|].
  pose proof (wf_map_get _ _ _ _ Hwf Hw) as Hu.
  unfold or_mask. rewrite Hq, Hr, Hw; simpl. rewrite mask_get by done; simpl.
  rewrite aset_in by done. eexists. split; [done|]. split.
  { apply wf_map_insert; [done|]. apply is_u32_lor; [done|]. apply is_u32_pow2. lia. }
  intros x Hx. rewrite (bit_insert _ _ (k mod 32)); [|done..|].
  - rewrite <- Hd. case_decide; case_bool_decide; try congruence.
    + rewrite Z.lor_spec, Z.pow2_bits_true, !orb_true_r by lia. done.
    + by rewrite orb_false_r.
  - intros y Hy Hne. rewrite Z.lor_spec, Z.pow2_bits_false, orb_false_r by lia.
    by rewrite (bit_get _ _ _ w).
Qed.

Lemma andnot_mask_spec map map_len k :
  wf_map map map_len -> 0 <= k < map_len * 32 ->
  exists map', andnot_mask map k = Some map' /\ wf_map map' map_len /\
    forall x, 0 <= x -> bit map' x = (bit map x && negb (bool_decide (x = k))).
Proof.
  intros Hwf Hk. destruct (index32 k) as (Hq & Hr & Hj & Hd); [lia|].
  assert (Hi : 0 <= k / 32 < alen map) by (destruct Hwf as [-> _]; zlia).
  destruct (aget_in map (k / 32)) as [w Hw]; [done|].
  pose proof (wf_map_get _ _ _ _ Hwf Hw) as Hu.
  unfold andnot_mask. rewrite Hq, Hr, Hw; simpl. rewrite mask_get by done; simpl.
  rewrite aset_in by done. eexists. split; [done|]. split.
  { apply wf_map_insert; [done|]. by apply is_u32_land_l. }
  assert (Hb : forall y, 0 <= y < 32 ->
    Z.testbit (Z.land w (u32 (Z.lnot (2 ^ (31 - k mod 32))))) (31 - y) =
    bit map (k / 32 * 32 + y) && negb (bool_decide (y = k mod 32))).
  { intros y Hy. rewrite Z.land_spec, testbit_u32, Z.lnot_spec, testbit_pow2 by lia.
    rewrite (bit_get _ _ _ w) by done.
    destruct (Z.ltb_spec (31 - y) 32); [|lia]. simpl.
    f_equal. f_equal. apply bool_decide_ext. lia. }
  intros x Hx. rewrite (bit_insert _ _ (k mod 32)); [|done..|].
  - rewrite Hb, <- Hd by done. case_decide; case_bool_decide; try congruence.
    + subst. by rewrite bool_decide_eq_true_2, !andb_false_r.
    + by rewrite andb_true_r.
  - intros y Hy Hne. rewrite Hb by done. rewrite bool_decide_eq_false_2 by done.
    by rewrite andb_true_r.
Qed.

Lemma set_nbits_loop_spec map_len (n : nat) : forall map k,
  wf_map map map_len -> 0 <= k -> k + Z.of_nat n <= map_len * 32 ->
  exists map', nbits_loop or_mask n map k = Some map' /\ wf_map map' map_len /\
    forall x, 0 <= x -> bit map' x = (bit map x || bool_decide (k <= x < k + Z.of_nat n)).
Proof.
  induction n as [|n IH]; intros map k Hwf Hk Hn; cbn [nbits_loop].
  { exists map. split; [done|]. split; [done|]. intros x Hx.
    rewrite bool_decide_eq_false_2 by lia. by rewrite orb_false_r. }
  destruct (or_mask_spec map map_len k) as (m1 & -> & Hwf1 & Hb1); [done|lia|].
  destruct (IH m1 (k + 1)) as (m2 & Hm2 & Hwf2 & Hb2); [done|lia..|].
  exists m2. split; [done|]. split; [done|]. intros x Hx.
  rewrite Hb2, Hb1, <- orb_assoc by done. f_equal.
  repeat case_bool_decide; simpl; lia || done.
Qed.

Lemma clear_nbits_loop_spec map_len (n : nat) : forall map k,
  wf_map map map_len -> 0 <= k -> k + Z.of_nat n <= map_len * 32 ->
  exists map', nbits_loop andnot_mask n map k = Some map' /\ wf_map map' map_len /\
    forall x, 0 <= x -> bit map' x = (bit map x && negb (bool_decide (k <= x < k + Z.of_nat n))).
Proof.
  induction n as [|n IH]; intros map k Hwf Hk Hn; cbn [nbits_loop].
  { exists map. split; [done|]. split; [done|]. intros x Hx.
    rewrite bool_decide_eq_false_2 by lia. by rewrite andb_true_r. }
  destruct (andnot_mask_spec map map_len k) as (m1 & -> & Hwf1 & Hb1); [done|lia|].
  destruct (IH m1 (k + 1)) as (m2 & Hm2 & Hwf2 & Hb2); [done|lia..|].
  exists m2. split; [done|]. split; [done|]. intros x Hx.
  rewrite Hb2, Hb1, <- andb_assoc by done. f_equal.
  repeat case_bool_decide; simpl; lia || done.
Qed.

(** The guards of the multi-bit operations: a request that reaches the last
    bit of the map is refused. *)
Lemma set_nbits_ok map map_len start len :
  wf_map map map_len -> 0 <= start -> 0 <= len -> start + len < map_len * 32 ->
  exists map', bitmap_set_nbits map map_len start len = Some (OK, map') /\ wf_map map' map_len /\
    forall x, 0 <= x -> bit map' x = (bit map x || bool_decide (start <= x < start + len)).
Proof.
  intros Hwf Hs Hl Hb. unfold bitmap_set_nbits.
  destruct (Z.geb_spec (start + len) (map_len * 32)); [lia|].
  destruct (set_nbits_loop_spec map_len (Z.to_nat len) map start) as (m & -> & Hwf' & Hm); [done|lia..|].
  exists m. rewrite Z2Nat.id in Hm by lia. done.
Qed.

Lemma clear_nbits_ok map map_len start len :
  wf_map map map_len -> 0 <= start -> 0 <= len -> start + len < map_len * 32 ->
  exists map', bitmap_clear_nbits map map_len start len = Some (OK, map') /\ wf_map map' map_len /\
    forall x, 0 <= x ->
      bit map' x = (bit map x && negb (bool_decide (start <= x < start + len))).
Proof.
  intros Hwf Hs Hl Hb. unfold bitmap_clear_nbits.
  destruct (Z.geb_spec (start + len) (map_len * 32)); [lia|].
  destruct (clear_nbits_loop_spec map_len (Z.to_nat len) map start) as (m & -> & Hwf' & Hm); [done|lia..|].
  exists m. rewrite Z2Nat.id in Hm by lia. done.
Qed.

Lemma set_nbits_err map map_len start len :
  map_len * 32 <= start + len -> bitmap_set_nbits map map_len start len = Some (ERR, map).
Proof. intros. unfold bitmap_set_nbits. by destruct (Z.geb_spec (start + len) (map_len * 32)); [|lia]. Qed.

Lemma clear_nbits_err map map_len start len :
  map_len * 32 <= start + len -> bitmap_clear_nbits map map_len start len = Some (ERR, map).
Proof. intros. unfold bitmap_clear_nbits. by destruct (Z.geb_spec (start + len) (map_len * 32)); [|lia]. Qed.

Lemma set_bit_ok map map_len k :
  wf_map map map_len -> 0 <= k < map_len * 32 ->
  exists map', bitmap_set_bit map map_len k = Some (OK, map') /\ wf_map map' map_len /\
    forall x, 0 <= x -> bit map' x = (bit map x || bool_decide (x = k)).
Proof.
  intros Hwf Hk. unfold bitmap_set_bit. destruct (Z.geb_spec k (map_len * 32)); [lia|].
  destruct (or_mask_spec map map_len k) as (m & -> & ? & ?); [done..|]. by exists m.
Qed.

Lemma clear_bit_ok map map_len k :
  wf_map map map_len -> 0 <= k < map_len * 32 ->
  exists map', bitmap_clear_bit map map_len k = Some (OK, map') /\ wf_map map' map_len /\
    forall x, 0 <= x -> bit map' x = (bit map x && negb (bool_decide (x = k))).
Proof.
  intros Hwf Hk. unfold bitmap_clear_bit. destruct (Z.geb_spec k (map_len * 32)); [lia|].
  destruct (andnot_mask_spec map map_len k) as (m & -> & ? & ?); [done..|]. by exists m.
Qed.

Lemma is_bit_on_bit map map_len k :
  wf_map map map_len -> 0 <= k < map_len * 32 -> is_bit_on map map_len k = Some (bit map k).
Proof.
  intros [Hl _] Hk. destruct (index32 k) as (Hq & Hr & Hj & Hd); [lia|].
  unfold is_bit_on. destruct (Z.gtb_spec k (map_len * 32)); [lia|].
  rewrite Hq, Hr. destruct (aget_in map (k / 32)) as [w Hw]; [zlia|].
  destruct (mask_test map _ _ w Hw Hj) as (m & Hm & Ht).
  rewrite Hw; simpl. rewrite Hm; simpl. rewrite Ht, negb_involutive. by rewrite <- Hd.
Qed.

(** Two well-formed maps with the same bits are the same array. *)
Lemma wf_map_ext m1 m2 map_len :
  wf_map m1 map_len -> wf_map m2 map_len ->
  (forall x, 0 <= x -> bit m1 x = bit m2 x) -> m1 = m2.
Proof.
  intros [Hl1 Hu1] [Hl2 Hu2] Hb. apply list_eq_same_length with (length m2); [done|unfold alen in *; lia|].
  intros i w1 w2 Hi Hw1 Hw2.
  pose proof (proj1 (is_u32_bits w1) (Forall_lookup_1 _ _ _ _ Hu1 Hw1)) as [? H1].
  pose proof (proj1 (is_u32_bits w2) (Forall_lookup_1 _ _ _ _ Hu2 Hw2)) as [? H2].
  assert (Hg : forall (m : list Z) w, m !! i = Some w -> aget m (Z.of_nat i) = Some w).
  { intros m w Hm. unfold aget. rewrite decide_True by lia. by rewrite Nat2Z.id. }
  apply Z.bits_inj'. intros k Hk. destruct (Z.ltb_spec k 32); [|by rewrite H1, H2].
  specialize (Hb (Z.of_nat i * 32 + (31 - k)) ltac:(lia)).
  rewrite (bit_get m1 _ _ w1), (bit_get m2 _ _ w2) in Hb by (auto || lia).
  by replace (31 - (31 - k)) with k in Hb by lia.
Qed.

(** *** Whole-map operations *)
Lemma fill_loop_spec v (n : nat) : forall map i,
  0 <= i -> i + Z.of_nat n <= alen map ->
  exists map', fill_loop n i v map = Some map' /\ alen map' = alen map /\
    forall x, 0 <= x -> aget map' x = if decide (i <= x < i + Z.of_nat n) then Some v else aget map x.
Proof.
  induction n as [|n IH]; intros map i Hi Hn; cbn [fill_loop].
  { exists map. repeat split. intros x Hx. by rewrite decide_False by lia. }
  rewrite aset_in by lia; simpl.
  destruct (IH (<[Z.to_nat i:=v]> map) (i + 1)) as (m & -> & Hl & Hm); [lia|rewrite alen_insert; lia|].
  exists m. split; [done|]. split; [by rewrite Hl, alen_insert|].
  intros x Hx. rewrite Hm, aget_insert by lia.
  repeat case_decide; try lia; done.
Qed.

Lemma fill_all v map map_len :
  alen map = map_len ->
  fill_loop (Z.to_nat map_len) 0 v map = Some (replicate (Z.to_nat map_len) v).
Proof.
  intros Hl. pose proof (alen_nonneg map).
  destruct (fill_loop_spec v (Z.to_nat map_len) map 0) as (m & -> & Hm & Hg); [lia..|].
  f_equal. apply list_eq_same_length with (length map); [by rewrite length_replicate; unfold alen in *; lia|
    unfold alen in *; lia|].
  intros i x y Hi Hx Hy. apply lookup_replicate in Hy as [-> _].
  specialize (Hg (Z.of_nat i) ltac:(lia)). unfold aget in Hg at 1.
  rewrite !decide_True, Nat2Z.id in Hg by (unfold alen in *; lia). congruence.
Qed.

Lemma bit_replicate v (n : nat) k :
  0 <= k < 32 * Z.of_nat n -> bit (replicate n v) k = Z.testbit v (31 - k mod 32).
Proof.
  intros Hk. unfold bit, aget. rewrite decide_True by zlia.
  rewrite lookup_replicate_2 by zlia. done.
Qed.

Lemma wf_replicate v (n : nat) : is_u32 v -> wf_map (replicate n v) (Z.of_nat n).
Proof. intros. split; [unfold alen; by rewrite length_replicate|]. by apply Forall_replicate. Qed.

Lemma bitmap_clear_spec map map_len :
  alen map = map_len ->
  bitmap_clear map map_len = Some (OK, replicate (Z.to_nat map_len) 0) /\
  wf_map (replicate (Z.to_nat map_len) 0) map_len /\
  forall k, bit (replicate (Z.to_nat map_len) 0) k = false.
Proof.
  intros Hl. pose proof (alen_nonneg map). unfold bitmap_clear. rewrite fill_all by done.
  split; [done|]. split.
  - replace map_len with (Z.of_nat (Z.to_nat map_len)) at 2 by lia. by apply wf_replicate.
  - intros k. destruct (decide (0 <= k < 32 * Z.of_nat (Z.to_nat map_len))).
    + rewrite bit_replicate by done. apply Z.bits_0.
    + apply bit_oob. unfold alen. by rewrite length_replicate.
Qed.

Lemma count_word_spec (am : bool) map i w (n : nat) : forall j count,
  aget map i = Some w -> 0 <= j -> j + Z.of_nat n <= 32 ->
  count_word n am w j count =
    Some (count + count_if n (fun k => Bool.eqb (bit map k) am) (i * 32 + j)).
Proof.
  induction n as [|n IH]; intros j count Hw Hj Hn; cbn [count_word count_if].
  { by rewrite Z.add_0_r. }
  destruct (mask_test map i j w) as (m & Hm & Ht); [done|lia|].
  rewrite Hm; simpl. rewrite IH by (done || lia). f_equal.
  replace (i * 32 + (j + 1)) with (i * 32 + j + 1) by lia.
  rewrite (Z.land_comm m w), Ht.
  destruct (bit map (i * 32 + j)), am; simpl; lia.
Qed.

Lemma count_if_app (n m : nat) b : forall k,
  count_if (n + m) b k = count_if n b k + count_if m b (k + Z.of_nat n).
Proof.
  induction n as [|n IH]; intros k; cbn [count_if Nat.add].
  - by rewrite Z.add_0_r.
  - rewrite IH. replace (k + 1 + Z.of_nat n) with (k + Z.of_nat (S n)) by lia. lia.
Qed.

Lemma count_rows_S (am : bool) map (n : nat) i count :
  count_rows (S n) am map i count =
    (unit ← aget map i; c ← count_word 32 am unit 0 count; count_rows n am map (i + 1) c).
Proof. reflexivity. Qed.

Lemma count_if_rows b (n : nat) i :
  count_if (32 * S n) b (i * 32) = count_if 32 b (i * 32) + count_if (32 * n) b ((i + 1) * 32).
Proof.
  replace (32 * S n)%nat with (32 + 32 * n)%nat by lia.
  rewrite count_if_app. f_equal. f_equal. lia.
Qed.

#[local] Opaque count_if count_word Nat.mul.

Lemma count_rows_spec (am : bool) map (n : nat) : forall i count,
  0 <= i -> i + Z.of_nat n <= alen map ->
  count_rows n am map i count =
    Some (count + count_if (32 * n) (fun k => Bool.eqb (bit map k) am) (i * 32)).
Proof.
  induction n as [|n IH]; intros i count Hi Hn.
  { rewrite Nat.mul_0_r. by rewrite Z.add_0_r. }
  destruct (aget_in map i) as [w Hw]; [lia|].
  rewrite count_rows_S, count_if_rows, Hw, obind_Some. 
  rewrite (count_word_spec am map i), obind_Some, IH by (done || lia).
  by rewrite Z.add_0_r, Z.add_assoc.
Qed.

#[local] Transparent count_if count_word Nat.mul.

Lemma count_if_compl (n : nat) b : forall k,
  count_if n (fun x => Bool.eqb (b x) true) k + count_if n (fun x => Bool.eqb (b x) false) k = Z.of_nat n.
Proof.
  induction n as [|n IH]; intros k; cbn [count_if]; [done|].
  specialize (IH (k + 1)). destruct (b k); simpl; lia.
Qed.

Lemma xor_loop_spec map_len m2 (n : nat) : forall m1 i,
  wf_map m1 map_len -> wf_map m2 map_len -> 0 <= i -> i + Z.of_nat n <= map_len ->
  exists m, xor_loop n m1 m2 i = Some m /\ wf_map m map_len /\
    forall x, 0 <= x -> bit m x =
      if decide (i <= x / 32 < i + Z.of_nat n) then xorb (bit m1 x) (bit m2 x) else bit m1 x.
Proof.
  induction n as [|n IH]; intros m1 i Hw1 Hw2 Hi Hn; cbn [xor_loop].
  { exists m1. repeat split; [apply Hw1..|]. intros x Hx. by rewrite decide_False by lia. }
  pose proof (proj1 Hw1) as Hl1. pose proof (proj1 Hw2) as Hl2.
  destruct (aget_in m1 i) as [w1 Hg1]; [lia|].
  destruct (aget_in m2 i) as [w2 Hg2]; [lia|].
  rewrite Hg1, Hg2; cbn [mbind option_bind]. rewrite aset_in by lia; cbn [mbind option_bind].
  assert (Hb0 : forall x, 0 <= x -> bit (<[Z.to_nat i:=Z.lxor w1 w2]> m1) x =
    if decide (i = x / 32) then xorb (bit m1 x) (bit m2 x) else bit m1 x).
  { intros x Hx. destruct (index32 x Hx) as (_ & _ & Hm & Hd).
    unfold bit at 1. rewrite aget_insert; [|lia|apply Z.div_pos; lia]. case_decide as E; [|done]. subst i.
    unfold bit. rewrite Hg1, Hg2, Z.lxor_spec. done. }
  destruct (IH (<[Z.to_nat i:=Z.lxor w1 w2]> m1) (i + 1)) as (m & -> & Hw & Hm); [|done|lia|lia|].
  { apply wf_map_insert; [done|]. apply is_u32_lxor; [apply (wf_map_get _ _ _ _ Hw1 Hg1)|apply (wf_map_get _ _ _ _ Hw2 Hg2)]. }
  exists m. split; [done|]. split; [done|]. intros x Hx.
  rewrite Hm, Hb0 by done. repeat case_decide; try lia; done.
Qed.

Lemma bitmap_xor_spec m1 m2 map_len :
  wf_map m1 map_len -> wf_map m2 map_len ->
  exists m, bitmap_xor m1 m2 map_len = Some (OK, m) /\ wf_map m map_len /\
    forall x, 0 <= x -> bit m x = xorb (bit m1 x) (bit m2 x).
Proof.
  intros Hw1 Hw2. pose proof (alen_nonneg m1) as Hnn.
  pose proof (proj1 Hw1) as Hl1. pose proof (proj1 Hw2) as Hl2.
  unfold bitmap_xor.
  destruct (xor_loop_spec map_len m2 (Z.to_nat map_len) m1 0) as (m & -> & Hw & Hb); [done..|lia|lia|].
  exists m. split; [done|]. split; [done|]. intros x Hx. rewrite Hb by done.
  case_decide as E; [done|]. rewrite !bit_oob by zlia. done.
Qed.

(** ** Properties *)

(** [bitmap_search_from] never reads outside of the map and returns the
    lowest run of [num] zero bits that starts at [start] or later; it returns
    [ERR] exactly when there is no such run. *)
Theorem search_from_first_fit map map_len start num :
  wf_map map map_len -> 0 <= start < map_len * 32 -> 1 <= num < map_len * 32 ->
  exists r, bitmap_search_from map map_len start num = Some r /\
    ((r = ERR /\ forall k, start <= k -> k + num <= map_len * 32 -> ~ run_free (bit map) k num) \/
     (start <= r /\ r + num <= map_len * 32 /\ run_free (bit map) r num /\
      forall k, start <= k < r -> ~ run_free (bit map) k num)).
Proof.
  intros Hwf Hs Hn. rewrite search_from_scan by (done || lia). eexists. split; [done|].
  destruct (scan_spec (bit map) num (Z.to_nat (map_len * 32 - start)) start 0)
    as [[-> H]|(H1 & H2 & H3 & H4)]; [lia|intros x; lia| |].
  - left. split; [done|]. intros k Hk Hk'. apply H; lia.
  - right. split; [lia|]. split; [lia|]. split; [done|]. intros k Hk. apply H4; lia.
Qed.

Lemma search_from_first_fit_witness :
  exists r, bitmap_search_from [0xf0000000; 0] 2 2 5 = Some r /\
    ((r = ERR /\ forall k, 2 <= k -> k + 5 <= 2 * 32 -> ~ run_free (bit [0xf0000000; 0]) k 5) \/
     (2 <= r /\ r + 5 <= 2 * 32 /\ run_free (bit [0xf0000000; 0]) r 5 /\
      forall k, 2 <= k < r -> ~ run_free (bit [0xf0000000; 0]) k 5)).
Proof.
  apply (search_from_first_fit [0xf0000000; 0] 2 2 5); [|lia|lia].
  wf_concrete.
Defined.

(** [bitmap_search_reverse] returns the highest run of [num] zero bits, and
    [ERR] exactly when the map has none. *)
Theorem search_reverse_last_fit map map_len num :
  wf_map map map_len -> 1 <= num < map_len * 32 ->
  exists r, bitmap_search_reverse map map_len num = Some r /\
    ((r = ERR /\ forall k, 0 <= k -> k + num <= map_len * 32 -> ~ run_free (bit map) k num) \/
     (0 <= r /\ r + num <= map_len * 32 /\ run_free (bit map) r num /\
      forall k, r < k -> k + num <= map_len * 32 -> ~ run_free (bit map) k num)).
Proof.
  intros Hwf Hn. rewrite search_reverse_scan by (done || lia). eexists. split; [done|].
  destruct (scan_down_spec (bit map) num (Z.to_nat (map_len * 32)) 0)
    as [[-> H]|(H1 & H2 & H3 & H4)]; [lia|intros x; lia| |].
  - left. split; [done|]. intros k Hk Hk'. apply H; lia.
  - right. split; [lia|]. split; [lia|]. split; [done|]. intros k Hk Hk'. apply H4; lia.
Qed.

Lemma search_reverse_last_fit_witness :
  exists r, bitmap_search_reverse [0; 1] 2 3 = Some r /\
    ((r = ERR /\ forall k, 0 <= k -> k + 3 <= 2 * 32 -> ~ run_free (bit [0; 1]) k 3) \/
     (0 <= r /\ r + 3 <= 2 * 32 /\ run_free (bit [0; 1]) r 3 /\
      forall k, r < k -> k + 3 <= 2 * 32 -> ~ run_free (bit [0; 1]) k 3)).
Proof.
  apply (search_reverse_last_fit [0; 1] 2 3); [|lia].
  wf_concrete.
Defined.

(** Clearing a range that was free before it was set gives back the very
    same array: [bitmap_clear_nbits] undoes [bitmap_set_nbits]. *)
Theorem set_clear_roundtrip map map_len start len :
  wf_map map map_len -> 0 <= start -> 0 <= len -> start + len < map_len * 32 ->
  run_free (bit map) start len ->
  exists map', bitmap_set_nbits map map_len start len = Some (OK, map') /\
    (forall k, start <= k < start + len -> is_bit_on map' map_len k = Some true) /\
    bitmap_clear_nbits map' map_len start len = Some (OK, map).
Proof.
  intros Hwf Hs Hl Hb Hfree.
  destruct (set_nbits_ok map map_len start len) as (m1 & H1 & Hw1 & Hb1); [done..|].
  destruct (clear_nbits_ok m1 map_len start len) as (m2 & H2 & Hw2 & Hb2); [done..|].
  exists m1. split; [done|]. split.
  - intros k Hk. rewrite is_bit_on_bit by (done || lia). rewrite Hb1 by lia.
    rewrite bool_decide_eq_true_2 by lia. by rewrite orb_true_r.
  - rewrite H2. repeat f_equal. apply (wf_map_ext m2 map map_len); [done..|].
    intros x Hx. rewrite Hb2, Hb1 by done. case_bool_decide as E; simpl.
    + rewrite andb_false_r. symmetry. by apply Hfree.
    + by rewrite orb_false_r, andb_true_r.
Qed.

Lemma set_clear_roundtrip_witness :
  exists map', bitmap_set_nbits [0; 1] 2 28 8 = Some (OK, map') /\
    (forall k, 28 <= k < 28 + 8 -> is_bit_on map' 2 k = Some true) /\
    bitmap_clear_nbits map' 2 28 8 = Some (OK, [0; 1]).
Proof.
  apply (set_clear_roundtrip [0; 1] 2 28 8); [|lia|lia|lia|].
  - wf_concrete.
  - intros x Hx. assert (x = 28 \/ x = 29 \/ x = 30 \/ x = 31 \/ x = 32 \/ x = 33 \/ x = 34 \/ x = 35)
      as Hcases by lia.
    repeat destruct Hcases as [->|Hcases]; try subst; reflexivity.
Defined.

(** [count_bits] counts the one bits, or the zero bits, of the bit view,
    and the two counts add up to the size of the map; other flags are refused. *)
Theorem count_bits_partition map map_len :
  wf_map map map_len ->
  exists ones zeros,
    count_bits map map_len ONE_BITS = Some ones /\
    count_bits map map_len ZERO_BITS = Some zeros /\
    ones = count_if (Z.to_nat (map_len * 32)) (bit map) 0 /\
    ones + zeros = map_len * 32 /\
    (forall flags, flags <> ONE_BITS -> flags <> ZERO_BITS -> count_bits map map_len flags = Some ERR).
Proof.
  intros [Hl Hu]. pose proof (alen_nonneg map) as Hnn.
  unfold count_bits. cbn [ONE_BITS ZERO_BITS Z.eqb Pos.eqb].
  rewrite !count_rows_spec by lia. do 2 eexists. split; [done|]. split; [done|].
  replace (32 * Z.to_nat map_len)%nat with (Z.to_nat (map_len * 32)) by lia.
  split; [|split].
  - rewrite Z.add_0_l. change (0 * 32) with 0. generalize (Z.to_nat (map_len * 32)) as n. generalize 0 as k.
    intros k n; revert k. induction n as [|n IH]; intros k; cbn [count_if]; [done|]. rewrite IH. by destruct (bit map k).
  - rewrite !Z.add_0_l, count_if_compl. lia.
  - intros flags H1 H2. apply Z.eqb_neq in H1 as ->. apply Z.eqb_neq in H2 as ->. done.
Qed.

Lemma count_bits_partition_witness :
  exists ones zeros,
    count_bits [0xff; 0x80000001] 2 ONE_BITS = Some ones /\
    count_bits [0xff; 0x80000001] 2 ZERO_BITS = Some zeros /\
    ones = count_if (Z.to_nat (2 * 32)) (bit [0xff; 0x80000001]) 0 /\
    ones + zeros = 2 * 32 /\
    (forall flags, flags <> ONE_BITS -> flags <> ZERO_BITS ->
       count_bits [0xff; 0x80000001] 2 flags = Some ERR).
Proof.
  apply (count_bits_partition [0xff; 0x80000001] 2).
  wf_concrete.
Defined.

(** [is_bit_on] agrees with the bit view inside the map and answers 0 far
    above it, but for the bit number [map_len * 32] its guard lets the read of
    [map[map_len]] through, one word past the end of the array. *)
Theorem is_bit_on_bounds map map_len :
  wf_map map map_len ->
  (forall k, 0 <= k < map_len * 32 -> is_bit_on map map_len k = Some (bit map k)) /\
  (forall k, map_len * 32 < k -> is_bit_on map map_len k = Some false) /\
  is_bit_on map map_len (map_len * 32) = None.
Proof.
  intros Hwf. pose proof (proj1 Hwf) as Hl. pose proof (alen_nonneg map) as Hnn.
  split; [|split].
  - intros k Hk. by apply is_bit_on_bit.
  - intros k Hk. unfold is_bit_on. by destruct (Z.gtb_spec k (map_len * 32)); [|lia].
  - unfold is_bit_on. destruct (Z.gtb_spec (map_len * 32) (map_len * 32)); [lia|].
    rewrite Z.quot_mul by lia. by rewrite (aget_oob map) by lia.
Qed.

Lemma is_bit_on_bounds_witness :
  (forall k, 0 <= k < 1 * 32 -> is_bit_on [0xff] 1 k = Some (bit [0xff] k)) /\
  (forall k, 1 * 32 < k -> is_bit_on [0xff] 1 k = Some false) /\
  is_bit_on [0xff] 1 (1 * 32) = None.
Proof.
  apply (is_bit_on_bounds [0xff] 1).
  wf_concrete.
Defined.
