(* ===== verification/Mm.v ===== *)
(** * winix/mm.c: the physical page allocator

    The system page map is a bitmap of 128 pages of 1024 words; a process has a
    protection table of 1024 bits that says which pages it may touch.  Addresses
    are 32-bit words; the casts of the source to [int] are written out. *)
From S2P Require Import Prelude Bitmap.

(** ** include/winix/page.h, include/winix/comm.h, include/winix/gfp.h *)
Definition MEM_MAP_LEN : Z := 4.
Definition PTABLE_LEN : Z := 32.
Definition GFP_NORM : Z := 1.
Definition GFP_HIGH : Z := 2.
Definition FREE_MEM_END : Z := 0x1ffff.

Definition align_page (len : Z) : Z :=
  s32 (Z.shiftl (Z.shiftr (s32 (s32 len - 1)) 10) 10 + PAGE_LEN).
Definition PADDR_TO_PAGED (addr : Z) : Z := Z.quot (s32 addr) PAGE_LEN.
Definition PADDR_TO_NUM_PAGES (addr : Z) : Z := Z.quot (align_page addr) PAGE_LEN.
Definition PAGE_TO_PADDR (index : Z) : Z := u32 (index * PAGE_LEN).
Definition get_physical_addr (va rbase : Z) : Z := u32 (va + rbase).
Definition get_virtual_addr (pa rbase : Z) : Z := u32 (pa - rbase).

(** ** State: the two static variables of mm.c *)
Record mmst := mkMm {
  mem_map : list Z;
  bss_page_end : Z
}.
#[export] Instance eta_mmst : Settable mmst := mkEta (fun m =>
  mkMm (mem_map m) (bss_page_end m)).

(** Run a bitmap operation on [mem_map], keeping its result. *)
Definition on_mem_map (f : list Z -> option (Z * list Z)) : ST mmst Z := fun m =>
  match f (mem_map m) with
  | Some (r, map) => Some (r, m <| mem_map := map |>)
  | None => None
  end.

(** ** Operations *)
Definition is_vaddr_ok (addr rbase : Z) (ptable : list Z) : option bool :=
  let paddr := get_physical_addr addr rbase in
  let page := PADDR_TO_PAGED paddr in
  is_bit_on ptable PTABLE_LEN page.

Definition is_page_free (addr : Z) : ST mmst bool :=
  let paged := PADDR_TO_PAGED addr in
  m ← getS;
  b ← liftO (is_bit_on (mem_map m) MEM_MAP_LEN paged);
  mret (negb b).

Fixpoint pages_free_loop (n : nat) (map : list Z) (paged : Z) : option bool :=
  match n with
  | O => Some true
  | S n' =>
      b ← is_bit_on map MEM_MAP_LEN paged;
      if (b : bool) then Some false else pages_free_loop n' map (paged + 1)
  end.

Definition is_pages_free_from (addr size : Z) : ST mmst bool :=
  let paged := PADDR_TO_PAGED addr in
  let page_num := PADDR_TO_NUM_PAGES size in
  m ← getS;
  liftO (pages_free_loop (Z.to_nat page_num) (mem_map m) paged).

Definition get_free_pages (length flags : Z) : ST mmst Z :=
  let num := PADDR_TO_NUM_PAGES length in
  m ← getS;
  nstart ← liftO (if Z.land flags GFP_HIGH =? 0
                  then bitmap_search_from (mem_map m) MEM_MAP_LEN (bss_page_end m) num
                  else bitmap_search_reverse (mem_map m) MEM_MAP_LEN num);
  if nstart >=? 0 then
    _ ← on_mem_map (fun map => bitmap_set_nbits map MEM_MAP_LEN nstart num);
    mret (PAGE_TO_PADDR nstart)
  else mret 0.

Definition user_get_free_pages (ptable : list Z) (length flags : Z) : ST mmst (Z * list Z) :=
  p ← get_free_pages length flags;
  if p =? 0 then mret (0, ptable)
  else
    let index := PADDR_TO_PAGED p in
    let page_num := PADDR_TO_NUM_PAGES length in
    r ← liftO (bitmap_set_nbits ptable PTABLE_LEN index page_num);
    let '(e, ptable') := (r : Z * list Z) in
    if e =? ERR then mret (0, ptable') else mret (p, ptable').

Definition get_free_pages_from (addr size : Z) : ST mmst Z :=
  free ← is_pages_free_from addr size;
  if negb free then mret ENOMEM
  else
    let paged := PADDR_TO_PAGED addr in
    let page_num := PADDR_TO_NUM_PAGES size in
    on_mem_map (fun map => bitmap_set_nbits map MEM_MAP_LEN paged page_num).

Definition user_get_free_pages_from (ptable : list Z) (addr size : Z) : ST mmst (Z * list Z) :=
  error ← get_free_pages_from addr size;
  if negb (error =? 0) then mret (error, ptable)
  else
    let index := PADDR_TO_PAGED addr in
    let page_num := PADDR_TO_NUM_PAGES size in
    liftO (bitmap_set_nbits ptable PTABLE_LEN index page_num).

Definition peek_next_free_page : ST mmst Z :=
  m ← getS; liftO (bitmap_search_from (mem_map m) MEM_MAP_LEN (bss_page_end m) 1).

Definition peek_last_free_page : ST mmst Z :=
  m ← getS; liftO (bitmap_search_reverse (mem_map m) MEM_MAP_LEN 1).

Definition release_pages (page len : Z) : ST mmst Z :=
  if negb (Z.rem (s32 page) PAGE_LEN =? 0) then mret ERR
  else
    let page_index := PADDR_TO_PAGED page in
    on_mem_map (fun map => bitmap_clear_nbits map MEM_MAP_LEN page_index len).

Definition user_free_pages (ptable : list Z) (page len : Z) : ST mmst (Z * list Z) :=
  e ← release_pages page len;
  if negb (e =? OK) then mret (ERR, ptable)
  else
    let index := PADDR_TO_PAGED page in
    liftO (bitmap_clear_nbits ptable PTABLE_LEN index len).

(** The fields of [struct proc] are passed one by one: parent's [heap_bottom]
    and [mem_start], and the child's protection table. *)
Definition dup_vm (heap_bottom mem_start : Z) (child_ptable : list Z) : ST mmst (Z * list Z) :=
  let len := s32 (heap_bottom + 1 - mem_start) in
  user_get_free_pages child_ptable len GFP_NORM.

Definition release_proc_mem (heap_bottom mem_start : Z) (ptable : list Z) : ST mmst (list Z) :=
  let page_len := Z.quot (s32 (heap_bottom + 1 - mem_start)) PAGE_LEN in
  let start_page := Z.quot (s32 mem_start) PAGE_LEN in
  _ ← on_mem_map (fun map => bitmap_clear_nbits map MEM_MAP_LEN start_page page_len);
  r ← liftO (bitmap_clear ptable PTABLE_LEN);
  mret (snd (r : Z * list Z)).

(** [BSS_END] is the address the linker gives to the end of the kernel image. *)
Definition init_mem_table (BSS_END : Z) : ST mmst unit :=
  let free_mem_begin := u32 (Z.lor BSS_END 0x3ff + 1) in
  let len := s32 (free_mem_begin / PAGE_LEN) in
  _ ← on_mem_map (fun map => bitmap_clear map MEM_MAP_LEN);
  _ ← on_mem_map (fun map => bitmap_set_nbits map MEM_MAP_LEN 0 len);
  _ ← on_mem_map (fun map => bitmap_set_bit map MEM_MAP_LEN (Z.quot FREE_MEM_END PAGE_LEN));
  modifyS (fun m => m <| bss_page_end := PADDR_TO_PAGED free_mem_begin |>).

(** ** Invariant

    Pages below [bss_page_end] belong to the kernel image and stay reserved; so
    does the last page, which is what makes the "+ len >= 32 * map_len" guard of
    the bitmap operations harmless. *)
Record mm_inv (m : mmst) : Prop := {
  inv_wf : wf_map (mem_map m) MEM_MAP_LEN;
  inv_bss : 0 < bss_page_end m <= 127;
  inv_low : forall k, 0 <= k < bss_page_end m -> bit (mem_map m) k = true;
  inv_top : bit (mem_map m) 127 = true
}.

(** Number of pages of a length in words. *)
Definition npages (len : Z) : Z := (len + 1023) / 1024.

Definition valid_len (len : Z) : Prop := 0 <= len <= 2147482624.

(** The pages in [p, p+n). *)
Definition page_range (p n : Z) : gset Z := list_to_set (seqZ p n).

Lemma elem_of_page_range p n x : x ∈ page_range p n <-> p <= x < p + n.
Proof. unfold page_range. rewrite elem_of_list_to_set, elem_of_seqZ. done. Qed.

(** ** Arithmetic of addresses *)
Lemma num_pages_npages len : valid_len len -> PADDR_TO_NUM_PAGES len = npages len.
Proof.
  intros Hl. unfold PADDR_TO_NUM_PAGES, align_page, npages, PAGE_LEN, valid_len in *.
  rewrite (s32_id len), (s32_id (len - 1)) by (unfold is_s32; lia).
  rewrite Z.shiftl_mul_pow2, Z.shiftr_div_pow2 by lia.
  change (2 ^ 10) with 1024.
  rewrite s32_id by (unfold is_s32; zlia).
  zlia.
Qed.

(** The largest lengths overflow [align_page] to a negative page count. *)
Lemma num_pages_overflow len :
  2147482624 < len < 2147483648 -> PADDR_TO_NUM_PAGES len = -2097152.
Proof.
  intros Hl. unfold PADDR_TO_NUM_PAGES, align_page, PAGE_LEN.
  rewrite (s32_id len), (s32_id (len - 1)) by (unfold is_s32; lia).
  rewrite Z.shiftl_mul_pow2, Z.shiftr_div_pow2 by lia.
  change (2 ^ 10) with 1024.
  assert ((len - 1) / 1024 = 2097151) as -> by zlia. reflexivity.
Qed.

Lemma paged_of_page p : 0 <= p < 2097152 -> PADDR_TO_PAGED (PAGE_TO_PADDR p) = p.
Proof.
  intros Hp. unfold PADDR_TO_PAGED, PAGE_TO_PADDR, PAGE_LEN.
  rewrite u32_id by (unfold is_u32, UINT_MOD; lia).
  rewrite s32_id by (unfold is_s32; lia). zlia.
Qed.

Lemma page_to_paddr p : 0 <= p < 4194304 -> PAGE_TO_PADDR p = p * 1024.
Proof. intros Hp. unfold PAGE_TO_PADDR, PAGE_LEN. apply u32_id. unfold is_u32, UINT_MOD. lia. Qed.

Lemma npages_pos len : 0 < len -> 0 < npages len.
Proof. unfold npages. intros. zlia. Qed.

Lemma npages_pages n : npages (n * 1024) = n.
Proof. unfold npages. zlia. Qed.

(** ** The invariant and the single operations *)
Definition used (m : mmst) : Z -> bool := bit (mem_map m).

Lemma used_run_bounds m p n :
  mm_inv m -> 0 < n -> 0 <= p -> p + n <= 128 -> run_free (used m) p n ->
  bss_page_end m <= p /\ p + n <= 127.
Proof.
  intros [_ Hb Hlow Htop] Hn Hp Hpn Hf. split.
  - destruct (Z_le_gt_dec (bss_page_end m) p); [done|].
    specialize (Hf p ltac:(lia)). unfold used in Hf. rewrite Hlow in Hf; [done|lia].
  - destruct (Z_le_gt_dec (p + n) 127); [done|].
    specialize (Hf 127 ltac:(lia)). unfold used in Hf. congruence.
Qed.

(** Marking or clearing pages strictly between the two reserved zones keeps the
    invariant. *)
Lemma mm_inv_update m map' (f : Z -> bool) :
  mm_inv m -> wf_map map' MEM_MAP_LEN ->
  (forall x, 0 <= x -> bit map' x = f x) ->
  (forall x, 0 <= x < bss_page_end m \/ x = 127 -> f x = true) ->
  mm_inv (m <| mem_map := map' |>).
Proof.
  intros [Hwf Hb Hlow Htop] Hw Hf Hres. rsimpl. split; cbn; [done|lia| |].
  - intros k Hk. rewrite Hf by lia. auto.
  - rewrite Hf by lia. auto.
Qed.

Lemma set_pages_spec m p n :
  mm_inv m -> 0 <= p -> 0 <= n -> p + n < 128 ->
  exists m', on_mem_map (fun map => bitmap_set_nbits map MEM_MAP_LEN p n) m = Some (OK, m') /\
    mm_inv m' /\ bss_page_end m' = bss_page_end m /\
    forall x, 0 <= x -> used m' x = (used m x || bool_decide (p <= x < p + n)).
Proof.
  intros Hi Hp Hn Hpn. pose proof Hi as [Hwf Hb Hlow Htop].
  destruct (set_nbits_ok (mem_map m) MEM_MAP_LEN p n) as (map' & Hs & Hw & Hbits); [done|lia|lia|unfold MEM_MAP_LEN; lia|].
  unfold on_mem_map. rewrite Hs. eexists. split; [done|]. split; [|done].
  eapply mm_inv_update; [done|done|exact Hbits|].
  intros x [Hx| ->]; [rewrite Hlow by lia|rewrite Htop]; done.
Qed.

Lemma clear_pages_spec m p n :
  mm_inv m -> bss_page_end m <= p -> 0 <= n -> p + n <= 127 ->
  exists m', on_mem_map (fun map => bitmap_clear_nbits map MEM_MAP_LEN p n) m = Some (OK, m') /\
    mm_inv m' /\ bss_page_end m' = bss_page_end m /\
    forall x, 0 <= x -> used m' x = (used m x && negb (bool_decide (p <= x < p + n))).
Proof.
  intros Hi Hp Hn Hpn. pose proof Hi as [Hwf Hb Hlow Htop].
  destruct (clear_nbits_ok (mem_map m) MEM_MAP_LEN p n) as (map' & Hs & Hw & Hbits); [done|lia|lia|unfold MEM_MAP_LEN; lia|].
  unfold on_mem_map. rewrite Hs. eexists. split; [done|]. split; [|done].
  eapply mm_inv_update; [done|done|exact Hbits|]. cbn.
  intros x [Hx| ->]; rewrite bool_decide_eq_false_2 by lia; rewrite andb_true_r; auto.
Qed.

(** Both searches, on a map that satisfies the invariant. *)
Lemma search_pages m high n :
  mm_inv m ->
  exists r,
    (if (high : bool) then bitmap_search_reverse (mem_map m) MEM_MAP_LEN n
     else bitmap_search_from (mem_map m) MEM_MAP_LEN (bss_page_end m) n) = Some r /\
    ((r = ERR /\ (n <= 0 \/ forall p, 0 <= p -> p + n <= 128 -> ~ run_free (used m) p n)) \/
     (0 < n /\ bss_page_end m <= r /\ r + n <= 127 /\ run_free (used m) r n /\
      (forall p, 0 <= p -> p + n <= 128 -> run_free (used m) p n -> if high then p <= r else r <= p))).
Proof.
  intros Hi. pose proof Hi as [Hwf Hb Hlow Htop]. change MEM_MAP_LEN with 4 in *.
  assert (Hbig : 128 <= n -> forall p, 0 <= p -> p + n <= 128 -> ~ run_free (used m) p n).
  { intros Hn p Hp Hpn Hf. specialize (Hf 127 ltac:(lia)). unfold used in Hf. congruence. }
  assert (Hsmall : forall p, 0 < n -> 0 <= p -> p + n <= 128 -> run_free (used m) p n ->
            bss_page_end m <= p /\ p + n <= 127).
  { intros. by apply used_run_bounds. }
  destruct high.
  - destruct (decide (n < 128)) as [Hn|Hn].
    + rewrite search_reverse_scan by (done || lia). eexists. split; [done|].
      destruct (decide (n <= 0)).
      { left. rewrite scan_down_nonpos by lia. auto. }
      destruct (scan_down_spec (bit (mem_map m)) n (Z.to_nat (4 * 32)) 0)
        as [[-> H]|(H1 & H2 & H3 & H4)]; [lia|intros x; lia|left; split; [done|]..|right].
      * right. intros p Hp Hpn. apply H; lia.
      * destruct (Hsmall _ ltac:(lia) H1 ltac:(lia) H3).
        repeat split; try done || lia. intros p Hp Hpn Hf.
        apply Znot_gt_le. intros ?. apply (H4 p); [lia|lia|done].
    + exists ERR. split; [unfold bitmap_search_reverse;
        by destruct (Z.geb_spec n (4 * 32)); [|lia]|]. left. split; [done|]. right. apply Hbig. lia.
  - destruct (decide (n < 128)) as [Hn|Hn].
    + rewrite search_from_scan by (done || lia). eexists. split; [done|].
      destruct (decide (n <= 0)).
      { left. rewrite scan_nonpos by lia. auto. }
      destruct (scan_spec (bit (mem_map m)) n (Z.to_nat (4 * 32 - bss_page_end m)) (bss_page_end m) 0)
        as [[-> H]|(H1 & H2 & H3 & H4)]; [lia|intros x; lia|left; split; [done|]..|right].
      * right. intros p Hp Hpn Hf. destruct (Hsmall p ltac:(lia) Hp Hpn Hf).
        apply (H p); [lia|lia|done].
      * edestruct Hsmall as [??]; [| | |exact H3|]; [lia..|].
        repeat split; try done || lia. intros p Hp Hpn Hf.
        destruct (Hsmall p ltac:(lia) Hp Hpn Hf).
        apply Znot_gt_le. intros ?. apply (H4 p); [lia|done].
    + exists ERR. split; [unfold bitmap_search_from;
        by destruct (Z.geb_spec n (4 * 32)); [|lia]|]. left. split; [done|]. right. apply Hbig. lia.
Qed.

Definition is_high (flags : Z) : bool := negb (Z.land flags GFP_HIGH =? 0).

Lemma get_free_pages_spec m len flags :
  mm_inv m -> valid_len len ->
  exists a m', get_free_pages len flags m = Some (a, m') /\ mm_inv m' /\
    bss_page_end m' = bss_page_end m /\
    ((a = 0 /\ m' = m /\
      (len = 0 \/ forall p, 0 <= p -> p + npages len <= 128 -> ~ run_free (used m) p (npages len))) \/
     (exists p, a = PAGE_TO_PADDR p /\ 0 < npages len /\ bss_page_end m <= p /\ p + npages len <= 127 /\
       run_free (used m) p (npages len) /\
       (forall q, 0 <= q -> q + npages len <= 128 -> run_free (used m) q (npages len) ->
          if is_high flags then q <= p else p <= q) /\
       forall x, 0 <= x -> used m' x = (used m x || bool_decide (p <= x < p + npages len)))).
Proof.
  intros Hi Hl. unfold get_free_pages. rewrite num_pages_npages by done.
  set (n := npages len).
  destruct (search_pages m (is_high flags) n Hi) as (r & Hr & Hcase).
  assert (Hs : (if Z.land flags GFP_HIGH =? 0
                then bitmap_search_from (mem_map m) MEM_MAP_LEN (bss_page_end m) n
                else bitmap_search_reverse (mem_map m) MEM_MAP_LEN n) = Some r).
  { unfold is_high in Hr. by destruct (Z.land flags GFP_HIGH =? 0). }
  unfold mbind, st_bind, getS. cbn [liftO]. rewrite Hs. cbn [liftO].
  destruct Hcase as [[-> Hno]|(Hn & Hlo & Hhi & Hf & Hbest)].
  - exists 0, m. split; [done|]. split; [done|]. split; [done|]. left. split; [done|]. split; [done|].
    destruct Hno as [Hno|Hno]; [left|by right].
    unfold valid_len in Hl. destruct (decide (len = 0)); [done|].
    pose proof (npages_pos len ltac:(lia)). lia.
  - pose proof (inv_bss m Hi).
    destruct (Z.geb_spec r 0); [|lia].
    destruct (set_pages_spec m r n) as (m' & -> & Hi' & Hb' & Hu'); [done|lia..|].
    exists (PAGE_TO_PADDR r), m'. split; [done|]. split; [done|]. split; [done|]. right.
    exists r. repeat (split; [done|]). done.
Qed.

Lemma pages_free_loop_spec map (n : nat) : forall p,
  wf_map map MEM_MAP_LEN -> 0 <= p -> p + Z.of_nat n <= 128 ->
  exists b, pages_free_loop n map p = Some b /\
    (b = true <-> run_free (bit map) p (Z.of_nat n)).
Proof.
  induction n as [|n IH]; intros p Hwf Hp Hn; cbn [pages_free_loop].
  { exists true. split; [done|]. split; [|done]. intros _ x. lia. }
  rewrite is_bit_on_bit by (done || unfold MEM_MAP_LEN; lia). rewrite obind_Some.
  destruct (bit map p) eqn:E.
  - exists false. split; [done|]. split; [done|]. intros Hf.
    specialize (Hf p ltac:(lia)). congruence.
  - destruct (IH (p + 1)) as (b & -> & Hb); [done|lia..|]. exists b. split; [done|].
    rewrite Hb. split; intros Hf x Hx.
    + destruct (decide (x = p)) as [->|]; [done|]. apply Hf. lia.
    + apply Hf. lia.
Qed.

Lemma get_free_pages_from_spec m p len :
  mm_inv m -> valid_len len -> 0 <= p -> p + npages len <= 127 ->
  exists r m', get_free_pages_from (PAGE_TO_PADDR p) len m = Some (r, m') /\ mm_inv m' /\
    bss_page_end m' = bss_page_end m /\
    ((r = ENOMEM /\ m' = m /\ ~ run_free (used m) p (npages len)) \/
     (r = OK /\ run_free (used m) p (npages len) /\
      forall x, 0 <= x -> used m' x = (used m x || bool_decide (p <= x < p + npages len)))).
Proof.
  intros Hi Hl Hp Hpn.
  assert (Hnn : 0 <= npages len) by (unfold npages, valid_len in *; zlia).
  unfold get_free_pages_from, is_pages_free_from.
  rewrite paged_of_page, num_pages_npages by (done || lia).
  destruct (pages_free_loop_spec (mem_map m) (Z.to_nat (npages len)) p) as (b & Hb & Hbs);
    [apply Hi|lia..|].
  unfold mbind, st_bind, getS. cbn [liftO]. rewrite Hb. cbn [liftO].
  rewrite Z2Nat.id in Hbs by lia. destruct b; cbn [negb].
  - destruct (set_pages_spec m p (npages len)) as (m' & -> & Hi' & Hb' & Hu'); [done|lia..|].
    exists OK, m'. repeat (split; [done|]). right. split; [done|]. split; [by apply Hbs|done].
  - exists ENOMEM, m. repeat (split; [done|]). left. repeat (split; [done|]).
    intros Hf. by apply Hbs in Hf.
Qed.

Lemma release_pages_spec m p n :
  mm_inv m -> bss_page_end m <= p -> 0 <= n -> p + n <= 127 ->
  exists m', release_pages (PAGE_TO_PADDR p) n m = Some (OK, m') /\ mm_inv m' /\
    bss_page_end m' = bss_page_end m /\
    forall x, 0 <= x -> used m' x = (used m x && negb (bool_decide (p <= x < p + n))).
Proof.
  intros Hi Hp Hn Hpn. pose proof (inv_bss m Hi).
  unfold release_pages. rewrite paged_of_page by lia.
  rewrite page_to_paddr, s32_id by (unfold is_s32; lia).
  unfold PAGE_LEN. rewrite Z.rem_mul by lia. cbn [Z.eqb negb].
  by apply clear_pages_spec.
Qed.

(** ** Abstract specification: a set of pages *)
Module PageSpec.
(** Requests, in words and addresses as the callers state them. *)
Inductive req : Type :=
| GetFreePages (len flags : Z)
| GetFreePagesFrom (p len : Z)
| ReleasePages (p n : Z).

(** [step lo S r res S']: with [S] the pages in use and [lo] the first page
    after the kernel image, request [r] answers [res] and leaves [S']. *)
Inductive step (lo : Z) (S : gset Z) : req -> Z -> gset Z -> Prop :=
| step_get len flags p :
    0 < npages len -> lo <= p -> p + npages len <= 127 ->
    page_range p (npages len) ## S ->
    (forall q, 0 <= q -> q + npages len <= 128 -> page_range q (npages len) ## S ->
       if is_high flags then q <= p else p <= q) ->
    step lo S (GetFreePages len flags) (PAGE_TO_PADDR p) (S ∪ page_range p (npages len))
| step_get_none len flags :
    len = 0 \/
    (forall q, 0 <= q -> q + npages len <= 128 -> ~ page_range q (npages len) ## S) ->
    step lo S (GetFreePages len flags) 0 S
| step_claim p len :
    page_range p (npages len) ## S ->
    step lo S (GetFreePagesFrom p len) OK (S ∪ page_range p (npages len))
| step_claim_busy p len :
    ~ page_range p (npages len) ## S -> step lo S (GetFreePagesFrom p len) ENOMEM S
| step_release p n :
    step lo S (ReleasePages p n) OK (S ∖ page_range p n).

(** Requests a caller may make: page numbers inside the allocatable zone. *)
Definition legal (lo : Z) (r : req) : Prop :=
  match r with
  | GetFreePages len _ => valid_len len
  | GetFreePagesFrom p len => valid_len len /\ 0 <= p /\ p + npages len <= 127
  | ReleasePages p n => lo <= p /\ 0 <= n /\ p + n <= 127
  end.
End PageSpec.

(** The code that serves a request. *)
Definition serve (r : PageSpec.req) : ST mmst Z :=
  match r with
  | PageSpec.GetFreePages len flags => get_free_pages len flags
  | PageSpec.GetFreePagesFrom p len => get_free_pages_from (PAGE_TO_PADDR p) len
  | PageSpec.ReleasePages p n => release_pages (PAGE_TO_PADDR p) n
  end.

(** Abstraction function: the pages whose bit is set. *)
Definition used_set (m : mmst) : gset Z :=
  list_to_set (List.filter (used m) (seqZ 0 128)).

Lemma elem_of_used_set m x : x ∈ used_set m <-> 0 <= x < 128 /\ used m x = true.
Proof.
  unfold used_set. rewrite elem_of_list_to_set, list_elem_of_In, List.filter_In.
  rewrite <- list_elem_of_In, elem_of_seqZ. intuition lia.
Qed.

Lemma disjoint_run_free m p n :
  0 <= p -> p + n <= 128 -> page_range p n ## used_set m <-> run_free (used m) p n.
Proof.
  intros Hp Hn. split.
  - intros Hd x Hx. apply not_true_is_false. intros Hu.
    apply (Hd x); [by apply elem_of_page_range|]. apply elem_of_used_set. split; [lia|done].
  - intros Hf x Hx%elem_of_page_range [_ Hu]%elem_of_used_set. rewrite Hf in Hu; [done|lia].
Qed.

Lemma used_set_union m m' p n :
  0 <= p -> p + n <= 128 ->
  (forall x, 0 <= x -> used m' x = (used m x || bool_decide (p <= x < p + n))) ->
  used_set m' = used_set m ∪ page_range p n.
Proof.
  intros Hp Hn Hu. apply set_eq. intros x.
  rewrite elem_of_union, !elem_of_used_set, elem_of_page_range. split.
  - intros [Hx E]. rewrite Hu in E by lia. apply orb_true_iff in E as [E|E].
    + by left.
    + right. by apply bool_decide_eq_true in E.
  - intros [[Hx E]|Hx].
    + split; [done|]. rewrite Hu, E by lia. done.
    + split; [lia|]. rewrite Hu, bool_decide_eq_true_2, orb_true_r by lia. done.
Qed.

Lemma used_set_diff m m' p n :
  (forall x, 0 <= x -> used m' x = (used m x && negb (bool_decide (p <= x < p + n)))) ->
  used_set m' = used_set m ∖ page_range p n.
Proof.
  intros Hu. apply set_eq. intros x.
  rewrite elem_of_difference, !elem_of_used_set, elem_of_page_range. split.
  - intros [Hx E]. rewrite Hu in E by lia. apply andb_true_iff in E as [E1 E2].
    apply negb_true_iff, bool_decide_eq_false in E2. done.
  - intros [[Hx E] Hn]. split; [done|]. rewrite Hu, E, bool_decide_eq_false_2 by (done || lia). done.
Qed.

(** ** Properties *)

(** C5: the page allocator refines the page-set machine: from a state that
    satisfies the invariant every legal request terminates without touching
    memory outside of the page map, answers as the abstract machine does (best
    fit from the chosen end, refusal only when no run of pages is free) and
    re-establishes the invariant. *)
Theorem page_allocator_refines m r :
  mm_inv m -> PageSpec.legal (bss_page_end m) r ->
  exists res m', serve r m = Some (res, m') /\ mm_inv m' /\
    bss_page_end m' = bss_page_end m /\
    PageSpec.step (bss_page_end m) (used_set m) r res (used_set m').
Proof.
  intros Hi Hleg. pose proof (inv_bss m Hi) as Hb. destruct r as [len flags|p len|p n]; cbn in *.
  - destruct (get_free_pages_spec m len flags) as (a & m' & Hr & Hi' & Hb' & Hcase); [done..|].
    exists a, m'. repeat (split; [done|]).
    destruct Hcase as [(-> & -> & Hno)|(p & -> & Hn & Hlo & Hhi & Hf & Hbest & Hu)].
    + apply PageSpec.step_get_none. destruct Hno as [?|Hno]; [by left|right].
      intros q Hq Hqn. rewrite disjoint_run_free by done. by apply Hno.
    + rewrite (used_set_union m m' p (npages len)) by (done || lia).
      apply PageSpec.step_get; [done..| |].
      * apply disjoint_run_free; [lia|lia|done].
      * intros q Hq Hqn Hd. apply Hbest; [done..|]. by apply disjoint_run_free.
  - destruct Hleg as (Hl & Hp & Hpn).
    destruct (get_free_pages_from_spec m p len) as (a & m' & Hr & Hi' & Hb' & Hcase); [done..|].
    exists a, m'. repeat (split; [done|]).
    destruct Hcase as [(-> & -> & Hno)|(-> & Hf & Hu)].
    + apply PageSpec.step_claim_busy. by rewrite disjoint_run_free by lia.
    + rewrite (used_set_union m m' p (npages len)) by (done || lia).
      apply PageSpec.step_claim. apply disjoint_run_free; [lia|lia|done].
  - destruct Hleg as (Hp & Hn & Hpn).
    destruct (release_pages_spec m p n) as (m' & Hr & Hi' & Hb' & Hu); [done|lia..|].
    exists OK, m'. repeat (split; [done|]).
    rewrite (used_set_diff m m' p n) by done. apply PageSpec.step_release.
Qed.

(** A small map: the kernel image takes the first two pages. *)
Definition sample_mm : mmst := mkMm [0xc0000000; 0; 0; 1] 2.

Lemma sample_mm_inv : mm_inv sample_mm.
Proof.
  split; [wf_concrete|cbn; lia| |reflexivity].
  intros k Hk. cbn in Hk. assert (k = 0 \/ k = 1) as [-> | ->] by lia; reflexivity.
Qed.

Lemma page_allocator_refines_witness :
  exists res m', serve (PageSpec.GetFreePages 3000 GFP_HIGH) sample_mm = Some (res, m') /\ mm_inv m' /\
    bss_page_end m' = bss_page_end sample_mm /\
    PageSpec.step (bss_page_end sample_mm) (used_set sample_mm)
      (PageSpec.GetFreePages 3000 GFP_HIGH) res (used_set m').
Proof.
  apply (page_allocator_refines sample_mm (PageSpec.GetFreePages 3000 GFP_HIGH) sample_mm_inv).
  cbn. unfold valid_len. lia.
Defined.

Lemma lor_ones a n : 0 <= a -> 0 <= n -> Z.lor a (Z.ones n) = a / 2 ^ n * 2 ^ n + Z.ones n.
Proof.
  intros Ha Hn. rewrite <- Z.shiftr_div_pow2, <- Z.shiftl_mul_pow2, <- Z.ldiff_ones_r by done.
  rewrite Z.add_nocarry_lxor, Z.lxor_lor by (apply Z.land_ldiff).
  apply Z.bits_inj'. intros k Hk. rewrite !Z.lor_spec, Z.ldiff_spec.
  by destruct (Z.testbit a k), (Z.testbit (Z.ones n) k).
Qed.

(** C39: whatever the contents of the static variables before,
    [init_mem_table] establishes the allocator's invariant for every kernel
    image that ends before the last page: exactly the pages of the image and
    the last page are reserved. *)
Theorem init_mem_table_establishes m BSS_END :
  alen (mem_map m) = MEM_MAP_LEN -> 0 <= BSS_END < 127 * PAGE_LEN ->
  exists m', init_mem_table BSS_END m = Some (tt, m') /\ mm_inv m' /\
    bss_page_end m' = BSS_END / PAGE_LEN + 1 /\
    forall x, 0 <= x < 128 -> used m' x = bool_decide (x <= BSS_END / PAGE_LEN \/ x = 127).
Proof.
  intros Hl Hb. change PAGE_LEN with 1024 in *. set (e := BSS_END / 1024).
  assert (He : 0 <= e < 127) by (unfold e; zlia).
  assert (Hor : u32 (Z.lor BSS_END 0x3ff + 1) = (e + 1) * 1024).
  { change 0x3ff with (Z.ones 10). rewrite lor_ones by lia. change (2 ^ 10) with 1024.
    change (Z.ones 10) with 1023. fold e. rewrite u32_id; unfold is_u32, UINT_MOD; lia. }
  assert (Hpg : PADDR_TO_PAGED ((e + 1) * 1024) = e + 1).
  { rewrite <- page_to_paddr, paged_of_page by lia. done. }
  unfold init_mem_table. rewrite Hor, Hpg. change PAGE_LEN with 1024.
  rewrite Z.div_mul, s32_id by (unfold is_s32; lia).
  destruct (bitmap_clear_spec (mem_map m) MEM_MAP_LEN Hl) as (Hc & Hwf0 & Hz).
  destruct (set_nbits_ok (replicate (Z.to_nat MEM_MAP_LEN) 0) MEM_MAP_LEN 0 (e + 1))
    as (m1 & H1 & Hwf1 & Hb1); [done|lia|lia|unfold MEM_MAP_LEN; lia|].
  destruct (set_bit_ok m1 MEM_MAP_LEN 127) as (m2 & H2 & Hwf2 & Hb2); [done|unfold MEM_MAP_LEN; lia|].
  assert (Hbits : forall x, 0 <= x -> bit m2 x = bool_decide (x <= e \/ x = 127)).
  { intros x Hx. rewrite Hb2, Hb1, Hz by done. cbn [orb].
    repeat case_bool_decide; cbn; lia || done. }
  unfold mbind, st_bind, on_mem_map at 1. rewrite Hc. cbn [mem_map].
  unfold on_mem_map at 1. rsimpl. rewrite H1. cbn. unfold on_mem_map. cbn.
  change (Z.quot FREE_MEM_END 1024) with 127. rewrite H2. cbn.
  eexists. split; [reflexivity|]. split; [split|split]; cbn; try done || lia.
  - intros k Hk. rewrite Hbits, bool_decide_eq_true_2 by lia. done.
  - by rewrite Hbits, bool_decide_eq_true_2 by lia.
  - intros x Hx. unfold used. cbn. apply Hbits; lia.
Qed.

Lemma init_mem_table_establishes_witness :
  exists m', init_mem_table 40000 (mkMm [7; 7; 7; 7] 0) = Some (tt, m') /\ mm_inv m' /\
    bss_page_end m' = 40000 / PAGE_LEN + 1 /\
    forall x, 0 <= x < 128 -> used m' x = bool_decide (x <= 40000 / PAGE_LEN \/ x = 127).
Proof. apply (init_mem_table_establishes (mkMm [7; 7; 7; 7] 0) 40000); [reflexivity|unfold PAGE_LEN; lia]. Defined.

(** ** Isolation of processes *)

Lemma user_get_free_pages_spec m t len flags :
  mm_inv m -> wf_map t PTABLE_LEN -> valid_len len ->
  exists a t' m', user_get_free_pages t len flags m = Some ((a, t'), m') /\ mm_inv m' /\
    bss_page_end m' = bss_page_end m /\ wf_map t' PTABLE_LEN /\
    ((a = 0 /\ t' = t /\ m' = m) \/
     (exists p, a = PAGE_TO_PADDR p /\ bss_page_end m <= p /\ p + npages len <= 127 /\
       run_free (used m) p (npages len) /\
       (forall x, 0 <= x -> used m' x = (used m x || bool_decide (p <= x < p + npages len))) /\
       (forall x, 0 <= x -> bit t' x = (bit t x || bool_decide (p <= x < p + npages len))))).
Proof.
  intros Hi Hw Hl. pose proof (inv_bss m Hi) as Hb.
  destruct (get_free_pages_spec m len flags) as (a & m' & Hr & Hi' & Hb' & Hcase); [done..|].
  unfold user_get_free_pages, mbind, st_bind. rewrite Hr.
  destruct Hcase as [(-> & -> & _)|(p & -> & Hn & Hlo & Hhi & Hf & _ & Hu)].
  - exists 0, t, m. cbn. repeat (split; [done|]). by left.
  - destruct (Z.eqb_spec (PAGE_TO_PADDR p) 0) as [E|_]; [rewrite page_to_paddr in E; lia|].
    rewrite paged_of_page, num_pages_npages by (done || lia).
    destruct (set_nbits_ok t PTABLE_LEN p (npages len)) as (t' & -> & Hw' & Ht); [done|lia|lia|unfold PTABLE_LEN; lia|].
    cbn. exists (PAGE_TO_PADDR p), t', m'. repeat (split; [done|]). right. exists p. done.
Qed.

Lemma user_get_free_pages_from_spec m t p len :
  mm_inv m -> wf_map t PTABLE_LEN -> valid_len len -> 0 <= p -> p + npages len <= 127 ->
  exists r t' m', user_get_free_pages_from t (PAGE_TO_PADDR p) len m = Some ((r, t'), m') /\
    mm_inv m' /\ bss_page_end m' = bss_page_end m /\ wf_map t' PTABLE_LEN /\
    ((r = ENOMEM /\ t' = t /\ m' = m) \/
     (r = OK /\ run_free (used m) p (npages len) /\
       (forall x, 0 <= x -> used m' x = (used m x || bool_decide (p <= x < p + npages len))) /\
       (forall x, 0 <= x -> bit t' x = (bit t x || bool_decide (p <= x < p + npages len))))).
Proof.
  intros Hi Hw Hl Hp Hpn.
  assert (Hnn : 0 <= npages len) by (unfold npages, valid_len in *; zlia).
  destruct (get_free_pages_from_spec m p len) as (r & m' & Hr & Hi' & Hb' & Hcase); [done..|].
  unfold user_get_free_pages_from, mbind, st_bind. rewrite Hr.
  destruct Hcase as [(-> & -> & _)|(-> & Hf & Hu)].
  - exists ENOMEM, t, m. cbn. repeat (split; [done|]). by left.
  - cbn [Z.eqb negb OK]. rewrite paged_of_page, num_pages_npages by (done || lia).
    destruct (set_nbits_ok t PTABLE_LEN p (npages len)) as (t' & -> & Hw' & Ht); [done|lia|lia|unfold PTABLE_LEN; lia|].
    cbn. exists OK, t', m'. repeat (split; [done|]). by right.
Qed.

(** The allocator together with the protection tables of the processes. *)
Record vmst := mkVm { vm_mm : mmst; vm_ptables : gmap Z (list Z) }.

(** One call of mm.c on behalf of process [i] (or of the kernel).  Memory given
    back must be owned by the process that gives it back. *)
Inductive vm_step (s : vmst) : vmst -> Prop :=
| vm_alloc i t len flags a t' m' :
    vm_ptables s !! i = Some t -> valid_len len ->
    user_get_free_pages t len flags (vm_mm s) = Some ((a, t'), m') ->
    vm_step s (mkVm m' (<[i := t']> (vm_ptables s)))
| vm_grow i t p len r t' m' :
    vm_ptables s !! i = Some t -> valid_len len -> 0 <= p -> p + npages len <= 127 ->
    user_get_free_pages_from t (PAGE_TO_PADDR p) len (vm_mm s) = Some ((r, t'), m') ->
    vm_step s (mkVm m' (<[i := t']> (vm_ptables s)))
| vm_free i t p n r t' m' :
    vm_ptables s !! i = Some t -> bss_page_end (vm_mm s) <= p -> 0 <= n -> p + n <= 127 ->
    (forall x, p <= x < p + n -> bit t x = true) ->
    user_free_pages t (PAGE_TO_PADDR p) n (vm_mm s) = Some ((r, t'), m') ->
    vm_step s (mkVm m' (<[i := t']> (vm_ptables s)))
| vm_exit i t p n t' m' :
    vm_ptables s !! i = Some t -> bss_page_end (vm_mm s) <= p -> 0 <= n -> p + n <= 127 ->
    (forall x, p <= x < p + n -> bit t x = true) ->
    release_proc_mem ((p + n) * 1024 - 1) (p * 1024) t (vm_mm s) = Some (t', m') ->
    vm_step s (mkVm m' (<[i := t']> (vm_ptables s)))
| vm_kernel len flags a m' :
    valid_len len -> get_free_pages len flags (vm_mm s) = Some (a, m') ->
    vm_step s (mkVm m' (vm_ptables s)).

Record isolated (s : vmst) : Prop := {
  iso_mm : mm_inv (vm_mm s);
  iso_wf : forall i t, vm_ptables s !! i = Some t -> wf_map t PTABLE_LEN;
  iso_own : forall i t x, vm_ptables s !! i = Some t -> 0 <= x -> bit t x = true ->
    bss_page_end (vm_mm s) <= x < 127 /\ used (vm_mm s) x = true;
  iso_disj : forall i j t u x, vm_ptables s !! i = Some t -> vm_ptables s !! j = Some u ->
    i <> j -> 0 <= x -> bit t x = true -> bit u x = false
}.

(** Process [i] gets new pages: they were free, hence nobody's. *)
Lemma isolated_gain s m' i t t' p n :
  isolated s -> vm_ptables s !! i = Some t ->
  mm_inv m' -> bss_page_end m' = bss_page_end (vm_mm s) -> wf_map t' PTABLE_LEN ->
  bss_page_end (vm_mm s) <= p -> p + n <= 127 -> run_free (used (vm_mm s)) p n ->
  (forall x, 0 <= x -> used m' x = (used (vm_mm s) x || bool_decide (p <= x < p + n))) ->
  (forall x, 0 <= x -> bit t' x = (bit t x || bool_decide (p <= x < p + n))) ->
  isolated (mkVm m' (<[i := t']> (vm_ptables s))).
Proof.
  intros [Hm Hw Ho Hd] Ht Hm' Hb Hw' Hp Hpn Hf Hu Hbit.
  assert (Hfresh : forall j u x, vm_ptables s !! j = Some u -> 0 <= x -> p <= x < p + n -> bit u x = false).
  { intros j u x Hj Hx Hr. apply not_true_is_false. intros E.
    destruct (Ho j u x Hj Hx E) as [_ Eu]. by rewrite Hf in Eu by done. }
  split; cbn; [done|..].
  - intros j u Hj. destruct (decide (i = j)) as [->|]; simplify_map_eq; eauto.
  - intros j u x Hj Hx E. rewrite Hb, Hu by done. destruct (decide (i = j)) as [->|]; simplify_map_eq.
    + rewrite Hbit in E by done. apply orb_true_iff in E as [E|E].
      * destruct (Ho j t x Ht Hx E) as [? ->]. done.
      * rewrite E, orb_true_r. apply bool_decide_eq_true in E. split; [lia|done].
    + destruct (Ho j u x Hj Hx E) as [? ->]. done.
  - intros j k u v x Hj Hk Hne Hx E.
    destruct (decide (i = j)), (decide (i = k)); simplify_map_eq.
    + rewrite Hbit in E by done. apply orb_true_iff in E as [E|E]; [eapply Hd; [exact Ht|exact Hk|eassumption..]|].
      apply bool_decide_eq_true in E. eauto.
    + rewrite Hbit by done. apply orb_false_iff. split.
      * eapply Hd; [exact Hj|exact Ht|eassumption..].
      * apply bool_decide_eq_false. intros Hr. rewrite (Hfresh _ _ x Hj Hx Hr) in E. done.
    + eapply Hd; [exact Hj|exact Hk|eassumption..].
Qed.

(** Process [i] loses pages, and only pages it owned are cleared. *)
Lemma isolated_lose s m' i t t' p n :
  isolated s -> vm_ptables s !! i = Some t ->
  mm_inv m' -> bss_page_end m' = bss_page_end (vm_mm s) -> wf_map t' PTABLE_LEN ->
  0 <= p -> (forall x, p <= x < p + n -> bit t x = true) ->
  (forall x, 0 <= x -> used m' x = (used (vm_mm s) x && negb (bool_decide (p <= x < p + n)))) ->
  (forall x, 0 <= x -> bit t' x = true -> bit t x = true /\ ~ (p <= x < p + n)) ->
  isolated (mkVm m' (<[i := t']> (vm_ptables s))).
Proof.
  intros [Hm Hw Ho Hd] Ht Hm' Hb Hw' Hp Hown Hu Hbit.
  split; cbn; [done|..].
  - intros j u Hj. destruct (decide (i = j)) as [->|]; simplify_map_eq; eauto.
  - intros j u x Hj Hx E. rewrite Hb, Hu by done. destruct (decide (i = j)) as [->|]; simplify_map_eq.
    + destruct (Hbit x Hx E) as [E' Hn]. destruct (Ho j t x Ht Hx E') as [? ->].
      by rewrite bool_decide_eq_false_2 by done.
    + destruct (Ho j u x Hj Hx E) as [? ->]. split; [done|].
      rewrite bool_decide_eq_false_2; [done|]. intros Hr.
      assert (bit u x = false); [|congruence]. apply (Hd i j t u x); eauto.
  - intros j k u v x Hj Hk Hne Hx E.
    destruct (decide (i = j)), (decide (i = k)); simplify_map_eq.
    + destruct (Hbit x Hx E). eapply Hd; [exact Ht|exact Hk|eassumption..].
    + apply not_true_is_false. intros E'. destruct (Hbit x Hx E') as [E'' _].
      assert (bit t x = false); [eapply Hd; [exact Hj|exact Ht|eassumption..]|congruence].
    + eapply Hd; [exact Hj|exact Hk|eassumption..].
Qed.

Lemma release_proc_mem_spec m t p n :
  mm_inv m -> wf_map t PTABLE_LEN -> bss_page_end m <= p -> 0 <= n -> p + n <= 127 ->
  exists t' m', release_proc_mem ((p + n) * 1024 - 1) (p * 1024) t m = Some (t', m') /\
    mm_inv m' /\ bss_page_end m' = bss_page_end m /\ wf_map t' PTABLE_LEN /\
    (forall x, 0 <= x -> used m' x = (used m x && negb (bool_decide (p <= x < p + n)))) /\
    (forall x, bit t' x = false).
Proof.
  intros Hi Hw Hp Hn Hpn. pose proof (inv_bss m Hi). unfold release_proc_mem.
  replace ((p + n) * 1024 - 1 + 1 - p * 1024) with (n * 1024) by lia.
  rewrite !s32_id by (unfold is_s32; lia). unfold PAGE_LEN. rewrite !Z.quot_mul by lia.
  destruct (clear_pages_spec m p n) as (m' & Hr & Hi' & Hb' & Hu); [done..|].
  unfold mbind, st_bind. rewrite Hr.
  destruct (bitmap_clear_spec t PTABLE_LEN) as (-> & Hw' & Hz); [apply Hw|]. cbn.
  do 2 eexists. split; [done|]. done.
Qed.

Lemma isolated_step s s' : isolated s -> vm_step s s' -> isolated s'.
Proof.
  intros Hs Hstep. pose proof Hs as [Hm Hw Ho Hd]. pose proof (inv_bss _ Hm) as Hb0.
  destruct Hstep as [i t len flags a t' m' Ht Hl Hr | i t p len r t' m' Ht Hl Hp Hpn Hr
    | i t p n r t' m' Ht Hp Hn Hpn Hown Hr | i t p n t' m' Ht Hp Hn Hpn Hown Hr | len flags a m' Hl Hr].
  - destruct (user_get_free_pages_spec (vm_mm s) t len flags)
      as (a1 & t1 & m1 & Hr1 & Hi1 & Hb1 & Hw1 & Hcase); [done|eauto|done|].
    rewrite Hr1 in Hr. simplify_eq.
    destruct Hcase as [(-> & -> & ->)|(p & -> & Hlo & Hhi & Hf & Hu & Hbit)].
    + rewrite insert_id by done. by destruct s.
    + by eapply isolated_gain.
  - destruct (user_get_free_pages_from_spec (vm_mm s) t p len)
      as (r1 & t1 & m1 & Hr1 & Hi1 & Hb1 & Hw1 & Hcase); [done|eauto|done..|].
    rewrite Hr1 in Hr. simplify_eq.
    destruct Hcase as [(-> & -> & ->)|(-> & Hf & Hu & Hbit)].
    + rewrite insert_id by done. by destruct s.
    + destruct (decide (npages len <= 0)).
      * eapply (isolated_gain s m' i t t' (bss_page_end (vm_mm s)) 0); try done || lia.
        -- intros x. lia.
        -- intros x Hx. rewrite Hu by done. by rewrite !bool_decide_eq_false_2 by lia.
        -- intros x Hx. rewrite Hbit by done. by rewrite !bool_decide_eq_false_2 by lia.
      * destruct (used_run_bounds (vm_mm s) p (npages len)); try done || lia.
        by eapply (isolated_gain s m' i t t' p (npages len)).
  - destruct (release_pages_spec (vm_mm s) p n) as (m1 & Hr1 & Hi1 & Hb1 & Hu1); [done..|].
    destruct (clear_nbits_ok t PTABLE_LEN p n) as (t1 & Ht1 & Hw1 & Hbit1);
      [eauto|lia|lia|unfold PTABLE_LEN; lia|].
    unfold user_free_pages, mbind, st_bind in Hr. rewrite Hr1 in Hr. cbn [Z.eqb negb OK] in Hr.
    rewrite paged_of_page, Ht1 in Hr by lia. cbn in Hr. simplify_eq.
    apply (isolated_lose s m' i t t' p n); try done || lia. intros x Hx E. rewrite Hbit1 in E by done.
    apply andb_true_iff in E as [E1 E2]. apply negb_true_iff, bool_decide_eq_false in E2. done.
  - destruct (release_proc_mem_spec (vm_mm s) t p n) as (t1 & m1 & Hr1 & Hi1 & Hb1 & Hw1 & Hu1 & Hz);
      [done|eauto|done..|].
    rewrite Hr1 in Hr. simplify_eq. apply (isolated_lose s m' i t t' p n); try done || lia.
    intros x Hx E. by rewrite Hz in E.
  - destruct (get_free_pages_spec (vm_mm s) len flags) as (a1 & m1 & Hr1 & Hi1 & Hb1 & Hcase); [done..|].
    rewrite Hr1 in Hr. simplify_eq.
    assert (Hmono : forall x, 0 <= x -> used (vm_mm s) x = true -> used m' x = true).
    { intros x Hx E. destruct Hcase as [(_ & -> & _)|(p & _ & _ & _ & _ & _ & _ & Hu)]; [done|].
      by rewrite Hu, E by done. }
    split; cbn; [done|eauto| |eauto].
    intros i t x Hi Hx E. rewrite Hb1. destruct (Ho i t x Hi Hx E). auto.
Qed.

(** Whoever gives back only what was granted to it keeps all processes apart. *)
Theorem granted_isolation s0 s :
  mm_inv (vm_mm s0) ->
  (forall i t, vm_ptables s0 !! i = Some t -> wf_map t PTABLE_LEN /\ forall x, 0 <= x -> bit t x = false) ->
  rtc vm_step s0 s -> isolated s.
Proof.
  intros Hm Hz Hsteps.
  assert (H0 : isolated s0).
  { split; [done|..].
    - intros i t Ht. by apply (Hz i t).
    - intros i t x Ht Hx E. destruct (Hz i t Ht) as [_ Hb]. by rewrite Hb in E.
    - intros i j t u x Ht Hu _ Hx _. by apply (Hz j u Hu). }
  clear Hm Hz. induction Hsteps; eauto using isolated_step.
Qed.

(** ** The life of a process in memory

    What the kernel does with these calls.  A process has its protection table and
    the two addresses [mem_start] and [heap_bottom] between which its memory lies:
    they are all that [release_proc_mem] and [dup_vm] go by. *)
Record space := mkSpace { sp_live : bool; sp_table : list Z; sp_start : Z; sp_bottom : Z }.
Record lifest := mkLife { lf_mm : mmst; lf_procs : gmap Z space }.

(** The pages are asked for with an empty table; [len] is whole pages, as the sizes of
    stack, program and heap are. *)
Definition loads (m : mmst) (len : Z) (sp : space) (m' : mmst) (sp' : space) : Prop :=
  exists a t', user_get_free_pages (replicate (Z.to_nat PTABLE_LEN) 0) len GFP_NORM m = Some ((a, t'), m') /\
    sp' = if a =? 0 then mkSpace (sp_live sp) (replicate (Z.to_nat PTABLE_LEN) 0) (sp_start sp) (sp_bottom sp) else mkSpace true t' a (a + len - 1).

Inductive life_step (s : lifest) : lifest -> Prop :=
(* alloc_mem_welf: a new process, or one in execve, which clears its table first *)
| life_load i sp n m' sp' :
    lf_procs s !! i = Some sp -> 0 < n < 128 -> loads (lf_mm s) (n * 1024) sp m' sp' -> life_step s (mkLife m' (<[i := sp']> (lf_procs s)))
(* copy_mm and copy_pregs: the child gets as many pages *)
| life_fork i sp j sp1 a t' m' :
    lf_procs s !! i = Some sp -> sp_live sp = true -> lf_procs s !! j = Some sp1 -> sp_live sp1 = false ->
    dup_vm (sp_bottom sp) (sp_start sp) (replicate (Z.to_nat PTABLE_LEN) 0) (lf_mm s) = Some ((a, t'), m') ->
    life_step s (mkLife m' (if a =? 0 then lf_procs s else <[j := mkSpace true t' a (a + (sp_bottom sp - sp_start sp))]> (lf_procs s)))
(* sys_sbrk: the heap grows at its bottom *)
| life_grow i sp len r t' m' :
    lf_procs s !! i = Some sp -> sp_live sp = true -> valid_len len ->
    user_get_free_pages_from (sp_table sp) (sp_bottom sp + 1) len (lf_mm s) = Some ((r, t'), m') ->
    life_step s (mkLife m' (<[i := mkSpace true t' (sp_start sp) (if r =? OK then sp_bottom sp + align_page len else sp_bottom sp)]> (lf_procs s)))
(* do_exit *)
| life_exit i sp t' m' :
    lf_procs s !! i = Some sp -> sp_live sp = true ->
    release_proc_mem (sp_bottom sp) (sp_start sp) (sp_table sp) (lf_mm s) = Some (t', m') ->
    life_step s (mkLife m' (<[i := mkSpace false t' (sp_start sp) (sp_bottom sp)]> (lf_procs s)))
(* pages of the kernel itself: stacks, heap, pipes *)
| life_kernel len flags a m' :
    valid_len len -> get_free_pages len flags (lf_mm s) = Some (a, m') -> life_step s (mkLife m' (lf_procs s)).

(** The memory of a live process is the [n] pages from [p] on. *)
Definition lies_in (sp : space) (p n : Z) : Prop := sp_live sp = true /\ sp_start sp = p * 1024 /\ sp_bottom sp = (p + n) * 1024 - 1.

Record space_ok (m : mmst) (sp : space) : Prop := {
  so_wf : wf_map (sp_table sp) PTABLE_LEN;
  so_dead : sp_live sp = false -> forall x, 0 <= x -> bit (sp_table sp) x = false;
  so_live : sp_live sp = true -> exists p n, lies_in sp p n /\ bss_page_end m <= p /\ 0 < n /\ p + n <= 127 /\
    (forall x, p <= x < p + n -> used m x = true) /\ (forall x, 0 <= x -> bit (sp_table sp) x = true -> p <= x < p + n)
}.

Record life_ok (s : lifest) : Prop := {
  lo_mm : mm_inv (lf_mm s);
  lo_each : forall i sp, lf_procs s !! i = Some sp -> space_ok (lf_mm s) sp;
  lo_apart : forall i j sp sq p n q k x, lf_procs s !! i = Some sp -> lf_procs s !! j = Some sq -> i <> j ->
    lies_in sp p n -> lies_in sq q k -> p <= x < p + n -> ~ (q <= x < q + k)
}.

Lemma lies_in_inj sp p n q k : lies_in sp p n -> lies_in sp q k -> p = q /\ n = k.
Proof. intros (_ & A & B) (_ & C & D). lia. Qed.

Lemma life_isolated s : life_ok s -> isolated (mkVm (lf_mm s) (sp_table <$> lf_procs s)).
Proof.
  intros [Hm He Ha]. assert (Hb : forall i sp x, lf_procs s !! i = Some sp -> 0 <= x -> bit (sp_table sp) x = true ->
    exists p n, lies_in sp p n /\ p <= x < p + n /\ bss_page_end (lf_mm s) <= p /\ p + n <= 127 /\ used (lf_mm s) x = true).
  { intros i sp x Hi Hx E. destruct (He i sp Hi) as [_ Hd Hl]. destruct (sp_live sp); [|by rewrite Hd in E].
    destruct Hl as (p & n & L & B1 & _ & B2 & U & B); [done|]. exists p, n. auto 10. }
  split; cbn [vm_mm vm_ptables]; [done|..].
  - intros i t (sp & <- & Hi)%lookup_fmap_Some. by destruct (He i sp Hi).
  - intros i t x (sp & <- & Hi)%lookup_fmap_Some Hx E. destruct (Hb i sp x Hi Hx E) as (p & n & _ & Hr & ? & ? & ?). split; [lia|done].
  - intros i j t u x (sp & <- & Hi)%lookup_fmap_Some (sq & <- & Hj)%lookup_fmap_Some Hne Hx E. apply not_true_is_false. intros E'.
    destruct (Hb i sp x Hi Hx E) as (p & n & L1 & R1 & _), (Hb j sq x Hj Hx E') as (q & k & L2 & R2 & _). by apply (Ha i j sp sq p n q k x).
Qed.

(** Process [i] changes, and the map with it: its pages become used and were nobody's,
    or were its own before. *)
Lemma life_update s i sp sp' m' :
  life_ok s -> lf_procs s !! i = Some sp -> mm_inv m' -> bss_page_end m' = bss_page_end (lf_mm s) -> space_ok m' sp' ->
  (forall j sq q k, lf_procs s !! j = Some sq -> i <> j -> lies_in sq q k -> forall x, q <= x < q + k ->
    used m' x = true /\ forall p n, lies_in sp' p n -> ~ (p <= x < p + n)) ->
  life_ok (mkLife m' (<[i := sp']> (lf_procs s))).
Proof.
  intros [Hm He Ha] Hi Hm' Hb Hsp Hoth. split; cbn [lf_mm lf_procs]; [done|..].
  - intros j sq [[<- <-]|[Hne Hj]]%lookup_insert_Some; [done|]. destruct (He j sq Hj) as [W D L]. split; [done|done|].
    intros Hl. destruct (L Hl) as (q & k & Hq & B1 & B2 & B3 & U & B). exists q, k. rewrite Hb. do 4 (split; [done|]).
    split; [|done]. intros x Hx. by destruct (Hoth j sq q k Hj Hne Hq x Hx).
  - intros j k sj sk p n q c x Hj Hk Hne Lj Lk Hx Hx'. apply lookup_insert_Some in Hj as [[<- <-]|[Nj Hj]]; apply lookup_insert_Some in Hk as [[E <-]|[Nk Hk]].
    + done.
    + destruct (Hoth k sk q c Hk Nk Lk x Hx') as [_ H]. by apply (H p n).
    + subst k. destruct (Hoth j sj p n Hj Nj Lj x Hx) as [_ H]. by apply (H q c).
    + by apply (Ha j k sj sk p n q c x).
Qed.

Lemma pages_used s j sq q k x : life_ok s -> lf_procs s !! j = Some sq -> lies_in sq q k -> q <= x < q + k -> 0 <= x /\ used (lf_mm s) x = true.
Proof.
  intros [Hm He _] Hj Hq Hx. pose proof (inv_bss _ Hm). destruct (He j sq Hj) as [_ _ L]. destruct (L (proj1 Hq)) as (q' & k' & Hq' & B1 & _ & _ & U & _).
  destruct (lies_in_inj _ _ _ _ _ Hq Hq') as [-> ->]. split; [lia|by apply U].
Qed.

(** Pages that were free become those of process [i], whose table was empty. *)
Lemma life_gain s i sp m' t' p n :
  life_ok s -> lf_procs s !! i = Some sp -> mm_inv m' -> bss_page_end m' = bss_page_end (lf_mm s) -> wf_map t' PTABLE_LEN ->
  bss_page_end (lf_mm s) <= p -> 0 < n -> p + n <= 127 -> run_free (used (lf_mm s)) p n ->
  (forall x, 0 <= x -> used m' x = (used (lf_mm s) x || bool_decide (p <= x < p + n))) ->
  (forall x, 0 <= x -> bit t' x = bool_decide (p <= x < p + n)) ->
  life_ok (mkLife m' (<[i := mkSpace true t' (p * 1024) ((p + n) * 1024 - 1)]> (lf_procs s))).
Proof.
  intros Hok Hi Hm' Hb Hw Hlo Hn Hhi Hf Hu Ht. pose proof (inv_bss _ (lo_mm _ Hok)). apply (life_update s i sp); try done.
  - split; [done|done|]. intros _. exists p, n. split; [done|]. rewrite Hb. do 3 (split; [done|]). split.
    + intros x Hx. rewrite Hu by lia. rewrite bool_decide_eq_true_2 by done. apply orb_true_r.
    + intros x Hx E. rewrite Ht in E by done. by apply bool_decide_eq_true in E.
  - intros j sq q k Hj Hne Hq x Hx. destruct (pages_used s j sq q k x) as [H0 U]; [done..|]. split; [by rewrite Hu, U|].
    intros p' n' Hl Hx'. assert (Hpn : lies_in (mkSpace true t' (p * 1024) ((p + n) * 1024 - 1)) p n) by done.
    destruct (lies_in_inj _ _ _ _ _ Hl Hpn) as [-> ->]. by rewrite Hf in U.
Qed.

Lemma bit_zeros x : bit (replicate (Z.to_nat PTABLE_LEN) 0) x = false.
Proof. by apply (bitmap_clear_spec (replicate (Z.to_nat PTABLE_LEN) 0) PTABLE_LEN). Qed.

Lemma wf_zeros : wf_map (replicate (Z.to_nat PTABLE_LEN) 0) PTABLE_LEN.
Proof. apply (bitmap_clear_spec (replicate (Z.to_nat PTABLE_LEN) 0) PTABLE_LEN). done. Qed.


(** Memory ends with a page in use: no run reaches it. *)
Lemma pages_free_to_end m n p :
  mm_inv m -> 0 <= p <= 127 -> 127 < p + Z.of_nat n -> pages_free_loop n (mem_map m) p = Some false.
Proof.
  intros Hm. revert p. induction n as [|n IH]; intros p Hp Hn; [lia|]. cbn [pages_free_loop].
  rewrite is_bit_on_bit by (apply Hm || (unfold MEM_MAP_LEN; lia)). cbn [mbind option_bind].
  destruct (decide (p = 127)) as [->|Hne]; [by rewrite (inv_top _ Hm)|]. destruct (bit (mem_map m) p); [done|]. apply IH; lia.
Qed.

Lemma grow_beyond m t p len :
  mm_inv m -> valid_len len -> 0 <= p <= 127 -> 127 < p + npages len ->
  user_get_free_pages_from t (PAGE_TO_PADDR p) len m = Some ((ENOMEM, t), m).
Proof.
  intros Hm Hl Hp Hn. unfold user_get_free_pages_from, get_free_pages_from, is_pages_free_from.
  rewrite paged_of_page, num_pages_npages by (done || lia). unfold mbind, st_bind, getS. cbn [liftO].
  rewrite pages_free_to_end by (done || lia). done.
Qed.

Lemma align_page_npages len : valid_len len -> align_page len = npages len * 1024.
Proof.
  intros Hl. pose proof (num_pages_npages len Hl) as H. unfold PADDR_TO_NUM_PAGES in H. rewrite <- H. unfold align_page, valid_len, PAGE_LEN in *.
  rewrite (s32_id len), (s32_id (len - 1)) by (unfold is_s32; lia). rewrite Z.shiftl_mul_pow2, Z.shiftr_div_pow2 by lia.
  change (2 ^ 10) with 1024. rewrite s32_id by (unfold is_s32; zlia). zlia.
Qed.

(** Loading [n] pages into an empty table: the process lies in new pages, or nothing happens. *)
Lemma user_load_spec m n :
  mm_inv m -> 0 < n < 128 ->
  exists a t' m', user_get_free_pages (replicate (Z.to_nat PTABLE_LEN) 0) (n * 1024) GFP_NORM m = Some ((a, t'), m') /\
    ((a = 0 /\ m' = m) \/
     exists p, a = p * 1024 /\ a <> 0 /\ mm_inv m' /\ bss_page_end m' = bss_page_end m /\ wf_map t' PTABLE_LEN /\ bss_page_end m <= p /\ p + n <= 127 /\
       run_free (used m) p n /\ (forall x, 0 <= x -> used m' x = (used m x || bool_decide (p <= x < p + n))) /\
       (forall x, 0 <= x -> bit t' x = bool_decide (p <= x < p + n))).
Proof.
  intros Hm Hn. pose proof (inv_bss _ Hm). destruct (user_get_free_pages_spec m (replicate (Z.to_nat PTABLE_LEN) 0) (n * 1024) GFP_NORM)
    as (a & t' & m' & E & Hm' & Hb & Hw & H'); [done|apply wf_zeros|unfold valid_len; lia|]. exists a, t', m'. split; [done|].
  destruct H' as [(-> & _ & ->)|(p & -> & Hlo & Hhi & Hf & Hu & Ht)]; [by left|]. right. rewrite npages_pages in *. exists p.
  rewrite page_to_paddr in * by lia. do 8 (split; [done || lia|]). split; [done|]. intros x Hx. by rewrite Ht, bit_zeros.
Qed.

(** A process whose table is cleared keeps its pages. *)
Lemma life_cleared s i sp :
  life_ok s -> lf_procs s !! i = Some sp ->
  life_ok (mkLife (lf_mm s) (<[i := mkSpace (sp_live sp) (replicate (Z.to_nat PTABLE_LEN) 0) (sp_start sp) (sp_bottom sp)]> (lf_procs s))).
Proof.
  intros Hok Hi. apply (life_update s i sp); try done; [by apply lo_mm| |].
  - destruct (lo_each _ Hok i sp Hi) as [_ _ L]. split; cbn [sp_live sp_table]; [apply wf_zeros|intros _ x _; apply bit_zeros|].
    intros Hl. destruct (L Hl) as (p & n & (_ & A & B) & H). exists p, n. split; [done|]. destruct H as (? & ? & ? & ? & _).
    do 4 (split; [done|]). intros x _. by rewrite bit_zeros.
  - intros j sq q k Hj Hne Hq x Hx. split; [by eapply pages_used|]. intros p n (A & B & C) Hx'.
    by apply (lo_apart _ Hok i j sp sq p n q k x).
Qed.

Lemma life_load_ok s i sp n m' sp' :
  life_ok s -> lf_procs s !! i = Some sp -> 0 < n < 128 -> loads (lf_mm s) (n * 1024) sp m' sp' -> life_ok (mkLife m' (<[i := sp']> (lf_procs s))).
Proof.
  intros Hok Hi Hn (a & t' & Hr & ->). destruct (user_load_spec _ n (lo_mm _ Hok) Hn) as (a1 & t1 & m1 & E & H). rewrite Hr in E. simplify_eq.
  destruct H as [(-> & ->)|(p & -> & Ha & Hm' & Hb & Hw & Hlo & Hhi & Hf & Hu & Ht)]; [by apply life_cleared|].
  rewrite (proj2 (Z.eqb_neq _ _)) by done. replace (p * 1024 + n * 1024 - 1) with ((p + n) * 1024 - 1) by lia. apply (life_gain s i sp); done || lia.
Qed.

Lemma life_grow_ok s i sp len r t' m' :
  life_ok s -> lf_procs s !! i = Some sp -> sp_live sp = true -> valid_len len ->
  user_get_free_pages_from (sp_table sp) (sp_bottom sp + 1) len (lf_mm s) = Some ((r, t'), m') ->
  life_ok (mkLife m' (<[i := mkSpace true t' (sp_start sp) (if r =? OK then sp_bottom sp + align_page len else sp_bottom sp)]> (lf_procs s))).
Proof.
  intros Hok Hi Hl Hv Hr. pose proof (lo_mm _ Hok) as Hm. destruct (lo_each _ Hok i sp Hi) as [Hw _ L].
  destruct (L Hl) as (p & n & (_ & Hs & Hb) & Hlo & Hn & Hhi & Hu & Hbit). pose proof (inv_bss _ Hm).
  assert (Hnn : 0 <= npages len) by (unfold npages, valid_len in *; zlia).
  assert (Hsame : life_ok (mkLife (lf_mm s) (<[i := mkSpace true (sp_table sp) (sp_start sp) (sp_bottom sp)]> (lf_procs s)))).
  { assert (mkSpace true (sp_table sp) (sp_start sp) (sp_bottom sp) = sp) as -> by (by destruct sp; cbn in *; subst). rewrite insert_id by done. by destruct s. }
  replace (sp_bottom sp + 1) with (PAGE_TO_PADDR (p + n)) in Hr by (rewrite page_to_paddr by lia; lia).
  destruct (decide (p + n + npages len <= 127)); [|rewrite grow_beyond in Hr by (done || lia); by simplify_eq].
  destruct (user_get_free_pages_from_spec (lf_mm s) (sp_table sp) (p + n) len) as (r1 & t1 & m1 & E & Hm' & Hb' & Hw' & Hc); [done..|lia|lia|].
  rewrite Hr in E. simplify_eq. destruct Hc as [(-> & -> & ->)|(-> & Hf & Hu' & Ht)]; [done|].
  rewrite Z.eqb_refl, align_page_npages by done.
  assert (Hlies : forall p' n', lies_in (mkSpace true t1 (sp_start sp) (sp_bottom sp + npages len * 1024)) p' n' -> p' = p /\ n' = n + npages len).
  { intros p' n' (_ & A & B). cbn in A, B. lia. }
  apply (life_update s i sp); try done.
  - split; [done|done|]. intros _. exists p, (n + npages len). split; [split; [done|cbn; lia]|]. rewrite Hb'. do 3 (split; [lia|]). split.
    + intros x Hx. rewrite Hu' by lia. destruct (decide (x < p + n)); [by rewrite Hu by lia|]. rewrite bool_decide_eq_true_2 by lia. apply orb_true_r.
    + intros x Hx Ex. cbn [sp_table] in Ex. rewrite Ht in Ex by done. apply orb_true_iff in Ex as [Ex|Ex]; [apply Hbit in Ex; lia|]. apply bool_decide_eq_true in Ex. lia.
  - intros j sq q k Hj Hne Hq x Hx. destruct (pages_used s j sq q k x) as [H0 U]; [done..|]. split; [by rewrite Hu', U by lia|].
    intros p' n' [-> ->]%Hlies Hx'. destruct (decide (x < p + n)).
    + apply (lo_apart _ Hok i j sp sq p n q k x); done || lia.
    + by rewrite Hf in U by lia.
Qed.

Lemma life_step_ok s s' : life_ok s -> life_step s s' -> life_ok s'.
Proof.
  intros Hok Hstep. pose proof (lo_mm _ Hok) as Hm. pose proof (inv_bss _ Hm) as Hb0.
  destruct Hstep as [i sp n m' sp' Hi Hn Hld | i sp j sp1 a t' m' Hi Hl Hj Hd Hr | i sp len r t' m' Hi Hl Hv Hr | i sp t' m' Hi Hl Hr | len flags a m' Hl Hr].
  - by eapply life_load_ok.
  - destruct (so_live _ _ (lo_each _ Hok i sp Hi) Hl) as (p & n & (_ & Hs & Hb) & Hlo & Hn & Hhi & _).
    unfold dup_vm in Hr. replace (s32 (sp_bottom sp + 1 - sp_start sp)) with (n * 1024) in Hr by (rewrite s32_id by (unfold is_s32; lia); lia).
    destruct (user_load_spec _ n Hm) as (a1 & t1 & m1 & E & H); [lia|]. rewrite Hr in E. simplify_eq.
    destruct H as [(-> & ->)|(q & -> & Ha & Hm' & Hb' & Hw & Hlo' & Hhi' & Hf & Hu & Ht)]; [by destruct s|].
    rewrite (proj2 (Z.eqb_neq _ _)) by done. replace (q * 1024 + (sp_bottom sp - sp_start sp)) with ((q + n) * 1024 - 1) by lia.
    apply (life_gain s j sp1); done || lia.
  - by eapply life_grow_ok.
  - destruct (so_live _ _ (lo_each _ Hok i sp Hi) Hl) as (p & n & Hp & Hlo & Hn & Hhi & _). pose proof Hp as (_ & Hs & Hb).
    destruct (release_proc_mem_spec (lf_mm s) (sp_table sp) p n) as (t1 & m1 & E & Hm' & Hb' & Hw & Hu & Hz);
      [done|by destruct (lo_each _ Hok i sp Hi)|done|lia|done|]. rewrite <- Hb, <- Hs, Hr in E. simplify_eq. apply (life_update s i sp); try done.
    intros j sq q k Hj Hne Hq x Hx. destruct (pages_used s j sq q k x) as [H0 U]; [done..|]. split; [|by intros p' n' (? & _)].
    rewrite Hu, U by done. rewrite bool_decide_eq_false_2; [done|]. intros Hx'. by apply (lo_apart _ Hok i j sp sq p n q k x).
  - destruct (get_free_pages_spec (lf_mm s) len flags) as (a1 & m1 & E & Hm' & Hb' & Hc); [done..|]. rewrite Hr in E. simplify_eq.
    assert (Hmono : forall x, 0 <= x -> used (lf_mm s) x = true -> used m1 x = true).
    { intros x Hx E. destruct Hc as [(_ & -> & _)|(p & _ & _ & _ & _ & _ & _ & Hu)]; [done|]. by rewrite Hu, E by done. }
    destruct Hok as [_ He Ha]. split; cbn [lf_mm lf_procs]; [done| |done]. intros i sp Hi. destruct (He i sp Hi) as [W D L]. split; [done|done|].
    intros H. destruct (L H) as (p & n & Hp & B1 & B2 & B3 & U & B). exists p, n. rewrite Hb'. do 4 (split; [done|]). split; [|done].
    intros x Hx. apply Hmono; [lia|by apply U].
Qed.

(** C1: memory isolation.  From processes without memory on, however they are
    loaded, exec, fork, grow their heaps and exit, each release and each copy going
    by [mem_start] and [heap_bottom] alone, and whatever the kernel takes for itself,
    no two processes can access one page and no process a page of the kernel image,
    and every page a process can access is marked in the system map.  The lengths do
    not overflow when they are rounded to pages.  Not among the steps are vfork, after
    which parent and child share their memory on purpose, and an execve whose program
    cannot be read to its end: it gives the new memory back and lets the process run
    on, which breaks the isolation when the process ends. *)
Theorem page_isolation s0 s :
  mm_inv (lf_mm s0) ->
  (forall i sp, lf_procs s0 !! i = Some sp -> sp_live sp = false /\ wf_map (sp_table sp) PTABLE_LEN /\ forall x, 0 <= x -> bit (sp_table sp) x = false) ->
  rtc life_step s0 s -> isolated (mkVm (lf_mm s) (sp_table <$> lf_procs s)).
Proof.
  intros Hm Hz Hsteps. apply life_isolated. assert (H0 : life_ok s0).
  { split; [done| |].
    - intros i sp Hi. destruct (Hz i sp Hi) as (Hd & Hw & Hb). split; [done|done|]. congruence.
    - intros i j sp sq p n q k x Hi _ _ [Hl _]. destruct (Hz i sp Hi). congruence. }
  clear Hm Hz. induction Hsteps; eauto using life_step_ok.
Qed.

(** Process 1 is loaded into the pages 2 and 3, process 2 forked from it into 4 and 5; the
    first exits and a third one gets its pages. *)
Definition dead_space : space := mkSpace false (replicate 32 0) 0 0.
Definition sample_life : lifest := mkLife sample_mm {[ 1 := dead_space; 2 := dead_space; 3 := dead_space ]}.

Definition sample_space (bits start : Z) : space := mkSpace true (bits :: replicate 31 0) start (start + 2047).
Definition life1 : lifest := mkLife (mkMm [0xf0000000; 0; 0; 1] 2) (<[1 := sample_space 0x30000000 2048]> (lf_procs sample_life)).
Definition life2 : lifest := mkLife (mkMm [0xfc000000; 0; 0; 1] 2) (<[2 := sample_space 0x0c000000 4096]> (lf_procs life1)).
Definition life3 : lifest := mkLife (mkMm [0xcc000000; 0; 0; 1] 2) (<[1 := mkSpace false (replicate 32 0) 2048 4095]> (lf_procs life2)).
Definition life4 : lifest := mkLife (mkMm [0xfc000000; 0; 0; 1] 2) (<[3 := sample_space 0x30000000 2048]> (lf_procs life3)).

Lemma page_isolation_witness : isolated (mkVm (lf_mm life4) (sp_table <$> lf_procs life4)).
Proof.
  apply (page_isolation sample_life); [exact sample_mm_inv| |].
  - intros i sp Hi. assert (sp = dead_space) as ->.
    { cbn [sample_life lf_procs] in Hi. repeat (apply lookup_insert_Some in Hi as [[_ <-]|[_ Hi]]; [done|]). by apply lookup_singleton_Some in Hi as [_ <-]. }
    split; [done|]. split; [apply wf_zeros|]. intros x _. apply bit_zeros.
  - apply (rtc_l _ _ life1); [|apply (rtc_l _ _ life2); [|apply (rtc_l _ _ life3); [|apply rtc_once]]].
    + apply (life_load sample_life 1 dead_space 2); [reflexivity|done|]. by exists 2048, (0x30000000 :: replicate 31 0).
    + by apply (life_fork life1 1 (sample_space 0x30000000 2048) 2 dead_space 4096 (0x0c000000 :: replicate 31 0)).
    + by apply (life_exit life2 1 (sample_space 0x30000000 2048)).
    + apply (life_load life3 3 dead_space 2); [reflexivity|done|]. by exists 2048, (0x30000000 :: replicate 31 0).
Defined.

(** Lengths of the last 1023 representable values overflow [align_page],
    and [user_get_free_pages_from], which a heap extension calls, then reports
    success for any page without reserving anything: neither the system map
    nor the protection table changes. *)
Theorem grow_overflow_unchecked m t p len :
  0 <= p < 128 -> 2147482624 < len < 2147483648 ->
  user_get_free_pages_from t (PAGE_TO_PADDR p) len m = Some ((OK, t), m).
Proof.
  intros Hp Hl. unfold user_get_free_pages_from, get_free_pages_from, is_pages_free_from.
  rewrite num_pages_overflow, paged_of_page by lia.
  unfold mbind, st_bind, getS. cbn [liftO Z.to_nat pages_free_loop negb].
  unfold on_mem_map, bitmap_set_nbits.
  destruct (Z.geb_spec (p + -2097152) (MEM_MAP_LEN * 32)); [unfold MEM_MAP_LEN in *; lia|].
  cbn. destruct (Z.geb_spec (p + -2097152) (PTABLE_LEN * 32)); [unfold PTABLE_LEN in *; lia|].
  by destruct m.
Qed.

Lemma grow_overflow_unchecked_witness :
  user_get_free_pages_from (replicate 32 0) (PAGE_TO_PADDR 50) 2147483000 sample_mm =
    Some ((OK, replicate 32 0), sample_mm).
Proof. apply (grow_overflow_unchecked sample_mm (replicate 32 0) 50 2147483000); lia. Defined.

(** [is_vaddr_ok] answers with the protection bit of the page that holds
    the physical address as long as that address is below 2^20 words; for a
    virtual address whose physical address has the sign bit set the page number
    is negative and the protection table is read below its first word. *)
Theorem is_vaddr_ok_domain addr rbase t :
  wf_map t PTABLE_LEN ->
  (get_physical_addr addr rbase < 1048576 ->
     is_vaddr_ok addr rbase t = Some (bit t (get_physical_addr addr rbase / 1024))) /\
  (1049600 <= get_physical_addr addr rbase < 2147483648 -> is_vaddr_ok addr rbase t = Some false) /\
  (2147483648 <= get_physical_addr addr rbase < 4294934528 -> is_vaddr_ok addr rbase t = None).
Proof.
  intros Hw. unfold is_vaddr_ok. set (pa := get_physical_addr addr rbase).
  assert (Hpa : is_u32 pa) by apply u32_range. unfold is_u32, UINT_MOD in Hpa.
  unfold PADDR_TO_PAGED, PAGE_LEN. split; [|split]; intros Hr.
  - rewrite s32_id by (unfold is_s32; lia). rewrite Z.quot_div_nonneg by lia.
    apply is_bit_on_bit; [done|]. unfold PTABLE_LEN. zlia.
  - rewrite s32_id by (unfold is_s32; lia). rewrite Z.quot_div_nonneg by lia.
    unfold is_bit_on. destruct (Z.gtb_spec (pa / 1024) (PTABLE_LEN * 32)); [done|].
    unfold PTABLE_LEN in *. zlia.
  - assert (Hs : s32 pa = pa - 4294967296).
    { unfold s32, UINT_MOD. replace (pa + 2147483648) with (pa - 2147483648 + 1 * 4294967296) by lia.
      rewrite Z.mod_add, Z.mod_small by lia. lia. }
    rewrite Hs. unfold is_bit_on.
    destruct (Z.gtb_spec (Z.quot (pa - 4294967296) 1024) (PTABLE_LEN * 32)); [unfold PTABLE_LEN in *; zlia|].
    rewrite (aget_oob t); [done|]. intros [? ?]. zlia.
Qed.

Lemma is_vaddr_ok_domain_witness :
  (get_physical_addr 5000 2048 < 1048576 ->
     is_vaddr_ok 5000 2048 (replicate 32 1) = Some (bit (replicate 32 1) (get_physical_addr 5000 2048 / 1024))) /\
  (1049600 <= get_physical_addr 5000 2048 < 2147483648 -> is_vaddr_ok 5000 2048 (replicate 32 1) = Some false) /\
  (2147483648 <= get_physical_addr 5000 2048 < 4294934528 -> is_vaddr_ok 5000 2048 (replicate 32 1) = None).
Proof.
  apply (is_vaddr_ok_domain 5000 2048 (replicate 32 1)).
  apply (wf_replicate 1 32). unfold is_u32, UINT_MOD. lia.
Defined.
