(* ===== verification/Stdio.v ===== *)
(** * winix/sys_stdio.c and lib/stdlib/atoi.c: number formatting and kprintf

    A C string is the list of its character codes without the terminating 0; on
    WRAMP a character is a word.  Loops that the source does not bound run on
    fuel, and [None] is a loop that does not end or a write outside of a buffer. *)
From Stdlib Require Import String Ascii.
From S2P Require Import Prelude.
Local Open Scope Z_scope.

(** Character constants of the source. *)
Definition ch_0 : Z := 48.
Definition ch_9 : Z := 57.
Definition ch_A : Z := 65.
Definition ch_minus : Z := 45.
Definition ch_space : Z := 32.
Definition ch_percent : Z := 37.
Definition isdigit (c : Z) : bool := (ch_0 <=? c) && (c <=? ch_9).

(** ** Error names *)
Definition _NERROR : Z := 40.

Definition errlist : list (option string) :=
  [ None; Some "EPERM"; Some "ENOENT"; Some "ESRCH"; Some "EINTR"; Some "EIO"; Some "ENXIO";
    Some "E2BIG"; Some "ENOEXEC"; Some "EBADF"; Some "ECHILD"; Some "EAGAIN"; Some "ENOMEM";
    Some "EACCES"; Some "EFAULT"; Some "ENOTBLK"; Some "EBUSY"; Some "EEXIST"; Some "EXDEV";
    Some "ENODEV"; Some "ENOTDIR"; Some "EISDIR"; Some "EINVAL"; Some "ENFILE"; Some "EMFILE";
    Some "ENOTTY"; Some "ETXTBSY"; Some "EFBIG"; Some "ENOSPC"; Some "ESPIPE"; Some "EROFS";
    Some "EMLINK"; Some "EPIPE"; Some "EDOM"; Some "ERANGE"; Some "EDEADLK";
    Some "ENAMETOOLONG"; Some "ENOLCK"; Some "ENOSYS"; Some "ENOTEMPTY" ]%string.

(** The inner [None] is the null pointer, the outer one an access outside of
    [errlist]. *)
Definition kstr_error (err : Z) : option (option string) :=
  let err := if err <? 0 then s32 (- err) else err in
  if (err <? 0) || (err >=? _NERROR) then Some None
  else aget errlist err.

(** ** Numbers to text *)

(** for(i = 28; i >= 0; i -= 4), with i = 4 * (n - 1) *)
Fixpoint kputx_loop (n : nat) (num : Z) (v : bool) (out : list Z) : list Z :=
  match n with
  | O => out
  | S n' =>
      let d := Z.land (Z.shiftr num (4 * Z.of_nat n')) 0xf in
      let v := if d =? 0 then v else true in
      if d <? 10 then
        kputx_loop n' num v (if v then out ++ [d + ch_0] else out)
      else kputx_loop n' num v (out ++ [d - 10 + ch_A])
  end.

(** The characters stored before the 0; the returned offset is their number. *)
Definition kputx_buf (n : Z) : list Z :=
  if n =? 0 then [ch_0] else kputx_loop 8 n false [].

Fixpoint find_place (fuel : nat) (place n : Z) : option Z :=
  match fuel with
  | O => None
  | S f => if place >? n then find_place f (Z.quot place 10) n else Some place
  end.

Fixpoint put_digits (fuel : nat) (place n : Z) (out : list Z) : option (list Z) :=
  match fuel with
  | O => None
  | S f =>
      if place =? 0 then Some out
      else
        let d := Z.quot n place in
        put_digits f (Z.quot place 10) n (out ++ [Z.rem d 10 + ch_0])
  end.

Definition kputd_buf (fuel : nat) (n : Z) : option (list Z) :=
  if n =? 0 then Some [ch_0]
  else
    let out := if n <? 0 then [ch_minus] else [] in
    let n := if n <? 0 then s32 (n * -1) else n in
    place ← find_place fuel 1000000000 n;
    put_digits fuel place n out.

Fixpoint atoi_loop (p : list Z) (res : Z) : Z :=
  match p with
  | [] => res
  | c :: p' =>
      if (c >=? ch_0) && (c <=? ch_9) then atoi_loop p' (s32 (res * 10 + c - ch_0)) else 0
  end.

Definition atoi (str : list Z) : Z := atoi_loop str 0.

(** lib/util/util.c: the value of upper case hexadecimal text, summed in [int] *)
Fixpoint hex2int_loop (a : list Z) (len i val : Z) : Z :=
  match a with
  | [] => val
  | c :: a' =>
      let digit := if c <=? ch_9 then c - 48 else c - 55 in
      hex2int_loop a' len (i + 1) (s32 (val + digit * Z.shiftl 1 (4 * (len - 1 - i))))
  end.

Definition hex2int (a : list Z) : Z := hex2int_loop a (alen a) 0 0.

(** ** kprintf *)
Definition BUFFER_SIZ : Z := 64.
Definition FORMAT_BUF_SIZ : Z := 11.
Definition PADDING_NUM_BUF_SIZ : Z := 3.

Record printf_buffer := mkPb {
  buffer : list Z;        (* char buffer[BUFFER_SIZ] *)
  limit : Z;
  pos : Z;
  total_count : Z;
  written : list Z        (* what filp_write was given so far *)
}.
#[export] Instance eta_pb : Settable printf_buffer := mkEta (fun t =>
  mkPb (buffer t) (limit t) (pos t) (total_count t) (written t)).

Inductive padding := LEFT_PADDING | RIGHT_PADDING.

(** A decoded conversion: padding direction, padding token, padding length and
    the format from the conversion letter on. *)
Record conv := mkConv { cv_dir : padding; cv_token : Z; cv_len : Z; cv_rest : list Z }.

Fixpoint read_digits (n : nat) (format : list Z) : list Z * list Z :=
  match n, format with
  | S n', c :: format' =>
      if isdigit c then let '(ds, rest) := read_digits n' format' in (c :: ds, rest)
      else ([], format)
  | _, _ => ([], format)
  end.

(** The option part of a conversion, after the '%'. *)
Definition decode (format : list Z) : conv :=
  let '(dir, format) :=
    match format with 45 :: f => (RIGHT_PADDING, f) | _ => (LEFT_PADDING, format) end in
  let '(token, format) :=
    match format with 48 :: f => (ch_0, f) | _ => (ch_space, format) end in
  let '(ds, format) := read_digits (Z.to_nat (PADDING_NUM_BUF_SIZ - 1)) format in
  let len := if bool_decide (ds = []) then 0 else atoi ds in
  let format := match format with 108 :: f => f | _ => format end in
  mkConv dir token len format.

Section kprintf.
(** The write operation of the output file and the strings in memory. *)
Context (filp_write : list Z -> Z) (str_at : Z -> list Z).

Definition flush_buffer_data (data : list Z) : ST printf_buffer unit :=
  modifyS (fun t => t <| total_count ::= Z.add (filp_write data) |>
                      <| written ::= (fun w => w ++ data) |>).

Definition flush_buffer : ST printf_buffer unit :=
  t ← getS;
  if pos t >? 0 then
    _ ← flush_buffer_data (take (Z.to_nat (pos t)) (buffer t));
    modifyS (fun t => t <| pos := 0 |>)
  else mret tt.

(** buffer[pos++] = c *)
Definition store_char (c : Z) : ST printf_buffer unit :=
  t ← getS;
  b ← liftO (aset (buffer t) (pos t) c);
  putS (t <| buffer := b |> <| pos ::= Z.succ |>).

Definition add_char_to_buffer (c : Z) : ST printf_buffer unit :=
  t ← getS;
  _ ← (if pos t >=? limit t then flush_buffer else mret tt);
  store_char c.

Fixpoint store_chars (sbuf : list Z) : ST printf_buffer unit :=
  match sbuf with
  | [] => mret tt
  | c :: sbuf' => _ ← store_char c; store_chars sbuf'
  end.

Definition append_buffer (sbuf : list Z) : ST printf_buffer unit :=
  t ← getS;
  if alen sbuf >? limit t then
    _ ← flush_buffer; flush_buffer_data sbuf
  else
    _ ← (if alen sbuf + pos t >=? limit t then flush_buffer else mret tt);
    store_chars sbuf.

Fixpoint pad_loop (n : nat) (token : Z) : ST printf_buffer unit :=
  match n with
  | O => mret tt
  | S n' => _ ← add_char_to_buffer token; pad_loop n' token
  end.

Definition fill_padding (token len : Z) : ST printf_buffer unit :=
  t ← getS;
  _ ← (if len + pos t >=? limit t then flush_buffer else mret tt);
  pad_loop (Z.to_nat len) token.

(** The text of one argument.  Numbers go through the 11 word
    [format_buffer], terminator included. *)
Definition in_format_buffer (l : list Z) : option (list Z) :=
  if alen l + 1 <=? FORMAT_BUF_SIZ then Some l else None.

Definition conv_text (letter arg who_rbase : Z) : option (list Z) :=
  if letter =? 100 then l ← kputd_buf 12 arg; in_format_buffer l          (* d *)
  else if (letter =? 120) || (letter =? 112) then in_format_buffer (kputx_buf arg)  (* x p *)
  else if letter =? 115 then                                             (* s *)
    let format_ptr := u32 (arg + who_rbase) in
    if format_ptr =? 0 then Some [] else Some (str_at format_ptr)
  else Some [arg].                                                       (* c and default *)

(** Each iteration consumes a character of the format, so its length is
    enough fuel; a '%' that ends the format makes the source skip the
    terminator and read on, which is [None]. *)
Fixpoint kprintf_loop (fuel : nat) (format args : list Z) (who_rbase : Z)
  : ST printf_buffer unit :=
  match fuel, format with
  | _, [] => mret tt
  | O, _ => crash
  | S f, c :: format' =>
      if c =? ch_percent then
        let cv := decode format' in
        match cv_rest cv, args with
        | letter :: rest, arg :: args' =>
            text ← liftO (conv_text letter arg who_rbase);
            let padding_len := cv_len cv - alen text in
            _ ← (if padding_len >? 0 then
                   match cv_dir cv with
                   | LEFT_PADDING => _ ← fill_padding (cv_token cv) padding_len; append_buffer text
                   | RIGHT_PADDING => _ ← append_buffer text; fill_padding (cv_token cv) padding_len
                   end
                 else append_buffer text);
            kprintf_loop f rest args' who_rbase
        | _, _ => crash
        end
      else
        _ ← add_char_to_buffer c;
        kprintf_loop f format' args who_rbase
  end.

(** Result: the returned count and everything that was written. *)
Definition kprintf_vm (format args : list Z) (who_rbase : Z) : option (Z * list Z) :=
  let this_buffer := mkPb (replicate (Z.to_nat BUFFER_SIZ) 0) BUFFER_SIZ 0 0 [] in
  match (_ ← kprintf_loop (length format) format args who_rbase; flush_buffer) this_buffer with
  | Some (_, t) => Some (total_count t, written t)
  | None => None
  end.

(** Reference: the text of a format, with no buffer. *)
Definition pad_text (cv : conv) (text : list Z) : list Z :=
  let padding := replicate (Z.to_nat (cv_len cv - alen text)) (cv_token cv) in
  match cv_dir cv with
  | LEFT_PADDING => padding ++ text
  | RIGHT_PADDING => text ++ padding
  end.

Fixpoint format_text (fuel : nat) (format args : list Z) (who_rbase : Z) : option (list Z) :=
  match fuel, format with
  | _, [] => Some []
  | O, _ => None
  | S f, c :: format' =>
      if c =? ch_percent then
        let cv := decode format' in
        match cv_rest cv, args with
        | letter :: rest, arg :: args' =>
            text ← conv_text letter arg who_rbase;
            out ← format_text f rest args' who_rbase;
            Some (pad_text cv text ++ out)
        | _, _ => None
        end
      else
        out ← format_text f format' args who_rbase;
        Some (c :: out)
  end.
End kprintf.

(** ** Decimal text *)

(** The [k] low decimal digits of [n], most significant first. *)
Fixpoint dec (k : nat) (n : Z) : list Z :=
  match k with
  | O => []
  | S i => (n / 10 ^ Z.of_nat i) mod 10 + ch_0 :: dec i n
  end.

Lemma pow10_pos i : 0 < 10 ^ Z.of_nat i.
Proof. apply Z.pow_pos_nonneg; lia. Qed.

Lemma pow10_S i : 10 ^ Z.of_nat (S i) = 10 * 10 ^ Z.of_nat i.
Proof. rewrite Nat2Z.inj_succ, Z.pow_succ_r by lia. done. Qed.

Lemma quot_pow10 i : Z.quot (10 ^ Z.of_nat (S i)) 10 = 10 ^ Z.of_nat i.
Proof.
  pose proof (pow10_pos i). rewrite pow10_S, Z.quot_div_nonneg by lia.
  rewrite Z.mul_comm. by apply Z.div_mul.
Qed.

Lemma find_place_spec (k fuel : nat) n :
  0 < n < 10 ^ Z.of_nat (S k) -> (k < fuel)%nat ->
  exists j : nat, (j <= k)%nat /\ find_place fuel (10 ^ Z.of_nat k) n = Some (10 ^ Z.of_nat j) /\
    10 ^ Z.of_nat j <= n < 10 ^ Z.of_nat (S j).
Proof.
  revert fuel. induction k as [|k IH]; intros fuel Hn Hf; (destruct fuel as [|fuel]; [lia|]); cbn [find_place].
  - exists O. change (10 ^ Z.of_nat 0) with 1 in *. change (10 ^ Z.of_nat 1) with 10 in *.
    destruct (Z.gtb_spec 1 n); [lia|]. split; [lia|]. split; [done|lia].
  - destruct (Z.gtb_spec (10 ^ Z.of_nat (S k)) n).
    + rewrite quot_pow10. destruct (IH fuel) as (j & ? & ? & ?); [lia|lia|]. exists j. split; [lia|done].
    + exists (S k). split; [lia|]. split; [done|lia].
Qed.

Lemma put_digits_spec (k fuel : nat) n out :
  0 <= n -> (k + 2 <= fuel)%nat ->
  put_digits fuel (10 ^ Z.of_nat k) n out = Some (out ++ dec (S k) n).
Proof.
  intros Hn. revert fuel out. induction k as [|k IH]; intros fuel out Hf;
    (destruct fuel as [|fuel]; [lia|]); cbn [put_digits].
  - change (10 ^ Z.of_nat 0) with 1. cbn [Z.eqb].
    destruct fuel as [|fuel]; [lia|]. cbn [put_digits dec]. change (Z.quot 1 10) with 0. cbn [Z.eqb].
    rewrite Z.quot_1_r, Z.rem_mod_nonneg by lia. change (10 ^ Z.of_nat 0) with 1. by rewrite Z.div_1_r.
  - pose proof (pow10_pos k). pose proof (pow10_S k).
    destruct (Z.eqb_spec (10 ^ Z.of_nat (S k)) 0); [lia|].
    rewrite quot_pow10, IH by lia. rewrite <- app_assoc. cbn [dec app].
    rewrite (Z.quot_div_nonneg n), Z.rem_mod_nonneg by (try apply Z.div_pos; lia). done.
Qed.

Lemma atoi_dec (k : nat) : forall n res,
  0 <= n -> 0 <= res -> res * 10 ^ Z.of_nat k + n mod 10 ^ Z.of_nat k < 2147483648 ->
  atoi_loop (dec k n) res = res * 10 ^ Z.of_nat k + n mod 10 ^ Z.of_nat k.
Proof.
  induction k as [|k IH]; intros n res Hn Hr Hb; cbn [dec atoi_loop].
  { change (10 ^ Z.of_nat 0) with 1. rewrite Z.mod_1_r. lia. }
  pose proof (pow10_pos k). pose proof (pow10_S k) as HS.
  assert (Hsplit : n mod 10 ^ Z.of_nat (S k) =
    (n / 10 ^ Z.of_nat k) mod 10 * 10 ^ Z.of_nat k + n mod 10 ^ Z.of_nat k).
  { rewrite HS, (Z.mul_comm 10), Z.rem_mul_r by lia. lia. }
  pose proof (Z.mod_pos_bound (n / 10 ^ Z.of_nat k) 10 ltac:(lia)) as Hd.
  set (d := (n / 10 ^ Z.of_nat k) mod 10) in *.
  pose proof (Z.mod_pos_bound n (10 ^ Z.of_nat k) ltac:(lia)).
  unfold ch_0, ch_9. destruct (Z.geb_spec (d + 48) 48); [|lia].
  destruct (Z.leb_spec (d + 48) 57); [|lia]. cbn [andb].
  rewrite s32_id by (unfold is_s32; nia).
  rewrite IH by nia. nia.
Qed.

Lemma atoi_dec_small (k : nat) n :
  0 <= n < 10 ^ Z.of_nat k -> n < 2147483648 -> atoi (dec k n) = n.
Proof. intros Hn Hb. unfold atoi. rewrite atoi_dec; rewrite ?Z.mod_small by lia; lia. Qed.

Lemma alen_dec k n : alen (dec k n) = Z.of_nat k.
Proof. unfold alen. induction k as [|k IH]; cbn; [done|]. lia. Qed.

(** What [kputd_buf] stores for a positive number. *)
Lemma kputd_pos fuel n :
  (12 <= fuel)%nat -> 0 < n < 2147483648 ->
  exists k : nat, (1 <= k <= 10)%nat /\ 10 ^ Z.of_nat (pred k) <= n < 10 ^ Z.of_nat k /\
    kputd_buf fuel n = Some (dec k n) /\ kputd_buf fuel (- n) = Some (ch_minus :: dec k n).
Proof.
  intros Hf Hn.
  destruct (find_place_spec 9 fuel n) as (j & Hj & Hp & Hr); [cbn; lia|lia|].
  change (10 ^ Z.of_nat 9) with 1000000000 in Hp.
  exists (S j). split; [lia|]. split; [done|]. unfold kputd_buf.
  destruct (Z.eqb_spec n 0); [lia|]. destruct (Z.eqb_spec (- n) 0); [lia|].
  destruct (Z.ltb_spec n 0); [lia|]. destruct (Z.ltb_spec (- n) 0); [|lia].
  rewrite s32_id by (unfold is_s32; lia). replace (- n * -1) with n by lia.
  rewrite Hp, !obind_Some, !put_digits_spec by lia. done.
Qed.

(** ** Hexadecimal text *)
Definition hexval (c : Z) : Z := if c <=? ch_9 then c - 48 else c - 55.

Fixpoint hv (l : list Z) (acc : Z) : Z :=
  match l with
  | [] => acc
  | c :: l' => hv l' (acc * 16 + hexval c)
  end.

Lemma hv_app l1 l2 acc : hv (l1 ++ l2) acc = hv l2 (hv l1 acc).
Proof. revert acc. induction l1 as [|c l1 IH]; intros acc; cbn; [done|]. apply IH. Qed.

Lemma hv_acc l : forall acc, hv l acc = acc * 16 ^ alen l + hv l 0.
Proof.
  unfold alen. induction l as [|c l IH]; intros acc; cbn [hv length].
  - change (Z.of_nat 0) with 0. lia.
  - rewrite IH, (IH (0 * 16 + hexval c)). rewrite Nat2Z.inj_succ, Z.pow_succ_r by lia. lia.
Qed.

Lemma kputx_loop_hv (n : nat) num : forall v out,
  (v = false -> out = []) ->
  hv (kputx_loop n num v out) 0 = hv out 0 * 16 ^ Z.of_nat n + num mod 16 ^ Z.of_nat n.
Proof.
  induction n as [|n IH]; intros v out Hv; cbn [kputx_loop].
  { change (16 ^ Z.of_nat 0) with 1. rewrite Z.mod_1_r. lia. }
  assert (Hd : Z.land (Z.shiftr num (4 * Z.of_nat n)) 0xf = (num / 16 ^ Z.of_nat n) mod 16).
  { change 0xf with (Z.ones 4). rewrite Z.land_ones, Z.shiftr_div_pow2 by lia.
    rewrite Z.pow_mul_r by lia. done. }
  rewrite Hd. pose proof (Z.mod_pos_bound (num / 16 ^ Z.of_nat n) 16 ltac:(lia)) as Hb.
  assert (Hsplit : num mod 16 ^ Z.of_nat (S n) =
    (num / 16 ^ Z.of_nat n) mod 16 * 16 ^ Z.of_nat n + num mod 16 ^ Z.of_nat n).
  { rewrite Nat2Z.inj_succ, Z.pow_succ_r, (Z.mul_comm 16), Z.rem_mul_r by lia. lia. }
  rewrite Hsplit, Nat2Z.inj_succ, Z.pow_succ_r by lia.
  set (d := (num / 16 ^ Z.of_nat n) mod 16) in *.
  assert (Hlo : d < 10 -> hexval (d + ch_0) = d).
  { intros. unfold hexval, ch_0, ch_9. destruct (Z.leb_spec (d + 48) 57); lia. }
  assert (Hhi : 10 <= d -> hexval (d - 10 + ch_A) = d).
  { intros. unfold hexval, ch_A, ch_9. destruct (Z.leb_spec (d - 10 + 65) 57); lia. }
  destruct (Z.ltb_spec d 10).
  - destruct (Z.eqb_spec d 0) as [E|E].
    + destruct v.
      * rewrite IH by done. rewrite hv_app. cbn [hv]. rewrite Hlo by lia. lia.
      * rewrite IH by done. rewrite (Hv eq_refl). cbn [hv]. lia.
    + rewrite IH by done. rewrite hv_app. cbn [hv]. rewrite Hlo by lia. lia.
  - rewrite IH; [rewrite hv_app; cbn [hv]; rewrite Hhi by lia; lia|].
    destruct (Z.eqb_spec d 0); [lia|done].
Qed.

Lemma kputx_loop_alen (n : nat) num : forall v out,
  alen (kputx_loop n num v out) <= alen out + Z.of_nat n /\
  alen out <= alen (kputx_loop n num v out).
Proof.
  induction n as [|n IH]; intros v out; cbn [kputx_loop]; [lia|].
  assert (Hl : forall c : Z, alen (out ++ [c]) = alen out + 1).
  { intros c. unfold alen. rewrite length_app. cbn. lia. }
  destruct (Z.land _ _ <? 10); [destruct (Z.land _ _ =? 0); [destruct v|]|];
    match goal with |- context [kputx_loop n num ?v ?o] => destruct (IH v o) end;
    rewrite ?Hl in *; lia.
Qed.

Lemma s32_add_l a b : s32 (s32 a + b) = s32 (a + b).
Proof.
  unfold s32. f_equal.
  replace ((a + 2147483648) mod UINT_MOD - 2147483648 + b + 2147483648)
    with ((a + 2147483648) mod UINT_MOD + b) by lia.
  rewrite Z.add_mod_idemp_l by done. f_equal. lia.
Qed.

Lemma s32_u32 a : s32 (u32 a) = s32 a.
Proof. unfold s32, u32. by rewrite Z.add_mod_idemp_l. Qed.

Lemma hex2int_loop_hv l : forall len i val,
  0 <= i -> len - i = alen l -> hex2int_loop l len i (s32 val) = s32 (val + hv l 0).
Proof.
  induction l as [|c l IH]; intros len i val Hi Hl; cbn [hex2int_loop hv].
  { f_equal. lia. }
  fold (hexval c). assert (Hl' : len - (i + 1) = alen l) by (unfold alen in *; cbn in *; lia).
  rewrite s32_add_l, IH by lia.
  rewrite (hv_acc l (0 * 16 + hexval c)), Z.shiftl_mul_pow2 by (unfold alen in *; lia).
  replace (len - 1 - i) with (alen l) by lia. rewrite Z.pow_mul_r by (unfold alen; lia).
  change (2 ^ 4) with 16. f_equal. lia.
Qed.

Lemma hex2int_hv l : hex2int l = s32 (hv l 0).
Proof. unfold hex2int. change 0 with (s32 0) at 2. rewrite hex2int_loop_hv by lia. done. Qed.

(** ** Properties *)

(** [kputd_buf] and [atoi] are inverse on the non-negative [int]s: the text
    of [n] has at most ten digits and reads back as [n]; the text of [-n] is the
    same text after a minus sign.  Twelve loop iterations are enough. *)
Theorem kputd_atoi_roundtrip fuel n :
  (12 <= fuel)%nat -> 0 <= n < 2147483648 ->
  exists l, kputd_buf fuel n = Some l /\ atoi l = n /\ alen l <= 10 /\
    kputd_buf fuel (- n) = Some (if n =? 0 then l else ch_minus :: l).
Proof.
  intros Hf Hn. destruct (Z.eqb_spec n 0) as [->|].
  { exists [ch_0]. done. }
  destruct (kputd_pos fuel n) as (k & Hk & Hr & H1 & H2); [done|lia|].
  exists (dec k n). split; [done|]. split; [apply atoi_dec_small; lia|].
  rewrite alen_dec. split; [lia|done].
Qed.

Lemma kputd_atoi_roundtrip_witness :
  exists l, kputd_buf 12 90210 = Some l /\ atoi l = 90210 /\ alen l <= 10 /\
    kputd_buf 12 (-90210) = Some (if 90210 =? 0 then l else ch_minus :: l).
Proof. apply (kputd_atoi_roundtrip 12 90210); lia. Defined.

(** C40: on [INT_MIN] [kputd_buf] does not terminate: negation leaves the number
    negative, [place] falls to 0 and stays above it, whatever the fuel. *)
Theorem kputd_int_min_diverges fuel : kputd_buf fuel (-2147483648) = None.
Proof.
  unfold kputd_buf. cbn [Z.eqb Z.ltb Z.compare]. change (s32 (-2147483648 * -1)) with (-2147483648).
  assert (H : forall f place, 0 <= place -> find_place f place (-2147483648) = None).
  { induction f as [|f IH]; intros place Hp; cbn [find_place]; [done|].
    destruct (Z.gtb_spec place (-2147483648)); [|lia]. apply IH. apply Z.quot_pos; lia. }
  by rewrite H by lia.
Qed.

(** Every number from -1000000000 down overflows the 11 words of
    [format_buffer] with its minus sign, ten digits and terminator; all other
    numbers but [INT_MIN] fit. *)
Theorem format_buffer_fits n :
  -2147483648 < n < 2147483648 ->
  exists l, kputd_buf 12 n = Some l /\
    in_format_buffer l = (if n <=? -1000000000 then None else Some l).
Proof.
  intros Hn. unfold in_format_buffer, FORMAT_BUF_SIZ.
  destruct (Z_lt_le_dec 0 n).
  - destruct (kputd_pos 12 n) as (k & Hk & Hr & H1 & _); [lia|lia|].
    exists (dec k n). split; [done|]. rewrite alen_dec.
    destruct (Z.leb_spec (Z.of_nat k + 1) 11); [|lia]. by destruct (Z.leb_spec n (-1000000000)); [lia|].
  - destruct (decide (n = 0)) as [->|]; [by exists [ch_0]|].
    destruct (kputd_pos 12 (- n)) as (k & Hk & Hr & _ & H2); [lia|lia|].
    rewrite Z.opp_involutive in H2.
    exists (ch_minus :: dec k (- n)). split; [done|].
    assert (alen (ch_minus :: dec k (- n)) = Z.of_nat k + 1) as ->.
    { pose proof (alen_dec k (- n)). unfold alen in *. cbn [length]. lia. }
    destruct (decide (k = 10%nat)) as [->|].
    + change (10 ^ Z.of_nat (Nat.pred 10)) with 1000000000 in Hr.
      by destruct (Z.leb_spec n (-1000000000)); [|lia].
    + assert (10 ^ Z.of_nat k <= 10 ^ 9) by (apply Z.pow_le_mono_r; lia).
      change (10 ^ 9) with 1000000000 in *.
      destruct (Z.leb_spec (Z.of_nat k + 1 + 1) 11); [|lia].
      by destruct (Z.leb_spec n (-1000000000)); [lia|].
Qed.

Lemma format_buffer_fits_witness :
  exists l, kputd_buf 12 (-1500000000) = Some l /\
    in_format_buffer l = (if -1500000000 <=? -1000000000 then None else Some l).
Proof. apply (format_buffer_fits (-1500000000)). lia. Defined.

(** [kputx_buf] prints the 32 bits of an [int]: [hex2int] reads the text
    back as the same number, for negative numbers too, and the text has one to
    eight digits, so it always fits [format_buffer]. *)
Theorem kputx_hex2int_roundtrip n :
  is_s32 n ->
  hex2int (kputx_buf n) = n /\ 1 <= alen (kputx_buf n) <= 8 /\
  in_format_buffer (kputx_buf n) = Some (kputx_buf n).
Proof.
  intros Hn.
  assert (Hlen : 1 <= alen (kputx_buf n) <= 8).
  { unfold kputx_buf. destruct (Z.eqb_spec n 0) as [->|Hne]; [unfold alen; cbn [length]; lia|].
    destruct (kputx_loop_alen 8 n false []) as [Hle Hge].
    change (alen (@nil Z)) with 0 in *. split; [|lia].
    apply Znot_gt_le. intros Hlt.
    assert (hv (kputx_loop 8 n false []) 0 = 0) as H0.
    { destruct (kputx_loop 8 n false []); [done|]. unfold alen in Hlt. cbn in Hlt. lia. }
    rewrite kputx_loop_hv in H0 by done. cbn [hv] in H0.
    change (16 ^ Z.of_nat 8) with UINT_MOD in H0. unfold is_s32, UINT_MOD in *. zlia. }
  split; [|split; [done|]].
  - rewrite hex2int_hv. unfold kputx_buf. destruct (Z.eqb_spec n 0) as [->|Hne]; [done|].
    rewrite kputx_loop_hv by done. cbn [hv]. rewrite Z.mul_0_l, Z.add_0_l.
    change (n mod 16 ^ Z.of_nat 8) with (u32 n). rewrite s32_u32. by apply s32_id.
  - unfold in_format_buffer, FORMAT_BUF_SIZ. by destruct (Z.leb_spec (alen (kputx_buf n) + 1) 11); [|lia].
Qed.

Lemma kputx_hex2int_roundtrip_witness :
  hex2int (kputx_buf (-559038737)) = -559038737 /\ 1 <= alen (kputx_buf (-559038737)) <= 8 /\
  in_format_buffer (kputx_buf (-559038737)) = Some (kputx_buf (-559038737)).
Proof. apply (kputx_hex2int_roundtrip (-559038737)). unfold is_s32. lia. Defined.

(** ** The buffer of kprintf *)
Section buffer.
Context (filp_write : list Z -> Z) (str_at : Z -> list Z).
Context (Hwrite : forall l, filp_write l = alen l).

(** What has been output so far, flushed or not. *)
Definition view (t : printf_buffer) : list Z := written t ++ take (Z.to_nat (pos t)) (buffer t).

Definition pb_ok (t : printf_buffer) : Prop :=
  alen (buffer t) = BUFFER_SIZ /\ limit t = BUFFER_SIZ /\ 0 <= pos t <= BUFFER_SIZ /\
  total_count t = alen (written t).

(** The operation terminates without a store outside of the buffer and
    appends [out] to the output. *)
Definition emits (c : ST printf_buffer unit) (out : list Z) (P : printf_buffer -> Prop) : Prop :=
  forall t, pb_ok t -> P t ->
  exists t', c t = Some (tt, t') /\ pb_ok t' /\ view t' = view t ++ out.

Lemma emits_seq c1 c2 o1 o2 P :
  emits c1 o1 P -> emits c2 o2 (fun _ => True) -> emits (_ ← c1; c2) (o1 ++ o2) P.
Proof.
  intros H1 H2 t Ht HP. destruct (H1 t Ht HP) as (t1 & E1 & Ht1 & V1).
  destruct (H2 t1 Ht1 I) as (t2 & E2 & Ht2 & V2). exists t2.
  rewrite (bind_run _ _ _ _ _ E1). split; [done|]. split; [done|]. by rewrite V2, V1, app_assoc.
Qed.

Lemma emits_ret {A} (a : A) f out P : emits (f a) out P -> emits (x ← liftO (Some a); f x) out P.
Proof. done. Qed.

Lemma flush_buffer_data_emits data : emits (flush_buffer_data filp_write data) data (fun t => pos t = 0).
Proof.
  intros t (Hb & Hl & Hp & Hc) H0. eexists. split; [done|]. rsimpl. unfold pb_ok, view in *. cbn.
  rewrite H0. rewrite Hwrite, Hc. unfold alen. rewrite length_app. rewrite !take_0, !app_nil_r.
  split; [|done]. repeat split; try done; lia.
Qed.

Lemma flush_buffer_spec t : pb_ok t ->
  exists t', flush_buffer filp_write t = Some (tt, t') /\ pb_ok t' /\ view t' = view t /\ pos t' = 0.
Proof.
  intros (Hb & Hl & Hp & Hc). unfold flush_buffer, mbind, st_bind, getS. cbn.
  destruct (Z.gtb_spec (pos t) 0).
  - eexists. split; [done|]. rsimpl. unfold pb_ok, view. cbn. rewrite Hwrite.
    rewrite take_0, app_nil_r, Hc. unfold alen. rewrite length_app. repeat split; try done; lia.
  - exists t. repeat split; try done; lia.
Qed.

Lemma store_char_emits c : emits (store_char c) [c] (fun t => pos t < BUFFER_SIZ).
Proof.
  intros t (Hb & Hl & Hp & Hc) H0. unfold store_char, mbind, st_bind, getS. cbn.
  rewrite aset_in by lia. cbn. eexists. split; [done|]. rsimpl. unfold pb_ok, view. cbn.
  rewrite alen_insert, <- app_assoc. repeat split; try done; try lia.
  f_equal. replace (Z.to_nat (Z.succ (pos t))) with (S (Z.to_nat (pos t))) by lia.
  rewrite (take_S_r _ _ c).
  - f_equal. by rewrite take_insert_ge by lia.
  - apply list_lookup_insert_eq. unfold alen in Hb. lia.
Qed.

Lemma store_char_pos c t t' : store_char c t = Some (tt, t') -> pos t' = pos t + 1.
Proof.
  unfold store_char, mbind, st_bind, getS. cbn. destruct (aset _ _ _); [|done].
  cbn. intros [= <-]. rsimpl. lia.
Qed.

Lemma store_chars_emits l : emits (store_chars l) l (fun t => pos t + alen l <= BUFFER_SIZ).
Proof.
  induction l as [|c l IH]; intros t Ht H0; cbn [store_chars].
  - exists t. by rewrite app_nil_r.
  - unfold alen in H0. cbn [length] in H0.
    destruct (store_char_emits c t Ht) as (t1 & E1 & Ht1 & V1); [lia|].
    pose proof (store_char_pos _ _ _ E1).
    destruct (IH t1 Ht1) as (t2 & E2 & Ht2 & V2); [unfold alen; lia|].
    exists t2. rewrite (bind_run _ _ _ _ _ E1). split; [done|]. split; [done|].
    by rewrite V2, V1, <- app_assoc.
Qed.

Lemma add_char_emits c : emits (add_char_to_buffer filp_write c) [c] (fun _ => True).
Proof.
  intros t Ht _. pose proof Ht as (_ & Hl & _). unfold add_char_to_buffer.
  rewrite (bind_run _ _ t t t eq_refl). destruct (Z.geb_spec (pos t) (limit t)).
  - destruct (flush_buffer_spec t Ht) as (t1 & E1 & Ht1 & V1 & P1).
    rewrite (bind_run _ _ _ _ _ E1), <- V1. apply (store_char_emits c t1 Ht1).
    rewrite P1. done.
  - apply (store_char_emits c t Ht). lia.
Qed.

(** Make room, then go on. *)
Lemma flush_if_emits (b : bool) c out (P : printf_buffer -> Prop) t :
  emits c out P -> pb_ok t -> (b = false -> P t) ->
  (forall t', pb_ok t' -> pos t' = 0 -> P t') ->
  exists t', (_ ← (if b then flush_buffer filp_write else mret tt); c) t = Some (tt, t') /\
    pb_ok t' /\ view t' = view t ++ out.
Proof.
  intros Hc Ht Hf Hz. destruct b; [|apply (Hc t Ht); auto].
  destruct (flush_buffer_spec t Ht) as (t1 & E1 & Ht1 & V1 & P1).
  rewrite (bind_run _ _ _ _ _ E1), <- V1. apply (Hc t1 Ht1). auto.
Qed.

Lemma append_buffer_emits l : emits (append_buffer filp_write l) l (fun _ => True).
Proof.
  intros t Ht _. pose proof Ht as (_ & Hl & Hp & _). unfold append_buffer.
  rewrite (bind_run _ _ t t t eq_refl), Hl.
  destruct (Z.gtb_spec (alen l) BUFFER_SIZ).
  - apply (flush_if_emits true _ _ _ _ (flush_buffer_data_emits l)); auto. done.
  - apply (flush_if_emits (alen l + pos t >=? BUFFER_SIZ) _ _ _ _ (store_chars_emits l)); [done|..].
    + intros Hge. destruct (Z.geb_spec (alen l + pos t) BUFFER_SIZ); [done|lia].
    + intros t' _ ->. lia.
Qed.

Lemma pad_loop_emits n token : emits (pad_loop filp_write n token) (replicate n token) (fun _ => True).
Proof.
  induction n as [|n IH]; cbn [pad_loop replicate].
  - intros t Ht _. exists t. by rewrite app_nil_r.
  - apply (emits_seq _ _ [token]); [apply add_char_emits|apply IH].
Qed.

Lemma fill_padding_emits token len :
  emits (fill_padding filp_write token len) (replicate (Z.to_nat len) token) (fun _ => True).
Proof.
  intros t Ht _. unfold fill_padding. rewrite (bind_run _ _ t t t eq_refl).
  apply (flush_if_emits _ _ _ _ _ (pad_loop_emits (Z.to_nat len) token)); auto.
Qed.

(** One conversion appends its padded text, whatever the direction. *)
Lemma conv_emits cv text :
  emits (if cv_len cv - alen text >? 0 then
           match cv_dir cv with
           | LEFT_PADDING =>
               _ ← fill_padding filp_write (cv_token cv) (cv_len cv - alen text);
               append_buffer filp_write text
           | RIGHT_PADDING =>
               _ ← append_buffer filp_write text;
               fill_padding filp_write (cv_token cv) (cv_len cv - alen text)
           end
         else append_buffer filp_write text) (pad_text cv text) (fun _ => True).
Proof.
  unfold pad_text. destruct (Z.gtb_spec (cv_len cv - alen text) 0).
  - destruct (cv_dir cv); apply emits_seq; auto using fill_padding_emits, append_buffer_emits.
  - rewrite Z2Nat.nonpos by lia. cbn [replicate]. rewrite app_nil_r.
    destruct (cv_dir cv); apply append_buffer_emits.
Qed.

Lemma kprintf_loop_emits fuel : forall format args who_rbase out,
  format_text str_at fuel format args who_rbase = Some out ->
  emits (kprintf_loop filp_write str_at fuel format args who_rbase) out (fun _ => True).
Proof.
  induction fuel as [|fuel IH]; intros format args wrb out; destruct format as [|c format];
    cbn [format_text kprintf_loop]; try done.
  1,2: intros [= <-] t Ht _; exists t; by rewrite app_nil_r.
  destruct (c =? ch_percent).
  - destruct (cv_rest (decode format)) as [|letter rest]; [done|]. destruct args as [|arg args]; [done|].
    destruct (conv_text str_at letter arg wrb) as [text|]; [|done]. rewrite obind_Some.
    destruct (format_text str_at fuel rest args wrb) as [o|] eqn:E; [|done]. rewrite obind_Some.
    intros [= <-]. apply emits_ret.
    apply (emits_seq _ _ (pad_text (decode format) text) o); [apply conv_emits|by apply IH].
  - destruct (format_text str_at fuel format args wrb) as [o|] eqn:E; [|done]. rewrite obind_Some.
    intros [= <-]. apply (emits_seq _ _ [c]); [apply add_char_emits|by apply IH].
Qed.
End buffer.

(** C37: [kprintf_vm] refines the reference formatter: through any sequence of
    flushes of its 64-character buffer it writes exactly the formatted text and
    returns its length, for every format whose conversions are defined.  The
    device is assumed to accept every write in full. *)
Theorem kprintf_refines_format filp_write str_at format args who_rbase out :
  (forall l, filp_write l = alen l) ->
  format_text str_at (length format) format args who_rbase = Some out ->
  kprintf_vm filp_write str_at format args who_rbase = Some (alen out, out).
Proof.
  intros Hw Hf. unfold kprintf_vm.
  destruct (kprintf_loop_emits _ str_at Hw _ _ _ _ _ Hf
              (mkPb (replicate (Z.to_nat BUFFER_SIZ) 0) BUFFER_SIZ 0 0 [])) as (t & E & Ht & V); [done|done|].
  rewrite (bind_run _ _ _ _ _ E).
  destruct (flush_buffer_spec _ Hw t Ht) as (t' & -> & (_ & _ & _ & Hc) & V' & P').
  rewrite V in V'. unfold view in V'. rewrite P', Hc in *. cbn in V'.
  rewrite take_0, app_nil_r in V'. by rewrite V'.
Qed.

(** "pid %-4d|%05x|%s" *)
Definition sample_format : list Z :=
  [112; 105; 100; 32; 37; 45; 52; 100; 124; 37; 48; 53; 120; 124; 37; 115].
Definition sample_str (_ : Z) : list Z := [119; 105; 110].

Lemma kprintf_refines_format_witness :
  kprintf_vm alen sample_str sample_format [-7; 48879; 16] 1024 =
    Some (18, [112; 105; 100; 32; 45; 55; 32; 32; 124; 48; 66; 69; 69; 70; 124; 119; 105; 110]).
Proof.
  apply (kprintf_refines_format alen sample_str sample_format [-7; 48879; 16] 1024
    [112; 105; 100; 32; 45; 55; 32; 32; 124; 48; 66; 69; 69; 70; 124; 119; 105; 110]);
    [done|vm_compute; reflexivity].
Defined.
