(* ===== verification/Linked.v ===== *)
(** * Linked structures

    Intrusive lists of the kernel: a pointer is [option Z] ([None] is NULL) and
    the link field of a structure is a function from keys to pointers.
    [seg next h l e]: following [next] from [h] visits [l] and arrives at [e]. *)
From S2P Require Import Prelude.

Section seg.
Context (next : Z -> option Z).

Fixpoint seg (h : option Z) (l : list Z) (e : option Z) : Prop :=
  match l with
  | [] => h = e
  | x :: l' => h = Some x /\ seg (next x) l' e
  end.

(** A NULL-terminated list. *)
Definition chain (h : option Z) (l : list Z) : Prop := seg h l None.

Lemma seg_app h l1 l2 e :
  seg h (l1 ++ l2) e <-> exists m, seg h l1 m /\ seg m l2 e.
Proof.
  revert h. induction l1 as [|x l1 IH]; intros h; cbn.
  - split; [eauto|]. by intros (? & -> & ?).
  - rewrite IH. split; [intros (? & ? & ? & ?)|intros (? & [? ?] & ?)]; eauto.
Qed.

Lemma chain_head h l : chain h l -> h = head l.
Proof. destruct l; [done|]. by intros [-> _]. Qed.

Lemma chain_nil h : chain h [] -> h = None.
Proof. done. Qed.

Lemma chain_det h l1 l2 : chain h l1 -> chain h l2 -> l1 = l2.
Proof.
  revert h l2. induction l1 as [|x l1 IH]; intros h [|y l2]; cbn.
  - done.
  - by intros -> [? _].
  - by intros [-> _] ?.
  - intros [-> H1] [[= ->] H2]. f_equal. eauto.
Qed.

(** A NULL-terminated list visits no node twice. *)
Lemma chain_NoDup h l : chain h l -> NoDup l.
Proof.
  revert h. induction l as [|x l IH]; intros h; [constructor|].
  intros [_ Hc]. constructor; [|eauto].
  intros (l1 & l2 & ->)%list_elem_of_split.
  pose proof Hc as (m & _ & Hm)%seg_app. destruct Hm as [-> Hx].
  pose proof (chain_det _ _ _ Hx Hc) as E. apply (f_equal length) in E.
  rewrite length_app in E. cbn in E. lia.
Qed.

Lemma chain_split_next h l1 x l2 : chain h (l1 ++ x :: l2) -> next x = head l2.
Proof. intros (m & _ & [_ Hx])%seg_app. by apply chain_head. Qed.
End seg.
#[global] Arguments chain : simpl never.

(** Only the links of the visited nodes matter. *)
Lemma seg_frame next next' h l e :
  (forall x, x ∈ l -> next' x = next x) -> seg next h l e -> seg next' h l e.
Proof.
  revert h. induction l as [|x l IH]; intros h Hn; cbn; [done|].
  intros [-> Hs]. split; [done|]. rewrite Hn by set_solver. apply IH; set_solver.
Qed.

(** [upd_link next x p] is [next] after the assignment x->next = p. *)
Definition upd_link (next : Z -> option Z) (x : Z) (p : option Z) : Z -> option Z :=
  fun y => if decide (y = x) then p else next y.

Lemma upd_link_eq next x p : upd_link next x p x = p.
Proof. unfold upd_link. by rewrite decide_True. Qed.

Lemma upd_link_ne next x y p : y <> x -> upd_link next x p y = next y.
Proof. unfold upd_link. intros. by rewrite decide_False. Qed.

Lemma seg_upd_notin next h l e x p :
  x ∉ l -> seg next h l e -> seg (upd_link next x p) h l e.
Proof. intros Hx. apply seg_frame. intros y Hy. apply upd_link_ne. by intros ->. Qed.

(** The assignment that inserts [y] after [x], or removes what follows [x]. *)
Lemma chain_relink next h l1 x l2 l3 p :
  NoDup (l1 ++ [x]) -> x ∉ l3 ->
  chain next h (l1 ++ x :: l2) -> chain next p l3 ->
  chain (upd_link next x p) h (l1 ++ x :: l3).
Proof.
  intros Hnd Hx3 (m & Hs & [-> _])%seg_app Hp. apply seg_app. exists (Some x).
  apply NoDup_app in Hnd as (_ & Hnd & _).
  split; [apply seg_upd_notin; [|done]; intros Hin; by apply (Hnd x); [|set_solver]|].
  split; [done|]. rewrite upd_link_eq. by apply seg_upd_notin.
Qed.

(** Distinct keys of a map are at most its size: the fuel of list walks. *)
Lemma NoDup_length_size {A} (m : gmap Z A) (l : list Z) :
  NoDup l -> (forall x, x ∈ l -> is_Some (m !! x)) -> (length l <= size m)%nat.
Proof.
  intros Hnd Hd. rewrite <- size_dom, <- (size_list_to_set (C := gset Z)) by done.
  apply subseteq_size. intros x Hx%elem_of_list_to_set. by apply elem_of_dom, Hd.
Qed.

(** The pointer before [l]: the last node of [l1], or [prev]. *)
Definition last_or (l1 : list Z) (prev : option Z) : option Z :=
  match last l1 with Some x => Some x | None => prev end.

Lemma last_or_cons x l1 prev : last_or (x :: l1) prev = last_or l1 (Some x).
Proof. unfold last_or. destruct l1; [done|]. rewrite last_cons_cons. destruct (last (z :: l1)) eqn:E; [done|]. by apply last_None in E. Qed.

Lemma last_or_snoc l1 x prev : last_or (l1 ++ [x]) prev = Some x.
Proof. unfold last_or. by rewrite last_snoc. Qed.

Lemma seg_ext next next' h l e :
  (forall x, next' x = next x) -> seg next h l e -> seg next' h l e.
Proof. intros Hn. apply seg_frame. auto. Qed.

(** Insert [id] between [l1] and [l2], in an order that suits the kernel: first
    the new node's link, then the link to it. *)
Lemma chain_insert next h l1 l2 id :
  chain next h (l1 ++ l2) -> id ∉ l1 ++ l2 ->
  match last l1 with
  | Some p => chain (upd_link (upd_link next id (head l2)) p (Some id)) h (l1 ++ id :: l2)
  | None => chain (upd_link next id (head l2)) (Some id) (l1 ++ id :: l2)
  end.
Proof.
  intros Hc Hid. pose proof (chain_NoDup _ _ _ Hc) as Hnd.
  apply (seg_upd_notin _ _ _ _ id (head l2)) in Hc as Hc1; [|done].
  assert (Hn : chain (upd_link next id (head l2)) (Some id) (id :: l2)).
  { split; [done|]. rewrite upd_link_eq. apply seg_app in Hc1 as (m & _ & Hm).
    by rewrite (chain_head _ _ _ Hm) in Hm. }
  destruct l1 as [|p l1 _] using rev_ind; [done|]. rewrite last_snoc, <- app_assoc. cbn [app].
  rewrite <- app_assoc in *. cbn [app] in *. apply NoDup_app in Hnd as (Hnd1 & Hnd2 & Hnd3).
  apply NoDup_cons in Hnd3 as [Hp Hnd3].
  apply (chain_relink _ _ _ _ l2); [|set_solver|done|done].
  apply NoDup_app. split; [done|]. split; [|apply NoDup_singleton].
  intros x Hx Hxp%list_elem_of_singleton. subst. apply (Hnd2 p Hx). set_solver.
Qed.

Lemma chain_remove next h l1 x l2 :
  chain next h (l1 ++ x :: l2) ->
  match last l1 with
  | Some p => chain (upd_link next p (next x)) h (l1 ++ l2)
  | None => chain next (next x) l2
  end.
Proof.
  intros Hc. pose proof (chain_NoDup _ _ _ Hc) as Hnd.
  destruct l1 as [|p l1 _] using rev_ind; [by destruct Hc|]. rewrite last_snoc.
  rewrite <- app_assoc in *. cbn [app] in *.
  assert (Hx : chain next (next x) l2).
  { apply seg_app in Hc as (m & _ & [_ [_ Hx]]). done. }
  apply NoDup_app in Hnd as (Hnd1 & Hnd2 & Hnd3). apply NoDup_cons in Hnd3 as [Hp Hnd3].
  apply (chain_relink _ _ _ _ (x :: l2)); [|set_solver|done|done].
  apply NoDup_app. split; [done|]. split; [|apply NoDup_singleton].
  intros y Hy Hyp%list_elem_of_singleton. subst. apply (Hnd2 p Hy). set_solver.
Qed.
