(* ===== verification/CString.v ===== *)
(** * lib/ansi/string.c: memory and strings

    Memory is a function from word addresses to words; a [char] is a word.
    Loops that stop at a terminator run on fuel, and [None] is a loop that the
    fuel did not finish.  Addresses do not wrap around. *)
From S2P Require Import Prelude.

Notation memory := (Z -> Z).

Definition mset (m : memory) (a v : Z) : memory := fun x => if x =? a then v else m x.

(** ** Copying and filling *)

(** [n] words upwards: the loop of [memcpy] and the forward loop of [memmove]. *)
Fixpoint memcpy_loop (n : nat) (m : memory) (p1 p2 : Z) : memory :=
  match n with
  | O => m
  | S n' => memcpy_loop n' (mset m p1 (m p2)) (p1 + 1) (p2 + 1)
  end.

Definition memcpy (m : memory) (s1 s2 n : Z) : memory := memcpy_loop (Z.to_nat n) m s1 s2.

Fixpoint memset_loop (n : nat) (m : memory) (d c : Z) : memory :=
  match n with
  | O => m
  | S n' => memset_loop n' (mset m d c) (d + 1) c
  end.

Definition memset (m : memory) (dst c n : Z) : memory :=
  if negb (n =? 0) then memset_loop (Z.to_nat n) m dst c else m.

(** for(i=n-1; i>=0; i--), with [n] the number of words still to copy *)
Fixpoint memmove_down (n : nat) (m : memory) (to from : Z) : memory :=
  match n with
  | O => m
  | S n' => memmove_down n' (mset m (to + Z.of_nat n') (m (from + Z.of_nat n'))) to from
  end.

Definition memmove (m : memory) (dest src n : Z) : memory :=
  if (src =? dest) || (n =? 0) then m
  else if (dest >? src) && (dest - src <? n) then memmove_down (Z.to_nat n) m dest src
  else if (src >? dest) && (src - dest <? n) then memcpy_loop (Z.to_nat n) m dest src
  else memcpy m dest src n.

(** ** Strings *)
Fixpoint strlen (fuel : nat) (m : memory) (s : Z) : option Z :=
  match fuel with
  | O => None
  | S f => if m s =? 0 then Some 0 else n ← strlen f m (s + 1); Some (n + 1)
  end.

Fixpoint strcmp (fuel : nat) (m : memory) (s1 s2 : Z) : option Z :=
  match fuel with
  | O => None
  | S f =>
      if negb (m s1 =? 0) && negb (m s2 =? 0) && (m s1 =? m s2)
      then strcmp f m (s1 + 1) (s2 + 1)
      else Some (s32 (m s1 - m s2))
  end.

(** [size--] is evaluated only after both characters are found non-zero. *)
Fixpoint strncmp (fuel : nat) (m : memory) (s1 s2 size : Z) : option Z :=
  match fuel with
  | O => None
  | S f =>
      if negb (m s1 =? 0) && negb (m s2 =? 0) && negb (size =? 0) && (m s1 =? m s2)
      then strncmp f m (s1 + 1) (s2 + 1) (u32 (size - 1))
      else Some (s32 (m s1 - m s2))
  end.

(** while (STAR dest++ = STAR src++); STAR dest = 0 *)
Fixpoint strcpy (fuel : nat) (m : memory) (dest src : Z) : option memory :=
  match fuel with
  | O => None
  | S f =>
      let c := m src in
      let m := mset m dest c in
      if c =? 0 then Some (mset m (dest + 1) 0) else strcpy f m (dest + 1) (src + 1)
  end.

Fixpoint strncpy (fuel : nat) (m : memory) (dest src n : Z) : option memory :=
  match fuel with
  | O => None
  | S f =>
      if negb (m src =? 0) && negb (n =? 0)
      then strncpy f (mset m dest (m src)) (dest + 1) (src + 1) (u32 (n - 1))
      else Some (mset m dest 0)
  end.

Definition strcat (fuel : nat) (m : memory) (dest src : Z) : option memory :=
  n ← strlen fuel m dest; strcpy fuel m (dest + n) src.

(** [n] is unsigned, so [n <= 0] only catches the exact length. *)
Definition strncat (fuel : nat) (m : memory) (dest src n : Z) : option memory :=
  dst_len ← strlen fuel m dest;
  let n := u32 (n - dst_len) in
  if n <=? 0 then Some m else strncpy fuel m (dest + dst_len) src n.

Fixpoint index (fuel : nat) (m : memory) (s c : Z) : option Z :=
  match fuel with
  | O => None
  | S f =>
      if negb (m s =? 0) && negb (m s =? c) then index f m (s + 1) c
      else Some (if negb (m s =? 0) then s else 0)
  end.

Fixpoint compare (fuel : nat) (m : memory) (X Y : Z) : option bool :=
  match fuel with
  | O => None
  | S f =>
      if negb (m X =? 0) && negb (m Y =? 0)
      then if m X =? m Y then compare f m (X + 1) (Y + 1) else Some false
      else Some (m Y =? 0)
  end.

Fixpoint strstr (fuel : nat) (m : memory) (X needle : Z) : option Z :=
  match fuel with
  | O => None
  | S f =>
      if m X =? 0 then Some 0
      else
        c ← (if m X =? m needle then compare f m X needle else Some false);
        if (c : bool) then Some X else strstr f m (X + 1) needle
  end.

Fixpoint substring_loop (n : nat) (m : memory) (buffer original i count : Z) : memory * Z :=
  match n with
  | O => (m, count)
  | S n' => substring_loop n' (mset m (buffer + count) (m (original + i))) buffer original (i + 1) (count + 1)
  end.

Definition substring (m : memory) (buffer original start_index length : Z) : memory * Z :=
  let '(m, count) := substring_loop (Z.to_nat length) m buffer original start_index 0 in
  (mset m (buffer + count) 0, count).

(** ** Lemmas *)
Lemma mset_eq m a v : mset m a v a = v.
Proof. unfold mset. by rewrite Z.eqb_refl. Qed.

Lemma mset_ne m a v x : x <> a -> mset m a v x = m x.
Proof. unfold mset. intros. by destruct (Z.eqb_spec x a). Qed.

(** Copying upwards is right unless the source is read after it was overwritten. *)
Lemma memcpy_loop_spec n : forall m p1 p2,
  (p1 <= p2 \/ p2 + Z.of_nat n <= p1) ->
  forall x, memcpy_loop n m p1 p2 x = if (p1 <=? x) && (x <? p1 + Z.of_nat n) then m (p2 + (x - p1)) else m x.
Proof.
  induction n as [|n IH]; intros m p1 p2 Hov x; cbn [memcpy_loop].
  { destruct (Z.leb_spec p1 x), (Z.ltb_spec x (p1 + Z.of_nat 0)); cbn; try lia; done. }
  rewrite IH by lia.
  destruct (Z.leb_spec (p1 + 1) x), (Z.ltb_spec x (p1 + 1 + Z.of_nat n)), (Z.leb_spec p1 x),
    (Z.ltb_spec x (p1 + Z.of_nat (S n))); cbn; try lia.
  - rewrite mset_ne by lia. f_equal. lia.
  - by rewrite mset_ne by lia.
  - assert (x = p1) as -> by lia. rewrite mset_eq. f_equal. lia.
  - by rewrite mset_ne by lia.
Qed.

Lemma memmove_down_spec n : forall m to from,
  from <= to ->
  forall x, memmove_down n m to from x = if (to <=? x) && (x <? to + Z.of_nat n) then m (from + (x - to)) else m x.
Proof.
  induction n as [|n IH]; intros m to from Hov x; cbn [memmove_down].
  { destruct (Z.leb_spec to x), (Z.ltb_spec x (to + Z.of_nat 0)); cbn; try lia; done. }
  rewrite IH by lia.
  destruct (Z.leb_spec to x), (Z.ltb_spec x (to + Z.of_nat n)), (Z.ltb_spec x (to + Z.of_nat (S n))); cbn; try lia.
  - by rewrite mset_ne by lia.
  - assert (x = to + Z.of_nat n) as -> by lia. rewrite mset_eq. f_equal. lia.
  - by rewrite mset_ne by lia.
  - by rewrite mset_ne by lia.
Qed.

(** The string [l] lies at [a]. *)
Definition cstr (m : memory) (a : Z) (l : list Z) : Prop :=
  (forall i c, l !! i = Some c -> m (a + Z.of_nat i) = c /\ c <> 0) /\ m (a + alen l) = 0.

Lemma cstr_nil m a : cstr m a [] -> m a = 0.
Proof. intros [_ H]. change (alen []) with 0 in H. by rewrite Z.add_0_r in H. Qed.

Lemma cstr_cons m a c l : cstr m a (c :: l) -> m a = c /\ c <> 0 /\ cstr m (a + 1) l.
Proof.
  intros [H1 H2]. destruct (H1 0%nat c eq_refl) as [E1 E2]. replace (a + Z.of_nat 0) with a in E1 by lia.
  split; [done|]. split; [done|]. split.
  - intros i d Hd. specialize (H1 (S i) d Hd). by replace (a + 1 + Z.of_nat i) with (a + Z.of_nat (S i)) by lia.
  - unfold alen in *. cbn [length] in H2. by replace (a + 1 + Z.of_nat (length l)) with (a + Z.of_nat (S (length l))) by lia.
Qed.

Lemma cstr_ext m m' a l : (forall x, a <= x <= a + alen l -> m' x = m x) -> cstr m a l -> cstr m' a l.
Proof.
  intros He [H1 H2]. split.
  - intros i c Hc. pose proof (lookup_lt_Some _ _ _ Hc). rewrite He by (unfold alen; lia). by apply H1.
  - rewrite He by (unfold alen; lia). done.
Qed.

(** What [strncpy] writes: at most [n] characters, then a 0 in any case. *)
Lemma strncpy_spec l : forall fuel m dest src n,
  cstr m src l -> 0 <= n < UINT_MOD -> (length l < fuel)%nat ->
  (dest + alen l < src \/ src + alen l < dest) ->
  let k := Z.min n (alen l) in
  exists m', strncpy fuel m dest src n = Some m' /\
    (forall x, dest <= x < dest + k -> m' x = m (src + (x - dest))) /\
    m' (dest + k) = 0 /\
    (forall x, ~ (dest <= x <= dest + k) -> m' x = m x).
Proof.
  induction l as [|c l IH]; intros fuel m dest src n Hc Hn Hf Hsep k; (destruct fuel as [|fuel]; [lia|]);
    cbn [strncpy].
  - pose proof (cstr_nil _ _ Hc) as H0. rewrite H0. cbn [Z.eqb negb andb].
    assert (k = 0) as -> by (unfold k, alen; cbn; lia). exists (mset m dest 0). split; [done|].
    split; [lia|]. split; [by rewrite Z.add_0_r, mset_eq|]. intros x Hx. apply mset_ne. lia.
  - pose proof (cstr_cons _ _ _ _ Hc) as (H0 & Hne & Hc').
    assert (Hal : alen (c :: l) = alen l + 1) by (unfold alen; cbn; lia).
    assert (0 <= alen l) by (unfold alen; lia). rewrite Hal in Hsep.
    rewrite H0. destruct (Z.eqb_spec c 0); [done|]. cbn [negb andb].
    destruct (Z.eqb_spec n 0) as [->|Hn0]; cbn [negb].
    + assert (k = 0) as -> by lia. exists (mset m dest 0). split; [done|].
      split; [lia|]. split; [by rewrite Z.add_0_r, mset_eq|]. intros x Hx. apply mset_ne. lia.
    + rewrite u32_id by (unfold is_u32; lia).
      destruct (IH fuel (mset m dest c) (dest + 1) (src + 1) (n - 1)) as (m' & Hr & H1 & H2 & H3);
        [|lia|cbn in Hf; lia|lia|].
      { eapply cstr_ext, Hc'. intros x Hx. apply mset_ne. lia. }
      exists m'. split; [done|]. replace (Z.min (n - 1) (alen l)) with (k - 1) in * by lia.
      split; [|split].
      * intros x Hx. destruct (decide (x = dest)) as [->|].
        -- rewrite H3, mset_eq by lia. by replace (src + (dest - dest)) with src by lia.
        -- rewrite H1 by lia. rewrite mset_ne by lia. f_equal. lia.
      * by replace (dest + k) with (dest + 1 + (k - 1)) by lia.
      * intros x Hx. rewrite H3 by lia. apply mset_ne. lia.
Qed.

(** ** Properties *)

(** [memmove] copies [n] words as they were before the call, for every
    overlap of source and destination, and changes nothing else. *)
Theorem memmove_correct m dest src n x :
  0 <= n ->
  memmove m dest src n x = if (dest <=? x) && (x <? dest + n) then m (src + (x - dest)) else m x.
Proof.
  intros Hn. unfold memmove, memcpy.
  destruct (Z.eqb_spec src dest) as [->|Hne]; cbn [orb].
  { destruct (_ && _); [|done]. f_equal. lia. }
  destruct (Z.eqb_spec n 0) as [->|Hn0]; cbn [orb].
  { destruct (Z.leb_spec dest x), (Z.ltb_spec x (dest + 0)); cbn; try lia; done. }
  destruct (Z.gtb_spec dest src), (Z.ltb_spec (dest - src) n), (Z.gtb_spec src dest), (Z.ltb_spec (src - dest) n);
    cbn [andb]; try lia;
    first [rewrite memmove_down_spec by lia|rewrite memcpy_loop_spec by lia]; by rewrite Z2Nat.id by lia.
Qed.

Lemma memmove_correct_witness :
  memmove (fun a => a * a) 101 100 4 103 = 10404 /\ (fun a => a * a) (100 + (103 - 101)) = 10404.
Proof. split; [|reflexivity]. rewrite (memmove_correct (fun a => a * a) 101 100 4 103); [reflexivity|lia]. Defined.

(** [strncpy(dest, src, n)] of a string of [n] characters or more writes
    [n + 1] words: the word behind the [n] of the destination becomes 0. *)
Theorem strncpy_writes_past_end m dest src n l :
  cstr m src l -> 0 <= n <= alen l -> n < UINT_MOD ->
  (dest + alen l < src \/ src + alen l < dest) ->
  exists m', strncpy (S (length l)) m dest src n = Some m' /\
    (forall x, dest <= x < dest + n -> m' x = m (src + (x - dest))) /\ m' (dest + n) = 0.
Proof.
  intros Hc Hn Hu Hsep.
  destruct (strncpy_spec l (S (length l)) m dest src n Hc) as (m' & H1 & H2 & H3 & _); [lia|lia|done|].
  rewrite Z.min_l in * by lia. by exists m'.
Qed.

(** "/bin/longer_name" at address 500, the word behind a 16 word buffer at 100 set. *)
Definition name_mem : memory := fun a =>
  if a =? 116 then 42 else
  match nth_error [47;98;105;110;47;108;111;110;103;101;114;95;110;97;109;101] (Z.to_nat (a - 500)) with
  | Some c => if a <? 500 then 0 else c
  | None => 0
  end.

Lemma strncpy_writes_past_end_witness :
  name_mem 116 = 42 /\
  exists m', strncpy 17 name_mem 100 500 16 = Some m' /\
    (forall x, 100 <= x < 100 + 16 -> m' x = name_mem (500 + (x - 100))) /\ m' (100 + 16) = 0.
Proof.
  split; [reflexivity|].
  apply (strncpy_writes_past_end name_mem 100 500 16 [47;98;105;110;47;108;111;110;103;101;114;95;110;97;109;101]).
  - split; [|reflexivity]. intros i c Hi.
    do 16 (destruct i as [|i]; [injection Hi as <-; split; [reflexivity|lia]|]). done.
  - unfold alen. cbn. lia.
  - unfold UINT_MOD. lia.
  - unfold alen. cbn. lia.
Defined.

(** [strncmp] looks at one character more than it was asked to. *)
Lemma strncmp_one_more m s1 s2 c d1 d2 :
  m s1 = c -> m s2 = c -> c <> 0 -> m (s1 + 1) = d1 -> m (s2 + 1) = d2 ->
  strncmp 3 m s1 s2 1 = Some (s32 (d1 - d2)).
Proof.
  intros H1 H2 Hc H3 H4. cbn [strncmp]. rewrite H1, H2, H3, H4, Z.eqb_refl.
  destruct (Z.eqb_spec c 0); [done|]. cbn [negb andb]. change (1 =? 0) with false. cbn [negb andb].
  change (u32 (1 - 1)) with 0. change (0 =? 0) with true. cbn [negb].
  by rewrite andb_false_r.
Qed.
