(* ===== verification/List.v ===== *)
(** * include/winix/list.h: circular doubly linked lists

    The list macros at the level of pointers.  A node is the address of its
    [list_head], the store maps it to its two pointers, and an access to something
    else is [None].  A macro pastes the text of its arguments, so that an argument is an
    expression ([lexp]) which is evaluated each time it occurs: what it yields can
    change while the macro runs. *)
From S2P Require Import Prelude.

Record list_head := mkLH { next : Z; prev : Z }.
Notation lstore := (gmap Z list_head).
Definition lexp := lstore -> option Z.
Notation LS := (ST lstore).

Definition LIST_POISON1 : Z := 0.
Definition LIST_POISON2 : Z := 2.

(** The expressions: a variable, [(e)->next] and [(e)->prev]. *)
Definition var (a : Z) : lexp := fun _ => Some a.
Definition e_next (e : lexp) : lexp := fun m => a ← e m; next <$> m !! a.
Definition e_prev (e : lexp) : lexp := fun m => a ← e m; prev <$> m !! a.

(** The assignments [(e)->next = v] and [(e)->prev = v]. *)
Definition set_next (e v : lexp) : LS unit := fun m =>
  a ← e m; x ← v m; n ← m !! a; Some (tt, <[a := mkLH x (prev n)]> m).
Definition set_prev (e v : lexp) : LS unit := fun m =>
  a ← e m; x ← v m; n ← m !! a; Some (tt, <[a := mkLH (next n) x]> m).
Definition eval (e : lexp) : LS Z := fun m => a ← e m; Some (a, m).

Definition INIT_LIST_HEAD (list : lexp) : LS unit := _ ← set_next list list; set_prev list list.

Definition __list_add (new prevl nextl : lexp) : LS unit :=
  _ ← set_prev nextl new;
  _ ← set_next new nextl;
  _ ← set_prev new prevl;
  set_next prevl new.

Definition list_add (new head : lexp) : LS unit := __list_add new head (e_next head).
Definition list_add_tail (new head : lexp) : LS unit := __list_add new (e_prev head) head.

Definition __list_del (prevl nextl : lexp) : LS unit := _ ← set_prev nextl prevl; set_next prevl nextl.
Definition __list_del_entry (entry : lexp) : LS unit := __list_del (e_prev entry) (e_next entry).
Definition list_del (entry : lexp) : LS unit :=
  _ ← __list_del_entry entry; _ ← set_next entry (var LIST_POISON1); set_prev entry (var LIST_POISON2).
Definition list_del_init (entry : lexp) : LS unit := _ ← __list_del_entry entry; INIT_LIST_HEAD entry.

Definition list_move (list head : lexp) : LS unit := _ ← __list_del_entry list; list_add list head.
Definition list_move_tail (list head : lexp) : LS unit := _ ← __list_del_entry list; list_add_tail list head.

Definition eq_exp (e1 e2 : lexp) : LS bool := a ← eval e1; b ← eval e2; mret (a =? b).
Definition list_is_last (list head : lexp) : LS bool := eq_exp (e_next list) head.
Definition list_empty (head : lexp) : LS bool := eq_exp (e_next head) head.
Definition list_empty_careful (head : lexp) : LS bool :=
  a ← eq_exp (e_next head) head; if (a : bool) then eq_exp (e_next head) (e_prev head) else mret false.
Definition list_is_singular (head : lexp) : LS bool :=
  a ← list_empty head; if (a : bool) then mret false else eq_exp (e_next head) (e_prev head).
Definition list_rotate_left (head : lexp) : LS unit :=
  a ← list_empty head; if (a : bool) then mret tt else list_move_tail (e_next head) head.

Definition __list_cut_position (list head entry : lexp) : LS unit :=
  _ ← set_next list (e_next head);
  _ ← set_prev (e_next list) list;
  _ ← set_prev list entry;
  _ ← set_next head (e_next entry);
  _ ← set_next entry list;
  set_prev (e_next head) head.

Definition list_cut_position (list head entry : lexp) : LS unit :=
  a ← list_empty head;
  if (a : bool) then mret tt
  else
    b ← list_is_singular head;
    c ← eq_exp (e_next head) entry;
    d ← eq_exp head entry;
    if b && negb c && negb d then mret tt
    else
      f ← eq_exp entry head;
      if (f : bool) then INIT_LIST_HEAD list else __list_cut_position list head entry.

(** [__list_splice] names its parameters prevl and nextl and uses [prev] and [next]:
    whatever the file that uses it calls so. *)
Definition __list_splice (prev next : lexp) (list prevl nextl : lexp) : LS unit :=
  _ ← set_prev (e_next list) prev;
  _ ← set_next prev (e_next list);
  _ ← set_next (e_prev list) next;
  set_prev next (e_prev list).

Definition list_splice (prev next : lexp) (list head : lexp) : LS unit :=
  a ← list_empty list; if (a : bool) then mret tt else __list_splice prev next list head (e_next head).
Definition list_splice_tail (prev next : lexp) (list head : lexp) : LS unit :=
  a ← list_empty list; if (a : bool) then mret tt else __list_splice prev next list (e_prev head) head.
Definition list_splice_init (prev next : lexp) (list head : lexp) : LS unit :=
  a ← list_empty list;
  if (a : bool) then mret tt else _ ← __list_splice prev next list head (e_next head); INIT_LIST_HEAD list.
Definition list_splice_tail_init (prev next : lexp) (list head : lexp) : LS unit :=
  a ← list_empty list;
  if (a : bool) then mret tt else _ ← __list_splice prev next list (e_prev head) head; INIT_LIST_HEAD list.

(** winix/list.c: functions, whose arguments are values. *)
Definition do_list_replace (old new : Z) : LS unit :=
  _ ← set_next (var new) (e_next (var old));
  _ ← set_prev (e_next (var new)) (var new);
  _ ← set_prev (var new) (e_prev (var old));
  set_next (e_prev (var new)) (var new).
Definition do___list_del (prev next : Z) : LS unit := _ ← set_prev (var next) (var prev); set_next (var prev) (var next).

(** Entries: the structure around a [list_head] at distance [offset]. *)
Definition list_entry (ptr offset : Z) : Z := ptr - offset.
Definition list_first_entry (ptr : lexp) (offset : Z) : lexp := fun m => a ← e_next ptr m; Some (list_entry a offset).
Definition list_last_entry (ptr : lexp) (offset : Z) : lexp := fun m => a ← e_prev ptr m; Some (list_entry a offset).
Definition list_first_entry_or_null (ptr : lexp) (offset : Z) : lexp := fun m =>
  h ← ptr m; p ← e_next ptr m; Some (if p =? h then 0 else list_entry p offset).
Definition list_next_entry (pos offset : Z) : lexp := fun m => a ← e_next (var (pos + offset)) m; Some (list_entry a offset).
Definition list_prev_entry (pos offset : Z) : lexp := fun m => a ← e_prev (var (pos + offset)) m; Some (list_entry a offset).

(** ** Iteration

    The body of a loop gets the position.  The loops end when they are back at the
    head. *)
Section loops.
Context {S : Type} (store : S -> lstore).

Definition in_store {A} (e : lexp) (k : Z -> ST S A) : ST S A := fun s => match e (store s) with Some a => k a s | None => None end.

Fixpoint for_each (step : lexp -> lexp) (fuel : nat) (pos head : Z) (body : Z -> ST S unit) : ST S unit :=
  match fuel with
  | O => crash
  | Datatypes.S n =>
      if pos =? head then mret tt
      else _ ← body pos; in_store (step (var pos)) (fun pos' => for_each step n pos' head body)
  end.

Definition list_for_each (fuel : nat) (head : Z) body : ST S unit :=
  in_store (e_next (var head)) (fun pos => for_each e_next fuel pos head body).
Definition list_for_each_prev (fuel : nat) (head : Z) body : ST S unit :=
  in_store (e_prev (var head)) (fun pos => for_each e_prev fuel pos head body).

(** The second pointer is read before the body runs. *)
Fixpoint for_each_safe (step : lexp -> lexp) (fuel : nat) (pos n head : Z) (body : Z -> ST S unit) : ST S unit :=
  match fuel with
  | O => crash
  | Datatypes.S f =>
      if pos =? head then mret tt
      else _ ← body pos; in_store (step (var n)) (fun n' => for_each_safe step f n n' head body)
  end.

Definition list_for_each_safe (fuel : nat) (head : Z) body : ST S unit :=
  in_store (e_next (var head)) (fun pos => in_store (e_next (var pos)) (fun n => for_each_safe e_next fuel pos n head body)).
Definition list_for_each_prev_safe (fuel : nat) (head : Z) body : ST S unit :=
  in_store (e_prev (var head)) (fun pos => in_store (e_prev (var pos)) (fun n => for_each_safe e_prev fuel pos n head body)).

(** The loops over entries, the structures around the nodes at [offset]. *)
Fixpoint for_each_entry (step : Z -> lexp) (offset : Z) (fuel : nat) (pos head : Z) (body : Z -> ST S unit) : ST S unit :=
  match fuel with
  | O => crash
  | Datatypes.S n =>
      if pos + offset =? head then mret tt
      else _ ← body pos; in_store (step pos) (fun pos' => for_each_entry step offset n pos' head body)
  end.
End loops.

Section entry_loops.
Context {S : Type} (store : S -> lstore).

Definition list_for_each_entry (fuel : nat) (head offset : Z) body : ST S unit :=
  in_store store (list_first_entry (var head) offset) (fun pos =>
    for_each_entry store (fun p => list_next_entry p offset) offset fuel pos head body).
Definition list_for_each_entry_reverse (fuel : nat) (head offset : Z) body : ST S unit :=
  in_store store (list_last_entry (var head) offset) (fun pos =>
    for_each_entry store (fun p => list_prev_entry p offset) offset fuel pos head body).
Definition list_for_each_entry_continue (fuel : nat) (pos head offset : Z) body : ST S unit :=
  in_store store (list_next_entry pos offset) (fun pos =>
    for_each_entry store (fun p => list_next_entry p offset) offset fuel pos head body).
Definition list_for_each_entry_from (fuel : nat) (pos head offset : Z) body : ST S unit :=
  for_each_entry store (fun p => list_next_entry p offset) offset fuel pos head body.
Definition list_for_each_entry_continue_reverse (fuel : nat) (pos head offset : Z) body : ST S unit :=
  in_store store (list_prev_entry pos offset) (fun pos =>
    for_each_entry store (fun p => list_prev_entry p offset) offset fuel pos head body).
Definition list_for_each_entry_from_reverse (fuel : nat) (pos head offset : Z) body : ST S unit :=
  for_each_entry store (fun p => list_prev_entry p offset) offset fuel pos head body.
(** The GNU form [a ?: b] is [a] unless it is NULL. *)
Definition list_prepare_entry (pos head offset : Z) : Z := if pos =? 0 then list_entry head offset else pos.

(** pos = n, n = the entry behind n: what the body does to [pos] is not seen. *)
Fixpoint for_each_entry_safe (step : Z -> lexp) (offset : Z) (fuel : nat) (pos n head : Z) (body : Z -> ST S unit) : ST S unit :=
  match fuel with
  | O => crash
  | Datatypes.S f =>
      if pos + offset =? head then mret tt
      else _ ← body pos; in_store store (step n) (fun n' => for_each_entry_safe step offset f n n' head body)
  end.

Definition list_for_each_entry_safe (fuel : nat) (head offset : Z) body : ST S unit :=
  in_store store (list_first_entry (var head) offset) (fun pos =>
    in_store store (list_next_entry pos offset) (fun n =>
      for_each_entry_safe (fun p => list_next_entry p offset) offset fuel pos n head body)).
Definition list_for_each_entry_safe_continue (fuel : nat) (pos head offset : Z) body : ST S unit :=
  in_store store (list_next_entry pos offset) (fun pos =>
    in_store store (list_next_entry pos offset) (fun n =>
      for_each_entry_safe (fun p => list_next_entry p offset) offset fuel pos n head body)).
Definition list_for_each_entry_safe_from (fuel : nat) (pos head offset : Z) body : ST S unit :=
  in_store store (list_next_entry pos offset) (fun n =>
    for_each_entry_safe (fun p => list_next_entry p offset) offset fuel pos n head body).
Definition list_for_each_entry_safe_reverse (fuel : nat) (head offset : Z) body : ST S unit :=
  in_store store (list_last_entry (var head) offset) (fun pos =>
    in_store store (list_prev_entry pos offset) (fun n =>
      for_each_entry_safe (fun p => list_prev_entry p offset) offset fuel pos n head body)).
(** The new value of [n]. *)
Definition list_safe_reset_next (pos offset : Z) : lexp := list_next_entry pos offset.
End entry_loops.

(** ** The two pointers as functions of the node *)
Definition nx (m : lstore) (a : Z) : option Z := next <$> m !! a.
Definition pv (m : lstore) (a : Z) : option Z := prev <$> m !! a.

Definition upd_at (f : Z -> option Z) (a x : Z) : Z -> option Z := fun b => if decide (b = a) then Some x else f b.

Lemma lset_next_run e v m a x : e m = Some a -> v m = Some x -> is_Some (m !! a) ->
  exists m', set_next e v m = Some (tt, m') /\ (forall b, nx m' b = upd_at (nx m) a x b) /\ (forall b, pv m' b = pv m b) /\ dom m' = dom m.
Proof.
  intros He Hv [n Hn]. eexists. split; [unfold set_next; rewrite He; cbn; rewrite Hv; cbn; rewrite Hn; reflexivity|].
  split_and!; [intros b; unfold nx, upd_at|intros b; unfold pv|by apply dom_insert_lookup_L].
  - destruct (decide (b = a)) as [->|]; [by rewrite lookup_insert_eq|by rewrite lookup_insert_ne].
  - destruct (decide (b = a)) as [->|]; [by rewrite lookup_insert_eq, Hn|by rewrite lookup_insert_ne].
Qed.

Lemma lset_prev_run e v m a x : e m = Some a -> v m = Some x -> is_Some (m !! a) ->
  exists m', set_prev e v m = Some (tt, m') /\ (forall b, nx m' b = nx m b) /\ (forall b, pv m' b = upd_at (pv m) a x b) /\ dom m' = dom m.
Proof.
  intros He Hv [n Hn]. eexists. split; [unfold set_prev; rewrite He; cbn; rewrite Hv; cbn; rewrite Hn; reflexivity|].
  split_and!; [intros b; unfold nx|intros b; unfold pv, upd_at|by apply dom_insert_lookup_L].
  - destruct (decide (b = a)) as [->|]; [by rewrite lookup_insert_eq, Hn|by rewrite lookup_insert_ne].
  - destruct (decide (b = a)) as [->|]; [by rewrite lookup_insert_eq|by rewrite lookup_insert_ne].
Qed.

Lemma nx_some m a b : nx m a = Some b -> is_Some (m !! a).
Proof. unfold nx. destruct (m !! a); [eauto|done]. Qed.

Lemma pv_some m a b : pv m a = Some b -> is_Some (m !! a).
Proof. unfold pv. destruct (m !! a); [eauto|done]. Qed.

Lemma e_next_var m a : e_next (var a) m = nx m a.
Proof. done. Qed.

Lemma e_prev_var m a : e_prev (var a) m = pv m a.
Proof. done. Qed.

Lemma same_dom {m m' : lstore} a : dom m' = dom m -> is_Some (m !! a) -> is_Some (m' !! a).
Proof. intros H. rewrite <- !elem_of_dom. by rewrite H. Qed.

(** One assignment after the other: the pointers after it are facts about the
    pointers before it. *)
Ltac assign :=
  match goal with
  | |- exists m', (set_next ?e ?v ≫= _) ?m = _ /\ _ =>
      let m1 := fresh "m" in let E := fresh "E" in let N := fresh "N" in let P := fresh "P" in let D := fresh "D" in
      edestruct (lset_next_run e v m) as (m1 & E & N & P & D); [..|rewrite (bind_run _ _ _ _ _ E)]
  | |- exists m', (set_prev ?e ?v ≫= _) ?m = _ /\ _ =>
      let m1 := fresh "m" in let E := fresh "E" in let N := fresh "N" in let P := fresh "P" in let D := fresh "D" in
      edestruct (lset_prev_run e v m) as (m1 & E & N & P & D); [..|rewrite (bind_run _ _ _ _ _ E)]
  | |- exists m', set_next ?e ?v ?m = _ /\ _ =>
      let m1 := fresh "m" in let E := fresh "E" in let N := fresh "N" in let P := fresh "P" in let D := fresh "D" in
      edestruct (lset_next_run e v m) as (m1 & E & N & P & D); [..|rewrite E; exists m1; split; [reflexivity|]]
  | |- exists m', set_prev ?e ?v ?m = _ /\ _ =>
      let m1 := fresh "m" in let E := fresh "E" in let N := fresh "N" in let P := fresh "P" in let D := fresh "D" in
      edestruct (lset_prev_run e v m) as (m1 & E & N & P & D); [..|rewrite E; exists m1; split; [reflexivity|]]
  end.

(** Evaluate an expression over the assignments made so far. *)
Ltac look :=
  unfold upd_at in *; rewrite ?e_next_var, ?e_prev_var;
  repeat match goal with
  | H : (forall b, nx ?m b = _) |- context [nx ?m _] => rewrite H
  | H : (forall b, pv ?m b = _) |- context [pv ?m _] => rewrite H
  end;
  repeat case_decide; subst; try done; try congruence.
Ltac alive := repeat (eapply same_dom; [eassumption|]); eauto using nx_some, pv_some.

Lemma list_add_run m h n q : nx m h = Some q -> is_Some (m !! q) -> is_Some (m !! n) -> n <> h -> n <> q ->
  exists m', list_add (var n) (var h) m = Some (tt, m') /\
    (forall b, nx m' b = upd_at (upd_at (nx m) n q) h n b) /\ (forall b, pv m' b = upd_at (upd_at (pv m) q n) n h b) /\ dom m' = dom m.
Proof.
  intros Hh Hq Hn Hnh Hnq. unfold list_add, __list_add.
  assign; [rewrite e_next_var; exact Hh|done|done|].
  assign; [done|rewrite e_next_var, N; exact Hh|alive|].
  assign; [done|done|alive|].
  assign; [done|done|alive|]. split_and!; [intros b; look|intros b; look|congruence].
Qed.

Lemma unlink_run m x p q : pv m x = Some p -> nx m x = Some q -> is_Some (m !! p) -> is_Some (m !! q) -> x <> p -> x <> q ->
  exists m', __list_del_entry (var x) m = Some (tt, m') /\
    (forall b, nx m' b = upd_at (nx m) p q b) /\ (forall b, pv m' b = upd_at (pv m) q p b) /\ dom m' = dom m.
Proof.
  intros Hp Hq Hdp Hdq Hxp Hxq. unfold __list_del_entry, __list_del.
  assign; [exact Hq|exact Hp|done|]. assign; [look|look|alive|]. split_and!; [intros b; look|intros b; look|congruence].
Qed.

Lemma list_del_run m x p q : pv m x = Some p -> nx m x = Some q -> is_Some (m !! p) -> is_Some (m !! q) -> x <> p -> x <> q ->
  exists m', list_del (var x) m = Some (tt, m') /\
    (forall b, nx m' b = upd_at (upd_at (nx m) p q) x LIST_POISON1 b) /\
    (forall b, pv m' b = upd_at (upd_at (pv m) q p) x LIST_POISON2 b) /\ dom m' = dom m.
Proof.
  intros Hp Hq Hdp Hdq Hxp Hxq. unfold list_del. destruct (unlink_run m x p q) as (m1 & E & N & P & D); [done..|].
  rewrite (bind_run _ _ _ _ _ E).
  assign; [done|done|alive|].
  assign; [done|done|alive|]. split_and!; [intros b; look|intros b; look|congruence].
Qed.

Lemma list_del_init_run m x p q : pv m x = Some p -> nx m x = Some q -> is_Some (m !! p) -> is_Some (m !! q) -> x <> p -> x <> q ->
  exists m', list_del_init (var x) m = Some (tt, m') /\
    (forall b, nx m' b = upd_at (upd_at (nx m) p q) x x b) /\ (forall b, pv m' b = upd_at (upd_at (pv m) q p) x x b) /\ dom m' = dom m.
Proof.
  intros Hp Hq Hdp Hdq Hxp Hxq. unfold list_del_init, INIT_LIST_HEAD. destruct (unlink_run m x p q) as (m1 & E & N & P & D); [done..|].
  rewrite (bind_run _ _ _ _ _ E).
  assign; [done|done|alive|].
  assign; [done|done|alive|]. split_and!; [intros b; look|intros b; look|congruence].
Qed.

Lemma init_run m x : is_Some (m !! x) ->
  exists m', INIT_LIST_HEAD (var x) m = Some (tt, m') /\
    (forall b, nx m' b = upd_at (nx m) x x b) /\ (forall b, pv m' b = upd_at (pv m) x x b) /\ dom m' = dom m.
Proof.
  intros Hx. unfold INIT_LIST_HEAD. assign; [done|done|done|].
  assign; [done|done|alive|]. split_and!; [intros b; look|intros b; look|congruence].
Qed.

Lemma replace_run m o n p q : pv m o = Some p -> nx m o = Some q -> is_Some (m !! p) -> is_Some (m !! q) -> is_Some (m !! n) ->
  n <> o -> n <> p -> n <> q -> o <> q ->
  exists m', do_list_replace o n m = Some (tt, m') /\
    (forall b, nx m' b = upd_at (upd_at (nx m) n q) p n b) /\ (forall b, pv m' b = upd_at (upd_at (pv m) q n) n p b) /\ dom m' = dom m.
Proof.
  intros Hp Hq Hdp Hdq Hn ????. unfold do_list_replace.
  assign; [done|exact Hq|done|]. assign; [look|done|alive|]. assign; [done|rewrite e_prev_var, P0, <- Hp; look|alive|].
  assign; [look|done|alive|]. split_and!; [intros b; look|intros b; look|congruence].
Qed.

(** ** The nodes between two nodes *)
Section segments.
Context (N P : Z -> option Z).

Definition link (x y : Z) : Prop := N x = Some y /\ P y = Some x.

Fixpoint dseg (x : Z) (l : list Z) (y : Z) : Prop :=
  match l with
  | [] => link x y
  | z :: l' => link x z /\ dseg z l' y
  end.

Lemma dseg_app l1 z l2 : forall x y, dseg x (l1 ++ z :: l2) y <-> dseg x l1 z /\ dseg z l2 y.
Proof. induction l1 as [|a l1 IH]; intros x y; cbn; [done|]. rewrite IH. tauto. Qed.

(** The first node after [x], the last one before [y]. *)
Lemma dseg_first x l y : dseg x l y -> exists q, head (l ++ [y]) = Some q /\ link x q.
Proof. destruct l as [|z l]; cbn; [eauto|]. intros [H _]. eauto. Qed.

Lemma dseg_last x l y : dseg x l y -> exists p, last (x :: l) = Some p /\ link p y.
Proof.
  revert x. induction l as [|z l IH]; intros x; [cbn; eauto|]. intros [_ H]. destruct (IH z H) as (p & Hp & Hl).
  exists p. split; [|done]. by rewrite last_cons, Hp.
Qed.
End segments.

Lemma dseg_frame N P N' P' l : forall x y,
  (forall a, a ∈ x :: l -> N' a = N a) -> (forall b, b ∈ l ++ [y] -> P' b = P b) -> dseg N P x l y -> dseg N' P' x l y.
Proof.
  induction l as [|z l IH]; intros x y HN HP; cbn.
  - intros [H1 H2]. split; [rewrite HN by set_solver; done|rewrite HP by set_solver; done].
  - intros [[H1 H2] H]. split; [split; [rewrite HN by set_solver; done|rewrite HP by set_solver; done]|].
    apply IH; [intros a Ha; apply HN; set_solver|intros b Hb; apply HP; set_solver|done].
Qed.

(** The last link of a segment goes to another node. *)
Lemma dseg_relink N P N' P' x l y p y' :
  NoDup (x :: l) -> dseg N P x l y -> last (x :: l) = Some p ->
  (forall a, a ∈ x :: l -> a <> p -> N' a = N a) -> (forall b, b ∈ l -> P' b = P b) -> link N' P' p y' -> dseg N' P' x l y'.
Proof.
  revert x. induction l as [|z l IH]; intros x Hnd; cbn [dseg].
  - intros _ [= ->]. done.
  - intros [[H1 H2] H] Hlast HN HP Hp. rewrite last_cons in Hlast. destruct (last (z :: l)) as [p'|] eqn:E; [|by rewrite last_cons in E; destruct (last l)].
    injection Hlast as ->. apply NoDup_cons in Hnd as [Hx Hnd]. assert (x <> p).
    { intros ->. apply Hx. by apply last_Some_elem_of in E. }
    split; [split; [rewrite HN by set_solver; done|rewrite HP by set_solver; done]|].
    apply IH; [done|done|done|intros a Ha; apply HN; set_solver|intros b Hb; apply HP; set_solver|done].
Qed.

(** ** Circular lists: the head [h] and its members [l] *)
Definition clist (m : lstore) (h : Z) (l : list Z) : Prop := NoDup (h :: l) /\ dseg (nx m) (pv m) h l h.

(** Nothing changes outside of [X]. *)
Definition kept (X : list Z) (m m' : lstore) : Prop := forall a, a ∉ X -> nx m' a = nx m a /\ pv m' a = pv m a.

Lemma clist_frame m m' h l : (forall a, a ∈ h :: l -> nx m' a = nx m a /\ pv m' a = pv m a) -> clist m h l -> clist m' h l.
Proof.
  intros H [Hnd Hs]. split; [done|]. apply (dseg_frame (nx m) (pv m)); [|intros b Hb|done].
  - intros a Ha. by apply H.
  - apply H. set_solver.
Qed.

Lemma clist_kept X m m' h l : kept X m m' -> (forall a, a ∈ X -> a ∉ h :: l) -> clist m h l -> clist m' h l.
Proof. intros HX Hd. apply clist_frame. intros a Ha. apply HX. intros Hin. by apply (Hd a). Qed.

Lemma dseg_live N P l : forall x y a, dseg N P x l y -> a ∈ x :: l -> is_Some (N a).
Proof.
  induction l as [|z l IH]; intros x y a; cbn.
  - intros [H _] ->%list_elem_of_singleton. eauto.
  - intros [[H _] Hs] [->|Ha]%elem_of_cons; [eauto|]. by eapply IH.
Qed.

Lemma clist_live m h l a : clist m h l -> a ∈ h :: l -> is_Some (m !! a).
Proof. intros [_ Hs] Ha. destruct (dseg_live _ _ _ _ _ a Hs Ha) as [b Hb]. by eapply nx_some. Qed.

(** What is around a member. *)
Lemma clist_around m h l1 x l2 : clist m h (l1 ++ x :: l2) ->
  exists p q, last (h :: l1) = Some p /\ head (l2 ++ [h]) = Some q /\ link (nx m) (pv m) p x /\ link (nx m) (pv m) x q /\
    x <> p /\ x <> q /\ is_Some (m !! p) /\ is_Some (m !! q) /\ p ∈ h :: l1 /\ q ∈ h :: l2.
Proof.
  intros Hc. pose proof Hc as [Hnd Hs]. apply dseg_app in Hs as [H1 H2].
  destruct (dseg_last _ _ _ _ _ H1) as (p & Hp & Lp). destruct (dseg_first _ _ _ _ _ H2) as (q & Hq & Lq).
  exists p, q. pose proof (last_Some_elem_of _ _ Hp) as Hp'.
  assert (Hq' : q ∈ h :: l2) by (destruct l2; cbn in Hq; injection Hq as <-; set_solver).
  rewrite app_comm_cons in Hnd. apply NoDup_app in Hnd as (Hnd1 & Hd & [Hx Hnd2]%NoDup_cons).
  split_and!; try done.
  - intros ->. apply (Hd p); [done|set_solver].
  - intros ->. apply elem_of_cons in Hq' as [->|Hq']; [apply (Hd h); set_solver|done].
  - destruct Lp. by eapply nx_some.
  - destruct Lq. by eapply pv_some.
Qed.

(** The list without [x] once its neighbours are linked. *)
Lemma clist_unlinked m m' h l1 x l2 p q :
  clist m h (l1 ++ x :: l2) -> pv m x = Some p -> nx m x = Some q ->
  (forall b, b <> x -> nx m' b = upd_at (nx m) p q b) -> (forall b, b <> x -> pv m' b = upd_at (pv m) q p b) ->
  clist m' h (l1 ++ l2) /\ kept (h :: l1 ++ x :: l2) m m'.
Proof.
  intros Hc Hp Hq HN HP. destruct (clist_around _ _ _ _ _ Hc) as (p' & q' & Hl & Hh & [L1 L2] & [L3 L4] & Hxp & Hxq & _ & _ & Hp' & Hq').
  rewrite L2 in Hp. rewrite L3 in Hq. injection Hp as ->. injection Hq as ->.
  pose proof Hc as [Hnd Hs]. apply dseg_app in Hs as [H1 H2]. split; [split|].
  - rewrite app_comm_cons in Hnd |- *. apply NoDup_app in Hnd as (Hnd1 & Hd & [Hx Hnd2]%NoDup_cons). apply NoDup_app. split_and!; [done| |done].
    intros a Ha Ha'. apply (Hd a Ha). set_solver.
  - rewrite app_comm_cons in Hnd. apply NoDup_app in Hnd as (Hnd1 & Hd & [Hx Hnd2]%NoDup_cons).
    assert (Hl' : link (nx m') (pv m') p q).
    { split; [rewrite HN by done; unfold upd_at; by rewrite decide_True|rewrite HP by done; unfold upd_at; by rewrite decide_True]. }
    assert (HN' : forall a, a <> x -> a <> p -> nx m' a = nx m a) by (intros a ??; rewrite HN by done; unfold upd_at; by rewrite decide_False).
    assert (HP' : forall a, a <> x -> a <> q -> pv m' a = pv m a) by (intros a ??; rewrite HP by done; unfold upd_at; by rewrite decide_False).
    assert (Hxl : x ∉ h :: l1) by (intros Hin; apply (Hd x Hin); set_solver).
    assert (Hr : dseg (nx m') (pv m') h l1 q).
    { apply (dseg_relink (nx m) (pv m) _ _ h l1 x p); try done.
      - intros a Ha Hap. apply HN'; [set_solver|done].
      - intros b Hb. apply HP'; [set_solver|]. intros ->. apply NoDup_cons in Hnd1 as [Hh1 _].
        apply elem_of_cons in Hq' as [->|Hq']; [done|]. apply (Hd q); set_solver. }
    destruct l2 as [|z l2]; cbn in Hh; injection Hh as ->; [by rewrite app_nil_r|]. apply dseg_app. split; [done|].
    cbn [dseg] in H2. destruct H2 as [_ H2]. apply NoDup_cons in Hnd2 as [Hq2 Hnd2].
    apply (dseg_frame (nx m) (pv m)); [| |done].
    + intros a Ha. apply HN'; [set_solver|]. intros ->. apply (Hd p); set_solver.
    + intros b Hb. apply HP'; [set_solver|]. apply elem_of_app in Hb as [Hb|Hb%list_elem_of_singleton]; [set_solver|].
      subst b. intros <-. apply (Hd h); set_solver.
  - intros a Ha. assert (a <> x /\ a <> p /\ a <> q) as (? & ? & ?) by set_solver.
    rewrite HN, HP by done. unfold upd_at. by rewrite !decide_False.
Qed.

Lemma clist_init m h : is_Some (m !! h) ->
  exists m', INIT_LIST_HEAD (var h) m = Some (tt, m') /\ clist m' h [] /\ kept [h] m m' /\ dom m' = dom m.
Proof.
  intros Hh. destruct (init_run m h Hh) as (m' & E & N & P & D). exists m'. split_and!; [done| | |done].
  - split; [apply NoDup_singleton|]. cbn. split; [rewrite N|rewrite P]; unfold upd_at; by rewrite decide_True.
  - intros a Ha. rewrite N, P. unfold upd_at. by rewrite !decide_False by set_solver.
Qed.

Lemma clist_add m h l n : clist m h l -> n ∉ h :: l -> is_Some (m !! n) ->
  exists m', list_add (var n) (var h) m = Some (tt, m') /\ clist m' h (n :: l) /\ kept (n :: h :: l) m m' /\ dom m' = dom m.
Proof.
  intros Hc Hn Hdn. pose proof Hc as [Hnd Hs]. destruct (dseg_first _ _ _ _ _ Hs) as (q & Hq & Lq & Lp).
  assert (Hq' : q ∈ h :: l) by (destruct l; cbn in Hq; injection Hq as <-; set_solver).
  destruct (list_add_run m h n q Lq) as (m' & E & N & P & D); [by eapply clist_live|done|set_solver|set_solver|].
  exists m'. split_and!; [done| | |done].
  - split.
    + apply NoDup_cons in Hnd as [Hh Hnd]. repeat (apply NoDup_cons; split); [set_solver|set_solver|done].
    + cbn [dseg]. split; [split; [rewrite N|rewrite P]; unfold upd_at; [by rewrite decide_True|by rewrite decide_True]|].
      apply NoDup_cons in Hnd as [Hh Hnd].
      assert (Hl : link (nx m') (pv m') n q).
      { split; [rewrite N|rewrite P]; unfold upd_at; [rewrite decide_False by set_solver; by rewrite decide_True|].
        rewrite decide_False by set_solver. by rewrite decide_True. }
      destruct l as [|z l]; cbn in Hq; injection Hq as ->; [done|]. cbn [dseg] in *. destruct Hs as [_ Hs]. split; [done|].
      apply NoDup_cons in Hnd as [Hql Hnd].
      apply (dseg_frame (nx m) (pv m)); [| |done].
      * intros a Ha. rewrite N. unfold upd_at. rewrite !decide_False by set_solver. done.
      * intros b Hb. rewrite P. unfold upd_at. rewrite !decide_False by set_solver. done.
  - intros a Ha. rewrite N, P. unfold upd_at. rewrite !decide_False by set_solver. done.
Qed.

Lemma clist_del m h l1 x l2 : clist m h (l1 ++ x :: l2) ->
  exists m', list_del (var x) m = Some (tt, m') /\ clist m' h (l1 ++ l2) /\ kept (h :: l1 ++ x :: l2) m m' /\ dom m' = dom m.
Proof.
  intros Hc. destruct (clist_around _ _ _ _ _ Hc) as (p & q & _ & _ & [L1 L2] & [L3 L4] & ? & ? & ? & ? & _).
  destruct (list_del_run m x p q) as (m' & E & N & P & D); [done..|]. exists m'.
  destruct (clist_unlinked m m' h l1 x l2 p q Hc L2 L3) as [Hc' Hk]; [| |done].
  - intros b Hb. rewrite N. unfold upd_at at 1. by rewrite decide_False.
  - intros b Hb. rewrite P. unfold upd_at at 1. by rewrite decide_False.
Qed.

Lemma clist_del_init m h l1 x l2 : clist m h (l1 ++ x :: l2) ->
  exists m', list_del_init (var x) m = Some (tt, m') /\ clist m' h (l1 ++ l2) /\ clist m' x [] /\ kept (h :: l1 ++ x :: l2) m m' /\ dom m' = dom m.
Proof.
  intros Hc. destruct (clist_around _ _ _ _ _ Hc) as (p & q & _ & _ & [L1 L2] & [L3 L4] & ? & ? & ? & ? & _).
  destruct (list_del_init_run m x p q) as (m' & E & N & P & D); [done..|]. exists m'.
  destruct (clist_unlinked m m' h l1 x l2 p q Hc L2 L3) as [Hc' Hk].
  - intros b Hb. rewrite N. unfold upd_at at 1. by rewrite decide_False.
  - intros b Hb. rewrite P. unfold upd_at at 1. by rewrite decide_False.
  - split_and!; try done. split; [apply NoDup_singleton|]. split; [rewrite N|rewrite P]; unfold upd_at; by rewrite decide_True.
Qed.

(** Moving within a list or to another one. *)
Lemma clist_unlink m h l1 x l2 : clist m h (l1 ++ x :: l2) ->
  exists m', __list_del_entry (var x) m = Some (tt, m') /\ clist m' h (l1 ++ l2) /\ kept (h :: l1 ++ x :: l2) m m' /\ dom m' = dom m.
Proof.
  intros Hc. destruct (clist_around _ _ _ _ _ Hc) as (p & q & _ & _ & [L1 L2] & [L3 L4] & ? & ? & ? & ? & _).
  destruct (unlink_run m x p q) as (m' & E & N & P & D); [done..|]. exists m'.
  by destruct (clist_unlinked m m' h l1 x l2 p q Hc L2 L3) as [Hc' Hk].
Qed.

Lemma clist_replace m h l1 o n l2 : clist m h (l1 ++ o :: l2) -> n ∉ h :: l1 ++ o :: l2 -> is_Some (m !! n) ->
  exists m', do_list_replace o n m = Some (tt, m') /\ clist m' h (l1 ++ n :: l2) /\ kept (n :: h :: l1 ++ o :: l2) m m' /\ dom m' = dom m.
Proof.
  intros Hc Hn Hdn. destruct (clist_around _ _ _ _ _ Hc) as (p & q & Hl & Hh & [L1 L2] & [L3 L4] & ? & ? & ? & ? & Hp' & Hq').
  assert (n <> o /\ n <> p /\ n <> q) as (Hno & Hnp & Hnq) by set_solver.
  destruct (replace_run m o n p q) as (m' & E & N & P & D); [done..|].
  exists m'. split_and!; [done| | |done].
  - pose proof Hc as [Hnd Hs]. apply dseg_app in Hs as [Hs1 Hs2]. rewrite app_comm_cons in Hnd.
    apply NoDup_app in Hnd as (Hnd1 & Hd & [Ho Hnd2]%NoDup_cons). split.
    + rewrite app_comm_cons. apply NoDup_app. split_and!; [done| |apply NoDup_cons; split; [set_solver|done]].
      intros a Ha [->|Ha']%elem_of_cons; [set_solver|]. apply (Hd a Ha). set_solver.
    + assert (HN' : forall a, a <> n -> a <> p -> nx m' a = nx m a) by (intros a ??; rewrite N; unfold upd_at; by rewrite !decide_False).
      assert (HP' : forall a, a <> n -> a <> q -> pv m' a = pv m a) by (intros a ??; rewrite P; unfold upd_at; by rewrite !decide_False).
      assert (Lpn : link (nx m') (pv m') p n).
      { split; [rewrite N|rewrite P]; unfold upd_at; by rewrite decide_True. }
      assert (Lnq : link (nx m') (pv m') n q).
      { split; [rewrite N|rewrite P]; unfold upd_at; rewrite decide_False by done; by rewrite decide_True. }
      apply dseg_app. split.
      * apply (dseg_relink (nx m) (pv m) _ _ h l1 o p); try done.
        -- intros a Ha Hap. apply HN'; [set_solver|done].
        -- intros b Hb. apply HP'; [set_solver|]. intros ->. apply NoDup_cons in Hnd1 as [Hh1 _].
           apply elem_of_cons in Hq' as [->|Hq']; [done|]. apply (Hd q); set_solver.
      * destruct l2 as [|z l2]; cbn in Hh; injection Hh as ->; [done|]. cbn [dseg] in *. destruct Hs2 as [_ Hs2]. split; [done|].
        apply NoDup_cons in Hnd2 as [Hq2 Hnd2]. apply (dseg_frame (nx m) (pv m)); [| |done].
        -- intros a Ha. apply HN'; [set_solver|]. intros ->. apply (Hd p); set_solver.
        -- intros b Hb. apply HP'; [set_solver|]. apply elem_of_app in Hb as [Hb|Hb%list_elem_of_singleton]; [set_solver|].
           subst b. intros <-. apply (Hd h); set_solver.
  - intros a Ha. rewrite N, P. unfold upd_at. by rewrite !decide_False by set_solver.
Qed.

(** ** Walking *)
Definition visit (a : Z) : ST (lstore * list Z) unit := fun s => Some (tt, (s.1, s.2 ++ [a])).

Lemma dseg_rev N P l : forall x y, dseg N P x l y -> dseg P N y (rev l) x.
Proof.
  induction l as [|z l IH]; intros x y; cbn; [by intros [? ?]|].
  intros [[H1 H2] Hs]. apply dseg_app. split; [by apply IH|done].
Qed.

Lemma for_each_dseg (step : lexp -> lexp) N P m h l : (forall a, step (var a) m = N a) -> h ∉ l ->
  forall x fuel acc, dseg N P x l h -> (length l < fuel)%nat ->
  forall q, N x = Some q -> for_each fst step fuel q h visit (m, acc) = Some (tt, (m, acc ++ l)).
Proof.
  intros Hstep Hh. induction l as [|z l IH]; intros x [|fuel] acc Hs Hf q Hq; try (cbn in Hf; lia); cbn [for_each dseg] in *.
  - destruct Hs as [Hs _]. rewrite Hs in Hq. injection Hq as <-. rewrite Z.eqb_refl. by rewrite app_nil_r.
  - destruct Hs as [[H1 H2] Hs]. rewrite H1 in Hq. injection Hq as <-. rewrite (proj2 (Z.eqb_neq z h)) by set_solver.
    rewrite (bind_run (visit z) _ (m, acc) tt (m, acc ++ [z])) by done.
    destruct (dseg_first _ _ _ _ _ Hs) as (q' & _ & Hq' & _). unfold in_store. rewrite Hstep. cbn [fst]. rewrite Hq'. cbv beta iota.
    rewrite (IH ltac:(set_solver) z fuel (acc ++ [z]) Hs ltac:(cbn in Hf; lia) q' Hq'). by rewrite <- app_assoc.
Qed.

Lemma elem_of_reverse_rev {A} (x : A) l : x ∈ rev l <-> x ∈ l.
Proof. rewrite rev_alt. apply elem_of_reverse. Qed.

(** Forwards the members in order, backwards in reverse. *)
Lemma clist_walks m h l fuel : clist m h l -> (length l < fuel)%nat ->
  list_for_each fst fuel h visit (m, []) = Some (tt, (m, l)) /\ list_for_each_prev fst fuel h visit (m, []) = Some (tt, (m, rev l)).
Proof.
  intros [[Hh Hnd]%NoDup_cons Hs] Hf. pose proof (dseg_rev _ _ _ _ _ Hs) as Hr.
  destruct (dseg_first _ _ _ _ _ Hs) as (q & _ & Hq & _). destruct (dseg_first _ _ _ _ _ Hr) as (p & _ & Hp & _).
  unfold list_for_each, list_for_each_prev, in_store. cbn [fst]. rewrite e_next_var, e_prev_var, Hq, Hp. split.
  - by rewrite (for_each_dseg e_next (nx m) (pv m) m h l) with (x := h).
  - rewrite (for_each_dseg e_prev (pv m) (nx m) m h (rev l)) with (x := h); [done|done| |done|by rewrite length_rev|done].
    by rewrite elem_of_reverse_rev.
Qed.

(** ** Deleting while walking *)

(** The body: an entry is recorded, and deleted when [p] holds of it. *)
Definition prune (p : Z -> bool) (offset pos : Z) : ST (lstore * list Z) unit :=
  _ ← modifyS (fun s => (s.1, s.2 ++ [pos]));
  if p pos then zoom fst (fun m s => (m, s.2)) (list_del (var (pos + offset))) else mret tt.

Lemma prune_run p offset m h l1 pos l2 acc : clist m h (l1 ++ pos + offset :: l2) ->
  exists m', prune p offset pos (m, acc) = Some (tt, (m', acc ++ [pos])) /\
    clist m' h (l1 ++ (if p pos then l2 else pos + offset :: l2)) /\ dom m' = dom m.
Proof.
  intros Hc. destruct (clist_del _ _ _ _ _ Hc) as (m' & E & Hc' & _ & D). unfold prune.
  rewrite (bind_run _ _ (m, acc) tt (m, acc ++ [pos])) by done. destruct (p pos); [|by exists m].
  exists m'. unfold zoom. cbn [fst]. by rewrite E.
Qed.

Definition entries (offset : Z) (l : list Z) : list Z := (fun a => a - offset) <$> l.

Lemma next_entry_run m offset pos : list_next_entry pos offset m = (fun a => a - offset) <$> nx m (pos + offset).
Proof. unfold list_next_entry, list_entry. rewrite e_next_var. by destruct (nx m (pos + offset)). Qed.

(** The member behind a place of the list. *)
Lemma clist_next m h l1 x l2 : clist m h (l1 ++ x :: l2) -> exists q, nx m x = Some q /\ head (l2 ++ [h]) = Some q.
Proof. intros Hc. destruct (clist_around _ _ _ _ _ Hc) as (p & q & _ & Hq & _ & [Hn _] & _). by exists q. Qed.
Lemma clist_head m h l : clist m h l -> exists q, nx m h = Some q /\ head (l ++ [h]) = Some q.
Proof. intros [_ Hs]. destruct (dseg_first _ _ _ _ _ Hs) as (q & Hq & Hn & _). by exists q. Qed.

Lemma prune_loop p offset h l2 : forall m l1 fuel acc pos n, clist m h (l1 ++ l2) -> (length l2 < fuel)%nat ->
  head (l2 ++ [h]) = Some (pos + offset) -> (l2 <> [] -> head (tail l2 ++ [h]) = Some (n + offset)) ->
  exists m', for_each_entry_safe fst (fun q => list_next_entry q offset) offset fuel pos n h (prune p offset) (m, acc) =
      Some (tt, (m', acc ++ entries offset l2)) /\
    clist m' h (l1 ++ filter (fun a => p (a - offset) = false) l2).
Proof.
  induction l2 as [|x l2 IH]; intros m l1 [|fuel] acc pos n Hc Hf Hpos Hn; try (cbn in Hf; lia); cbn [for_each_entry_safe].
  { injection Hpos as Hpos. rewrite (proj2 (Z.eqb_eq _ _) (eq_sym Hpos)). exists m. cbn. by rewrite app_nil_r. }
  injection Hpos as ->. specialize (Hn ltac:(done)). cbn [tail] in Hn.
  pose proof Hc as [Hnd _]. rewrite (proj2 (Z.eqb_neq (pos + offset) h)) by (apply NoDup_cons in Hnd as [Hh _]; set_solver).
  destruct (prune_run p offset m h l1 pos l2 acc Hc) as (m1 & E & Hc1 & D). rewrite (bind_run _ _ _ _ _ E). clear E Hnd.
  unfold in_store. cbn [fst]. rewrite next_entry_run.
  assert (Hc2 : exists l1', clist m1 h (l1' ++ l2) /\ l1 ++ filter (fun a => p (a - offset) = false) (pos + offset :: l2) = l1' ++ filter (fun a => p (a - offset) = false) l2).
  { rewrite filter_cons, Z.add_simpl_r. destruct (p pos); [rewrite decide_False by done; by exists l1|rewrite decide_True by done].
    exists (l1 ++ [pos + offset]). by rewrite <- !app_assoc. }
  destruct Hc2 as (l1' & Hc2 & ->).
  assert (Hq : exists q, nx m1 (n + offset) = Some q /\ (l2 <> [] -> head (tail l2 ++ [h]) = Some q)).
  { destruct l2 as [|y l2]; cbn in Hn; injection Hn as ->.
    - destruct (clist_head _ _ _ Hc2) as (q & Hq & _). by exists q.
    - destruct (clist_next _ _ _ _ _ Hc2) as (q & Hq & Hh). by exists q. }
  destruct Hq as (q & -> & Hq). cbn [fmap option_fmap option_map].
  destruct (IH m1 l1' fuel (acc ++ [pos]) n (q - offset) Hc2 ltac:(cbn in Hf; lia)) as (m' & -> & Hc'); [done|by rewrite Z.sub_simpl_r|].
  exists m'. cbn [entries fmap list_fmap]. rewrite <- app_assoc, Z.add_simpl_r. done.
Qed.

(** C23: The loop that is safe against removal: it visits every entry once, in order, and what
    is left is the list of the entries the body kept. *)
Theorem safe_loop_prunes p m h offset l fuel : clist m h l -> (length l < fuel)%nat ->
  exists m', list_for_each_entry_safe fst fuel h offset (prune p offset) (m, []) = Some (tt, (m', entries offset l)) /\
    clist m' h (filter (fun a => p (a - offset) = false) l).
Proof.
  intros Hc Hf. destruct (clist_head _ _ _ Hc) as (q & Hq & Hh).
  unfold list_for_each_entry_safe, in_store, list_first_entry, list_entry. cbn [fst]. rewrite e_next_var, Hq. cbn [mbind option_bind].
  rewrite next_entry_run, Z.sub_simpl_r.
  assert (Hn : exists n, nx m q = Some n /\ (l <> [] -> head (tail l ++ [h]) = Some n)).
  { destruct l as [|x l]; cbn in Hh; injection Hh as ->; [by exists q|].
    destruct (clist_next m h [] q l Hc) as (n & Hn & Hh). by exists n. }
  destruct Hn as (n & -> & Hn). cbn [fmap option_fmap option_map].
  apply (prune_loop p offset h l m [] fuel [] _ _ Hc Hf); by rewrite Z.sub_simpl_r.
Qed.

(** ** Several lists: an abstract machine *)
Inductive lop := OInit (x : Z) | OAdd (n h : Z) | ODel (x : Z) | ODelInit (x : Z) | OMove (x h : Z) | OReplace (o n : Z).

Definition run_lop (o : lop) : LS unit :=
  match o with
  | OInit x => INIT_LIST_HEAD (var x)
  | OAdd n h => list_add (var n) (var h)
  | ODel x => list_del (var x)
  | ODelInit x => list_del_init (var x)
  | OMove x h => list_move (var x) (var h)
  | OReplace o n => do_list_replace o n
  end.
Fixpoint run_lops (os : list lop) : LS unit :=
  match os with [] => mret tt | o :: os' => _ ← run_lop o; run_lops os' end.

(** The abstract state maps each head to its members; a node has one place. *)
Notation lists := (gmap Z (list Z)).
Definition placed (L : lists) (x : Z) : Prop := exists h l, L !! h = Some l /\ x ∈ h :: l.

Inductive lstep (D : gset Z) (L : lists) : lop -> lists -> Prop :=
  | st_init x : x ∈ D -> ~ placed L x -> lstep D L (OInit x) (<[x := []]> L)
  | st_add n h l : n ∈ D -> ~ placed L n -> L !! h = Some l -> lstep D L (OAdd n h) (<[h := n :: l]> L)
  | st_del h l1 x l2 : L !! h = Some (l1 ++ x :: l2) -> lstep D L (ODel x) (<[h := l1 ++ l2]> L)
  | st_del_init h l1 x l2 : L !! h = Some (l1 ++ x :: l2) -> lstep D L (ODelInit x) (<[x := []]> (<[h := l1 ++ l2]> L))
  | st_move h l1 x l2 k l : L !! h = Some (l1 ++ x :: l2) -> <[h := l1 ++ l2]> L !! k = Some l ->
      lstep D L (OMove x k) (<[k := x :: l]> (<[h := l1 ++ l2]> L))
  | st_replace h l1 o l2 n : L !! h = Some (l1 ++ o :: l2) -> n ∈ D -> ~ placed L n -> lstep D L (OReplace o n) (<[h := l1 ++ n :: l2]> L).

Inductive lsteps (D : gset Z) : lists -> list lop -> lists -> Prop :=
  | lsteps_nil L : lsteps D L [] L
  | lsteps_cons L o L1 os L2 : lstep D L o L1 -> lsteps D L1 os L2 -> lsteps D L (o :: os) L2.

Record lists_ok (D : gset Z) (m : lstore) (L : lists) : Prop := {
  lk_dom : dom m = D;
  lk_clist : forall h l, L !! h = Some l -> clist m h l;
  lk_disj : forall h1 h2 l1 l2 a, L !! h1 = Some l1 -> L !! h2 = Some l2 -> a ∈ h1 :: l1 -> a ∈ h2 :: l2 -> h1 = h2
}.

(** One list changes, within its own nodes and nodes without a place. *)
Lemma lists_ok_update D m m' L h l X :
  lists_ok D m L -> clist m' h l -> kept X m m' -> dom m' = D ->
  (forall a k lk, a ∈ X -> L !! k = Some lk -> a ∈ k :: lk -> k = h) -> (forall a k lk, a ∈ h :: l -> L !! k = Some lk -> a ∈ k :: lk -> k = h) ->
  lists_ok D m' (<[h := l]> L).
Proof.
  intros [Hd Hc Hj] Hcl HX Hd' HXo Ho. split; [done| |].
  - intros k lk. destruct (decide (k = h)) as [->|Hk]; [rewrite lookup_insert_eq; by intros [= <-]|rewrite lookup_insert_ne by done].
    intros Hlk. apply (clist_kept X m); [done| |by apply Hc]. intros a Ha Hin. by apply Hk, (HXo a k lk).
  - intros h1 h2 l1 l2 a H1 H2 Ha1 Ha2.
    destruct (decide (h1 = h)) as [->|Hn1]; [rewrite lookup_insert_eq in H1; injection H1 as <-|rewrite lookup_insert_ne in H1 by done];
    (destruct (decide (h2 = h)) as [->|Hn2]; [rewrite lookup_insert_eq in H2; injection H2 as <-|rewrite lookup_insert_ne in H2 by done]).
    + done.
    + symmetry. by apply (Ho a h2 l2).
    + by apply (Ho a h1 l1).
    + by apply (Hj h1 h2 l1 l2 a).
Qed.

Lemma lists_ok_less D m m' L h l l' :
  lists_ok D m L -> L !! h = Some l -> clist m' h l' -> (forall a, a ∈ l' -> a ∈ l) -> kept (h :: l) m m' -> dom m' = dom m ->
  lists_ok D m' (<[h := l']> L).
Proof.
  intros Hok Hl Hc Hsub Hk Hd. pose proof Hok as [Hd0 _ Hj].
  eapply lists_ok_update; [done..|congruence| |]; intros a k lk Ha Hlk Hin; apply (Hj k h lk l a Hlk Hl Hin); set_solver.
Qed.

Lemma lists_ok_more D m m' L h l l' n :
  lists_ok D m L -> L !! h = Some l -> ~ placed L n -> clist m' h l' -> (forall a, a ∈ l' -> a = n \/ a ∈ h :: l) ->
  kept (n :: h :: l) m m' -> dom m' = dom m -> lists_ok D m' (<[h := l']> L).
Proof.
  intros Hok Hl Hf Hc Hsub Hk Hd. pose proof Hok as [Hd0 _ Hj].
  eapply lists_ok_update; [done..|congruence| |]; intros a k lk Ha Hlk Hin;
    (assert (a = n \/ a ∈ h :: l) as [->|Ha'] by set_solver; [exfalso; apply Hf; by exists k, lk|by apply (Hj k h lk l a)]).
Qed.

Lemma lists_ok_fresh D m m' L x :
  lists_ok D m L -> ~ placed L x -> clist m' x [] -> kept [x] m m' -> dom m' = dom m -> lists_ok D m' (<[x := []]> L).
Proof.
  intros Hok Hf Hc Hk Hd. pose proof Hok as [Hd0 _ _].
  eapply lists_ok_update; [done..|congruence| |]; intros a k lk ->%list_elem_of_singleton Hlk Ha; exfalso; apply Hf; by exists k, lk.
Qed.

(** A removed member has no place. *)
Lemma removed_unplaced D m L h l1 x l2 : lists_ok D m L -> L !! h = Some (l1 ++ x :: l2) -> ~ placed (<[h := l1 ++ l2]> L) x.
Proof.
  intros [_ Hc Hj] Hl (k & lk & Hlk & Hin). pose proof (Hc _ _ Hl) as [Hnd _].
  rewrite app_comm_cons in Hnd. apply NoDup_app in Hnd as (_ & Hdj & [Hx2 _]%NoDup_cons).
  destruct (decide (k = h)) as [->|Hkh]; [rewrite lookup_insert_eq in Hlk; injection Hlk as <-|rewrite lookup_insert_ne in Hlk by done].
  - rewrite app_comm_cons in Hin. apply elem_of_app in Hin as [Hin|Hin]; [by apply (Hdj x Hin), list_elem_of_here|done].
  - apply Hkh, (Hj k h lk _ x Hlk Hl Hin). set_solver.
Qed.

Lemma lstep_run D m L o L' : lists_ok D m L -> lstep D L o L' -> exists m', run_lop o m = Some (tt, m') /\ lists_ok D m' L'.
Proof.
  intros Hok Hst. pose proof Hok as [Hd Hc _].
  assert (Hlive : forall x, x ∈ D -> is_Some (m !! x)) by (intros x Hx; apply elem_of_dom; by rewrite Hd).
  destruct Hst as [x Hx Hf|n h l Hn Hf Hl|h l1 x l2 Hl|h l1 x l2 Hl|h l1 x l2 k l Hl Hk|h l1 o l2 n Hl Hn Hf]; cbn [run_lop].
  - destruct (clist_init m x (Hlive x Hx)) as (m' & E & Hc' & Hk & Hd'). exists m'. split; [done|]. by eapply lists_ok_fresh.
  - destruct (clist_add m h l n (Hc _ _ Hl)) as (m' & E & Hc' & Hk & Hd'); [intros Hin; apply Hf; by exists h, l|by apply Hlive|].
    exists m'. split; [done|]. eapply lists_ok_more; [done..|set_solver|done|done].
  - destruct (clist_del m h l1 x l2 (Hc _ _ Hl)) as (m' & E & Hc' & Hk & Hd'). exists m'. split; [done|].
    eapply lists_ok_less; [done..|set_solver|done|done].
  - destruct (clist_del_init m h l1 x l2 (Hc _ _ Hl)) as (m' & E & Hc' & Hcx & Hk & Hd'). exists m'. split; [done|].
    apply (lists_ok_fresh D m'); [|by eapply removed_unplaced|done|done|done].
    eapply lists_ok_less; [done..|set_solver|done|done].
  - destruct (clist_unlink m h l1 x l2 (Hc _ _ Hl)) as (m1 & E1 & Hc1 & Hk1 & Hd1).
    assert (Hok1 : lists_ok D m1 (<[h := l1 ++ l2]> L)) by (eapply lists_ok_less; [done..|set_solver|done|done]).
    pose proof (removed_unplaced D m L h l1 x l2 Hok Hl) as Hf. pose proof Hok1 as [_ Hc2 _].
    destruct (clist_add m1 k l x (Hc2 _ _ Hk)) as (m2 & E2 & Hc' & Hk2 & Hd2).
    { intros Hin. apply Hf. by exists k, l. }
    { eapply same_dom; [exact Hd1|]. apply (clist_live m h _ x (Hc _ _ Hl)). set_solver. }
    exists m2. split; [unfold list_move; by rewrite (bind_run _ _ _ _ _ E1)|].
    eapply lists_ok_more; [done..|set_solver|done|done].
  - destruct (clist_replace m h l1 o n l2 (Hc _ _ Hl)) as (m' & E & Hc' & Hk & Hd'); [intros Hin; apply Hf; by exists h, (l1 ++ o :: l2)|by apply Hlive|].
    exists m'. split; [done|]. eapply lists_ok_more; [done..|set_solver|done|done].
Qed.

(** C22: any sequence of initialisations, insertions, removals, moves and replacements
    that the abstract machine allows runs without a stray access and leaves every ring
    in step with its list: forwards the loop visits the members in order, backwards in
    reverse. *)
Theorem lists_refine D m L os L' :
  lists_ok D m L -> lsteps D L os L' ->
  exists m', run_lops os m = Some (tt, m') /\ lists_ok D m' L' /\
    forall h l fuel, L' !! h = Some l -> (length l < fuel)%nat ->
      list_for_each fst fuel h visit (m', []) = Some (tt, (m', l)) /\
      list_for_each_prev fst fuel h visit (m', []) = Some (tt, (m', rev l)).
Proof.
  intros Hok Hst. revert m Hok. induction Hst as [L|L o L1 os L2 Ho Hst IH]; intros m Hok; cbn [run_lops].
  - exists m. split_and!; [done|done|]. intros h l fuel Hl. apply clist_walks. by apply Hok.
  - destruct (lstep_run D m L o L1 Hok Ho) as (m1 & E & Hok1). destruct (IH m1 Hok1) as (m' & E' & H'). exists m'.
    by rewrite (bind_run _ _ _ _ _ E).
Qed.

(** Four nodes without a place; 1 becomes a head, 2 and 3 its members, 3 moves to the
    list 4 and comes back in front. *)
Definition nodes4 : lstore := list_to_map ((fun a => (a, mkLH 0 0)) <$> [1; 2; 3; 4]).
Lemma lists_refine_witness :
  exists m', run_lops [OInit 1; OInit 4; OAdd 2 1; OAdd 3 1; OMove 3 4; OMove 2 4; ODel 3] nodes4 = Some (tt, m') /\
    list_for_each fst 5 4 visit (m', []) = Some (tt, (m', [2])) /\ list_for_each fst 5 1 visit (m', []) = Some (tt, (m', [])).
Proof.
  destruct (lists_refine (dom nodes4) nodes4 ∅ [OInit 1; OInit 4; OAdd 2 1; OAdd 3 1; OMove 3 4; OMove 2 4; ODel 3]
    (<[4 := [2]]> (<[4 := [2; 3]]> (<[1 := []]> (<[4 := [3]]> (<[1 := [2]]> (<[1 := [3; 2]]> (<[1 := [2]]> (<[4 := []]> (<[1 := []]> ∅))))))))))
    as (m' & E & _ & Hw).
  - split; [done|intros h l Hl; by rewrite lookup_empty in Hl|intros h1 h2 l1 l2 a Hl; by rewrite lookup_empty in Hl].
  - assert (Hp : forall L x, (forall h l, L !! h = Some l -> x ∉ h :: l) -> ~ placed L x) by (intros L x H (h & l & Hl & Hin); by apply (H h l)).
    assert (H0 : forall x, ~ placed ∅ x) by (intros x (h & l & Hl & _); by rewrite lookup_empty in Hl).
    assert (Hi : forall L h l x, ~ placed L x -> x ∉ h :: l -> ~ placed (<[h := l]> L) x).
    { intros L h l x HL Hx (k & lk & Hk & Hin). destruct (decide (k = h)) as [->|]; [rewrite lookup_insert_eq in Hk; by injection Hk as <-|].
      rewrite lookup_insert_ne in Hk by done. apply HL. by exists k, lk. }
    eapply lsteps_cons; [apply st_init; [by vm_compute|apply H0]|].
    eapply lsteps_cons; [apply st_init; [by vm_compute|repeat (apply Hi; [|set_solver]); apply H0]|].
    eapply lsteps_cons; [eapply (st_add _ _ 2 1); [by vm_compute|repeat (apply Hi; [|set_solver]); apply H0|done]|].
    eapply lsteps_cons; [eapply (st_add _ _ 3 1); [by vm_compute|repeat (apply Hi; [|set_solver]); apply H0|done]|].
    eapply lsteps_cons; [eapply (st_move _ _ 1 [] 3 [2] 4 []); done|].
    eapply lsteps_cons; [eapply (st_move _ _ 1 [] 2 [] 4 [3]); done|].
    eapply lsteps_cons; [eapply (st_del _ _ 4 [2] 3 []); done|]. apply lsteps_nil.
  - exists m'. split; [done|]. split; apply Hw; done || (cbn; lia).
Defined.

(** ** The macros that evaluate an argument after changing it *)

Lemma list_add_tail_run m h n : is_Some (m !! h) -> is_Some (m !! n) -> n <> h ->
  exists m', list_add_tail (var n) (var h) m = Some (tt, m') /\
    (forall b, nx m' b = upd_at (nx m) n n b) /\ (forall b, pv m' b = upd_at (upd_at (pv m) h n) n n b) /\ dom m' = dom m.
Proof.
  intros Hh Hn Hnh. unfold list_add_tail, __list_add.
  assign; [done|done|done|]. assign; [done|done|alive|]. assign; [done|look|alive|].
  assign; [look|done|alive|]. split_and!; [intros b; look|intros b; look|congruence].
Qed.

Lemma for_each_self n h : n <> h -> forall fuel m acc, pv m n = Some n -> for_each fst e_prev fuel n h visit (m, acc) = None.
Proof.
  intros Hnh. induction fuel as [|fuel IH]; intros m acc Hn; [done|]. cbn [for_each]. rewrite (proj2 (Z.eqb_neq n h)) by done.
  rewrite (bind_run (visit n) _ (m, acc) tt (m, acc ++ [n])) by done. unfold in_store. cbn [fst]. rewrite e_prev_var, Hn. by apply IH.
Qed.

(** [list_add_tail] does not add to the tail.  The argument [(head)->prev] is
    evaluated again after head->prev has become the new node: the node is linked to
    itself, the loop forwards visits the old members only, and the loop backwards never
    ends. *)
Theorem list_add_tail_loses m h l n :
  clist m h l -> n ∉ h :: l -> is_Some (m !! n) ->
  exists m', list_add_tail (var n) (var h) m = Some (tt, m') /\
    (forall fuel, (length l < fuel)%nat -> list_for_each fst fuel h visit (m', []) = Some (tt, (m', l))) /\
    (forall fuel, list_for_each_prev fst fuel h visit (m', []) = None).
Proof.
  intros Hc Hn Hdn. pose proof Hc as [[Hh _]%NoDup_cons Hs].
  destruct (list_add_tail_run m h n) as (m' & E & N & P & _); [by eapply clist_live, list_elem_of_here|done|set_solver|].
  exists m'. split; [done|]. assert (HN : forall a, a ∈ h :: l -> nx m' a = nx m a).
  { intros a Ha. rewrite N. unfold upd_at. rewrite decide_False by set_solver. done. }
  destruct (dseg_first _ _ _ _ _ Hs) as (q & _ & Hq & _). split.
  - intros fuel Hf. unfold list_for_each, in_store. cbn [fst]. rewrite e_next_var, HN, Hq by set_solver.
    apply (for_each_dseg e_next (nx m') (pv m) m' h l) with (x := h); [done|done| |done|by rewrite HN by set_solver].
    by apply (dseg_frame (nx m) (pv m)).
  - intros fuel. unfold list_for_each_prev, in_store. cbn [fst]. rewrite e_prev_var, P. unfold upd_at.
    rewrite decide_False by set_solver. rewrite decide_True by done. apply for_each_self; [set_solver|].
    rewrite P. unfold upd_at. by rewrite decide_True.
Qed.

Lemma list_add_tail_loses_witness :
  exists m', list_add_tail (var 2) (var 1) (<[1 := mkLH 3 3]> (<[3 := mkLH 1 1]> nodes4)) = Some (tt, m') /\
    list_for_each fst 5 1 visit (m', []) = Some (tt, (m', [3])) /\ list_for_each_prev fst 5 1 visit (m', []) = None.
Proof.
  destruct (list_add_tail_loses (<[1 := mkLH 3 3]> (<[3 := mkLH 1 1]> nodes4)) 1 [3] 2) as (m' & E & H1 & H2).
  - split; [repeat (apply NoDup_cons; split); [set_solver|set_solver|apply NoDup_nil_2]|]. cbn [dseg]. repeat split; reflexivity.
  - set_solver.
  - eexists. reflexivity.
  - exists m'. split_and!; [done|apply H1; cbn; lia|apply H2].
Defined.

(** Three entries behind the head 10, the one in the middle is deleted. *)
Definition three : lstore := list_to_map [(10, mkLH 22 42); (22, mkLH 32 10); (32, mkLH 42 22); (42, mkLH 10 32)].
Lemma three_clist : clist three 10 [22; 32; 42].
Proof. split; [by apply (bool_decide_unpack _)|]. repeat split. Qed.
Lemma safe_loop_prunes_witness :
  exists m', list_for_each_entry_safe fst 4 10 2 (prune (Z.eqb 30) 2) (three, []) = Some (tt, (m', [20; 30; 40])) /\ clist m' 10 [22; 42].
Proof. exact (safe_loop_prunes (Z.eqb 30) three 10 2 [22; 32; 42] 4 three_clist ltac:(cbn; lia)). Defined.
