(* ===== verification/Snake.v ===== *)
(** * user/snake/snake.c: the board of the game

    Points are structures with a [list_head] at offset 2; the snake and the foods are
    two circular lists of them ([List]).  [malloc] is what the game relies on of the
    user heap: it yields a point that is not in use.  The text sent to the terminal is
    collected in [out]. *)
From Stdlib Require Import Ascii String.
From S2P Require Import Prelude Linked List.
#[local] Open Scope list_scope.

Definition NUM_COLS : Z := 100.
Definition NUM_ROWS : Z := 31.
Definition INITIAL_SNAKE_LEN : nat := 3.
Definition INITAL_FOOD_NUM : nat := 10.
Definition SNAKE_CHAR : Z := 120.
Definition FOOD_CHAR : Z := 111.
Definition SUCCESS : Z := 0.
Definition FAIL_LEFT : Z := -2.
Definition FAIL_RIGHT : Z := -3.
Definition FAIL_DOWN : Z := -4.
Definition FAIL_UP : Z := -5.
Definition FAIL_EAT_SELF : Z := -6.
Definition RAND_MAX : Z := 32767.

(** offsetof(struct point, list) *)
Definition LIST_OFF : Z := 2.

Inductive direction := left | up | right | down.
#[export] Instance direction_eq : EqDecision direction.
Proof. solve_decision. Defined.

(** The addresses of board.snake and board.foods. *)
Definition SNAKE : Z := 16.
Definition FOODS : Z := 18.

Record game := mkGame {
  store : lstore;
  points : gmap Z (Z * Z);
  dir : direction;
  seed : Z;
  out : list Z
}.
#[export] Instance eta_game : Settable game := mkEta (fun g => mkGame (store g) (points g) (dir g) (seed g) (out g)).
Notation G := (ST game).

Definition on_store {A} : LS A -> G A := zoom store (fun l g => g <| store := l |>).
Definition emit (t : list Z) : G unit := modifyS (fun g => g <| out ::= fun o => o ++ t |>).

(** ** lib/ansi/rand.c *)
Definition srand (s : Z) : G unit := modifyS (fun g => g <| seed := s |>).
Definition rand : G Z :=
  _ ← modifyS (fun g => g <| seed ::= fun next => u32 (next * 1103515245 + 12345) |>);
  g ← getS; mret (u32 (seed g `div` (2 * (RAND_MAX + 1)) `mod` (RAND_MAX + 1))).

(** ** Drawing *)
Fixpoint int2str_loop (fuel : nat) (value i : Z) : list Z :=
  match fuel with
  | O => []
  | S n => if i =? 0 then [] else 48 + Z.rem (Z.quot value i) 10 :: int2str_loop n value (Z.quot i 10)
  end.
(** [i] has at most three digits in all calls. *)
Definition int2str (value i : Z) : list Z := int2str_loop 4 value i.

(** ESC [ yyy ; xxx H, and the character. *)
Definition draw_coordinate (x y character : Z) : G unit :=
  emit ([27; 91] ++ int2str y 100 ++ [59] ++ int2str x 100 ++ [72; character]).

Definition get_point (p : Z) : G (Z * Z) := g ← getS; liftO (points g !! p).
Definition draw_point (p c : Z) : G unit := q ← get_point p; draw_coordinate (fst q) (snd q) c.
Definition clear_point (p : Z) : G unit := draw_point p 32.
Definition clear_screen : G unit := emit [27; 91; 50; 74].
Definition print_to_central_screen (y : Z) (str : list Z) : G unit :=
  let x := Z.quot NUM_COLS 2 - Z.quot (alen str) 2 - 1 in
  _ ← draw_coordinate x y 32; emit str.

Definition text (s : string) : list Z := (fun c => Z.of_nat (nat_of_ascii c)) <$> list_ascii_of_string s.
Definition print_instruction : G unit :=
  let y := Z.quot NUM_ROWS 2 in
  _ ← print_to_central_screen y (text "Use WASD to move");
  _ ← print_to_central_screen (y + 1) (text "Press SPACE to start");
  print_to_central_screen (y + 2) (text "Press q to exit").

Fixpoint draw_column (n : nat) (x i : Z) : G unit :=
  match n with
  | O => mret tt
  | S n' => _ ← draw_coordinate x i 124; draw_column n' x (i + 1)
  end.
Definition print_border : G unit :=
  let buffer := replicate (Z.to_nat (NUM_COLS - 2)) 45 in
  _ ← draw_coordinate 0 0 45; _ ← emit buffer;
  _ ← draw_coordinate 0 NUM_ROWS 45; _ ← emit buffer;
  _ ← draw_column (Z.to_nat (NUM_ROWS - 1)) 0 1;
  draw_column (Z.to_nat (NUM_ROWS - 1)) (NUM_COLS - 1) 1.

(** The direction of a key; [None] is exit(0). *)
Definition get_direction (dir : direction) (input : list Z) : option direction :=
  match last input with
  | None => Some dir
  | Some c =>
      if c =? 119 then Some (if decide (dir = down) then down else up)
      else if c =? 97 then Some (if decide (dir = right) then right else left)
      else if c =? 115 then Some (if decide (dir = up) then up else down)
      else if c =? 100 then Some (if decide (dir = left) then left else right)
      else if c =? 113 then None
      else Some dir
  end.

(** ** The board *)

(** The loop of [list_for_each_entry] with the return from within. *)
Fixpoint find_point (fuel : nat) (p head x y : Z) : G (option Z) :=
  match fuel with
  | O => crash
  | S n =>
      if p + LIST_OFF =? head then mret None
      else
        q ← get_point p;
        if (fst q =? x) && (snd q =? y) then mret (Some p)
        else in_store store (list_next_entry p LIST_OFF) (fun p' => find_point n p' head x y)
  end.
Definition get_point_at_coordinate (head x y : Z) : G (option Z) :=
  g ← getS;
  in_store store (list_first_entry (var head) LIST_OFF) (fun p => find_point (S (size (points g))) p head x y).

Definition reset_board : G unit :=
  _ ← on_store (INIT_LIST_HEAD (var SNAKE));
  _ ← on_store (INIT_LIST_HEAD (var FOODS));
  modifyS (fun g => g <| dir := right |>).

Section game.
(** [malloc(sizeof(struct point))]: an address, and what its [list_head] holds. *)
Context (malloc : gmap Z (Z * Z) -> option (Z * list_head)).

Definition new_point (x y : Z) : G Z :=
  g ← getS;
  a ← liftO (malloc (points g));
  let '(po, lh) := (a : Z * list_head) in
  _ ← modifyS (fun g => g <| points ::= <[po := (x, y)]> |> <| store ::= <[po + LIST_OFF := lh]> |>);
  mret po.

Definition new_food : G Z :=
  a ← rand;
  b ← rand;
  new_point (Z.rem a (NUM_COLS - 2) + 1) (Z.rem b (NUM_ROWS - 1) + 1).

Fixpoint init_foods (n : nat) : G unit :=
  match n with
  | O => mret tt
  | S n' =>
      p ← new_food;
      _ ← on_store (list_add (var (p + LIST_OFF)) (var FOODS));
      _ ← draw_point p FOOD_CHAR;
      init_foods n'
  end.

Fixpoint init_snake (n : nat) (i : Z) : G unit :=
  match n with
  | O => mret tt
  | S n' =>
      p ← new_point i 1;
      _ ← on_store (list_add (var (p + LIST_OFF)) (var SNAKE));
      _ ← draw_point p SNAKE_CHAR;
      init_snake n' (i + 1)
  end.

Definition init_snake_food : G unit := _ ← init_foods INITAL_FOOD_NUM; init_snake INITIAL_SNAKE_LEN 1.

(** The switch of [refresh]: the next place, or the result. *)
Definition next_place (dir : direction) (x y : Z) : Z + (Z * Z) :=
  match dir with
  | left => if x =? 1 then inl FAIL_LEFT else inr (x - 1, y)
  | up => if y =? 1 then inl FAIL_UP else inr (x, y - 1)
  | right => if x >=? NUM_COLS - 2 then inl FAIL_RIGHT else inr (x + 1, y)
  | down => if y >=? NUM_ROWS - 1 then inl FAIL_DOWN else inr (x, y + 1)
  end.

(** The end of [refresh]: the point [pos] becomes the head at (x, y). *)
Definition advance_head (pos x y : Z) : G Z :=
  _ ← on_store (list_del (var (pos + LIST_OFF)));
  _ ← modifyS (fun g => g <| points ::= <[pos := (x, y)]> |>);
  _ ← on_store (list_add (var (pos + LIST_OFF)) (var SNAKE));
  _ ← draw_point pos SNAKE_CHAR;
  mret SUCCESS.

Definition refresh : G Z :=
  g ← getS;
  in_store store (list_first_entry (var SNAKE) LIST_OFF) (fun head =>
    q ← get_point head;
    match next_place (dir g) (fst q) (snd q) with
    | inl r => mret r
    | inr (x, y) =>
        pos ← get_point_at_coordinate FOODS x y;
        match pos : option Z with
        | None =>
            pos ← get_point_at_coordinate SNAKE x y;
            match pos : option Z with
            | Some _ => mret FAIL_EAT_SELF
            | None =>
                in_store store (list_last_entry (var SNAKE) LIST_OFF) (fun pos =>
                  _ ← clear_point pos;
                  advance_head pos x y)
            end
        | Some pos =>
            newpos ← new_food;
            _ ← on_store (list_add (var (newpos + LIST_OFF)) (var FOODS));
            _ ← draw_point newpos FOOD_CHAR;
            advance_head pos x y
        end
    end).

(** One round of the inner loop of main; [inl tt] is exit(0). *)
Definition tick (input : list Z) : G (unit + Z) :=
  g ← getS;
  match get_direction (dir g) input with
  | None => _ ← clear_screen; mret (inl ())
  | Some d => _ ← modifyS (fun g => g <| dir := d |>); r ← refresh; mret (inr r)
  end.

(** The inner loop over what the keyboard yields: [None] when the game goes on. *)
Fixpoint play (inputs : list (list Z)) : G (option (unit + Z)) :=
  match inputs with
  | [] => mret None
  | input :: inputs' =>
      r ← tick input;
      match r : unit + Z with
      | inl u => mret (Some (inl u))
      | inr ret =>
          if ret =? 0 then play inputs'
          else
            _ ← print_to_central_screen (Z.quot NUM_ROWS 2 - 1) (text "You lost :(");
            _ ← print_instruction;
            mret (Some (inr ret))
      end
  end.

(** A game of main: the board is set up and played. *)
Definition new_game (inputs : list (list Z)) : G (option (unit + Z)) :=
  _ ← reset_board;
  _ ← clear_screen;
  _ ← print_border;
  _ ← init_snake_food;
  play inputs.
End game.

(** ** What the board shows *)
Definition node (p : Z) : Z := p + LIST_OFF.
Definition nodes (l : list Z) : list Z := node <$> l.

(** The two lists of the board. *)
Definition two (B F : list Z) : lists := <[SNAKE := B]> {[FOODS := F]}.

Lemma two_snake B F : two B F !! SNAKE = Some B.
Proof. apply lookup_insert_eq. Qed.

Lemma two_foods B F : two B F !! FOODS = Some F.
Proof. unfold two. rewrite lookup_insert_ne by done. apply lookup_singleton_eq. Qed.

Lemma two_set_snake B F B' : <[SNAKE := B']> (two B F) = two B' F.
Proof. apply insert_insert_eq. Qed.

Lemma two_set_foods B F F' : <[FOODS := F']> (two B F) = two B F'.
Proof. unfold two. rewrite insert_insert_ne by done. by f_equal. Qed.

Lemma two_placed B F x : placed (two B F) x -> x = SNAKE \/ x ∈ B \/ x = FOODS \/ x ∈ F.
Proof.
  intros (h & l & Hl & Hx). unfold two in Hl. apply lookup_insert_Some in Hl as [[<- <-]|[_ Hl]]; [set_solver|].
  apply lookup_singleton_Some in Hl as [<- <-]. set_solver.
Qed.

(** [g] has a snake of points [body] and foods [food] at the places [B] and [F]. *)
Record board (g : game) (body food : list Z) (B F : list (Z * Z)) : Prop := {
  bd_lists : lists_ok (dom (store g)) (store g) (two (nodes body) (nodes food));
  bd_body : Forall2 (fun p q => points g !! p = Some q) body B;
  bd_food : Forall2 (fun p q => points g !! p = Some q) food F
}.

(** The board has 98 columns and 30 rows within its borders. *)
Definition in_board (q : Z * Z) : Prop := 1 <= fst q <= 98 /\ 1 <= snd q <= 30.

(** The place of the next food. *)
Definition next_seed (s : Z) : Z := (s * 1103515245 + 12345) `mod` 4294967296.
Definition rand_of (s : Z) : Z := s `div` 65536 `mod` 32768.
Definition food_place (s : Z) : Z * Z :=
  (rand_of (next_seed s) mod 98 + 1, rand_of (next_seed (next_seed s)) mod 30 + 1).

Fixpoint remove_first (q : Z * Z) (F : list (Z * Z)) : option (list (Z * Z)) :=
  match F with
  | [] => None
  | c :: F' => if decide (c = q) then Some F' else F'' ← remove_first q F'; Some (c :: F'')
  end.

(** The rules of the game over places. *)
Record rules := mkRules { r_dir : direction; r_seed : Z; r_body : list (Z * Z); r_food : list (Z * Z) }.

(** One step in a direction; rows count downwards. *)
Definition step_to (d : direction) (q : Z * Z) : Z * Z :=
  match d with left => (fst q - 1, snd q) | right => (fst q + 1, snd q) | up => (fst q, snd q - 1) | down => (fst q, snd q + 1) end.

(** The result of running into the wall on a side, and into oneself. *)
Definition hits (d : direction) : Z := match d with left => -2 | right => -3 | down => -4 | up => -5 end.
Definition bites : Z := -6.

#[export] Instance in_board_dec q : Decision (in_board q).
Proof. unfold in_board. apply _. Defined.

Definition spec_refresh (r : rules) : Z * rules :=
  match r_body r with
  | [] => (0, r)
  | h :: _ =>
      let q := step_to (r_dir r) h in
      if decide (in_board q) then
        match remove_first q (r_food r) with
        | Some F' => (0, mkRules (r_dir r) (next_seed (next_seed (r_seed r))) (q :: r_body r) (food_place (r_seed r) :: F'))
        | None =>
            if decide (q ∈ r_body r) then (bites, r)
            else (0, mkRules (r_dir r) (r_seed r) (q :: removelast (r_body r)) (r_food r))
        end
      else (hits (r_dir r), r)
  end.

(** The direction a key asks for; one cannot turn back. *)
Definition asks (c : Z) : option direction :=
  if decide (text "w" = [c]) then Some up
  else if decide (text "a" = [c]) then Some left
  else if decide (text "s" = [c]) then Some down
  else if decide (text "d" = [c]) then Some right
  else None.
Definition opposite (d : direction) : direction :=
  match d with left => right | right => left | up => down | down => up end.
(** The last key counts, and q leaves the game. *)
Definition steer (d : direction) (input : list Z) : option direction :=
  match last input with
  | None => Some d
  | Some c =>
      if decide (text "q" = [c]) then None
      else match asks c with
           | Some n => Some (if decide (n = opposite d) then d else n)
           | None => Some d
           end
  end.

Definition rules_ok (r : rules) : Prop := Forall in_board (r_body r) /\ Forall in_board (r_food r).

Lemma food_place_in s : in_board (food_place s).
Proof.
  unfold in_board, food_place. cbn [fst snd].
  pose proof (Z.mod_pos_bound (rand_of (next_seed s)) 98 eq_refl). pose proof (Z.mod_pos_bound (rand_of (next_seed (next_seed s))) 30 eq_refl). lia.
Qed.

(** ** The rules and the code *)
Lemma rand_rule s : u32 (s `div` (2 * (RAND_MAX + 1)) `mod` (RAND_MAX + 1)) = rand_of s.
Proof.
  change (2 * (RAND_MAX + 1)) with 65536. change (RAND_MAX + 1) with 32768. apply u32_id.
  unfold is_u32, UINT_MOD, rand_of. pose proof (Z.mod_pos_bound (s `div` 65536) 32768 eq_refl). lia.
Qed.

Lemma rand_run g : rand g = Some (rand_of (next_seed (seed g)), g <| seed := next_seed (seed g) |>).
Proof. unfold rand. rewrite <- rand_rule. done. Qed.

Lemma food_rule s :
  (Z.rem (rand_of (next_seed s)) (NUM_COLS - 2) + 1, Z.rem (rand_of (next_seed (next_seed s))) (NUM_ROWS - 1) + 1) = food_place s.
Proof.
  assert (H : forall t, 0 <= rand_of t) by (intros t; apply Z.mod_pos_bound; lia).
  unfold food_place. by rewrite !Z.rem_mod_nonneg by (done || apply H).
Qed.

Lemma next_place_rule d x y : in_board (x, y) ->
  next_place d x y = if decide (in_board (step_to d (x, y))) then inr (step_to d (x, y)) else inl (hits d).
Proof.
  unfold in_board, next_place, NUM_COLS, NUM_ROWS. cbn [fst snd]. intros H.
  destruct d; cbn [step_to fst snd hits]; rewrite ?Z.geb_leb;
    match goal with |- (if ?b then _ else _) = _ => destruct b eqn:E end; rewrite ?Z.eqb_eq, ?Z.eqb_neq, ?Z.leb_le, ?Z.leb_gt in E;
    (rewrite decide_False by lia; reflexivity) || (rewrite decide_True by lia; reflexivity).
Qed.

Lemma get_direction_rule d input : get_direction d input = steer d input.
Proof.
  unfold get_direction, steer, asks. destruct (last input) as [c|]; [|done].
  change (text "w") with [119]. change (text "a") with [97]. change (text "s") with [115].
  change (text "d") with [100]. change (text "q") with [113].
  assert (H : forall k, (c =? k) = bool_decide ([k] = [c])).
  { intros k. destruct (Z.eqb_spec c k) as [->|Hne]; symmetry; [by apply bool_decide_eq_true|]. apply bool_decide_eq_false. congruence. }
  rewrite !H. repeat (case_bool_decide || case_decide); simplify_eq; try done; by destruct d.
Qed.

(** ** Reading the lists *)
Lemma nodes_app l1 l2 : nodes (l1 ++ l2) = nodes l1 ++ nodes l2.
Proof. apply fmap_app. Qed.

Lemma in_nodes p l : node p ∈ nodes l <-> p ∈ l.
Proof.
  unfold nodes. rewrite list_elem_of_fmap. split; [|by exists p].
  intros (q & Hq & Hin). unfold node in Hq. by replace p with q by lia.
Qed.

Lemma on_store_run {A} (c : LS A) g a m' : c (store g) = Some (a, m') -> on_store c g = Some (a, g <| store := m' |>).
Proof. intros H. unfold on_store, zoom. by rewrite H. Qed.

Lemma draw_point_run p c g q : points g !! p = Some q -> exists o, draw_point p c g = Some (tt, g <| out := o |>).
Proof.
  intros H. unfold draw_point, get_point. rewrite (bind_run _ _ g q g) by (rewrite (bind_run _ _ g g g) by done; by rewrite H).
  unfold draw_coordinate, emit, modifyS. eexists. reflexivity.
Qed.

Fixpoint pos_find (l : list Z) (P : list (Z * Z)) (q : Z * Z) : option Z :=
  match l, P with
  | p :: l', c :: P' => if decide (c = q) then Some p else pos_find l' P' q
  | _, _ => None
  end.

Lemma find_point_run g N P h x y l : N = nx (store g) -> h ∉ nodes l -> forall Q a fuel p,
  Forall2 (fun p q => points g !! p = Some q) l Q -> dseg N P a (nodes l) h -> N a = Some (node p) -> (length l < fuel)%nat ->
  find_point fuel p h x y g = Some (pos_find l Q (x, y), g).
Proof.
  intros HN Hh Q a fuel p HF. revert a fuel p Hh. induction HF as [|p' q l Q Hp HF IH]; intros a [|fuel] p Hh Hs Ha Hf; try (cbn in Hf; lia);
    cbn [find_point dseg nodes fmap list_fmap pos_find] in *.
  - destruct Hs as [Hs _]. rewrite Hs in Ha. injection Ha as ->. unfold node. by rewrite Z.eqb_refl.
  - destruct Hs as [[H1 H2] Hs]. rewrite H1 in Ha. injection Ha as Ha. unfold node in Ha. assert (p = p') as -> by lia.
    change (p' + LIST_OFF) with (node p'). rewrite (proj2 (Z.eqb_neq (node p') h)) by set_solver.
    rewrite (bind_run _ _ g q g) by (unfold get_point; rewrite (bind_run _ _ g g g) by done; by rewrite Hp).
    destruct q as [cx cy]. cbn [fst snd]. case_decide as E.
    + injection E as -> ->. by rewrite !Z.eqb_refl.
    + destruct ((cx =? x) && (cy =? y)) eqn:E'; [apply andb_true_iff in E' as [->%Z.eqb_eq ->%Z.eqb_eq]; done|].
      unfold in_store, list_next_entry. change (p' + LIST_OFF) with (node p'). rewrite e_next_var.
      destruct (dseg_first _ _ _ _ _ Hs) as (n & _ & Hn & _). rewrite <- HN, Hn. cbn [mbind option_bind].
      apply (IH (node p')); [set_solver|done| |cbn in Hf; lia]. rewrite Hn. f_equal. unfold node, list_entry. lia.
Qed.

Lemma pos_find_Some l Q q p : Forall2 (fun _ _ => True) l Q -> pos_find l Q q = Some p ->
  exists l1 l2 Q1 Q2, l = l1 ++ p :: l2 /\ Q = Q1 ++ q :: Q2 /\ length l1 = length Q1 /\ remove_first q Q = Some (Q1 ++ Q2).
Proof.
  induction 1 as [|a c l Q _ HF IH]; [done|]. cbn [pos_find remove_first]. case_decide as E.
  - intros [= ->]. subst c. exists [], l, [], Q. by split_and!.
  - intros H. destruct (IH H) as (l1 & l2 & Q1 & Q2 & -> & -> & Hlen & Hr). exists (a :: l1), l2, (c :: Q1), Q2.
    split_and!; [done|done|cbn; lia|]. by rewrite Hr.
Qed.

Lemma pos_find_None l Q q : length l = length Q -> pos_find l Q q = None -> q ∉ Q /\ remove_first q Q = None.
Proof.
  revert Q. induction l as [|a l IH]; intros [|c Q]; cbn; try lia; [intros _ _; split; [set_solver|done]|].
  intros Hl. case_decide as E; [done|]. intros H. destruct (IH Q ltac:(lia) H) as [H1 H2]. split; [set_solver|]. by rewrite H2.
Qed.

Lemma bind_assoc_run {S A B C} (m : ST S A) (f : A -> ST S B) (k : B -> ST S C) s b s' :
  (m ≫= f) s = Some (b, s') -> (m ≫= (fun a => f a ≫= k)) s = k b s'.
Proof. unfold mbind, st_bind. destruct (m s) as [[a s1]|]; [|done]. by intros ->. Qed.

Lemma Forall2_true {A B} (R : A -> B -> Prop) l k : Forall2 R l k -> Forall2 (fun _ _ => True) l k.
Proof. intros H. by eapply Forall2_impl. Qed.

Lemma nodes_NoDup l : NoDup (nodes l) -> NoDup l.
Proof. apply NoDup_fmap_1. Qed.

(** The ring of one of the two lists. *)
Lemma find_run g h l Q x y : clist (store g) h (nodes l) -> Forall2 (fun p q => points g !! p = Some q) l Q ->
  get_point_at_coordinate h x y g = Some (pos_find l Q (x, y), g).
Proof.
  intros [[Hh Hnd]%NoDup_cons Hs] HF. unfold get_point_at_coordinate. rewrite (bind_run _ _ g g g) by done.
  destruct (dseg_first _ _ _ _ _ Hs) as (n & _ & Hn & _).
  unfold in_store, list_first_entry. rewrite e_next_var, Hn. cbn [mbind option_bind].
  eapply find_point_run; [reflexivity|done|done|exact Hs|rewrite Hn; f_equal; unfold node, list_entry; lia|].
  apply Nat.lt_succ_r, NoDup_length_size; [by apply nodes_NoDup|]. intros p Hp.
  apply list_elem_of_lookup in Hp as [i Hi]. destruct (Forall2_lookup_l _ _ _ _ _ HF Hi) as (q & _ & Hq). eauto.
Qed.

Lemma lists_ok_dom D m L : lists_ok D m L -> lists_ok (dom m) m L.
Proof. intros [Hd H1 H2]. by split. Qed.

Lemma advance_head_run g L h l1 pos l2 lb x y D :
  lists_ok D (store g) L -> L !! h = Some (l1 ++ node pos :: l2) -> <[h := l1 ++ l2]> L !! SNAKE = Some lb ->
  exists st o, advance_head pos x y g =
      Some (SUCCESS, g <| store := st |> <| points := <[pos := (x, y)]> (points g) |> <| out := o |>) /\
    lists_ok D st (<[SNAKE := node pos :: lb]> (<[h := l1 ++ l2]> L)) .
Proof.
  intros Hok Hl Hlb. pose proof (removed_unplaced _ _ _ _ _ _ _ Hok Hl) as Hf. pose proof Hok as [Hd Hc _].
  destruct (lstep_run _ _ _ _ _ Hok (st_del _ _ _ _ _ _ Hl)) as (m1 & E1 & Hok1). cbn [run_lop] in E1.
  assert (Hin : node pos ∈ D).
  { rewrite <- Hd. apply elem_of_dom. apply (clist_live _ h (l1 ++ node pos :: l2)); [by apply Hc|set_solver]. }
  destruct (lstep_run _ _ _ _ _ Hok1 (st_add _ _ _ _ _ Hin Hf Hlb)) as (m2 & E2 & Hok2). cbn [run_lop] in E2.
  unfold advance_head. change (pos + LIST_OFF) with (node pos). rewrite (bind_run _ _ _ _ _ (on_store_run _ _ _ _ E1)).
  set (g1 := g <| store := m1 |>). set (g2 := g1 <| points ::= <[pos := (x, y)]> |>). rewrite (bind_run _ _ g1 tt g2) by done.
  assert (E3 : list_add (var (node pos)) (var SNAKE) (store g2) = Some (tt, m2)) by exact E2.
  rewrite (bind_run _ _ _ _ _ (on_store_run _ _ _ _ E3)). set (g3 := g2 <| store := m2 |>).
  destruct (draw_point_run pos SNAKE_CHAR g3 (x, y)) as (o & E4); [apply lookup_insert_eq|].
  rewrite (bind_run _ _ _ _ _ E4). exists m2, o. split; [reflexivity|done].
Qed.

(** A node without a place may change. *)
Lemma lists_ok_node D m L a lh : lists_ok D m L -> ~ placed L a -> lists_ok ({[a]} ∪ D) (<[a := lh]> m) L.
Proof.
  intros [Hd Hc Hj] Hf. split; [by rewrite dom_insert_L, Hd| |done]. intros h l Hl. apply (clist_frame m); [|by apply Hc].
  intros b Hb. assert (b <> a) by (intros ->; apply Hf; by exists h, l). unfold nx, pv. by rewrite lookup_insert_ne by done.
Qed.

Lemma Forall2_points (pts : gmap Z (Z * Z)) p q l Q : p ∉ l ->
  Forall2 (fun p q => pts !! p = Some q) l Q -> Forall2 (fun p' q' => <[p := q]> pts !! p' = Some q') l Q.
Proof.
  intros Hp HF. induction HF as [|a c l Q Ha HF IH]; constructor; [|apply IH; set_solver].
  rewrite lookup_insert_ne by set_solver. done.
Qed.

(** What the game relies on of [malloc]. *)
Class PointAlloc (malloc : gmap Z (Z * Z) -> option (Z * list_head)) : Prop :=
  malloc_fresh_point pts p lh : malloc pts = Some (p, lh) -> pts !! p = None /\ node p <> SNAKE /\ node p <> FOODS.

Section refresh.
Context (malloc : gmap Z (Z * Z) -> option (Z * list_head)) `{!PointAlloc malloc}.

Lemma new_point_run g body food B F x y p lh : board g body food B F -> malloc (points g) = Some (p, lh) ->
  let g' := g <| points := <[p := (x, y)]> (points g) |> <| store := <[node p := lh]> (store g) |> in
  new_point malloc x y g = Some (p, g') /\ board g' body food B F /\ ~ placed (two (nodes body) (nodes food)) (node p) /\
  p ∉ body /\ p ∉ food.
Proof.
  intros [Hok HB HF] Hm g'. destruct (malloc_fresh_point _ _ _ Hm) as (Hp & Hs & Hf).
  assert (Hnb : p ∉ body).
  { intros [i Hi]%list_elem_of_lookup. destruct (Forall2_lookup_l _ _ _ _ _ HB Hi) as (q & _ & Hq). congruence. }
  assert (Hnf : p ∉ food).
  { intros [i Hi]%list_elem_of_lookup. destruct (Forall2_lookup_l _ _ _ _ _ HF Hi) as (q & _ & Hq). congruence. }
  assert (Hpl : ~ placed (two (nodes body) (nodes food)) (node p)).
  { intros H. apply two_placed in H. rewrite !in_nodes in H. tauto. }
  split_and!; try done.
  - unfold new_point. rewrite (bind_run _ _ g g g) by done. by rewrite (bind_run _ _ g (p, lh) g) by (by rewrite Hm).
  - split; [|by apply Forall2_points|by apply Forall2_points].
    change (store g') with (<[node p := lh]> (store g)). rewrite dom_insert_L. by apply lists_ok_node.
Qed.

Lemma new_food_run g body food B F p lh : board g body food B F -> malloc (points g) = Some (p, lh) ->
  let g' := g <| seed := next_seed (next_seed (seed g)) |> <| points := <[p := food_place (seed g)]> (points g) |>
              <| store := <[node p := lh]> (store g) |> in
  new_food malloc g = Some (p, g') /\ board g' body food B F /\ ~ placed (two (nodes body) (nodes food)) (node p) /\
  p ∉ body /\ p ∉ food.
Proof.
  intros Hb Hm g'. unfold new_food. set (g1 := g <| seed := next_seed (seed g) |>). set (g2 := g1 <| seed := next_seed (seed g1) |>).
  rewrite (bind_run _ _ _ _ _ (rand_run g)). fold g1. rewrite (bind_run _ _ _ _ _ (rand_run g1)). fold g2.
  assert (Hb2 : board g2 body food B F) by (destruct Hb; by split).
  destruct (new_point_run g2 body food B F (Z.rem (rand_of (next_seed (seed g))) (NUM_COLS - 2) + 1)
    (Z.rem (rand_of (next_seed (seed g1))) (NUM_ROWS - 1) + 1) p lh Hb2 Hm) as (E & Hb' & H). rewrite E.
  change (seed g1) with (next_seed (seed g)) in Hb' |- *. rewrite food_rule in Hb' |- *. done.
Qed.

Lemma rings_disjoint g body food B F p : board g body food B F -> p ∈ body -> p ∈ food -> False.
Proof.
  intros [[_ _ Hj] _ _] H1 H2.
  assert (SNAKE = FOODS) by (apply (Hj _ _ _ _ (node p) (two_snake _ _) (two_foods _ _)); rewrite elem_of_cons, in_nodes; tauto). done.
Qed.

Lemma board_rings g body food B F : board g body food B F ->
  clist (store g) SNAKE (nodes body) /\ clist (store g) FOODS (nodes food) /\ NoDup body /\ NoDup food.
Proof.
  intros [[_ Hc _] _ _]. pose proof (Hc _ _ (two_snake _ _)) as H1. pose proof (Hc _ _ (two_foods _ _)) as H2.
  split_and!; [done|done| |]; apply nodes_NoDup; [destruct H1 as [H _]|destruct H2 as [H _]]; by apply NoDup_cons in H as [_ H].
Qed.

(** Without food: the last point becomes the head. *)
Lemma move_run g body pl food B c F x y :
  board g (body ++ [pl]) food (B ++ [c]) F ->
  exists g', advance_head pl x y g = Some (SUCCESS, g') /\ board g' (pl :: body) food ((x, y) :: B) F /\ dir g' = dir g /\ seed g' = seed g.
Proof.
  intros Hb. destruct (board_rings _ _ _ _ _ Hb) as (_ & _ & Hnd & _). pose proof Hb as [Hok HB HF].
  apply NoDup_app in Hnd as (_ & Hpl & _). apply Forall2_app_inv in HB as [HB _]; [|apply Forall2_length in HB; rewrite !length_app in HB; cbn in HB; lia].
  destruct (advance_head_run g (two (nodes (body ++ [pl])) (nodes food)) SNAKE (nodes body) pl [] (nodes body) x y _ Hok) as (st & o & E & Hok').
  { rewrite two_snake. by rewrite nodes_app. }
  { rewrite app_nil_r, two_set_snake. apply two_snake. }
  eexists. split; [exact E|]. split; [|done]. rewrite app_nil_r, !two_set_snake in Hok'. split.
  - change (lists_ok (dom st) st (two (nodes (pl :: body)) (nodes food))). by eapply lists_ok_dom.
  - constructor; [apply lookup_insert_eq|]. apply Forall2_points; [intros Hin; by apply (Hpl pl Hin), list_elem_of_here|done].
  - apply Forall2_points; [|done]. intros Hin. apply (rings_disjoint _ _ _ _ _ pl Hb); set_solver.
Qed.

(** A new point enters one of the lists and is drawn. *)
Lemma add_food_run g body food B F new q c :
  board g body food B F -> node new ∈ dom (store g) -> ~ placed (two (nodes body) (nodes food)) (node new) -> points g !! new = Some q ->
  exists g', (_ ← on_store (list_add (var (new + LIST_OFF)) (var FOODS)); draw_point new c) g = Some (tt, g') /\
    board g' body (new :: food) B (q :: F) /\ dir g' = dir g /\ seed g' = seed g /\ points g' = points g.
Proof.
  intros [Hok HB HF] Hin Hpl Hq. destruct (lstep_run _ _ _ _ _ Hok (st_add _ _ _ FOODS _ Hin Hpl (two_foods _ _))) as (m & E & Hok2).
  rewrite two_set_foods in Hok2. rewrite (bind_run _ _ _ _ _ (on_store_run _ _ _ _ E)).
  set (g1 := g <| store := m |>). assert (Hq1 : points g1 !! new = Some q) by exact Hq.
  destruct (draw_point_run new c g1 q Hq1) as (o & E'). eexists. split; [exact E'|]. split; [|done].
  split; [by eapply lists_ok_dom|done|by constructor].
Qed.

Lemma add_snake_run g body food B F new q c :
  board g body food B F -> node new ∈ dom (store g) -> ~ placed (two (nodes body) (nodes food)) (node new) -> points g !! new = Some q ->
  exists g', (_ ← on_store (list_add (var (new + LIST_OFF)) (var SNAKE)); draw_point new c) g = Some (tt, g') /\
    board g' (new :: body) food (q :: B) F /\ dir g' = dir g /\ seed g' = seed g /\ points g' = points g.
Proof.
  intros [Hok HB HF] Hin Hpl Hq. destruct (lstep_run _ _ _ _ _ Hok (st_add _ _ _ SNAKE _ Hin Hpl (two_snake _ _))) as (m & E & Hok2).
  rewrite two_set_snake in Hok2. rewrite (bind_run _ _ _ _ _ (on_store_run _ _ _ _ E)).
  set (g1 := g <| store := m |>). assert (Hq1 : points g1 !! new = Some q) by exact Hq.
  destruct (draw_point_run new c g1 q Hq1) as (o & E'). eexists. split; [exact E'|]. split; [|done].
  split; [by eapply lists_ok_dom|by constructor|done].
Qed.

(** With food: its point becomes the head, and there is a new food. *)
Lemma eat_run g body f1 pos f2 B F1 q F2 new lh :
  board g body (f1 ++ pos :: f2) B (F1 ++ q :: F2) -> length f1 = length F1 -> malloc (points g) = Some (new, lh) ->
  exists g', (newpos ← new_food malloc;
      _ ← on_store (list_add (var (newpos + LIST_OFF)) (var FOODS));
      _ ← draw_point newpos FOOD_CHAR; advance_head pos (fst q) (snd q)) g = Some (SUCCESS, g') /\
    board g' (pos :: body) (new :: f1 ++ f2) (q :: B) (food_place (seed g) :: F1 ++ F2) /\
    dir g' = dir g /\ seed g' = next_seed (next_seed (seed g)).
Proof.
  intros Hb Hlen Hm. destruct (new_food_run g _ _ _ _ new lh Hb Hm) as (E1 & Hb1 & Hpl & Hnb & Hnf).
  set (g1 := g <| seed := _ |> <| points := _ |> <| store := _ |>) in *. rewrite (bind_run _ _ _ _ _ E1).
  destruct (board_rings _ _ _ _ _ Hb) as (_ & _ & _ & Hnd). pose proof (rings_disjoint _ _ _ _ _ pos Hb) as Hdj.
  apply NoDup_app in Hnd as (_ & Hp1 & [Hp2 _]%NoDup_cons). assert (Hin : node new ∈ dom (store g1)).
  { change (node new ∈ dom (<[node new := lh]> (store g))). set_solver. }
  destruct (add_food_run g1 _ _ _ _ new (food_place (seed g)) FOOD_CHAR Hb1 Hin Hpl) as (g3 & E3 & [Hok3 HB3 HF3] & Hd3 & Hs3 & _); [apply lookup_insert_eq|].
  rewrite (bind_assoc_run _ _ _ _ _ _ E3).
  destruct (advance_head_run g3 (two (nodes body) (node new :: nodes (f1 ++ pos :: f2))) FOODS (node new :: nodes f1) pos (nodes f2) (nodes body)
    (fst q) (snd q) _ Hok3) as (st & o' & E & Hok').
  { rewrite two_foods. by rewrite nodes_app. }
  { rewrite two_set_foods. apply two_snake. }
  eexists. split; [exact E|]. split; [|split; [exact Hd3|exact Hs3]].
  apply Forall2_cons in HF3 as [Hnew HF3]. apply Forall2_app_inv in HF3 as [HF1 HF2]; [|done]. apply Forall2_cons in HF2 as [_ HF2].
  assert (Hne : pos <> new) by (intros ->; apply Hnf; set_solver).
  rewrite two_set_foods, two_set_snake in Hok'. split.
  - change (lists_ok (dom st) st (two (nodes (pos :: body)) (nodes (new :: f1 ++ f2)))).
    replace (nodes (new :: f1 ++ f2)) with ((node new :: nodes f1) ++ nodes f2) by (cbn; by rewrite <- nodes_app).
    by eapply lists_ok_dom.
  - constructor; [destruct q; apply lookup_insert_eq|]. apply Forall2_points; [|done]. intros Hi. apply Hdj; [done|set_solver].
  - change (points _) with (<[pos := (fst q, snd q)]> (points g3)). constructor; [by rewrite lookup_insert_ne|].
    apply Forall2_points; [|by apply Forall2_app]. rewrite elem_of_app. intros [Hi|Hi]; [by apply (Hp1 pos Hi), list_elem_of_here|done].
Qed.

(** The game shows the state of the rules. *)
Definition shows (g : game) (r : rules) : Prop :=
  dir g = r_dir r /\ seed g = r_seed r /\ exists body food, board g body food (r_body r) (r_food r).

Lemma refresh_run g r :
  (forall pts, is_Some (malloc pts)) -> shows g r -> rules_ok r -> r_body r <> [] ->
  exists g', refresh malloc g = Some (fst (spec_refresh r), g') /\ shows g' (snd (spec_refresh r)).
Proof.
  intros Hmal (Hd & Hsd & body & food & Hb) [Hin _] Hne. destruct r as [d s B F]. cbn [r_dir r_seed r_body r_food] in *.
  pose proof Hb as [Hok HB HF]. destruct (board_rings _ _ _ _ _ Hb) as (Hcs & Hcf & _ & _).
  destruct B as [|[x y] B]; [done|]. destruct body as [|p body]; [by apply Forall2_cons_nil_inv in HB || inversion HB|].
  unfold refresh. rewrite (bind_run _ _ g g g) by done. unfold in_store at 1, list_first_entry. rewrite e_next_var.
  pose proof Hcs as [_ [[Hn _] _]]. rewrite Hn. cbn [mbind option_bind].
  replace (list_entry (node p) LIST_OFF) with p by (unfold list_entry, node; lia). pose proof (Forall2_cons_1 _ _ _ _ _ HB) as [Hp _].
  rewrite (bind_run _ _ g (x, y) g) by (unfold get_point; rewrite (bind_run _ _ g g g) by done; by rewrite Hp).
  unfold spec_refresh. cbn [r_dir r_seed r_body r_food fst snd]. rewrite Hd.
  apply Forall_cons in Hin as [Hin _]. rewrite (next_place_rule d x y Hin).
  case_decide as En; [|exists g; split; [done|split_and!; [done|done|by exists (p :: body), food]]].
  destruct (step_to d (x, y)) as [qx qy]. rewrite (bind_run _ _ _ _ _ (find_run g FOODS food F qx qy Hcf HF)).
  destruct (pos_find food F (qx, qy)) as [pos|] eqn:Ef.
  - destruct (pos_find_Some _ _ _ _ (Forall2_true _ _ _ HF) Ef) as (f1 & f2 & F1 & F2 & -> & -> & Hlen & ->).
    destruct (Hmal (points g)) as [[new lh] Hm].
    destruct (eat_run g _ _ _ _ _ _ _ _ new lh Hb Hlen Hm) as (g' & E & Hb' & Hd' & Hs'). exists g'. split; [exact E|].
    cbn [snd]. split_and!; [by rewrite Hd'|by rewrite Hs', Hsd|]. rewrite <- Hsd. by exists (pos :: p :: body), (new :: f1 ++ f2).
  - destruct (pos_find_None _ _ _ (Forall2_length _ _ _ HF) Ef) as [_ ->].
    rewrite (bind_run _ _ _ _ _ (find_run g SNAKE (p :: body) ((x, y) :: B) qx qy Hcs HB)).
    destruct (pos_find (p :: body) ((x, y) :: B) (qx, qy)) as [pos|] eqn:Eb.
    + destruct (pos_find_Some _ _ _ _ (Forall2_true _ _ _ HB) Eb) as (f1 & f2 & F1 & F2 & _ & EB & _). rewrite decide_True by (rewrite EB; set_solver).
      exists g. split; [done|]. cbn [snd]. split_and!; [done|done|by exists (p :: body), food].
    + destruct (pos_find_None _ _ _ (Forall2_length _ _ _ HB) Eb) as [Hnin _]. rewrite decide_False by done.
      destruct (exists_last (l := p :: body)) as (body' & pl & Ebody); [done|]. destruct (exists_last (l := (x, y) :: B)) as (B' & c & EB); [done|].
      rewrite Ebody in *. rewrite EB in *. rewrite nodes_app in Hcs. pose proof (dseg_rev _ _ _ _ _ (proj2 Hcs)) as Hr.
      rewrite rev_app_distr in Hr. destruct Hr as [[Hl _] _].
      unfold in_store, list_last_entry. rewrite e_prev_var, Hl. cbn [mbind option_bind].
      replace (list_entry (node pl) LIST_OFF) with pl by (unfold list_entry, node; lia).
      apply Forall2_app_inv in HB as [HB1 HBc]; [|apply Forall2_length in HB; rewrite !length_app in HB; cbn in HB; lia].
      apply Forall2_cons_1 in HBc as [Hpl _].
      destruct (draw_point_run pl 32 g c Hpl) as (o & E1). unfold clear_point. rewrite (bind_run _ _ _ _ _ E1).
      set (g1 := g <| out := o |>). assert (Hb1 : board g1 (body' ++ [pl]) food (B' ++ [c]) F) by (destruct Hb; by split).
      destruct (move_run g1 body' pl food B' c F qx qy Hb1) as (g' & E & Hb' & Hd' & Hs'). exists g'. split; [exact E|]. cbn [snd].
      rewrite removelast_last. split_and!; [by rewrite Hd'|by rewrite Hs'|by exists (pl :: body'), food].
Qed.

(** The snake stays within the borders. *)
Lemma remove_first_Forall {P : Z * Z -> Prop} q F F' : remove_first q F = Some F' -> Forall P F -> Forall P F'.
Proof.
  revert F'. induction F as [|c F IH]; intros F'; [done|]. cbn [remove_first]. case_decide; [by intros [= <-] [_ ?]%Forall_cons|].
  destruct (remove_first q F) as [F1|] eqn:E; [|done]. intros [= <-] [Hc HF]%Forall_cons. constructor; [done|by apply IH].
Qed.

Lemma spec_refresh_ok r : rules_ok r -> rules_ok (snd (spec_refresh r)) /\ (r_body r <> [] -> r_body (snd (spec_refresh r)) <> []).
Proof.
  intros Hr. pose proof Hr as [HB HF]. unfold spec_refresh. destruct (r_body r) as [|[x y] B] eqn:EB; [done|]. cbv zeta.
  case_decide as Hq; [|cbn [snd]; by rewrite EB]. apply Forall_cons in HB as [Hxy HB]. set (q := step_to (r_dir r) (x, y)) in *.
  destruct (remove_first q (r_food r)) as [F'|] eqn:Er; cbn [snd].
  - split; [|done]. split; cbn [r_body r_food]; [constructor; [done|by constructor]|]. constructor; [apply food_place_in|by eapply remove_first_Forall].
  - case_decide; cbn [snd]; [by rewrite EB|]. split; [|done]. split; cbn [r_body r_food]; [|done]. constructor; [done|].
    destruct (exists_last (l := (x, y) :: B)) as (B' & c & E); [done|]. rewrite E, removelast_last.
    assert (HB' : Forall in_board (B' ++ [c])) by (rewrite <- E; by constructor). by apply Forall_app in HB' as [? _].
Qed.

(** ** A whole game *)
Fixpoint spec_play (inputs : list (list Z)) (r : rules) : option (unit + Z) * rules :=
  match inputs with
  | [] => (None, r)
  | input :: inputs' =>
      match steer (r_dir r) input with
      | None => (Some (inl ()), r)
      | Some d =>
          let '(e, r') := spec_refresh (mkRules d (r_seed r) (r_body r) (r_food r)) in
          if e =? 0 then spec_play inputs' r' else (Some (inr e), r')
      end
  end.

Fixpoint spec_foods (n : nat) (s : Z) (F : list (Z * Z)) : Z * list (Z * Z) :=
  match n with
  | O => (s, F)
  | S n' => spec_foods n' (next_seed (next_seed s)) (food_place s :: F)
  end.
(** Ten foods, and the snake in the corner with its head to the right. *)
Definition spec_start (s : Z) : rules :=
  let '(s', F) := spec_foods 10 s [] in mkRules right s' [(3, 1); (2, 1); (1, 1)] F.

Lemma emit_run t g : emit t g = Some (tt, g <| out ::= fun o => o ++ t |>).
Proof. done. Qed.

(** Drawing changes [out] only. *)
Definition draws (c : G unit) : Prop := forall g, exists o, c g = Some (tt, g <| out := o |>).

Lemma draws_emit t : draws (emit t).
Proof. intros g. eexists. reflexivity. Qed.

Lemma draws_bind c1 c2 : draws c1 -> draws c2 -> draws (_ ← c1; c2).
Proof.
  intros H1 H2 g. destruct (H1 g) as (o1 & E1). destruct (H2 (g <| out := o1 |>)) as (o2 & E2).
  exists o2. by rewrite (bind_run _ _ _ _ _ E1).
Qed.

Lemma draws_column n : forall x i, draws (draw_column n x i).
Proof.
  induction n as [|n IH]; intros x i; cbn [draw_column]; [intros g; exists (out g); by destruct g|].
  apply draws_bind; [apply draws_emit|apply IH].
Qed.

Lemma draws_border : draws print_border.
Proof. unfold print_border. do 4 (apply draws_bind; [apply draws_emit|]). apply draws_bind; apply draws_column. Qed.

Lemma draws_lost y t : draws (_ ← print_to_central_screen y t; print_instruction).
Proof. unfold print_instruction, print_to_central_screen. repeat apply draws_bind; apply draws_emit. Qed.

Lemma shows_out g r o : shows g r -> shows (g <| out := o |>) r.
Proof. intros (H1 & H2 & body & food & Hb). split_and!; [done|done|]. exists body, food. by destruct Hb. Qed.

Lemma play_run inputs : (forall pts, is_Some (malloc pts)) -> forall g r, shows g r -> rules_ok r -> r_body r <> [] ->
  exists g', play malloc inputs g = Some (fst (spec_play inputs r), g') /\ shows g' (snd (spec_play inputs r)) /\
    rules_ok (snd (spec_play inputs r)).
Proof.
  intros Hmal. induction inputs as [|input inputs IH]; intros g r Hs Hr Hne; cbn [play spec_play]; [by exists g|].
  unfold tick. pose proof Hs as (Hd & Hsd & Hb). rewrite <- get_direction_rule. destruct (get_direction (r_dir r) input) as [d|] eqn:Ed.
  - set (g1 := g <| dir := d |>). set (r1 := mkRules d (r_seed r) (r_body r) (r_food r)).
    assert (Hs1 : shows g1 r1). { split_and!; [done|done|]. destruct Hb as (body & food & Hb). exists body, food. by destruct Hb. }
    assert (Hr1 : rules_ok r1) by done. destruct (refresh_run g1 r1 Hmal Hs1 Hr1 Hne) as (g2 & E2 & Hs2).
    destruct (spec_refresh_ok r1 Hr1) as [Hr2 Hne2]. specialize (Hne2 Hne).
    destruct (spec_refresh r1) as [e r2]. cbn [fst snd] in *.
    rewrite (bind_run _ _ g (inr e : unit + Z) g2).
    2:{ rewrite (bind_run _ _ g g g) by done. rewrite Hd, Ed. rewrite (bind_run _ _ g tt g1) by done. by rewrite (bind_run _ _ _ _ _ E2). }
    destruct (e =? 0); [by apply IH|]. cbn [fst snd].
    destruct (draws_lost (Z.quot NUM_ROWS 2 - 1) (text "You lost :(") g2) as (o & E3).
    rewrite (bind_assoc_run _ _ _ _ _ _ E3). exists (g2 <| out := o |>). split; [done|]. split; [by apply shows_out|done].
  - cbn [fst snd]. destruct (draws_emit [27; 91; 50; 74] g) as (o & E).
    rewrite (bind_run _ _ g (inl () : unit + Z) (g <| out := o |>)).
    2:{ rewrite (bind_run _ _ g g g) by done. rewrite Hd, Ed. unfold clear_screen. by rewrite (bind_run _ _ _ _ _ E). }
    exists (g <| out := o |>). split; [done|]. split; [by apply shows_out|done].
Qed.

Lemma init_foods_run n : (forall pts, is_Some (malloc pts)) -> forall g body food B F, board g body food B F ->
  exists g' food', init_foods malloc n g = Some (tt, g') /\ board g' body food' B (snd (spec_foods n (seed g) F)) /\
    seed g' = fst (spec_foods n (seed g) F) /\ dir g' = dir g.
Proof.
  intros Hmal. induction n as [|n IH]; intros g body food B F Hb; cbn [init_foods spec_foods]; [by exists g, food|].
  destruct (Hmal (points g)) as [[p lh] Hm]. destruct (new_food_run g _ _ _ _ p lh Hb Hm) as (E1 & Hb1 & Hpl & _).
  set (g1 := g <| seed := _ |> <| points := _ |> <| store := _ |>) in *. rewrite (bind_run _ _ _ _ _ E1).
  assert (Hin : node p ∈ dom (store g1)) by (change (node p ∈ dom (<[node p := lh]> (store g))); set_solver).
  destruct (add_food_run g1 _ _ _ _ p (food_place (seed g)) FOOD_CHAR Hb1 Hin Hpl) as (g2 & E2 & Hb2 & Hd2 & Hs2 & _); [apply lookup_insert_eq|].
  rewrite (bind_assoc_run _ _ _ _ _ _ E2). destruct (IH g2 _ _ _ _ Hb2) as (g3 & food' & E3 & Hb3 & Hs3 & Hd3).
  rewrite Hs2 in Hb3, Hs3. exists g3, food'. split_and!; [exact E3|exact Hb3|exact Hs3|by rewrite Hd3, Hd2].
Qed.

Fixpoint spec_snake (n : nat) (i : Z) (B : list (Z * Z)) : list (Z * Z) :=
  match n with O => B | S n' => spec_snake n' (i + 1) ((i, 1) :: B) end.

Lemma init_snake_run n : (forall pts, is_Some (malloc pts)) -> forall i g body food B F, board g body food B F ->
  exists g' body', init_snake malloc n i g = Some (tt, g') /\ board g' body' food (spec_snake n i B) F /\ seed g' = seed g /\ dir g' = dir g.
Proof.
  intros Hmal. induction n as [|n IH]; intros i g body food B F Hb; cbn [init_snake spec_snake]; [by exists g, body|].
  destruct (Hmal (points g)) as [[p lh] Hm]. destruct (new_point_run g _ _ _ _ i 1 p lh Hb Hm) as (E1 & Hb1 & Hpl & _).
  set (g1 := g <| points := _ |> <| store := _ |>) in *. rewrite (bind_run _ _ _ _ _ E1).
  assert (Hin : node p ∈ dom (store g1)) by (change (node p ∈ dom (<[node p := lh]> (store g))); set_solver).
  destruct (add_snake_run g1 _ _ _ _ p (i, 1) SNAKE_CHAR Hb1 Hin Hpl) as (g2 & E2 & Hb2 & Hd2 & Hs2 & _); [apply lookup_insert_eq|].
  rewrite (bind_assoc_run _ _ _ _ _ _ E2). destruct (IH (i + 1) g2 _ _ _ _ Hb2) as (g3 & body' & E3 & Hb3 & Hs3 & Hd3).
  exists g3, body'. split_and!; [exact E3|exact Hb3|by rewrite Hs3|by rewrite Hd3].
Qed.

Lemma reset_run g : SNAKE ∈ dom (store g) -> FOODS ∈ dom (store g) ->
  exists g', reset_board g = Some (tt, g') /\ board g' [] [] [] [] /\ seed g' = seed g /\ dir g' = right.
Proof.
  intros Hs Hf. assert (H0 : lists_ok (dom (store g)) (store g) ∅).
  { split; [done|intros h l Hl; by rewrite lookup_empty in Hl|intros h1 h2 l1 l2 a Hl; by rewrite lookup_empty in Hl]. }
  assert (Hp0 : ~ placed ∅ SNAKE) by (intros (h & l & Hl & _); by rewrite lookup_empty in Hl).
  assert (Hp1 : ~ placed (<[SNAKE := []]> ∅) FOODS).
  { intros (h & l & Hl & Hin). apply lookup_insert_Some in Hl as [[<- <-]|[_ Hl]]; [by apply list_elem_of_singleton in Hin|by rewrite lookup_empty in Hl]. }
  destruct (lstep_run _ _ _ _ _ H0 (st_init _ _ _ Hs Hp0)) as (m1 & E1 & H1).
  destruct (lstep_run _ _ _ _ _ H1 (st_init _ _ _ Hf Hp1)) as (m2 & E2 & H2).
  unfold reset_board. rewrite (bind_run _ _ _ _ _ (on_store_run _ _ _ _ E1)). set (g1 := g <| store := m1 |>).
  assert (E2' : run_lop (OInit FOODS) (store g1) = Some (tt, m2)) by exact E2.
  rewrite (bind_run _ _ _ _ _ (on_store_run _ _ _ _ E2')). eexists. split; [reflexivity|]. split; [|done].
  split; [|constructor|constructor]. eapply lists_ok_dom. exact H2.
Qed.

Lemma spec_foods_in n : forall s F, Forall in_board F -> Forall in_board (snd (spec_foods n s F)).
Proof. induction n as [|n IH]; intros s F HF; cbn; [done|]. apply IH. constructor; [apply food_place_in|done]. Qed.

Lemma spec_start_ok s : rules_ok (spec_start s).
Proof.
  unfold spec_start. pose proof (spec_foods_in 10 s [] (Forall_nil_2 _)) as H. destruct (spec_foods _ _ _) as [s' F]. split; [|done].
  cbn [r_body]. unfold in_board. repeat constructor; cbn; lia.
Qed.

(** C24: a game of snake refines the rules of the game ([spec_play]), which are stated
    over lists of places alone: the snake starts in the corner with its head to the
    right among ten foods; the last key of a reading steers it (w, a, s, d; no turning
    back) or leaves the game (q); a step moves the head by one place and drops the last
    place of the snake, or keeps it when there was food, for which a new one appears;
    the snake dies at a wall of the 98 by 30 board and on itself.  For every seed and
    every sequence of readings the code over the two pointer lists terminates, with the
    result the rules give, and the board then shows the state of the rules.  All points
    stay on the board. *)
Theorem snake_refines inputs g :
  (forall pts, is_Some (malloc pts)) -> SNAKE ∈ dom (store g) -> FOODS ∈ dom (store g) ->
  let '(e, r) := spec_play inputs (spec_start (seed g)) in
  exists g', new_game malloc inputs g = Some (e, g') /\ shows g' r /\ rules_ok r.
Proof.
  intros Hmal Hs Hf. destruct (reset_run g Hs Hf) as (g1 & E1 & Hb1 & Hs1 & Hd1). unfold new_game. rewrite (bind_run _ _ _ _ _ E1).
  destruct (draws_bind clear_screen print_border (draws_emit _) draws_border g1) as (o & E2). rewrite (bind_assoc_run _ _ _ _ _ _ E2).
  set (g2 := g1 <| out := o |>). assert (Hb2 : board g2 [] [] [] []) by (destruct Hb1; by split).
  destruct (init_foods_run INITAL_FOOD_NUM Hmal g2 _ _ _ _ Hb2) as (g3 & food & E3 & Hb3 & Hs3 & Hd3).
  destruct (init_snake_run INITIAL_SNAKE_LEN Hmal 1 g3 _ _ _ _ Hb3) as (g4 & body & E4 & Hb4 & Hs4 & Hd4).
  assert (E5 : init_snake_food malloc g2 = Some (tt, g4)) by (unfold init_snake_food; by rewrite (bind_run _ _ _ _ _ E3)).
  rewrite (bind_run _ _ _ _ _ E5). pose proof (spec_start_ok (seed g)) as Hok.
  assert (Hsh : shows g4 (spec_start (seed g))).
  { change (seed g2) with (seed g1) in *. rewrite Hs1 in *. unfold spec_start. destruct (spec_foods _ _ _) as [s' F]. cbn [fst snd] in *.
    split_and!; [rewrite Hd4, Hd3; exact Hd1|by rewrite Hs4|by exists body, food]. }
  destruct (play_run inputs Hmal g4 _ Hsh Hok) as (g' & E & H & H').
  { unfold spec_start. by destruct (spec_foods _ _ _). }
  destruct (spec_play _ _) as [e r]. by exists g'.
Qed.
End refresh.

(** An allocator: an address that is not in use, away from the heads. *)
Definition some_point (pts : gmap Z (Z * Z)) : option (Z * list_head) :=
  Some (fresh (dom pts ∪ {[SNAKE - LIST_OFF; FOODS - LIST_OFF]}), mkLH 0 0).
#[export] Instance some_point_alloc : PointAlloc some_point.
Proof.
  intros pts p lh [= <- <-]. set (X := dom pts ∪ {[SNAKE - LIST_OFF; FOODS - LIST_OFF]}). pose proof (is_fresh X) as H.
  revert H. generalize (fresh X) as p. unfold X, node. intros p H. split_and!; [apply not_elem_of_dom; set_solver| |].
  - intros E. apply H. replace p with (SNAKE - LIST_OFF) by lia. set_solver.
  - intros E. apply H. replace p with (FOODS - LIST_OFF) by lia. set_solver.
Qed.

(** Up into the wall at once; "s" and then "a" lead down and left. *)
Definition game_zero : game := mkGame (<[SNAKE := mkLH 0 0]> (<[FOODS := mkLH 0 0]> ∅)) ∅ right 1 [].
Lemma snake_refines_witness :
  (exists g', new_game some_point [[119]] game_zero = Some (Some (inr FAIL_UP), g') /\ map fst (r_body (spec_start 1)) = [3; 2; 1]) /\
  (exists g' body food F, new_game some_point [[115]; [97]] game_zero = Some (None, g') /\ board g' body food [(2, 2); (3, 2); (3, 1)] F).
Proof.
  split.
  - pose proof (snake_refines some_point [[119]] game_zero) as H. destruct (spec_play _ _) as [e r] eqn:Ep.
    destruct H as (g' & E & _); [intros; eexists; reflexivity|by vm_compute|by vm_compute|].
    vm_compute in Ep. injection Ep as <- _. exists g'. split; [exact E|vm_compute; reflexivity].
  - pose proof (snake_refines some_point [[115]; [97]] game_zero) as H. destruct (spec_play _ _) as [e r] eqn:Ep.
    destruct H as (g' & E & (_ & _ & body & food & Hb) & _); [intros; eexists; reflexivity|by vm_compute|by vm_compute|].
    vm_compute in Ep. injection Ep as <- <-. exists g', body, food. eexists. split; [exact E|exact Hb].
Defined.
