(* ===== verification/Srec.v ===== *)
(** * fs/makefs_only/srec_import.c: programs for the disk image

    The linker's output is text: S-records, and a listing with the sizes of the
    segments.  A line is the list of the characters in the buffer fgets fills;
    an access behind it is [None].  This is a program of the host, whose [size_t] has
    64 bits. *)
From S2P Require Import Prelude.

Record srec_binary := mkSrec {
  name : list Z;
  binary_pc : Z;
  binary_offset : Z;
  binary_size : Z;
  binary_idx : Z;
  binary_data : list Z
}.
#[export] Instance eta_srec : Settable srec_binary := mkEta (fun s =>
  mkSrec (name s) (binary_pc s) (binary_offset s) (binary_size s) (binary_idx s) (binary_data s)).

Record srec_debug := mkDebug { d_name : list Z; text_size : Z; data_size : Z; bss_size : Z }.
#[export] Instance eta_debug : Settable srec_debug := mkEta (fun d => mkDebug (d_name d) (text_size d) (data_size d) (bss_size d)).

(** ** Text *)
Definition TO_UPPER_CHAR (c : Z) : Z := c - 32.
Definition islower (c : Z) : bool := (97 <=? c) && (c <=? 122).
Definition toUpperCase (src : list Z) : list Z := (fun c => if islower c then TO_UPPER_CHAR c else c) <$> src.

Fixpoint hex2int_loop (a : list Z) (len i val : Z) : Z :=
  match a with
  | [] => val
  | c :: a' =>
      let w := Z.shiftl 1 (4 * (len - 1 - i)) in
      let val :=
        if c <=? 57 then s32 (val + (c - 48) * w)
        else if c <=? 70 then s32 (val + (c - 55) * w)
        else if c <=? 102 then s32 (val + (c - 87) * w)
        else val in
      hex2int_loop a' len (i + 1) val
  end.
Definition hex2int (a : list Z) : Z := hex2int_loop a (alen a) 0 0.

Fixpoint substring_loop (n : nat) (original : list Z) (i : Z) : option (list Z) :=
  match n with
  | O => Some []
  | S n' => c ← aget original i; r ← substring_loop n' original (i + 1); Some (c :: r)
  end.
Definition substring (original : list Z) (start_index length : Z) : option (list Z) :=
  substring_loop (Z.to_nat length) original start_index.
(** [substring] and [hex2int] of the digits. *)
Definition field (line : list Z) (index digits : Z) : option Z := s ← substring line index digits; Some (hex2int s).

(** ** The growing array *)
Section srec.
(** realloc: the old contents and what follows them; None when there is no memory. *)
Context (realloc : list Z -> Z -> option (list Z)).

Definition init_srec_binary_struct : srec_binary := mkSrec [] 0 0 1024 0 (replicate 1024 0).

Definition srec_add_binary (s : srec_binary) (item : Z) : option srec_binary :=
  d ← aset (binary_data s) (binary_idx s) (u32 item);
  let s := s <| binary_data := d |> <| binary_idx ::= fun n => u32 (n + 1) |> in
  if binary_idx s >=? binary_size s then
    let s := s <| binary_size ::= fun n => u32 (n + 1024) |> in
    d ← realloc (binary_data s) (binary_size s); Some (s <| binary_data := d |>)
  else Some s.

(** ** One record *)
Definition address_length (recordType : Z) : option Z :=
  if (recordType =? 0) || (recordType =? 1) || (recordType =? 9) then Some 2
  else if (recordType =? 5) || (recordType =? 6) then Some 0
  else if (recordType =? 2) || (recordType =? 8) then Some 3
  else if (recordType =? 3) || (recordType =? 7) then Some 4
  else None.

Fixpoint address_sum (n : nat) (line : list Z) (index checksum : Z) : option Z :=
  match n with
  | O => Some checksum
  | S n' => b ← field line index 2; address_sum n' line (index + 2) (s32 (checksum + b))
  end.

(** data[i] is a byte. *)
Fixpoint read_data (n : nat) (line : list Z) (index i checksum : Z) (data : list Z) : option (Z * Z * list Z) :=
  match n with
  | O => Some (index, checksum, data)
  | S n' =>
      b ← field line index 2;
      let b := b mod 256 in
      data ← aset data i b;
      read_data n' line (index + 2) (i + 1) (s32 (checksum + b)) data
  end.

Fixpoint mem_val (n : nat) (data : list Z) (j memVal : Z) : option Z :=
  match n with
  | O => Some memVal
  | S n' => b ← aget data j; mem_val n' data (j + 1) (Z.lor (Z.shiftl memVal 8 mod 2 ^ 64) b)
  end.

(** The loop moves four bytes on. *)
Fixpoint load_words (fuel : nat) (data : list Z) (i last wordsLoaded : Z) (s : srec_binary) : option (Z * srec_binary) :=
  match fuel with
  | O => None
  | S n =>
      if i <? last then
        v ← mem_val 4 data i 0;
        s ← srec_add_binary s v;
        load_words n data (i + 4) last (wordsLoaded + 1) s
      else Some (wordsLoaded, s)
  end.

(** [data0]: the automatic array before it is assigned. *)
Context (data0 : list Z).

Definition winix_load_srec_mem_val (line : list Z) (result : srec_binary) : option (Z * srec_binary) :=
  c ← aget line 0;
  if negb (c =? 83) then Some (0, result)
  else
    t ← aget line 1;
    let recordType := t - 48 in
    match address_length recordType with
    | None => Some (0, result)
    | Some addressLength =>
        byteCount ← field line 2 2;
        let index := 4 in
        checksum ← address_sum (Z.to_nat addressLength) line index byteCount;
        address ← (if addressLength =? 0 then Some 0 else field line index (addressLength * 2));
        let index := index + addressLength * 2 in
        let byteCount := byteCount - addressLength in
        r ← read_data (Z.to_nat (byteCount - 1)) line index 0 checksum data0;
        let '(index, checksum, data) := (r : Z * Z * list Z) in
        readChecksum ← field line index 2;
        let byteCheckSum := Z.land (Z.lnot (Z.land checksum 255)) 255 in
        if negb (readChecksum =? byteCheckSum) then Some (0, result)
        else if recordType =? 3 then load_words (S (Z.to_nat byteCount)) data 0 (byteCount - 1) 0 result
        else if recordType =? 7 then Some (0, result <| binary_pc := u32 address |>)
        else Some (0, result)
    end.

(** ** A file: the lines fgets yields *)
Fixpoint load_lines (lines : list (list Z)) (wordsLoaded : Z) (result : srec_binary) : option (Z * srec_binary) :=
  match lines with
  | [] => Some (wordsLoaded, result)
  | line :: lines' =>
      r ← winix_load_srec_mem_val line result;
      let '(temp, result) := (r : Z * srec_binary) in
      load_lines lines' (wordsLoaded + temp) result
  end.

(** [strrchr(mystr, '.')] and the 0 put there, after [basename]. *)
Context (basename : list Z -> list Z).

Fixpoint before_last_dot (s : list Z) : option (list Z) :=
  match s with
  | [] => None
  | c :: s' =>
      match before_last_dot s' with
      | Some r => Some (c :: r)
      | None => if c =? 46 then Some [] else None
      end
  end.
Definition remove_extension (str : list Z) : list Z :=
  let mystr := basename str in
  match before_last_dot mystr with Some r => r | None => mystr end.

(** [strcpy] into char name[256] *)
Definition name_of (path : list Z) : option (list Z) :=
  let filename := remove_extension path in
  if alen filename <? 256 then Some filename else None.

Definition decode_srec (path : list Z) (offset : Z) (lines : list (list Z)) : option srec_binary :=
  filename ← name_of path;
  r ← load_lines lines 0 (init_srec_binary_struct <| name := filename |>);
  Some (snd (r : Z * srec_binary) <| binary_offset := offset |>).

(** ** The sizes of the segments *)
Definition ascii_text_size : list Z := [46; 116; 101; 120; 116; 32; 115; 101; 103; 109; 101; 110; 116; 32; 115; 105; 122; 101; 32; 61; 32; 48; 120].
Definition ascii_data_size : list Z := [46; 100; 97; 116; 97; 32; 115; 101; 103; 109; 101; 110; 116; 32; 115; 105; 122; 101; 32; 61; 32; 48; 120].
Definition ascii_bss_size : list Z := [46; 98; 115; 115; 32; 115; 101; 103; 109; 101; 110; 116; 32; 115; 105; 122; 101; 32; 61; 32; 48; 120].

Fixpoint strstr (l pre : list Z) : bool :=
  bool_decide (take (length pre) l = pre) || match l with [] => false | _ :: l' => strstr l' pre end.

Fixpoint strip_zeros (s : list Z) : list Z :=
  match s with c :: s' => if c =? 48 then strip_zeros s' else s | [] => [] end.

(** [line] is the string; the newline at its end is cut off. *)
Definition decode_segment_size (pre line : list Z) : Z :=
  let v := drop (length pre) line in
  let v := if decide (last v = Some 10) then removelast v else v in
  hex2int (strip_zeros v).

(** [*val] is a size_t, twice as long as the field it points to: the sign goes to the
    field behind it. *)
Definition high_word (v : Z) : Z := if v <? 0 then UINT_MOD - 1 else 0.

Fixpoint decode_srec_debug_loop (lines : list (list Z)) (r : srec_debug) : srec_debug :=
  match lines with
  | [] => r
  | line :: lines' =>
      decode_srec_debug_loop lines'
        (if strstr line ascii_text_size then
           let v := decode_segment_size ascii_text_size line in r <| text_size := u32 v |> <| data_size := high_word v |>
         else if strstr line ascii_data_size then
           let v := decode_segment_size ascii_data_size line in r <| data_size := u32 v |> <| bss_size := high_word v |>
         else if strstr line ascii_bss_size then r <| bss_size := u32 (decode_segment_size ascii_bss_size line) |>
         else r)
  end.

Definition decode_srec_debug (filepath : list Z) (lines : list (list Z)) (r : srec_debug) : option srec_debug :=
  filename ← name_of filepath; Some (decode_srec_debug_loop lines (r <| d_name := filename |>)).
End srec.

(** S3 and S7 records as wlink writes them. *)
Definition s7_line : list Z := [83; 55; 48; 53; 48; 48; 48; 48; 48; 52; 49; 50; 69; 52; 10; 0].
Example load_s7 : winix_load_srec_mem_val (fun _ _ => None) (replicate 255 0) s7_line init_srec_binary_struct = Some (0, init_srec_binary_struct <| binary_pc := 1042 |>).
Proof. reflexivity. Qed.

(** ** Records as text *)
Definition hexd (d : Z) : Z := if d <? 10 then 48 + d else 55 + d.
Definition digits (bs : list Z) : list Z := concat ((fun b => [b `div` 16; b `mod` 16]) <$> bs).
Definition hexs (bs : list Z) : list Z := hexd <$> digits bs.
Definition is_byte (b : Z) : Prop := 0 <= b < 256.
Definition sum (bs : list Z) : Z := foldr Z.add 0 bs.
Definition complement (bs : list Z) : Z := 255 - sum bs mod 256.
(** Big-endian values. *)
Fixpoint be (bs : list Z) : Z := match bs with [] => 0 | b :: bs' => b * 256 ^ alen bs' + be bs' end.
Definition word_bytes (w : Z) : list Z := [w `div` 16777216; (w `div` 65536) `mod` 256; (w `div` 256) `mod` 256; w `mod` 256].

(** The bytes of a record with its count, and the line with a checksum. *)
Definition body (addr data : list Z) : list Z := alen addr + alen data + 1 :: addr ++ data.
Definition srec_line (t : Z) (addr data : list Z) (check : Z) (rest : list Z) : list Z :=
  83 :: 48 + t :: hexs (body addr data) ++ hexs [check] ++ rest.

(** [l] stands in [line] from index [i] on. *)
Definition at_ (line : list Z) (i : Z) (l : list Z) : Prop := exists pre post, line = pre ++ l ++ post /\ alen pre = i.

Lemma at_app line i l1 l2 : at_ line i (l1 ++ l2) -> at_ line i l1 /\ at_ line (i + alen l1) l2.
Proof.
  intros (pre & post & -> & <-). split.
  - exists pre, (l2 ++ post). by rewrite <- !app_assoc.
  - exists (pre ++ l1), post. rewrite <- !app_assoc. split; [done|]. unfold alen. rewrite length_app. lia.
Qed.

Lemma substring_at line l : forall i, at_ line i l -> substring_loop (length l) line i = Some l.
Proof.
  induction l as [|c l IH]; intros i Hat; cbn [length substring_loop]; [done|].
  assert (Ha : aget line i = Some c).
  { destruct Hat as (pre & post & -> & <-). unfold aget, alen. rewrite decide_True by lia. rewrite Nat2Z.id.
    by rewrite lookup_app_r, Nat.sub_diag by lia. }
  rewrite Ha. cbn [mbind option_bind]. change (c :: l) with ([c] ++ l) in Hat. apply at_app in Hat as [_ Hat].
  change (i + 1) with (i + alen [c]). by rewrite (IH _ Hat).
Qed.

Fixpoint hv (ds : list Z) : Z := match ds with [] => 0 | d :: ds' => d * 16 ^ alen ds' + hv ds' end.

Lemma s32_sum_l a b : s32 (s32 a + b) = s32 (a + b).
Proof.
  unfold s32. replace ((a + 2147483648) mod UINT_MOD - 2147483648 + b + 2147483648) with ((a + 2147483648) mod UINT_MOD + b) by lia.
  rewrite Z.add_mod_idemp_l by done. do 2 f_equal. lia.
Qed.

Lemma hex2int_digits ds : forall len i val,
  Forall (fun d => 0 <= d < 16) ds -> 0 <= i -> len - i = alen ds -> hex2int_loop (hexd <$> ds) len i (s32 val) = s32 (val + hv ds).
Proof.
  induction ds as [|d ds IH]; intros len i val Hd Hi Hl; cbn [hex2int_loop fmap list_fmap hv]; [f_equal; lia|].
  apply Forall_cons in Hd as [Hd Hds]. assert (Hl' : len - 1 - i = alen ds) by (unfold alen in *; cbn in *; lia).
  rewrite Hl', Z.shiftl_mul_pow2, Z.pow_mul_r by (unfold alen; lia). change (2 ^ 4) with 16.
  assert (E : (if hexd d <=? 57 then s32 (s32 val + (hexd d - 48) * (1 * 16 ^ alen ds))
     else if hexd d <=? 70 then s32 (s32 val + (hexd d - 55) * (1 * 16 ^ alen ds))
     else if hexd d <=? 102 then s32 (s32 val + (hexd d - 87) * (1 * 16 ^ alen ds)) else s32 val) = s32 (val + d * 16 ^ alen ds)).
  { unfold hexd. destruct (Z.ltb_spec d 10).
    - rewrite (proj2 (Z.leb_le _ _)) by lia. rewrite s32_sum_l. f_equal. lia.
    - rewrite (proj2 (Z.leb_gt _ _)) by lia. rewrite (proj2 (Z.leb_le _ _)) by lia. rewrite s32_sum_l. f_equal. lia. }
  rewrite E, IH by (try done; lia). f_equal. lia.
Qed.

Lemma digits_ok bs : Forall is_byte bs -> Forall (fun d => 0 <= d < 16) (digits bs) /\ alen (digits bs) = 2 * alen bs.
Proof.
  induction 1 as [|b bs Hb Hbs [IH1 IH2]]; [done|]. unfold digits in *. cbn [fmap list_fmap concat app]. unfold is_byte in Hb. split.
  - repeat (apply Forall_cons; split); [zlia|zlia|done].
  - unfold alen in *. cbn [length]. lia.
Qed.

Lemma hv_digits bs : Forall is_byte bs -> hv (digits bs) = be bs.
Proof.
  induction 1 as [|b bs Hb Hbs IH]; [done|]. change (digits (b :: bs)) with (b `div` 16 :: b `mod` 16 :: digits bs). cbn [hv be].
  rewrite IH. destruct (digits_ok bs Hbs) as [_ Hl]. replace (alen (b `mod` 16 :: digits bs)) with (2 * alen bs + 1) by (unfold alen in *; cbn [length]; lia).
  rewrite Hl. rewrite Z.pow_add_r, (Z.pow_mul_r 16) by (unfold alen; lia). change (16 ^ 2) with 256. change (16 ^ 1) with 16.
  pose proof (Z.div_mod b 16 ltac:(lia)). nia.
Qed.

Lemma field_at line i bs : Forall is_byte bs -> at_ line i (hexs bs) -> field line i (2 * alen bs) = Some (s32 (be bs)).
Proof.
  intros Hbs Hat. destruct (digits_ok bs Hbs) as [Hd Hl]. unfold field, substring.
  replace (Z.to_nat (2 * alen bs)) with (length (hexs bs)) by (unfold hexs; rewrite length_fmap; unfold alen in *; lia).
  rewrite (substring_at _ _ _ Hat). cbn [mbind option_bind]. f_equal. unfold hex2int.
  unfold hexs. rewrite (hex2int_digits (digits bs) _ 0 0); [|done|lia|unfold alen; rewrite length_fmap; lia].
  by rewrite hv_digits.
Qed.

Lemma byte_at line i b : is_byte b -> at_ line i (hexs [b]) -> field line i 2 = Some b.
Proof.
  intros Hb Hat. pose proof (field_at line i [b] ltac:(by constructor) Hat) as H. change (2 * alen [b]) with 2 in H. rewrite H. f_equal.
  change (be [b]) with (b * 1 + 0). unfold is_byte in Hb. rewrite s32_id by (unfold is_s32; lia). lia.
Qed.

Lemma hexs_cons b bs : hexs (b :: bs) = hexs [b] ++ hexs bs.
Proof. done. Qed.

Lemma hexs_at line i b bs : at_ line i (hexs (b :: bs)) -> at_ line i (hexs [b]) /\ at_ line (i + 2) (hexs bs).
Proof. rewrite hexs_cons. intros H%at_app. done. Qed.

Lemma sum_bound bs : Forall is_byte bs -> 0 <= sum bs <= 255 * alen bs.
Proof. induction 1 as [|b bs Hb Hbs IH]; [done|]. unfold is_byte, alen in *. cbn [sum foldr length]. fold (sum bs). lia. Qed.

Lemma address_sum_at line bs : forall i c, Forall is_byte bs -> at_ line i (hexs bs) -> 0 <= c -> c + 255 * alen bs < 2147483648 ->
  address_sum (length bs) line i c = Some (c + sum bs).
Proof.
  induction bs as [|b bs IH]; intros i c Hbs Hat Hc Hb; cbn [length address_sum]; [by rewrite Z.add_0_r|].
  apply Forall_cons in Hbs as [Hb1 Hbs]. apply hexs_at in Hat as [H1 H2]. rewrite (byte_at _ _ _ Hb1 H1). cbn [mbind option_bind].
  assert (alen (b :: bs) = alen bs + 1) by (unfold alen; cbn; lia). pose proof (alen_nonneg bs). unfold is_byte in Hb1.
  rewrite s32_id by (unfold is_s32; lia). rewrite IH by (try done; lia). cbn [sum foldr]. fold (sum bs). f_equal. lia.
Qed.

(** The bytes [bs] stand in the array from [i] on. *)
Definition bytes_at (data : list Z) (i : Z) (bs : list Z) : Prop := forall k b, bs !! k = Some b -> aget data (i + Z.of_nat k) = Some b.

Lemma read_data_at line bs : forall index i c data, Forall is_byte bs -> at_ line index (hexs bs) -> 0 <= c -> c + 255 * alen bs < 2147483648 ->
  0 <= i -> i + alen bs <= alen data ->
  exists data', read_data (length bs) line index i c data = Some (index + 2 * alen bs, c + sum bs, data') /\ bytes_at data' i bs /\
    alen data' = alen data /\ forall j, j < i -> aget data' j = aget data j.
Proof.
  induction bs as [|b bs IH]; intros index i c data Hbs Hat Hc Hb Hi Hlen; cbn [length read_data].
  { exists data. split_and!; try done. rewrite !Z.add_0_r. done. }
  apply Forall_cons in Hbs as [Hb1 Hbs]. apply hexs_at in Hat as [H1 H2]. rewrite (byte_at _ _ _ Hb1 H1). cbn [mbind option_bind].
  assert (Hal : alen (b :: bs) = alen bs + 1) by (unfold alen; cbn; lia). pose proof (alen_nonneg bs). unfold is_byte in Hb1.
  rewrite Z.mod_small by lia. rewrite aset_in by lia. cbn [mbind option_bind]. rewrite s32_id by (unfold is_s32; lia).
  destruct (IH (index + 2) (i + 1) (c + b) (<[Z.to_nat i := b]> data)) as (d & E & Hd & Hl & Hf); [done|done|lia|lia|lia|rewrite alen_insert; lia|].
  exists d. rewrite alen_insert in Hl. split_and!; [|intros k x Hk|done|].
  - rewrite E. cbn [sum foldr]. fold (sum bs). do 3 f_equal; lia.
  - destruct k as [|k]; [injection Hk as <-|specialize (Hd k x Hk)].
    + rewrite Z.add_0_r, Hf by lia. rewrite aget_insert by lia. by rewrite decide_True.
    + rewrite <- Hd. f_equal. lia.
  - intros j Hj. rewrite Hf by lia. destruct (decide (0 <= j)); [|by rewrite !aget_oob by lia].
    rewrite aget_insert by lia. by rewrite decide_False by lia.
Qed.

Lemma lor_byte x b : 0 <= x < 16777216 -> is_byte b -> Z.lor (Z.shiftl x 8 mod 2 ^ 64) b = x * 256 + b.
Proof.
  unfold is_byte. intros Hx Hb. rewrite Z.shiftl_mul_pow2 by lia. change (2 ^ 8) with 256. rewrite Z.mod_small by lia.
  assert (H : Z.land (x * 256) b = 0).
  { apply Z.bits_inj'. intros k Hk. rewrite Z.land_spec, Z.bits_0. change 256 with (2 ^ 8). rewrite Z.mul_pow2_bits by lia.
    destruct (Z.ltb_spec k 8); [by rewrite Z.testbit_neg_r by lia|].
    replace b with (b mod 2 ^ 8) by (apply Z.mod_small; lia). rewrite Z.mod_pow2_bits_high by lia. apply andb_false_r. }
  rewrite <- Z.lxor_lor, Z.add_nocarry_lxor by done. done.
Qed.

Lemma mem_val_at data i w : is_u32 w -> bytes_at data i (word_bytes w) -> mem_val 4 data i 0 = Some w.
Proof.
  unfold is_u32, UINT_MOD. intros Hw H.
  pose proof (H 0%nat _ eq_refl) as H0. pose proof (H 1%nat _ eq_refl) as H1. pose proof (H 2%nat _ eq_refl) as H2. pose proof (H 3%nat _ eq_refl) as H3.
  change (i + Z.of_nat 1) with (i + 1) in H1. replace (i + Z.of_nat 0) with i in H0 by lia.
  replace (i + Z.of_nat 2) with (i + 1 + 1) in H2 by lia. replace (i + Z.of_nat 3) with (i + 1 + 1 + 1) in H3 by lia.
  cbn [mem_val]. rewrite H0, H1, H2, H3. cbn [mbind option_bind].
  pose proof (Z.div_mod w 256 ltac:(lia)). pose proof (Z.mod_pos_bound w 256 ltac:(lia)).
  rewrite (lor_byte 0) by (unfold is_byte; zlia). rewrite (lor_byte (0 * 256 + _)) by (unfold is_byte; zlia).
  rewrite (lor_byte ((0 * 256 + _) * 256 + _)) by (unfold is_byte; zlia). rewrite lor_byte by (unfold is_byte; zlia). f_equal. zlia.
Qed.

Lemma complement_land c : Z.land (Z.lnot (Z.land c 255)) 255 = 255 - c mod 256.
Proof.
  change 255 with (Z.ones 8). rewrite !Z.land_ones by lia. change (2 ^ 8) with 256. change (Z.ones 8) with 255.
  unfold Z.lnot. zlia.
Qed.

Lemma sum_app l k : sum (l ++ k) = sum l + sum k.
Proof. unfold sum. induction l as [|a l IH]; cbn; [done|]. rewrite IH. lia. Qed.

(** What the decoder makes of a well-formed line. *)
Lemma load_line data0 realloc t addr data check rest s :
  0 <= t <= 9 -> address_length t = Some (alen addr) -> Forall is_byte (body addr data) -> is_byte check -> alen data0 = 255 ->
  exists data', bytes_at data' 0 data /\
    winix_load_srec_mem_val realloc data0 (srec_line t addr data check rest) s =
      (if negb (check =? complement (body addr data)) then Some (0, s)
       else if t =? 3 then load_words realloc (S (Z.to_nat (alen data + 1))) data' 0 (alen data) 0 s
       else if t =? 7 then Some (0, s <| binary_pc := u32 (s32 (be addr)) |>)
       else Some (0, s)).
Proof.
  intros Ht Ha Hb Hc Hd0. pose proof (alen_nonneg addr) as Ha0. pose proof (alen_nonneg data) as Hda.
  apply Forall_cons in Hb as [Hcnt Hb]. pose proof Hb as [Hba Hbd]%Forall_app. pose proof Hcnt as Hcnt1. unfold is_byte in Hcnt1.
  set (line := srec_line t addr data check rest). assert (Hat : at_ line 2 (hexs [alen addr + alen data + 1] ++ hexs addr ++ hexs data ++ hexs [check])).
  { exists [83; 48 + t], rest. split; [|done]. unfold line, srec_line, body, hexs, digits. rewrite fmap_cons, fmap_app, concat_cons, concat_app.
    rewrite !fmap_app. cbn [app]. rewrite <- !app_assoc. done. }
  assert (Hal : forall bs, Forall is_byte bs -> alen (hexs bs) = 2 * alen bs).
  { intros bs H. destruct (digits_ok bs H) as [_ <-]. unfold hexs, alen. by rewrite length_fmap. }
  apply at_app in Hat as [H1 Hat]. apply at_app in Hat as [H2 Hat]. apply at_app in Hat as [H3 H4].
  change (2 + alen (hexs [alen addr + alen data + 1])) with 4 in *. rewrite !Hal in H3, H4 by done. rewrite Hal in H4 by done.
  destruct (read_data_at line data (4 + 2 * alen addr) 0 (alen addr + alen data + 1 + sum addr) data0) as (data' & Er & Hd' & _); [done|done| |pose proof (sum_bound _ Hba); lia|lia|lia|].
  { pose proof (sum_bound _ Hba). lia. }
  exists data'. split; [done|]. unfold winix_load_srec_mem_val. change (aget line 0) with (Some 83). change (aget line 1) with (Some (48 + t)).
  cbn [mbind option_bind]. change (negb (83 =? 83)) with false. cbv iota. replace (48 + t - 48) with t by lia. rewrite Ha.
  rewrite (byte_at line 2 _ Hcnt H1). cbn [mbind option_bind].
  replace (Z.to_nat (alen addr)) with (length addr) by (unfold alen; lia). rewrite (address_sum_at line addr 4 _ Hba H2) by lia. cbn [mbind option_bind].
  assert (Haddr : (if alen addr =? 0 then Some 0 else field line 4 (alen addr * 2)) = Some (s32 (be addr))).
  { destruct (Z.eqb_spec (alen addr) 0) as [E|E].
    - destruct addr; [done|unfold alen in E; cbn in E; lia].
    - rewrite Z.mul_comm. by apply field_at. }
  rewrite Haddr. cbn [mbind option_bind].
  replace (Z.to_nat (alen addr + alen data + 1 - alen addr - 1)) with (length data) by (unfold alen; lia).
  replace (4 + alen addr * 2) with (4 + 2 * alen addr) by lia. rewrite Er. cbn [mbind option_bind].
  rewrite (byte_at line _ _ Hc H4). cbn [mbind option_bind]. rewrite complement_land.
  replace (alen addr + alen data + 1 + sum addr + sum data) with (sum (body addr data)) by (unfold body; cbn [sum foldr]; fold (sum (addr ++ data)); rewrite sum_app; lia).
  fold (complement (body addr data)). replace (alen addr + alen data + 1 - alen addr) with (alen data + 1) by lia.
  by replace (alen data + 1 - 1) with (alen data) by lia.
Qed.

(** ** The array of words *)

(** What the program relies on of realloc: it keeps the words and grants the length. *)
Class Realloc (realloc : list Z -> Z -> option (list Z)) : Prop :=
  realloc_keeps l n : alen l <= n -> exists l', realloc l n = Some l' /\ alen l' = n /\ forall k, k < alen l -> aget l' k = aget l k.

Record holds (s : srec_binary) (ws : list Z) : Prop := {
  hd_len : alen (binary_data s) = binary_size s;
  hd_idx : binary_idx s = alen ws;
  hd_lt : alen ws < binary_size s <= alen ws + 1024;
  hd_words : bytes_at (binary_data s) 0 ws
}.

(** The other fields. *)
Definition same_rest (s s' : srec_binary) : Prop := binary_pc s' = binary_pc s /\ name s' = name s /\ binary_offset s' = binary_offset s.

Section array.
Context (realloc : list Z -> Z -> option (list Z)) `{!Realloc realloc}.

Lemma bytes_at_snoc data i bs b : bytes_at data i bs -> aget data (i + alen bs) = Some b -> bytes_at data i (bs ++ [b]).
Proof.
  intros H Hb k x Hk. apply lookup_app_Some in Hk as [Hk|[Hl Hk]]; [by apply H|].
  apply list_lookup_singleton_Some in Hk as [Hk <-]. replace (Z.of_nat k) with (alen bs) by (unfold alen; lia). done.
Qed.

Lemma srec_add_run s ws w : holds s ws -> is_u32 w -> alen ws < 2147483648 ->
  exists s', srec_add_binary realloc s w = Some s' /\ holds s' (ws ++ [w]) /\ same_rest s s'.
Proof.
  intros [Hl Hi Hlt Hw] Hw32 Hb. pose proof (alen_nonneg ws) as H0. unfold srec_add_binary. rewrite Hi, aset_in by lia. cbn [mbind option_bind].
  rewrite u32_id by done. set (d := <[Z.to_nat (alen ws) := w]> (binary_data s)). set (s1 := s <| binary_data := d |> <| binary_idx ::= _ |>).
  assert (Hd : alen d = binary_size s) by (unfold d; by rewrite alen_insert).
  assert (Hws : bytes_at d 0 (ws ++ [w])).
  { apply bytes_at_snoc.
    - intros k x Hk. pose proof (lookup_lt_Some _ _ _ Hk). unfold d. rewrite aget_insert by lia.
      rewrite decide_False by (unfold alen; lia). by apply Hw.
    - unfold d. rewrite aget_insert by lia. by rewrite decide_True by lia. }
  assert (E : binary_idx s1 = alen ws + 1).
  { change (u32 (binary_idx s + 1) = alen ws + 1). rewrite Hi. apply u32_id. unfold is_u32, UINT_MOD. lia. }
  rewrite E, Z.geb_leb. change (binary_size s1) with (binary_size s).
  assert (Hsn : alen (ws ++ [w]) = alen ws + 1) by (unfold alen; rewrite length_app; cbn; lia).
  destruct (Z.leb_spec (binary_size s) (alen ws + 1)).
  - set (s2 := s1 <| binary_size ::= _ |>). assert (E2 : binary_size s2 = binary_size s + 1024).
    { change (u32 (binary_size s + 1024) = binary_size s + 1024). apply u32_id. unfold is_u32, UINT_MOD. lia. }
    change (binary_data s2) with d. rewrite E2. destruct (realloc_keeps d (binary_size s + 1024)) as (d' & -> & Hl' & Hk'); [lia|].
    cbn [mbind option_bind]. eexists. split; [reflexivity|]. split; [|done]. split.
    + change (alen d' = binary_size s2). lia.
    + change (binary_idx s1 = alen (ws ++ [w])). lia.
    + change (alen (ws ++ [w]) < binary_size s2 <= alen (ws ++ [w]) + 1024). lia.
    + intros k x Hk. pose proof (lookup_lt_Some _ _ _ Hk) as Hlt'. change (aget d' (0 + Z.of_nat k) = Some x). rewrite Hk'; [by apply Hws|].
      unfold alen in *. lia.
  - eexists. split; [reflexivity|]. split; [|done]. split; [done|by rewrite Hsn| |done].
    change (alen (ws ++ [w]) < binary_size s <= alen (ws ++ [w]) + 1024). lia.
Qed.

Definition words_bytes (vs : list Z) : list Z := concat (word_bytes <$> vs).

Lemma words_bytes_len vs : alen (words_bytes vs) = 4 * alen vs.
Proof. unfold words_bytes, alen. induction vs as [|v vs IH]; [done|]. cbn [fmap list_fmap concat]. rewrite length_app. cbn [length word_bytes] in *. lia. Qed.

Lemma bytes_at_app data i l1 l2 : bytes_at data i (l1 ++ l2) -> bytes_at data i l1 /\ bytes_at data (i + alen l1) l2.
Proof.
  intros H. split; intros k b Hk.
  - apply H. by apply lookup_app_l_Some.
  - unfold alen. rewrite <- Z.add_assoc, <- Nat2Z.inj_add. apply H. rewrite lookup_app_r by lia. rewrite <- Hk. f_equal. lia.
Qed.

Lemma load_words_run vs : forall fuel data i loaded s ws, Forall is_u32 vs -> bytes_at data i (words_bytes vs) -> holds s ws ->
  (length vs < fuel)%nat -> alen ws + alen vs < 2147483648 ->
  exists s', load_words realloc fuel data i (i + 4 * alen vs) loaded s = Some (loaded + alen vs, s') /\ holds s' (ws ++ vs) /\ same_rest s s'.
Proof.
  induction vs as [|v vs IH]; intros [|fuel] data i loaded s ws Hvs Hd Hs Hf Hb; try (cbn in Hf; lia); cbn [load_words].
  - change (alen []) with 0. rewrite (proj2 (Z.ltb_ge _ _)) by lia. exists s. rewrite app_nil_r, Z.add_0_r. done.
  - assert (Hal : alen (v :: vs) = alen vs + 1) by (unfold alen; cbn; lia). pose proof (alen_nonneg vs). pose proof (alen_nonneg ws).
    rewrite (proj2 (Z.ltb_lt _ _)) by lia. apply Forall_cons in Hvs as [Hv Hvs].
    change (words_bytes (v :: vs)) with (word_bytes v ++ words_bytes vs) in Hd. apply bytes_at_app in Hd as [Hd1 Hd2].
    rewrite (mem_val_at _ _ _ Hv Hd1). cbn [mbind option_bind].
    destruct (srec_add_run s ws v Hs Hv) as (s1 & -> & Hs1 & Hr1); [lia|]. cbn [mbind option_bind].
    change (i + alen (word_bytes v)) with (i + 4) in Hd2.
    destruct (IH fuel data (i + 4) (loaded + 1) s1 (ws ++ [v]) Hvs Hd2 Hs1) as (s2 & E & Hs2 & Hr2); [cbn in Hf; lia|unfold alen in *; rewrite length_app; cbn [length] in *; lia|].
    replace (i + 4 * alen (v :: vs)) with (i + 4 + 4 * alen vs) by lia. rewrite E. exists s2. rewrite <- app_assoc in Hs2.
    split; [do 2 f_equal; lia|]. split; [exact Hs2|]. unfold same_rest in *. intuition congruence.
Qed.
End array.

(** ** Whole files *)
Inductive srec := RData (addr ws : list Z) | REntry (pc : Z) | ROther (t : Z) (addr data : list Z).

Definition rec_body (r : srec) : Z * list Z * list Z :=
  match r with
  | RData addr ws => (3, addr, words_bytes ws)
  | REntry pc => (7, word_bytes pc, [])
  | ROther t addr data => (t, addr, data)
  end.
(** [rest] is what follows in the buffer. *)
Definition line_of (r : srec) (rest : list Z) : list Z :=
  let '(t, addr, data) := rec_body r in srec_line t addr data (complement (body addr data)) rest.

Definition rec_ok (r : srec) : Prop :=
  match r with
  | RData addr ws => alen addr = 4 /\ Forall is_byte addr /\ Forall is_u32 ws /\ alen ws <= 62
  | REntry pc => is_u32 pc
  | ROther t addr data => 0 <= t <= 9 /\ t <> 3 /\ t <> 7 /\ address_length t = Some (alen addr) /\ Forall is_byte (addr ++ data) /\
      alen addr + alen data < 255
  end.

Definition rec_words (r : srec) : list Z := match r with RData _ ws => ws | _ => [] end.
Definition program_words (rs : list srec) : list Z := concat (rec_words <$> rs).
Fixpoint program_entry (rs : list srec) (pc : Z) : Z :=
  match rs with [] => pc | REntry pc' :: rs' => program_entry rs' pc' | _ :: rs' => program_entry rs' pc end.

Lemma word_bytes_ok w : is_u32 w -> Forall is_byte (word_bytes w) /\ be (word_bytes w) = w.
Proof.
  unfold is_u32, UINT_MOD. intros H. split; [unfold word_bytes, is_byte; repeat (apply Forall_cons; split); try apply Forall_nil; zlia|].
  unfold word_bytes, be, alen. cbn [length]. zlia.
Qed.

Lemma words_bytes_ok ws : Forall is_u32 ws -> Forall is_byte (words_bytes ws).
Proof. induction 1 as [|w ws Hw Hws IH]; [constructor|]. apply Forall_app. split; [by apply word_bytes_ok|done]. Qed.

Lemma complement_byte bs : is_byte (complement bs).
Proof. unfold is_byte, complement. pose proof (Z.mod_pos_bound (sum bs) 256). lia. Qed.

Lemma u32_s32 z : is_u32 z -> u32 (s32 z) = z.
Proof. unfold is_u32, u32, s32, UINT_MOD. zlia. Qed.

Section files.
Context (realloc : list Z -> Z -> option (list Z)) `{!Realloc realloc}.
Context (data0 : list Z) (Hdata0 : alen data0 = 255).

Lemma load_record r rest s ws : rec_ok r -> holds s ws -> alen ws + alen (rec_words r) < 2147483648 ->
  exists s', winix_load_srec_mem_val realloc data0 (line_of r rest) s = Some (alen (rec_words r), s') /\ holds s' (ws ++ rec_words r) /\
    binary_pc s' = program_entry [r] (binary_pc s) /\ name s' = name s /\ binary_offset s' = binary_offset s.
Proof.
  intros Hr Hs Hb. unfold line_of. destruct r as [addr vs|pc|t addr data]; cbn [rec_body rec_words program_entry] in *.
  - destruct Hr as (Ha & Hab & Hvs & Hl). pose proof (words_bytes_len vs) as Hwl. pose proof (alen_nonneg vs).
    destruct (load_line data0 realloc 3 addr (words_bytes vs) (complement (body addr (words_bytes vs))) rest s) as (d & Hd & E);
      [lia|by rewrite Ha| |apply complement_byte|done|].
    { constructor; [unfold is_byte; lia|]. apply Forall_app. split; [done|by apply words_bytes_ok]. }
    rewrite E, Z.eqb_refl. cbn [negb]. change (3 =? 3) with true. cbv iota. rewrite Hwl.
    destruct (load_words_run realloc vs (S (Z.to_nat (4 * alen vs + 1))) d 0 0 s ws Hvs Hd Hs) as (s' & E' & Hs' & Hr'); [unfold alen in *; lia|lia|].
    rewrite !Z.add_0_l in E'. rewrite E'. exists s'. destruct Hr' as (? & ? & ?). done.
  - destruct (word_bytes_ok pc Hr) as [Hw Hbe].
    destruct (load_line data0 realloc 7 (word_bytes pc) [] (complement (body (word_bytes pc) [])) rest s) as (d & _ & E);
      [lia|done| |apply complement_byte|done|].
    { constructor; [change (0 <= 5 < 256); lia|]. by rewrite app_nil_r. }
    rewrite E, Z.eqb_refl. cbn [negb]. change (7 =? 3) with false. change (7 =? 7) with true. cbv iota.
    rewrite Hbe, u32_s32 by done. eexists. split; [reflexivity|]. rewrite app_nil_r. split; [by destruct Hs|done].
  - destruct Hr as (Ht & H3 & H7 & Ha & Hab & Hl). pose proof (alen_nonneg addr). pose proof (alen_nonneg data).
    destruct (load_line data0 realloc t addr data (complement (body addr data)) rest s) as (d & _ & E); [done|done| |apply complement_byte|done|].
    { constructor; [unfold is_byte; lia|done]. }
    rewrite E, Z.eqb_refl. cbn [negb]. rewrite (proj2 (Z.eqb_neq t 3)), (proj2 (Z.eqb_neq t 7)) by done.
    exists s. by rewrite app_nil_r.
Qed.

Lemma program_words_cons r rs : program_words (r :: rs) = rec_words r ++ program_words rs.
Proof. done. Qed.

Lemma load_lines_run rs lines : Forall2 (fun r line => rec_ok r /\ exists rest, line = line_of r rest) rs lines -> forall loaded s ws,
  holds s ws -> alen ws + alen (program_words rs) < 2147483648 ->
  exists s', load_lines realloc data0 lines loaded s = Some (loaded + alen (program_words rs), s') /\ holds s' (ws ++ program_words rs) /\
    binary_pc s' = program_entry rs (binary_pc s) /\ name s' = name s.
Proof.
  induction 1 as [|r line rs lines (Hr & rest & ->) HF IH]; intros loaded s ws Hs Hb; cbn [load_lines].
  - exists s. cbn. rewrite app_nil_r. change (alen (program_words [])) with 0. by rewrite Z.add_0_r.
  - rewrite program_words_cons in *. assert (Hal : alen (rec_words r ++ program_words rs) = alen (rec_words r) + alen (program_words rs)) by (unfold alen; rewrite length_app; lia).
    pose proof (alen_nonneg (program_words rs)).
    destruct (load_record r rest s ws Hr Hs) as (s1 & -> & Hs1 & Hpc & Hn & _); [lia|]. cbn [mbind option_bind].
    destruct (IH (loaded + alen (rec_words r)) s1 _ Hs1) as (s2 & E & Hs2 & Hpc2 & Hn2); [unfold alen in *; rewrite length_app; lia|].
    exists s2. rewrite E, Hal, app_assoc. split; [do 2 f_equal; lia|]. split; [done|]. split; [|by rewrite Hn2]. rewrite Hpc2, Hpc. by destruct r.
Qed.

(** C30: the decoder reads back the program the linker wrote: for every sequence of
    well-formed records, whatever the addresses, the array holds the words of the S3
    records in order through all its reallocations, their number is the index, the entry
    point is that of the last S7 record, and the other records change nothing. *)
Theorem decode_srec_reads basename path nm offset rs lines :
  name_of basename path = Some nm ->
  Forall2 (fun r line => rec_ok r /\ exists rest, line = line_of r rest) rs lines -> alen (program_words rs) < 2147483648 ->
  exists s, decode_srec realloc data0 basename path offset lines = Some s /\ binary_idx s = alen (program_words rs) /\
    bytes_at (binary_data s) 0 (program_words rs) /\ binary_pc s = program_entry rs 0 /\ binary_offset s = offset /\ name s = nm.
Proof.
  intros Hn HF Hb. unfold decode_srec. rewrite Hn. cbn [mbind option_bind].
  assert (H0 : holds (init_srec_binary_struct <| name := nm |>) []) by (split; [done|done|by vm_compute|by intros k b Hk]).
  destruct (load_lines_run rs lines HF 0 _ [] H0) as (s & -> & [Hl Hi Hlt Hw] & Hpc & Hnm); [done|]. cbn [mbind option_bind snd].
  eexists. split; [reflexivity|]. done.
Qed.

(** A line whose last byte is not the complement of the sum of the bytes before it is
    refused: nothing is loaded and the entry point stays. *)
Theorem bad_checksum_refused t addr data check rest s :
  0 <= t <= 9 -> address_length t = Some (alen addr) -> Forall is_byte (body addr data) -> is_byte check -> check <> complement (body addr data) ->
  winix_load_srec_mem_val realloc data0 (srec_line t addr data check rest) s = Some (0, s).
Proof.
  intros Ht Ha Hb Hc Hne. destruct (load_line data0 realloc t addr data check rest s Ht Ha Hb Hc Hdata0) as (d & _ & ->).
  by rewrite (proj2 (Z.eqb_neq _ _)).
Qed.
End files.

(** "S30D00000400" with the words 0x12345678 and 0xdeadbeef, entry at 0x412. *)
Definition grow (l : list Z) (n : Z) : option (list Z) := Some (l ++ replicate (Z.to_nat n - length l) 0).
#[export] Instance grow_realloc : Realloc grow.
Proof.
  intros l n Hn. eexists. split; [reflexivity|]. split.
  - unfold alen in *. rewrite length_app, length_replicate. lia.
  - intros k Hk. unfold aget. case_decide; [|done]. apply lookup_app_l. unfold alen in Hk. lia.
Qed.

Definition two_words : list srec := [ROther 0 [0; 0] [72; 73]; RData [0; 0; 4; 0] [0x12345678; 0xdeadbeef]; REntry 0x412].
Lemma decode_srec_reads_witness :
  exists s, decode_srec grow (replicate 255 7) id [99; 46; 115] 2048 ((fun r => line_of r [10; 0]) <$> two_words) = Some s /\
    binary_idx s = 2 /\ aget (binary_data s) 1 = Some 0xdeadbeef /\ binary_pc s = 0x412 /\ name s = [99].
Proof.
  destruct (decode_srec_reads grow (replicate 255 7) eq_refl id [99; 46; 115] [99] 2048 two_words ((fun r => line_of r [10; 0]) <$> two_words))
    as (s & E & Hi & Hw & Hpc & _ & Hn).
  - done.
  - assert (H : Forall rec_ok two_words).
    { assert (forall b, In b [0; 1; 2; 3; 4; 72; 73] -> is_byte b) as Hb by (intros b Hb; unfold is_byte; cbn in Hb; lia).
      repeat (apply Forall_cons; split); [| | |apply Forall_nil; done].
      - do 3 (split; [unfold alen; cbn; lia|]). split; [done|]. split; [|unfold alen; cbn; lia].
        repeat (apply Forall_cons; split); try apply Forall_nil; try done; apply Hb; cbn; tauto.
      - split; [done|]. split; [|split; [|unfold alen; cbn; lia]].
        + repeat (apply Forall_cons; split); try apply Forall_nil; try done; apply Hb; cbn; tauto.
        + repeat (apply Forall_cons; split); try apply Forall_nil; try done; unfold is_u32, UINT_MOD; lia.
      - unfold rec_ok, is_u32, UINT_MOD. lia. }
    clear -H. induction H as [|r rs Hr Hrs IH]; [constructor|]. constructor; [split; [done|by exists [10; 0]]|exact IH].
  - by vm_compute.
  - exists s. split_and!; [exact E|exact Hi|exact (Hw 1%nat _ eq_refl)|exact Hpc|exact Hn].
Defined.

Lemma bad_checksum_refused_witness :
  winix_load_srec_mem_val grow (replicate 255 0) (srec_line 7 [0; 0; 4; 18] [] 228 [10; 0]) init_srec_binary_struct = Some (0, init_srec_binary_struct <| binary_pc := 1042 |>) /\
  winix_load_srec_mem_val grow (replicate 255 0) (srec_line 7 [0; 0; 4; 18] [] 229 [10; 0]) init_srec_binary_struct = Some (0, init_srec_binary_struct).
Proof.
  split; [reflexivity|]. apply (bad_checksum_refused grow (replicate 255 0) eq_refl).
  - lia.
  - done.
  - repeat (apply Forall_cons; split); try apply Forall_nil; try done; unfold is_byte; cbn; lia.
  - unfold is_byte. lia.
  - by vm_compute.
Defined.
