(* ===== verification/Ustdio.v ===== *)
(** * lib/stdio/stdio.c and the counting of user/commands/wc.c and grep.c

    A FILE and the results of the reads to come: the kernel hands out the text in chunks
    of its choice, and nothing at its end.  [_ptr] is an index into the buffer. *)
From S2P Require Import Prelude.

Definition BUFFER_SIZ : Z := 32.
Definition EOF : Z := -1.
Definition _IOEOF : Z := 16.

Record FILE := mkFile {
  _flags : Z;
  _bufsiz : Z;
  _count : Z;
  _buf : option (list Z);
  _ptr : option Z;
  reads : list (list Z)
}.
#[export] Instance eta_file : Settable FILE := mkEta (fun f => mkFile (_flags f) (_bufsiz f) (_count f) (_buf f) (_ptr f) (reads f)).
Notation F := (ST FILE).

(** read(fd, buf, n): the words arrive at the front of the buffer; the result is their
    number, 0 at the end of the text. *)
Definition read (n : Z) : F Z :=
  f ← getS;
  match reads f with
  | [] => mret 0
  | c :: rs =>
      b ← liftO (_buf f);
      if (alen c <=? n) && (alen c <=? alen b) then
        _ ← modifyS (fun f => f <| _buf := Some (c ++ drop (length c) b) |> <| reads := rs |>); mret (alen c)
      else crash
  end.

Section stdio.
(** The words sbrk hands out. *)
Context (fresh : list Z).

Definition getc : F Z :=
  f ← getS;
  if negb (Z.land (_flags f) _IOEOF =? 0) then mret EOF
  else
    _ ← (match _buf f with
         | None => modifyS (fun f => f <| _buf := Some fresh |> <| _bufsiz := BUFFER_SIZ |>)
         | Some _ => mret tt
         end);
    f ← getS;
    let refill := match _ptr f with None => true | Some p => p >=? _count f end in
    ok ← (if refill : bool then
            ret ← read (_bufsiz f);
            if ret <=? 0 then _ ← modifyS (fun f => f <| _flags ::= fun x => Z.lor x _IOEOF |>); mret false
            else _ ← modifyS (fun f => f <| _count := ret |> <| _ptr := Some 0 |>); mret true
          else mret true);
    if negb (ok : bool) then mret EOF
    else
      f ← getS;
      p ← liftO (_ptr f);
      b ← liftO (_buf f);
      c ← liftO (aget b p);
      _ ← modifyS (fun f => f <| _ptr := Some (p + 1) |>);
      mret c.

(** ** wc *)
Definition isspace (c : Z) : bool := (c =? 32) || (c =? 9) || (c =? 10).

Fixpoint count_loop (fuel : nat) (word : bool) (lcount wcount ccount : Z) : F (Z * Z * Z) :=
  match fuel with
  | O => crash
  | S n =>
      c ← getc;
      if c >? 0 then
        let wcount := if isspace c && word then wcount + 1 else wcount in
        let lcount := if (c =? 10) || (c =? 12) then lcount + 1 else lcount in
        count_loop n (negb (isspace c)) lcount wcount (ccount + 1)
      else mret (lcount, wcount, ccount)
  end.
Definition count (fuel : nat) : F (Z * Z * Z) := count_loop fuel false 0 0 0.

(** The flags of the command line after the '-'; [None] is usage(). *)
Fixpoint wc_flags (cp : list Z) (lflag wflag cflag : Z) : option (Z * Z * Z) :=
  match cp with
  | [] => Some (lflag, wflag, cflag)
  | c :: cp' =>
      if c =? 108 then wc_flags cp' (lflag + 1) wflag cflag
      else if c =? 119 then wc_flags cp' lflag (wflag + 1) cflag
      else if c =? 99 then wc_flags cp' lflag wflag (cflag + 1)
      else None
  end.
Definition wc_options (argv1 : option (list Z)) : option (Z * Z * Z) :=
  r ← match argv1 with
      | Some (c :: cp) => if c =? 45 then wc_flags cp 0 0 0 else Some (0, 0, 0)
      | _ => Some (0, 0, 0)
      end;
  let '(l, w, c) := (r : Z * Z * Z) in
  Some (if (l =? 0) && (w =? 0) && (c =? 0) then (1, 1, 1) else (l, w, c)).

(** ** grep: one line into [buf]; the result is its length, -1 at the end. *)
Fixpoint getline_loop (fuel : nat) (buf : list Z) (i size : Z) : F (Z * list Z) :=
  match fuel with
  | O => crash
  | S n =>
      c ← getc;
      buf ← liftO (aset buf i c);
      let i := i + 1 in
      if c <? 0 then mret (-1, buf)
      else if (i =? size - 1) || (c =? 10) then buf ← liftO (aset buf i 0); mret (i, buf)
      else getline_loop n buf i size
  end.
(** A round fills one place of the buffer. *)
Definition getline (buf : list Z) (size : Z) : F (Z * list Z) := getline_loop (Z.to_nat size) buf 0 size.

(** ** The stream *)

(** The text that is left: the rest of the buffer and the chunks. *)
Definition buffered (f : FILE) : list Z :=
  match _ptr f, _buf f with
  | Some p, Some b => take (Z.to_nat (_count f - p)) (drop (Z.to_nat p) b)
  | _, _ => []
  end.
Definition remaining (f : FILE) : list Z := buffered f ++ concat (reads f).

Record stream (f : FILE) : Prop := {
  st_eof : Z.land (_flags f) _IOEOF = 0 \/ remaining f = [];
  st_buf : match _buf f with None => _ptr f = None | Some b => _bufsiz f = BUFFER_SIZ /\ alen b = BUFFER_SIZ end;
  st_ptr : forall p, _ptr f = Some p -> 0 <= p /\ 0 <= _count f <= BUFFER_SIZ;
  st_reads : Forall (fun c => c <> [] /\ alen c <= BUFFER_SIZ) (reads f)
}.

Lemma buffered_step f p b : _ptr f = Some p -> _buf f = Some b -> 0 <= p < _count f -> _count f <= alen b ->
  exists c, aget b p = Some c /\ buffered f = c :: buffered (f <| _ptr := Some (p + 1) |>).
Proof.
  intros Hp Hb Hc Hl. destruct (aget_in b p) as [c Hget]; [lia|]. exists c. split; [done|]. unfold buffered at 1. rewrite Hp, Hb.
  change (buffered (f <| _ptr := Some (p + 1) |>)) with (match _buf f with Some b => take (Z.to_nat (_count f - (p + 1))) (drop (Z.to_nat (p + 1)) b) | None => [] end).
  rewrite Hb. unfold aget in Hget. rewrite decide_True in Hget by lia. rewrite (drop_S b c) by done.
  replace (Z.to_nat (_count f - p)) with (S (Z.to_nat (_count f - (p + 1)))) by lia. cbn [take]. do 3 f_equal. lia.
Qed.

Lemma buffered_done f : (match _ptr f with None => true | Some p => p >=? _count f end) = true -> buffered f = [].
Proof.
  unfold buffered. destruct (_ptr f) as [p|]; [|done]. rewrite Z.geb_leb. intros H%Z.leb_le. destruct (_buf f); [|done].
  by replace (Z.to_nat (_count f - p)) with 0%nat by lia.
Qed.

(** The end of [getc]: the next word of the buffer. *)
Definition next_char : F Z :=
  f ← getS; p ← liftO (_ptr f); b ← liftO (_buf f); c ← liftO (aget b p); _ ← modifyS (fun f => f <| _ptr := Some (p + 1) |>); mret c.

Lemma next_char_run f p b : stream f -> _ptr f = Some p -> _buf f = Some b -> p < _count f -> Z.land (_flags f) _IOEOF = 0 ->
  exists c f', next_char f = Some (c, f') /\ remaining f = c :: remaining f' /\ stream f'.
Proof.
  intros [He Hbf Hpt Hr] Hp Hb Hc Hfl. rewrite Hb in Hbf. destruct Hbf as [Hsz Hl]. destruct (Hpt p Hp) as [Hp0 Hcount].
  destruct (buffered_step f p b Hp Hb ltac:(lia) ltac:(lia)) as (c & Hget & Hbuf). exists c, (f <| _ptr := Some (p + 1) |>). split_and!.
  - unfold next_char. rewrite (bind_run _ _ f f f), (bind_run _ _ f p f) by (done || by rewrite Hp).
    rewrite (bind_run _ _ f b f) by (by rewrite Hb). by rewrite (bind_run _ _ f c f) by (by rewrite Hget).
  - unfold remaining. rewrite Hbuf. done.
  - split; [by left|gsimpl; by rewrite Hb|intros q [= <-]; split; [lia|done]|done].
Qed.

Hypothesis fresh_len : alen fresh = BUFFER_SIZ.

Lemma getc_run f : stream f ->
  match remaining f with
  | [] => exists f', getc f = Some (EOF, f') /\ stream f' /\ remaining f' = []
  | c :: t => exists f', getc f = Some (c, f') /\ stream f' /\ remaining f' = t
  end.
Proof.
  intros Hst. pose proof Hst as [He Hbf Hpt Hr]. unfold getc. rewrite (bind_run _ _ f f f) by done.
  destruct (Z.eqb_spec (Z.land (_flags f) _IOEOF) 0) as [E0|E0]; cbn [negb].
  2:{ destruct He as [He|He]; [done|]. rewrite He. by exists f. }
  set (f1 := match _buf f with None => f <| _buf := Some fresh |> <| _bufsiz := BUFFER_SIZ |> | Some _ => f end).
  rewrite (bind_run _ _ f tt f1) by (unfold f1; by destruct (_buf f)).
  assert (Hst1 : stream f1).
  { unfold f1. destruct (_buf f) as [b|] eqn:Eb; [done|]. split; [by left|done|intros p Hp; change (_ptr f = Some p) in Hp; congruence|done]. }
  assert (Hrem : remaining f = remaining f1).
  { unfold f1. destruct (_buf f) as [b|] eqn:Eb; [done|]. unfold remaining, buffered. gsimpl. by rewrite Hbf. }
  assert (E1 : Z.land (_flags f1) _IOEOF = 0) by (unfold f1; by destruct (_buf f)).
  assert (Hb1 : exists b, _buf f1 = Some b /\ _bufsiz f1 = BUFFER_SIZ /\ alen b = BUFFER_SIZ).
  { unfold f1. destruct (_buf f) as [b|] eqn:Eb; [|by exists fresh]. by exists b. }
  rewrite Hrem. clearbody f1. destruct Hb1 as (b & Hb & Hsz & Hl). pose proof Hst1 as [He1 Hbf1 Hpt1 Hr1].
  rewrite (bind_run _ _ f1 f1 f1) by done. fold next_char.
  destruct (match _ptr f1 with None => true | Some p => p >=? _count f1 end) eqn:Eref.
  - unfold remaining. rewrite (buffered_done _ Eref). cbn [app]. destruct (reads f1) as [|c rs] eqn:Ers.
    + set (f2 := f1 <| _flags ::= fun x => Z.lor x _IOEOF |>). cbn [concat].
      rewrite (bind_run _ _ f1 false f2).
      2:{ rewrite (bind_run _ _ f1 0 f1) by (unfold read; rewrite (bind_run _ _ f1 f1 f1) by done; by rewrite Ers). done. }
      exists f2. assert (R : remaining f2 = []).
      { unfold remaining. change (reads f2) with (reads f1). rewrite Ers. change (buffered f2) with (buffered f1). by rewrite buffered_done. }
      split_and!; [done| |done]. split; [by right|exact Hbf1|exact Hpt1|change (reads f2) with (reads f1); by rewrite Ers].
    + apply Forall_cons in Hr1 as [[Hne Hcl] Hrs]. pose proof (alen_nonneg c) as Hc0.
      assert (Hc1 : 0 < alen c) by (destruct c; [done|unfold alen; cbn; lia]).
      set (b2 := c ++ drop (length c) b). assert (Hl2 : alen b2 = BUFFER_SIZ).
      { unfold b2, alen in *. rewrite length_app, length_drop. lia. }
      set (f2 := f1 <| _buf := Some b2 |> <| reads := rs |>). set (f3 := f2 <| _count := alen c |> <| _ptr := Some 0 |>).
      rewrite (bind_run _ _ f1 true f3).
      2:{ rewrite (bind_run _ _ f1 (alen c) f2).
          2:{ unfold read. rewrite (bind_run _ _ f1 f1 f1) by done. rewrite Ers, Hb, Hsz. rewrite (bind_run _ _ f1 b f1) by done.
              rewrite !(proj2 (Z.leb_le _ _)) by lia. done. }
          by rewrite (proj2 (Z.leb_gt _ _)) by lia. }
      assert (Hst3 : stream f3).
      { split; [by left|done|intros p [= <-]; change (_count f3) with (alen c); lia|exact Hrs]. }
      assert (Hrem3 : remaining f3 = c ++ concat rs).
      { unfold remaining. change (reads f3) with rs. f_equal. unfold buffered. cbn [_ptr f3].
        change (take (Z.to_nat (alen c - 0)) (drop (Z.to_nat 0) b2) = c).
        replace (Z.to_nat (alen c - 0)) with (length c) by (unfold alen; lia). exact (take_app_length c _). }
      cbn [negb]. destruct (next_char_run f3 0 b2 Hst3 eq_refl eq_refl) as (x & f4 & E & Hx & Hst4); [change (0 < alen c); lia|done|].
      rewrite E. change (concat (c :: rs)) with (c ++ concat rs). rewrite <- Hrem3, Hx. by exists f4.
  - rewrite (bind_run _ _ f1 true f1) by done. cbn [negb]. destruct (_ptr f1) as [p|] eqn:Ep; [|done].
    rewrite Z.geb_leb in Eref. apply Z.leb_gt in Eref.
    destruct (next_char_run f1 p b Hst1 Ep Hb Eref E1) as (x & f4 & -> & -> & Hst4). by exists f4.
Qed.

(** At the end of the text the FILE keeps that in mind, whatever a later read would yield. *)
Definition at_eof (f : FILE) : Prop := Z.land (_flags f) _IOEOF <> 0.

Lemma getc_at_eof f : at_eof f -> getc f = Some (EOF, f).
Proof. intros H. unfold getc. rewrite (bind_run _ _ f f f) by done. by rewrite (proj2 (Z.eqb_neq _ 0)) by exact H. Qed.

Lemma getc_end f : stream f -> remaining f = [] -> exists f', getc f = Some (EOF, f') /\ at_eof f'.
Proof.
  intros Hst Hrem. pose proof Hst as [He Hbf Hpt Hr]. unfold getc. rewrite (bind_run _ _ f f f) by done.
  destruct (Z.eqb_spec (Z.land (_flags f) _IOEOF) 0) as [E0|E0]; cbn [negb]; [|by exists f].
  set (f1 := match _buf f with None => f <| _buf := Some fresh |> <| _bufsiz := BUFFER_SIZ |> | Some _ => f end).
  rewrite (bind_run _ _ f tt f1) by (unfold f1; by destruct (_buf f)). rewrite (bind_run _ _ f1 f1 f1) by done.
  apply app_eq_nil in Hrem as [Hb Hrd]. assert (Hrd1 : reads f1 = []).
  { assert (reads f = []) as E. { destruct (reads f) as [|c rs]; [done|]. apply Forall_cons in Hr as [[Hc _] _]. by destruct c. } unfold f1. by destruct (_buf f). }
  assert (Eref : (match _ptr f1 with None => true | Some p => p >=? _count f1 end) = true).
  { unfold f1. destruct (_buf f) as [b|] eqn:Eb; [|gsimpl; by rewrite Hbf]. destruct (_ptr f) as [p|] eqn:Ep; [|done]. rewrite Z.geb_leb. apply Z.leb_le.
    destruct (decide (_count f <= p)); [done|]. exfalso. destruct (Hpt p eq_refl) as [? ?]. destruct Hbf as [_ Hl].
    destruct (buffered_step f p b Ep Eb) as (c & _ & Hbs); [lia|lia|]. by rewrite Hb in Hbs. }
  rewrite Eref. set (f2 := f1 <| _flags ::= fun x => Z.lor x _IOEOF |>). rewrite (bind_run _ _ f1 false f2).
  2:{ rewrite (bind_run _ _ f1 0 f1) by (unfold read; rewrite (bind_run _ _ f1 f1 f1) by done; by rewrite Hrd1). done. }
  exists f2. split; [done|]. unfold at_eof. change (_flags f2) with (Z.lor (_flags f1) _IOEOF). intros H%(f_equal (fun z => Z.testbit z 4)).
  by rewrite Z.land_spec, Z.lor_spec, orb_true_r, Z.bits_0 in H.
Qed.

(** [getc] hands out the text word by word, however it is cut into chunks. *)
Fixpoint getcs (n : nat) : F (list Z) :=
  match n with O => mret [] | S n' => c ← getc; r ← getcs n'; mret (c :: r) end.

Lemma getcs_run n : forall f, stream f -> exists f', getcs n f = Some (take n (remaining f ++ replicate n EOF), f') /\ stream f'.
Proof.
  induction n as [|n IH]; intros f Hst; cbn [getcs]; [by exists f|]. pose proof (getc_run f Hst) as H.
  destruct (remaining f) as [|c t] eqn:E; destruct H as (f1 & E1 & Hst1 & Hr1); rewrite (bind_run _ _ _ _ _ E1);
    destruct (IH f1 Hst1) as (f2 & E2 & Hst2); rewrite (bind_run _ _ _ _ _ E2); rewrite Hr1; exists f2; split; try done.
  cbn [app take]. rewrite (replicate_S_end n EOF), app_assoc. rewrite (take_app_le (t ++ replicate n EOF)); [done|].
  rewrite length_app, length_replicate. lia.
Qed.

(** ** The reference of wc *)

(** White space: the tab, the newline and the space. *)
Definition white (c : Z) : bool := bool_decide (c ∈ [9; 10; 32]).

Lemma isspace_white c : isspace c = white c.
Proof.
  unfold isspace, white. destruct (Z.eqb_spec c 32); destruct (Z.eqb_spec c 9); destruct (Z.eqb_spec c 10); cbn; symmetry;
    first [apply bool_decide_eq_true; subst; set_solver|apply bool_decide_eq_false; set_solver].
Qed.

(** The text between the white space. *)
Fixpoint fields (l : list Z) : list (list Z) :=
  match l with
  | [] => [[]]
  | c :: l' =>
      if white c then [] :: fields l'
      else match fields l' with w :: ws => (c :: w) :: ws | [] => [[c]] end
  end.
Definition nonempty (w : list Z) : bool := match w with [] => false | _ => true end.
(** The words that white space follows. *)
Definition words_of (l : list Z) : Z := alen (filter (fun w => nonempty w = true) (removelast (fields l))).
Definition lines_of (l : list Z) : Z := alen (filter (fun c => c = 10 \/ c = 12) l).

(** With a word begun before the text. *)
Definition words_from (word : bool) (l : list Z) : Z :=
  match fields l with
  | w :: (_ :: _) as ws => (if word || nonempty w then 1 else 0) + alen (filter (fun w => nonempty w = true) (removelast (tail (fields l))))
  | _ => 0
  end.

Lemma fields_cons l : exists w ws, fields l = w :: ws.
Proof. destruct l as [|c l]; cbn; [eauto|]. destruct (white c); [eauto|]. destruct (fields l) as [|w ws]; eauto. Qed.

Lemma words_from_false l : words_from false l = words_of l.
Proof.
  unfold words_from, words_of. destruct (fields_cons l) as (w & ws & ->). destruct ws as [|w2 ws]; [done|].
  cbn [tail orb]. change (removelast (w :: w2 :: ws)) with (w :: removelast (w2 :: ws)). rewrite filter_cons.
  unfold alen. destruct w as [|x w]; cbn [nonempty]; case_decide; try done; cbn [length]; lia.
Qed.

Lemma words_from_cons word c l : words_from word (c :: l) = (if white c && word then 1 else 0) + words_from (negb (white c)) l.
Proof.
  unfold words_from. cbn [fields]. destruct (fields_cons l) as (w & ws & E). rewrite E.
  destruct (white c); cbn [negb andb tail orb nonempty].
  - rewrite orb_false_r. destruct ws as [|w2 ws]; [by destruct word|].
    change (removelast (w :: w2 :: ws)) with (w :: removelast (w2 :: ws)). rewrite filter_cons.
    unfold alen. destruct w as [|x w]; cbn [nonempty]; case_decide; try done; cbn [length]; destruct word; lia.
  - destruct ws as [|w2 ws]; [done|]. by rewrite orb_true_r.
Qed.

Lemma lines_of_cons c l : lines_of (c :: l) = (if (c =? 10) || (c =? 12) then 1 else 0) + lines_of l.
Proof.
  unfold lines_of. rewrite filter_cons. destruct (Z.eqb_spec c 10); destruct (Z.eqb_spec c 12); cbn [orb]; case_decide; unfold alen; cbn [length]; try lia; tauto.
Qed.

Lemma count_loop_run l : forall fuel f word lc wc cc, stream f -> remaining f = l -> Forall (fun c => 0 < c) l -> (length l < fuel)%nat ->
  exists f', count_loop fuel word lc wc cc f = Some ((lc + lines_of l, wc + words_from word l, cc + alen l), f').
Proof.
  induction l as [|c l IH]; intros [|fuel] f word lc wc cc Hst Hr Hpos Hf; try (cbn in Hf; lia); cbn [count_loop]; pose proof (getc_run f Hst) as H;
    rewrite Hr in H; destruct H as (f1 & E1 & Hst1 & Hr1); rewrite (bind_run _ _ _ _ _ E1).
  - exists f1. cbn. change (alen (@nil Z)) with 0. by rewrite !Z.add_0_r.
  - apply Forall_cons in Hpos as [Hc Hpos]. rewrite Z.gtb_ltb, (proj2 (Z.ltb_lt 0 c)) by done.
    match goal with |- context [count_loop fuel _ ?a ?b ?d] => destruct (IH fuel f1 (negb (isspace c)) a b d Hst1 Hr1 Hpos) as (f2 & E2); [cbn in Hf; lia|] end.
    rewrite E2. exists f2. rewrite words_from_cons, lines_of_cons, <- isspace_white. assert (alen (c :: l) = alen l + 1) by (unfold alen; cbn; lia).
    do 2 f_equal. f_equal; [f_equal|lia].
    + destruct ((c =? 10) || (c =? 12)); lia.
    + destruct (isspace c && word); lia.
Qed.

(** C32: [count] of wc over any chunking of a text without the character 0: the
    characters are those of the text, the lines its newlines and form feeds, and the words
    its fields between white space - tabs, newlines and spaces - but the last one: a word
    at the very end that no white space follows is not counted.  As many rounds as
    characters and one are enough. *)
Theorem wc_counts f fuel :
  stream f -> Forall (fun c => 0 < c) (remaining f) -> (length (remaining f) < fuel)%nat ->
  exists f', count fuel f = Some ((lines_of (remaining f), words_of (remaining f), alen (remaining f)), f').
Proof.
  intros Hst Hpos Hf. destruct (count_loop_run _ fuel f false 0 0 0 Hst eq_refl Hpos Hf) as (f' & E).
  exists f'. unfold count. rewrite E. by rewrite words_from_false.
Qed.

(** ** Lines of grep *)
Lemma getline_loop_run w : forall fuel f buf i size t, stream f -> remaining f = w ++ t -> Forall (fun c => 0 <= c /\ c <> 10) w ->
  alen buf = size -> 0 <= i -> i + alen w < size - 1 -> (length w <= fuel)%nat ->
  exists buf' f', getline_loop fuel buf i size f = getline_loop (fuel - length w) buf' (i + alen w) size f' /\ stream f' /\ remaining f' = t /\
    alen buf' = size /\ (forall j, 0 <= j < alen w -> aget buf' (i + j) = aget w j) /\ (forall j, j < i -> aget buf' j = aget buf j).
Proof.
  induction w as [|c w IH]; intros fuel f buf i size t Hst Hr Hw Hl Hi Hs Hf.
  - exists buf, f. change (alen (@nil Z)) with 0. rewrite Z.add_0_r, Nat.sub_0_r. split_and!; try done. intros j Hj. lia.
  - assert (Hal : alen (c :: w) = alen w + 1) by (unfold alen; cbn; lia). pose proof (alen_nonneg w). destruct fuel as [|fuel]; [cbn in Hf; lia|].
    cbn [getline_loop]. pose proof (getc_run f Hst) as H0. rewrite Hr in H0. cbn [app] in H0. destruct H0 as (f1 & E1 & Hst1 & Hr1).
    apply Forall_cons in Hw as [[Hc0 Hc10] Hw]. rewrite (bind_run _ _ _ _ _ E1). rewrite aset_in by lia.
    rewrite (bind_run _ _ f1 (<[Z.to_nat i := c]> buf) f1) by done. rewrite (proj2 (Z.ltb_ge c 0)) by done.
    rewrite (proj2 (Z.eqb_neq (i + 1) (size - 1))), (proj2 (Z.eqb_neq c 10)) by lia. cbn [orb].
    destruct (IH fuel f1 (<[Z.to_nat i := c]> buf) (i + 1) size t) as (buf' & f' & E & Hst' & Hr' & Hl' & Hj & Hk); [done|done|done|by rewrite alen_insert|lia|lia|cbn in Hf; lia|].
    exists buf', f'. rewrite E. replace (S fuel - length (c :: w))%nat with (fuel - length w)%nat by (cbn; lia).
    replace (i + 1 + alen w) with (i + alen (c :: w)) by lia. split_and!; try done.
    + intros j Hj'. destruct (decide (j = 0)) as [->|]; [rewrite Z.add_0_r, Hk by lia; rewrite aget_insert by lia; by rewrite decide_True|].
      replace (i + j) with (i + 1 + (j - 1)) by lia. rewrite Hj by lia. unfold aget. rewrite !decide_True by lia.
      replace (Z.to_nat j) with (S (Z.to_nat (j - 1))) by lia. done.
    + intros j Hj'. rewrite Hk by lia. destruct (decide (0 <= j)); [|by rewrite !aget_oob by lia].
      rewrite aget_insert by lia. by rewrite decide_False by lia.
Qed.

(** [getline] of grep stays within its buffer, and yields the line with its new line as a
    string; the next line is next.  A last line without a new line is lost: the result is
    -1 although there was text. *)
Theorem getline_reads f buf size w t :
  stream f -> alen buf = size -> Forall (fun c => 0 <= c /\ c <> 10) w -> alen w < size - 1 ->
  (remaining f = w ++ 10 :: t ->
   exists buf' f', getline buf size f = Some ((alen w + 1, buf'), f') /\ str_at buf' 0 (w ++ [10]) /\ alen buf' = size /\ stream f' /\ remaining f' = t) /\
  (remaining f = w -> exists buf' f', getline buf size f = Some ((-1, buf'), f') /\ remaining f' = []).
Proof.
  intros Hst Hl Hw Hs. pose proof (alen_nonneg w) as Hw0. split; intros Hr; unfold getline.
  - destruct (getline_loop_run w (Z.to_nat size) f buf 0 size (10 :: t)) as (b1 & f1 & -> & Hst1 & Hr1 & Hl1 & Hj & _); [done|done|done|done|lia|lia|unfold alen in *; lia|].
    pose proof (getc_run f1 Hst1) as H. rewrite Hr1 in H. destruct H as (f2 & E2 & Hst2 & Hr2). rewrite Z.add_0_l.
    destruct (Z.to_nat size - length w)%nat as [|n] eqn:En; [unfold alen in *; lia|]. cbn [getline_loop]. rewrite (bind_run _ _ _ _ _ E2).
    rewrite aset_in by lia. set (b2 := <[Z.to_nat (alen w) := 10]> b1). assert (Hl2 : alen b2 = size) by (unfold b2; by rewrite alen_insert).
    rewrite (bind_run _ _ f2 b2 f2) by done. change (10 <? 0) with false. change (10 =? 10) with true. rewrite orb_true_r. cbv iota.
    rewrite aset_in by lia. set (b3 := <[Z.to_nat (alen w + 1) := 0]> b2). rewrite (bind_run _ _ f2 b3 f2) by done.
    exists b3, f2. split_and!; [done| |unfold b3; by rewrite alen_insert|done|done].
    apply str_at_intro. assert (Hwl : alen (w ++ [10]) = alen w + 1) by (unfold alen; rewrite length_app; cbn; lia).
    intros j Hj'. rewrite Hwl in Hj'. rewrite Z.add_0_l. unfold b3. rewrite aget_insert by lia. case_decide as E; [subst j|].
    { unfold aget. rewrite decide_True by lia. rewrite lookup_app_r by (rewrite length_app; unfold alen; cbn; lia).
      by replace (Z.to_nat (alen w + 1) - length (w ++ [10%Z]))%nat with 0%nat by (rewrite length_app; unfold alen; cbn; lia). }
    unfold b2. rewrite aget_insert by lia. case_decide as E'; [subst j|].
    { unfold aget. rewrite decide_True by lia. unfold alen. rewrite Nat2Z.id, <- app_assoc, lookup_app_r, Nat.sub_diag by lia. done. }
    rewrite <- (Z.add_0_l j), Hj by lia. unfold aget. rewrite !decide_True by lia.
    rewrite <- app_assoc, lookup_app_l by (unfold alen in *; lia). done.
  - destruct (getline_loop_run w (Z.to_nat size) f buf 0 size []) as (b1 & f1 & -> & Hst1 & Hr1 & Hl1 & _); [done|by rewrite app_nil_r|done|done|lia|lia|unfold alen in *; lia|].
    pose proof (getc_run f1 Hst1) as H. rewrite Hr1 in H. destruct H as (f2 & E2 & Hst2 & Hr2). rewrite Z.add_0_l.
    destruct (Z.to_nat size - length w)%nat as [|n] eqn:En; [unfold alen in *; lia|]. cbn [getline_loop]. rewrite (bind_run _ _ _ _ _ E2).
    rewrite aset_in by lia. rewrite (bind_run _ _ f2 (<[Z.to_nat (alen w) := EOF]> b1) f2) by done. by exists (<[Z.to_nat (alen w) := EOF]> b1), f2.
Qed.

(** A longer line fills the buffer; the rest of it is next. *)
Lemma getline_fills f buf size w t :
  stream f -> alen buf = size -> Forall (fun c => 0 <= c /\ c <> 10) w -> alen w = size - 1 -> w <> [] -> remaining f = w ++ t ->
  exists buf' f', getline buf size f = Some ((size - 1, buf'), f') /\ str_at buf' 0 w /\ alen buf' = size /\ stream f' /\ remaining f' = t.
Proof.
  intros Hst Hl Hw Hs Hne Hr. destruct (exists_last Hne) as (w0 & c & ->). apply Forall_app in Hw as [Hw [[Hc0 Hc10] _]%Forall_cons].
  assert (Hal : alen (w0 ++ [c]) = alen w0 + 1) by (unfold alen; rewrite length_app; cbn; lia). rewrite Hal in Hs. pose proof (alen_nonneg w0) as H0.
  rewrite <- app_assoc in Hr. unfold getline.
  destruct (getline_loop_run w0 (Z.to_nat size) f buf 0 size ([c] ++ t)) as (b1 & f1 & -> & Hst1 & Hr1 & Hl1 & Hj & _); [done|done|done|done|lia|lia|unfold alen in *; lia|].
  pose proof (getc_run f1 Hst1) as H. rewrite Hr1 in H. cbn [app] in H. destruct H as (f2 & E2 & Hst2 & Hr2). rewrite Z.add_0_l.
  destruct (Z.to_nat size - length w0)%nat as [|n] eqn:En; [unfold alen in *; lia|]. cbn [getline_loop]. rewrite (bind_run _ _ _ _ _ E2).
  rewrite aset_in by lia. set (b2 := <[Z.to_nat (alen w0) := c]> b1). assert (Hl2 : alen b2 = size) by (unfold b2; by rewrite alen_insert).
  rewrite (bind_run _ _ f2 b2 f2) by done. rewrite (proj2 (Z.ltb_ge c 0)), (proj2 (Z.eqb_eq (alen w0 + 1) (size - 1))) by lia. cbn [orb].
  rewrite aset_in by lia. set (b3 := <[Z.to_nat (alen w0 + 1) := 0]> b2). rewrite (bind_run _ _ f2 b3 f2) by done.
  exists b3, f2. split_and!; [by rewrite Hs| |unfold b3; by rewrite alen_insert|done|done].
  apply str_at_intro. intros j Hj'. rewrite Hal in Hj'. rewrite Z.add_0_l. unfold b3. rewrite aget_insert by lia. case_decide as E; [subst j|].
  { unfold aget. rewrite decide_True by lia. rewrite lookup_app_r by (rewrite length_app; unfold alen; cbn; lia).
    by replace (Z.to_nat (alen w0 + 1) - length (w0 ++ [c]))%nat with 0%nat by (rewrite length_app; unfold alen; cbn; lia). }
  unfold b2. rewrite aget_insert by lia. case_decide as E'; [subst j|].
  { unfold aget. rewrite decide_True by lia. unfold alen. rewrite Nat2Z.id, <- app_assoc, lookup_app_r, Nat.sub_diag by lia. done. }
  rewrite <- (Z.add_0_l j), Hj by lia. unfold aget. rewrite !decide_True by lia.
  rewrite <- app_assoc, lookup_app_l by (unfold alen in *; lia). done.
Qed.

(** A last line without its new line: grep is told that there is no more. *)
Lemma getline_end f buf size w : stream f -> remaining f = w -> alen buf = size -> Forall (fun c => 0 <= c /\ c <> 10) w -> alen w < size - 1 ->
  exists buf' f', getline buf size f = Some ((-1, buf'), f') /\ at_eof f'.
Proof.
  intros Hst Hr Hl Hw Hs. pose proof (alen_nonneg w) as Hw0. unfold getline.
  destruct (getline_loop_run w (Z.to_nat size) f buf 0 size []) as (b1 & f1 & -> & Hst1 & Hr1 & Hl1 & _); [done|by rewrite app_nil_r|done|done|lia|lia|unfold alen in *; lia|].
  destruct (getc_end f1 Hst1 Hr1) as (f2 & E2 & He2). rewrite Z.add_0_l.
  destruct (Z.to_nat size - length w)%nat as [|n] eqn:En; [unfold alen in *; lia|]. cbn [getline_loop]. rewrite (bind_run _ _ _ _ _ E2).
  rewrite aset_in by lia. rewrite (bind_run _ _ f2 (<[Z.to_nat (alen w) := EOF]> b1) f2) by done. by exists (<[Z.to_nat (alen w) := EOF]> b1), f2.
Qed.

Lemma getline_at_eof f buf size : at_eof f -> 0 < size -> alen buf = size -> exists buf', getline buf size f = Some ((-1, buf'), f).
Proof.
  intros He Hs Hl. unfold getline. destruct (Z.to_nat size) as [|n] eqn:En; [lia|]. cbn [getline_loop]. rewrite (bind_run _ _ _ _ _ (getc_at_eof f He)).
  rewrite aset_in by lia. rewrite (bind_run _ _ f (<[Z.to_nat 0 := EOF]> buf) f) by done. by eexists.
Qed.
End stdio.

(** "a b" newline "cd" in two chunks: two words are counted of three. *)
Definition sample : FILE := mkFile 0 0 0 None None [[97; 32]; [98; 10; 99; 100]].
Lemma sample_stream : stream sample.
Proof. split; [by left|done|done|]. repeat (apply Forall_cons; split); try apply Forall_nil; try done; unfold alen; cbn; lia. Qed.

Lemma wc_counts_witness : exists f', count (replicate 32 0) 9 sample = Some ((1, 2, 6), f').
Proof.
  destruct (wc_counts (replicate 32 0) eq_refl sample 9 sample_stream) as (f' & E); [|cbn; lia|].
  - cbn. repeat (apply Forall_cons; split); try apply Forall_nil; try done; lia.
  - exists f'. exact E.
Defined.

Lemma getline_reads_witness :
  exists buf' f', getline (replicate 32 0) (replicate 8 0) 8 sample = Some ((4, buf'), f') /\ str_at buf' 0 [97; 32; 98; 10] /\ remaining f' = [99; 100].
Proof.
  destruct (getline_reads (replicate 32 0) eq_refl sample (replicate 8 0) 8 [97; 32; 98] [99; 100] sample_stream) as [H _].
  - done.
  - repeat (apply Forall_cons; split); try apply Forall_nil; try done; lia.
  - done.
  - destruct (H eq_refl) as (buf' & f' & E & Hs & _ & _ & Hr). by exists buf', f'.
Defined.
