(* ===== verification/Regexp.v ===== *)
(** * lib/regex/regexp.c: regular expressions

    [regcomp] translates an expression into a program of nodes, one word of opcode and
    two of a link each; [regexec] searches a string with it.  The library is Henry
    Spencer's, changed in how a literal string is compared.  Pointers into the
    expression, the string and the program are indices. *)
From S2P Require Import Prelude.

(** ** Constants *)
Definition MAGIC : Z := 156.
Definition NSUBEXP : Z := 10.
Definition END : Z := 0.
Definition BOL : Z := 1.
Definition EOL : Z := 2.
Definition ANY : Z := 3.
Definition ANYOF : Z := 4.
Definition ANYBUT : Z := 5.
Definition BRANCH : Z := 6.
Definition BACK : Z := 7.
Definition EXACTLY : Z := 8.
Definition NOTHING : Z := 9.
Definition STAR : Z := 10.
Definition PLUS : Z := 11.
Definition SUB_OPEN : Z := 20.
Definition SUB_CLOSE : Z := 30.

Definition HASWIDTH : Z := 1.
Definition SIMPLE : Z := 2.
Definition SPSTART : Z := 4.
Definition WORST : Z := 0.

(** What [regerror] is told. *)
Inductive regerr :=
  | too_big | too_many_parens | unterminated | unmatched | junk_on_end | could_be_empty | nested_rep
  | invalid_range | unmatched_bracket | unexpected | follows_nothing | trailing_backslash | strcspn_0.

(** ** Strings: a list of the characters before the 0 *)

(** STAR p for a pointer to character [i]; behind the 0 it is undefined. *)
Definition chr (s : list Z) (i : Z) : option Z := if i =? alen s then Some 0 else aget s i.

Definition ISREPN (c : Z) : bool := (c =? 42) || (c =? 43) || (c =? 63).
Definition META : list Z := [94; 36; 46; 91; 40; 41; 124; 63; 43; 42; 92; 92].

Definition strchr (s : list Z) (c : Z) : bool := bool_decide (c ∈ s).

Fixpoint strcspn (s1 s2 : list Z) : Z :=
  match s1 with
  | [] => 0
  | c :: s1' => if strchr s2 c then 0 else 1 + strcspn s1' s2
  end.

Fixpoint strspn (s1 s2 : list Z) : Z :=
  match s1 with
  | [] => 0
  | c :: s1' => if strchr s2 c then 1 + strspn s1' s2 else 0
  end.

(** lib/ansi/string.c: the first characters are compared before [compare] is called. *)
Definition starts (s w : list Z) : bool := bool_decide (take (length w) s = w).

Fixpoint strstr (s w : list Z) : bool :=
  match s with
  | [] => false
  | c :: s' => (bool_decide (head w = Some c) && starts s w) || strstr s' w
  end.

(** ** Programs *)

(** OP and NEXT of a node, and the node it is linked to. *)
Definition regnext (l : list Z) (p : Z) : option (option Z) :=
  op ← aget l p;
  hi ← aget l (p + 1);
  lo ← aget l (p + 2);
  let offset := Z.shiftl (Z.land hi 127) 8 + Z.land lo 255 in
  if offset =? 0 then Some None
  else Some (Some (if op =? BACK then p - offset else p + offset)).

Definition OPERAND (p : Z) : Z := p + 3.

(** The string that begins at word [p]. *)
Fixpoint cstring (l : list Z) : option (list Z) :=
  match l with
  | [] => None
  | c :: l' => if c =? 0 then Some [] else w ← cstring l'; Some (c :: w)
  end.
Definition operand_str (l : list Z) (p : Z) : option (list Z) := cstring (drop (Z.to_nat p) l).

(** ** regcomp *)

(** [regcode] is [None] for &regdummy, where nothing is emitted; else it is what
    [program] holds so far, and the next word goes to its end.  [space] is the
    room behind [program]. *)
Record comp := mkComp { regparse : Z; regnpar : Z; regcode : option (list Z); space : Z; regsize : Z }.
#[export] Instance eta_comp : Settable comp := mkEta (fun c =>
  mkComp (regparse c) (regnpar c) (regcode c) (space c) (regsize c)).

(** Nodes are [regdummy] when nothing is emitted. *)
Definition regdummy : Z := -1.

(** A call that may fail with NULL. *)
Notation R S A := (ST S (regerr + A)).
Definition FAIL {S A} (e : regerr) : R S A := mret (inl e).
Definition ret {S A} (a : A) : R S A := mret (inr a).
Definition attempt {S A B} (c : R S A) (f : A -> R S B) : R S B :=
  r ← c; match (r : regerr + A) with inl e => mret (inl e) | inr a => f a end.
Notation "'try' x := c 'in' k" := (attempt c (fun x => k)) (at level 200, x pattern, right associativity).

Definition emit_words (ws : list Z) : ST comp unit := fun c =>
  match regcode c with
  | None => Some (tt, c <| regsize ::= (fun n => n + alen ws) |>)
  | Some l => if alen l + alen ws <=? space c then Some (tt, c <| regcode := Some (l ++ ws) |>) else None
  end.

(** The address of the next node. *)
Definition here : ST comp Z := gets (fun c => match regcode c with None => regdummy | Some l => alen l end).

Definition regc (b : Z) : ST comp unit := emit_words [b].
Definition regnode (op : Z) : ST comp Z := p ← here; _ ← emit_words [op; 0; 0]; mret p.

Definition on_code (f : list Z -> option (list Z)) : ST comp unit := fun c =>
  match regcode c with
  | None => Some (tt, c)
  | Some l => l' ← f l; Some (tt, c <| regcode := Some l' |>)
  end.

Definition reginsert (op opnd : Z) : ST comp unit := fun c =>
  match regcode c with
  | None => Some (tt, c <| regsize ::= Z.add 3 |>)
  | Some l =>
      if alen l + 3 <=? space c
      then Some (tt, c <| regcode := Some (take (Z.to_nat opnd) l ++ [op; 0; 0] ++ drop (Z.to_nat opnd) l) |>)
      else None
  end.

Fixpoint last_node (n : nat) (l : list Z) (scan : Z) : option Z :=
  match n with
  | O => None
  | S n' =>
      temp ← regnext l scan;
      match (temp : option Z) with None => Some scan | Some t => last_node n' l t end
  end.

Definition set_link (l : list Z) (scan val : Z) : option (list Z) :=
  op ← aget l scan;
  let offset := if op =? BACK then scan - val else val - scan in
  l ← aset l (scan + 1) (Z.land (Z.shiftr offset 8) 127);
  aset l (scan + 2) (Z.land offset 255).

Definition tail_to (l : list Z) (p val : Z) : option (list Z) := scan ← last_node (length l) l p; set_link l scan val.
Definition optail_to (l : list Z) (p val : Z) : option (list Z) :=
  op ← aget l p; if op =? BRANCH then tail_to l (OPERAND p) val else Some l.

Definition regtail (p val : Z) : ST comp unit := on_code (fun l => tail_to l p val).
Definition regoptail (p val : Z) : ST comp unit := on_code (fun l => optail_to l p val).

(** for (br = ret; br != NULL; br = regnext(br)) regoptail(cp, br, ender) *)
Fixpoint hook_tails (n : nat) (br ender : Z) (l : list Z) : option (list Z) :=
  match n with
  | O => None
  | S n' =>
      l ← optail_to l br ender;
      temp ← regnext l br;
      match (temp : option Z) with None => Some l | Some t => hook_tails n' t ender l end
  end.
Definition hook (br ender : Z) : ST comp unit := on_code (fun l => hook_tails (length l) br ender l).

(** STAR cp->regparse, and the increment. *)
Definition cur (exp : list Z) : ST comp Z := c ← getS; liftO (chr exp (regparse c)).
Definition adv (k : Z) : ST comp unit := modifyS (fun c => c <| regparse ::= Z.add k |>).
Definition lift {S A} (c : ST S A) : R S A := a ← c; mret (inr a).

Definition raise_flag (f : Z) (b : bool) (x : Z) : Z := if b then Z.lor f x else x.
Definition hasf (x f : Z) : bool := negb (Z.land x f =? 0).

(** The characters of a bracket expression up to the one that ends it, which is the result. *)
Fixpoint class_loop (n : nat) (exp : list Z) : R comp Z :=
  match n with
  | O => crash
  | S n' =>
      c ← cur exp; _ ← adv 1;
      if ((c : Z) =? 0) || (c =? 93) then ret c
      else if negb (c =? 45) then _ ← regc c; class_loop n' exp
      else
        c ← cur exp;
        if ((c : Z) =? 93) || (c =? 0) then _ ← regc 45; class_loop n' exp
        else
          st ← getS;
          range ← liftO (chr exp (regparse st - 2));
          if (range : Z) >? c then FAIL invalid_range
          else _ ← emit_words (seqZ (range + 1) (c - range)); _ ← adv 1; class_loop n' exp
  end.

(** case '[' of regatom *)
Definition regclass (n : nat) (exp : list Z) : R comp (Z * Z) :=
  c ← cur exp;
  r ← (if (c : Z) =? 94 then r ← regnode ANYBUT; _ ← adv 1; mret r else regnode ANYOF);
  c ← cur exp;
  _ ← (if ((c : Z) =? 93) || (c =? 45) then _ ← regc c; adv 1 else mret tt);
  try c := class_loop n exp in
  _ ← regc 0;
  if (c : Z) =? 93 then ret (r, Z.lor HASWIDTH SIMPLE) else FAIL unmatched_bracket.

(** case '\\' and the default of regatom *)
Definition regescape (exp : list Z) : R comp (Z * Z) :=
  c ← cur exp;
  if (c : Z) =? 0 then FAIL trailing_backslash
  else r ← regnode EXACTLY; _ ← regc c; _ ← adv 1; _ ← regc 0; ret (r, Z.lor HASWIDTH SIMPLE).

Definition regliteral (exp : list Z) : R comp (Z * Z) :=
  _ ← adv (-1);
  st ← getS;
  let len := strcspn (drop (Z.to_nat (regparse st)) exp) META in
  if len =? 0 then FAIL strcspn_0
  else
    ender ← liftO (chr exp (regparse st + len));
    let len := if (len >? 1) && ISREPN ender then len - 1 else len in
    r ← regnode EXACTLY;
    _ ← emit_words (take (Z.to_nat len) (drop (Z.to_nat (regparse st)) exp));
    _ ← adv len;
    _ ← regc 0;
    ret (r, if len =? 1 then Z.lor HASWIDTH SIMPLE else HASWIDTH).

(** The code of STAR, + and ? behind an operand at [r]. *)
Definition emit_star (r flags : Z) : ST comp unit :=
  if hasf flags SIMPLE then reginsert STAR r
  else
    _ ← reginsert BRANCH r;
    b ← regnode BACK; _ ← regoptail r b;
    _ ← regoptail r r;
    b ← regnode BRANCH; _ ← regtail r b;
    b ← regnode NOTHING; regtail r b.

Definition emit_plus (r flags : Z) : ST comp unit :=
  if hasf flags SIMPLE then reginsert PLUS r
  else
    next ← regnode BRANCH;
    _ ← regtail r next;
    b ← regnode BACK; _ ← regtail b r;
    b ← regnode BRANCH; _ ← regtail next b;
    b ← regnode NOTHING; regtail r b.

Definition emit_opt (r : Z) : ST comp unit :=
  _ ← reginsert BRANCH r;
  b ← regnode BRANCH; _ ← regtail r b;
  next ← regnode NOTHING;
  _ ← regtail r next;
  regoptail r next.

(** A node and the flags of what it begins. *)
Fixpoint reg (n : nat) (exp : list Z) (paren : bool) : R comp (Z * Z) :=
  match n with
  | O => crash
  | S n' =>
      st ← getS;
      if paren && (regnpar st >=? NSUBEXP) then FAIL too_many_parens
      else
        let parno := regnpar st in
        r ← (if paren then _ ← modifyS (fun c => c <| regnpar ::= Z.succ |>); regnode (SUB_OPEN + parno) else mret 0);
        try x := regbranch n' exp in
        let '(br, flags) := x in
        _ ← (if paren then regtail r br else mret tt);
        let r := if paren then r else br in
        try flagp := regalts n' exp r (raise_flag SPSTART (hasf flags SPSTART) (raise_flag HASWIDTH (hasf flags HASWIDTH) WORST)) in
        ender ← regnode (if paren then SUB_CLOSE + parno else END);
        _ ← regtail r ender;
        _ ← hook r ender;
        c ← cur exp;
        if paren then _ ← adv 1; if (c : Z) =? 41 then ret (r, flagp) else FAIL unterminated
        else if (c : Z) =? 0 then ret (r, flagp)
        else if c =? 41 then FAIL unmatched else FAIL junk_on_end
  end
with regalts (n : nat) (exp : list Z) (r flagp : Z) : R comp Z :=
  match n with
  | O => crash
  | S n' =>
      c ← cur exp;
      if negb ((c : Z) =? 124) then ret flagp
      else
        _ ← adv 1;
        try x := regbranch n' exp in
        let '(br, flags) := x in
        _ ← regtail r br;
        let flagp := if hasf flags HASWIDTH then flagp else Z.ldiff flagp HASWIDTH in
        regalts n' exp r (raise_flag SPSTART (hasf flags SPSTART) flagp)
  end
with regbranch (n : nat) (exp : list Z) : R comp (Z * Z) :=
  match n with
  | O => crash
  | S n' =>
      r ← regnode BRANCH;
      try flagp := regpieces n' exp None WORST in
      ret (r, flagp)
  end
with regpieces (n : nat) (exp : list Z) (chain : option Z) (flagp : Z) : R comp Z :=
  match n with
  | O => crash
  | S n' =>
      c ← cur exp;
      if ((c : Z) =? 0) || (c =? 124) || (c =? 41) then
        _ ← (if chain then mret tt else _ ← regnode NOTHING; mret tt);
        ret flagp
      else
        try x := regpiece n' exp in
        let '(latest, flags) := x in
        let flagp := raise_flag HASWIDTH (hasf flags HASWIDTH) flagp in
        match chain with
        | None => regpieces n' exp (Some latest) (raise_flag SPSTART (hasf flags SPSTART) flagp)
        | Some p => _ ← regtail p latest; regpieces n' exp (Some latest) flagp
        end
  end
with regpiece (n : nat) (exp : list Z) : R comp (Z * Z) :=
  match n with
  | O => crash
  | S n' =>
      try x := regatom n' exp in
      let '(r, flags) := x in
      op ← cur exp;
      if negb (ISREPN op) then ret (r, flags)
      else if negb (hasf flags HASWIDTH) && negb (op =? 63) then FAIL could_be_empty
      else
        let flagp := if op =? 42 then Z.lor WORST SPSTART
                     else if op =? 43 then Z.lor (Z.lor WORST SPSTART) HASWIDTH else WORST in
        _ ← (if op =? 42 then emit_star r flags else if op =? 43 then emit_plus r flags else emit_opt r);
        _ ← adv 1;
        c ← cur exp;
        if ISREPN c then FAIL nested_rep else ret (r, flagp)
  end
with regatom (n : nat) (exp : list Z) : R comp (Z * Z) :=
  match n with
  | O => crash
  | S n' =>
      c ← cur exp;
      _ ← adv 1;
      if (c : Z) =? 94 then r ← regnode BOL; ret (r, WORST)
      else if c =? 36 then r ← regnode EOL; ret (r, WORST)
      else if c =? 46 then r ← regnode ANY; ret (r, Z.lor HASWIDTH SIMPLE)
      else if c =? 91 then regclass n' exp
      else if c =? 40 then
        try x := reg n' exp true in
        let '(r, flags) := x in
        ret (r, raise_flag SPSTART (hasf flags SPSTART) (raise_flag HASWIDTH (hasf flags HASWIDTH) WORST))
      else if (c =? 0) || (c =? 124) || (c =? 41) then FAIL unexpected
      else if ISREPN c then FAIL follows_nothing
      else if c =? 92 then regescape exp
      else regliteral exp
  end.

(** Every call reads a character or is one of five on the way to the next that does. *)
Definition rounds (exp : list Z) : nat := 6 * (length exp + 2).

Record regexp := mkRegexp { regstart : Z; reganch : bool; regmust : option Z; regmlen : Z; program : list Z }.

Fixpoint longest_literal (n : nat) (l : list Z) (scan : option Z) (longest : option Z) (len : Z) : option (option Z * Z) :=
  match n with
  | O => None
  | S n' =>
      match scan with
      | None => Some (longest, len)
      | Some p =>
          op ← aget l p;
          next ← regnext l p;
          if op =? EXACTLY then
            w ← operand_str l (OPERAND p);
            if alen w >=? len then longest_literal n' l next (Some (OPERAND p)) (alen w)
            else longest_literal n' l next longest len
          else longest_literal n' l next longest len
      end
  end.

(** The fields the search is sped up with. *)
Definition optimise (l : list Z) (flags : Z) : option regexp :=
  next ← regnext l 1;
  next ← (next : option Z);
  op ← aget l next;
  if negb (op =? END) then Some (mkRegexp 0 false None 0 l)
  else
    let scan := OPERAND 1 in
    op ← aget l scan;
    c ← aget l (OPERAND scan);
    must ← (if hasf flags SPSTART then longest_literal (S (length l)) l (Some scan) None 0 else Some (None, 0));
    Some (mkRegexp (if op =? EXACTLY then c else 0) (op =? BOL) (fst (must : option Z * Z)) (snd (must : option Z * Z)) l).

Definition regcomp_pass (exp : list Z) (c : comp) : option ((regerr + Z * Z) * comp) :=
  (_ ← regc MAGIC; reg (rounds exp) exp false) c.

(** [None] is undefined behaviour; malloc finds room. *)
Definition regcomp (exp : list Z) : option (regerr + regexp) :=
  first ← regcomp_pass exp (mkComp 0 1 None 0 0);
  match (first : (regerr + Z * Z) * comp) with
  | (inl e, _) => Some (inl e)
  | (inr _, c) =>
      if regsize c >=? 32767 then Some (inl too_big)
      else
        second ← regcomp_pass exp (mkComp 0 1 (Some []) (regsize c + 1) (regsize c));
        match (second : (regerr + Z * Z) * comp) with
        | (inl e, _) => Some (inl e)
        | (inr (_, flags), c) => l ← regcode c; r ← optimise l flags; Some (inr r)
        end
  end.

(** ** regexec *)

(** [regbol] is 0; the arrays startp and endp hold indices into the string. *)
Record exec := mkExec { reginput : Z; regstartp : list (option Z); regendp : list (option Z) }.
#[export] Instance eta_exec : Settable exec := mkEta (fun e => mkExec (reginput e) (regstartp e) (regendp e)).

Definition set_once (l : list (option Z)) (no v : Z) : option (list (option Z)) :=
  old ← aget l no; match (old : option Z) with None => aset l no (Some v) | Some _ => Some l end.

Fixpoint count_ch (s : list Z) (ch : Z) : Z :=
  match s with c :: s' => if c =? ch then 1 + count_ch s' ch else 0 | [] => 0 end.

Definition rest (s : list Z) (i : Z) : list Z := drop (Z.to_nat i) s.

(** for (scan = reginput; STAR scan == ch; scan++), which a [ch] of 0 would lead out of the string. *)
Definition regrepeat (l s : list Z) (i node : Z) : option Z :=
  op ← aget l node;
  if op =? ANY then Some (alen (rest s i))
  else if op =? EXACTLY then
    ch ← aget l (OPERAND node); if ch =? 0 then None else Some (count_ch (rest s i) ch)
  else if op =? ANYOF then w ← operand_str l (OPERAND node); Some (strspn (rest s i) w)
  else if op =? ANYBUT then w ← operand_str l (OPERAND node); Some (strcspn (rest s i) w)
  else Some 0.

Section match_code.
Context (l s : list Z).

Definition step_input (k : Z) (ep : exec) : exec := ep <| reginput ::= Z.add k |>.

(** The node at [scan] and what follows it; false is the result 0. *)
Fixpoint regmatch (n : nat) (scan : option Z) (ep : exec) : option (bool * exec) :=
  match n, scan with
  | O, _ => None
  | S _, None => Some (false, ep)
  | S n', Some p =>
      next ← regnext l p;
      op ← aget l p;
      c ← chr s (reginput ep);
      if op =? BOL then if negb (reginput ep =? 0) then Some (false, ep) else regmatch n' next ep
      else if op =? EOL then if negb (c =? 0) then Some (false, ep) else regmatch n' next ep
      else if op =? ANY then if c =? 0 then Some (false, ep) else regmatch n' next (step_input 1 ep)
      else if op =? EXACTLY then
        c0 ← aget l (OPERAND p);
        if negb (c0 =? c) then Some (false, ep)
        else
          w ← operand_str l (OPERAND p);
          if strstr (rest s (reginput ep)) w then regmatch n' next (step_input (alen w) ep) else Some (false, ep)
      else if op =? ANYOF then
        w ← operand_str l (OPERAND p);
        if (c =? 0) || negb (strchr w c) then Some (false, ep) else regmatch n' next (step_input 1 ep)
      else if op =? ANYBUT then
        w ← operand_str l (OPERAND p);
        if (c =? 0) || strchr w c then Some (false, ep) else regmatch n' next (step_input 1 ep)
      else if (op =? NOTHING) || (op =? BACK) then regmatch n' next ep
      else if (SUB_OPEN + 1 <=? op) && (op <=? SUB_OPEN + 9) then
        let input := reginput ep in
        r ← regmatch n' next ep;
        match (r : bool * exec) with
        | (true, ep) => st ← set_once (regstartp ep) (op - SUB_OPEN) input; Some (true, ep <| regstartp := st |>)
        | (false, ep) => Some (false, ep)
        end
      else if (SUB_CLOSE + 1 <=? op) && (op <=? SUB_CLOSE + 9) then
        let input := reginput ep in
        r ← regmatch n' next ep;
        match (r : bool * exec) with
        | (true, ep) => en ← set_once (regendp ep) (op - SUB_CLOSE) input; Some (true, ep <| regendp := en |>)
        | (false, ep) => Some (false, ep)
        end
      else if op =? BRANCH then
        q ← (next : option Z);
        opn ← aget l q;
        if negb (opn =? BRANCH) then regmatch n' (Some (OPERAND p)) ep
        else regchoice n' p (reginput ep) ep
      else if (op =? STAR) || (op =? PLUS) then
        q ← (next : option Z);
        opn ← aget l q;
        nextch ← (if opn =? EXACTLY then aget l (OPERAND q) else Some 0);
        no ← regrepeat l s (reginput ep) (OPERAND p);
        regstar n' q nextch (reginput ep) (if op =? STAR then 0 else 1) (no + 1) ep
      else if op =? END then Some (true, ep)
      else Some (false, ep)
  end
(** while (OP(scan) == BRANCH) *)
with regchoice (n : nat) (p save : Z) (ep : exec) : option (bool * exec) :=
  match n with
  | O => None
  | S n' =>
      op ← aget l p;
      if negb (op =? BRANCH) then Some (false, ep)
      else
        r ← regmatch n' (Some (OPERAND p)) ep;
        match (r : bool * exec) with
        | (true, ep) => Some (true, ep)
        | (false, ep) => next ← regnext l p; q ← (next : option Z); regchoice n' q save (ep <| reginput := save |>)
        end
  end
(** for (no = regrepeat(...) + 1; no > min; no--) *)
with regstar (n : nat) (q nextch save min no : Z) (ep : exec) : option (bool * exec) :=
  match n with
  | O => None
  | S n' =>
      if negb (no >? min) then Some (false, ep)
      else
        let ep := ep <| reginput := save + no - 1 |> in
        c ← chr s (reginput ep);
        if (nextch =? 0) || (c =? nextch) then
          r ← regmatch n' (Some q) ep;
          match (r : bool * exec) with
          | (true, ep) => Some (true, ep)
          | (false, ep) => regstar n' q nextch save min (no - 1) ep
          end
        else regstar n' q nextch save min (no - 1) ep
  end.

(** The result, startp and endp. *)
Definition regtry (n : nat) (i : Z) : option (option (list (option Z) * list (option Z))) :=
  let none := replicate (Z.to_nat NSUBEXP) None in
  r ← regmatch n (Some 1) (mkExec i none none);
  match (r : bool * exec) with
  | (true, ep) =>
      st ← aset (regstartp ep) 0 (Some i);
      en ← aset (regendp ep) 0 (Some (reginput ep));
      Some (Some (st, en))
  | (false, _) => Some None
  end.

(** for (s = string; s != NULL; s = strchr(s+1, prog->regstart)); s+1 is behind the 0 of an empty string. *)
Definition next_start (i ch : Z) : option (option Z) :=
  if alen s <=? i then None
  else
    let r := rest s (i + 1) in
    let k := strcspn r [ch] in
    Some (if k <? alen r then Some (i + 1 + k) else None).

Fixpoint try_starts (m n : nat) (i ch : Z) : option (option (list (option Z) * list (option Z))) :=
  match m with
  | O => None
  | S m' =>
      r ← regtry n i;
      match (r : option (list (option Z) * list (option Z))) with
      | Some e => Some (Some e)
      | None => nx ← next_start i ch; match (nx : option Z) with None => Some None | Some j => try_starts m' n j ch end
      end
  end.

(** for (s = string; !regtry(&ex, prog, s); s++) if STAR s is 0 return 0 *)
Fixpoint try_all (m n : nat) (i : Z) : option (option (list (option Z) * list (option Z))) :=
  match m with
  | O => None
  | S m' =>
      r ← regtry n i;
      match (r : option (list (option Z) * list (option Z))) with
      | Some e => Some (Some e)
      | None => c ← chr s i; if c =? 0 then Some None else try_all m' n (i + 1)
      end
  end.
End match_code.

(** [n] is the fuel of a match; a result of NULL is 0, the other one is 1 with startp and endp. *)
Definition regexec (n : nat) (r : regexp) (s : list Z) : option (option (list (option Z) * list (option Z))) :=
  let l := program r in
  magic ← aget l 0;
  if negb (magic =? MAGIC) then Some None
  else
    must ← (match regmust r with None => Some true | Some q => w ← operand_str l q; Some (strstr s w) end);
    if negb must then Some None
    else if reganch r then regtry l s n 0
    else if negb (regstart r =? 0) then try_starts l s (S (length s)) n 0 (regstart r)
    else try_all l s (S (length s)) n 0.
