(* ===== verification/RegSyntax.v ===== *)
(** * The language of regular expressions

    What [regcomp] and [regexec] are held against: the abstract syntax of an
    expression with a parser over its characters, and what an expression matches in
    a string, position by position. *)
From S2P Require Import Prelude Regexp.

(** ** Abstract syntax *)
Inductive piece :=
  | Bol | Eol | Any
  | Bracket (neg : bool) (cs : list Z)
  | Lit (w : list Z)
  | Group (no : Z) (al : alts)
  | Star (p : piece) | Plus (p : piece) | Opt (p : piece)
with alts := One (b : branch) | Or (b : branch) (al : alts)
with branch := Empty | Last (p : piece) | Cat (p : piece) (b : branch).

Scheme piece_ind' := Induction for piece Sort Prop
with alts_ind' := Induction for alts Sort Prop
with branch_ind' := Induction for branch Sort Prop.
Combined Scheme re_ind from piece_ind', alts_ind', branch_ind'.

(** One character per match. *)
Definition simple (p : piece) : bool :=
  match p with Any | Bracket _ _ => true | Lit w => alen w =? 1 | _ => false end.

(** Never matches the empty string, and begins with a repetition, as the flags say. *)
Fixpoint wide (p : piece) : bool :=
  match p with
  | Bol | Eol | Star _ | Opt _ => false
  | Any | Bracket _ _ | Lit _ | Plus _ => true
  | Group _ al => wide_alts al
  end
with wide_alts (al : alts) : bool := match al with One b => wide_branch b | Or b al => wide_branch b && wide_alts al end
with wide_branch (b : branch) : bool := match b with Empty => false | Last p => wide p | Cat p b => wide p || wide_branch b end.

Fixpoint spstart (p : piece) : bool :=
  match p with Star _ | Plus _ => true | Group _ al => spstart_alts al | _ => false end
with spstart_alts (al : alts) : bool := match al with One b => spstart_branch b | Or b al => spstart_branch b || spstart_alts al end
with spstart_branch (b : branch) : bool := match b with Empty => false | Last p | Cat p _ => spstart p end.

(** What the parser guarantees. *)
Fixpoint pwf (p : piece) : Prop :=
  match p with
  | Bol | Eol | Any => True
  | Bracket _ cs => Forall (fun c => c <> 0) cs
  | Lit w => w <> [] /\ Forall (fun c => c <> 0) w
  | Group no al => 1 <= no < NSUBEXP /\ awf al
  | Star p | Plus p => wide p = true /\ pwf p
  | Opt p => pwf p
  end
with awf (al : alts) : Prop := match al with One b => bwf b | Or b al => bwf b /\ awf al end
with bwf (b : branch) : Prop := match b with Empty => True | Last p => pwf p | Cat p b => pwf p /\ bwf b end.

(** ** Matching

    [L i w]: the literal [w] is taken to be at [i]. *)
Section matching.
Context (L : Z -> list Z -> Prop) (s : list Z).

Definition in_bracket (neg : bool) (cs : list Z) (i : Z) : Prop :=
  exists c, aget s i = Some c /\ strchr cs c = negb neg.

(** The expression matches from [i] to [j]. *)
Fixpoint mpiece (p : piece) (i j : Z) : Prop :=
  match p with
  | Bol => i = 0 /\ j = i
  | Eol => i = alen s /\ j = i
  | Any => 0 <= i < alen s /\ j = i + 1
  | Bracket neg cs => in_bracket neg cs i /\ j = i + 1
  | Lit w => L i w /\ j = i + alen w
  | Group _ al => malts al i j
  | Star p => rtc (mpiece p) i j
  | Plus p => exists k, mpiece p i k /\ rtc (mpiece p) k j
  | Opt p => j = i \/ mpiece p i j
  end
with malts (al : alts) (i j : Z) : Prop :=
  match al with One b => mbranch b i j | Or b al => mbranch b i j \/ malts al i j end
with mbranch (b : branch) (i j : Z) : Prop :=
  match b with Empty => j = i | Last p => mpiece p i j | Cat p b => exists k, mpiece p i k /\ mbranch b k j end.
End matching.

(** The literal is there. *)
Definition lit_here (s : list Z) (i : Z) (w : list Z) : Prop := 0 <= i /\ take (length w) (rest s i) = w.

(** How [regmatch] looks for it: the first character is there, the rest anywhere behind. *)
Definition lit_found (s : list Z) (i : Z) (w : list Z) : Prop :=
  0 <= i /\ (exists c, aget s i = Some c /\ head w = Some c) /\ strstr (rest s i) w = true.

(** ** Parsing: the position and the number of the next parenthesis are the state *)
Record pst := mkPst { pos : Z; par : Z }.
#[export] Instance eta_pst : Settable pst := mkEta (fun c => mkPst (pos c) (par c)).

Definition look (exp : list Z) : ST pst Z := c ← getS; liftO (chr exp (pos c)).
Definition skip (k : Z) : ST pst unit := modifyS (fun c => c <| pos ::= Z.add k |>).

Fixpoint parse_class (n : nat) (exp : list Z) : R pst (Z * list Z) :=
  match n with
  | O => crash
  | S n' =>
      c ← look exp; _ ← skip 1;
      if ((c : Z) =? 0) || (c =? 93) then ret (c, [])
      else if negb (c =? 45) then try x := parse_class n' exp in ret (fst x, c :: snd x)
      else
        c ← look exp;
        if ((c : Z) =? 93) || (c =? 0) then try x := parse_class n' exp in ret (fst x, 45 :: snd x)
        else
          st ← getS;
          range ← liftO (chr exp (pos st - 2));
          if (range : Z) >? c then FAIL invalid_range
          else _ ← skip 1; try x := parse_class n' exp in ret (fst x, seqZ (range + 1) (c - range) ++ snd x)
  end.

Definition parse_bracket (n : nat) (exp : list Z) : R pst piece :=
  c ← look exp;
  let neg := (c : Z) =? 94 in
  _ ← (if neg then skip 1 else mret tt);
  c ← look exp;
  let fst_c := ((c : Z) =? 93) || (c =? 45) in
  _ ← (if fst_c then skip 1 else mret tt);
  try x := parse_class n exp in
  if (fst x : Z) =? 93 then ret (Bracket neg ((if fst_c then [c] else []) ++ snd x)) else FAIL unmatched_bracket.

Definition parse_escape (exp : list Z) : R pst piece :=
  c ← look exp;
  if (c : Z) =? 0 then FAIL trailing_backslash else _ ← skip 1; ret (Lit [c]).

(** A run of ordinary characters, without the last one if that is repeated. *)
Definition parse_literal (exp : list Z) : R pst piece :=
  _ ← skip (-1);
  st ← getS;
  let len := strcspn (drop (Z.to_nat (pos st)) exp) META in
  if len =? 0 then FAIL strcspn_0
  else
    ender ← liftO (chr exp (pos st + len));
    let len := if (len >? 1) && ISREPN ender then len - 1 else len in
    _ ← skip len;
    ret (Lit (take (Z.to_nat len) (drop (Z.to_nat (pos st)) exp))).

Fixpoint parse_reg (n : nat) (exp : list Z) (paren : bool) : R pst (Z * alts) :=
  match n with
  | O => crash
  | S n' =>
      st ← getS;
      if paren && (par st >=? NSUBEXP) then FAIL too_many_parens
      else
        let parno := par st in
        _ ← (if paren then modifyS (fun c => c <| par ::= Z.succ |>) else mret tt);
        try b := parse_branch n' exp in
        try al := parse_alts n' exp b in
        c ← look exp;
        if paren then _ ← skip 1; if (c : Z) =? 41 then ret (parno, al) else FAIL unterminated
        else if (c : Z) =? 0 then ret (parno, al)
        else if c =? 41 then FAIL unmatched else FAIL junk_on_end
  end
with parse_alts (n : nat) (exp : list Z) (b : branch) : R pst alts :=
  match n with
  | O => crash
  | S n' =>
      c ← look exp;
      if negb ((c : Z) =? 124) then ret (One b)
      else _ ← skip 1; try b' := parse_branch n' exp in try al := parse_alts n' exp b' in ret (Or b al)
  end
with parse_branch (n : nat) (exp : list Z) : R pst branch :=
  match n with
  | O => crash
  | S n' => parse_pieces n' exp
  end
with parse_pieces (n : nat) (exp : list Z) : R pst branch :=
  match n with
  | O => crash
  | S n' =>
      c ← look exp;
      if ((c : Z) =? 0) || (c =? 124) || (c =? 41) then ret Empty
      else
        try p := parse_piece n' exp in
        try b := parse_pieces n' exp in
        ret (match b with Empty => Last p | _ => Cat p b end)
  end
with parse_piece (n : nat) (exp : list Z) : R pst piece :=
  match n with
  | O => crash
  | S n' =>
      try p := parse_atom n' exp in
      op ← look exp;
      if negb (ISREPN op) then ret p
      else if negb (wide p) && negb (op =? 63) then FAIL could_be_empty
      else
        _ ← skip 1;
        c ← look exp;
        if ISREPN c then FAIL nested_rep
        else ret (if op =? 42 then Star p else if op =? 43 then Plus p else Opt p)
  end
with parse_atom (n : nat) (exp : list Z) : R pst piece :=
  match n with
  | O => crash
  | S n' =>
      c ← look exp;
      _ ← skip 1;
      if (c : Z) =? 94 then ret Bol
      else if c =? 36 then ret Eol
      else if c =? 46 then ret Any
      else if c =? 91 then parse_bracket n' exp
      else if c =? 40 then try x := parse_reg n' exp true in ret (Group (fst x) (snd x))
      else if (c =? 0) || (c =? 124) || (c =? 41) then FAIL unexpected
      else if ISREPN c then FAIL follows_nothing
      else if c =? 92 then parse_escape exp
      else parse_literal exp
  end.

Definition parse_regexp (exp : list Z) : option (regerr + alts) :=
  match parse_reg (rounds exp) exp false (mkPst 0 1) with
  | Some (inr (_, al), _) => Some (inr al)
  | Some (inl e, _) => Some (inl e)
  | None => None
  end.
