(* ===== verification/RegMatch.v ===== *)
(** * What regexec finds

    The program of an expression, as [regcomp] lays it out, and the proof that
    [regmatch] on it decides the matches of the expression. *)
From S2P Require Import Prelude Regexp RegSyntax.

(** ** The layout of a program *)

(** Words of a piece, and the node whose link leads out of it. *)
Fixpoint psize (p : piece) : Z :=
  match p with
  | Bol | Eol | Any => 3
  | Bracket _ cs => 4 + alen cs
  | Lit w => 4 + alen w
  | Group _ al => 6 + asize al
  | Star p | Plus p => if simple p then 3 + psize p else 12 + psize p
  | Opt p => 9 + psize p
  end
with asize (al : alts) : Z := match al with One b => 3 + bsize b | Or b al => 3 + bsize b + asize al end
with bsize (b : branch) : Z := match b with Empty => 3 | Last p => psize p | Cat p b => psize p + bsize b end.

Definition ptail (p : piece) : Z :=
  match p with
  | Bol | Eol | Any | Bracket _ _ | Lit _ => 0
  | Group _ al => 3 + asize al
  | Star p | Plus p => if simple p then 0 else 9 + psize p
  | Opt p => 6 + psize p
  end.
Fixpoint btail (b : branch) : Z := match b with Empty => 0 | Last p => ptail p | Cat p b => psize p + btail b end.

Lemma size_pos : (forall p, 3 <= psize p) /\ (forall al, 6 <= asize al) /\ (forall b, 3 <= bsize b).
Proof.
  apply re_ind; cbn [psize asize bsize]; intros; try destruct (simple _);
    repeat match goal with |- context [alen ?w] => let H := fresh in pose proof (alen_nonneg w) as H; revert H; generalize (alen w); intros end; lia.
Qed.

Section code.
Context (l : list Z).

Definition node (a op : Z) : Prop := aget l a = Some op.
Definition lnk (a b : Z) : Prop := regnext l a = Some (Some b).

(** A piece at [a]; the link of its tail is left open. *)
Fixpoint pcode (p : piece) (a : Z) : Prop :=
  match p with
  | Bol => node a BOL
  | Eol => node a EOL
  | Any => node a ANY
  | Bracket neg cs => node a (if neg then ANYBUT else ANYOF) /\ str_at l (a + 3) cs
  | Lit w => node a EXACTLY /\ str_at l (a + 3) w
  | Group no al =>
      node a (SUB_OPEN + no) /\ lnk a (a + 3) /\ acode al (a + 3) (a + 3 + asize al) /\ node (a + 3 + asize al) (SUB_CLOSE + no)
  | Star p =>
      if simple p then node a STAR /\ pcode p (a + 3)
      else
        let b := a + 3 + psize p in
        node a BRANCH /\ lnk a (b + 3) /\ pcode p (a + 3) /\ lnk (a + 3 + ptail p) b /\
        node b BACK /\ lnk b a /\ node (b + 3) BRANCH /\ lnk (b + 3) (b + 6) /\ node (b + 6) NOTHING
  | Plus p =>
      if simple p then node a PLUS /\ pcode p (a + 3)
      else
        let b := a + psize p in
        pcode p a /\ lnk (a + ptail p) b /\ node b BRANCH /\ lnk b (b + 6) /\ node (b + 3) BACK /\ lnk (b + 3) a /\
        node (b + 6) BRANCH /\ lnk (b + 6) (b + 9) /\ node (b + 9) NOTHING
  | Opt p =>
      let b := a + 3 + psize p in
      node a BRANCH /\ lnk a b /\ pcode p (a + 3) /\ lnk (a + 3 + ptail p) (b + 3) /\
      node b BRANCH /\ lnk b (b + 3) /\ node (b + 3) NOTHING
  end
(** Alternatives at [a]; what follows all of them is at [k]. *)
with acode (al : alts) (a k : Z) : Prop :=
  match al with
  | One b => node a BRANCH /\ lnk a k /\ bcode b (a + 3) /\ lnk (a + 3 + btail b) k
  | Or b al =>
      let a' := a + 3 + bsize b in
      node a BRANCH /\ lnk a a' /\ bcode b (a + 3) /\ lnk (a + 3 + btail b) k /\ acode al a' k
  end
with bcode (b : branch) (a : Z) : Prop :=
  match b with
  | Empty => node a NOTHING
  | Last p => pcode p a
  | Cat p b => pcode p a /\ lnk (a + ptail p) (a + psize p) /\ bcode b (a + psize p)
  end.

(** The whole program. *)
Definition rcode (al : alts) : Prop :=
  acode al 1 (1 + asize al) /\ node (1 + asize al) END /\ regnext l (1 + asize al) = Some None.
End code.

(** An operation code that is two, and the other case analyses on a step. *)
Ltac op_clash := exfalso; unfold node, END, BOL, EOL, ANY, ANYOF, ANYBUT, BRANCH, BACK, EXACTLY, NOTHING, STAR, PLUS, SUB_OPEN, SUB_CLOSE in *;
  simplify_eq; lia.
Ltac not_end := let H := fresh in intros H; op_clash.
Ltac step_cases := intros ? ?; inversion 1; unfold lnk, node in *; try op_clash; simplify_eq; try done; try congruence.
Ltac mon H := repeat match type of H with
  | (?o ≫= _) = Some _ => let x := fresh "x" in let E := fresh "E" in destruct o as [x|] eqn:E; [cbn [mbind option_bind] in H|by inversion H]
  end.

(** ** Matching as paths through the program *)
Section path.
Context (l s : list Z).

(** From node [p] at [i] to node [q] at [i']. *)
Inductive step (p i : Z) : Z -> Z -> Prop :=
  | st_bol q : node l p BOL -> lnk l p q -> i = 0 -> step p i q i
  | st_eol q : node l p EOL -> lnk l p q -> chr s i = Some 0 -> step p i q i
  | st_any q c : node l p ANY -> lnk l p q -> chr s i = Some c -> c <> 0 -> step p i q (i + 1)
  | st_exactly q w c : node l p EXACTLY -> lnk l p q -> operand_str l (OPERAND p) = Some w -> aget l (OPERAND p) = Some c ->
      chr s i = Some c -> strstr (rest s i) w = true -> step p i q (i + alen w)
  | st_anyof q w c : node l p ANYOF -> lnk l p q -> operand_str l (OPERAND p) = Some w -> chr s i = Some c -> c <> 0 ->
      strchr w c = true -> step p i q (i + 1)
  | st_anybut q w c : node l p ANYBUT -> lnk l p q -> operand_str l (OPERAND p) = Some w -> chr s i = Some c -> c <> 0 ->
      strchr w c = false -> step p i q (i + 1)
  | st_nothing q op : node l p op -> op = NOTHING \/ op = BACK -> lnk l p q -> step p i q i
  | st_paren q op : node l p op -> SUB_OPEN < op <= SUB_OPEN + 9 \/ SUB_CLOSE < op <= SUB_CLOSE + 9 -> lnk l p q -> step p i q i
  | st_branch : node l p BRANCH -> step p i (OPERAND p) i
  | st_alt q : node l p BRANCH -> lnk l p q -> node l q BRANCH -> step p i q i
  | st_star q op k c : node l p op -> op = STAR \/ op = PLUS -> lnk l p q -> regrepeat l s i (OPERAND p) = Some c ->
      (if op =? STAR then 0 else 1) <= k <= c -> step p i q (i + k).

(** To an END node, in so many steps, at [j]. *)
Inductive path : nat -> Z -> Z -> Z -> Prop :=
  | path_end p i : node l p END -> path 0 p i i
  | path_step m p i q i' j : step p i q i' -> path m q i' j -> path (S m) p i j.

Definition reaches (p i j : Z) : Prop := exists m, path m p i j.

Lemma reaches_step p i q i' j : step p i q i' -> reaches q i' j -> reaches p i j.
Proof. intros H [m Hm]. exists (S m). by econstructor. Qed.

Lemma path_inv m p i j : path m p i j -> node l p END /\ i = j \/ exists m' q i', m = S m' /\ step p i q i' /\ path m' q i' j.
Proof. inversion 1; subst; [by left|right; eauto 6]. Qed.

Lemma reaches_inv p i j : reaches p i j -> node l p END /\ i = j \/ exists q i', step p i q i' /\ reaches q i' j.
Proof. intros [m [[? ?]|(m' & q & i' & _ & H & H')]%path_inv]; [by left|right]. exists q, i'. split; [done|by exists m']. Qed.

(** What the fuel of [regmatch] suffices for, it decides. *)
Definition decides (p i : Z) (b : bool) (ep' : exec) : Prop :=
  if b then reaches p i (reginput ep') else forall j, ~ reaches p i j.

Lemma decides_step p i q i' b ep' :
  ~ node l p END -> (forall q' i'', step p i q' i'' <-> q' = q /\ i'' = i') -> decides q i' b ep' -> decides p i b ep'.
Proof.
  intros He Hs. destruct b; cbn.
  - apply reaches_step. by apply Hs.
  - intros Hn j [[? ?]|(q' & i'' & H & Hr)]%reaches_inv; [done|]. apply Hs in H as [-> ->]. by apply (Hn j).
Qed.

Lemma decides_stuck p i ep' : ~ node l p END -> (forall q' i'', ~ step p i q' i'') -> decides p i false ep'.
Proof. intros He Hs j [[? ?]|(q' & i'' & H & Hr)]%reaches_inv; [done|]. by apply (Hs q' i''). Qed.

Lemma regmatch_none n ep b ep' : regmatch l s n None ep = Some (b, ep') -> b = false /\ ep' = ep.
Proof. destruct n; [done|]. by intros [= <- <-]. Qed.

Lemma decides_next n p i i' q b ep ep' :
  (forall p ep b ep', regmatch l s n (Some p) ep = Some (b, ep') -> decides p (reginput ep) b ep') ->
  regmatch l s n q ep = Some (b, ep') -> reginput ep = i' -> regnext l p = Some q -> ~ node l p END ->
  (forall q', q = Some q' -> step p i q' i') ->
  (forall q' i'', step p i q' i'' -> q = Some q' /\ i'' = i') -> decides p i b ep'.
Proof.
  intros IH H <- Hn He Hs1 Hs2. destruct q as [q|].
  - apply (decides_step p i q (reginput ep)); [done| |by apply IH]. intros q' i''. split.
    + intros [[= <-] ->]%Hs2. done.
    + intros [-> ->]. by apply Hs1.
  - apply regmatch_none in H as [-> ->]. apply decides_stuck; [done|]. by intros q' i'' [? ?]%Hs2.
Qed.

Lemma regmatch_decides n :
  (forall p ep b ep', regmatch l s n (Some p) ep = Some (b, ep') -> decides p (reginput ep) b ep') /\
  (forall p save ep b ep', regchoice l s n p save ep = Some (b, ep') -> reginput ep = save -> node l p BRANCH -> decides p save b ep') /\
  (forall q nextch save min no ep b ep', regstar l s n q nextch save min no ep = Some (b, ep') ->
     (nextch <> 0 -> node l q EXACTLY /\ aget l (OPERAND q) = Some nextch) ->
     if b then exists k, min <= k < no /\ reaches q (save + k) (reginput ep')
     else forall k j, min <= k < no -> ~ reaches q (save + k) j).
Proof.
  induction n as [|n (IHm & IHc & IHs)]; [done|]. split; [|split].
  - intros p ep b ep' H. cbn [regmatch] in H. mon H. rename x into next, x0 into op, x1 into c.
    destruct (Z.eqb_spec op BOL) as [->|N1].
    { destruct (Z.eqb_spec (reginput ep) 0) as [H0|H0]; cbn [negb] in H.
      - eapply decides_next; [done|exact H|reflexivity|done|not_end| |].
        + intros q' ->. by constructor.
        + step_cases.
      - injection H as <- <-. apply decides_stuck; [not_end|]. step_cases. }
    destruct (Z.eqb_spec op EOL) as [->|N2].
    { destruct (Z.eqb_spec c 0) as [->|H0]; cbn [negb] in H.
      - eapply decides_next; [done|exact H|reflexivity|done|not_end| |].
        + intros q' ->. by constructor.
        + step_cases.
      - injection H as <- <-. apply decides_stuck; [not_end|]. step_cases. }
    destruct (Z.eqb_spec op ANY) as [->|N3].
    { destruct (Z.eqb_spec c 0) as [->|H0].
      - injection H as <- <-. apply decides_stuck; [not_end|]. step_cases.
      - eapply decides_next; [done|exact H|cbn; apply Z.add_comm|done|not_end| |].
        + intros q' ->. by eapply st_any.
        + step_cases. }
    destruct (Z.eqb_spec op EXACTLY) as [->|N4].
    { mon H. destruct (Z.eqb_spec x c) as [->|H0]; cbn [negb] in H.
      - mon H. destruct (strstr _ _) eqn:Es.
        + eapply decides_next; [done|exact H|cbn; apply Z.add_comm|done|not_end| |].
          * intros q' ->. by eapply st_exactly.
          * step_cases.
        + injection H as <- <-. apply decides_stuck; [not_end|]. step_cases.
      - injection H as <- <-. apply decides_stuck; [not_end|]. step_cases. }
    destruct (Z.eqb_spec op ANYOF) as [->|N5].
    { mon H. destruct (Z.eqb_spec c 0) as [->|H0]; cbn [orb] in H; [|destruct (strchr x c) eqn:Es; cbn [negb] in H].
      - injection H as <- <-. apply decides_stuck; [not_end|]. step_cases.
      - eapply decides_next; [done|exact H|cbn; apply Z.add_comm|done|not_end| |].
        + intros q' ->. by eapply st_anyof.
        + step_cases.
      - injection H as <- <-. apply decides_stuck; [not_end|]. step_cases. }
    destruct (Z.eqb_spec op ANYBUT) as [->|N6].
    { mon H. destruct (Z.eqb_spec c 0) as [->|H0]; cbn [orb] in H; [|destruct (strchr x c) eqn:Es].
      - injection H as <- <-. apply decides_stuck; [not_end|]. step_cases.
      - injection H as <- <-. apply decides_stuck; [not_end|]. step_cases.
      - eapply decides_next; [done|exact H|cbn; apply Z.add_comm|done|not_end| |].
        + intros q' ->. by eapply st_anybut.
        + step_cases. }
    destruct ((op =? NOTHING) || (op =? BACK)) eqn:N7.
    { apply orb_true_iff in N7. rewrite !Z.eqb_eq in N7.
      eapply decides_next; [done|exact H|reflexivity|done|destruct N7; subst; not_end| |].
      - intros q' ->. by eapply st_nothing.
      - destruct N7; subst; step_cases. }
    apply orb_false_iff in N7 as [N7 N8]. rewrite Z.eqb_neq in N7, N8.
    destruct ((SUB_OPEN + 1 <=? op) && (op <=? SUB_OPEN + 9)) eqn:N9.
    { apply andb_true_iff in N9. rewrite !Z.leb_le in N9. mon H. destruct x as [b1 ep1].
      assert (D : decides p (reginput ep) b1 ep1).
      { eapply decides_next; [done|exact E2|reflexivity|done|not_end| |].
        - intros q' ->. eapply st_paren; [done|lia|done].
        - step_cases. }
      destruct b1; [mon H; by injection H as <- <-|by injection H as <- <-]. }
    destruct ((SUB_CLOSE + 1 <=? op) && (op <=? SUB_CLOSE + 9)) eqn:N10.
    { apply andb_true_iff in N10. rewrite !Z.leb_le in N10. mon H. destruct x as [b1 ep1].
      assert (D : decides p (reginput ep) b1 ep1).
      { eapply decides_next; [done|exact E2|reflexivity|done|not_end| |].
        - intros q' ->. eapply st_paren; [done|lia|done].
        - step_cases. }
      destruct b1; [mon H; by injection H as <- <-|by injection H as <- <-]. }
    apply andb_false_iff in N9, N10. rewrite !Z.leb_gt in N9, N10.
    destruct (Z.eqb_spec op BRANCH) as [->|N11].
    { mon H. subst next. rename x into q, x0 into opn. destruct (Z.eqb_spec opn BRANCH) as [->|Hop]; cbn [negb] in H; [by eapply IHc|].
      apply (decides_step p _ (OPERAND p) (reginput ep)); [not_end| |by apply IHm]. intros q' i''. split.
      - revert q' i''. step_cases.
      - intros [-> ->]. by eapply st_branch. }
    destruct ((op =? STAR) || (op =? PLUS)) eqn:N12.
    { apply orb_true_iff in N12. rewrite !Z.eqb_eq in N12. mon H. subst next. rename x into q, x0 into opn, x1 into nextch, x2 into c0.
      apply IHs in H.
      2:{ intros H0. destruct (Z.eqb_spec opn EXACTLY) as [->|]; [done|]. by injection E4 as <-. }
      destruct b; cbn.
      - destruct H as (k & Hk & Hr). eapply reaches_step; [|exact Hr]. eapply st_star; [done|done|done|done|lia].
      - intros j Hr. apply reaches_inv in Hr as [[? ?]|(q' & i'' & Hs & Hr)]; [destruct N12; subst; op_clash|].
        inversion Hs; unfold lnk, node in *; try (exfalso; destruct N12; subst; op_clash); simplify_eq. eapply H, Hr. lia. }
    apply orb_false_iff in N12 as [N12 N13]. rewrite Z.eqb_neq in N12, N13.
    destruct (Z.eqb_spec op END) as [->|N14]; injection H as <- <-.
    + exists 0%nat. by constructor.
    + apply decides_stuck; [intros H; unfold node in *; congruence|].
      intros q' i''; inversion 1; unfold node in *; simplify_eq; destruct_or?; subst; try done; lia.
  - intros p save ep b ep' H Hs Hp. cbn [regchoice] in H. rewrite Hp in H. cbn in H. mon H. destruct x as [b1 ep1]. apply IHm in E. rewrite Hs in E.
    destruct b1; cbn in E.
    + injection H as <- <-. eapply reaches_step; [by apply st_branch|done].
    + mon H. subst. rename x0 into q. destruct (decide (aget l q = Some BRANCH)) as [Hq|Hq].
      * apply IHc in H; [|done|done]. destruct b; cbn in *.
        -- eapply reaches_step; [by eapply st_alt|done].
        -- intros j Hr. apply reaches_inv in Hr as [[? ?]|(q' & i'' & Hst & Hr)]; [op_clash|].
           inversion Hst; unfold lnk, node in *; try op_clash; simplify_eq; [by apply (E j)|by apply (H j)].
      * assert (b = false) as ->.
        { destruct n; [done|]. cbn [regchoice] in H. mon H. destruct (Z.eqb_spec x BRANCH) as [->|]; [done|]. by injection H as <- _. }
        intros j Hr. apply reaches_inv in Hr as [[? ?]|(q' & i'' & Hst & Hr)]; [op_clash|].
        inversion Hst; unfold lnk, node in *; try op_clash; simplify_eq; by apply (E j).
  - intros q nextch save min no ep b ep' H Hch. cbn [regstar] in H. destruct (Z.gtb_spec no min) as [Hn|Hn]; cbn [negb] in H.
    2:{ injection H as <- <-. intros k j Hk. lia. }
    mon H. destruct ((nextch =? 0) || (x =? nextch)) eqn:Et.
    + mon H. destruct x0 as [b1 ep1]. apply IHm in E0. cbn in E0. destruct b1; cbn in E0.
      * injection H as <- <-. exists (no - 1). split; [lia|]. by replace (save + (no - 1)) with (save + no - 1) by lia.
      * apply IHs in H; [|done]. destruct b.
        -- destruct H as (k & Hk & Hr). exists k. split; [lia|done].
        -- intros k j Hk. destruct (decide (k = no - 1)) as [->|]; [|apply H; lia].
           replace (save + (no - 1)) with (save + no - 1) by lia. apply E0.
    + apply orb_false_iff in Et as [E1 E2]. rewrite Z.eqb_neq in E1, E2. destruct (Hch E1) as [Hq Hc].
      apply IHs in H; [|done]. destruct b.
      * destruct H as (k & Hk & Hr). exists k. split; [lia|done].
      * intros k j Hk. destruct (decide (k = no - 1)) as [->|]; [|apply H; lia].
        replace (save + (no - 1)) with (save + no - 1) by lia. intros Hr.
        apply reaches_inv in Hr as [[? ?]|(q' & i'' & Hst & Hr)]; [op_clash|].
        change (chr s (save + no - 1) = Some x) in E. inversion Hst; unfold lnk, node in *; try op_clash; simplify_eq.
Qed.
End path.

(** ** Matches stay in the string *)
Section ranges.
Context (L : Z -> list Z -> Prop) (s : list Z) (HL : forall i w, L i w -> 0 <= i /\ i + alen w <= alen s).

Notation ends_in w i j := (i <= j <= alen s /\ (w = true -> i < j)).

Lemma rtc_range (P : Z -> Z -> Prop) i j :
  (forall i j, 0 <= i <= alen s -> P i j -> i <= j <= alen s) -> 0 <= i <= alen s -> rtc P i j -> i <= j <= alen s.
Proof.
  intros HP Hi H. revert Hi. induction H as [i|i k j H1 _ IH]; intros Hi; [lia|]. apply HP in H1; [|done]. specialize (IH ltac:(lia)). lia.
Qed.

Lemma match_range :
  (forall p i j, pwf p -> 0 <= i <= alen s -> mpiece L s p i j -> ends_in (wide p) i j) /\
  (forall al i j, awf al -> 0 <= i <= alen s -> malts L s al i j -> ends_in (wide_alts al) i j) /\
  (forall b i j, bwf b -> 0 <= i <= alen s -> mbranch L s b i j -> ends_in (wide_branch b) i j).
Proof.
  apply re_ind; cbn.
  - intros i j _ Hi [-> ->]. lia.
  - intros i j _ Hi [-> ->]. lia.
  - intros i j _ Hi [? ->]. lia.
  - intros neg cs i j _ Hi [(c & Hc & _) ->]. apply aget_Some_bound in Hc. lia.
  - intros w i j [Hw _] Hi [Hl ->]. apply HL in Hl as [_ Hl]. unfold alen in *. destruct w; [done|]. cbn [length] in *. lia.
  - intros no al IH i j [_ Hwf]. by apply IH.
  - intros p IH i j [_ Hwf] Hi H. split; [|done]. eapply rtc_range; [|done|exact H]. intros i1 j1 H1 H2. by destruct (IH i1 j1 Hwf H1 H2).
  - intros p IH i j [Hw Hwf] Hi (k & H1 & H2). destruct (IH i k Hwf Hi H1) as [Hk Hk']. specialize (Hk' Hw).
    apply rtc_range in H2; [lia| |lia]. intros i1 j1 H3 H4. by destruct (IH i1 j1 Hwf H3 H4).
  - intros p IH i j Hwf Hi [->|H]; [split; [lia|done]|]. split; [|done]. by apply IH in H as [? _].
  - intros b IH i j. apply IH.
  - intros b IHb al IHa i j [Hb Ha] Hi [H|H]; [apply IHb in H as [? H3]; auto|apply IHa in H as [? H3]; auto]; (split; [done|]; intros [H1 H2]%andb_true_iff; auto).
  - intros i j _ Hi ->. split; [lia|done].
  - intros p IH i j. apply IH.
  - intros p IHp b IHb i j [Hp Hb] Hi (k & H1 & H2). destruct (IHp _ _ Hp Hi H1) as [H3 H3']. destruct (IHb k j Hb ltac:(lia) H2) as [H4 H4'].
    split; [lia|]. intros [H5|H5]%orb_true_iff; [specialize (H3' H5)|specialize (H4' H5)]; lia.
Qed.
End ranges.

(** ** Repetitions of one character *)
Fixpoint prefix_count (f : Z -> bool) (l : list Z) : Z :=
  match l with c :: l' => if f c then 1 + prefix_count f l' else 0 | [] => 0 end.

Lemma strspn_count l w : strspn l w = prefix_count (strchr w) l.
Proof. induction l as [|c l IH]; cbn; [done|]. by rewrite IH. Qed.
Lemma strcspn_count l w : strcspn l w = prefix_count (fun c => negb (strchr w c)) l.
Proof. induction l as [|c l IH]; cbn; [done|]. rewrite IH. by destruct (strchr w c). Qed.
Lemma count_ch_count l ch : count_ch l ch = prefix_count (fun c => c =? ch) l.
Proof. induction l as [|c l IH]; cbn; [done|]. by rewrite IH. Qed.
Lemma alen_count l : alen l = prefix_count (fun _ => true) l.
Proof. induction l as [|c l IH]; [done|]. cbn [prefix_count]. rewrite <- IH. unfold alen. cbn [length]. lia. Qed.

Lemma prefix_count_range f l : 0 <= prefix_count f l <= alen l.
Proof. induction l as [|c l IH]; cbn; [done|]. unfold alen in *. cbn [length]. destruct (f c); lia. Qed.

Lemma prefix_count_spec f l : forall k, 0 <= k ->
  k <= prefix_count f l <-> forall m, 0 <= m < k -> exists c, aget l m = Some c /\ f c = true.
Proof.
  induction l as [|c l IH]; intros k Hk; cbn [prefix_count].
  - split; [lia|]. intros H. destruct (decide (k = 0)); [lia|]. destruct (H 0) as (c & Hc & _); [lia|]. done.
  - assert (Hs : forall m, 0 <= m -> aget (c :: l) (1 + m) = aget l m).
    { intros m Hm. unfold aget. rewrite !decide_True by lia. by replace (Z.to_nat (1 + m)) with (S (Z.to_nat m)) by lia. }
    destruct (f c) eqn:E.
    + destruct (decide (k = 0)) as [->|Hne]; [pose proof (prefix_count_range f l); split; [lia|intros _; lia]|].
      transitivity (k - 1 <= prefix_count f l); [lia|]. rewrite IH by lia. split; intros H m Hm.
      * destruct (decide (m = 0)) as [->|]; [by exists c|]. replace m with (1 + (m - 1)) by lia. rewrite Hs by lia. apply H. lia.
      * rewrite <- Hs by lia. apply H. lia.
    + split; [lia|]. intros H. destruct (decide (k = 0)); [lia|]. destruct (H 0) as (d & [= <-] & Hd); [lia|]. congruence.
Qed.

Lemma aget_rest s i m : 0 <= i -> 0 <= m -> aget (rest s i) m = aget s (i + m).
Proof. intros. unfold aget, rest. rewrite !decide_True by lia. rewrite lookup_drop. f_equal. lia. Qed.

Lemma alen_rest s i : 0 <= i <= alen s -> alen (rest s i) = alen s - i.
Proof. intros. unfold alen, rest in *. rewrite length_drop. lia. Qed.

(** ** Strings *)
Lemma chr_aget s i c : aget s i = Some c -> chr s i = Some c.
Proof. intros H. unfold chr. pose proof (aget_Some_bound _ _ _ H). rewrite (proj2 (Z.eqb_neq i (alen s))) by lia. done. Qed.

Lemma chr_inv s i c : chr s i = Some c -> c <> 0 -> aget s i = Some c.
Proof. unfold chr. destruct (Z.eqb_spec i (alen s)); [by intros [= <-]|done]. Qed.

Lemma aget_nonzero s i c : Forall (fun c => c <> 0) s -> aget s i = Some c -> c <> 0.
Proof. intros H. unfold aget. case_decide; [|done]. intros Hc. by eapply (Forall_lookup_1 _ _ _ _ H). Qed.

Lemma chr_in s i : 0 <= i <= alen s -> is_Some (chr s i).
Proof. intros Hi. unfold chr. destruct (Z.eqb_spec i (alen s)); [by eexists|]. apply aget_in. lia. Qed.

Lemma chr_zero s i : Forall (fun c => c <> 0) s -> chr s i = Some 0 -> i = alen s.
Proof. intros Hs. unfold chr. destruct (Z.eqb_spec i (alen s)); [done|]. intros H. by apply (aget_nonzero _ _ _ Hs) in H. Qed.

Lemma strstr_length s w : strstr s w = true -> (length w <= length s)%nat.
Proof.
  induction s as [|c s IH]; [done|]. cbn [strstr]. intros [[_ H]%andb_true_iff|H]%orb_true_iff.
  - apply bool_decide_eq_true in H. rewrite <- H, length_take. lia.
  - apply IH in H. cbn. lia.
Qed.

Lemma lit_found_range s i w : lit_found s i w -> 0 <= i /\ i + alen w <= alen s.
Proof.
  intros (Hi & (c & Hc & _) & H%strstr_length). apply aget_Some_bound in Hc. split; [done|].
  unfold rest, alen in *. rewrite length_drop in H. lia.
Qed.

Lemma str_at_operand l w : forall p, 0 <= p -> str_at l p w -> Forall (fun c => c <> 0) w -> operand_str l p = Some w.
Proof.
  unfold operand_str. induction w as [|c w IH]; intros p Hp H Hw; cbn in H.
  - unfold aget in H. rewrite decide_True in H by done. by rewrite (drop_S _ _ _ H).
  - destruct H as [H Hr]. unfold aget in H. rewrite decide_True in H by done. rewrite (drop_S _ _ _ H).
    apply Forall_cons in Hw as [Hc Hw]. cbn [cstring]. rewrite (proj2 (Z.eqb_neq c 0)) by done.
    replace (S (Z.to_nat p)) with (Z.to_nat (p + 1)) by lia. by rewrite (IH (p + 1)) by (done || lia).
Qed.

Lemma str_at_head l w p : str_at l p w -> aget l p = Some (hd 0 w).
Proof. destruct w; [done|]. by intros [? _]. Qed.

Lemma strstr_1 s c : strstr s [c] = true <-> c ∈ s.
Proof.
  induction s as [|d s IH]; cbn [strstr]; [split; [done|by intros ?%not_elem_of_nil]|].
  rewrite orb_true_iff, andb_true_iff, IH, elem_of_cons, bool_decide_eq_true. unfold starts. rewrite bool_decide_eq_true. cbn.
  split; [intros [[[= ->] _]|]; auto|intros [->|]; auto].
Qed.

Lemma lit_found_1 s i c : lit_found s i [c] <-> aget s i = Some c.
Proof.
  split.
  - intros (_ & (d & Hd & [= <-]) & _). done.
  - intros H. pose proof (aget_Some_bound _ _ _ H). split; [lia|]. split; [by exists c|]. apply strstr_1.
    apply (list_elem_of_lookup_2 _ 0). unfold rest. rewrite lookup_drop, Nat.add_0_r. unfold aget in H. by rewrite decide_True in H by lia.
Qed.

(** What the repetition of a simple piece counts. *)
Lemma regrepeat_spec l s p a i :
  Forall (fun c => c <> 0) s -> 0 <= a -> pwf p -> simple p = true -> pcode l p a -> 0 <= i <= alen s ->
  exists c, regrepeat l s i a = Some c /\ 0 <= c /\ i + c <= alen s /\
    forall k, 0 <= k -> k <= c <-> forall m, 0 <= m < k -> mpiece (lit_found s) s p (i + m) (i + m + 1).
Proof.
  intros Hs Ha Hwf Hsim Hc Hi.
  assert (H : exists f, regrepeat l s i a = Some (prefix_count f (rest s i)) /\
    forall m, 0 <= m -> (exists c, aget s (i + m) = Some c /\ f c = true) <-> mpiece (lit_found s) s p (i + m) (i + m + 1)).
  { unfold regrepeat. destruct p as [| | |neg cs|w| | | |]; try done; cbn [pcode mpiece simple pwf] in *.
    - rewrite Hc. exists (fun _ => true). cbn. rewrite alen_count. split; [done|]. intros m Hm. split.
      + intros (c & Hx & _). apply aget_Some_bound in Hx. lia.
      + intros [H _]. destruct (aget_in s (i + m) H) as [c Hx]. by exists c.
    - destruct Hc as [Hn Ho]. apply str_at_operand in Ho; [|lia|done]. rewrite Hn. unfold OPERAND. destruct neg; cbn; rewrite Ho; cbn.
      + exists (fun c => negb (strchr cs c)). rewrite strcspn_count. split; [done|]. intros m Hm. split.
        * intros (c & Hx & Hf). split; [|done]. exists c. by apply negb_true_iff in Hf.
        * intros [(c & Hx & Hf) _]. exists c. by rewrite Hf.
      + exists (strchr cs). rewrite strspn_count. split; [done|]. intros m Hm. split.
        * intros (c & Hx & Hf). split; [|done]. by exists c.
        * intros [(c & Hx & Hf) _]. by exists c.
    - destruct Hc as [Hn Ho]. destruct w as [|c [|d w]]; [by destruct Hwf| |apply Z.eqb_eq in Hsim; unfold alen in Hsim; cbn [length] in Hsim; lia].
      destruct Hwf as [_ Hwf]. apply Forall_cons in Hwf as [Hc0 _]. rewrite Hn. unfold OPERAND. cbn. destruct Ho as [Ho _]. rewrite Ho. cbn.
      rewrite (proj2 (Z.eqb_neq c 0)) by done. exists (fun d => d =? c). rewrite count_ch_count. split; [done|]. intros m Hm. rewrite lit_found_1. split.
      + intros (d & Hx & ->%Z.eqb_eq). done.
      + intros [Hx _]. exists c. split; [done|apply Z.eqb_refl]. }
  destruct H as (f & Hr & Hf). exists (prefix_count f (rest s i)). pose proof (prefix_count_range f (rest s i)) as Hb. rewrite alen_rest in Hb by done.
  split; [done|]. split; [lia|]. split; [lia|]. intros k Hk. rewrite prefix_count_spec by done. split; intros H m Hm.
  - apply Hf; [lia|]. destruct (H m Hm) as (c & Hc1 & Hc2). rewrite aget_rest in Hc1 by lia. by exists c.
  - rewrite aget_rest by lia. apply Hf; [lia|]. by apply H.
Qed.

Section run.
Context (l s : list Z) (Hs : Forall (fun c => c <> 0) s).
Notation mp := (mpiece (lit_found s) s).
Notation ma := (malts (lit_found s) s).
Notation mb := (mbranch (lit_found s) s).

Lemma simple_one p i j : simple p = true -> pwf p -> mp p i j -> j = i + 1.
Proof.
  destruct p as [| | |neg cs|w| | | |]; try done; cbn.
  - by intros _ _ [_ ->].
  - by intros _ _ [_ ->].
  - by intros ->%Z.eqb_eq _ [_ ->].
Qed.

(** A count of one-character matches is a chain of them. *)
Lemma rtc_simple p i j :
  simple p = true -> pwf p -> rtc (mp p) i j <-> exists k, 0 <= k /\ j = i + k /\ forall m, 0 <= m < k -> mp p (i + m) (i + m + 1).
Proof.
  intros Hsim Hwf. split.
  - induction 1 as [i|i x j H _ (k & Hk & -> & IH)]; [exists 0; split; [done|split; [lia|lia]]|].
    pose proof (simple_one _ _ _ Hsim Hwf H) as ->. exists (1 + k). split; [lia|]. split; [lia|]. intros m Hm.
    destruct (decide (m = 0)) as [->|]; [by rewrite Z.add_0_r|]. specialize (IH (m - 1)).
    replace (i + 1 + (m - 1)) with (i + m) in IH by lia. apply IH. lia.
  - intros (k & Hk & -> & H). revert i H. pattern k. apply natlike_ind; [| |done]; clear k Hk.
    + intros i _. rewrite Z.add_0_r. constructor.
    + intros k Hk IH i H. econstructor.
      * specialize (H 0). rewrite Z.add_0_r in H. apply H. lia.
      * replace (i + Z.succ k) with (i + 1 + k) by lia. apply IH. intros m Hm. replace (i + 1 + m) with (i + (1 + m)) by lia. apply H. lia.
Qed.

Lemma node_lnk_step p i op q :
  node l p op -> op = NOTHING \/ op = BACK \/ SUB_OPEN < op <= SUB_OPEN + 9 \/ SUB_CLOSE < op <= SUB_CLOSE + 9 -> lnk l p q ->
  forall q' i', step l s p i q' i' <-> q' = q /\ i' = i.
Proof.
  intros Hn Hop Hl q' i'. split.
  - inversion 1; unfold node, lnk in *; simplify_eq; try done; exfalso; unfold BOL, EOL, ANY, ANYOF, ANYBUT, BRANCH, BACK, EXACTLY, NOTHING, STAR, PLUS, SUB_OPEN, SUB_CLOSE in *; lia.
  - intros [-> ->]. destruct Hop as [Hop|[Hop|Hop]]; [by eapply st_nothing; [|left|]; eauto|by eapply st_nothing; [|right|]; eauto|by eapply st_paren].
Qed.

(** A path through a node with one way on. *)
Lemma path_through m p i j q i' :
  path l s m p i j -> ~ node l p END -> (forall q' i'', step l s p i q' i'' -> q' = q /\ i'' = i') ->
  exists m', m = S m' /\ path l s m' q i' j.
Proof. intros [[? _]|(m' & q' & i'' & -> & H & Hp)]%path_inv Hn Hstep; [done|]. apply Hstep in H as [-> ->]. eauto. Qed.

(** The choices of a BRANCH node whose next is [q]. *)
Lemma path_branch m p i j q :
  path l s m p i j -> node l p BRANCH -> lnk l p q ->
  exists m', m = S m' /\ (path l s m' (p + 3) i j \/ node l q BRANCH /\ path l s m' q i j).
Proof.
  intros [[? _]|(m' & q' & i'' & -> & H & Hp)]%path_inv Hn Hl; [op_clash|].
  exists m'. split; [done|]. inversion H; unfold node, lnk in *; try op_clash; simplify_eq; [by left|by right].
Qed.

(** From a node of which the step is known. *)
Ltac path_step Hp := let Hst := fresh "Hst" in apply path_inv in Hp as [[? _]|(? & ? & ? & -> & Hst & Hp)]; [op_clash|];
  inversion Hst; clear Hst; unfold lnk in *; try op_clash; unfold node, OPERAND in *; simplify_eq.

Lemma repeat_path p a k m i j op :
  simple p = true -> pwf p -> 0 <= a -> op = STAR \/ op = PLUS -> node l a op -> pcode l p (a + 3) -> lnk l a k -> 0 <= i <= alen s ->
  path l s m a i j -> exists c m', (if op =? STAR then 0 else 1) <= c /\ path l s m' k (i + c) j /\ (m' < m)%nat /\
    forall x, 0 <= x < c -> mp p (i + x) (i + x + 1).
Proof.
  intros Hsim Hwf Ha Hop Hn Hc Hl Hi Hp. apply path_inv in Hp as [[? _]|(m' & q & i' & -> & Hst & Hp)]; [destruct Hop; subst; op_clash|].
  inversion Hst; unfold lnk, node in *; try (exfalso; destruct Hop; subst; op_clash); simplify_eq.
  destruct (regrepeat_spec l s p (a + 3) i Hs) as (c1 & Hr & Hc0 & Hci & Hcount); [lia|done..|].
  change (OPERAND a) with (a + 3) in *. simplify_eq. eexists _, m'. split; [|split; [exact Hp|split; [lia|apply Hcount; [|lia]]]]; [lia|].
  destruct (_ =? STAR); lia.
Qed.

Definition p_matches (p : piece) : Prop := forall a k m i j,
  pwf p -> pcode l p a -> 0 <= a -> lnk l (a + ptail p) k -> 0 <= i <= alen s -> path l s m a i j ->
  exists i' m', mp p i i' /\ path l s m' k i' j /\ (m' < m)%nat.
Definition a_matches (al : alts) : Prop := forall a k m i j,
  awf al -> acode l al a k -> 0 <= a -> ~ node l k BRANCH -> 0 <= i <= alen s -> path l s m a i j ->
  exists i' m', ma al i i' /\ path l s m' k i' j /\ (m' < m)%nat.
Definition b_matches (b : branch) : Prop := forall a k m i j,
  bwf b -> bcode l b a -> 0 <= a -> lnk l (a + btail b) k -> 0 <= i <= alen s -> path l s m a i j ->
  exists i' m', mb b i i' /\ path l s m' k i' j /\ (m' < m)%nat.

Lemma range_p p i j : pwf p -> 0 <= i <= alen s -> mp p i j -> i <= j <= alen s /\ (wide p = true -> i < j).
Proof. apply (match_range _ s (lit_found_range s)). Qed.

Lemma star_matches p : p_matches p -> p_matches (Star p).
Proof.
  intros IH a k m i j [Hw Hwf] Hc Ha Hk Hi Hp. cbn [pcode ptail] in *. destruct (simple p) eqn:Esim.
  - destruct Hc as [Hn Hc]. rewrite Z.add_0_r in Hk. destruct (repeat_path p a k m i j STAR) as (c & m' & Hc0 & Hp' & Hm & H); auto.
    exists (i + c), m'. split; [|done]. apply rtc_simple; [done..|]. exists c. done.
  - destruct Hc as (N1 & L1 & Hc & L2 & N2 & L3 & N3 & L4 & N4). set (b := a + 3 + psize p) in *.
    revert i Hi Hp. induction (lt_wf m) as [m _ IHm]. intros i Hi Hp.
    apply path_branch with (q := b + 3) in Hp as (m1 & -> & [Hp|[_ Hp]]); [| |done..].
    + destruct (IH (a + 3) b m1 i j) as (i1 & m2 & M1 & Hp2 & Hm2); [done|done|lia|done|done|done|].
      destruct (range_p p i i1 Hwf Hi M1) as [Hr _]. path_step Hp2.
      edestruct IHm as (i' & m' & M2 & Hp3 & Hm3); [|  |exact Hp2|]; [lia|lia|]. exists i', m'. split; [by econstructor|]. split; [done|lia].
    + apply path_branch with (q := b + 6) in Hp as (m2 & -> & [Hp|[? _]]); [|op_clash|done..].
      replace (b + 3 + 3) with (b + 6) in Hp by lia. replace (a + (9 + psize p)) with (b + 6) in Hk by lia. path_step Hp.
      eexists _, _. split; [constructor|]. split; [exact Hp|lia].
Qed.

Lemma plus_matches p : p_matches p -> p_matches (Plus p).
Proof.
  intros IH a k m i j [Hw Hwf] Hc Ha Hk Hi Hp. cbn [pcode ptail] in *. destruct (simple p) eqn:Esim.
  - destruct Hc as [Hn Hc]. rewrite Z.add_0_r in Hk. destruct (repeat_path p a k m i j PLUS) as (c & m' & Hc0 & Hp' & Hm & H); auto.
    change (1 <= c) in Hc0. exists (i + c), m'. split; [|done]. exists (i + 1). split; [specialize (H 0); rewrite Z.add_0_r in H; apply H; lia|].
    apply rtc_simple; [done..|]. exists (c - 1). split; [lia|]. split; [lia|]. intros x Hx. replace (i + 1 + x) with (i + (1 + x)) by lia. apply H. lia.
  - destruct Hc as (Hc & L1 & N1 & L2 & N2 & L3 & N3 & L4 & N4). set (b := a + psize p) in *.
    revert i Hi Hp. induction (lt_wf m) as [m _ IHm]. intros i Hi Hp.
    destruct (IH a b m i j) as (i1 & m1 & M1 & Hp1 & Hm1); [done..|]. destruct (range_p p i i1 Hwf Hi M1) as [Hr _]. clear Hp.
    apply path_branch with (q := b + 6) in Hp1 as (m2 & -> & [Hp|[_ Hp]]); [| |done..].
    + path_step Hp. edestruct IHm as (i' & m' & (y & M2 & M3) & Hp3 & Hm3); [| |exact Hp|]; [lia|lia|].
      exists i', m'. split; [|split; [done|lia]]. eexists. split; [exact M1|]. by econstructor.
    + apply path_branch with (q := b + 9) in Hp as (m3 & -> & [Hp|[? _]]); [|op_clash|done..].
      replace (b + 6 + 3) with (b + 9) in Hp by lia. replace (a + (9 + psize p)) with (b + 9) in Hk by lia. path_step Hp.
      eexists _, _. split; [eexists; split; [exact M1|constructor]|]. split; [exact Hp|lia].
Qed.

Lemma opt_matches p : p_matches p -> p_matches (Opt p).
Proof.
  intros IH a k m i j Hwf (N1 & L1 & Hc & L2 & N2 & L3 & N3) Ha Hk Hi Hp. cbn [ptail] in *. set (b := a + 3 + psize p) in *.
  replace (a + (6 + psize p)) with (b + 3) in Hk by lia.
  apply path_branch with (q := b) in Hp as (m1 & -> & [Hp|[_ Hp]]); [| |done..].
  - destruct (IH (a + 3) (b + 3) m1 i j) as (i1 & m2 & M1 & Hp2 & Hm2); [done|done|lia|done|done|done|]. path_step Hp2.
    eexists _, _. split; [right; exact M1|]. split; [exact Hp2|lia].
  - apply path_branch with (q := b + 3) in Hp as (m2 & -> & [Hp|[? _]]); [|op_clash|done..]. path_step Hp.
    eexists _, _. split; [by left|]. split; [exact Hp|lia].
Qed.

Lemma leaf_matches p : match p with Bol | Eol | Any | Bracket _ _ | Lit _ => p_matches p | _ => True end.
Proof.
  destruct p as [| | |neg cs|w| | | |]; try done; intros a k m i j Hwf Hc Ha Hk Hi Hp; cbn [pcode ptail pwf] in *; rewrite Z.add_0_r in Hk.
  - path_step Hp. eexists _, _. split; [|split; [exact Hp|lia]]. done.
  - path_step Hp. eexists _, _. split; [|split; [exact Hp|lia]]. split; [by apply chr_zero|done].
  - path_step Hp. eexists _, _. split; [|split; [exact Hp|lia]]. split; [|done]. apply (aget_Some_bound s _ c). by apply chr_inv.
  - destruct Hc as [Hn Ho]. apply str_at_operand in Ho; [|lia|done]. unfold OPERAND in *.
    destruct neg; path_step Hp; (eexists _, _; split; [|split; [exact Hp|lia]]); (split; [|done]); exists c; (split; [by apply chr_inv|done]).
  - destruct Hc as [Hn Ho]. pose proof (str_at_head _ _ _ Ho) as Hh. apply str_at_operand in Ho; [|lia|apply Hwf]. unfold OPERAND in *.
    path_step Hp. eexists _, _. split; [|split; [exact Hp|lia]]. split; [|done]. split; [lia|]. split; [|done].
    destruct Hwf as [Hw Hwf]. destruct w as [|d w]; [done|]. apply Forall_cons in Hwf as [Hd _]. cbn [hd] in *. exists d. split; [by apply chr_inv|done].
Qed.

Theorem path_matches : (forall p, p_matches p) /\ (forall al, a_matches al) /\ (forall b, b_matches b).
Proof.
  apply re_ind.
  - apply (leaf_matches Bol).
  - apply (leaf_matches Eol).
  - apply (leaf_matches Any).
  - intros neg cs. apply (leaf_matches (Bracket neg cs)).
  - intros w. apply (leaf_matches (Lit w)).
  - intros no al IH a k m i j [Hno Hwf] (N1 & L1 & Hc & N2) Ha Hk Hi Hp. cbn [ptail] in *. unfold NSUBEXP in Hno. path_step Hp.
    edestruct IH as (i1 & m2 & M & Hp2 & Hm2); [exact Hwf|exact Hc|lia| |exact Hi|exact Hp|]; [intros ?; op_clash|].
    clear Hp. replace (a + (3 + asize al)) with (a + 3 + asize al) in Hk by lia. path_step Hp2.
    eexists _, _. split; [exact M|]. split; [exact Hp2|lia].
  - apply star_matches.
  - apply plus_matches.
  - apply opt_matches.
  - intros b IH a k m i j Hwf (N1 & L1 & Hc & L2) Ha Hk Hi Hp.
    apply path_branch with (q := k) in Hp as (m1 & -> & [Hp|[? _]]); [|done|done..].
    edestruct IH as (i' & m' & M & Hp' & Hm); [exact Hwf|exact Hc|lia|exact L2|exact Hi|exact Hp|]. exists i', m'. split; [done|]. split; [done|lia].
  - intros b IHb al IHa a k m i j [Hwb Hwa] (N1 & L1 & Hc & L2 & Hca) Ha Hk Hi Hp.
    apply path_branch with (q := a + 3 + bsize b) in Hp as (m1 & -> & [Hp|[_ Hp]]); [| |done..].
    + edestruct IHb as (i' & m' & M & Hp' & Hm); [exact Hwb|exact Hc|lia|exact L2|exact Hi|exact Hp|]. exists i', m'. split; [by left|]. split; [done|lia].
    + edestruct IHa as (i' & m' & M & Hp' & Hm); [exact Hwa|exact Hca| |exact Hk|exact Hi|exact Hp|]; [pose proof (proj2 (proj2 size_pos) b); lia|].
      exists i', m'. split; [by right|]. split; [done|lia].
  - intros a k m i j _ Hn Ha Hk Hi Hp. cbn [bcode btail] in *. rewrite Z.add_0_r in Hk. path_step Hp. eexists _, _. split; [done|]. split; [exact Hp|lia].
  - intros p IH. exact IH.
  - intros p IHp b IHb a k m i j [Hwp Hwb] (Hcp & L1 & Hcb) Ha Hk Hi Hp. cbn [btail] in *.
    edestruct IHp as (i1 & m1 & M1 & Hp1 & Hm1); [exact Hwp|exact Hcp|done|exact L1|exact Hi|exact Hp|]. destruct (range_p p i i1 Hwp Hi M1) as [Hr _].
    edestruct IHb as (i2 & m2 & M2 & Hp2 & Hm2); [exact Hwb|exact Hcb| | |  |exact Hp1|]; [pose proof (proj1 size_pos p); lia|by rewrite <- Z.add_assoc|lia|].
    exists i2, m2. split; [by exists i1|]. split; [done|lia].
Qed.

(** ** Every match has a path *)
Definition p_reached (p : piece) : Prop := forall a k i i' j,
  pwf p -> pcode l p a -> 0 <= a -> lnk l (a + ptail p) k -> 0 <= i <= alen s -> mp p i i' -> reaches l s k i' j -> reaches l s a i j.
Definition a_reached (al : alts) : Prop := forall a k i i' j,
  awf al -> acode l al a k -> 0 <= a -> 0 <= i <= alen s -> ma al i i' -> reaches l s k i' j -> reaches l s a i j.
Definition b_reached (b : branch) : Prop := forall a k i i' j,
  bwf b -> bcode l b a -> 0 <= a -> lnk l (a + btail b) k -> 0 <= i <= alen s -> mb b i i' -> reaches l s k i' j -> reaches l s a i j.

Lemma reaches_nothing a k i j : node l a NOTHING -> lnk l a k -> reaches l s k i j -> reaches l s a i j.
Proof. intros. eapply reaches_step; [by eapply st_nothing; [|left|]|done]. Qed.
Lemma reaches_back a k i j : node l a BACK -> lnk l a k -> reaches l s k i j -> reaches l s a i j.
Proof. intros. eapply reaches_step; [by eapply st_nothing; [|right|]|done]. Qed.
Lemma reaches_branch a i j : node l a BRANCH -> reaches l s (a + 3) i j -> reaches l s a i j.
Proof. intros. eapply reaches_step; [by apply st_branch|done]. Qed.
Lemma reaches_alt a k i j : node l a BRANCH -> lnk l a k -> node l k BRANCH -> reaches l s k i j -> reaches l s a i j.
Proof. intros. eapply reaches_step; [by eapply st_alt|done]. Qed.

(** BRANCH over NOTHING: the way out of a repetition. *)
Lemma reaches_empty a k i j :
  node l a BRANCH -> node l (a + 3) NOTHING -> lnk l (a + 3) k -> reaches l s k i j -> reaches l s a i j.
Proof. intros. apply reaches_branch; [done|]. by eapply reaches_nothing. Qed.

Lemma repeat_reached p a k i c j op :
  simple p = true -> pwf p -> 0 <= a -> op = STAR \/ op = PLUS -> node l a op -> pcode l p (a + 3) -> lnk l a k -> 0 <= i <= alen s ->
  (if op =? STAR then 0 else 1) <= c -> (forall x, 0 <= x < c -> mp p (i + x) (i + x + 1)) -> reaches l s k (i + c) j -> reaches l s a i j.
Proof.
  intros Hsim Hwf Ha Hop Hn Hc Hl Hi Hc0 H Hr.
  destruct (regrepeat_spec l s p (a + 3) i Hs) as (c1 & Hr1 & Hc1 & Hci & Hcount); [lia|done..|].
  eapply reaches_step; [|exact Hr]. eapply st_star; [done|done|done|exact Hr1|]. split; [done|]. apply Hcount; [destruct (op =? STAR); lia|done].
Qed.

Lemma star_reached p : p_reached p -> p_reached (Star p).
Proof.
  intros IH a k i i' j [Hw Hwf] Hc Ha Hk Hi M Hr. cbn [pcode ptail] in *. destruct (simple p) eqn:Esim.
  - destruct Hc as [Hn Hc]. rewrite Z.add_0_r in Hk. apply rtc_simple in M as (c & Hc0 & -> & H); [|done..].
    eapply (repeat_reached p a k i c j STAR); auto.
  - destruct Hc as (N1 & L1 & Hc & L2 & N2 & L3 & N3 & L4 & N4). set (b := a + 3 + psize p) in *. cbn [mpiece] in M.
    replace (a + (9 + psize p)) with (b + 6) in Hk by lia. induction M as [i|i x i' M1 _ IHr].
    + eapply reaches_alt; [done..|]. eapply reaches_empty; [done| | |exact Hr]; by replace (b + 3 + 3) with (b + 6) by lia.
    + destruct (range_p p i x Hwf Hi M1) as [Hx _]. apply reaches_branch; [done|]. eapply IH; [done|done|lia|done|done|exact M1|].
      eapply reaches_back; [done..|]. apply IHr; [lia|done].
Qed.

Lemma plus_reached p : p_reached p -> p_reached (Plus p).
Proof.
  intros IH a k i i' j [Hw Hwf] Hc Ha Hk Hi (y & M1 & M2) Hr. cbn [pcode ptail] in *. destruct (range_p p i y Hwf Hi M1) as [Hy _].
  destruct (simple p) eqn:Esim.
  - destruct Hc as [Hn Hc]. rewrite Z.add_0_r in Hk. pose proof (simple_one _ _ _ Esim Hwf M1) as ->.
    apply rtc_simple in M2 as (c & Hc0 & -> & H); [|done..]. eapply (repeat_reached p a k i (1 + c) j PLUS); auto.
    + change (1 <= 1 + c). lia.
    + intros x Hx. destruct (decide (x = 0)) as [->|]; [by rewrite Z.add_0_r|]. specialize (H (x - 1)).
      replace (i + 1 + (x - 1)) with (i + x) in H by lia. apply H. lia.
    + by rewrite Z.add_assoc.
  - destruct Hc as (Hc & L1 & N1 & L2 & N2 & L3 & N3 & L4 & N4). set (b := a + psize p) in *.
    replace (a + (9 + psize p)) with (b + 9) in Hk by lia. revert i Hi M1 Hy. induction M2 as [x|x z i' M2 _ IHr]; intros i Hi M1 Hy.
    + eapply IH; [done|done|done|done|done|exact M1|]. eapply reaches_alt; [done..|].
      eapply reaches_empty; [done| | |exact Hr]; by replace (b + 6 + 3) with (b + 9) by lia.
    + destruct (range_p p x z Hwf ltac:(lia) M2) as [Hz _]. eapply IH; [done|done|done|done|done|exact M1|].
      apply reaches_branch; [done|]. eapply reaches_back; [done..|]. apply IHr; [done|lia|done|lia].
Qed.

Lemma leaf_reached p : match p with Bol | Eol | Any | Bracket _ _ | Lit _ => p_reached p | _ => True end.
Proof.
  destruct p as [| | |neg cs|w| | | |]; try done; intros a k i i' j Hwf Hc Ha Hk Hi M Hr; cbn [pcode ptail pwf mpiece] in *; rewrite Z.add_0_r in Hk.
  - destruct M as [-> ->]. eapply reaches_step; [by apply st_bol|done].
  - destruct M as [-> ->]. eapply reaches_step; [apply st_eol; [done..|]|exact Hr]. unfold chr. by rewrite Z.eqb_refl.
  - destruct M as [M ->]. destruct (aget_in s i M) as [c E]. eapply reaches_step; [|exact Hr].
    eapply st_any; [done..|by apply chr_aget|by eapply aget_nonzero].
  - destruct M as [(c & E & M) ->]. destruct Hc as [Hn Ho]. apply str_at_operand in Ho; [|lia|done]. eapply reaches_step; [|exact Hr].
    pose proof (aget_nonzero _ _ _ Hs E). apply chr_aget in E. by destruct neg; [eapply st_anybut|eapply st_anyof].
  - destruct M as [(Hi0 & (c & E & Ew) & M) ->]. destruct Hc as [Hn Ho]. pose proof (str_at_head _ _ _ Ho) as Hh.
    apply str_at_operand in Ho; [|lia|apply Hwf]. eapply reaches_step; [|exact Hr]. eapply st_exactly; [done|done|done| |by apply chr_aget|done].
    unfold OPERAND. rewrite Hh. destruct w; [done|]. by injection Ew as ->.
Qed.

Theorem match_reached : (forall p, p_reached p) /\ (forall al, a_reached al) /\ (forall b, b_reached b).
Proof.
  apply re_ind.
  - apply (leaf_reached Bol).
  - apply (leaf_reached Eol).
  - apply (leaf_reached Any).
  - intros neg cs. apply (leaf_reached (Bracket neg cs)).
  - intros w. apply (leaf_reached (Lit w)).
  - intros no al IH a k i i' j [Hno Hwf] (N1 & L1 & Hc & N2) Ha Hk Hi M Hr. cbn [ptail mpiece] in *. unfold NSUBEXP in Hno.
    eapply reaches_step; [eapply st_paren; [done|lia|done]|]. eapply IH; [done|done|lia|done|exact M|].
    replace (a + (3 + asize al)) with (a + 3 + asize al) in Hk by lia. eapply reaches_step; [eapply st_paren; [done|lia|done]|done].
  - apply star_reached.
  - apply plus_reached.
  - intros p IH a k i i' j Hwf (N1 & L1 & Hc & L2 & N2 & L3 & N3) Ha Hk Hi M Hr. cbn [ptail] in *. set (b := a + 3 + psize p) in *.
    replace (a + (6 + psize p)) with (b + 3) in Hk by lia. destruct M as [->|M].
    + eapply reaches_alt; [done..|]. by eapply reaches_empty.
    + apply reaches_branch; [done|]. eapply IH; [done|done|lia|done|done|exact M|]. by eapply reaches_nothing.
  - intros b IH a k i i' j Hwf (N1 & L1 & Hc & L2) Ha Hi M Hr. apply reaches_branch; [done|].
    eapply IH; [done|done|lia|done|done|exact M|done].
  - intros b IHb al IHa a k i i' j [Hwb Hwa] (N1 & L1 & Hc & L2 & Hca) Ha Hi [M|M] Hr.
    + apply reaches_branch; [done|]. eapply IHb; [done|done|lia|done|done|exact M|done].
    + pose proof (proj2 (proj2 size_pos) b). eapply reaches_alt; [done|done|by destruct al; destruct Hca|].
      eapply IHa; [done|done|lia|done|exact M|done].
  - intros a k i i' j _ Hn Ha Hk Hi -> Hr. cbn [bcode btail] in *. rewrite Z.add_0_r in Hk. by eapply reaches_nothing.
  - intros p IH. exact IH.
  - intros p IHp b IHb a k i i' j [Hwp Hwb] (Hcp & L1 & Hcb) Ha Hk Hi (x & M1 & M2) Hr. cbn [btail] in *.
    destruct (range_p p i x Hwp Hi M1) as [Hx _]. pose proof (proj1 size_pos p).
    eapply IHp; [done|done|done|done|done|exact M1|]. eapply IHb; [done|done|lia|by rewrite <- Z.add_assoc|lia|exact M2|done].
Qed.
End run.

(** ** The search ends *)
Definition caps (ep : exec) : Prop := alen (regstartp ep) = NSUBEXP /\ alen (regendp ep) = NSUBEXP.

Section terms.
Context (l s : list Z) (Hs : Forall (fun c => c <> 0) s).

(** With enough fuel the match at node [p] has a result, with and without alternatives. *)
Definition terms (p i : Z) : Prop := exists N, forall n ep, (N <= n)%nat -> reginput ep = i -> caps ep ->
  exists b ep', regmatch l s n (Some p) ep = Some (b, ep') /\ caps ep'.
Definition cterms (p i : Z) : Prop := exists N, forall n ep, (N <= n)%nat -> reginput ep = i -> caps ep ->
  exists b ep', regchoice l s n p i ep = Some (b, ep') /\ caps ep'.

(** A node that may be looked at. *)
Definition ok_node (k : Z) : Prop := exists op, node l k op /\ (op = EXACTLY -> is_Some (aget l (k + 3))).

Lemma terms_intro p i N :
  (forall n ep, (N <= n)%nat -> reginput ep = i -> caps ep -> exists b ep', regmatch l s (S n) (Some p) ep = Some (b, ep') /\ caps ep') ->
  terms p i.
Proof. intros H. exists (S N). intros n ep Hn. destruct n as [|n]; [lia|]. apply H. lia. Qed.

Lemma cterms_intro p i N :
  (forall n ep, (N <= n)%nat -> reginput ep = i -> caps ep -> exists b ep', regchoice l s (S n) p i ep = Some (b, ep') /\ caps ep') ->
  cterms p i.
Proof. intros H. exists (S N). intros n ep Hn. destruct n as [|n]; [lia|]. apply H. lia. Qed.

Lemma caps_upd ep v : caps ep -> caps (ep <| reginput := v |>).
Proof. by intros [? ?]. Qed.
Lemma caps_adv ep v : caps ep -> caps (step_input v ep).
Proof. by intros [? ?]. Qed.

(** Compare operation codes. *)
Ltac ops := repeat match goal with
  | |- context [?x =? ?y] => let v := eval vm_compute in (x =? y) in
      match v with true => change (x =? y) with true | false => change (x =? y) with false end
  end; cbn [negb orb andb].

(** The node is entered: its link, code and the character at hand are known. *)
Lemma regmatch_S n p q op ep c :
  regnext l p = Some q -> node l p op -> chr s (reginput ep) = Some c ->
  regmatch l s (S n) (Some p) ep =
    (if op =? BOL then if negb (reginput ep =? 0) then Some (false, ep) else regmatch l s n q ep
      else if op =? EOL then if negb (c =? 0) then Some (false, ep) else regmatch l s n q ep
      else if op =? ANY then if c =? 0 then Some (false, ep) else regmatch l s n q (step_input 1 ep)
      else if op =? EXACTLY then
        c0 ← aget l (OPERAND p);
        if negb (c0 =? c) then Some (false, ep)
        else
          w ← operand_str l (OPERAND p);
          if strstr (rest s (reginput ep)) w then regmatch l s n q (step_input (alen w) ep) else Some (false, ep)
      else if op =? ANYOF then
        w ← operand_str l (OPERAND p);
        if (c =? 0) || negb (strchr w c) then Some (false, ep) else regmatch l s n q (step_input 1 ep)
      else if op =? ANYBUT then
        w ← operand_str l (OPERAND p);
        if (c =? 0) || strchr w c then Some (false, ep) else regmatch l s n q (step_input 1 ep)
      else if (op =? NOTHING) || (op =? BACK) then regmatch l s n q ep
      else if (SUB_OPEN + 1 <=? op) && (op <=? SUB_OPEN + 9) then
        let input := reginput ep in
        r ← regmatch l s n q ep;
        match (r : bool * exec) with
        | (true, ep) => st ← set_once (regstartp ep) (op - SUB_OPEN) input; Some (true, ep <| regstartp := st |>)
        | (false, ep) => Some (false, ep)
        end
      else if (SUB_CLOSE + 1 <=? op) && (op <=? SUB_CLOSE + 9) then
        let input := reginput ep in
        r ← regmatch l s n q ep;
        match (r : bool * exec) with
        | (true, ep) => en ← set_once (regendp ep) (op - SUB_CLOSE) input; Some (true, ep <| regendp := en |>)
        | (false, ep) => Some (false, ep)
        end
      else if op =? BRANCH then
        q ← (q : option Z);
        opn ← aget l q;
        if negb (opn =? BRANCH) then regmatch l s n (Some (OPERAND p)) ep
        else regchoice l s n p (reginput ep) ep
      else if (op =? STAR) || (op =? PLUS) then
        q ← (q : option Z);
        opn ← aget l q;
        nextch ← (if opn =? EXACTLY then aget l (OPERAND q) else Some 0);
        no ← regrepeat l s (reginput ep) (OPERAND p);
        regstar l s n q nextch (reginput ep) (if op =? STAR then 0 else 1) (no + 1) ep
      else if op =? END then Some (true, ep)
      else Some (false, ep)).
Proof. intros E1 E2 E3. cbn [regmatch]. unfold node in E2. rewrite E1. cbn [mbind option_bind]. rewrite E2. cbn [mbind option_bind]. by rewrite E3. Qed.

Lemma terms_nothing p q i op : node l p op -> op = NOTHING \/ op = BACK -> lnk l p q -> 0 <= i <= alen s -> terms q i -> terms p i.
Proof.
  intros Hn Hop Hl Hi [N H]. apply (terms_intro p i N). intros n ep Hle He Hc. destruct (chr_in s i Hi) as [c Ec]. rewrite <- He in Ec.
  rewrite (regmatch_S _ _ _ _ _ _ Hl Hn Ec). destruct Hop as [-> | ->]; ops; by apply H.
Qed.

Lemma set_once_run ls no v : alen ls = NSUBEXP -> 1 <= no < NSUBEXP -> exists ls', set_once ls no v = Some ls' /\ alen ls' = NSUBEXP.
Proof.
  intros Hl Hn. unfold set_once. destruct (aget_in ls no) as [x E]; [lia|]. rewrite E. cbn. destruct x; [by exists ls|].
  rewrite aset_in by lia. eexists. split; [done|]. by rewrite alen_insert.
Qed.

Lemma terms_open p q i no : node l p (SUB_OPEN + no) -> 1 <= no < NSUBEXP -> lnk l p q -> 0 <= i <= alen s -> terms q i -> terms p i.
Proof.
  intros Hn Hno Hl Hi [N H]. apply (terms_intro p i N). intros n ep Hle He Hc. destruct (chr_in s i Hi) as [c Ec]. rewrite <- He in Ec.
  rewrite (regmatch_S _ _ _ _ _ _ Hl Hn Ec). unfold SUB_OPEN, NSUBEXP in *.
  repeat rewrite (proj2 (Z.eqb_neq _ _)) by (unfold BOL, EOL, ANY, EXACTLY, ANYOF, ANYBUT, NOTHING, BACK; lia). cbn [orb].
  rewrite (proj2 (Z.leb_le _ _)), (proj2 (Z.leb_le _ _)) by lia. cbn [andb]. destruct (H n ep Hle He Hc) as (b & ep' & E & Hc'). rewrite E. cbn.
  destruct b; [|eauto]. destruct (set_once_run (regstartp ep') (20 + no - 20) (reginput ep)) as (ls & Es & Hls); [apply Hc'|unfold NSUBEXP; lia|].
  rewrite Es. cbn. eexists _, _. split; [done|]. split; [done|apply Hc'].
Qed.

Lemma terms_close p q i no : node l p (SUB_CLOSE + no) -> 1 <= no < NSUBEXP -> lnk l p q -> 0 <= i <= alen s -> terms q i -> terms p i.
Proof.
  intros Hn Hno Hl Hi [N H]. apply (terms_intro p i N). intros n ep Hle He Hc. destruct (chr_in s i Hi) as [c Ec]. rewrite <- He in Ec.
  rewrite (regmatch_S _ _ _ _ _ _ Hl Hn Ec). unfold SUB_OPEN, SUB_CLOSE, NSUBEXP in *.
  repeat rewrite (proj2 (Z.eqb_neq _ _)) by (unfold BOL, EOL, ANY, EXACTLY, ANYOF, ANYBUT, NOTHING, BACK; lia). cbn [orb].
  rewrite (proj2 (Z.leb_gt (30 + no) (20 + 9))) by lia. rewrite andb_false_r.
  rewrite (proj2 (Z.leb_le (30 + 1) _)), (proj2 (Z.leb_le _ (30 + 9))) by lia. cbn [andb]. destruct (H n ep Hle He Hc) as (b & ep' & E & Hc'). rewrite E. cbn.
  destruct b; [|eauto]. destruct (set_once_run (regendp ep') (30 + no - 30) (reginput ep)) as (ls & Es & Hls); [apply Hc'|unfold NSUBEXP; lia|].
  rewrite Es. cbn. eexists _, _. split; [done|]. split; [apply Hc'|done].
Qed.

Lemma regchoice_S n p save ep :
  node l p BRANCH ->
  regchoice l s (S n) p save ep =
    (r ← regmatch l s n (Some (OPERAND p)) ep;
     match (r : bool * exec) with
     | (true, ep) => Some (true, ep)
     | (false, ep) => next ← regnext l p; q ← (next : option Z); regchoice l s n q save (ep <| reginput := save |>)
     end).
Proof.
  intros Hn. change (regchoice l s (S n) p save ep) with
    (op ← aget l p;
      if negb (op =? BRANCH) then Some (false, ep)
      else
        r ← regmatch l s n (Some (OPERAND p)) ep;
        match (r : bool * exec) with
        | (true, ep) => Some (true, ep)
        | (false, ep) => next ← regnext l p; q ← (next : option Z); regchoice l s n q save (ep <| reginput := save |>)
        end).
  unfold node in Hn. by rewrite Hn.
Qed.

Lemma regchoice_stop n p save ep op : node l p op -> op <> BRANCH -> regchoice l s (S n) p save ep = Some (false, ep).
Proof.
  intros Hn Hne. change (regchoice l s (S n) p save ep) with
    (op ← aget l p;
      if negb (op =? BRANCH) then Some (false, ep)
      else
        r ← regmatch l s n (Some (OPERAND p)) ep;
        match (r : bool * exec) with
        | (true, ep) => Some (true, ep)
        | (false, ep) => next ← regnext l p; q ← (next : option Z); regchoice l s n q save (ep <| reginput := save |>)
        end).
  unfold node in Hn. rewrite Hn. cbn [mbind option_bind]. by rewrite (proj2 (Z.eqb_neq op BRANCH)).
Qed.

Lemma regstar_S n q nextch save min no ep :
  regstar l s (S n) q nextch save min no ep =
    if negb (no >? min) then Some (false, ep)
    else
      c ← chr s (save + no - 1);
      if (nextch =? 0) || (c =? nextch) then
        r ← regmatch l s n (Some q) (ep <| reginput := save + no - 1 |>);
        match (r : bool * exec) with
        | (true, ep) => Some (true, ep)
        | (false, ep) => regstar l s n q nextch save min (no - 1) ep
        end
      else regstar l s n q nextch save min (no - 1) (ep <| reginput := save + no - 1 |>).
Proof. reflexivity. Qed.

Lemma terms_branch p q i :
  node l p BRANCH -> lnk l p q -> is_Some (aget l q) -> 0 <= i <= alen s -> terms (p + 3) i -> (node l q BRANCH -> cterms q i) ->
  terms p i /\ cterms p i.
Proof.
  intros Hn Hl [opq Hq] Hi Ht Hcq. assert (Hc : cterms p i).
  { destruct Ht as [N1 H1]. assert (H2 : exists N2, forall n ep, (N2 <= n)%nat -> reginput ep = i -> caps ep ->
      exists b ep', regchoice l s n q i ep = Some (b, ep') /\ caps ep').
    { destruct (decide (opq = BRANCH)) as [->|Hne]; [by apply Hcq|]. exists 1%nat. intros n ep Hle _ Hca. destruct n as [|n]; [lia|].
      rewrite (regchoice_stop n q i ep opq) by done. eauto. }
    destruct H2 as [N2 H2]. apply (cterms_intro p i (N1 + N2)). intros n ep Hle He Hca. rewrite regchoice_S by done.
    destruct (H1 n ep) as (b & ep' & E & Hc'); [lia|done|done|]. unfold OPERAND. rewrite E. cbn [mbind option_bind]. destruct b; [eauto|]. unfold lnk in Hl. rewrite Hl. cbn [mbind option_bind]. apply H2; [lia|done|by apply caps_upd]. }
  split; [|done]. destruct Hc as [N1 H1], Ht as [N2 H2]. apply (terms_intro p i (N1 + N2)). intros n ep Hle He Hca.
  destruct (chr_in s i Hi) as [c Ec]. rewrite <- He in Ec. rewrite (regmatch_S _ _ _ _ _ _ Hl Hn Ec). ops. cbn. rewrite Hq. cbn.
  destruct (negb _); [apply H2; [lia|done|done]|]. rewrite He. apply H1; [lia|done|done].
Qed.

(** One bound for a stretch of positions. *)
Lemma terms_uniform q a b :
  (forall i, a <= i <= b -> terms q i) ->
  exists N, forall i, a <= i <= b -> forall n ep, (N <= n)%nat -> reginput ep = i -> caps ep ->
    exists r ep', regmatch l s n (Some q) ep = Some (r, ep') /\ caps ep'.
Proof.
  intros H. destruct (decide (a <= b)) as [Hab|]; [|exists 0%nat; intros; lia]. replace b with (a + (b - a)) in H |- * by lia.
  revert H. assert (0 <= b - a) as Hd by lia. revert Hd. generalize (b - a) as d. clear Hab b. apply (natlike_ind (fun d => _ -> _)).
  - intros H. destruct (H a) as [N HN]; [lia|]. exists N. intros i Hi. assert (i = a) as -> by lia. done.
  - intros d Hd IH H. destruct IH as [N1 H1]; [intros i Hi; apply H; lia|]. destruct (H (a + Z.succ d)) as [N2 H2]; [lia|].
    exists (N1 + N2)%nat. intros i Hi n ep Hle. destruct (decide (i = a + Z.succ d)) as [->|]; [apply H2; lia|apply H1; lia].
Qed.

Lemma regstar_ends q nextch save min N c :
  (forall i, save + min <= i <= save + c -> forall n ep, (N <= n)%nat -> reginput ep = i -> caps ep ->
    exists r ep', regmatch l s n (Some q) ep = Some (r, ep') /\ caps ep') ->
  0 <= min -> 0 <= save -> save + c <= alen s ->
  forall n no ep, no <= c + 1 -> (N + Z.to_nat (no - min) + 1 <= n)%nat -> caps ep ->
  exists r ep', regstar l s n q nextch save min no ep = Some (r, ep') /\ caps ep'.
Proof.
  intros H Hm Hsv Hlen. induction n as [|n IH]; intros no ep Hno Hle Hca; [lia|]. rewrite regstar_S.
  destruct (Z.gtb_spec no min) as [Hn|Hn]; cbn [negb]; [|eauto]. destruct (chr_in s (save + no - 1)) as [ch Ech]; [lia|]. rewrite Ech. cbn [mbind option_bind].
  destruct (_ || _).
  - destruct (H (save + no - 1) ltac:(lia) n (ep <| reginput := save + no - 1 |>)) as (r & ep' & E & Hc'); [lia|done|by apply caps_upd|].
    rewrite E. cbn. destruct r; [eauto|]. apply IH; [lia|lia|done].
  - apply IH; [lia|lia|by apply caps_upd].
Qed.

Lemma terms_repeat p a k i op :
  simple p = true -> pwf p -> 0 <= a -> op = STAR \/ op = PLUS -> node l a op -> pcode l p (a + 3) -> lnk l a k -> ok_node k -> 0 <= i <= alen s ->
  (forall i', i + (if op =? STAR then 0 else 1) <= i' <= alen s -> terms k i') -> terms a i.
Proof.
  intros Hsim Hwf Ha Hop Hn Hc Hl (opk & Hk & Hkx) Hi Ht. set (min := if op =? STAR then 0 else 1) in *.
  assert (Hmin : 0 <= min) by (unfold min; destruct (op =? STAR); lia).
  destruct (regrepeat_spec l s p (a + 3) i Hs) as (c & Hr & Hc0 & Hci & _); [lia|done..|].
  destruct (terms_uniform k (i + min) (i + c)) as [N HN]; [intros i' Hi'; apply Ht; lia|].
  apply (terms_intro a i (N + Z.to_nat (c + 1 - min) + 1)). intros n ep Hle He Hca. destruct (chr_in s i Hi) as [ch Ech]. rewrite <- He in Ech.
  rewrite (regmatch_S _ _ _ _ _ _ Hl Hn Ech). unfold min in *.
  assert (Hx : exists x, (if opk =? EXACTLY then aget l (OPERAND k) else Some 0) = Some x).
  { destruct (Z.eqb_spec opk EXACTLY) as [->|]; [by apply Hkx|eauto]. }
  destruct Hx as [x Hx]. destruct Hop as [-> | ->]; ops; cbn [mbind option_bind]; unfold node in Hk; rewrite Hk; cbn [mbind option_bind]; rewrite Hx, He;
    cbn [mbind option_bind]; change (OPERAND a) with (a + 3); rewrite Hr; cbn [mbind option_bind];
    (eapply regstar_ends; [exact HN|lia|lia|lia|lia|exact Hle|done]).
Qed.

Lemma reginput_step k ep : reginput (step_input k ep) = k + reginput ep.
Proof. done. Qed.

Definition p_terms (p : piece) : Prop := forall a k i,
  pwf p -> pcode l p a -> 0 <= a -> lnk l (a + ptail p) k -> ok_node k -> 0 <= i <= alen s ->
  (forall i', i <= i' <= alen s -> (wide p = true -> i < i') -> terms k i') -> terms a i.
Definition a_terms (al : alts) : Prop := forall a k i,
  awf al -> acode l al a k -> 0 <= a -> ok_node k -> ~ node l k BRANCH -> 0 <= i <= alen s ->
  (forall i', i <= i' <= alen s -> (wide_alts al = true -> i < i') -> terms k i') -> terms a i /\ cterms a i.
Definition b_terms (b : branch) : Prop := forall a k i,
  bwf b -> bcode l b a -> 0 <= a -> lnk l (a + btail b) k -> ok_node k -> 0 <= i <= alen s ->
  (forall i', i <= i' <= alen s -> (wide_branch b = true -> i < i') -> terms k i') -> terms a i.

(** The result is at hand, or that of the next node at [i']. *)
Lemma terms_next p q i i' op :
  node l p op -> lnk l p q -> 0 <= i <= alen s -> terms q i' ->
  (forall n ep c, reginput ep = i -> chr s i = Some c -> caps ep ->
     regmatch l s (S n) (Some p) ep = Some (false, ep) \/
     exists ep1, reginput ep1 = i' /\ caps ep1 /\ regmatch l s (S n) (Some p) ep = regmatch l s n (Some q) ep1) -> terms p i.
Proof.
  intros Hn Hl Hi [N H] Hs1. apply (terms_intro p i N). intros n ep Hle He Hca. destruct (chr_in s i Hi) as [c Ec].
  destruct (Hs1 n ep c He Ec Hca) as [E|(ep1 & H1 & H2 & E)]; rewrite E; [eauto|by apply H].
Qed.

Lemma terms_false p i : (forall n ep, reginput ep = i -> regmatch l s (S n) (Some p) ep = Some (false, ep)) -> terms p i.
Proof. intros H. apply (terms_intro p i 0). intros n ep _ He Hca. rewrite H by done. eauto. Qed.

(** [regmatch] at a node of which the code and the link are in the context. *)
Ltac enter Hl Hn Ec He := rewrite (regmatch_S _ _ _ _ _ _ Hl Hn Ec); ops; rewrite ?He.

Lemma leaf_terms p : match p with Bol | Eol | Any | Bracket _ _ | Lit _ => p_terms p | _ => True end.
Proof.
  destruct p as [| | |neg cs|w| | | |]; try done; intros a k i Hwf Hc Ha Hk Hok Hi Ht; cbn [pcode ptail pwf wide] in *; rewrite Z.add_0_r in Hk;
    destruct (chr_in s i Hi) as [c Ec].
  - eapply terms_next; [exact Hc|exact Hk|done|by apply (Ht i); [lia|]|]. intros n ep c' He Ec' Hca. rewrite <- He in Ec'.
    enter Hk Hc Ec' He. destruct (negb _); [by left|right; eauto].
  - eapply terms_next; [exact Hc|exact Hk|done|by apply (Ht i); [lia|]|]. intros n ep c' He Ec' Hca. rewrite <- He in Ec'.
    enter Hk Hc Ec' He. destruct (negb _); [by left|right; eauto].
  - destruct (decide (i = alen s)) as [->|Hne].
    + apply terms_false. intros n ep He. rewrite <- He in Ec. enter Hk Hc Ec He. rewrite He in Ec. unfold chr in Ec. rewrite Z.eqb_refl in Ec. by injection Ec as <-.
    + eapply terms_next; [exact Hc|exact Hk|done|apply (Ht (i + 1)); lia|]. intros n ep c' He Ec' Hca. rewrite <- He in Ec'.
      enter Hk Hc Ec' He. destruct (c' =? 0); [by left|right]. exists (step_input 1 ep). split; [rewrite reginput_step; lia|]. split; [by apply caps_adv|done].
  - destruct Hc as [Hn Ho]. apply str_at_operand in Ho; [|lia|done]. destruct (decide (i = alen s)) as [->|Hne].
    + apply terms_false. intros n ep He. rewrite <- He in Ec.
      assert (c = 0) as ->. { rewrite He in Ec. unfold chr in Ec. rewrite Z.eqb_refl in Ec. by injection Ec as <-. }
      destruct neg; enter Hk Hn Ec He; unfold OPERAND; rewrite Ho; done.
    + eapply terms_next; [exact Hn|exact Hk|done|apply (Ht (i + 1)); lia|]. intros n ep c' He Ec' Hca. rewrite <- He in Ec'.
      destruct neg; enter Hk Hn Ec' He; unfold OPERAND; rewrite Ho; cbn [mbind option_bind]; (destruct (_ || _); [by left|right]);
        exists (step_input 1 ep); (split; [rewrite reginput_step; lia|]); (split; [by apply caps_adv|done]).
  - destruct Hc as [Hn Ho]. pose proof (str_at_head _ _ _ Ho) as Hh. apply str_at_operand in Ho; [|lia|apply Hwf].
    destruct (strstr (rest s i) w) eqn:Es.
    + pose proof (strstr_length _ _ Es) as Hlen. unfold rest in Hlen. rewrite length_drop in Hlen. destruct Hwf as [Hw _].
      assert (0 < alen w) by (unfold alen; destruct w; [done|cbn; lia]).
      eapply terms_next; [exact Hn|exact Hk|done|apply (Ht (i + alen w)); unfold alen in *; lia|]. intros n ep c' He Ec' Hca. rewrite <- He in Ec'.
      enter Hk Hn Ec' He. unfold OPERAND. rewrite Hh. cbn [mbind option_bind]. destruct (negb _); [by left|]. rewrite Ho. cbn [mbind option_bind].
      rewrite Es. right. exists (step_input (alen w) ep). split; [rewrite reginput_step; lia|]. split; [by apply caps_adv|done].
    + apply terms_false. intros n ep He. rewrite <- He in Ec. enter Hk Hn Ec He. unfold OPERAND. rewrite Hh. cbn [mbind option_bind].
      destruct (negb _); [done|]. rewrite Ho. cbn [mbind option_bind]. by rewrite Es.
Qed.

Lemma ok_not_exactly a op : node l a op -> op <> EXACTLY -> ok_node a.
Proof. intros. by exists op. Qed.

Lemma ok_piece p : forall a, pwf p -> pcode l p a -> ok_node a.
Proof.
  induction p as [| | |neg cs|w|no al|p IH|p IH|p IH]; intros a Hwf Hc; cbn [pcode pwf] in *; try (by eapply ok_not_exactly).
  - destruct Hc as [Hn _]. by destruct neg; eapply ok_not_exactly.
  - destruct Hc as [Hn Ho]. exists EXACTLY. split; [done|]. intros _. apply str_at_head in Ho. by eexists.
  - destruct Hc as [Hn _]. eapply ok_not_exactly; [done|]. unfold SUB_OPEN, EXACTLY. lia.
  - destruct (simple p); destruct Hc as [Hn _]; by eapply ok_not_exactly.
  - destruct (simple p); [destruct Hc as [Hn _]; by eapply ok_not_exactly|]. apply IH; [apply Hwf|apply Hc].
  - destruct Hc as [Hn _]. by eapply ok_not_exactly.
Qed.

Lemma ok_branch b a : bwf b -> bcode l b a -> ok_node a.
Proof.
  destruct b as [|p|p b]; cbn.
  - intros _ Hn. by eapply ok_not_exactly.
  - by apply ok_piece.
  - intros [? _] [? _]. by eapply ok_piece.
Qed.

(** The way out of a repetition ends when what follows does. *)
Lemma terms_empty a k i :
  node l a BRANCH -> lnk l a (a + 3) -> node l (a + 3) NOTHING -> lnk l (a + 3) k -> 0 <= i <= alen s -> terms k i -> terms a i /\ cterms a i.
Proof.
  intros N1 L1 N2 L2 Hi Ht. apply (terms_branch a (a + 3)); [done|done|by eexists|done| |intros ?; op_clash].
  eapply terms_nothing; [done|by left|done|done|done].
Qed.

Lemma star_terms p : p_terms p -> p_terms (Star p).
Proof.
  intros IH a k i [Hw Hwf] Hc Ha Hk Hok Hi Ht. cbn [pcode ptail] in *. destruct (simple p) eqn:Esim.
  - destruct Hc as [Hn Hc]. rewrite Z.add_0_r in Hk. eapply (terms_repeat p a k i STAR); auto. intros i' Hi'. apply Ht; [|done].
    change (i + 0 <= i' <= alen s) in Hi'. lia.
  - destruct Hc as (N1 & L1 & Hc & L2 & N2 & L3 & N3 & L4 & N4). set (b := a + 3 + psize p) in *.
    replace (a + (9 + psize p)) with (b + 6) in Hk by lia. cut (terms a i /\ cterms a i); [tauto|].
    remember (Z.to_nat (alen s - i)) as d eqn:Ed. revert i Hi Ht Ed. induction (lt_wf d) as [d _ IHd]. intros i Hi Ht Ed.
    apply (terms_branch a (b + 3)); [done|done|by eexists|done| |].
    + apply (IH (a + 3) b i); [done|done|lia|done|by eapply ok_not_exactly|done|]. intros i' Hi' Hlt. specialize (Hlt Hw).
      eapply terms_nothing; [exact N2|by right|exact L3|lia|]. eapply (IHd (Z.to_nat (alen s - i'))); [lia|lia| |done].
      intros j Hj _. apply Ht; [lia|done].
    + intros _. apply (terms_empty (b + 3) k); replace (b + 3 + 3) with (b + 6) by lia; [done|done|done|done|done|]. apply Ht; [lia|done].
Qed.

Lemma plus_terms p : p_terms p -> p_terms (Plus p).
Proof.
  intros IH a k i [Hw Hwf] Hc Ha Hk Hok Hi Ht. cbn [pcode ptail] in *. destruct (simple p) eqn:Esim.
  - destruct Hc as [Hn Hc]. rewrite Z.add_0_r in Hk. eapply (terms_repeat p a k i PLUS); auto. intros i' Hi'.
    change (i + 1 <= i' <= alen s) in Hi'. apply Ht; [lia|lia].
  - destruct Hc as (Hc & L1 & N1 & L2 & N2 & L3 & N3 & L4 & N4). set (b := a + psize p) in *.
    replace (a + (9 + psize p)) with (b + 9) in Hk by lia. cbn [wide] in Ht.
    remember (Z.to_nat (alen s - i)) as d eqn:Ed. revert i Hi Ht Ed. induction (lt_wf d) as [d _ IHd]. intros i Hi Ht Ed.
    apply (IH a b i); [done|done|lia|done|by eapply ok_not_exactly|done|]. intros i' Hi' Hlt. specialize (Hlt Hw).
    assert (Hi2 : 0 <= i' <= alen s) by lia. apply (terms_branch b (b + 6)); [done|done|by eexists|done| |].
    + eapply terms_nothing; [exact N2|by right|exact L3|done|]. eapply (IHd (Z.to_nat (alen s - i'))); [lia|done| |done].
      intros j Hj Hlt'. apply Ht; [lia|]. intros _. lia.
    + intros _. apply (terms_empty (b + 6) k); replace (b + 6 + 3) with (b + 9) by lia; [done|done|done|done|done|]. apply Ht; [lia|done].
Qed.

Theorem match_terms : (forall p, p_terms p) /\ (forall al, a_terms al) /\ (forall b, b_terms b).
Proof.
  apply re_ind.
  - apply (leaf_terms Bol).
  - apply (leaf_terms Eol).
  - apply (leaf_terms Any).
  - intros neg cs. apply (leaf_terms (Bracket neg cs)).
  - intros w. apply (leaf_terms (Lit w)).
  - intros no al IH a k i [Hno Hwf] (N1 & L1 & Hc & N2) Ha Hk Hok Hi Ht. cbn [ptail wide] in *.
    eapply terms_open; [exact N1|done|exact L1|done|]. replace (a + (3 + asize al)) with (a + 3 + asize al) in Hk by lia.
    eapply IH; [done|exact Hc|lia| | |done|].
    + eapply ok_not_exactly; [exact N2|]. unfold SUB_CLOSE, EXACTLY. lia.
    + unfold NSUBEXP in Hno. intros ?; op_clash.
    + intros i' Hi' Hw. eapply terms_close; [exact N2|done|exact Hk|lia|]. apply Ht; [lia|done].
  - apply star_terms.
  - apply plus_terms.
  - intros p IH a k i Hwf (N1 & L1 & Hc & L2 & N2 & L3 & N3) Ha Hk Hok Hi Ht. cbn [ptail wide] in *. set (b := a + 3 + psize p) in *.
    replace (a + (6 + psize p)) with (b + 3) in Hk by lia. apply (terms_branch a b); [done|done|by eexists|done| |].
    + apply (IH (a + 3) (b + 3) i); [done|done|lia|done|by eapply ok_not_exactly|done|]. intros i' Hi' _.
      eapply terms_nothing; [exact N3|by left|exact Hk|lia|]. apply Ht; [lia|done].
    + intros _. apply (terms_empty b k); [done|done|done|done|done|]. apply Ht; [lia|done].
  - intros b IH a k i Hwf (N1 & L1 & Hc & L2) Ha Hok Hnb Hi Ht. apply (terms_branch a k); [done|done| |done| |done].
    + destruct Hok as (op & Hop & _). by eexists.
    + by apply (IH (a + 3) k i); auto; lia.
  - intros b IHb al IHa a k i [Hwb Hwa] (N1 & L1 & Hc & L2 & Hca) Ha Hok Hnb Hi Ht. cbn [wide_alts] in Ht. pose proof (proj2 (proj2 size_pos) b).
    apply (terms_branch a (a + 3 + bsize b)); [done|done| |done| |].
    + destruct al; destruct Hca as [Hn _]; by eexists.
    + apply (IHb (a + 3) k i); auto; [lia|]. intros i' Hi' Hw. apply Ht; [done|]. by intros [? _]%andb_true_iff; auto.
    + intros _. apply (IHa (a + 3 + bsize b) k i); auto; [lia|]. intros i' Hi' Hw. apply Ht; [done|]. by intros [_ ?]%andb_true_iff; auto.
  - intros a k i _ Hn Ha Hk Hok Hi Ht. cbn [bcode btail] in *. rewrite Z.add_0_r in Hk. eapply terms_nothing; [exact Hn|by left|exact Hk|done|].
    apply Ht; [lia|done].
  - intros p IH. exact IH.
  - intros p IHp b IHb a k i [Hwp Hwb] (Hcp & L1 & Hcb) Ha Hk Hok Hi Ht. cbn [btail wide_branch] in *. pose proof (proj1 size_pos p).
    apply (IHp a (a + psize p) i); [done|done|done|done|by eapply ok_branch|done|]. intros i' Hi' Hw.
    apply (IHb (a + psize p) k i'); [done|done|lia|by rewrite <- Z.add_assoc|done|lia|]. intros i2 Hi2 Hw2. apply Ht; [lia|].
    intros [Hx|Hx]%orb_true_iff; [specialize (Hw Hx)|specialize (Hw2 Hx)]; lia.
Qed.
End terms.
