(* ===== verification/RegSearch.v ===== *)
(** * The search of regexec

    On a program that [regcomp] lays out, [regexec] finds the leftmost match of the
    expression, with whatever of its short cuts is in use. *)
From S2P Require Import Prelude Regexp RegSyntax RegMatch.

(** Enough fuel for each of a stretch of positions is enough for all of them. *)
Lemma enough_fuel (P : nat -> Z -> Prop) a b :
  (forall i, a <= i <= b -> exists N, forall n, (N <= n)%nat -> P n i) ->
  exists N, forall n i, (N <= n)%nat -> a <= i <= b -> P n i.
Proof.
  intros H. destruct (decide (a <= b)) as [Hab|]; [|exists 0%nat; intros; lia].
  replace b with (a + (b - a)) in H |- * by lia. revert H. assert (0 <= b - a) as Hd by lia. revert Hd. generalize (b - a) as d.
  clear Hab b. apply (natlike_ind (fun d => _ -> _)).
  - intros H. destruct (H a) as [N HN]; [lia|]. exists N. intros n i Hn Hi. assert (i = a) as -> by lia. by apply HN.
  - intros d Hd IH H. destruct IH as [N1 H1]; [intros i Hi; apply H; lia|]. destruct (H (a + Z.succ d)) as [N2 H2]; [lia|].
    exists (N1 + N2)%nat. intros n i Hn Hi. destruct (decide (i = a + Z.succ d)) as [->|]; [apply H2; lia|apply H1; lia].
Qed.

Lemma strcspn_skips w ch : forall i, 0 <= i < strcspn w [ch] -> aget w i <> Some ch.
Proof.
  intros i Hi H. rewrite strcspn_count in Hi. set (f := fun c => _) in Hi.
  destruct (proj1 (prefix_count_spec f w (i + 1) ltac:(lia)) ltac:(lia) i ltac:(lia)) as (c & Hc & Hf). unfold f in Hf.
  simplify_eq. apply negb_true_iff, bool_decide_eq_false in Hf. apply Hf. by left.
Qed.

Lemma strstr_drop w m : forall s, strstr (drop m s) w = true -> strstr s w = true.
Proof.
  induction m as [|m IH]; intros s; [done|]. destruct s as [|c s]; [done|]. cbn [drop]. intros H. cbn [strstr]. by rewrite (IH s H), orb_true_r.
Qed.

(** What the two arrays say of a match. *)
Definition spans (e : list (option Z) * list (option Z)) (i j : Z) : Prop := aget (fst e) 0 = Some (Some i) /\ aget (snd e) 0 = Some (Some j).

(** The leftmost of the matches [M] in [s], or none. *)
Definition leftmost_in (s : list Z) (M : Z -> Z -> Prop) (r : option (list (option Z) * list (option Z))) : Prop :=
  match r with
  | None => forall i j, 0 <= i <= alen s -> ~ M i j
  | Some e => exists i j, spans e i j /\ M i j /\ 0 <= i <= alen s /\ forall i' j', 0 <= i' -> M i' j' -> i <= i'
  end.

Section search.
Context (l s : list Z) (Hs : Forall (fun c => c <> 0) s) (al : alts) (Hwf : awf al) (Hc : rcode l al).
Notation ma := (malts (lit_found s) s al).

Lemma end_not_branch : ~ node l (1 + asize al) BRANCH.
Proof. destruct Hc as (_ & He & _). intros H. op_clash. Qed.

Lemma program_reaches i j : 0 <= i <= alen s -> reaches l s 1 i j <-> ma i j.
Proof.
  intros Hi. destruct Hc as (Hcode & He & _). split.
  - intros [m Hp]. destruct (proj1 (proj2 (path_matches l s Hs)) al 1 (1 + asize al) m i j) as (i' & m' & M & Hp' & _); [done|done|lia|apply end_not_branch|done|done|].
    apply path_inv in Hp' as [[_ ->]|(m2 & q & i2 & _ & Hst & _)]; [done|].
    inversion Hst; unfold node in *; try op_clash; simplify_eq; repeat match goal with H : _ \/ _ |- _ => destruct H end; try op_clash.
  - intros M. eapply (proj1 (proj2 (match_reached l s Hs))); [done|exact Hcode|lia|done|exact M|]. exists 0%nat. by constructor.
Qed.

Lemma ma_range i j : 0 <= i <= alen s -> ma i j -> i <= j <= alen s.
Proof. intros Hi M. by destruct (proj1 (proj2 (match_range _ s (lit_found_range s))) al i j Hwf Hi M). Qed.

Lemma end_terms i : 0 <= i <= alen s -> terms l s (1 + asize al) i.
Proof.
  intros Hi. destruct Hc as (_ & He & Hn). apply (terms_intro l s _ _ 0). intros n ep _ Hep Hca. cbn [regmatch].
  destruct (chr_in s i Hi) as [c Ec]. unfold node in He. rewrite Hn, He, Hep, Ec. cbn. eauto.
Qed.

Lemma program_terms i : 0 <= i <= alen s -> terms l s 1 i.
Proof.
  intros Hi. destruct Hc as (Hcode & He & _).
  apply (proj1 (proj2 (match_terms l s Hs)) al 1 (1 + asize al) i); [done|done|lia| |apply end_not_branch|done|].
  - exists END. split; [done|done].
  - intros i' Hi' _. apply end_terms. lia.
Qed.

(** A search from [i] has told whether a match begins there. *)
Definition tried (r : option (list (option Z) * list (option Z))) (i : Z) : Prop :=
  match r with None => forall j, ~ ma i j | Some e => exists j, spans e i j /\ ma i j end.

Lemma regtry_tried i : 0 <= i <= alen s -> exists N, forall n, (N <= n)%nat -> exists r, regtry l s n i = Some r /\ tried r i.
Proof.
  intros Hi. destruct (program_terms i Hi) as [N HN]. exists N. intros n Hn. unfold regtry.
  destruct (HN n (mkExec i (replicate (Z.to_nat NSUBEXP) None) (replicate (Z.to_nat NSUBEXP) None)) Hn) as (b & ep' & E & Hc1 & Hc2); [done|done|].
  rewrite E. cbn [mbind option_bind]. apply (proj1 (regmatch_decides l s n)) in E. unfold decides in E. cbn [reginput] in E. destruct b.
  - destruct (aset (regstartp ep') 0 (Some i)) as [st|] eqn:E1; [|unfold aset, alen in *; by rewrite decide_True in E1 by (rewrite Hc1; done)].
    destruct (aset (regendp ep') 0 (Some (reginput ep'))) as [en|] eqn:E2; [|unfold aset, alen in *; by rewrite decide_True in E2 by (rewrite Hc2; done)].
    apply aset_Some in E1 as [H1 ->], E2 as [H2 ->]. cbn. eexists. split; [done|]. exists (reginput ep'). split.
    + unfold spans. cbn [fst snd]. change 0%nat with (Z.to_nat 0). rewrite !aget_insert by lia. by rewrite decide_True.
    + by apply program_reaches.
  - exists None. split; [done|]. intros j M. apply program_reaches in M; [|done]. by apply (E j).
Qed.

Notation leftmost := (leftmost_in s ma).

Section fuel.
Context (n : nat) (Hn : forall i, 0 <= i <= alen s -> exists r, regtry l s n i = Some r /\ tried r i).

Lemma tried_leftmost e i : 0 <= i <= alen s -> tried (Some e) i -> (forall i' j, 0 <= i' < i -> ~ ma i' j) -> leftmost (Some e).
Proof.
  intros Hi (j & Hsp & M) Hb. exists i, j. split; [done|]. split; [done|]. split; [done|]. intros i' j' Hi' M'.
  destruct (decide (i' < i)); [|lia]. by destruct (Hb i' j').
Qed.

Lemma try_all_leftmost m : forall i, (Z.to_nat (alen s - i) < m)%nat -> 0 <= i <= alen s -> (forall i' j, 0 <= i' < i -> ~ ma i' j) ->
  exists r, try_all l s m n i = Some r /\ leftmost r.
Proof.
  induction m as [|m IH]; intros i Hm Hi Hb; [lia|]. cbn [try_all]. destruct (Hn i Hi) as (r & E & Ht). rewrite E. cbn [mbind option_bind].
  destruct r as [e|]; [exists (Some e); split; [done|by eapply tried_leftmost]|]. destruct (chr_in s i Hi) as [c Ec]. rewrite Ec. cbn [mbind option_bind].
  assert (Hb' : forall i' j, 0 <= i' < i + 1 -> ~ ma i' j) by (intros i' j Hi'; destruct (decide (i' = i)) as [->|]; [apply Ht|apply Hb; lia]).
  destruct (Z.eqb_spec c 0) as [->|Hne].
  - apply (chr_zero _ _ Hs) in Ec as ->. exists None. split; [done|]. intros i' j Hi'. apply Hb'. lia.
  - apply chr_inv, aget_Some_bound in Ec; [|done]. apply IH; [lia|lia|done].
Qed.

Lemma try_starts_leftmost ch : (forall i j, 0 <= i <= alen s -> ma i j -> aget s i = Some ch) ->
  forall m i, (Z.to_nat (alen s - i) < m)%nat -> 0 <= i < alen s -> (forall i' j, 0 <= i' < i -> ~ ma i' j) ->
  exists r, try_starts l s m n i ch = Some r /\ leftmost r.
Proof.
  intros Hch. induction m as [|m IH]; intros i Hm Hi Hb; [lia|]. cbn [try_starts]. destruct (Hn i ltac:(lia)) as (r & E & Ht). rewrite E. cbn [mbind option_bind].
  destruct r as [e|]; [exists (Some e); split; [done|apply (tried_leftmost e i); [lia|done|done]]|].
  unfold next_start. rewrite (proj2 (Z.leb_gt _ _)) by lia. set (k := strcspn (rest s (i + 1)) [ch]).
  assert (Hk : 0 <= k <= alen s - (i + 1)).
  { assert (alen (rest s (i + 1)) = alen s - (i + 1)) as <- by (apply alen_rest; lia). unfold k. rewrite strcspn_count. apply prefix_count_range. }
  assert (Hb' : forall i' j, 0 <= i' < i + 1 + k -> ~ ma i' j).
  { intros i' j Hi' M. destruct (decide (i' = i)) as [->|]; [by apply (Ht j)|]. destruct (decide (i' < i)); [by apply (Hb i' j); [lia|]|].
    apply (strcspn_skips (rest s (i + 1)) ch (i' - (i + 1))); [fold k; lia|]. rewrite aget_rest by lia.
    replace (i + 1 + (i' - (i + 1))) with i' by lia. apply (Hch i' j); [lia|done]. }
  rewrite alen_rest by lia. destruct (Z.ltb_spec k (alen s - (i + 1))) as [Hlt|Hge]; cbn [mbind option_bind].
  - apply IH; [lia|lia|done].
  - exists None. split; [done|]. intros i' j Hi' M. destruct (decide (i' < i + 1 + k)); [by apply (Hb' i' j); [lia|]|].
    specialize (Hch i' j Hi' M). apply aget_Some_bound in Hch. lia.
Qed.
End fuel.

(** The short cuts of a program are right. *)
Record shortcuts (r : regexp) : Prop := {
  sc_program : program r = l;
  sc_magic : aget l 0 = Some MAGIC;
  sc_start : regstart r <> 0 -> forall i j, 0 <= i <= alen s -> ma i j -> aget s i = Some (regstart r);
  sc_anch : reganch r = true -> forall i j, 0 <= i <= alen s -> ma i j -> i = 0;
  sc_must : forall q, regmust r = Some q -> exists w, operand_str l q = Some w /\ forall i j, 0 <= i <= alen s -> ma i j -> strstr s w = true;
}.

(** [strchr(s+1, ...)] of an empty string is never reached. *)
Theorem regexec_leftmost r :
  shortcuts r -> s <> [] \/ regstart r = 0 -> exists N, forall n, (N <= n)%nat -> exists res, regexec n r s = Some res /\ leftmost res.
Proof.
  intros [Hp Hmag Hst Han Hmu] Hne.
  destruct (enough_fuel (fun n i => exists x, regtry l s n i = Some x /\ tried x i) 0 (alen s)) as [N HN]; [by apply regtry_tried|].
  exists N. intros n Hn. assert (Hall : forall i, 0 <= i <= alen s -> exists x, regtry l s n i = Some x /\ tried x i) by (intros i Hi; by apply HN).
  unfold regexec. rewrite Hp, Hmag. cbn [mbind option_bind]. change (negb (MAGIC =? MAGIC)) with false. cbn iota.
  assert (H0 : 0 <= 0 <= alen s) by (unfold alen; lia).
  assert (Hm : exists b, (match regmust r with None => Some true | Some q => w ← operand_str l q; Some (strstr s w) end) = Some b /\
    (b = false -> forall i j, 0 <= i <= alen s -> ~ ma i j)).
  { destruct (regmust r) as [q|]; [|by exists true]. destruct (Hmu q eq_refl) as (w & Ew & Hw). rewrite Ew. cbn. eexists. split; [done|].
    intros E i j Hi M. rewrite (Hw i j Hi M) in E. done. }
  destruct Hm as (b & Eb & Hb). rewrite Eb. cbn [mbind option_bind]. destruct b; cbn [negb]; [clear Hb|exists None; split; [done|exact (Hb eq_refl)]].
  destruct (reganch r).
  - destruct (Hall 0 H0) as (x & E & Ht). rewrite E. exists x. split; [done|]. destruct x as [e|].
    + eapply tried_leftmost; [exact H0|exact Ht|]. intros. lia.
    + intros i j Hi M. pose proof (Han eq_refl i j Hi M). subst i. by apply (Ht j).
  - destruct (Z.eqb_spec (regstart r) 0) as [Hz|Hnz]; cbn [negb].
    + apply try_all_leftmost; [done|unfold alen; lia|done|]. intros. lia.
    + apply try_starts_leftmost; [done|by apply Hst|unfold alen; lia| |intros; lia].
      destruct Hne as [Hne|]; [|done]. unfold alen. destruct s; [done|]. cbn [length]. lia.
Qed.
End search.
