(* ===== verification/RegParse.v ===== *)
(** * The parser of regular expressions ends, with well-formed syntax

    The fuel of [parse_regexp] suffices, and so does that of [regcomp], whose recursion
    is the same. *)
From S2P Require Import Prelude Regexp RegSyntax RegMatch.

Section parse.
Context (exp : list Z) (Hexp : Forall (fun c => 0 < c < 256) exp).

(** The parser has a result at [q]: an error, or one with [Q]. *)
Definition good {A} (Q : A -> pst -> Prop) (c : R pst A) (q : pst) : Prop :=
  exists r q', c q = Some (r, q') /\ match r with inl _ => True | inr a => Q a q' end.

Lemma good_fail {A} (Q : A -> pst -> Prop) e q : good Q (FAIL e) q.
Proof. by exists (inl e), q. Qed.

Lemma good_ret {A} (Q : A -> pst -> Prop) a q : Q a q -> good Q (ret a) q.
Proof. intros. by exists (inr a), q. Qed.

Lemma good_try {A B} (Q : A -> pst -> Prop) (Q' : B -> pst -> Prop) c (f : A -> R pst B) q :
  good Q c q -> (forall a q', Q a q' -> good Q' (f a) q') -> good Q' (attempt c f) q.
Proof.
  intros (r & q' & E & H) Hf. unfold good, attempt, mbind, st_bind. rewrite E. destruct r as [e|a]; [by exists (inl e), q'|].
  exact (Hf a q' H).
Qed.

Lemma good_look {A} (Q : A -> pst -> Prop) (f : Z -> R pst A) q :
  0 <= pos q <= alen exp -> (forall c, chr exp (pos q) = Some c -> good Q (f c) q) -> good Q (c ← look exp; f c) q.
Proof.
  intros Hq Hf. destruct (chr_in exp (pos q) Hq) as [c Ec]. specialize (Hf c Ec). unfold good, look, mbind, st_bind, getS, liftO in *. by rewrite Ec.
Qed.

Lemma good_skip {A} (Q : A -> pst -> Prop) k (f : R pst A) q : good Q f (q <| pos ::= Z.add k |>) -> good Q (_ ← skip k; f) q.
Proof. done. Qed.

Lemma good_get {A} (Q : A -> pst -> Prop) (f : pst -> R pst A) q : good Q (f q) q -> good Q (st ← getS; f st) q.
Proof. done. Qed.

Lemma good_lift {A B} (Q : A -> pst -> Prop) (o : option B) (f : B -> R pst A) q :
  is_Some o -> (forall b, o = Some b -> good Q (f b) q) -> good Q (b ← liftO o; f b) q.
Proof. intros [b ->] H. exact (H b eq_refl). Qed.

Lemma good_mono {A} (Q Q' : A -> pst -> Prop) c q : (forall a q, Q a q -> Q' a q) -> good Q c q -> good Q' c q.
Proof. intros HQ (r & q' & E & H). exists r, q'. split; [done|]. destruct r; [done|]. by apply HQ. Qed.

Lemma chr_exp i c : chr exp i = Some c -> c <> 0 -> 0 <= i < alen exp /\ 0 < c < 256.
Proof.
  intros H Hc. apply chr_inv in H; [|done]. split; [by apply aget_Some_bound in H|]. unfold aget in H. case_decide; [|done].
  by apply (Forall_lookup_1 _ _ _ _ Hexp H).
Qed.

Lemma seqZ_nonzero c k : 0 < c -> Forall (fun c => c <> 0) (seqZ c k).
Proof. intros. apply Forall_forall. intros x Hx%elem_of_seqZ. lia. Qed.

Definition class_post (q : pst) (x : Z * list Z) (q' : pst) : Prop :=
  Forall (fun c => c <> 0) (snd x) /\ par q' = par q /\ pos q < pos q' /\ (fst x <> 0 -> pos q' <= alen exp).

Lemma parse_class_good n : forall q, 1 <= pos q <= alen exp -> alen exp - pos q < Z.of_nat n -> good (class_post q) (parse_class n exp) q.
Proof.
  induction n as [|n IH]; intros q Hq Hn; [lia|]. cbn [parse_class]. apply good_look; [lia|]. intros c Ec. apply good_skip.
  destruct ((c =? 0) || (c =? 93)) eqn:E1.
  { apply good_ret. split; [done|]. split; [done|]. split; [rsimpl; lia|]. cbn [fst]. intros H0. apply chr_exp in Ec as [? _]; [|done]. rsimpl. lia. }
  apply orb_false_iff in E1 as [H0%Z.eqb_neq _]. destruct (chr_exp _ _ Ec H0) as [Hp Hc].
  assert (Hrec : forall k cs q0, 0 <= k -> pos q0 = k + pos q + 1 -> k + pos q + 1 <= alen exp -> par q0 = par q -> Forall (fun c => c <> 0) cs ->
    good (class_post q) (try x := parse_class n exp in ret (fst x, cs ++ snd x)) q0).
  { intros k cs q0 Hk Hq0 Hle Hpar Hcs. apply good_try with (class_post q0); [apply IH; lia|]. intros x q' (H1 & H2 & H3 & H4).
    apply good_ret. split; [by apply Forall_app|]. split; [congruence|]. split; [lia|done]. }
  destruct (Z.eqb_spec c 45) as [->|Hd]; cbn [negb].
  - apply good_look; [rsimpl; lia|]. intros c Ec'. destruct ((c =? 93) || (c =? 0)) eqn:E2.
    + apply (Hrec 0 [45]); [lia|rsimpl; lia|lia|done|by repeat constructor].
    + apply good_get, good_lift; [apply chr_in; rsimpl; lia|]. intros range Er. destruct (Z.gtb_spec range c); [apply good_fail|]. apply good_skip.
      apply orb_false_iff in E2 as [_ H2%Z.eqb_neq]. destruct (chr_exp _ _ Ec' H2) as [Hp2 Hc2].
      destruct (decide (range = 0)) as [->|Hr]; [apply (chr_zero exp) in Er; [rsimpl; lia|]|].
      * eapply Forall_impl; [exact Hexp|]. cbn. lia.
      * destruct (chr_exp _ _ Er Hr) as [_ ?]. rsimpl. apply (Hrec 1 (seqZ (range + 1) (c - range))); [lia|rsimpl; lia|lia|done|].
        apply seqZ_nonzero. lia.
  - apply (Hrec 0 [c]); [lia|rsimpl; lia|lia|done|by repeat constructor].
Qed.

(** A result of type [P], at least at [lo]. *)
Definition post {A} (P : A -> Prop) (lo : Z) (a : A) (q : pst) : Prop := P a /\ lo <= pos q <= alen exp /\ 1 <= par q.

Lemma parse_bracket_good n q : 1 <= pos q <= alen exp -> 1 <= par q -> alen exp - pos q < Z.of_nat n ->
  good (post pwf (pos q)) (parse_bracket n exp) q.
Proof.
  intros Hq Hpar Hn. unfold parse_bracket. apply good_look; [lia|]. intros c Ec.
  assert (Hrest : forall neg k q0, 0 <= k -> pos q0 = pos q + k -> pos q + k <= alen exp -> par q0 = par q ->
    good (post pwf (pos q)) (c ← look exp;
       _ ← (if ((c : Z) =? 93) || (c =? 45) then skip 1 else mret tt);
       try x := parse_class n exp in
       if (fst x : Z) =? 93 then ret (Bracket neg ((if (c =? 93) || (c =? 45) then [c] else []) ++ snd x)) else FAIL unmatched_bracket) q0).
  { clear c Ec. intros neg k q0 Hk Hq0 Hle Hp0. apply good_look; [lia|]. intros c Ec.
    assert (Hcl : forall cs q1, pos q + k <= pos q1 <= alen exp -> par q1 = par q -> Forall (fun c => c <> 0) cs ->
      good (post pwf (pos q)) (try x := parse_class n exp in if (fst x : Z) =? 93 then ret (Bracket neg (cs ++ snd x)) else FAIL unmatched_bracket) q1).
    { intros cs q1 H1 H2 Hcs. apply good_try with (class_post q1); [apply parse_class_good; lia|]. intros x q' (H3 & H4 & H5 & H6).
      destruct (Z.eqb_spec (fst x) 93) as [E|]; [|apply good_fail]. apply good_ret. specialize (H6 ltac:(lia)). split; [by apply Forall_app|lia]. }
    destruct ((c =? 93) || (c =? 45)) eqn:E.
    - assert (H0 : c <> 0) by (intros ->; done). destruct (chr_exp _ _ Ec H0) as [Hp Hc]. apply good_skip. apply Hcl; [rsimpl; lia|done|by repeat constructor].
    - apply (Hcl [] q0); [lia|done|done]. }
  destruct (Z.eqb_spec c 94) as [->|].
  - destruct (chr_exp _ _ Ec ltac:(lia)) as [Hp _]. apply good_skip. apply (Hrest true 1); rsimpl; lia.
  - apply (Hrest false 0 q); lia.
Qed.

Lemma parse_escape_good q : 0 <= pos q <= alen exp -> 1 <= par q -> good (post pwf (pos q)) (parse_escape exp) q.
Proof.
  intros Hq Hp. unfold parse_escape. apply good_look; [lia|]. intros c Ec. destruct (Z.eqb_spec c 0) as [->|Hc]; [apply good_fail|].
  destruct (chr_exp _ _ Ec Hc) as [? _]. apply good_skip, good_ret. split; [by repeat constructor|rsimpl; lia].
Qed.

Lemma parse_literal_good q : 1 <= pos q <= alen exp -> 1 <= par q -> good (post pwf (pos q)) (parse_literal exp) q.
Proof.
  intros Hq Hp. unfold parse_literal. apply good_skip, good_get. rsimpl. set (i := Z.to_nat (-1 + pos q)).
  pose proof (prefix_count_range (fun c => negb (strchr META c)) (drop i exp)) as Hlen. rewrite <- strcspn_count in Hlen.
  set (len := strcspn (drop i exp) META) in *. assert (Ha : alen (drop i exp) = alen exp - (pos q - 1)) by (unfold alen, i in *; rewrite length_drop; lia).
  destruct (Z.eqb_spec len 0) as [|Hne]; [apply good_fail|]. apply good_lift; [apply chr_in; lia|]. intros ender Eend.
  set (len' := if (len >? 1) && ISREPN ender then len - 1 else len).
  assert (Hlen' : 1 <= len' <= len) by (unfold len'; destruct (Z.gtb_spec len 1), (ISREPN ender); cbn; lia).
  apply good_skip, good_ret. split; [|rsimpl; lia]. split.
  - intros H%(f_equal length). rewrite length_take in H. unfold alen in *. cbn in H. lia.
  - apply Forall_take, Forall_drop. eapply Forall_impl; [exact Hexp|]. cbn. lia.
Qed.
(** What each function needs of its fuel, with so many characters left. *)
Definition runs {A} (k : Z) (P : A -> Prop) (d : Z) (n : nat) (c : R pst A) : Prop := forall q,
  0 <= pos q <= alen exp -> 1 <= par q -> 6 * (alen exp - pos q) + k <= Z.of_nat n -> good (post P (pos q + d)) c q.

Lemma post_weaken {A} (P : A -> Prop) lo lo' a q : lo' <= lo -> post P lo a q -> post P lo' a q.
Proof. intros ? (? & ? & ?). split; [done|lia]. Qed.

Lemma run_try {A B} (P : A -> Prop) (Q : B -> pst -> Prop) k d n c (f : A -> R pst B) q :
  runs k P d n c -> 0 <= pos q <= alen exp -> 1 <= par q -> 6 * (alen exp - pos q) + k <= Z.of_nat n ->
  (forall a q', P a -> pos q + d <= pos q' <= alen exp -> 1 <= par q' -> good Q (f a) q') -> good Q (attempt c f) q.
Proof. intros H Hq Hp Hn Hf. apply good_try with (post P (pos q + d)); [by apply H|]. intros a q' (H1 & H2 & H3). by apply Hf. Qed.

Definition reg_ok (paren : bool) (x : Z * alts) : Prop := awf (snd x) /\ (paren = true -> 1 <= fst x < NSUBEXP).

Lemma parse_reg_runs n paren :
  runs 4 bwf 0 n (parse_branch n exp) -> (forall b, bwf b -> runs 1 awf 0 n (parse_alts n exp b)) -> runs 5 (reg_ok paren) 0 (S n) (parse_reg (S n) exp paren).
Proof.
  intros Hb Ha q Hq Hp Hn. cbn [parse_reg]. apply good_get. destruct (paren && (par q >=? NSUBEXP)) eqn:E; [apply good_fail|].
  assert (Hrest : forall q0, pos q0 = pos q -> 1 <= par q0 -> good (post (reg_ok paren) (pos q + 0)) (
    try b := parse_branch n exp in
    try al := parse_alts n exp b in
    c ← look exp;
    if paren then _ ← skip 1; if (c : Z) =? 41 then ret (par q, al) else FAIL unterminated
    else if (c : Z) =? 0 then ret (par q, al) else if c =? 41 then FAIL unmatched else FAIL junk_on_end) q0).
  { intros q0 Hq0 Hp0. eapply run_try; [exact Hb|lia|done|lia|]. intros b q1 Hwb Hq1 Hp1.
    eapply run_try; [by apply Ha|lia|done|lia|]. intros al q2 Hwa Hq2 Hp2. apply good_look; [lia|]. intros c Ec.
    assert (Hok : reg_ok paren (par q, al)).
    { split; [done|]. intros ->. cbn in E. rewrite Z.geb_leb in E. apply Z.leb_gt in E. cbn. lia. }
    destruct paren.
    - apply good_skip. destruct (Z.eqb_spec c 41) as [->|]; [|apply good_fail]. destruct (chr_exp _ _ Ec ltac:(lia)) as [? _].
      apply good_ret. split; [done|rsimpl; lia].
    - destruct (c =? 0); [apply good_ret; split; [done|lia]|]. destruct (c =? 41); apply good_fail. }
  destruct paren; [apply (Hrest (q <| par ::= Z.succ |>)); [done|rsimpl; lia]|by apply (Hrest q)].
Qed.

Lemma parse_alts_runs n b :
  runs 4 bwf 0 n (parse_branch n exp) -> (forall b, bwf b -> runs 1 awf 0 n (parse_alts n exp b)) -> bwf b -> runs 1 awf 0 (S n) (parse_alts (S n) exp b).
Proof.
  intros Hb Ha Hwb q Hq Hp Hn. cbn [parse_alts]. apply good_look; [lia|]. intros c Ec.
  destruct (Z.eqb_spec c 124) as [->|]; cbn [negb]; [|apply good_ret; split; [done|lia]]. destruct (chr_exp _ _ Ec ltac:(lia)) as [? _]. apply good_skip.
  eapply run_try; [exact Hb|rsimpl; lia|done|rsimpl; lia|]. rsimpl. intros b' q1 Hwb' Hq1 Hp1.
  eapply run_try; [by apply Ha|lia|done|lia|]. intros al q2 Hwa Hq2 Hp2. apply good_ret. split; [done|lia].
Qed.

Lemma parse_pieces_runs n :
  runs 2 pwf 1 n (parse_piece n exp) -> runs 3 bwf 0 n (parse_pieces n exp) -> runs 3 bwf 0 (S n) (parse_pieces (S n) exp).
Proof.
  intros Hpc Hps q Hq Hp Hn. cbn [parse_pieces]. apply good_look; [lia|]. intros c Ec.
  destruct (_ || _); [apply good_ret; split; [done|lia]|]. eapply run_try; [exact Hpc|done|done|lia|]. intros p q1 Hwp Hq1 Hp1.
  eapply run_try; [exact Hps|lia|done|lia|]. intros b q2 Hwb Hq2 Hp2. apply good_ret. split; [by destruct b|lia].
Qed.

Lemma parse_piece_runs n : runs 1 pwf 1 n (parse_atom n exp) -> runs 2 pwf 1 (S n) (parse_piece (S n) exp).
Proof.
  intros Hat q Hq Hp Hn. cbn [parse_piece]. eapply run_try; [exact Hat|done|done|lia|]. intros p q1 Hwp Hq1 Hp1. apply good_look; [lia|]. intros op Eop.
  destruct (ISREPN op) eqn:Er; cbn [negb]; [|apply good_ret; split; [done|lia]].
  destruct (negb (wide p) && negb (op =? 63)) eqn:Ew; [apply good_fail|]. assert (H0 : op <> 0) by (intros ->; done).
  destruct (chr_exp _ _ Eop H0) as [? _]. apply good_skip, good_look; [rsimpl; lia|]. intros c _. destruct (ISREPN c); [apply good_fail|].
  apply good_ret. split; [|rsimpl; lia]. destruct (Z.eqb_spec op 42) as [->|H42]; [by destruct (wide p) eqn:?|].
  destruct (Z.eqb_spec op 43) as [->|H43]; [by destruct (wide p) eqn:?|done].
Qed.

Lemma parse_atom_runs n : runs 5 (reg_ok true) 0 n (parse_reg n exp true) -> runs 1 pwf 1 (S n) (parse_atom (S n) exp).
Proof.
  intros Hr q Hq Hp Hn. cbn [parse_atom]. apply good_look; [lia|]. intros c Ec. apply good_skip.
  destruct (Z.eqb_spec c 0) as [->|Hc]; [apply good_fail|]. destruct (chr_exp _ _ Ec Hc) as [Hpos _].
  set (q1 := q <| pos ::= Z.add 1 |>). assert (Hq1 : pos q1 = pos q + 1) by (unfold q1; rsimpl; lia). assert (Hp1 : 1 <= par q1) by done.
  rewrite <- Hq1. clearbody q1. repeat match goal with
    | |- good _ (if ?b then ret _ else _) _ => destruct b; [apply good_ret; split; [done|lia]|]
    | |- good _ (if ?b then FAIL _ else _) _ => destruct b; [apply good_fail|]
    end.
  destruct (c =? 91); [apply parse_bracket_good; lia|]. destruct (c =? 40).
  { eapply run_try; [exact Hr|lia|done|lia|]. intros [no al] q2 [Hwa Hno] Hq2 Hp2. apply good_ret. split; [|lia]. split; [by apply Hno|done]. }
  cbn [orb]. destruct (_ || _); [apply good_fail|]. destruct (ISREPN c); [apply good_fail|].
  destruct (c =? 92); [apply parse_escape_good; lia|apply parse_literal_good; lia].
Qed.

Theorem parse_runs n :
  (forall paren, runs 5 (reg_ok paren) 0 n (parse_reg n exp paren)) /\ (forall b, bwf b -> runs 1 awf 0 n (parse_alts n exp b)) /\
  runs 4 bwf 0 n (parse_branch n exp) /\ runs 3 bwf 0 n (parse_pieces n exp) /\ runs 2 pwf 1 n (parse_piece n exp) /\ runs 1 pwf 1 n (parse_atom n exp).
Proof.
  induction n as [|n (Hr & Ha & Hb & Hps & Hpc & Hat)].
  - repeat split; intros; intros q ? ? ?; lia.
  - split; [intros; by apply parse_reg_runs|]. split; [intros; by apply parse_alts_runs|]. split.
    { intros q Hq Hp Hn. apply Hps; [done|done|lia]. }
    split; [by apply parse_pieces_runs|]. split; [by apply parse_piece_runs|by apply parse_atom_runs].
Qed.

(** Every expression is parsed or refused. *)
Theorem parse_regexp_total : exists r, parse_regexp exp = Some r /\ match r with inl _ => True | inr al => awf al end.
Proof.
  destruct (proj1 (parse_runs (rounds exp)) false (mkPst 0 1)) as (r & q' & E & H).
  - cbn. unfold alen. lia.
  - done.
  - unfold rounds, alen. cbn [pos]. lia.
  - unfold parse_regexp. rewrite E. destruct r as [e|[no al]]; [by exists (inl e)|]. exists (inr al). split; [done|]. by destruct H as [[? _] _].
Qed.
End parse.
