(* ===== verification/RegCode.v ===== *)
(** * The words of a program

    What [regcomp] emits for each construct, as lists of words whose links are offsets, and
    the proof that these lists have the layout of [pcode].  The chains of links
    that [regtail] follows. *)
From S2P Require Import Prelude Regexp RegSyntax RegMatch.

(** ** Segments *)

(** A node with an offset in its link. *)
Definition nd (op t : Z) : list Z := [op; Z.land (Z.shiftr t 8) 127; Z.land t 255].

(** A piece whose link leads [t] words ahead of its tail, 0 for nowhere. *)
Fixpoint pseg (p : piece) (t : Z) : list Z :=
  match p with
  | Bol => nd BOL t
  | Eol => nd EOL t
  | Any => nd ANY t
  | Bracket neg cs => nd (if neg then ANYBUT else ANYOF) t ++ cs ++ [0]
  | Lit w => nd EXACTLY t ++ w ++ [0]
  | Group no al => nd (SUB_OPEN + no) 3 ++ aseg al ++ nd (SUB_CLOSE + no) t
  | Star p =>
      if simple p then nd STAR t ++ pseg p 0
      else nd BRANCH (6 + psize p) ++ pseg p (psize p - ptail p) ++ nd BACK (3 + psize p) ++ nd BRANCH 3 ++ nd NOTHING t
  | Plus p =>
      if simple p then nd PLUS t ++ pseg p 0
      else pseg p (psize p - ptail p) ++ nd BRANCH 6 ++ nd BACK (3 + psize p) ++ nd BRANCH 3 ++ nd NOTHING t
  | Opt p => nd BRANCH (3 + psize p) ++ pseg p (psize p + 3 - ptail p) ++ nd BRANCH 3 ++ nd NOTHING t
  end
(** Alternatives, whose tails lead behind the last of them. *)
with aseg (al : alts) : list Z :=
  match al with
  | One b => nd BRANCH (3 + bsize b) ++ bseg b (bsize b - btail b)
  | Or b al => nd BRANCH (3 + bsize b) ++ bseg b (bsize b - btail b + asize al) ++ aseg al
  end
with bseg (b : branch) (t : Z) : list Z :=
  match b with
  | Empty => nd NOTHING t
  | Last p => pseg p t
  | Cat p b => pseg p (psize p - ptail p) ++ bseg b t
  end.

Lemma alen_nd op t : alen (nd op t) = 3.
Proof. done. Qed.

Lemma alen_seg : (forall p t, alen (pseg p t) = psize p) /\ (forall al, alen (aseg al) = asize al) /\ (forall b t, alen (bseg b t) = bsize b).
Proof.
  apply re_ind; cbn [pseg aseg bseg psize asize bsize]; intros; try destruct (simple _); rewrite ?alen_app, ?alen_nd;
    repeat match goal with H : forall t, alen _ = _ |- _ => rewrite H | H : alen _ = _ |- _ => rewrite H end; try done; change (alen [0]) with 1; lia.
Qed.
Lemma alen_pseg p t : alen (pseg p t) = psize p.
Proof. apply alen_seg. Qed.
Lemma alen_aseg al : alen (aseg al) = asize al.
Proof. apply alen_seg. Qed.
Lemma alen_bseg b t : alen (bseg b t) = bsize b.
Proof. apply alen_seg. Qed.

Lemma tail_range p : 0 <= ptail p < psize p.
Proof.
  pose proof (proj1 size_pos) as Hp. destruct p as [| | |neg cs|w|no al|p|p|p]; cbn [ptail psize]; try (pose proof (alen_nonneg cs)); try (pose proof (alen_nonneg w)); try lia.
  - pose proof (proj1 (proj2 size_pos) al). lia.
  - specialize (Hp p). destruct (simple p); lia.
  - specialize (Hp p). destruct (simple p); lia.
  - specialize (Hp p). lia.
Qed.
Lemma btail_range b : 0 <= btail b < bsize b.
Proof. induction b as [|p|p b IH]; cbn [btail bsize]; [lia|apply tail_range|]. pose proof (tail_range p). lia. Qed.

(** Parentheses have numbers, so that no node is taken for one that leads back. *)
Fixpoint pnum (p : piece) : Prop :=
  match p with Group no al => 0 <= no /\ anum al | Star p | Plus p | Opt p => pnum p | _ => True end
with anum (al : alts) : Prop := match al with One b => bnum b | Or b al => bnum b /\ anum al end
with bnum (b : branch) : Prop := match b with Empty => True | Last p => pnum p | Cat p b => pnum p /\ bnum b end.

Lemma wf_num : (forall p, pwf p -> pnum p) /\ (forall al, awf al -> anum al) /\ (forall b, bwf b -> bnum b).
Proof. apply re_ind; cbn; intuition lia. Qed.

(** The node whose link is open. *)
Ltac appeq := rewrite <- ?app_assoc; cbn [app]; try reflexivity.
Ltac lens := rewrite ?alen_app, ?alen_nd, ?alen_pseg, ?alen_aseg, ?alen_bseg.

Lemma pseg_split p : pnum p -> exists pre op post, op <> BACK /\ alen pre = ptail p /\ forall t, pseg p t = pre ++ nd op t ++ post.
Proof.
  destruct p as [| | |neg cs|w|no al|p|p|p]; cbn [pseg ptail pnum]; intros Hok.
  - by exists [], BOL, [].
  - by exists [], EOL, [].
  - by exists [], ANY, [].
  - exists [], (if neg then ANYBUT else ANYOF), (cs ++ [0]). by destruct neg.
  - by exists [], EXACTLY, (w ++ [0]).
  - exists (nd (SUB_OPEN + no) 3 ++ aseg al), (SUB_CLOSE + no), []. split; [unfold SUB_CLOSE, BACK; lia|]. split; [by lens|]. intros t. appeq.
  - destruct (simple p); [by exists [], STAR, (pseg p 0)|].
    exists (nd BRANCH (6 + psize p) ++ pseg p (psize p - ptail p) ++ nd BACK (3 + psize p) ++ nd BRANCH 3), NOTHING, []. split; [done|]. split; [lens; lia|]. intros t. appeq.
  - destruct (simple p); [by exists [], PLUS, (pseg p 0)|].
    exists (pseg p (psize p - ptail p) ++ nd BRANCH 6 ++ nd BACK (3 + psize p) ++ nd BRANCH 3), NOTHING, []. split; [done|]. split; [lens; lia|]. intros t. appeq.
  - exists (nd BRANCH (3 + psize p) ++ pseg p (psize p + 3 - ptail p) ++ nd BRANCH 3), NOTHING, []. split; [done|]. split; [lens; lia|]. intros t. appeq.
Qed.

Lemma bseg_split b : bnum b -> exists pre op post, op <> BACK /\ alen pre = btail b /\ forall t, bseg b t = pre ++ nd op t ++ post.
Proof.
  induction b as [|p|p b IH]; cbn [bseg btail bnum]; intros Hok.
  - by exists [], NOTHING, [].
  - by apply pseg_split.
  - destruct (IH (proj2 Hok)) as (pre & op & post & Hop & Hlen & H). exists (pseg p (psize p - ptail p) ++ pre), op, post. split; [done|].
    split; [lens; lia|]. intros t. rewrite H. appeq.
Qed.

(** ** Segments in a program *)

(** The words [w] are at [a]. *)
Definition occ (l : list Z) (a : Z) (w : list Z) : Prop := forall j v, aget w j = Some v -> aget l (a + j) = Some v.

Lemma aget_app_r {A} (x y : list A) j : 0 <= j -> aget (x ++ y) (alen x + j) = aget y j.
Proof.
  intros Hj. unfold aget, alen. rewrite !decide_True by lia. rewrite lookup_app_r by lia. f_equal. lia.
Qed.

Lemma occ_app l a x y : occ l a (x ++ y) <-> occ l a x /\ occ l (a + alen x) y.
Proof.
  split.
  - intros H. split; intros j v Hj.
    + apply H. by apply aget_app_l.
    + rewrite <- Z.add_assoc. apply H. pose proof (aget_Some_bound _ _ _ Hj). by rewrite aget_app_r by lia.
  - intros [Hx Hy] j v Hj. destruct (decide (j < alen x)).
    + apply Hx. destruct (aget_in x j) as [v' Hv']; [apply aget_Some_bound in Hj; lia|]. rewrite (aget_app_l _ y _ _ Hv') in Hj. congruence.
    + replace j with (alen x + (j - alen x)) in Hj |- * by lia. rewrite aget_app_r in Hj by lia. rewrite Z.add_assoc. by apply Hy.
Qed.

Lemma occ_here x y z : occ (x ++ y ++ z) (alen x) y.
Proof.
  intros j v Hj. pose proof (aget_Some_bound _ _ _ Hj). rewrite aget_app_r by lia. by apply aget_app_l.
Qed.

Lemma occ_str l a w : occ l a (w ++ [0]) -> str_at l a w.
Proof.
  intros H. apply str_at_intro. intros j Hj. destruct (aget_in (w ++ [0]) j) as [v Hv]; [rewrite alen_app; change (alen [0]) with 1; lia|].
  rewrite Hv. by apply H.
Qed.

(** Where a link of [t] leads to. *)
Definition ahead (a t : Z) : option Z := if t =? 0 then None else Some (a + t).

Lemma link_value t : 0 <= t < 32768 -> Z.shiftl (Z.land (Z.land (Z.shiftr t 8) 127) 127) 8 + Z.land (Z.land t 255) 255 = t.
Proof.
  intros Ht. rewrite <- !Z.land_assoc, !Z.land_diag. change 127 with (Z.ones 7). change 255 with (Z.ones 8). rewrite !Z.land_ones by lia.
  rewrite Z.shiftr_div_pow2, Z.shiftl_mul_pow2 by lia. change (2 ^ 8) with 256. change (2 ^ 7) with 128. zlia.
Qed.

Lemma occ_nd l a op t : 0 <= t < 32768 -> occ l a (nd op t) -> node l a op /\ (op <> BACK -> regnext l a = Some (ahead a t)) /\
  (op = BACK -> t <> 0 -> regnext l a = Some (Some (a - t))).
Proof.
  intros Ht H. assert (H0 : aget l a = Some op) by (rewrite <- (Z.add_0_r a); by apply H). split; [done|].
  unfold regnext. rewrite H0, (H 1 _ eq_refl), (H 2 _ eq_refl). cbn [mbind option_bind]. rewrite link_value by done. unfold ahead. split.
  - intros Hop. rewrite (proj2 (Z.eqb_neq op BACK)) by done. by destruct (t =? 0).
  - intros -> Hne. rewrite (proj2 (Z.eqb_neq t 0)) by done. done.
Qed.

Lemma occ_lnk l a op t : 0 < t < 32768 -> op <> BACK -> occ l a (nd op t) -> node l a op /\ lnk l a (a + t).
Proof.
  intros Ht Hop H. apply occ_nd in H as (Hn & Hl & _); [|lia]. split; [done|]. specialize (Hl Hop). unfold ahead in Hl.
  by rewrite (proj2 (Z.eqb_neq t 0)) in Hl by lia.
Qed.

Lemma occ_back l a t : 0 < t < 32768 -> occ l a (nd BACK t) -> node l a BACK /\ lnk l a (a - t).
Proof. intros Ht H. apply occ_nd in H as (Hn & _ & Hl); [|lia]. split; [done|]. apply Hl; [done|lia]. Qed.

Lemma occ_node l a op t w : occ l a (nd op t ++ w) -> node l a op.
Proof. intros H. unfold node. rewrite <- (Z.add_0_r a). by apply H. Qed.

Lemma occ_node1 l a op t : occ l a (nd op t) -> node l a op.
Proof. rewrite <- (app_nil_r (nd op t)). apply occ_node. Qed.

Lemma tail_link l a p t : pnum p -> 0 <= t < 32768 -> occ l a (pseg p t) -> regnext l (a + ptail p) = Some (ahead (a + ptail p) t).
Proof.
  intros Hp Ht H. destruct (pseg_split p Hp) as (pre & op & post & Hop & Hlen & E). rewrite E in H.
  apply occ_app in H as [_ [H _]%occ_app]. rewrite Hlen in H. by apply occ_nd in H as (_ & H & _); [apply H|].
Qed.

Lemma btail_link l a b t : bnum b -> 0 <= t < 32768 -> occ l a (bseg b t) -> regnext l (a + btail b) = Some (ahead (a + btail b) t).
Proof.
  intros Hp Ht H. destruct (bseg_split b Hp) as (pre & op & post & Hop & Hlen & E). rewrite E in H.
  apply occ_app in H as [_ [H _]%occ_app]. rewrite Hlen in H. by apply occ_nd in H as (_ & H & _); [apply H|].
Qed.

Lemma tail_lnk l a p t : pnum p -> 0 < t < 32768 -> occ l a (pseg p t) -> lnk l (a + ptail p) (a + ptail p + t).
Proof. intros Hp Ht H. apply tail_link in H; [|done|lia]. unfold ahead in H. by rewrite (proj2 (Z.eqb_neq t 0)) in H by lia. Qed.

Lemma btail_lnk l a b t : bnum b -> 0 < t < 32768 -> occ l a (bseg b t) -> lnk l (a + btail b) (a + btail b + t).
Proof. intros Hp Ht H. apply btail_link in H; [|done|lia]. unfold ahead in H. by rewrite (proj2 (Z.eqb_neq t 0)) in H by lia. Qed.

(** A link to where it is said to lead. *)
Lemma lnk_to l a b c : lnk l a b -> b = c -> lnk l a c.
Proof. by intros ? <-. Qed.
Ltac to_lnk H := eapply lnk_to; [exact H|lens; lia].

Section layout.
Context (l : list Z).

Lemma star_code p a t : pnum p -> 12 + psize p < 32768 -> (forall a t, occ l a (pseg p t) -> pcode l p a) -> occ l a (pseg (Star p) t) -> pcode l (Star p) a.
Proof.
  intros Hp Hsz IH H. pose proof (tail_range p) as Hpt. cbn [pseg pcode] in *. destruct (simple p).
  - apply occ_app in H as [H1 H2]. split; [by apply occ_node1 in H1|]. by apply IH in H2.
  - rewrite !occ_app, !alen_nd, !alen_pseg in H. destruct H as (H1 & H2 & H3 & H4 & H5).
    apply occ_lnk in H1 as [N1 L1]; [|lia|done]. apply tail_lnk in H2 as L2; [|done|lia]. apply IH in H2. apply occ_back in H3 as [N3 L3]; [|lia].
    apply occ_lnk in H4 as [N4 L4]; [|lia|done]. apply occ_node1 in H5.
    split; [done|]. split; [to_lnk L1|]. split; [done|]. split; [to_lnk L2|]. split; [done|]. split; [to_lnk L3|]. split; [done|]. split; [to_lnk L4|].
    by replace (a + 3 + psize p + 6) with (a + 3 + psize p + 3 + 3) by lia.
Qed.

Lemma plus_code p a t : pnum p -> 12 + psize p < 32768 -> (forall a t, occ l a (pseg p t) -> pcode l p a) -> occ l a (pseg (Plus p) t) -> pcode l (Plus p) a.
Proof.
  intros Hp Hsz IH H. pose proof (tail_range p) as Hpt. cbn [pseg pcode] in *. destruct (simple p).
  - apply occ_app in H as [H1 H2]. split; [by apply occ_node1 in H1|]. by apply IH in H2.
  - rewrite !occ_app, !alen_nd, !alen_pseg in H. destruct H as (H2 & H1 & H3 & H4 & H5).
    apply occ_lnk in H1 as [N1 L1]; [|lia|done]. apply tail_lnk in H2 as L2; [|done|lia]. apply IH in H2. apply occ_back in H3 as [N3 L3]; [|lia].
    replace (a + psize p + 3 + 3) with (a + psize p + 6) in * by lia. replace (a + psize p + 6 + 3) with (a + psize p + 9) in * by lia.
    apply occ_lnk in H4 as [N4 L4]; [|lia|done]. apply occ_node1 in H5.
    split; [done|]. split; [to_lnk L2|]. split; [done|]. split; [to_lnk L1|]. split; [done|]. split; [to_lnk L3|]. split; [done|]. split; [to_lnk L4|done].
Qed.

Lemma opt_code p a t : pnum p -> 9 + psize p < 32768 -> (forall a t, occ l a (pseg p t) -> pcode l p a) -> occ l a (pseg (Opt p) t) -> pcode l (Opt p) a.
Proof.
  intros Hp Hsz IH H. pose proof (tail_range p) as Hpt. cbn [pseg pcode] in *. rewrite !occ_app, !alen_nd, !alen_pseg in H. destruct H as (H1 & H2 & H4 & H5).
  apply occ_lnk in H1 as [N1 L1]; [|lia|done]. apply tail_lnk in H2 as L2; [|done|lia]. apply IH in H2.
  apply occ_lnk in H4 as [N4 L4]; [|lia|done]. apply occ_node1 in H5.
  split; [done|]. split; [to_lnk L1|]. split; [done|]. split; [to_lnk L2|]. split; [done|]. split; [to_lnk L4|done].
Qed.

Theorem seg_code :
  (forall p, pnum p -> psize p < 32768 -> forall a t, occ l a (pseg p t) -> pcode l p a) /\
  (forall al, anum al -> asize al < 32768 -> forall a, occ l a (aseg al) -> acode l al a (a + asize al)) /\
  (forall b, bnum b -> bsize b < 32768 -> forall a t, occ l a (bseg b t) -> bcode l b a).
Proof.
  apply re_ind; cbn [pseg aseg bseg pcode acode bcode pnum anum bnum].
  - intros _ _ a t H. by apply occ_node1 in H.
  - intros _ _ a t H. by apply occ_node1 in H.
  - intros _ _ a t H. by apply occ_node1 in H.
  - intros neg cs _ _ a t H. split; [by eapply occ_node|]. apply occ_app in H as [_ H]. by apply occ_str.
  - intros w _ _ a t H. split; [by eapply occ_node|]. apply occ_app in H as [_ H]. by apply occ_str.
  - intros no al IH [Hno Ha] Hsz a t H. cbn [psize] in Hsz. pose proof (proj1 (proj2 size_pos) al) as Hal.
    rewrite !occ_app, !alen_nd, !alen_aseg in H. destruct H as (H1 & H2 & H3).
    apply occ_lnk in H1 as [N1 L1]; [|lia|unfold SUB_OPEN, BACK; lia]. apply IH in H2; [|done|lia]. by apply occ_node1 in H3.
  - intros p IH Hp Hsz a t H. pose proof (proj1 size_pos p) as Hpz. cbn [psize] in Hsz. destruct (simple p) eqn:E.
    + apply occ_app in H as [H1 H2]. apply occ_node1 in H1. split; [done|]. apply IH in H2; [done|done|lia].
    + pose proof (star_code p a t Hp ltac:(lia)) as Hst. cbn [pseg pcode] in Hst. rewrite E in Hst. apply Hst; [|done]. intros. eapply IH; [done|lia|done].
  - intros p IH Hp Hsz a t H. pose proof (proj1 size_pos p) as Hpz. cbn [psize] in Hsz. destruct (simple p) eqn:E.
    + apply occ_app in H as [H1 H2]. apply occ_node1 in H1. split; [done|]. apply IH in H2; [done|done|lia].
    + pose proof (plus_code p a t Hp ltac:(lia)) as Hst. cbn [pseg pcode] in Hst. rewrite E in Hst. apply Hst; [|done]. intros. eapply IH; [done|lia|done].
  - intros p IH Hp Hsz a t H. pose proof (proj1 size_pos p) as Hpz. cbn [psize] in Hsz. apply (opt_code p a t); [done|lia| |done]. intros. eapply IH; [done|lia|done].
  - intros b IH Hb Hsz a H. cbn [asize] in *. pose proof (btail_range b) as Hbt. rewrite !occ_app, !alen_nd in H. destruct H as (H1 & H2).
    apply occ_lnk in H1 as [N1 L1]; [|lia|done]. apply btail_lnk in H2 as L2; [|done|lia]. split; [done|]. split; [to_lnk L1|].
    split; [eapply IH; [done|lia|done]|to_lnk L2].
  - intros b IHb al IHa [Hb Ha] Hsz a H. cbn [asize] in *. pose proof (btail_range b) as Hbt. pose proof (proj1 (proj2 size_pos) al) as Hal.
    rewrite !occ_app, !alen_nd, !alen_bseg in H. destruct H as (H1 & H2 & H3).
    apply occ_lnk in H1 as [N1 L1]; [|lia|done]. apply btail_lnk in H2 as L2; [|done|lia]. split; [done|]. split; [to_lnk L1|].
    split; [eapply IHb; [done|lia|done]|]. split; [to_lnk L2|]. apply IHa in H3; [|done|lia].
    by replace (a + (3 + bsize b + asize al)) with (a + 3 + bsize b + asize al) by lia.
  - intros _ _ a t H. by apply occ_node1 in H.
  - intros p IH. exact IH.
  - intros p IHp b IHb [Hp Hb] Hsz a t H. cbn [bsize] in *. pose proof (tail_range p) as Hpt. pose proof (btail_range b) as Hbt.
    rewrite occ_app, alen_pseg in H. destruct H as (H1 & H2). split; [eapply IHp; [done|lia|done]|].
    split; [apply tail_lnk in H1; [to_lnk H1|done|lia]|eapply IHb; [done|lia|done]].
Qed.
End layout.

(** ** Chains of links *)

(** The literals among the nodes of a piece that [regnext] leads through: before its tail, and in it. *)
Definition tail_lit (p : piece) : list (list Z) := match p with Lit w => [w] | _ => [] end.
Fixpoint inner_lits (p : piece) : list (list Z) :=
  match p with Plus p => if simple p then [] else inner_lits p ++ tail_lit p | _ => [] end.
Definition piece_lits (p : piece) : list (list Z) := inner_lits p ++ tail_lit p.
Fixpoint branch_lits (b : branch) : list (list Z) :=
  match b with Empty => [] | Last p => piece_lits p | Cat p b => piece_lits p ++ branch_lits b end.

Section spine.
Context (l : list Z).

(** From node [a] on, links lead to [b]; the literals of the nodes before [b]. *)
Inductive spine : Z -> Z -> list (list Z) -> Prop :=
  | sp_here a : spine a a []
  | sp_op a op b c ws : node l a op -> op <> EXACTLY -> lnk l a b -> a < b -> spine b c ws -> spine a c ws
  | sp_lit a w b c ws : node l a EXACTLY -> str_at l (a + 3) w -> lnk l a b -> a < b -> spine b c ws -> spine a c (w :: ws).

Lemma spine_le a b ws : spine a b ws -> a <= b.
Proof. induction 1; lia. Qed.

Lemma spine_app a b c ws ws' : spine a b ws -> spine b c ws' -> spine a c (ws ++ ws').
Proof. induction 1; cbn; [done|intros; eapply sp_op; eauto|intros; eapply sp_lit; eauto]. Qed.

Lemma spine_one a op b : node l a op -> op <> EXACTLY -> lnk l a b -> a < b -> spine a b [].
Proof. intros. eapply sp_op; [done..|constructor]. Qed.

(** From the tail of a piece to where it leads. *)
Lemma spine_tail p a k : pnum p -> pcode l p a -> lnk l (a + ptail p) k -> a + ptail p < k -> spine (a + ptail p) k (tail_lit p).
Proof.
  destruct p as [| | |neg cs|w|no al|p|p|p]; cbn [pcode ptail tail_lit pnum]; rewrite ?Z.add_0_r; intros Hp Hc Hl Hlt.
  - by eapply spine_one.
  - by eapply spine_one.
  - by eapply spine_one.
  - destruct Hc as [Hn _]. eapply spine_one; [exact Hn|by destruct neg|done|done].
  - destruct Hc as [Hn Hs]. eapply sp_lit; [done..|constructor].
  - destruct Hc as (_ & _ & _ & Hn). replace (a + 3 + asize al) with (a + (3 + asize al)) in Hn by lia.
    eapply spine_one; [exact Hn|unfold SUB_CLOSE, EXACTLY; lia|done|done].
  - destruct (simple p); rewrite ?Z.add_0_r in *; [destruct Hc as [Hn _]; by eapply spine_one|].
    destruct Hc as (_ & _ & _ & _ & _ & _ & _ & _ & Hn). replace (a + 3 + psize p + 6) with (a + (9 + psize p)) in Hn by lia. by eapply spine_one.
  - destruct (simple p); rewrite ?Z.add_0_r in *; [destruct Hc as [Hn _]; by eapply spine_one|].
    destruct Hc as (_ & _ & _ & _ & _ & _ & _ & _ & Hn). replace (a + psize p + 9) with (a + (9 + psize p)) in Hn by lia. by eapply spine_one.
  - destruct Hc as (_ & _ & _ & _ & _ & _ & Hn). replace (a + 3 + psize p + 3) with (a + (6 + psize p)) in Hn by lia. by eapply spine_one.
Qed.

Lemma spine_alts al : forall a k, acode l al a k -> a + asize al <= k -> spine a k [].
Proof.
  induction al as [b|b al IH]; intros a k Hc Hle; cbn [acode asize] in *; pose proof (proj2 (proj2 size_pos) b).
  - destruct Hc as (Hn & Hl & _). by eapply spine_one; [..|lia].
  - destruct Hc as (Hn & Hl & _ & _ & Hc). eapply sp_op; [done|done|exact Hl|lia|]. apply IH; [done|lia].
Qed.

Lemma spine_piece p : forall a, pnum p -> pcode l p a -> spine a (a + ptail p) (inner_lits p).
Proof.
  induction p as [| | |neg cs|w|no al|p IH|p IH|p IH]; intros a Hp Hc; cbn [ptail inner_lits pnum] in *; rewrite ?Z.add_0_r; try constructor.
  - cbn [pcode] in Hc. destruct Hc as (Hn & Hl & Hc & _). eapply sp_op; [exact Hn|unfold SUB_OPEN, EXACTLY; lia|exact Hl|lia|].
    replace (a + (3 + asize al)) with (a + 3 + asize al) by lia. apply (spine_alts al); [done|lia].
  - cbn [pcode] in Hc. pose proof (proj1 size_pos p). destruct (simple p); rewrite ?Z.add_0_r; [constructor|].
    destruct Hc as (N1 & L1 & _ & _ & _ & _ & N3 & L4 & _). eapply sp_op; [exact N1|done|exact L1|lia|]. eapply sp_op; [exact N3|done|exact L4|lia|].
    replace (a + (9 + psize p)) with (a + 3 + psize p + 6) by lia. constructor.
  - cbn [pcode] in Hc. destruct (simple p); rewrite ?Z.add_0_r; [constructor|]. pose proof (tail_range p).
    destruct Hc as (Hc & L0 & N1 & L1 & _ & _ & N2 & L3 & _). rewrite <- (app_nil_r (inner_lits p ++ tail_lit p)).
    eapply spine_app; [eapply spine_app; [by apply IH|apply spine_tail; [done|done|exact L0|lia]]|].
    eapply sp_op; [exact N1|done|exact L1|lia|]. eapply sp_op; [exact N2|done|exact L3|lia|].
    replace (a + (9 + psize p)) with (a + psize p + 9) by lia. constructor.
  - cbn [pcode] in Hc. pose proof (proj1 size_pos p). destruct Hc as (N1 & L1 & _ & _ & N3 & L4 & _).
    eapply sp_op; [exact N1|done|exact L1|lia|]. eapply sp_op; [exact N3|done|exact L4|lia|].
    replace (a + (6 + psize p)) with (a + 3 + psize p + 3) by lia. constructor.
Qed.

Lemma spine_pieces p a : pnum p -> pcode l p a -> lnk l (a + ptail p) (a + psize p) -> spine a (a + psize p) (piece_lits p).
Proof. intros Hp Hc Hl. pose proof (tail_range p). eapply spine_app; [by apply spine_piece|apply spine_tail; [done|done|done|lia]]. Qed.

Lemma spine_btail b : forall a, bnum b -> bcode l b a -> exists ws, spine a (a + btail b) ws.
Proof.
  induction b as [|p|p b IH]; intros a Hp Hc; cbn [bcode btail bnum] in *; rewrite ?Z.add_0_r.
  - eexists. constructor.
  - eexists. by apply spine_piece.
  - destruct Hp as [Hp Hb], Hc as (Hc & L1 & Hcb). rewrite Z.add_assoc. destruct (IH (a + psize p) Hb Hcb) as [ws H]. eexists. by eapply spine_app; [apply spine_pieces|].
Qed.

Lemma spine_branch b : forall a k, bnum b -> bcode l b a -> lnk l (a + btail b) k -> a + btail b < k -> spine a k (branch_lits b).
Proof.
  induction b as [|p|p b IH]; intros a k Hp Hc Hl Hlt; cbn [bcode btail branch_lits bnum] in *; rewrite ?Z.add_0_r in *.
  - by eapply spine_one.
  - eapply spine_app; [by apply spine_piece|by apply spine_tail].
  - destruct Hp as [Hp Hb], Hc as (Hc & L1 & Hcb). rewrite Z.add_assoc in *. eapply spine_app; [by apply spine_pieces|by apply IH].
Qed.

Lemma spine_last a b ws : spine a b ws -> regnext l b = Some None -> forall n, b - a < Z.of_nat n -> last_node n l a = Some b.
Proof.
  induction 1 as [a|a op b c ws Hn Hne Hl Hlt Hsp IH|a w b c ws Hn Hs Hl Hlt Hsp IH]; intros Hend n Hlen;
    try apply spine_le in Hsp as Hle; (destruct n as [|n]; [lia|]); cbn [last_node].
  - by rewrite Hend.
  - rewrite Hl. cbn. apply IH; [done|lia].
  - rewrite Hl. cbn. apply IH; [done|lia].
Qed.

(** The last of the longest literals, [lg] when there is none. *)
Lemma spine_longest a b ws : spine a b ws -> node l b END -> regnext l b = Some None -> 0 <= a -> Forall (Forall (fun c => c <> 0)) ws ->
  forall n lg len, b - a + 1 < Z.of_nat n ->
  exists lg' len', longest_literal n l (Some a) lg len = Some (lg', len') /\
    (lg' = lg \/ exists q w, lg' = Some q /\ w ∈ ws /\ operand_str l q = Some w).
Proof.
  induction 1 as [a|a op b c ws Hn Hne Hl Hlt Hsp IH|a w b c ws Hn Hs Hl Hlt Hsp IH]; intros Hend Hnx Ha Hws n lg len Hlen;
    try apply spine_le in Hsp as Hle; (destruct n as [|n]; [lia|]);
    cbn [longest_literal]; unfold node, lnk in *.
  - rewrite Hend, Hnx. cbn. destruct n; [lia|]. cbn. eauto.
  - rewrite Hn, Hl. cbn. rewrite (proj2 (Z.eqb_neq op EXACTLY)) by done. apply IH; [done|done|lia|done|lia].
  - apply Forall_cons in Hws as [Hw Hws]. rewrite Hn, Hl. cbn. unfold OPERAND. rewrite (str_at_operand _ w) by (done || lia). cbn.
    assert (Hrec : forall lg1 len1, (lg1 = lg \/ lg1 = Some (a + 3)) -> exists lg' len', longest_literal n l (Some b) lg1 len1 = Some (lg', len') /\
      (lg' = lg \/ exists q w', lg' = Some q /\ w' ∈ w :: ws /\ operand_str l q = Some w')).
    { intros lg1 len1 H1. destruct (IH Hend Hnx ltac:(lia) Hws n lg1 len1 ltac:(lia)) as (lg' & len' & E & H2). exists lg', len'. split; [done|].
      destruct H2 as [->|(q & w' & -> & Hin & Ho)]; [|right; exists q, w'; split; [done|]; split; [by right|done]].
      destruct H1 as [->| ->]; [by left|]. right. exists (a + 3), w. split; [done|]. split; [by left|]. apply str_at_operand; [lia|done|done]. }
    destruct (_ >=? _); apply Hrec; auto.
Qed.
End spine.

(** ** Setting the link at the end of a chain *)
Lemma aget_mid (u v : list Z) x : aget (u ++ x :: v) (alen u) = Some x.
Proof. rewrite <- (Z.add_0_r (alen u)). by rewrite aget_app_r by lia. Qed.

Lemma aset_mid (u v : list Z) x y : aset (u ++ x :: v) (alen u) y = Some (u ++ y :: v).
Proof.
  rewrite aset_in by (rewrite alen_app; unfold alen; cbn [length]; lia). f_equal. unfold alen. rewrite Nat2Z.id.
  rewrite insert_app_r_alt by lia. by rewrite Nat.sub_diag.
Qed.

Lemma link_at u v op t val : set_link (u ++ nd op t ++ v) (alen u) val =
  Some (u ++ nd op (if op =? BACK then alen u - val else val - alen u) ++ v).
Proof.
  unfold set_link, nd. cbn [app]. rewrite aget_mid. cbn [mbind option_bind].
  set (offset := if op =? BACK then _ else _).
  change (u ++ op :: ?h :: ?x) with (u ++ [op] ++ h :: x). rewrite app_assoc. replace (alen u + 1) with (alen (u ++ [op])) by (rewrite alen_app; done).
  rewrite aset_mid. cbn [mbind option_bind]. set (h := Z.land (Z.shiftr offset 8) 127).
  replace ((u ++ [op]) ++ h :: Z.land t 255 :: v) with (((u ++ [op]) ++ [h]) ++ Z.land t 255 :: v) by appeq.
  replace (alen u + 2) with (alen ((u ++ [op]) ++ [h])) by (rewrite !alen_app; unfold alen; cbn; lia). rewrite aset_mid. f_equal. appeq.
Qed.

Lemma regnext_open u op v : regnext (u ++ nd op 0 ++ v) (alen u) = Some None.
Proof.
  assert (Ho : occ (u ++ nd op 0 ++ v) (alen u) (nd op 0)) by apply occ_here.
  unfold regnext. rewrite <- (Z.add_0_r (alen u)) at 1. by rewrite (Ho 0 _ eq_refl), (Ho 1 _ eq_refl), (Ho 2 _ eq_refl).
Qed.

Lemma tail_to_at W u op v p val ws W' : W = u ++ nd op 0 ++ v -> spine W p (alen u) ws -> 0 <= p ->
  W' = u ++ nd op (if op =? BACK then alen u - val else val - alen u) ++ v -> tail_to W p val = Some W'.
Proof.
  intros -> Hs Hp ->. unfold tail_to. erewrite spine_last; [|exact Hs| |].
  - cbn [mbind option_bind]. apply link_at.
  - apply regnext_open.
  - pose proof (spine_le _ _ _ _ Hs). assert (Hl : alen (u ++ nd op 0 ++ v) = alen u + 3 + alen v) by (lens; lia).
    pose proof (alen_nonneg v). unfold alen in *. lia.
Qed.

Lemma tail_fwd W u op v p val t ws W' : W = u ++ nd op 0 ++ v -> spine W p (alen u) ws -> 0 <= p -> op <> BACK -> val = alen u + t ->
  W' = u ++ nd op t ++ v -> tail_to W p val = Some W'.
Proof.
  intros HW Hs Hp Hop Hv ->. eapply tail_to_at; [exact HW|exact Hs|done|]. rewrite (proj2 (Z.eqb_neq op BACK)) by done. by replace (val - alen u) with t by lia.
Qed.

Lemma tail_back W u v p val t ws W' : W = u ++ nd BACK 0 ++ v -> spine W p (alen u) ws -> 0 <= p -> val = alen u - t ->
  W' = u ++ nd BACK t ++ v -> tail_to W p val = Some W'.
Proof. intros HW Hs Hp Hv ->. eapply tail_to_at; [exact HW|exact Hs|done|]. change (BACK =? BACK) with true. cbv iota. by replace (alen u - val) with t by lia. Qed.

Lemma occ_in (W x y z : list Z) a : W = x ++ y ++ z -> a = alen x -> occ W a y.
Proof. intros -> ->. apply occ_here. Qed.

(** The piece, or the branch, at [a] has its open link set. *)
Lemma tail_piece W w p v a val t W' : pnum p -> psize p < 32768 ->
  W = w ++ pseg p 0 ++ v -> a = alen w -> val = a + ptail p + t -> W' = w ++ pseg p t ++ v -> tail_to W a val = Some W'.
Proof.
  intros Hp Hsz HW Ha Hv ->. destruct (pseg_split p Hp) as (pre & op & post & Hop & Hlen & E).
  assert (Hc : pcode W p a) by (eapply seg_code; [done|done|by eapply occ_in]). eapply (tail_fwd W (w ++ pre) op (post ++ v) _ _ t).
  - rewrite HW, E. appeq.
  - rewrite alen_app, <- Ha, Hlen. by apply spine_piece.
  - subst a. apply alen_nonneg.
  - done.
  - rewrite alen_app. lia.
  - rewrite E. appeq.
Qed.

Lemma tail_branch W w b v a val t W' : bnum b -> bsize b < 32768 ->
  W = w ++ bseg b 0 ++ v -> a = alen w -> val = a + btail b + t -> W' = w ++ bseg b t ++ v -> tail_to W a val = Some W'.
Proof.
  intros Hp Hsz HW Ha Hv ->. destruct (bseg_split b Hp) as (pre & op & post & Hop & Hlen & E).
  assert (Hc : bcode W b a) by (eapply seg_code; [done|done|by eapply occ_in]). destruct (spine_btail W b a Hp Hc) as [ws Hs].
  eapply (tail_fwd W (w ++ pre) op (post ++ v) _ _ t).
  - rewrite HW, E. appeq.
  - rewrite alen_app, <- Ha, Hlen. exact Hs.
  - subst a. apply alen_nonneg.
  - done.
  - rewrite alen_app. lia.
  - rewrite E. appeq.
Qed.

(** The way through a piece whose link is set. *)
Lemma spine_through W p a t : pnum p -> psize p < 32768 -> 0 < t < 32768 -> occ W a (pseg p t) -> exists ws, spine W a (a + ptail p + t) ws.
Proof.
  intros Hp Hsz Ht Ho. assert (Hc : pcode W p a) by (eapply seg_code; [done|done|exact Ho]). eexists. eapply spine_app; [by apply spine_piece|].
  apply spine_tail; [done|done|by apply tail_lnk|lia].
Qed.

Lemma spine_hop W a op t b : occ W a (nd op t) -> op <> BACK -> op <> EXACTLY -> 0 < t < 32768 -> b = a + t -> spine W a b [].
Proof. intros Ho H1 H2 Ht ->. apply occ_lnk in Ho as [? ?]; [|done|done]. eapply spine_one; [done..|lia]. Qed.

Lemma optail_branch w t v val : optail_to (w ++ nd BRANCH t ++ v) (alen w) val = tail_to (w ++ nd BRANCH t ++ v) (alen w + 3) val.
Proof. unfold optail_to, nd. cbn [app]. by rewrite aget_mid. Qed.
