(* ===== verification/RegComp.v ===== *)
(** * What regcomp emits

    Both passes of [regcomp] follow the parser of [RegSyntax]: the first counts the words of
    the program, the second emits them, and they are those of [RegCode]. *)
From S2P Require Import Prelude Regexp RegSyntax RegMatch RegCode RegParse.

(** ** The state of a pass *)

(** [em]: words are emitted, to a program with room for [sp]. *)
Section pass.
Context (exp : list Z) (em : bool) (sp sz : Z) (Hsp : em = true -> sp < 32768).

(** After the words [w], at [q] of the expression. *)
Definition cs (q : pst) (w : list Z) : comp := mkComp (pos q) (par q) (if em then Some w else None) sp (if em then sz else alen w).

Definition fits (n : Z) : Prop := em = true -> n <= sp.
Definition addr (w : list Z) : Z := if em then alen w else regdummy.

Lemma fits_le m n : m <= n -> fits n -> fits m.
Proof. intros H Hf He. specialize (Hf He). lia. Qed.

Lemma emit_cs q w ws : fits (alen w + alen ws) -> emit_words ws (cs q w) = Some (tt, cs q (w ++ ws)).
Proof.
  unfold emit_words, cs, fits, upd, setter. intros H. destruct em; cbn -[alen]; [|by rewrite alen_app]. rewrite (proj2 (Z.leb_le _ _)); [done|by apply H].
Qed.

Lemma emit_fits q w ws : fits (alen (w ++ ws)) -> emit_words ws (cs q w) = Some (tt, cs q (w ++ ws)).
Proof. rewrite alen_app. apply emit_cs. Qed.

Lemma regnode_cs op q w : fits (alen w + 3) -> regnode op (cs q w) = Some (addr w, cs q (w ++ nd op 0)).
Proof.
  intros H. unfold regnode, here. unfold mbind, st_bind, gets. change ([op; 0; 0]) with (nd op 0). rewrite (emit_cs q w (nd op 0)) by done.
  unfold addr, cs. by destruct em.
Qed.

Lemma reginsert_cs op q w x : fits (alen w + alen x + 3) -> reginsert op (addr w) (cs q (w ++ x)) = Some (tt, cs q (w ++ nd op 0 ++ x)).
Proof.
  unfold reginsert, cs, fits, addr, upd, setter. intros H. destruct em; cbn -[alen].
  - rewrite alen_app, (proj2 (Z.leb_le _ _)) by (by apply H). unfold alen. rewrite Nat2Z.id, take_app_length, drop_app_length. done.
  - assert (alen (w ++ nd op 0 ++ x) = 3 + alen (w ++ x)) as E by (lens; lia). unfold nd in E. cbn [app] in E. by rewrite E.
Qed.

Lemma on_code_cs f q w w' : (em = true -> f w = Some w') -> alen w' = alen w -> on_code f (cs q w) = Some (tt, cs q w').
Proof. unfold on_code, cs, upd, setter. intros H E. destruct em; cbn -[alen]; [by rewrite H|by rewrite E]. Qed.

(** ** Following the parser *)

(** What the code [c] does where the parser [d] has a result: the error of the parser, or the words
    [W a] with the result [val a], if there is room for them; [Q] holds of what is parsed. *)
Definition sim {A B} (c : R comp B) (d : R pst A) (q : pst) (w : list Z) (val : A -> B) (W : A -> list Z) (Q : A -> Prop) : Prop :=
  0 <= par q -> forall r q', d q = Some (r, q') ->
  match r with
  | inl e => em = false -> exists c', c (cs q w) = Some (inl e, c')
  | inr a => Q a /\ 0 <= par q' /\ alen w <= alen (W a) /\ (fits (alen (W a)) -> c (cs q w) = Some (inr (val a), cs q' (W a)))
  end.

Lemma sim_fail {A B} e q w (val : A -> B) W Q : sim (FAIL e) (FAIL e) q w val W Q.
Proof. intros Hp r q' [= <- <-] _. eauto. Qed.

Lemma sim_ret {A B} (a : A) (b : B) q w (val : A -> B) W (Q : A -> Prop) : Q a -> val a = b -> W a = w -> sim (ret b) (ret a) q w val W Q.
Proof. intros HQ <- <- Hp r q' [= <- <-]. done. Qed.

Lemma sim_try {A B A' B'} (c : R comp B) (d : R pst A) f (g : A -> R pst A') q w val W (Q : A -> Prop) (val' : A' -> B') W' Q' :
  sim c d q w val W Q -> (forall a q', Q a -> sim (f (val a)) (g a) q' (W a) val' W' Q') -> sim (attempt c f) (attempt d g) q w val' W' Q'.
Proof.
  intros Hc Hf Hp r q' H. unfold attempt in *. apply bind_Some in H as (r1 & q1 & H1 & H2). specialize (Hc Hp r1 q1 H1). destruct r1 as [e|a].
  - injection H2 as <- <-. intros He. destruct (Hc He) as [c' E]. exists c'. unfold mbind, st_bind. by rewrite E.
  - destruct Hc as (HQ & Hp1 & Hle & Hc). specialize (Hf a q1 HQ Hp1 r q' H2). unfold mbind, st_bind. destruct r as [e|a'].
    + intros He. rewrite Hc by (intros ?; congruence). by apply Hf.
    + destruct Hf as (HQ' & Hp' & Hle' & Hf). split; [done|]. split; [done|]. split; [lia|]. intros Hfit. rewrite Hc by (by eapply fits_le). by apply Hf.
Qed.

Lemma sim_look {A B} (f : Z -> R comp B) (g : Z -> R pst A) q w (val : A -> B) W Q :
  (forall c, chr exp (pos q) = Some c -> sim (f c) (g c) q w val W Q) -> sim (c ← cur exp; f c) (c ← look exp; g c) q w val W Q.
Proof.
  intros H Hp r q' Hd. unfold look, cur in *. unfold mbind, st_bind, getS, liftO in *. change (regparse (cs q w)) with (pos q).
  destruct (chr exp (pos q)) as [c|] eqn:E; [|done]. exact (H c eq_refl Hp r q' Hd).
Qed.

Lemma sim_skip {A B} k (f : R comp B) (g : R pst A) q w (val : A -> B) W Q :
  sim f g (q <| pos ::= Z.add k |>) w val W Q -> sim (_ ← adv k; f) (_ ← skip k; g) q w val W Q.
Proof. intros H. exact H. Qed.

Lemma sim_get {A B} (f : comp -> R comp B) (g : pst -> R pst A) q w (val : A -> B) W Q :
  sim (f (cs q w)) (g q) q w val W Q -> sim (st ← getS; f st) (st ← getS; g st) q w val W Q.
Proof. intros H. exact H. Qed.

Lemma sim_lift {A B C} (o : option C) (f : C -> R comp B) (g : C -> R pst A) q w (val : A -> B) W Q :
  (forall c, o = Some c -> sim (f c) (g c) q w val W Q) -> sim (c ← liftO o; f c) (c ← liftO o; g c) q w val W Q.
Proof. intros H Hp r q' Hd. unfold liftO, mbind, st_bind in *. destruct o; [|done]. exact (H _ eq_refl Hp r q' Hd). Qed.

(** The code emits. *)
Lemma sim_step {A B C} (op : ST comp C) x (f : C -> R comp B) (d : R pst A) q w w1 (val : A -> B) W Q :
  (fits (alen w1) -> op (cs q w) = Some (x, cs q w1)) -> alen w <= alen w1 -> sim (f x) d q w1 val W Q -> sim (x ← op; f x) d q w val W Q.
Proof.
  intros Hop Hle H Hp r q' Hd. specialize (H Hp r q' Hd). unfold mbind, st_bind. destruct r as [e|a].
  - intros He. rewrite Hop by (intros ?; congruence). by apply H.
  - destruct H as (HQ & Hp' & Hle' & H). split; [done|]. split; [done|]. split; [lia|]. intros Hf. rewrite Hop by (by eapply fits_le). by apply H.
Qed.

(** It emits and moves on in the expression. *)
Lemma sim_steps {A B C} (op : ST comp C) x (f : C -> R comp B) (d d' : R pst A) q q1 w w1 (val : A -> B) W Q :
  (fits (alen w1) -> op (cs q w) = Some (x, cs q1 w1)) -> alen w <= alen w1 -> d q = d' q1 -> (0 <= par q -> 0 <= par q1) ->
  sim (f x) d' q1 w1 val W Q -> sim (x ← op; f x) d q w val W Q.
Proof.
  intros Hop Hle Hd Hpar H Hp r q' Hr. rewrite Hd in Hr. specialize (H (Hpar Hp) r q' Hr). unfold mbind, st_bind. destruct r as [e|a].
  - intros He. rewrite Hop by (intros ?; congruence). by apply H.
  - destruct H as (HQ & Hp' & Hle' & H). split; [done|]. split; [done|]. split; [lia|]. intros Hf. rewrite Hop by (by eapply fits_le). by apply H.
Qed.

(** The words are the same, and so is the result. *)
Lemma sim_eq {A B} (c : R comp B) (d : R pst A) q w (val val' : A -> B) W W' (Q Q' : A -> Prop) :
  sim c d q w val W Q -> (forall a, Q a -> Q' a /\ val a = val' a /\ W a = W' a) -> sim c d q w val' W' Q'.
Proof.
  intros H E Hp r q' Hd. specialize (H Hp r q' Hd). destruct r as [e|a]; [done|]. destruct H as (HQ & H). destruct (E a HQ) as (HQ' & <- & <-). by split.
Qed.

(** The parser wraps its result, or the code does. *)
Lemma sim_map {A A' B} (c : R comp B) (d : R pst A) (f : A -> A') q w val W (Q : A -> Prop) val' W' (Q' : A' -> Prop) :
  sim c d q w val W Q -> (forall a, Q a -> Q' (f a) /\ val a = val' (f a) /\ W a = W' (f a)) -> sim c (try a := d in ret (f a)) q w val' W' Q'.
Proof.
  intros H E Hp r q' Hd. unfold attempt in Hd. apply bind_Some in Hd as (r1 & q1 & H1 & H2). specialize (H Hp r1 q1 H1). destruct r1 as [e|a].
  - by injection H2 as <- <-.
  - injection H2 as <- <-. destruct H as (HQ & H). destruct (E a HQ) as (HQ' & <- & <-). by split.
Qed.

Lemma sim_post {A B B'} (c : R comp B) (d : R pst A) (g : B -> B') q w val W (Q : A -> Prop) :
  sim c d q w val W Q -> sim (try b := c in ret (g b)) d q w (fun a => g (val a)) W Q.
Proof.
  intros H Hp r q' Hd. specialize (H Hp r q' Hd). unfold attempt, mbind, st_bind. destruct r as [e|a].
  - intros He. destruct (H He) as [c' E]. rewrite E. by exists c'.
  - destruct H as (HQ & Hp' & Hle & H). split; [done|]. split; [done|]. split; [done|]. intros Hf. by rewrite H.
Qed.

(** ** Characters *)
Lemma class_sim n : forall q w, sim (class_loop n exp) (parse_class n exp) q w fst (fun x => w ++ snd x) (fun _ => True).
Proof.
  induction n as [|n IH]; intros q w; [by intros ? ? ? ?|]. cbn [class_loop parse_class]. apply sim_look. intros c _. apply sim_skip.
  destruct (_ || _); [by apply sim_ret; rewrite ?app_nil_r|].
  assert (Hrec : forall q0 ws, sim (class_loop n exp) (try x := parse_class n exp in ret (fst x, ws ++ snd x)) q0 (w ++ ws) fst (fun x => w ++ snd x) (fun _ => True)).
  { intros q0 ws Hp r q' H. unfold attempt in H. apply bind_Some in H as (r1 & q1 & H1 & H2). specialize (IH q0 (w ++ ws) Hp r1 q1 H1). destruct r1 as [e|x].
    - by injection H2 as <- <-.
    - injection H2 as <- <-. cbn [fst snd]. by rewrite app_assoc. }
  destruct (negb _).
  - eapply sim_step; [|..|apply (Hrec _ [c])]; [apply emit_fits|lens; change (alen [c]) with 1; lia].
  - apply sim_look. intros c' _. destruct (_ || _).
    + eapply sim_step; [|..|apply (Hrec _ [45])]; [apply emit_fits|lens; change (alen [45]) with 1; lia].
    + apply sim_get, sim_lift. intros range _. destruct (_ >? _); [apply sim_fail|].
      eapply sim_step; [|..|apply sim_skip, Hrec]; [apply emit_fits|lens; pose proof (alen_nonneg (seqZ (range + 1) (c' - range))); lia].
Qed.

(** ** Flags *)
Definition fl (w s p : bool) : Z := Z.lor (if w then HASWIDTH else 0) (Z.lor (if s then SIMPLE else 0) (if p then SPSTART else 0)).
Definition pflags (p : piece) : Z := fl (wide p) (simple p) (spstart p).

Lemma hasf_fl w s p : hasf (fl w s p) HASWIDTH = w /\ hasf (fl w s p) SIMPLE = s /\ hasf (fl w s p) SPSTART = p.
Proof. by destruct w, s, p. Qed.
Lemma set_fl w p : raise_flag SPSTART p (raise_flag HASWIDTH w WORST) = fl w false p.
Proof. by destruct w, p. Qed.

Notation psim c d q w := (sim c d q w (fun p => (addr w, pflags p)) (fun p => w ++ pseg p 0) pnum).

Lemma regc_cs b q w : fits (alen (w ++ [b])) -> regc b (cs q w) = Some (tt, cs q (w ++ [b])).
Proof. apply emit_fits. Qed.

Lemma regnode_fits op q w : fits (alen (w ++ nd op 0)) -> regnode op (cs q w) = Some (addr w, cs q (w ++ nd op 0)).
Proof. rewrite alen_app. apply regnode_cs. Qed.

(** An emission followed by a step in the expression. *)
Lemma regc_adv b q w : fits (alen (w ++ [b])) -> (_ ← regc b; adv 1) (cs q w) = Some (tt, cs (q <| pos ::= Z.add 1 |>) (w ++ [b])).
Proof. intros Hf. unfold mbind, st_bind. by rewrite regc_cs. Qed.

Lemma regnode_adv op q w : fits (alen (w ++ nd op 0)) ->
  (r ← regnode op; _ ← adv 1; mret r) (cs q w) = Some (addr w, cs (q <| pos ::= Z.add 1 |>) (w ++ nd op 0)).
Proof. intros Hf. unfold mbind, st_bind. by rewrite regnode_fits. Qed.

Ltac longer := rewrite ?alen_app, ?alen_nd; repeat match goal with |- context [alen ?x] => let H := fresh in pose proof (alen_nonneg x) as H; revert H; generalize (alen x); intros ? end; lia.

Lemma escape_sim q w : psim (regescape exp) (parse_escape exp) q w.
Proof.
  unfold regescape, parse_escape. apply sim_look. intros c _. destruct (c =? 0); [apply sim_fail|].
  eapply sim_step; [apply regnode_fits|longer|]. eapply sim_step; [apply regc_cs|longer|]. apply sim_skip. eapply sim_step; [apply regc_cs|longer|].
  apply sim_ret; [done|done|]. cbn [pseg]. appeq.
Qed.

Lemma literal_sim q w : psim (regliteral exp) (parse_literal exp) q w.
Proof.
  unfold regliteral, parse_literal. apply sim_skip, sim_get. set (q0 := q <| pos ::= Z.add (-1) |>). change (regparse (cs q0 w)) with (pos q0).
  set (i := Z.to_nat (pos q0)). pose proof (prefix_count_range (fun c => negb (strchr META c)) (drop i exp)) as Hlen. rewrite <- strcspn_count in Hlen.
  set (len := strcspn (drop i exp) META) in *. destruct (Z.eqb_spec len 0) as [|Hne]; [apply sim_fail|]. apply sim_lift. intros ender _.
  set (len' := if (len >? 1) && ISREPN ender then len - 1 else len).
  assert (Hl : 1 <= len' <= len) by (unfold len'; destruct (Z.gtb_spec len 1), (ISREPN ender); cbn; lia). clearbody len'.
  eapply sim_step; [apply regnode_fits|longer|]. eapply sim_step; [apply emit_fits|longer|].
  apply sim_skip. eapply sim_step; [apply regc_cs|longer|].
  assert (Ha : alen (take (Z.to_nat len') (drop i exp)) = len') by (unfold alen in *; rewrite length_take; lia).
  apply sim_ret; [done| |cbn [pseg]; appeq]. unfold pflags. cbn [wide simple spstart]. rewrite Ha. by destruct (len' =? 1).
Qed.

Lemma bracket_sim n q w : psim (regclass n exp) (parse_bracket n exp) q w.
Proof.
  unfold regclass, parse_bracket. apply sim_look. intros c _.
  assert (Hrest : forall neg q, sim (c ← cur exp; _ ← (if ((c : Z) =? 93) || (c =? 45) then _ ← regc c; adv 1 else mret tt);
      try c := class_loop n exp in _ ← regc 0; if (c : Z) =? 93 then ret (addr w, Z.lor HASWIDTH SIMPLE) else FAIL unmatched_bracket)
    (c ← look exp; _ ← (if ((c : Z) =? 93) || (c =? 45) then skip 1 else mret tt);
      try x := parse_class n exp in
      if (fst x : Z) =? 93 then ret (Bracket neg ((if (c =? 93) || (c =? 45) then [c] else []) ++ snd x)) else FAIL unmatched_bracket)
    q (w ++ nd (if neg then ANYBUT else ANYOF) 0) (fun p => (addr w, pflags p)) (fun p => w ++ pseg p 0) pnum).
  { clear c q. intros neg q. apply sim_look. intros c _. set (o := if neg then ANYBUT else ANYOF).
    assert (Hloop : forall pre q, sim (try c := class_loop n exp in _ ← regc 0; if (c : Z) =? 93 then ret (addr w, Z.lor HASWIDTH SIMPLE) else FAIL unmatched_bracket)
      (try x := parse_class n exp in if (fst x : Z) =? 93 then ret (Bracket neg (pre ++ snd x)) else FAIL unmatched_bracket)
      q (w ++ nd o 0 ++ pre) (fun p => (addr w, pflags p)) (fun p => w ++ pseg p 0) pnum).
    { clear q. intros pre q. eapply sim_try; [apply class_sim|]. intros x q' _. eapply sim_step; [apply regc_cs|longer|].
      destruct (fst x =? 93); [|apply sim_fail]. apply sim_ret; [done|done|]. cbn [pseg]. fold o. appeq. }
    destruct (_ || _).
    - eapply sim_steps; [apply regc_adv|longer|reflexivity|done|]. rewrite <- app_assoc. apply (Hloop [c]).
    - eapply sim_steps; [reflexivity|longer|reflexivity|done|]. specialize (Hloop [] q). by rewrite app_nil_r in Hloop. }
  destruct (c =? 94).
  - eapply sim_steps; [apply regnode_adv|longer|reflexivity|done|apply (Hrest true)].
  - eapply sim_steps; [apply regnode_fits|longer|reflexivity|done|apply (Hrest false)].
Qed.

(** ** Repetitions *)
(** There is room, and one link is set in a pass that emits. *)
Ltac roomy H := let He := fresh in intros He; specialize (H He); lens; lia.
Ltac code_step H := let He := fresh "He" in apply on_code_cs; [intros He; unfold addr; rewrite ?He; specialize (H He)|lens; lia].

Lemma star_cs q w p : pnum p -> fits (alen (w ++ pseg (Star p) 0)) ->
  emit_star (addr w) (pflags p) (cs q (w ++ pseg p 0)) = Some (tt, cs q (w ++ pseg (Star p) 0)).
Proof.
  intros Hp Hf. unfold emit_star, pflags. destruct (hasf_fl (wide p) (simple p) (spstart p)) as (_ & -> & _). pose proof (tail_range p) as Ht.
  rewrite alen_app, alen_pseg in Hf. cbn [pseg psize] in *. pose proof (alen_nonneg w) as Hw. destruct (simple p) eqn:Es.
  { apply reginsert_cs. rewrite alen_pseg. eapply fits_le; [|exact Hf]. lia. }
  assert (Hsz : em = true -> alen w + 12 + psize p <= sp /\ sp < 32768) by (intros He; specialize (Hf He); specialize (Hsp He); lia).
  remember (psize p - ptail p) as T eqn:HT.
  erewrite bind_run by (apply reginsert_cs; roomy Hsz).
  erewrite bind_run by (apply regnode_fits; roomy Hsz).
  set (W3 := w ++ nd BRANCH 0 ++ pseg p T ++ nd BACK 0). erewrite bind_run with (s' := cs q W3).
  2:{ unfold W3. code_step Hsz. replace ((w ++ nd BRANCH 0 ++ pseg p 0) ++ nd BACK 0) with (w ++ nd BRANCH 0 ++ (pseg p 0 ++ nd BACK 0)) by appeq. rewrite optail_branch.
      eapply (tail_piece _ (w ++ nd BRANCH 0) p (nd BACK 0) _ _ T); [done|lia|appeq|by lens|lens; lia|appeq]. }
  set (W4 := w ++ nd BRANCH 0 ++ pseg p T ++ nd BACK (3 + psize p)). erewrite bind_run with (s' := cs q W4).
  2:{ unfold W3, W4. code_step Hsz. rewrite optail_branch.
      destruct (spine_through W3 p (alen w + 3) T) as [ws Hs]; [done|lia|lia|apply (occ_in _ (w ++ nd BRANCH 0) _ (nd BACK 0)); [unfold W3; appeq|by lens]|].
      eapply (tail_back _ (w ++ nd BRANCH 0 ++ pseg p T) [] _ _ (3 + psize p)); [appeq| |lia|lens; lia|appeq].
      replace (alen (w ++ nd BRANCH 0 ++ pseg p T)) with (alen w + 3 + ptail p + T) by (lens; lia). exact Hs. }
  erewrite bind_run by (apply regnode_fits; unfold W4; roomy Hsz).
  set (W6 := w ++ nd BRANCH (6 + psize p) ++ pseg p T ++ nd BACK (3 + psize p) ++ nd BRANCH 0). erewrite bind_run with (s' := cs q W6).
  2:{ unfold W4, W6. code_step Hsz. eapply (tail_fwd _ w BRANCH _ _ _ (6 + psize p)); [appeq|constructor|lia|done|lens; lia|appeq]. }
  erewrite bind_run by (apply regnode_fits; unfold W6; roomy Hsz).
  unfold W6. code_step Hsz. eapply (tail_fwd _ (w ++ nd BRANCH (6 + psize p) ++ pseg p T ++ nd BACK (3 + psize p)) BRANCH (nd NOTHING 0) _ _ 3); [appeq| |lia|done|lens; lia|appeq].
  eapply (spine_hop _ _ BRANCH (6 + psize p)); [eapply (occ_in _ w); appeq|done|done|lia|lens; lia].
Qed.

Lemma plus_cs q w p : pnum p -> fits (alen (w ++ pseg (Plus p) 0)) ->
  emit_plus (addr w) (pflags p) (cs q (w ++ pseg p 0)) = Some (tt, cs q (w ++ pseg (Plus p) 0)).
Proof.
  intros Hp Hf. unfold emit_plus, pflags. destruct (hasf_fl (wide p) (simple p) (spstart p)) as (_ & -> & _). pose proof (tail_range p) as Ht.
  rewrite alen_app, alen_pseg in Hf. cbn [pseg psize] in *. pose proof (alen_nonneg w) as Hw. destruct (simple p) eqn:Es.
  { apply reginsert_cs. rewrite alen_pseg. eapply fits_le; [|exact Hf]. lia. }
  assert (Hsz : em = true -> alen w + 12 + psize p <= sp /\ sp < 32768) by (intros He; specialize (Hf He); specialize (Hsp He); lia).
  remember (psize p - ptail p) as T eqn:HT.
  erewrite bind_run by (apply regnode_fits; roomy Hsz).
  set (W2 := w ++ pseg p T ++ nd BRANCH 0). erewrite bind_run with (s' := cs q W2).
  2:{ unfold W2. code_step Hsz. eapply (tail_piece _ w p (nd BRANCH 0) _ _ T); [done|lia|appeq|done|lens; lia|appeq]. }
  erewrite bind_run by (apply regnode_fits; unfold W2; roomy Hsz).
  set (W4 := w ++ pseg p T ++ nd BRANCH 0 ++ nd BACK (3 + psize p)). erewrite bind_run with (s' := cs q W4).
  2:{ unfold W2, W4. code_step Hsz. eapply (tail_back _ (w ++ pseg p T ++ nd BRANCH 0) [] _ _ (3 + psize p)); [appeq|constructor|lens; lia|lens; lia|appeq]. }
  erewrite bind_run by (apply regnode_fits; unfold W4; roomy Hsz).
  set (W6 := w ++ pseg p T ++ nd BRANCH 6 ++ nd BACK (3 + psize p) ++ nd BRANCH 0). erewrite bind_run with (s' := cs q W6).
  2:{ unfold W4, W6. code_step Hsz. eapply (tail_fwd _ (w ++ pseg p T) BRANCH _ _ _ 6); [appeq| |lens; lia|done|lens; lia|appeq].
      replace (alen (w ++ pseg p T)) with (alen (w ++ pseg p 0)) by (lens; lia). constructor. }
  erewrite bind_run by (apply regnode_fits; unfold W6; roomy Hsz).
  unfold W6. code_step Hsz. set (W7 := _ ++ nd NOTHING 0).
  destruct (spine_through W7 p (alen w) T) as [ws Hs]; [done|lia|lia|eapply (occ_in _ w); [unfold W7; appeq|done]|].
  eapply (tail_fwd _ (w ++ pseg p T ++ nd BRANCH 6 ++ nd BACK (3 + psize p)) BRANCH (nd NOTHING 0) _ _ 3); [unfold W7; appeq| |lia|done|unfold W6; lens; lia|appeq].
  eapply spine_app; [exact Hs|]. eapply (spine_hop _ _ BRANCH 6); [eapply (occ_in _ (w ++ pseg p T)); [unfold W7; appeq|lens; lia]|done|done|lia|lens; lia].
Qed.

Lemma opt_cs q w p : pnum p -> fits (alen (w ++ pseg (Opt p) 0)) ->
  emit_opt (addr w) (cs q (w ++ pseg p 0)) = Some (tt, cs q (w ++ pseg (Opt p) 0)).
Proof.
  intros Hp Hf. unfold emit_opt. pose proof (tail_range p) as Ht.
  rewrite alen_app, alen_pseg in Hf. cbn [pseg psize] in *. pose proof (alen_nonneg w) as Hw.
  assert (Hsz : em = true -> alen w + 9 + psize p <= sp /\ sp < 32768) by (intros He; specialize (Hf He); specialize (Hsp He); lia).
  remember (psize p + 3 - ptail p) as T eqn:HT.
  erewrite bind_run by (apply reginsert_cs; roomy Hsz).
  erewrite bind_run by (apply regnode_fits; roomy Hsz).
  set (W3 := w ++ nd BRANCH (3 + psize p) ++ pseg p 0 ++ nd BRANCH 0). erewrite bind_run with (s' := cs q W3).
  2:{ unfold W3. code_step Hsz. eapply (tail_fwd _ w BRANCH _ _ _ (3 + psize p)); [appeq|constructor|lia|done|lens; lia|appeq]. }
  erewrite bind_run by (apply regnode_fits; unfold W3; roomy Hsz).
  set (W5 := w ++ nd BRANCH (3 + psize p) ++ pseg p 0 ++ nd BRANCH 3 ++ nd NOTHING 0). erewrite bind_run with (s' := cs q W5).
  2:{ unfold W3, W5. code_step Hsz. eapply (tail_fwd _ (w ++ nd BRANCH (3 + psize p) ++ pseg p 0) BRANCH (nd NOTHING 0) _ _ 3); [appeq| |lia|done|lens; lia|appeq].
      eapply (spine_hop _ _ BRANCH (3 + psize p)); [eapply (occ_in _ w); appeq|done|done|lia|lens; lia]. }
  unfold W3, W5. code_step Hsz. rewrite optail_branch.
  eapply (tail_piece _ (w ++ nd BRANCH (3 + psize p)) p _ _ _ T); [done|lia|appeq|by lens|lens; lia|appeq].
Qed.

(** ** Branches *)

(** Branches linked to the next, with open tails; those of [al], the last of which has no link. *)
Fixpoint raw (bs : list branch) : list Z :=
  match bs with [] => [] | b :: bs => nd BRANCH (3 + bsize b) ++ bseg b 0 ++ raw bs end.
Fixpoint araw (al : alts) : list Z :=
  match al with One b => nd BRANCH 0 ++ bseg b 0 | Or b al => nd BRANCH (3 + bsize b) ++ bseg b 0 ++ araw al end.
Fixpoint branches (al : alts) : list branch := match al with One b => [b] | Or b al => b :: branches al end.

Lemma raw_app bs bs' : raw (bs ++ bs') = raw bs ++ raw bs'.
Proof. induction bs as [|b bs IH]; [done|]. cbn [raw app]. rewrite IH. appeq. Qed.

Lemma alen_raw al : alen (raw (branches al)) = asize al.
Proof. induction al as [b|b al IH]; cbn [raw branches asize]; lens; [change (alen []) with 0|]; lia. Qed.
Lemma alen_araw al : alen (araw al) = asize al.
Proof. induction al as [b|b al IH]; cbn [araw asize]; lens; lia. Qed.

(** The last branch of [al] is at the end of what comes before it. *)
Lemma araw_split al : exists bs b, branches al = bs ++ [b] /\ araw al = raw bs ++ nd BRANCH 0 ++ bseg b 0.
Proof.
  induction al as [b|b al (bs & b' & E1 & E2)]; [by exists [], b|]. exists (b :: bs), b'. cbn [branches araw]. rewrite E1, E2. split; [done|]. cbn [raw]. appeq.
Qed.

Lemma spine_raw W bs : forall a, alen (raw bs) < 32768 -> occ W a (raw bs) -> spine W a (a + alen (raw bs)) [].
Proof.
  induction bs as [|b bs IH]; intros a Hsz Ho; cbn [raw] in *; [rewrite Z.add_0_r; constructor|]. revert Hsz. lens. intros Hsz.
  pose proof (proj2 (proj2 size_pos) b) as Hb. pose proof (alen_nonneg (raw bs)) as Hr. rewrite !occ_app, alen_nd, alen_bseg in Ho. destruct Ho as (Ho & _ & Hos).
  change (@nil (list Z)) with (@nil (list Z) ++ []). eapply spine_app; [eapply (spine_hop _ _ BRANCH (3 + bsize b)); [exact Ho|done|done|lia|reflexivity]|].
  replace (a + (3 + (bsize b + alen (raw bs)))) with (a + 3 + bsize b + alen (raw bs)) by lia.
  rewrite Z.add_assoc. apply IH; [lia|done].
Qed.

(** for (br = ret; br != NULL; br = regnext(br)) over the alternatives. *)
Lemma hook_ender u op n ender : op <> BRANCH -> (0 < n)%nat -> hook_tails n (alen u) ender (u ++ nd op 0) = Some (u ++ nd op 0).
Proof.
  intros Hop Hn. destruct n as [|n]; [lia|]. cbn [hook_tails].
  assert (E : optail_to (u ++ nd op 0) (alen u) ender = Some (u ++ nd op 0)).
  { unfold optail_to, nd. rewrite aget_mid. cbn [mbind option_bind]. by rewrite (proj2 (Z.eqb_neq op BRANCH)) by done. }
  pose proof (regnext_open u op []) as En. rewrite app_nil_r in En. rewrite E. cbn [mbind option_bind]. by rewrite En.
Qed.

Lemma hook_branches al op : op <> BRANCH -> forall u n, anum al -> asize al < 32768 -> asize al < Z.of_nat n ->
  hook_tails n (alen u) (alen u + asize al) (u ++ raw (branches al) ++ nd op 0) = Some (u ++ aseg al ++ nd op 0).
Proof.
  intros Hop. induction al as [b|b al IH]; intros u n Hb Hsz Hn; cbn [branches raw aseg asize anum] in *; pose proof (btail_range b) as Hbt;
    try pose proof (proj1 (proj2 size_pos) al) as Hal; (destruct n as [|n]; [lia|]); cbn [hook_tails]; rewrite <- !app_assoc; rewrite optail_branch.
  - cbn [app]. rewrite (tail_branch _ (u ++ nd BRANCH (3 + bsize b)) b (nd op 0) _ _ (bsize b - btail b) (u ++ nd BRANCH (3 + bsize b) ++ bseg b (bsize b - btail b) ++ nd op 0));
      [|done|lia|appeq|by lens|lia|appeq].
    cbn [mbind option_bind]. set (W := u ++ _). destruct (occ_lnk W (alen u) BRANCH (3 + bsize b)) as [_ Hl]; [lia|done|by eapply (occ_in _ u)|].
    rewrite Hl. cbn [mbind option_bind]. unfold W. rewrite !app_assoc. replace (alen u + (3 + bsize b)) with (alen ((u ++ nd BRANCH (3 + bsize b)) ++ bseg b (bsize b - btail b))) by (lens; lia).
    apply hook_ender; [done|lia].
  - destruct Hb as [Hb Ha].
    rewrite (tail_branch _ (u ++ nd BRANCH (3 + bsize b)) b (raw (branches al) ++ nd op 0) _ _ (bsize b - btail b + asize al)
      (u ++ nd BRANCH (3 + bsize b) ++ bseg b (bsize b - btail b + asize al) ++ raw (branches al) ++ nd op 0)); [|done|lia|appeq|by lens|lia|appeq].
    cbn [mbind option_bind]. set (W := u ++ _). destruct (occ_lnk W (alen u) BRANCH (3 + bsize b)) as [_ Hl]; [lia|done|by eapply (occ_in _ u)|].
    rewrite Hl. cbn [mbind option_bind]. unfold W. rewrite !app_assoc. set (u' := (u ++ nd BRANCH (3 + bsize b)) ++ bseg b (bsize b - btail b + asize al)).
    replace (alen u + (3 + bsize b)) with (alen u') by (unfold u'; lens; lia). replace (alen u + (3 + bsize b + asize al)) with (alen u' + asize al) by (unfold u'; lens; lia).
    rewrite <- !(app_assoc u'). apply IH; [done|lia|lia].
Qed.

(** ** The functions of the compiler *)
Definition bflags (b : branch) : Z := fl (wide_branch b) false (spstart_branch b).
Definition aflags (al : alts) : Z := fl (wide_alts al) false (spstart_alts al).
Definition join (p : piece) (b : branch) : branch := match b with Empty => Last p | _ => Cat p b end.
(** The alternatives but the first. *)
Definition more_wide (al : alts) : bool := match al with One _ => true | Or _ al => wide_alts al end.
Definition more_spstart (al : alts) : bool := match al with One _ => false | Or _ al => spstart_alts al end.
Definition first_branch (al : alts) : branch := match al with One b => b | Or b _ => b end.

Lemma set_width w x y : raise_flag HASWIDTH w (fl x false y) = fl (x || w) false y.
Proof. by destruct w, x, y. Qed.
Lemma set_start p x y : raise_flag SPSTART p (fl x false y) = fl x false (y || p).
Proof. by destruct p, x, y. Qed.
Lemma clear_width w x y : (if (w : bool) then fl x false y else Z.ldiff (fl x false y) HASWIDTH) = fl (x && w) false y.
Proof. by destruct w, x, y. Qed.

Definition atom_ok n := forall q w, psim (regatom n exp) (parse_atom n exp) q w.
Definition piece_ok n := forall q w, psim (regpiece n exp) (parse_piece n exp) q w.
Definition chain_ok n := forall q w p x y, pnum p ->
  sim (regpieces n exp (Some (addr w)) (fl x false y)) (parse_pieces n exp) q (w ++ pseg p 0)
    (fun b => fl (x || wide_branch b) false y) (fun b => w ++ bseg (join p b) 0) bnum.
Definition pieces_ok n := forall q w, sim (regpieces n exp None WORST) (parse_pieces n exp) q w bflags (fun b => w ++ bseg b 0) bnum.
Definition branch_ok n := forall q w, sim (regbranch n exp) (parse_branch n exp) q w (fun b => (addr w, bflags b)) (fun b => w ++ nd BRANCH 0 ++ bseg b 0) bnum.

(** The node of the parenthesis that the alternatives follow. *)
Definition opening (o : list Z) : Prop := o = [] \/ exists no, 0 <= no /\ o = nd (SUB_OPEN + no) 3.
Definition alts_ok n := forall q w o bs b x y, opening o -> bnum b ->
  sim (regalts n exp (addr w) (fl x false y)) (parse_alts n exp b) q (w ++ o ++ raw bs ++ nd BRANCH 0 ++ bseg b 0)
    (fun al => fl (x && more_wide al) false (y || more_spstart al)) (fun al => w ++ o ++ raw bs ++ araw al) (fun al => anum al /\ first_branch al = b).

Definition regseg (paren : bool) (x : Z * alts) : list Z := if paren then pseg (Group (fst x) (snd x)) 0 else aseg (snd x) ++ nd END 0.
Definition reg_sim n := forall paren q w,
  sim (reg n exp paren) (parse_reg n exp paren) q w (fun x => (addr w, aflags (snd x))) (fun x => w ++ regseg paren x) (fun x => 0 <= fst x /\ anum (snd x)).

Lemma sim_if {A B} (t : bool) (c1 c2 : R comp B) (d1 d2 : R pst A) q w val W Q :
  sim c1 d1 q w val W Q -> sim c2 d2 q w val W Q -> sim (if t then c1 else c2) (if t then d1 else d2) q w val W Q.
Proof. by destruct t. Qed.

Lemma atom_step n : reg_sim n -> atom_ok (S n).
Proof.
  intros Hr q w. cbn [regatom parse_atom]. apply sim_look. intros c _. apply sim_skip.
  apply sim_if; [eapply sim_step; [apply regnode_fits|longer|by apply sim_ret]|].
  apply sim_if; [eapply sim_step; [apply regnode_fits|longer|by apply sim_ret]|].
  apply sim_if; [eapply sim_step; [apply regnode_fits|longer|by apply sim_ret]|].
  apply sim_if; [apply bracket_sim|]. apply sim_if.
  - eapply sim_try; [apply (Hr true)|]. intros [no al] q' [Hno Ha]. cbn [fst snd] in *. apply sim_ret; [done| |done].
    unfold pflags, aflags. cbn [wide simple spstart]. destruct (hasf_fl (wide_alts al) false (spstart_alts al)) as (-> & _ & ->). by rewrite set_fl.
  - apply sim_if; [apply sim_fail|]. apply sim_if; [apply sim_fail|]. apply sim_if; [apply escape_sim|apply literal_sim].
Qed.

Lemma piece_step n : atom_ok n -> piece_ok (S n).
Proof.
  intros Ha q w. cbn [regpiece parse_piece]. eapply sim_try; [apply Ha|]. intros p q' Hp. apply sim_look. intros op _.
  apply sim_if; [by apply sim_ret|]. destruct (hasf_fl (wide p) (simple p) (spstart p)) as (Hw & _ & _). unfold pflags at 1. rewrite Hw.
  apply sim_if; [apply sim_fail|].
  assert (Hrest : forall p' fl', pnum p' -> pflags p' = fl' -> sim (_ ← adv 1; c ← cur exp; if ISREPN c then FAIL nested_rep else ret (addr w, fl'))
    (_ ← skip 1; c ← look exp; if ISREPN c then FAIL nested_rep else ret p') q' (w ++ pseg p' 0) (fun p => (addr w, pflags p)) (fun p => w ++ pseg p 0) pnum).
  { intros p' fl' Hp' <-. apply sim_skip, sim_look. intros c _. apply sim_if; [apply sim_fail|by apply sim_ret]. }
  pose proof (tail_range p) as Ht. destruct (op =? 42); [|destruct (op =? 43)].
  - eapply sim_step; [by apply star_cs| |by apply (Hrest (Star p))]. lens. cbn [psize]. destruct (simple p); lia.
  - eapply sim_step; [by apply plus_cs| |by apply (Hrest (Plus p))]. lens. cbn [psize]. destruct (simple p); lia.
  - eapply sim_step; [by apply opt_cs| |by apply (Hrest (Opt p))]. lens. cbn [psize]. lia.
Qed.

Lemma chain_step n : piece_ok n -> chain_ok n -> chain_ok (S n).
Proof.
  intros Hpc Hch q w p x y Hp. cbn [regpieces parse_pieces]. apply sim_look. intros c _. apply sim_if.
  { eapply sim_steps; [reflexivity|longer|reflexivity|done|]. apply sim_ret; [done|by rewrite orb_false_r|done]. }
  eapply sim_try; [apply Hpc|]. intros p' q' Hp'. destruct (hasf_fl (wide p') (simple p') (spstart p')) as (Hw & _ & _). unfold pflags. rewrite Hw, set_width.
  pose proof (tail_range p) as Ht. eapply (sim_step _ _ _ _ _ _ ((w ++ pseg p (psize p - ptail p)) ++ pseg p' 0)); [|lens; lia|].
  - intros Hf. apply on_code_cs; [|lens; lia]. intros He. unfold addr. rewrite He. specialize (Hf He). specialize (Hsp He). revert Hf. lens. intros Hf.
    pose proof (alen_nonneg w). pose proof (tail_range p'). eapply (tail_piece _ w p (pseg p' 0) _ _ (psize p - ptail p)); [done|lia|appeq|done|lens; lia|appeq].
  - replace (addr (w ++ pseg p 0)) with (addr (w ++ pseg p (psize p - ptail p))) by (unfold addr; destruct em; [lens; lia|done]).
    eapply sim_map; [by apply Hch|]. intros b Hb. split; [by destruct b|]. split; [destruct b; cbn [wide_branch]; rewrite ?orb_false_r, ?orb_assoc; done|].
    rewrite <- app_assoc. by destruct b.
Qed.

Lemma pieces_step n : piece_ok n -> chain_ok n -> pieces_ok (S n).
Proof.
  intros Hpc Hch q w. cbn [regpieces parse_pieces]. apply sim_look. intros c _. apply sim_if.
  { eapply sim_steps with (w1 := w ++ nd NOTHING 0); [|longer|reflexivity|done|by apply sim_ret]. intros Hf. unfold mbind at 1, st_bind at 1. by rewrite regnode_fits. }
  eapply sim_try; [apply Hpc|]. intros p q' Hp. destruct (hasf_fl (wide p) (simple p) (spstart p)) as (Hw & _ & Hs). unfold pflags. rewrite Hw, Hs, set_fl.
  eapply sim_map; [by apply Hch|]. intros b Hb. split; [by destruct b|]. split; [|done]. by destruct b; cbn [wide_branch join]; unfold bflags; cbn; rewrite ?orb_false_r.
Qed.

Lemma branch_step n : pieces_ok n -> branch_ok (S n).
Proof.
  intros Hps q w. cbn [regbranch parse_branch]. eapply sim_step; [apply regnode_fits|longer|]. eapply sim_eq.
  - apply (sim_post _ _ (fun f => (addr w, f))), Hps.
  - intros b Hb. split; [done|]. split; [done|appeq].
Qed.

(** The last branch of a row is linked to what is emitted behind it. *)
Lemma link_row w o bs b v val : opening o -> em = true -> fits (alen (w ++ o ++ raw bs ++ nd BRANCH 0 ++ bseg b 0)) ->
  val = addr (w ++ o ++ raw bs ++ nd BRANCH 0 ++ bseg b 0) ->
  tail_to ((w ++ o ++ raw bs ++ nd BRANCH 0 ++ bseg b 0) ++ v) (addr w) val = Some (w ++ o ++ raw (bs ++ [b]) ++ v).
Proof.
  intros Ho He Hf ->. unfold addr. rewrite He. specialize (Hf He). specialize (Hsp He). revert Hf. lens. intros Hf.
  pose proof (alen_nonneg w). pose proof (alen_nonneg (raw bs)). pose proof (proj2 (proj2 size_pos) b). pose proof (alen_nonneg o).
  set (W := _ ++ v). assert (Hso : exists ws, spine W (alen w) (alen w + alen o) ws).
  { destruct Ho as [->|(no & Hno & ->)]; [rewrite Z.add_0_r; eexists; constructor|]. rewrite alen_nd. eexists.
    eapply (spine_hop _ _ (SUB_OPEN + no) 3); [eapply (occ_in _ w); [unfold W; appeq|done]|unfold SUB_OPEN, BACK; lia|unfold SUB_OPEN, EXACTLY; lia|lia|done]. }
  destruct Hso as [ws Hso]. assert (Hsr : spine W (alen w + alen o) (alen w + alen o + alen (raw bs)) []).
  { apply spine_raw; [lia|]. eapply (occ_in _ (w ++ o)); [unfold W; appeq|by lens]. }
  eapply (tail_fwd W (w ++ o ++ raw bs) BRANCH (bseg b 0 ++ v) _ _ (3 + bsize b)); [unfold W; appeq| |lia|done|lens; lia|rewrite raw_app; cbn [raw]; appeq].
  replace (alen (w ++ o ++ raw bs)) with (alen w + alen o + alen (raw bs)) by (lens; lia). by eapply spine_app.
Qed.

Lemma regtail_row w o bs b q v : opening o -> fits (alen (w ++ o ++ raw (bs ++ [b]) ++ v)) ->
  regtail (addr w) (addr (w ++ o ++ raw bs ++ nd BRANCH 0 ++ bseg b 0)) (cs q ((w ++ o ++ raw bs ++ nd BRANCH 0 ++ bseg b 0) ++ v)) =
  Some (tt, cs q (w ++ o ++ raw (bs ++ [b]) ++ v)).
Proof.
  intros Ho Hf. apply on_code_cs.
  - intros He. apply link_row; [done|done| |done]. eapply fits_le; [|exact Hf]. rewrite raw_app. cbn [raw]. pose proof (alen_nonneg v). lens. change (alen []) with 0. lia.
  - rewrite raw_app. cbn [raw]. lens. change (alen []) with 0. lia.
Qed.

Lemma alts_step n : branch_ok n -> alts_ok n -> alts_ok (S n).
Proof.
  intros Hb Ha q w o bs b x y Ho Hbn. cbn [regalts parse_alts]. apply sim_look. intros c _. apply sim_if.
  { apply sim_ret; [done|cbn [more_wide more_spstart]; by rewrite andb_true_r, orb_false_r|done]. }
  apply sim_skip. set (W := w ++ o ++ raw bs ++ nd BRANCH 0 ++ bseg b 0). eapply sim_try; [apply Hb|]. intros b' q' Hb'. destruct (hasf_fl (wide_branch b') false (spstart_branch b')) as (Hw & _ & Hs).
  unfold bflags. rewrite Hw, Hs, clear_width, set_start.
  eapply (sim_step _ _ _ _ _ _ (w ++ o ++ raw (bs ++ [b]) ++ nd BRANCH 0 ++ bseg b' 0)); [intros Hf; by apply regtail_row|unfold W; rewrite raw_app; cbn [raw]; lens; change (alen []) with 0; lia|].
  eapply sim_map; [by apply Ha|]. cbv beta. intros al [Hal Hfst]. split; [done|]. split.
  - cbn [more_wide more_spstart]. rewrite <- Hfst. destruct al; cbn [first_branch wide_alts spstart_alts more_wide more_spstart];
      rewrite ?andb_true_r, ?orb_false_r, ?andb_assoc, ?orb_assoc; done.
  - rewrite raw_app. cbn [raw araw]. appeq.
Qed.

(** The closing node is hooked on the end of the alternatives. *)
Lemma close_row w o al op q : opening o -> anum al -> op <> BRANCH -> fits (alen (w ++ o ++ aseg al ++ nd op 0)) ->
  (_ ← regtail (addr w) (addr (w ++ o ++ araw al)); hook (addr w) (addr (w ++ o ++ araw al))) (cs q ((w ++ o ++ araw al) ++ nd op 0)) =
  Some (tt, cs q (w ++ o ++ aseg al ++ nd op 0)).
Proof.
  intros Ho Hal Hop Hf. destruct (araw_split al) as (bs & b & E1 & E2). rewrite E2.
  assert (Hsz : alen (raw (bs ++ [b])) = asize al) by (by rewrite <- E1, alen_raw). revert Hf. lens. intros Hf.
  erewrite bind_run by (apply regtail_row; [done|revert Hf; lens; rewrite Hsz; done]). rewrite <- E1.
  apply on_code_cs; [|lens; rewrite alen_raw; lia]. intros He. unfold addr. rewrite He. specialize (Hf He). specialize (Hsp He).
  replace (alen (w ++ o ++ raw bs ++ nd BRANCH 0 ++ bseg b 0)) with (alen (w ++ o) + asize al) by (rewrite <- Hsz, raw_app; cbn [raw]; lens; change (alen []) with 0; lia).
  pose proof (alen_nonneg w). pose proof (alen_nonneg o). pose proof (proj1 (proj2 size_pos) al).
  assert (Hlen : Z.of_nat (length (w ++ o ++ raw (branches al) ++ nd op 0)) = alen w + alen o + asize al + 3).
  { change (Z.of_nat (length ?x)) with (alen x). lens. rewrite alen_raw. lia. }
  destruct Ho as [->|(no & Hno & ->)].
  - cbn [app] in *. rewrite app_nil_r. apply (hook_branches al op Hop w); [done|lia|]. change (alen []) with 0 in *. lia.
  - rewrite alen_nd in *. destruct (length (w ++ nd (SUB_OPEN + no) 3 ++ raw (branches al) ++ nd op 0)) as [|m] eqn:Em; [lia|]. cbn [hook_tails].
    assert (E : optail_to (w ++ nd (SUB_OPEN + no) 3 ++ raw (branches al) ++ nd op 0) (alen w) (alen (w ++ nd (SUB_OPEN + no) 3) + asize al) =
      Some (w ++ nd (SUB_OPEN + no) 3 ++ raw (branches al) ++ nd op 0)).
    { unfold optail_to, nd. cbn [app]. rewrite aget_mid. cbn [mbind option_bind]. by rewrite (proj2 (Z.eqb_neq (SUB_OPEN + no) BRANCH)) by (unfold SUB_OPEN, BRANCH; lia). }
    rewrite E. cbn [mbind option_bind].
    destruct (occ_lnk (w ++ nd (SUB_OPEN + no) 3 ++ raw (branches al) ++ nd op 0) (alen w) (SUB_OPEN + no) 3) as [_ Hl]; [lia|unfold SUB_OPEN, BACK; lia|by eapply (occ_in _ w)|].
    rewrite Hl. cbn [mbind option_bind]. rewrite !(app_assoc w). replace (alen w + 3) with (alen (w ++ nd (SUB_OPEN + no) 3)) by (by lens).
    apply hook_branches; [done|done|lia|lia].
Qed.

(** The part of [reg] and of [parse_reg] behind the opening parenthesis. *)
Definition reg_rest (n : nat) (paren : bool) (parno r : Z) : R comp (Z * Z) :=
  try x := regbranch n exp in
  let '(br, flags) := x in
  _ ← (if paren then regtail r br else mret tt);
  let r := if paren then r else br in
  try flagp := regalts n exp r (raise_flag SPSTART (hasf flags SPSTART) (raise_flag HASWIDTH (hasf flags HASWIDTH) WORST)) in
  ender ← regnode (if paren then SUB_CLOSE + parno else END);
  _ ← regtail r ender;
  _ ← hook r ender;
  c ← cur exp;
  if paren then _ ← adv 1; if (c : Z) =? 41 then ret (r, flagp) else FAIL unterminated
  else if (c : Z) =? 0 then ret (r, flagp)
  else if c =? 41 then FAIL unmatched else FAIL junk_on_end.

Definition parse_rest (n : nat) (paren : bool) (parno : Z) : R pst (Z * alts) :=
  try b := parse_branch n exp in
  try al := parse_alts n exp b in
  c ← look exp;
  if paren then _ ← skip 1; if (c : Z) =? 41 then ret (parno, al) else FAIL unterminated
  else if (c : Z) =? 0 then ret (parno, al)
  else if c =? 41 then FAIL unmatched else FAIL junk_on_end.

Notation rsim paren c d q w w0 := (sim c d q w (fun x => (addr w0, aflags (snd x))) (fun x => w0 ++ regseg paren x) (fun x => 0 <= fst x /\ anum (snd x))).

(** What comes behind the alternatives. *)
Lemma close_sim (paren : bool) parno q w al flagp : 0 <= parno -> anum al -> flagp = aflags al ->
  let o := if paren then nd (SUB_OPEN + parno) 3 else [] in
  rsim paren (ender ← regnode (if paren then SUB_CLOSE + parno else END);
    _ ← regtail (addr w) ender;
    _ ← hook (addr w) ender;
    c ← cur exp;
    if paren then _ ← adv 1; if (c : Z) =? 41 then ret (addr w, flagp) else FAIL unterminated
    else if (c : Z) =? 0 then ret (addr w, flagp)
    else if c =? 41 then FAIL unmatched else FAIL junk_on_end)
  (c ← look exp;
    if paren then _ ← skip 1; if (c : Z) =? 41 then ret (parno, al) else FAIL unterminated
    else if (c : Z) =? 0 then ret (parno, al)
    else if c =? 41 then FAIL unmatched else FAIL junk_on_end) q (w ++ o ++ araw al) w.
Proof.
  intros Hno Hal -> o. set (op := if paren then SUB_CLOSE + parno else END).
  assert (Hopen : opening o) by (unfold o; destruct paren; [right; by exists parno|by left]).
  assert (Hop : op <> BRANCH) by (unfold op, SUB_CLOSE, END, BRANCH; destruct paren; lia).
  eapply sim_step; [apply regnode_fits|longer|].
  assert (Hseg : w ++ regseg paren (parno, al) = w ++ o ++ aseg al ++ nd op 0) by (unfold o, op, regseg; by destruct paren).
  enough (H : rsim paren (_ ← ((_ ← regtail (addr w) (addr (w ++ o ++ araw al)); hook (addr w) (addr (w ++ o ++ araw al))) : ST comp unit);
    c ← cur exp;
    if paren then _ ← adv 1; if (c : Z) =? 41 then ret (addr w, aflags al) else FAIL unterminated
    else if (c : Z) =? 0 then ret (addr w, aflags al)
    else if c =? 41 then FAIL unmatched else FAIL junk_on_end)
    (c ← look exp;
    if paren then _ ← skip 1; if (c : Z) =? 41 then ret (parno, al) else FAIL unterminated
    else if (c : Z) =? 0 then ret (parno, al)
    else if c =? 41 then FAIL unmatched else FAIL junk_on_end) q ((w ++ o ++ araw al) ++ nd op 0) w).
  { intros Hp r q' Hd. specialize (H Hp r q' Hd). revert H. unfold mbind, st_bind. by destruct (regtail _ _ _) as [[[] ?]|]. }
  eapply sim_step; [intros Hf; by apply close_row|lens; rewrite alen_araw; lia|].
  apply sim_look. intros c _. rewrite <- Hseg. destruct paren.
  - apply sim_skip. apply sim_if; [by apply sim_ret|apply sim_fail].
  - apply sim_if; [by apply sim_ret|]. apply sim_if; apply sim_fail.
Qed.

Lemma rest_sim n (paren : bool) parno q w r : branch_ok n -> alts_ok n -> 0 <= parno -> (paren = true -> r = addr w) ->
  rsim paren (reg_rest n paren parno r) (parse_rest n paren parno) q (w ++ if paren then nd (SUB_OPEN + parno) 0 else []) w.
Proof.
  intros Hb Ha Hno Hr. unfold reg_rest, parse_rest. set (o0 := if paren then nd (SUB_OPEN + parno) 0 else []). set (o := if paren then nd (SUB_OPEN + parno) 3 else []).
  assert (Hopen : opening o) by (unfold o; destruct paren; [right; by exists parno|by left]).
  assert (Ho : alen o = alen o0) by (unfold o, o0; by destruct paren).
  eapply sim_try; [apply Hb|]. intros b q' Hbn. destruct (hasf_fl (wide_branch b) false (spstart_branch b)) as (Hw & _ & Hs).
  unfold bflags. rewrite Hw, Hs, set_fl.
  apply (sim_step _ tt _ _ _ _ (w ++ o ++ raw [] ++ nd BRANCH 0 ++ bseg b 0)); [|cbn [raw app]; lens; lia|].
  { intros Hf. unfold o, o0 in *. destruct paren; [|cbn [app raw]; by rewrite app_nil_r]. rewrite (Hr eq_refl). apply on_code_cs; [|cbn [raw app]; lens; lia].
    intros He. unfold addr. rewrite He. specialize (Hf He). pose proof (alen_nonneg w).
    eapply (tail_fwd _ w (SUB_OPEN + parno) _ _ _ 3); [appeq|constructor|lia|unfold SUB_OPEN, BACK; lia|by lens|appeq]. }
  assert (Er : (if paren then r else addr (w ++ o0)) = addr w) by (unfold o0; destruct paren; [by apply Hr|by rewrite app_nil_r]). cbv zeta. rewrite Er.
  eapply sim_try; [by apply Ha|]. cbv beta. intros al q2 [Hal Hfst]. cbn [raw app]. apply close_sim; [done|done|].
  unfold aflags. rewrite <- Hfst. destruct al; cbn [first_branch wide_alts spstart_alts more_wide more_spstart]; by rewrite ?andb_true_r, ?orb_false_r.
Qed.

Lemma reg_step n : branch_ok n -> alts_ok n -> reg_sim (S n).
Proof.
  intros Hb Ha paren q w Hpar. revert Hpar. cbn [reg parse_reg]. apply sim_get. change (regnpar (cs q w)) with (par q). apply sim_if; [apply sim_fail|].
  intros Hpar. revert Hpar. set (parno := par q). destruct paren.
  - intros Hpar. eapply (sim_steps _ (addr w) _ _ (parse_rest n true parno) q (q <| par ::= Z.succ |>) w (w ++ nd (SUB_OPEN + parno) 0));
      [|longer|reflexivity|unfold upd, setter; cbn; lia| |done].
    + intros Hf. unfold mbind, st_bind, modifyS. by rewrite <- (regnode_fits _ (q <| par ::= Z.succ |>)).
    + by apply (rest_sim n true).
  - intros Hpar. eapply (sim_steps _ 0 _ _ (parse_rest n false parno) q q w w); [done|lia|reflexivity|done| |done].
    pose proof (rest_sim n false parno q w 0 Hb Ha Hpar) as H. rewrite app_nil_r in H. by apply H.
Qed.

Theorem reg_follows n :
  reg_sim n /\ alts_ok n /\ branch_ok n /\ pieces_ok n /\ chain_ok n /\ piece_ok n /\ atom_ok n.
Proof.
  induction n as [|n (Hr & Ha & Hb & Hps & Hch & Hpc & Hat)].
  - repeat split; repeat intro; done.
  - split; [by apply reg_step|]. split; [by apply alts_step|]. split; [by apply branch_step|]. split; [by apply pieces_step|].
    split; [by apply chain_step|]. split; [by apply piece_step|by apply atom_step].
Qed.
End pass.
