(* ===== verification/RegFind.v ===== *)
(** * regcomp and regexec together

    [regcomp] accepts what the grammar accepts, and [regexec] on its program finds the
    leftmost match of the expression. *)
From S2P Require Import Prelude Regexp RegSyntax RegMatch RegSearch RegParse RegCode RegComp.

(** ** The two passes *)
Definition program_of (al : alts) : list Z := MAGIC :: aseg al ++ nd END 0.

Lemma alen_program al : alen (program_of al) = asize al + 4.
Proof. change (program_of al) with ([MAGIC] ++ aseg al ++ nd END 0). lens. change (alen [MAGIC]) with 1. lia. Qed.

(** Where the parser has a result, so has a pass. *)
Lemma pass_run exp em sp sz r q' : (em = true -> sp < 32768) -> parse_reg (rounds exp) exp false (mkPst 0 1) = Some (r, q') ->
  match r with
  | inl e => em = false -> exists c', regcomp_pass exp (cs em sp sz (mkPst 0 1) []) = Some (inl e, c')
  | inr (_, al) => anum al /\ (fits em sp (alen (program_of al)) ->
      exists a, regcomp_pass exp (cs em sp sz (mkPst 0 1) []) = Some (inr (a, aflags al), cs em sp sz q' (program_of al)))
  end.
Proof.
  intros Hsp Hp. unfold regcomp_pass. destruct (reg_follows exp em sp sz Hsp (rounds exp)) as (Hr & _).
  specialize (Hr false (mkPst 0 1) [MAGIC]).
  assert (H : sim em sp sz (_ ← regc MAGIC; reg (rounds exp) exp false) (parse_reg (rounds exp) exp false) (mkPst 0 1) []
    (fun x => (addr em [MAGIC], aflags (snd x))) (fun x => [MAGIC] ++ regseg false x) (fun x => 0 <= fst x /\ anum (snd x))).
  { eapply sim_step; [by apply regc_cs|unfold alen; cbn; lia|exact Hr]. }
  specialize (H ltac:(done) r q' Hp). destruct r as [e|[no al]]; [exact H|]. destruct H as ([_ Hal] & _ & _ & H). split; [done|]. intros Hf.
  exists (addr em [MAGIC]). by apply H.
Qed.

(** ** The short cuts *)
Lemma lits_found s p : forall i j w, mpiece (lit_found s) s p i j -> w ∈ piece_lits p -> strstr s w = true.
Proof.
  induction p as [| | |neg cs|v|no al|p IH|p IH|p IH]; intros i j w M Hw; unfold piece_lits in *; cbn [inner_lits tail_lit app] in *; try (by apply not_elem_of_nil in Hw).
  - apply list_elem_of_singleton in Hw as ->. destruct M as [(_ & _ & H) _]. by apply (strstr_drop _ (Z.to_nat i)).
  - rewrite app_nil_r in Hw. destruct (simple p); [by apply not_elem_of_nil in Hw|]. destruct M as (k & M & _). by apply (IH i k w).
Qed.

Lemma branch_lits_found s b : forall i j w, mbranch (lit_found s) s b i j -> w ∈ branch_lits b -> strstr s w = true.
Proof.
  induction b as [|p|p b IH]; intros i j w M Hw; cbn [branch_lits mbranch] in *.
  - by apply not_elem_of_nil in Hw.
  - by eapply lits_found.
  - destruct M as (k & M1 & M2). apply elem_of_app in Hw as [Hw|Hw]; [by eapply lits_found|by eapply IH].
Qed.

Lemma branch_lits_nonzero b : bwf b -> Forall (Forall (fun c => c <> 0)) (branch_lits b).
Proof.
  assert (Hp : forall p, pwf p -> Forall (Forall (fun c => c <> 0)) (piece_lits p)).
  { induction p; unfold piece_lits in *; cbn [inner_lits tail_lit app pwf]; try constructor; [tauto|constructor|].
    intros [_ Hwf]. rewrite app_nil_r. destruct (simple p); [constructor|auto]. }
  induction b as [|p|p b IH]; cbn [bwf branch_lits]; [constructor|auto|]. intros [H1 H2]. apply Forall_app; auto.
Qed.

Lemma program_code al : anum al -> asize al < 32768 -> rcode (program_of al) al.
Proof.
  intros Ha Hsz. unfold rcode. set (l := program_of al). split; [|split].
  - apply seg_code; [done|done|]. apply (occ_in l [MAGIC] _ (nd END 0)); [done|done].
  - apply (occ_node1 l _ END 0). apply (occ_in l (MAGIC :: aseg al) _ []); [unfold l, program_of; appeq|].
    change (MAGIC :: aseg al) with ([MAGIC] ++ aseg al). lens. change (alen [MAGIC]) with 1. lia.
  - pose proof (regnext_open (MAGIC :: aseg al) END []) as H. rewrite app_nil_r in H. change (MAGIC :: aseg al) with ([MAGIC] ++ aseg al) in H.
    rewrite alen_app, alen_aseg in H. exact H.
Qed.

(** What [optimise] finds out of the program of a single branch. *)
Lemma optimise_one b flags : bwf b -> asize (One b) < 32768 -> exists r, optimise (program_of (One b)) flags = Some r /\
  program r = program_of (One b) /\
  (regstart r <> 0 -> node (program r) 4 EXACTLY /\ aget (program r) 7 = Some (regstart r)) /\
  (reganch r = true -> node (program r) 4 BOL) /\
  (forall q, regmust r = Some q -> exists w, w ∈ branch_lits b /\ operand_str (program r) q = Some w).
Proof.
  intros Hwf Hsz. assert (Hnum : bnum b) by (by apply wf_num). pose proof (program_code (One b) Hnum Hsz) as ((N1 & L1 & Hc & L2) & He & Hn).
  set (l := program_of (One b)) in *. pose proof (proj2 (proj2 size_pos) b) as Hb. pose proof (btail_range b) as Hbt. cbn [asize] in *.
  assert (Hl : alen l = bsize b + 7) by (unfold l; rewrite alen_program; cbn [asize]; lia).
  unfold optimise. unfold lnk in L1. rewrite L1. cbn [mbind option_bind]. rewrite He. cbn [mbind option_bind]. change (negb (END =? END)) with false. cbv iota.
  change (OPERAND 1) with 4. change (OPERAND 4) with 7. destruct (aget_in l 4) as [op Eop]; [lia|]. destruct (aget_in l 7) as [c Ec]; [lia|].
  rewrite Eop, Ec. cbn [mbind option_bind].
  assert (Hm : exists m, (if hasf flags SPSTART then longest_literal (S (length l)) l (Some 4) None 0 else Some (None, 0)) = Some m /\
    forall q, fst m = Some q -> exists w, w ∈ branch_lits b /\ operand_str l q = Some w).
  { destruct (hasf flags SPSTART); [|by exists (None, 0)].
    assert (Hsp : spine l 4 (1 + (3 + bsize b)) (branch_lits b)) by (apply (spine_branch l b 4); [done|done|done|lia]).
    destruct (spine_longest l _ _ _ Hsp He Hn ltac:(lia) (branch_lits_nonzero b Hwf) (S (length l)) None 0) as (lg & len & E & H); [unfold alen in Hl; lia|].
    exists (lg, len). split; [exact E|]. intros q Hq. cbn [fst] in Hq. destruct H as [->|(q' & w & -> & Hin & Ho)]; [done|]. injection Hq as <-. by exists w. }
  destruct Hm as ([lg len] & Em & Hm). rewrite Em. cbn [mbind option_bind fst snd]. eexists. split; [done|]. cbn [program regstart reganch regmust].
  split; [done|]. split; [|split; [|exact Hm]].
  - destruct (Z.eqb_spec op EXACTLY) as [->|]; [|done]. by split.
  - by intros ->%Z.eqb_eq.
Qed.

Lemma optimise_or b al flags : awf (Or b al) -> asize (Or b al) < 32768 ->
  optimise (program_of (Or b al)) flags = Some (mkRegexp 0 false None 0 (program_of (Or b al))).
Proof.
  intros Hwf Hsz. assert (Hnum : anum (Or b al)) by (by apply wf_num). pose proof (program_code (Or b al) Hnum Hsz) as ((N1 & L1 & _ & _ & Hc) & _).
  unfold optimise. unfold lnk in L1. rewrite L1. cbn [mbind option_bind].
  assert (E : aget (program_of (Or b al)) (1 + 3 + bsize b) = Some BRANCH) by (by destruct al; destruct Hc).
  by rewrite E.
Qed.

Lemma optimise_shortcuts s al flags : Forall (fun c => c <> 0) s -> awf al -> asize al < 32768 ->
  exists r, optimise (program_of al) flags = Some r /\ shortcuts (program_of al) s al r.
Proof.
  intros Hs Hwf Hsz. destruct al as [b|b al].
  - destruct (optimise_one b flags Hwf Hsz) as (r & E & Hp & Hst & Han & Hmu). exists r. split; [done|]. rewrite Hp in *.
    assert (Hnum : bnum b) by (by apply wf_num). pose proof (program_code (One b) Hnum Hsz) as Hc.
    assert (Hstep : forall i j, 0 <= i <= alen s -> malts (lit_found s) s (One b) i j ->
      exists q i', step (program_of (One b)) s 4 i q i' \/ node (program_of (One b)) 4 END).
    { intros i j Hi M. apply (program_reaches _ s Hs (One b) Hwf Hc) in M; [|done]. destruct Hc as ((N1 & L1 & _) & He & _).
      apply reaches_inv in M as [[? _]|(q & i' & Hst1 & M)]; [op_clash|]. inversion Hst1; unfold lnk, node in *; try op_clash; simplify_eq.
      apply reaches_inv in M as [[? _]|(q & i1 & Hst2 & _)]; [exists 0, 0; by right|exists q, i1; by left]. }
    split; [done|done| | |].
    + intros Hne i j Hi M. destruct (Hst Hne) as [Hn4 H7]. destruct (Hstep i j Hi M) as (q & i' & [H|H]); [|op_clash].
      inversion H; unfold lnk, node in *; try op_clash; simplify_eq; change (OPERAND 4) with 7 in *; simplify_eq. by apply chr_inv.
    + intros Ha i j Hi M. specialize (Han Ha). destruct (Hstep i j Hi M) as (q & i' & [H|H]); [|op_clash].
      inversion H; unfold lnk, node in *; try op_clash; by simplify_eq.
    + intros q Hq. destruct (Hmu q Hq) as (w & Hin & Ho). exists w. split; [done|]. intros i j _ M. by eapply branch_lits_found.
  - rewrite optimise_or by done. eexists. split; [done|]. by split.
Qed.

(** ** Compiling and searching *)

(** The characters of C. *)
Notation chars s := (Forall (fun c => 0 < c < 256) s).

(** What [regcomp] makes of an expression that parses. *)
Lemma regcomp_parsed exp al : chars exp -> parse_regexp exp = Some (inr al) ->
  if asize al + 4 >=? 32767 then regcomp exp = Some (inl too_big)
  else exists flags, regcomp exp = (r ← optimise (program_of al) flags; Some (inr r)).
Proof.
  intros Hexp Hp. unfold parse_regexp in Hp. destruct (parse_reg (rounds exp) exp false (mkPst 0 1)) as [[[e|[no al']] q']|] eqn:E; simplify_eq.
  pose proof (pass_run exp false 0 0 _ _ ltac:(done) E) as [_ H1]. destruct H1 as [a1 H1]; [by intros ?|].
  unfold regcomp. change (mkComp 0 1 None 0 0) with (cs false 0 0 (mkPst 0 1) []). rewrite H1. cbn [mbind option_bind].
  change (regsize (cs false 0 0 q' (program_of al))) with (alen (program_of al)). rewrite alen_program.
  destruct (Z.geb_spec (asize al + 4) 32767); [done|]. exists (aflags al).
  pose proof (pass_run exp true (asize al + 4 + 1) (asize al + 4) _ _ ltac:(lia) E) as [_ H2].
  destruct H2 as [a2 H2]; [intros _; rewrite alen_program; lia|].
  change (mkComp 0 1 (Some []) (asize al + 4 + 1) (asize al + 4)) with (cs true (asize al + 4 + 1) (asize al + 4) (mkPst 0 1) []).
  rewrite H2. done.
Qed.

(** C9: [regcomp] refuses what the grammar refuses, with its error, and what is too long; the
    program of every other expression is the one laid out for its syntax. *)
Theorem regcomp_accepts exp : chars exp ->
  match parse_regexp exp with
  | None => False
  | Some (inl e) => regcomp exp = Some (inl e)
  | Some (inr al) =>
      if asize al + 4 >=? 32767 then regcomp exp = Some (inl too_big)
      else exists r, regcomp exp = Some (inr r) /\ program r = program_of al
  end.
Proof.
  intros Hexp. destruct (parse_regexp_total exp Hexp) as (r & E & Hwf). rewrite E. destruct r as [e|al].
  - unfold parse_regexp in E. destruct (parse_reg (rounds exp) exp false (mkPst 0 1)) as [[[e'|[no al']] q']|] eqn:Ep; simplify_eq.
    destruct (pass_run exp false 0 0 _ _ ltac:(done) Ep) as [c' H]; [done|]. unfold regcomp. change (mkComp 0 1 None 0 0) with (cs false 0 0 (mkPst 0 1) []).
    by rewrite H.
  - pose proof (regcomp_parsed exp al Hexp E) as H. destruct (Z.geb_spec (asize al + 4) 32767); [done|]. destruct H as [flags H].
    destruct (optimise_shortcuts [] al flags) as (r & Er & Hsc); [done|done|lia|]. rewrite H, Er. exists r. split; [done|]. by destruct Hsc.
Qed.

Lemma regex_leftmost exp s al : chars exp -> Forall (fun c => c <> 0) s -> parse_regexp exp = Some (inr al) -> asize al + 4 < 32767 ->
  exists r, regcomp exp = Some (inr r) /\
    (s <> [] \/ regstart r = 0 -> exists N, forall n, (N <= n)%nat -> exists res, regexec n r s = Some res /\ leftmost_in s (malts (lit_found s) s al) res).
Proof.
  intros Hexp Hs Hp Hsz. destruct (parse_regexp_total exp Hexp) as (x & E & Hwf). rewrite Hp in E. injection E as <-.
  pose proof (regcomp_parsed exp al Hexp Hp) as H. destruct (Z.geb_spec (asize al + 4) 32767); [lia|]. destruct H as [flags H].
  destruct (optimise_shortcuts s al flags Hs Hwf ltac:(lia)) as (r & Er & Hsc). rewrite H, Er. exists r. split; [done|].
  intros Hne. apply (regexec_leftmost (program_of al) s Hs al Hwf); [|done|done]. apply program_code; [by apply wf_num|lia].
Qed.

(** ** The literal test *)

(** Every literal of an expression. *)
Fixpoint plits (p : piece) : list (list Z) :=
  match p with Lit w => [w] | Group _ al => alits al | Star p | Plus p | Opt p => plits p | _ => [] end
with alits (al : alts) : list (list Z) := match al with One b => blits b | Or b al => blits b ++ alits al end
with blits (b : branch) : list (list Z) := match b with Empty => [] | Last p => plits p | Cat p b => plits p ++ blits b end.

Lemma rtc_weaken (P P' : Z -> Z -> Prop) i j : (forall i j, P i j -> P' i j) -> rtc P i j -> rtc P' i j.
Proof. intros H. induction 1 as [|i k j H1 _ IH]; [constructor|]. econstructor; [by apply H|done]. Qed.

Section weaken.
Context (L L' : Z -> list Z -> Prop) (s : list Z).
Notation weaker ws := (forall i w, w ∈ ws -> L i w -> L' i w).

(** A weaker test of the literals allows more matches. *)
Lemma match_weaken :
  (forall p, weaker (plits p) -> forall i j, mpiece L s p i j -> mpiece L' s p i j) /\
  (forall al, weaker (alits al) -> forall i j, malts L s al i j -> malts L' s al i j) /\
  (forall b, weaker (blits b) -> forall i j, mbranch L s b i j -> mbranch L' s b i j).
Proof.
  apply re_ind; cbn [plits alits blits mpiece malts mbranch]; try done; try (intros ? IH; exact IH); try (intros ? ? IH; exact IH).
  - intros w Hw i j [H ->]. split; [|done]. apply Hw; [by left|done].
  - intros p IH Hw i j. apply rtc_weaken. by apply IH.
  - intros p IH Hw i j (k & H1 & H2). exists k. split; [by apply IH|]. revert H2. apply rtc_weaken. by apply IH.
  - intros p IH Hw i j [->|H]; [by left|right; by apply IH].
  - intros b IHb al IHa Hw i j [H|H]; [left; apply IHb|right; apply IHa]; auto; intros; apply Hw; auto; apply elem_of_app; auto.
  - intros p IHp b IHb Hw i j (k & H1 & H2). exists k. split; [apply IHp|apply IHb]; auto; intros; apply Hw; auto; apply elem_of_app; auto.
Qed.
End weaken.

Lemma wf_lits : (forall p, pwf p -> Forall (fun w => w <> []) (plits p)) /\ (forall al, awf al -> Forall (fun w => w <> []) (alits al)) /\
  (forall b, bwf b -> Forall (fun w => w <> []) (blits b)).
Proof. apply re_ind; cbn; intros; rewrite ?Forall_app; intuition; repeat constructor; tauto. Qed.

Lemma lit_here_found s i w : w <> [] -> lit_here s i w -> lit_found s i w.
Proof.
  intros Hw [Hi H]. destruct w as [|c w]; [done|]. assert (Hc : rest s i !! 0%nat = Some c).
  { rewrite <- (take_drop (length (c :: w)) (rest s i)), H. done. }
  split; [done|]. split.
  - exists c. split; [|done]. unfold rest in Hc. rewrite lookup_drop, Nat.add_0_r in Hc. unfold aget. by rewrite decide_True.
  - destruct (rest s i) as [|d t]; [done|]. cbn in Hc. injection Hc as ->. cbn [strstr]. unfold starts. rewrite !bool_decide_eq_true_2 by done. done.
Qed.

(** A literal of one character is found only where it is. *)
Lemma lit_found_here s i w : alen w = 1 -> lit_found s i w -> lit_here s i w.
Proof.
  intros Hw H. destruct w as [|c [|d w]]; [done| |unfold alen in Hw; cbn [length] in Hw; lia]. apply lit_found_1 in H. pose proof (aget_Some_bound _ _ _ H).
  split; [lia|]. unfold rest. unfold aget in H. rewrite decide_True in H by lia. by rewrite (drop_S _ _ _ H).
Qed.

(** A match in the sense of a textbook is one for [regexec]. *)
Lemma textbook_found s al i j : awf al -> malts (lit_here s) s al i j -> malts (lit_found s) s al i j.
Proof.
  intros Hwf. apply match_weaken. intros i' w Hin. apply lit_here_found. apply wf_lits in Hwf. by apply (Forall_forall (fun w => w <> [])) with (x := w) in Hwf.
Qed.

Lemma singles_exact s al i j : Forall (fun w => alen w = 1) (alits al) -> malts (lit_found s) s al i j -> malts (lit_here s) s al i j.
Proof. intros Hw. apply match_weaken. intros i' w Hin. apply lit_found_here. by apply (Forall_forall (fun w => alen w = 1)) with (x := w) in Hw. Qed.

(** C8: [regexec] ends and reports the leftmost match of the expression, where a literal is found
    when its first character is at hand and the whole of it anywhere behind. *)
Theorem regexec_finds exp s al : chars exp -> Forall (fun c => c <> 0) s -> parse_regexp exp = Some (inr al) -> asize al + 4 < 32767 ->
  exists r, regcomp exp = Some (inr r) /\
    (s <> [] \/ regstart r = 0 -> exists N, forall n, (N <= n)%nat ->
       exists res, regexec n r s = Some res /\ leftmost_in s (malts (lit_found s) s al) res).
Proof. apply regex_leftmost. Qed.

(** A string in which the expression matches, in the sense of a textbook, is never missed. *)
Theorem regexec_never_misses exp s al i j : chars exp -> Forall (fun c => c <> 0) s -> s <> [] -> parse_regexp exp = Some (inr al) -> asize al + 4 < 32767 ->
  0 <= i <= alen s -> malts (lit_here s) s al i j ->
  exists r, regcomp exp = Some (inr r) /\ exists N, forall n, (N <= n)%nat -> exists e i' j', regexec n r s = Some (Some e) /\ spans e i' j' /\ i' <= i.
Proof.
  intros Hexp Hs Hne Hp Hsz Hi M. destruct (regex_leftmost exp s al Hexp Hs Hp Hsz) as (r & Er & H). exists r. split; [done|]. destruct H as [N H]; [by left|].
  exists N. intros n Hn. destruct (H n Hn) as (res & E & Hl). destruct (parse_regexp_total exp Hexp) as (x & Ex & Hwf). rewrite Hp in Ex. injection Ex as <-.
  apply textbook_found in M; [|done]. destruct res as [e|]; [|by destruct (Hl i j)]. destruct Hl as (i' & j' & Hsp & _ & _ & Hmin). exists e, i', j'.
  split; [done|]. split; [done|]. apply (Hmin i j); [lia|done].
Qed.

(** C10: With literals of one character, what is reported is the leftmost match of a textbook. *)
Theorem regexec_exact exp s al : chars exp -> Forall (fun c => c <> 0) s -> s <> [] -> parse_regexp exp = Some (inr al) -> asize al + 4 < 32767 ->
  Forall (fun w => alen w = 1) (alits al) ->
  exists r, regcomp exp = Some (inr r) /\ exists N, forall n, (N <= n)%nat ->
    exists res, regexec n r s = Some res /\ leftmost_in s (malts (lit_here s) s al) res.
Proof.
  intros Hexp Hs Hne Hp Hsz H1. destruct (regex_leftmost exp s al Hexp Hs Hp Hsz) as (r & Er & H). exists r. split; [done|]. destruct H as [N H]; [by left|].
  exists N. intros n Hn. destruct (H n Hn) as (res & E & Hl). exists res. split; [done|].
  destruct (parse_regexp_total exp Hexp) as (x & Ex & Hwf). rewrite Hp in Ex. injection Ex as <-. destruct res as [e|].
  - destruct Hl as (i & j & Hsp & M & Hi & Hmin). exists i, j. split; [done|]. split; [by apply singles_exact|]. split; [done|].
    intros i' j' Hi' M'. apply (Hmin i' j'); [done|]. by apply textbook_found.
  - intros i j Hi M. apply (Hl i j Hi). by apply textbook_found.
Qed.

(** ** Examples *)

(** (ab|c)+d *)
Definition re_group : list Z := [40; 97; 98; 124; 99; 41; 43; 100].
Definition re_group_al : alts :=
  One (Cat (Plus (Group 1 (Or (Last (Lit [97; 98])) (One (Last (Lit [99])))))) (Last (Lit [100]))).
(** xxcabcd *)
Definition str_group : list Z := [120; 120; 99; 97; 98; 99; 100].

Ltac all_chars := repeat (constructor; [lia|]); constructor.

Lemma regcomp_accepts_witness : chars re_group /\
  match parse_regexp re_group with
  | None => False
  | Some (inl e) => regcomp re_group = Some (inl e)
  | Some (inr al) =>
      if asize al + 4 >=? 32767 then regcomp re_group = Some (inl too_big)
      else exists r, regcomp re_group = Some (inr r) /\ program r = program_of al
  end.
Proof. split; [all_chars|]. apply (regcomp_accepts re_group). all_chars. Defined.

Lemma regexec_finds_witness : exists r, regcomp re_group = Some (inr r) /\
  exists N, forall n, (N <= n)%nat -> exists res, regexec n r str_group = Some res /\ leftmost_in str_group (malts (lit_found str_group) str_group re_group_al) res.
Proof.
  destruct (regexec_finds re_group str_group re_group_al) as (r & E & H); [all_chars|all_chars|vm_compute; reflexivity|vm_compute; reflexivity|].
  exists r. split; [exact E|]. apply H. left. discriminate.
Defined.

(** The match is reported from 2 to 7. *)
Example regexec_group : exists r e, regcomp re_group = Some (inr r) /\ regexec 60 r str_group = Some (Some e) /\ spans e 2 7.
Proof. eexists _, _. split; [vm_compute; reflexivity|]. split; [vm_compute; reflexivity|]. by split. Qed.

(** a[b-d]*$ *)
Definition re_class : list Z := [97; 91; 98; 45; 100; 93; 42; 36].
Definition re_class_al : alts := One (Cat (Lit [97]) (Cat (Star (Bracket false [98; 99; 100])) (Last Eol))).

Lemma regexec_exact_witness : exists r, regcomp re_class = Some (inr r) /\
  exists N, forall n, (N <= n)%nat -> exists res, regexec n r [97; 120; 97; 99] = Some res /\
    leftmost_in [97; 120; 97; 99] (malts (lit_here [97; 120; 97; 99]) [97; 120; 97; 99] re_class_al) res.
Proof.
  apply (regexec_exact re_class [97; 120; 97; 99] re_class_al);
    [all_chars|all_chars|discriminate|vm_compute; reflexivity|vm_compute; reflexivity|repeat constructor].
Defined.

Lemma regexec_never_misses_witness : exists r, regcomp re_class = Some (inr r) /\
  exists N, forall n, (N <= n)%nat -> exists e i' j', regexec n r [97; 120; 97; 99] = Some (Some e) /\ spans e i' j' /\ i' <= 2.
Proof.
  apply (regexec_never_misses re_class [97; 120; 97; 99] re_class_al 2 4);
    [all_chars|all_chars|discriminate|vm_compute; reflexivity|vm_compute; reflexivity|split; vm_compute; discriminate|].
  exists 3. split; [repeat split; vm_compute; discriminate|]. exists 4. split; [|repeat split].
  apply rtc_once. split; [|reflexivity]. exists 99. split; reflexivity.
Defined.

(** ^ab is reported in aXab, where it does not match: the literal need only begin at hand. *)
Theorem exactly_matches_apart : exists r e, regcomp [94; 97; 98] = Some (inr r) /\ regexec 20 r [97; 88; 97; 98] = Some (Some e) /\ spans e 0 2 /\
  parse_regexp [94; 97; 98] = Some (inr (One (Cat Bol (Last (Lit [97; 98]))))) /\
  forall i j, ~ malts (lit_here [97; 88; 97; 98]) [97; 88; 97; 98] (One (Cat Bol (Last (Lit [97; 98])))) i j.
Proof.
  eexists _, _. split; [vm_compute; reflexivity|]. split; [vm_compute; reflexivity|]. split; [by split|]. split; [vm_compute; reflexivity|].
  intros i j (k & [-> ->] & [[_ H] _]). discriminate H.
Qed.

(** An expression that begins with a literal leads behind the 0 of an empty string. *)
Theorem regexec_empty_undefined : exists r, regcomp [97] = Some (inr r) /\ forall n, regexec n r [] = None.
Proof. eexists. split; [vm_compute; reflexivity|]. intros n. by destruct n as [|[|[|n]]]. Qed.
