(* ===== verification/RegSub.v ===== *)
(** * lib/regex/regsub.c: the replacement of a match

    [source] is expanded into [dest], whose words the result lists; [startp] and [endp]
    are those [regexec] left, indices into the string. *)
From S2P Require Import Prelude Regexp RegSyntax RegMatch.

Definition isdigit (c : Z) : bool := (0 <=? c - 48) && (c - 48 <? 10).

Section regsub.
Context (s : list Z) (startp endp : list (option Z)).

(** strncpy of the match, which must lie in the string. *)
Definition sub_match (no : Z) : option (list Z) :=
  st ← aget startp no; en ← aget endp no;
  match (st : option Z), (en : option Z) with
  | Some i, Some j =>
      if j >? i then if (0 <=? i) && (j <=? alen s) then Some (take (Z.to_nat (j - i)) (rest s i)) else None
      else Some []
  | _, _ => Some []
  end.

Fixpoint sub_loop (src : list Z) : option (list Z) :=
  match src with
  | [] => Some [0]
  | c :: src' =>
      if c =? 38 then w ← sub_match 0; d ← sub_loop src'; Some (w ++ d)
      else
        match src' with
        | n :: src'' =>
            if (c =? 92) && isdigit n then w ← sub_match (n - 48); d ← sub_loop src''; Some (w ++ d)
            else if (c =? 92) && ((n =? 92) || (n =? 38)) then d ← sub_loop src''; Some (n :: d)
            else d ← sub_loop src'; Some (c :: d)
        | [] => d ← sub_loop src'; Some (c :: d)
        end
  end.

Definition regsub (r : regexp) (source : list Z) : option (list Z) :=
  magic ← aget (program r) 0; if negb (magic =? MAGIC) then Some [] else sub_loop source.

(** ** What it promises *)

(** A text with & and the backslash quoted. *)
Definition quote (t : list Z) : list Z := concat (map (fun c => if (c =? 38) || (c =? 92) then [92; c] else [c]) t).

(** It is copied as it is, whatever matched. *)
Lemma regsub_quote t : sub_loop (quote t) = Some (t ++ [0]).
Proof.
  induction t as [|c t IH]; [done|]. unfold quote in *. cbn [map concat]. destruct (Z.eqb_spec c 38) as [->|H1]; cbn [orb app].
  { cbn [sub_loop]. change (92 =? 38) with false. change ((92 =? 92) && isdigit 38) with false. change ((92 =? 92) && ((38 =? 92) || (38 =? 38))) with true. cbv iota. by rewrite IH. }
  destruct (Z.eqb_spec c 92) as [->|H2]; cbn [app].
  { cbn [sub_loop]. change (92 =? 38) with false. change ((92 =? 92) && isdigit 92) with false. change ((92 =? 92) && ((92 =? 92) || (92 =? 38))) with true. cbv iota. by rewrite IH. }
  cbn [sub_loop]. rewrite (proj2 (Z.eqb_neq c 38)), (proj2 (Z.eqb_neq c 92)) by done. cbn [andb]. destruct (concat _) as [|n t'] eqn:E; rewrite IH; done.
Qed.

(** & stands for the match that [regexec] reported. *)
Lemma regsub_amp i j t : aget startp 0 = Some (Some i) -> aget endp 0 = Some (Some j) -> 0 <= i <= j -> j <= alen s ->
  sub_loop (38 :: quote t) = Some (take (Z.to_nat (j - i)) (rest s i) ++ t ++ [0]).
Proof.
  intros H1 H2 Hi Hj. cbn [sub_loop]. change (38 =? 38) with true. cbv iota. unfold sub_match. rewrite H1, H2. cbn [mbind option_bind].
  rewrite regsub_quote. destruct (Z.gtb_spec j i).
  - rewrite !(proj2 (Z.leb_le _ _)) by lia. done.
  - replace j with i by lia. by rewrite Z.sub_diag.
Qed.
End regsub.
