(* ===== verification/Grep.v ===== *)
(** * user/commands/grep.c: the lines of a file in which an expression matches

    The lines come from [Ustdio], the matching is [regcomp] and [regexec].  What is
    printed is a list; opening a file is an argument that yields what its reads will. *)
From S2P Require Import Prelude Ustdio Regexp RegSyntax RegMatch RegSearch RegParse RegCode RegComp RegFind.

Definition MAXLINE : Z := 100.
Definition EXIT_FAILURE : Z := 1.

(** A line of the output, with the name of the file and the number of the line where they are asked
    for, and the three complaints. *)
Inductive output :=
  | printed_line (name : option (list Z)) (no : option Z) (text : list Z)
  | line_too_long (name : option (list Z))
  | cant_open (name : list Z)
  | usage.

(** The static variables; [stdout] is what was printed. *)
Record gstate := mkG { stdin : FILE; stdout : list output; status : Z }.
#[export] Instance eta_gstate : Settable gstate := mkEta (fun g => mkG (stdin g) (stdout g) (status g)).
Record gflags := mkFlags { pmflag : bool; pnmflag : bool; nflag : Z; args : Z }.
#[export] Instance eta_gflags : Settable gflags := mkEta (fun g => mkFlags (pmflag g) (pnmflag g) (nflag g) (args g)).

Definition report (o : output) : ST gstate unit := modifyS (fun g => g <| stdout ::= fun l => l ++ [o] |>).

(** index(buf, c) on the string of a buffer. *)
Fixpoint index (s : list Z) (c : Z) : option Z :=
  match s with
  | [] => None
  | x :: s' => if x =? c then Some 0 else i ← index s' c; Some (1 + i)
  end.

Section grep.
Context (fresh : list Z) (fuel : nat) (fl : gflags).

Definition pline (name : option (list Z)) (lineno : Z) (buf : list Z) : ST gstate unit :=
  s ← liftO (cstring buf);
  report (printed_line (if args fl >? 3 then name else None) (if negb (nflag fl =? 0) then Some lineno else None) s).

(** The body of match(); [rounds] bounds the lines. *)
Fixpoint match_loop (rounds : nat) (name : option (list Z)) (exp : regexp) (buf : list Z) (lineno : Z) : ST gstate unit :=
  match rounds with
  | O => crash
  | S rounds' =>
      x ← zoom stdin (fun f g => g <| stdin := f |>) (getline fresh buf MAXLINE);
      let '(lineret, buf) := (x : Z * list Z) in
      if lineret =? -1 then mret tt
      else
        s ← liftO (cstring buf);
        let lineno := lineno + 1 in
        buf ← (match index s 10 with
               | None => _ ← report (line_too_long name); mret buf
               | Some cr => liftO (aset buf cr 0)
               end);
        s ← liftO (cstring buf);
        ret ← liftO (regexec fuel exp s);
        _ ← (match (ret : option (list (option Z) * list (option Z))) with
             | Some _ =>
                 _ ← (if pmflag fl then pline name lineno buf else mret tt);
                 modifyS (fun g => if status g =? 2 then g else g <| status := 0 |>)
             | None => if pnmflag fl then pline name lineno buf else mret tt
             end);
        match_loop rounds' name exp buf lineno
  end.
Definition match_ (rounds : nat) (name : option (list Z)) (exp : regexp) (buf : list Z) : ST gstate unit := match_loop rounds name exp buf 0.

(** The files on the command line; standard input is opened anew for each, the FILE stays. *)
Fixpoint match_files (rounds : nat) (open : list Z -> option (list (list Z))) (argp : list (list Z)) (exp : regexp) (buf : list Z) : ST gstate unit :=
  match argp with
  | [] => mret tt
  | name :: argp' =>
      _ ← (if bool_decide (name = [45]) then match_ rounds (Some name) exp buf
           else match open name with
                | None =>
                    _ ← modifyS (fun g => g <| stdin ::= fun f => f <| reads := [] |> |>);
                    _ ← report (cant_open name); modifyS (fun g => g <| status := 2 |>)
                | Some chunks =>
                    _ ← modifyS (fun g => g <| stdin ::= fun f => f <| reads := chunks |> |>);
                    match_ rounds (Some name) exp buf
                end);
      match_files rounds open argp' exp buf
  end.
End grep.

(** The flags and what is behind them; [None] is usage(). *)
Fixpoint grep_flags (argp : list (list Z)) (fl : gflags) : option (gflags * list (list Z)) :=
  match argp with
  | [] => None
  | a :: rest =>
      if bool_decide (head a = Some 45) then
        let fl := fl <| args ::= Z.pred |> in
        match chr a 1 with
        | Some 118 => grep_flags rest (fl <| pmflag := false |> <| pnmflag := true |>)
        | Some 110 => grep_flags rest (fl <| nflag ::= Z.succ |>)
        | Some 115 => grep_flags rest (fl <| pmflag := false |> <| pnmflag := false |>)
        | Some 101 => match rest with [] => None | _ => Some (fl, rest) end
        | _ => None
        end
      else Some (fl, argp)
  end.

(** The exit status; an expression that [regcomp] refuses ends the program in [regerror]. *)
Definition grep_main (fresh : list Z) (fuel rounds : nat) (open : list Z -> option (list (list Z))) (argc : Z) (argv : list (list Z)) (buf : list Z) : ST gstate Z :=
  match grep_flags argv (mkFlags true false 0 argc) with
  | Some (fl, e :: argp) =>
      c ← liftO (regcomp e);
      match (c : regerr + regexp) with
      | inl _ => mret EXIT_FAILURE
      | inr exp =>
          _ ← (match argp with [] => match_ fresh fuel fl rounds None exp buf | _ => match_files fresh fuel fl rounds open argp exp buf end);
          gets status
      end
  | _ => _ ← report usage; mret 2
  end.

(** ** What is printed *)

(** The expression matches somewhere in the line, as [regexec] takes its literals. *)
Definition selected (al : alts) (w : list Z) : Prop := exists i j, 0 <= i <= alen w /\ malts (lit_found w) w al i j.

(** The lines of a text as they are read, each with whether its new line was met: a line
    of 99 characters or more comes in pieces of 99.  What follows the last of them is the
    second result.  [acc] is the piece begun before the text. *)
Fixpoint cut (acc : list Z) (t : list Z) : list (list Z * bool) * list Z :=
  match t with
  | [] => ([], acc)
  | c :: t' =>
      if c =? 10 then let '(ps, last) := cut [] t' in ((acc, true) :: ps, last)
      else if alen acc =? 98 then let '(ps, last) := cut [] t' in ((acc ++ [c], false) :: ps, last)
      else cut (acc ++ [c]) t'
  end.
Definition lines_read (t : list Z) : list (list Z * bool) := fst (cut [] t).

(** What is printed for the lines from number [no] on, each with whether it was selected: a
    piece without a new line is complained about first. *)
Fixpoint expected (fl : gflags) (name : option (list Z)) (no : Z) (ls : list ((list Z * bool) * bool)) : list output :=
  match ls with
  | [] => []
  | ((w, whole), b) :: ls' =>
      (if (whole : bool) then [] else [line_too_long name]) ++
      (if if (b : bool) then pmflag fl else pnmflag fl
       then [printed_line (if args fl >? 3 then name else None) (if negb (nflag fl =? 0) then Some (no + 1) else None) w] else []) ++
      expected fl name (no + 1) ls'
  end.

Definition text_of (ps : list (list Z * bool)) : list Z := concat (map (fun p => fst p ++ if snd p : bool then [10] else []) ps).

(** A line that fits the buffer, and a piece that fills it. *)
Definition good_line (w : list Z) : Prop := Forall (fun c => 0 < c /\ c <> 10) w /\ alen w < 99.
Definition good_piece (p : list Z * bool) : Prop :=
  Forall (fun c => 0 < c /\ c <> 10) (fst p) /\ if snd p : bool then alen (fst p) < 99 else alen (fst p) = 99.

Lemma cut_spec t : forall acc, Forall (fun c => 0 < c) t -> good_line acc ->
  acc ++ t = text_of (fst (cut acc t)) ++ snd (cut acc t) /\ Forall good_piece (fst (cut acc t)) /\ good_line (snd (cut acc t)).
Proof.
  induction t as [|c t IH]; intros acc Ht Ha; cbn [cut].
  - rewrite app_nil_r. by split_and!.
  - apply Forall_cons in Ht as [Hc Ht]. assert (Hnil : good_line []) by (split; [constructor|done]). pose proof Ha as [Ha1 Ha2].
    assert (Hal : alen (acc ++ [c]) = alen acc + 1) by (unfold alen; rewrite length_app; cbn; lia).
    destruct (Z.eqb_spec c 10) as [->|Hne].
    + destruct (IH [] Ht Hnil) as (E & Hp & Hl). destruct (cut [] t) as [ps last]. cbn [fst snd] in *. split_and!; [|by constructor|done].
      cbn [app] in E. rewrite E. unfold text_of. cbn [map concat fst snd]. by rewrite <- !app_assoc.
    + assert (Hac : Forall (fun c => 0 < c /\ c <> 10) (acc ++ [c])) by (apply Forall_app; split; [done|by repeat constructor]).
      destruct (Z.eqb_spec (alen acc) 98) as [Hf|Hf].
      * destruct (IH [] Ht Hnil) as (E & Hp & Hl). destruct (cut [] t) as [ps last]. cbn [fst snd] in *.
        split_and!; [|constructor; [split; [done|cbn; lia]|done]|done].
        cbn [app] in E. rewrite E. unfold text_of. cbn [map concat fst snd]. by rewrite app_nil_r, <- !app_assoc.
      * destruct (IH (acc ++ [c]) Ht) as (E & Hp & Hl); [split; [done|lia]|]. by rewrite <- E, <- app_assoc.
Qed.

Lemma lines_read_spec t : Forall (fun c => 0 < c) t ->
  exists last, t = text_of (lines_read t) ++ last /\ Forall good_piece (lines_read t) /\ good_line last.
Proof. intros Ht. exists (snd (cut [] t)). apply (cut_spec t [] Ht). split; [constructor|done]. Qed.

(** The status when lines were selected. *)
Definition status_after (bs : list bool) (st : Z) : Z := if existsb id bs then (if st =? 2 then 2 else 0) else st.

Lemma index_end w c : c ∉ w -> index (w ++ [c]) c = Some (alen w).
Proof.
  induction w as [|x w IH]; cbn [app index].
  - intros _. by rewrite Z.eqb_refl.
  - intros [Hx Hw]%not_elem_of_cons. rewrite (proj2 (Z.eqb_neq x c)) by done. rewrite IH by done. cbn. f_equal. unfold alen. cbn [length]. lia.
Qed.

Lemma index_none w c : c ∉ w -> index w c = None.
Proof.
  induction w as [|x w IH]; cbn [index]; [done|]. intros [Hx Hw]%not_elem_of_cons. rewrite (proj2 (Z.eqb_neq x c)) by done. by rewrite IH.
Qed.

Lemma str_cut buf w c : Forall (fun c => c <> 0) w -> c <> 0 -> str_at buf 0 (w ++ [c]) -> exists buf', aset buf (alen w) 0 = Some buf' /\ str_at buf' 0 w /\ alen buf' = alen buf.
Proof.
  intros Hw Hc H.
  assert (Hat : forall w p, str_at buf p (w ++ [c]) -> aget buf (p + alen w) = Some c /\ (forall j, 0 <= j < alen w -> aget buf (p + j) = aget w j)).
  { clear. induction w as [|x w IH]; cbn [app str_at]; intros p.
    - intros [H _]. change (alen []) with 0. rewrite Z.add_0_r. split; [done|lia].
    - intros [H1 H2]. destruct (IH _ H2) as [H3 H4]. assert (Hl : alen (x :: w) = 1 + alen w) by (unfold alen; cbn [length]; lia). rewrite Hl, Z.add_assoc.
      split; [done|]. intros j Hj. destruct (decide (j = 0)) as [->|]; [by rewrite Z.add_0_r, H1|]. replace (p + j) with (p + 1 + (j - 1)) by lia. rewrite H4 by lia.
      unfold aget. rewrite !decide_True by lia. by replace (Z.to_nat j) with (S (Z.to_nat (j - 1))) by lia. }
  destruct (Hat w 0 H) as [H1 H2]. rewrite Z.add_0_l in H1. pose proof (aget_Some_bound _ _ _ H1) as Hb. rewrite aset_in by done. eexists. split; [done|].
  split; [|by rewrite alen_insert]. apply str_at_intro. intros j Hj. rewrite Z.add_0_l, aget_insert by lia. case_decide as E.
  - subst j. unfold aget, alen. rewrite decide_True by lia. rewrite lookup_app_r by lia. by replace (Z.to_nat _ - length w)%nat with 0%nat by lia.
  - rewrite <- (Z.add_0_l j), H2 by lia. rewrite Z.add_0_l. symmetry. destruct (aget_in w j) as [v Hv]; [lia|]. rewrite Hv. by apply aget_app_l.
Qed.

Lemma str_cstring buf w : Forall (fun c => c <> 0) w -> str_at buf 0 w -> cstring buf = Some w.
Proof. intros Hw H. by apply (str_at_operand buf w 0) in H. Qed.

Section prints.
Context (fresh : list Z) (Hfresh : alen fresh = BUFFER_SIZ) (fl : gflags) (name : option (list Z)).
Context (e : list Z) (al : alts) (r : regexp) (He : Forall (fun c => 0 < c < 256) e) (Hal : parse_regexp e = Some (inr al)) (Hsz : asize al + 4 < 32767) (Hr : regcomp e = Some (inr r)).

(** [regexec] with this fuel decides whether the line is selected. *)
Definition decided (fuel : nat) (w : list Z) : Prop := exists res, regexec fuel r w = Some res /\ (is_Some res <-> selected al w).

Lemma decided_enough w : Forall (fun c => 0 < c /\ c <> 10) w -> w <> [] \/ regstart r = 0 -> exists N, forall fuel, (N <= fuel)%nat -> decided fuel w.
Proof.
  intros Hw Hne. destruct (regex_leftmost e w al He) as (r' & Er & H); [|done|done|].
  { eapply Forall_impl; [exact Hw|]. cbn. lia. }
  rewrite Hr in Er. injection Er as <-. destruct (H Hne) as [N HN]. exists N. intros fuel Hf. destruct (HN fuel Hf) as (res & E & Hl). exists res. split; [done|].
  destruct res as [x|]; cbn in Hl.
  - split; [|by eexists]. intros _. destruct Hl as (i & j & _ & M & Hi & _). by exists i, j.
  - split; [by intros [? ?]|]. intros (i & j & Hi & M). by destruct (Hl i j).
Qed.

Lemma decided_all ps : Forall good_piece ps -> regstart r = 0 \/ Forall (fun p => fst p <> []) ps ->
  exists N, forall fuel, (N <= fuel)%nat -> Forall (fun p => decided fuel (fst p)) ps.
Proof.
  intros Hg Hne. induction Hg as [|p ps [Hw _] Hg IH]; [exists 0%nat; constructor|].
  destruct IH as [N1 H1]; [destruct Hne as [|[_ ?]%Forall_cons]; auto|].
  destruct (decided_enough (fst p) Hw) as [N2 H2]; [destruct Hne as [|[? _]%Forall_cons]; auto|].
  exists (N1 + N2)%nat. intros fuel Hf. constructor; [apply H2; lia|apply H1; lia].
Qed.

(** What [getline] and the end of the string make of a piece. *)
Lemma piece_read w whole t f buf : stream f -> remaining f = (w ++ if whole : bool then [10] else []) ++ t -> good_piece (w, whole) -> alen buf = MAXLINE ->
  exists n buf1 f1 s, getline fresh buf MAXLINE f = Some ((n, buf1), f1) /\ n <> -1 /\ cstring buf1 = Some s /\ stream f1 /\ remaining f1 = t /\
    match index s 10 with
    | None => whole = false /\ s = w /\ alen buf1 = MAXLINE
    | Some cr => whole = true /\ exists buf2, aset buf1 cr 0 = Some buf2 /\ cstring buf2 = Some w /\ alen buf2 = MAXLINE
    end.
Proof.
  intros Hst Hrem [Hw Hlen] Hbuf. cbn [fst snd] in *. pose proof (alen_nonneg w) as Hwl.
  assert (Hw0 : Forall (fun c => c <> 0) w) by (eapply Forall_impl; [exact Hw|]; cbn; lia).
  assert (Hw1 : Forall (fun c => 0 <= c /\ c <> 10) w) by (eapply Forall_impl; [exact Hw|]; cbn; lia).
  assert (Hnin : 10 ∉ w) by (intros Hin; rewrite Forall_forall in Hw; by destruct (Hw _ Hin)).
  destruct whole.
  - destruct (getline_reads fresh Hfresh f buf MAXLINE w t Hst Hbuf Hw1 Hlen) as [H _]. rewrite <- app_assoc in Hrem.
    destruct (H Hrem) as (buf1 & f1 & E1 & Hs1 & Hl1 & Hst1 & Hr1). destruct (str_cut buf1 w 10 Hw0 ltac:(done) Hs1) as (buf2 & E2 & Hs2 & Hl2).
    exists (alen w + 1), buf1, f1, (w ++ [10]). rewrite index_end by done. split_and!; [done|lia| |done|done|done|].
    + apply str_cstring; [|done]. apply Forall_app. by repeat constructor.
    + exists buf2. split_and!; [done|by apply str_cstring|lia].
  - rewrite app_nil_r in Hrem. destruct (getline_fills fresh Hfresh f buf MAXLINE w t Hst Hbuf Hw1) as (buf1 & f1 & E1 & Hs1 & Hl1 & Hst1 & Hr1);
      [unfold MAXLINE; lia|intros ->; cbv in Hlen; discriminate|done|].
    exists (MAXLINE - 1), buf1, f1, w. rewrite index_none by done. split_and!; [done|done|by apply str_cstring|done|done|done|done|done].
Qed.

(** One round of the loop, on a piece. *)
Lemma match_piece fuel rounds f out st buf no w whole t :
  stream f -> remaining f = (w ++ if whole : bool then [10] else []) ++ t -> good_piece (w, whole) -> decided fuel w -> alen buf = MAXLINE ->
  exists b f' buf', (b = true <-> selected al w) /\ stream f' /\ remaining f' = t /\ alen buf' = MAXLINE /\
    match_loop fresh fuel fl (S rounds) name r buf no (mkG f out st) =
    match_loop fresh fuel fl rounds name r buf' (no + 1) (mkG f' (out ++ expected fl name no [((w, whole), b)]) (status_after [b] st)).
Proof.
  intros Hst Hrem Hg (res & Eres & Hres) Hbuf.
  destruct (piece_read w whole t f buf Hst Hrem Hg Hbuf) as (n & buf1 & f1 & s & E1 & Hn & Es & Hst1 & Hr1 & Hi).
  assert (H2 : exists buf2, alen buf2 = MAXLINE /\ cstring buf2 = Some w /\ forall g,
    (match index s 10 with None => _ ← report (line_too_long name); mret buf1 | Some cr => liftO (aset buf1 cr 0) end) g =
    Some (buf2, g <| stdout := stdout g ++ if whole then [] else [line_too_long name] |>)).
  { destruct (index s 10) as [cr|].
    - destruct Hi as (-> & buf2 & E2 & Es2 & Hl2). exists buf2. split_and!; [done|done|]. intros g. rewrite E2, app_nil_r. by destruct g.
    - destruct Hi as (-> & -> & Hl). by exists buf1. }
  destruct H2 as (buf2 & Hl2 & Es2 & E2). exists (if res then true else false), f1, buf2.
  split; [rewrite <- Hres; destruct res; split; try done; intros [? ?]; done|]. split; [done|]. split; [done|]. split; [done|].
  cbn [match_loop]. set (g1 := mkG f1 out st). erewrite bind_run with (s' := g1); [|unfold zoom; cbn [stdin]; by rewrite E1]. cbv iota beta.
  rewrite (proj2 (Z.eqb_neq n (-1))) by done. rewrite (bind_run _ _ g1 s g1) by (unfold liftO; by rewrite Es). cbv zeta.
  rewrite (bind_run _ _ _ _ _ (E2 g1)). set (g2 := g1 <| stdout := _ |>).
  rewrite (bind_run _ _ g2 w g2) by (unfold liftO; by rewrite Es2). rewrite (bind_run _ _ g2 res g2) by (unfold liftO; by rewrite Eres).
  erewrite bind_run; [reflexivity|]. unfold expected, status_after, existsb, id, pline, g2, g1. unfold mbind, st_bind, liftO, report, modifyS.
  rewrite Es2. destruct res; cbn [orb]; destruct (pmflag fl), (pnmflag fl); unfold upd, setter; cbn; rewrite ?app_nil_r, <- ?app_assoc; try done;
    destruct (Z.eqb_spec st 2) as [->|]; done.
Qed.

Lemma status_after_cons b bs st : status_after bs (status_after [b] st) = status_after (b :: bs) st.
Proof. unfold status_after. cbn [existsb]. unfold id. rewrite orb_false_r. destruct b, (existsb _ bs); cbn [orb]; try done; by destruct (Z.eqb_spec st 2). Qed.

Lemma match_pieces fuel ps last : Forall good_piece ps -> good_line last -> Forall (fun p => decided fuel (fst p)) ps -> forall rounds f out st buf no,
  stream f -> remaining f = text_of ps ++ last -> alen buf = MAXLINE -> (length ps < rounds)%nat ->
  exists bs f', match_loop fresh fuel fl rounds name r buf no (mkG f out st) =
      Some (tt, mkG f' (out ++ expected fl name no (zip ps bs)) (status_after bs st)) /\
    Forall2 (fun p b => b = true <-> selected al (fst p)) ps bs /\ at_eof f'.
Proof.
  intros Hg [Hlast Hll] Hd. induction Hd as [|[w whole] ps Hw Hd IH]; intros rounds f out st buf no Hst Hrem Hbuf Hk.
  - destruct rounds as [|rounds]; [cbn in Hk; lia|]. destruct (getline_end fresh Hfresh f buf MAXLINE last Hst Hrem Hbuf) as (buf' & f' & E & Hend);
      [eapply Forall_impl; [exact Hlast|]; cbn; lia|done|]. exists [], f'. split; [|split; [constructor|done]]. cbn [match_loop zip_with expected]. rewrite app_nil_r.
    erewrite bind_run with (s' := mkG f' out st); [|unfold zoom; cbn [stdin]; by rewrite E]. done.
  - destruct rounds as [|rounds]; [cbn in Hk; lia|]. apply Forall_cons in Hg as [Hgw Hg]. unfold text_of in Hrem. cbn [map concat fst snd] in Hrem. fold (text_of ps) in Hrem.
    destruct (match_piece fuel rounds f out st buf no w whole (text_of ps ++ last) Hst) as (b & f1 & buf1 & Hb & Hst1 & Hr1 & Hl1 & E1);
      [rewrite Hrem; by rewrite <- !app_assoc|done|done|done|]. rewrite E1.
    destruct (IH Hg rounds f1 (out ++ expected fl name no [((w, whole), b)]) (status_after [b] st) buf1 (no + 1) Hst1 Hr1 Hl1) as (bs & f' & E & Hbs & Hend); [cbn in Hk; lia|].
    exists (b :: bs), f'. split; [|split; [by constructor|done]]. rewrite E. cbn [zip_with expected]. rewrite status_after_cons, app_nil_r.
    destruct whole; by rewrite <- !app_assoc.
Qed.
End prints.


Lemma match_at_eof fresh fuel fl rounds name r buf f out st : at_eof f -> alen buf = MAXLINE -> (0 < rounds)%nat ->
  match_ fresh fuel fl rounds name r buf (mkG f out st) = Some (tt, mkG f out st).
Proof.
  intros He Hb Hk. destruct rounds as [|rounds]; [lia|]. unfold match_. cbn [match_loop]. destruct (getline_at_eof fresh f buf MAXLINE He) as [buf' E]; [done|done|].
  erewrite bind_run with (s' := mkG f out st); [|unfold zoom; cbn [stdin]; by rewrite E]. done.
Qed.

(** Of two files grep reads the first alone: standard input is at its end for the second. *)
Theorem grep_second_file fresh fl e al r n1 n2 open chunks1 :
  alen fresh = BUFFER_SIZ -> Forall (fun c => 0 < c < 256) e -> parse_regexp e = Some (inr al) -> asize al + 4 < 32767 -> regcomp e = Some (inr r) ->
  n1 <> [45] -> n2 <> [45] -> open n1 = Some chunks1 -> is_Some (open n2) -> Forall (fun c => c <> [] /\ alen c <= BUFFER_SIZ) chunks1 ->
  Forall (fun c => 0 < c) (concat chunks1) -> regstart r = 0 \/ Forall (fun p => fst p <> []) (lines_read (concat chunks1)) ->
  exists N, forall fuel rounds buf, (N <= fuel)%nat -> (length (lines_read (concat chunks1)) < rounds)%nat -> alen buf = MAXLINE ->
  exists bs g', match_files fresh fuel fl rounds open [n1; n2] r buf (mkG (mkFile 0 0 0 None None []) [] 1) = Some (tt, g') /\
    stdout g' = expected fl (Some n1) 0 (zip (lines_read (concat chunks1)) bs) /\
    Forall2 (fun p b => b = true <-> selected al (fst p)) (lines_read (concat chunks1)) bs.
Proof.
  intros Hfr He Hal Hsz Hr H1 H2 Ho1 [chunks2 Ho2] Hch Hpos Hne. set (ls := lines_read (concat chunks1)) in *.
  destruct (lines_read_spec _ Hpos) as (last & Htext & Hg & Hlast). fold ls in Htext, Hg.
  destruct (decided_all e al r He Hal Hsz Hr ls Hg Hne) as [N HN].
  exists N. intros fuel rounds buf Hf Hk Hbuf. set (f1 := mkFile 0 0 0 None None chunks1).
  assert (Hst : stream f1) by (split; [by left|done|done|done]).
  destruct (match_pieces fresh Hfr fl (Some n1) al r fuel ls last Hg Hlast (HN fuel Hf) rounds f1 [] 1 buf 0 Hst Htext Hbuf Hk) as (bs & f' & E & Hbs & Hend).
  set (g1 := mkG f' (expected fl (Some n1) 0 (zip ls bs)) (status_after bs 1)). set (g2 := mkG (f' <| reads := chunks2 |>) (expected fl (Some n1) 0 (zip ls bs)) (status_after bs 1)).
  exists bs, g2. split; [|done]. cbn [match_files]. rewrite !bool_decide_eq_false_2 by done. rewrite Ho1, Ho2.
  erewrite bind_run with (s' := g1); [|exact E]. erewrite bind_run with (s' := g2); [reflexivity|].
  by apply (match_at_eof fresh fuel fl rounds (Some n2) r buf (f' <| reads := chunks2 |>)); [| |lia].
Qed.

(** grep 'a[b-d]*$' on "xac", "b" and "ad" in two reads, the last without a new line. *)
Definition grep_file : FILE := mkFile 0 0 0 None None [[120; 97; 99; 10; 98]; [10; 97; 100]].
Definition re_class_prog : regexp := mkRegexp 97 false None 0
  (MAGIC :: aseg re_class_al ++ nd END 0).


(** A line of 100 characters is two. *)
Example long_line : lines_read (replicate 100 97 ++ [10; 98]) = [(replicate 99 97, false); ([97], true)].
Proof. vm_compute. reflexivity. Qed.

(** The whole program on that input. *)
Example grep_runs : exists g, grep_main (replicate 32 0) 60 9 (fun _ => None) 3 [[45; 110]; re_class] (replicate 100 0) (mkG grep_file [] 1) = Some (0, g) /\
  stdout g = [printed_line None (Some 1) [120; 97; 99]].
Proof. eexists. split; [vm_compute; reflexivity|reflexivity]. Qed.

(** Two files of one line each: the second is not looked at. *)
Lemma grep_second_file_witness : exists N, forall fuel rounds buf, (N <= fuel)%nat -> (1 < rounds)%nat -> alen buf = MAXLINE ->
  exists bs g', match_files (replicate 32 0) fuel (mkFlags true false 0 4) rounds (fun _ => Some [[97; 10]]) [[102]; [103]] re_class_prog buf
      (mkG (mkFile 0 0 0 None None []) [] 1) = Some (tt, g') /\
    stdout g' = expected (mkFlags true false 0 4) (Some [102]) 0 (zip [([97], true)] bs) /\
    Forall2 (fun p b => b = true <-> selected re_class_al (fst p)) [([97], true)] bs.
Proof.
  apply (grep_second_file (replicate 32 0) (mkFlags true false 0 4) re_class re_class_al re_class_prog [102] [103] (fun _ => Some [[97; 10]]) [[97; 10]]).
  - reflexivity.
  - all_chars.
  - vm_compute. reflexivity.
  - vm_compute. reflexivity.
  - vm_compute. reflexivity.
  - discriminate.
  - discriminate.
  - reflexivity.
  - eexists. reflexivity.
  - repeat (constructor; [split; [discriminate|vm_compute; discriminate]|]). constructor.
  - repeat (constructor; [reflexivity|]). constructor.
  - right. repeat (constructor; [discriminate|]). constructor.
Defined.
