(* ===== verification/Env.v ===== *)
(** * lib/ansi/getenv.c, putenv.c, setenv.c: the environment of a program

    A string is its characters before the 0, in a store under its address; [_environ] is
    an array of addresses that ends with NULL.  [putenv] keeps the address it gets. *)
From S2P Require Import Prelude.

Definition ENTRY_INC : Z := 10.
Definition rounded (x : Z) : Z := (x `div` ENTRY_INC + 1) * ENTRY_INC.
Definition EQUALS : Z := 61.

Record envst := mkEnv {
  strings : gmap Z (list Z);
  _environ : option (list (option Z));
  size : Z
}.
#[export] Instance eta_env : Settable envst := mkEta (fun e => mkEnv (strings e) (_environ e) (size e)).
Notation E := (ST envst).

Definition string_at (p : Z) : E (list Z) := e ← getS; liftO (strings e !! p).
Definition store_string (p : Z) (s : list Z) : E unit := modifyS (fun e => e <| strings ::= <[p := s]> |>).
Definition set_environ (a : list (option Z)) : E unit := modifyS (fun e => e <| _environ := Some a |>).

(** The character a pointer into a string is at, and the pointer behind it: [None] is
    behind the 0. *)
Definition deref (p : option (list Z)) : option Z := s ← p; Some (match s with c :: _ => c | [] => 0 end).
Definition next_char_of (p : option (list Z)) : option (list Z) := s ← p; match s with _ :: s' => Some s' | [] => None end.

(** while ( *q && ( *q == *p++)) q++; the test behind it. *)
Fixpoint getenv_match (q : list Z) (p : option (list Z)) : option (option (list Z)) :=
  match q with
  | [] => c ← deref p; Some (if c =? EQUALS then next_char_of p else None)
  | c :: q' => d ← deref p; if c =? d then getenv_match q' (next_char_of p) else Some None
  end.

(** while ( *q && ( *q++ == *p++)); the test behind it: both pointers move before the
    comparison ends the loop. *)
Fixpoint putenv_match (q : list Z) (p : option (list Z)) : option bool :=
  match q with
  | [] => c ← deref p; Some (c =? EQUALS)
  | c :: q' =>
      d ← deref p;
      if c =? d then putenv_match q' (next_char_of p)
      else match q' with
           | [] => c ← deref (next_char_of p); Some (c =? EQUALS)
           | _ => Some false
           end
  end.

Section env.
(** What the stack of the program holds, and malloc for strings and for arrays. *)
Context (init_environ : option (list (option Z)))
        (malloc_string : gmap Z (list Z) -> option Z)
        (malloc_array : Z -> option (list (option Z)))
        (realloc_array : list (option Z) -> Z -> option (list (option Z))).

Definition get_environ : E (option (list (option Z))) :=
  e ← getS;
  match _environ e with
  | Some a => mret (Some a)
  | None => _ ← modifyS (fun e => e <| _environ := init_environ |>); mret init_environ
  end.

(** The walk along the array ends at NULL. *)
Fixpoint getenv_loop (v : list (option Z)) (name : list Z) : E (option (list Z)) :=
  match v with
  | [] => crash
  | None :: _ => mret None
  | Some p :: v' =>
      s ← string_at p;
      r ← liftO (getenv_match name (Some s));
      match r : option (list Z) with Some value => mret (Some value) | None => getenv_loop v' name end
  end.

Definition getenv (name : option Z) : E (option (list Z)) :=
  env ← get_environ;
  match name, env : option (list (option Z)) with
  | Some n, Some v => nm ← string_at n; getenv_loop v nm
  | _, _ => mret None
  end.

Fixpoint putenv_loop (v : list (option Z)) (i : Z) (name : list Z) : E (option Z) :=
  match v with
  | [] => crash
  | None :: _ => mret None
  | Some p :: v' =>
      s ← string_at p;
      r ← liftO (putenv_match name (Some s));
      if r : bool then mret (Some i) else putenv_loop v' (i + 1) name
  end.

(** strchr(name, '=') *)
Fixpoint split_name (s : list Z) : option (list Z) :=
  match s with [] => None | c :: s' => if c =? EQUALS then Some [] else r ← split_name s'; Some (c :: r) end.

(** The entries with the NULL: [None] when there is none. *)
Fixpoint count_entries (v : list (option Z)) : option Z :=
  match v with [] => None | None :: _ => Some 1 | Some _ :: v' => n ← count_entries v'; Some (n + 1) end.
Fixpoint copy_entries (from to : list (option Z)) : option (list (option Z)) :=
  match from, to with
  | None :: _, _ :: to' => Some (None :: to')
  | Some p :: from', _ :: to' => r ← copy_entries from' to'; Some (Some p :: r)
  | _, _ => None
  end.

(** Room for one more entry, at first in an array of its own: false when there is no
    memory. *)
Definition make_room (v : list (option Z)) : E bool :=
  e ← getS;
  if size e =? 0 then
    i ← liftO (count_entries v);
    match malloc_array (rounded i) with
    | None => mret false
    | Some w =>
        _ ← modifyS (fun e => e <| size := i |>);
        w ← liftO (copy_entries v w);
        _ ← set_environ w;
        mret true
    end
  else if size e `mod` ENTRY_INC =? 0 then
    match realloc_array v (rounded (size e)) with
    | None => mret false
    | Some w => _ ← set_environ w; mret true
    end
  else mret true.

(** The end of [putenv]. *)
Definition putenv_append (v : list (option Z)) (name : Z) : E Z :=
  room ← make_room v;
  if negb (room : bool) then mret 1
  else
    e ← getS;
    v ← liftO (_environ e);
    v ← liftO (aset v (size e - 1) (Some name));
    v ← liftO (aset v (size e) None);
    _ ← set_environ v;
    _ ← modifyS (fun e => e <| size ::= Z.succ |>);
    mret 0.

Definition putenv (name : option Z) : E Z :=
  match name with
  | None => mret 0
  | Some n =>
      env ← get_environ;
      match env : option (list (option Z)) with
      | None => mret 1
      | Some v =>
          nm ← string_at n;
          match split_name nm with
          | None => putenv_append v n
          | Some key =>
              _ ← store_string n key;
              found ← putenv_loop v 0 key;
              _ ← store_string n nm;
              match found : option Z with
              | Some i => v ← liftO (aset v i (Some n)); _ ← set_environ v; mret 0
              | None => putenv_append v n
              end
          end
      end
  end.

Definition setenv (name : Z) (value : list Z) (overwrite : bool) : E Z :=
  old ← (if overwrite then mret None else getenv (Some name));
  match old : option (list Z) with
  | Some _ => mret 0
  | None =>
      e ← getS;
      match malloc_string (strings e) with
      | None => mret (-1)
      | Some buf =>
          nm ← string_at name;
          _ ← store_string buf (nm ++ EQUALS :: value);
          putenv (Some buf)
      end
  end.
End env.

(** ** The environment as a list of names and values *)
Definition entry (kv : list Z * list Z) : list Z := kv.1 ++ EQUALS :: kv.2.
Definition key_ok (k : list Z) : Prop := EQUALS ∉ k.

Fixpoint get (es : list (list Z * list Z)) (nm : list Z) : option (list Z) :=
  match es with [] => None | kv :: es' => if decide (kv.1 = nm) then Some kv.2 else get es' nm end.

(** What [putenv] takes for the same name. *)
Definition hit (nm : list Z) (kv : list Z * list Z) : bool :=
  match putenv_match nm (Some (entry kv)) with Some b => b | None => false end.
Fixpoint put (es : list (list Z * list Z)) (nm value : list Z) : list (list Z * list Z) :=
  match es with
  | [] => [(nm, value)]
  | kv :: es' => if hit nm kv then (nm, value) :: es' else kv :: put es' nm value
  end.

(** Names that differ in the last character, or by a last character. *)
Definition confusable (nm k : list Z) : Prop := exists n1 c, nm = n1 ++ [c] /\ (k = n1 \/ exists d, d <> c /\ k = n1 ++ [d]).

Lemma putenv_match_hit nm : forall k v, key_ok nm -> key_ok k -> exists b, putenv_match nm (Some (entry (k, v))) = Some b.
Proof.
  unfold entry, key_ok. cbn [fst snd]. induction nm as [|c nm IH]; intros k v Hn Hk; cbn [putenv_match]; [destruct k; cbn; eauto|].
  destruct k as [|d k]; cbn [app deref mbind option_bind].
  - rewrite (proj2 (Z.eqb_neq c EQUALS)) by set_solver. destruct nm; [destruct v; cbn; eauto|eauto].
  - destruct (c =? d); [apply IH; set_solver|]. destruct nm; [destruct k; cbn; eauto|eauto].
Qed.

Lemma putenv_match_same nm v : putenv_match nm (Some (nm ++ EQUALS :: v)) = Some true.
Proof. induction nm as [|c nm IH]; cbn; [done|]. by rewrite Z.eqb_refl. Qed.

Lemma hit_same nm v : hit nm (nm, v) = true.
Proof. unfold hit, entry. cbn [fst snd]. by rewrite putenv_match_same. Qed.

Lemma hit_confusable nm : forall k v, key_ok nm -> key_ok k -> hit nm (k, v) = true -> k = nm \/ confusable nm k.
Proof.
  unfold hit, entry, key_ok. cbn [fst snd]. induction nm as [|c nm IH]; intros k v Hn Hk; cbn [putenv_match].
  - destruct k as [|d k]; [by left|]. cbn [app deref mbind option_bind]. rewrite (proj2 (Z.eqb_neq d EQUALS)) by set_solver. done.
  - destruct k as [|d k]; cbn [app deref mbind option_bind].
    + rewrite (proj2 (Z.eqb_neq c EQUALS)) by set_solver. destruct nm; [|done]. intros _. right. exists [], c. split; [done|by left].
    + destruct (Z.eqb_spec c d) as [->|Hne].
      * intros H. destruct (IH k v ltac:(set_solver) ltac:(set_solver) H) as [->|(n1 & x & -> & Hx)]; [by left|]. right. exists (d :: n1), x.
        split; [done|]. destruct Hx as [->|(y & Hy & ->)]; [by left|]. right. by exists y.
      * destruct nm as [|c2 nm]; [|done]. intros H. right. exists [], c. split; [done|]. right. exists d. split; [congruence|].
        destruct k as [|d2 k]; [done|]. cbn in H. rewrite (proj2 (Z.eqb_neq d2 EQUALS)) in H by set_solver. done.
Qed.

Lemma getenv_match_entry nm : forall k v, key_ok nm -> key_ok k ->
  getenv_match nm (Some (entry (k, v))) = Some (if decide (k = nm) then Some v else None).
Proof.
  unfold entry, key_ok. cbn [fst snd]. induction nm as [|c nm IH]; intros k v Hn Hk; cbn [getenv_match].
  - destruct k as [|d k]; cbn [app deref mbind option_bind]; [done|]. rewrite (proj2 (Z.eqb_neq d EQUALS)) by set_solver. done.
  - destruct k as [|d k]; cbn [app deref mbind option_bind].
    + rewrite (proj2 (Z.eqb_neq c EQUALS)) by set_solver. done.
    + destruct (Z.eqb_spec c d) as [->|Hne]; cbn [next_char_of mbind option_bind].
      * rewrite IH by set_solver. f_equal. repeat case_decide; congruence.
      * rewrite decide_False by congruence. done.
Qed.

(** The new value is found, and names that cannot be confused keep theirs. *)
Lemma get_put_same es nm v : Forall (fun kv => key_ok kv.1) es -> key_ok nm -> get (put es nm v) nm = Some v.
Proof.
  intros Hes Hn. induction Hes as [|[k w] es Hk Hes IH]; cbn [put get fst snd]; [by rewrite decide_True|].
  destruct (hit nm (k, w)) eqn:Eh; cbn [get fst snd]; [by rewrite decide_True|].
  rewrite decide_False; [done|]. intros ->. by rewrite hit_same in Eh.
Qed.

Lemma get_put_other es nm v k : Forall (fun kv => key_ok kv.1) es -> key_ok nm -> k <> nm -> ~ confusable nm k -> get (put es nm v) k = get es k.
Proof.
  intros Hes Hn Hk Hc. induction Hes as [|[k' w] es Hk' Hes IH]; cbn [put get fst snd]; [by rewrite decide_False|].
  destruct (hit nm (k', w)) eqn:Eh; cbn [get fst snd]; [|by rewrite IH].
  rewrite decide_False by done. destruct (hit_confusable nm k' w Hn Hk' Eh) as [->|Hc']; (rewrite decide_False; [done|]); congruence.
Qed.

(** ** The state of the program *)
Record shows (e : envst) (es : list (list Z * list Z)) (ptrs : list Z) (rest : list (option Z)) : Prop := {
  sh_array : _environ e = Some ((Some <$> ptrs) ++ None :: rest);
  sh_strings : Forall2 (fun p kv => strings e !! p = Some (entry kv)) ptrs es;
  sh_keys : Forall (fun kv => key_ok kv.1) es;
  sh_size : size e = 0 \/ (size e = alen es + 1 /\ alen ((Some <$> ptrs) ++ None :: rest) = rounded (alen es))
}.

(** What is relied on of malloc and realloc. *)
Class EnvAlloc (malloc_string : gmap Z (list Z) -> option Z) (malloc_array : Z -> option (list (option Z)))
    (realloc_array : list (option Z) -> Z -> option (list (option Z))) : Prop := {
  ea_string m p : malloc_string m = Some p -> m !! p = None;
  ea_array n w : malloc_array n = Some w -> alen w = n;
  ea_realloc l n w : realloc_array l n = Some w -> exists r, w = l ++ r /\ alen w = n
}.

Lemma string_at_run e p s : strings e !! p = Some s -> string_at p e = Some (s, e).
Proof. intros H. unfold string_at. rewrite (bind_run _ _ e e e) by done. by rewrite H. Qed.

Section refine.
Context (init_environ : option (list (option Z))) (malloc_string : gmap Z (list Z) -> option Z)
  (malloc_array : Z -> option (list (option Z))) (realloc_array : list (option Z) -> Z -> option (list (option Z)))
  `{!EnvAlloc malloc_string malloc_array realloc_array}.

(** There is memory for what is asked for. *)
Record enough : Prop := {
  en_string m : is_Some (malloc_string m);
  en_array n : 0 <= n -> is_Some (malloc_array n);
  en_realloc l n : alen l <= n -> is_Some (realloc_array l n)
}.

Lemma get_environ_run e a : _environ e = Some a -> get_environ init_environ e = Some (Some a, e).
Proof. intros H. unfold get_environ. rewrite (bind_run _ _ e e e) by done. by rewrite H. Qed.

Lemma getenv_loop_run e nm ptrs es rest : key_ok nm -> Forall2 (fun p kv => strings e !! p = Some (entry kv)) ptrs es ->
  Forall (fun kv => key_ok kv.1) es -> getenv_loop ((Some <$> ptrs) ++ None :: rest) nm e = Some (get es nm, e).
Proof.
  intros Hn HF. induction HF as [|p [k v] ptrs es Hp HF IH]; intros Hk; cbn [fmap list_fmap app getenv_loop get fst snd]; [done|].
  apply Forall_cons in Hk as [Hk1 Hk]. rewrite (bind_run _ _ _ _ _ (string_at_run _ _ _ Hp)).
  rewrite (bind_run _ _ e (if decide (k = nm) then Some v else None) e) by (by rewrite getenv_match_entry).
  case_decide; [done|]. by apply IH.
Qed.

Lemma getenv_run e es ptrs rest p nm : shows e es ptrs rest -> strings e !! p = Some nm -> key_ok nm ->
  getenv init_environ (Some p) e = Some (get es nm, e).
Proof.
  intros [Ha Hs Hk _] Hp Hn. unfold getenv. rewrite (bind_run _ _ _ _ _ (get_environ_run _ _ Ha)).
  rewrite (bind_run _ _ _ _ _ (string_at_run _ _ _ Hp)). by apply getenv_loop_run.
Qed.

(** The entry that [putenv] replaces. *)
Lemma putenv_loop_run e nm ptrs es rest : key_ok nm -> Forall2 (fun p kv => strings e !! p = Some (entry kv)) ptrs es ->
  Forall (fun kv => key_ok kv.1) es -> forall i v,
  match list_find (fun kv => hit nm kv = true) es with
  | Some (j, _) => putenv_loop ((Some <$> ptrs) ++ None :: rest) i nm e = Some (Some (i + Z.of_nat j), e) /\ put es nm v = <[j := (nm, v)]> es /\ (j < length es)%nat
  | None => putenv_loop ((Some <$> ptrs) ++ None :: rest) i nm e = Some (None, e) /\ put es nm v = es ++ [(nm, v)]
  end.
Proof.
  intros Hn HF. induction HF as [|p [k w] ptrs es Hp HF IH]; intros Hk i v; cbn [list_find fmap list_fmap app putenv_loop put]; [done|].
  apply Forall_cons in Hk as [Hk1 Hk]. rewrite (bind_run _ _ _ _ _ (string_at_run _ _ _ Hp)).
  destruct (putenv_match_hit nm k w Hn Hk1) as [b Hb]. rewrite (bind_run _ _ e b e) by (by rewrite Hb).
  assert (Hh : hit nm (k, w) = b) by (unfold hit; by rewrite Hb). rewrite Hh. destruct b; case_decide; try done.
  - cbn. rewrite Z.add_0_r. split_and!; [done|done|lia].
  - specialize (IH Hk (i + 1) v). destruct (list_find _ es) as [[j kv]|]; cbn.
    + destruct IH as (E1 & E2 & E3). rewrite E1, E2. split_and!; [do 3 f_equal; lia|done|lia].
    + destruct IH as (E1 & E2). by rewrite E1, E2.
Qed.

Lemma count_entries_run ptrs rest : count_entries ((Some <$> ptrs) ++ None :: rest) = Some (alen ptrs + 1).
Proof. induction ptrs as [|p ptrs IH]; cbn; [done|]. unfold alen in *. cbn [length]. rewrite IH. cbn. f_equal. lia. Qed.

Lemma copy_entries_run ptrs rest : forall w, alen ptrs < alen w ->
  exists r, copy_entries ((Some <$> ptrs) ++ None :: rest) w = Some ((Some <$> ptrs) ++ None :: r) /\ alen ((Some <$> ptrs) ++ None :: r) = alen w.
Proof.
  induction ptrs as [|p ptrs IH]; intros [|x w] Hl; unfold alen in *; cbn in *; try lia; [by exists w|].
  destruct (IH w) as (r & -> & Hr); [lia|]. exists r. cbn. split; [done|]. lia.
Qed.

Lemma rounded_bounds n : 0 <= n -> n + 1 <= rounded n /\ rounded n `mod` 10 = 0 /\ rounded n <= n + 10.
Proof. unfold rounded, ENTRY_INC. intros H. zlia. Qed.

(** The last entry and the NULL. *)
Lemma set_last (ptrs : list Z) rest name : let v := (Some <$> ptrs) ++ None :: rest in alen ptrs + 1 < alen v ->
  exists r, aset v (alen ptrs) (Some name) = Some ((Some <$> (ptrs ++ [name])) ++ rest) /\
    aset ((Some <$> (ptrs ++ [name])) ++ rest) (alen ptrs + 1) None = Some ((Some <$> (ptrs ++ [name])) ++ None :: r) /\
    alen ((Some <$> (ptrs ++ [name])) ++ None :: r) = alen v.
Proof.
  intros v Hl. assert (Hv : alen v = alen ptrs + 1 + alen rest) by (unfold v, alen; rewrite length_app, length_fmap; cbn; lia).
  destruct rest as [|x r]; [unfold alen in *; cbn in *; lia|]. exists r. rewrite !aset_in.
  - unfold v. rewrite fmap_app, <- app_assoc. cbn [fmap list_fmap app].
    replace (Z.to_nat (alen ptrs)) with (length (Some <$> ptrs) + 0)%nat by (rewrite length_fmap; unfold alen; lia).
    replace (Z.to_nat (alen ptrs + 1)) with (length (Some <$> ptrs) + 1)%nat by (rewrite length_fmap; unfold alen; lia).
    rewrite !insert_app_r. cbn. rewrite <- app_assoc. split_and!; [done|done|]. unfold alen. rewrite !length_app. done.
  - unfold alen in *. rewrite length_app, fmap_app, length_app, !length_fmap in *. cbn in *. lia.
  - unfold alen in *. pose proof (length_fmap (@Some Z) ptrs). lia.
Qed.

Lemma make_room_run e es ptrs rest :
  enough -> shows e es ptrs rest ->
  exists e1 r1, make_room malloc_array realloc_array ((Some <$> ptrs) ++ None :: rest) e = Some (true, e1) /\
    _environ e1 = Some ((Some <$> ptrs) ++ None :: r1) /\ size e1 = alen es + 1 /\
    alen ((Some <$> ptrs) ++ None :: r1) = rounded (alen es + 1) /\ strings e1 = strings e.
Proof.
  intros Hen [Ha Hs Hk Hsz]. pose proof (Forall2_length _ _ _ Hs) as Hlen. assert (Hl : alen ptrs = alen es) by (unfold alen; lia).
  pose proof (alen_nonneg es) as H0. pose proof (rounded_bounds (alen es) H0) as (R1 & R2 & R3).
  pose proof (rounded_bounds (alen es + 1) ltac:(lia)) as (R4 & R5 & R6).
  unfold make_room. rewrite (bind_run _ _ e e e) by done. destruct (Z.eqb_spec (size e) 0) as [E0|E0].
  - rewrite (bind_run _ _ e (alen ptrs + 1) e) by (by rewrite count_entries_run).
    destruct (en_array Hen (rounded (alen ptrs + 1))) as [w Hw]; [rewrite Hl; lia|]. rewrite Hw. pose proof (ea_array _ _ Hw) as Hwl.
    destruct (copy_entries_run ptrs rest w) as (r1 & Hc & Hr); [rewrite Hl in *; lia|].
    set (e0 := e <| size := alen ptrs + 1 |>). rewrite (bind_run _ _ e tt e0) by done.
    rewrite (bind_run _ _ e0 ((Some <$> ptrs) ++ None :: r1) e0) by (by rewrite Hc).
    eexists _, r1. split; [reflexivity|]. split_and!; [done|change (alen ptrs + 1 = alen es + 1); lia|rewrite Hr, Hwl, Hl; done|done].
  - destruct Hsz as [Hsz|[Hsz Hcap]]; [done|]. destruct (Z.eqb_spec (size e `mod` ENTRY_INC) 0) as [Em|Em].
    + destruct (en_realloc Hen ((Some <$> ptrs) ++ None :: rest) (rounded (size e))) as [w Hw]; [rewrite Hcap, Hsz in *; unfold rounded, ENTRY_INC in *; zlia|]. rewrite Hw.
      destruct (ea_realloc _ _ _ Hw) as (r & -> & Hwl). rewrite Hsz in *.
      eexists _, (rest ++ r). split; [reflexivity|]. rewrite <- app_assoc in Hwl |- *. split_and!; done.
    + eexists e, rest. split; [done|]. split_and!; [done|done| |done]. rewrite Hcap. rewrite Hsz in Em. unfold rounded, ENTRY_INC in *. zlia.
Qed.

Lemma putenv_append_run e es ptrs rest p nm v :
  enough ->
  shows e es ptrs rest -> strings e !! p = Some (entry (nm, v)) -> key_ok nm ->
  exists e' rest', putenv_append malloc_array realloc_array ((Some <$> ptrs) ++ None :: rest) p e = Some (0, e') /\
    shows e' (es ++ [(nm, v)]) (ptrs ++ [p]) rest' /\ strings e' = strings e.
Proof.
  intros Hen Hsh Hp Hn. pose proof Hsh as [Ha Hs Hk Hsz]. pose proof (Forall2_length _ _ _ Hs) as Hlen.
  assert (Hl : alen ptrs = alen es) by (unfold alen; lia). pose proof (alen_nonneg es) as H0.
  pose proof (rounded_bounds (alen es + 1) ltac:(lia)) as (R4 & _).
  destruct (make_room_run e es ptrs rest Hen Hsh) as (e1 & r1 & E1 & Ha1 & Hs1 & Hc1 & Hst1). unfold putenv_append.
  rewrite (bind_run _ _ _ _ _ E1). cbn [negb]. rewrite (bind_run _ _ e1 e1 e1) by done.
  rewrite (bind_run _ _ e1 ((Some <$> ptrs) ++ None :: r1) e1) by (by rewrite Ha1).
  destruct (set_last ptrs r1 p) as (r & S1 & S2 & S3); [rewrite Hc1; lia|]. rewrite Hs1. replace (alen es + 1 - 1) with (alen ptrs) by lia.
  rewrite (bind_run _ _ e1 ((Some <$> (ptrs ++ [p])) ++ r1) e1) by (by rewrite S1).
  rewrite <- Hl. rewrite (bind_run _ _ e1 ((Some <$> (ptrs ++ [p])) ++ None :: r) e1) by (by rewrite S2).
  set (e2 := e1 <| _environ := Some ((Some <$> (ptrs ++ [p])) ++ None :: r) |>). rewrite (bind_run _ _ e1 tt e2) by done.
  eexists _, r. split; [reflexivity|]. split; [|exact Hst1].
  assert (Hls : alen (es ++ [(nm, v)]) = alen es + 1) by (unfold alen; rewrite length_app; cbn; lia). split.
  - done.
  - change (strings (e2 <| size ::= Z.succ |>)) with (strings e1). rewrite Hst1. apply Forall2_app; [done|by repeat constructor].
  - apply Forall_app. split; [done|by repeat constructor].
  - right. rewrite S3, Hc1, Hls. split; [|done]. change (Z.succ (size e1) = alen es + 1 + 1). lia.
Qed.

Lemma split_entry nm v : key_ok nm -> split_name (entry (nm, v)) = Some nm.
Proof.
  unfold entry, key_ok. cbn [fst snd]. induction nm as [|c nm IH]; intros H; cbn; [done|].
  rewrite (proj2 (Z.eqb_neq c EQUALS)) by set_solver. by rewrite IH by set_solver.
Qed.

(** [putenv] of a string that is not in the environment yet. *)
Lemma putenv_run e es ptrs rest p nm v :
  enough ->
  shows e es ptrs rest -> strings e !! p = Some (entry (nm, v)) -> p ∉ ptrs -> key_ok nm ->
  exists e' ptrs' rest', putenv init_environ malloc_array realloc_array (Some p) e = Some (0, e') /\
    shows e' (put es nm v) ptrs' rest' /\ strings e' = strings e.
Proof.
  intros Hen Hsh Hp Hnin Hn. pose proof Hsh as [Ha Hs Hk Hsz]. pose proof (Forall2_length _ _ _ Hs) as Hlen.
  unfold putenv. rewrite (bind_run _ _ _ _ _ (get_environ_run _ _ Ha)).
  rewrite (bind_run _ _ _ _ _ (string_at_run _ _ _ Hp)). rewrite split_entry by done.
  set (e1 := e <| strings ::= <[p := nm]> |>). rewrite (bind_run _ _ e tt e1) by done.
  assert (Hs1 : Forall2 (fun p kv => strings e1 !! p = Some (entry kv)) ptrs es).
  { change (strings e1) with (<[p := nm]> (strings e)). clear -Hs Hnin. induction Hs as [|q kv ptrs es Hq HF IH]; constructor; [|apply IH; set_solver].
    rewrite lookup_insert_ne by set_solver. done. }
  pose proof (putenv_loop_run e1 nm ptrs es rest Hn Hs1 Hk 0 v) as HL.
  assert (Hback : (e1 <| strings ::= <[p := entry (nm, v)]> |>) = e).
  { unfold e1. destruct e as [st en sz]. gsimpl. f_equal. rewrite insert_insert_eq. by apply insert_id. }
  destruct (list_find _ es) as [[j kv]|].
  - destruct HL as (E & -> & Hj). rewrite (bind_run _ _ _ _ _ E). rewrite (bind_run _ _ e1 tt e) by (rewrite <- Hback; done).
    rewrite aset_in by (unfold alen; rewrite length_app, length_fmap; cbn; lia). replace (Z.to_nat (0 + Z.of_nat j)) with j by lia.
    rewrite insert_app_l by (rewrite length_fmap; lia). rewrite <- list_fmap_insert.
    rewrite (bind_run _ _ e ((Some <$> <[j := p]> ptrs) ++ None :: rest) e) by done.
    eexists _, (<[j := p]> ptrs), rest. split; [reflexivity|]. split; [|done]. split; [done| | |].
    + apply Forall2_insert; [exact Hs|exact Hp].
    + apply Forall_insert; [done|done].
    + destruct Hsz as [Hsz|[Hsz Hc]]; [by left|right]. split; [unfold alen in *; rewrite length_insert; done|].
      unfold alen in *. rewrite !length_app, !length_fmap in *. by rewrite !length_insert.
  - destruct HL as (E & ->). rewrite (bind_run _ _ _ _ _ E). rewrite (bind_run _ _ e1 tt e) by (rewrite <- Hback; done).
    destruct (putenv_append_run e es ptrs rest p nm v Hen Hsh Hp Hn) as (e' & rest' & E' & H). by exists e', (ptrs ++ [p]), rest'.
Qed.

(** Without [overwrite] a name that is set keeps its value; otherwise the two ways agree. *)
Lemma setenv_kept e es ptrs rest name nm value v : shows e es ptrs rest -> strings e !! name = Some nm -> key_ok nm -> get es nm = Some v ->
  setenv init_environ malloc_string malloc_array realloc_array name value false e = Some (0, e).
Proof. intros Hsh Hp Hn Hg. unfold setenv. rewrite (bind_run _ _ _ _ _ (getenv_run _ _ _ _ _ _ Hsh Hp Hn)). by rewrite Hg. Qed.

Lemma setenv_unset e es ptrs rest name nm value : shows e es ptrs rest -> strings e !! name = Some nm -> key_ok nm -> get es nm = None ->
  setenv init_environ malloc_string malloc_array realloc_array name value false e =
  setenv init_environ malloc_string malloc_array realloc_array name value true e.
Proof. intros Hsh Hp Hn Hg. unfold setenv. rewrite (bind_run _ _ _ _ _ (getenv_run _ _ _ _ _ _ Hsh Hp Hn)). by rewrite Hg. Qed.

Lemma setenv_run e es ptrs rest name nm value :
  enough -> shows e es ptrs rest -> strings e !! name = Some nm -> key_ok nm ->
  exists e' ptrs' rest', setenv init_environ malloc_string malloc_array realloc_array name value true e = Some (0, e') /\
    shows e' (put es nm value) ptrs' rest' /\ forall q s, strings e !! q = Some s -> strings e' !! q = Some s.
Proof.
  intros Hen Hsh Hp Hn. pose proof Hsh as [Ha Hs Hk Hsz]. unfold setenv. rewrite (bind_run _ _ e None e) by done.
  rewrite (bind_run _ _ e e e) by done. destruct (en_string Hen (strings e)) as [b Hb]. rewrite Hb. pose proof (ea_string _ _ Hb) as Hfresh.
  rewrite (bind_run _ _ _ _ _ (string_at_run _ _ _ Hp)).
  set (e1 := e <| strings ::= <[b := entry (nm, value)]> |>). rewrite (bind_run _ _ e tt e1) by done.
  assert (Hnin : b ∉ ptrs).
  { intros [i Hi]%list_elem_of_lookup. destruct (Forall2_lookup_l _ _ _ _ _ Hs Hi) as (kv & _ & Hq). congruence. }
  assert (Hmono : forall q s, strings e !! q = Some s -> strings e1 !! q = Some s).
  { intros q s Hq. change (strings e1) with (<[b := entry (nm, value)]> (strings e)). rewrite lookup_insert_ne by congruence. done. }
  assert (Hsh1 : shows e1 es ptrs rest).
  { split; [done| |done|done]. eapply Forall2_impl; [exact Hs|]. intros q kv Hq. by apply Hmono. }
  destruct (putenv_run e1 es ptrs rest b nm value Hen Hsh1 (lookup_insert_eq _ _ _) Hnin Hn) as (e' & ptrs' & rest' & E & Hsh' & Hst).
  exists e', ptrs', rest'. split_and!; [exact E|done|]. intros q s Hq. rewrite Hst. by apply Hmono.
Qed.

(** C31: [setenv] and [getenv].  In an environment of entries with names, and with enough
    memory, [setenv] returns 0, through the growth of the array.  A name that is set and
    is not to be overwritten keeps its value, and nothing changes; otherwise [getenv]
    then yields the new value.  For every other name it yields what it yielded before,
    unless that name is confusable with the one that was set: it differs from it in the
    last character only, or it lacks the last character. *)
Theorem setenv_getenv e es ptrs rest name nm value overwrite :
  enough -> shows e es ptrs rest -> strings e !! name = Some nm -> key_ok nm ->
  exists old e' es' ptrs' rest', getenv init_environ (Some name) e = Some (old, e) /\
    setenv init_environ malloc_string malloc_array realloc_array name value overwrite e = Some (0, e') /\
    shows e' es' ptrs' rest' /\
    getenv init_environ (Some name) e' = Some (Some (match old with Some v => if overwrite then value else v | None => value end), e') /\
    (is_Some old -> overwrite = false -> e' = e) /\
    forall p k, strings e !! p = Some k -> key_ok k -> k <> nm -> ~ confusable nm k ->
      exists r, getenv init_environ (Some p) e = Some (r, e) /\ getenv init_environ (Some p) e' = Some (r, e').
Proof.
  intros Hen Hsh Hp Hn. pose proof (sh_keys _ _ _ _ Hsh) as Hk. pose proof (getenv_run e _ _ _ name nm Hsh Hp Hn) as Hold.
  exists (get es nm). destruct (decide (overwrite = false /\ is_Some (get es nm))) as [[-> [v Hv]]|Hset].
  - rewrite Hv in *. exists e, es, ptrs, rest. split_and!; [done|by eapply setenv_kept|done|done|done|].
    intros p k Hpk Hkk _ _. exists (get es k). split; by eapply getenv_run.
  - assert (Hv : (match get es nm with Some v => if overwrite then value else v | None => value end) = value).
    { destruct overwrite; [by destruct (get es nm)|]. destruct (get es nm); [|done]. exfalso. apply Hset. split; [done|by eexists]. }
    destruct (setenv_run e es ptrs rest name nm value Hen Hsh Hp Hn) as (e' & ptrs' & rest' & E & Hsh' & Hst).
    assert (E' : setenv init_environ malloc_string malloc_array realloc_array name value overwrite e = Some (0, e')).
    { destruct overwrite; [done|]. rewrite (setenv_unset e es ptrs rest name nm); [done|done|done|done|]. apply eq_None_not_Some. intros H. by apply Hset. }
    rewrite Hv. exists e', (put es nm value), ptrs', rest'. split_and!; [done|done|done| | |].
    + rewrite (getenv_run e' _ _ _ name nm Hsh') by (try done; by apply Hst). by rewrite get_put_same.
    + intros H1 H2. exfalso. by apply Hset.
    + intros p k Hpk Hkk Hne Hc. exists (get es k). split; [by eapply getenv_run|].
      rewrite (getenv_run e' _ _ _ p k Hsh') by (try done; by apply Hst). by rewrite get_put_other.
Qed.

(** The comparison of [putenv] moves past the first difference before it tests for the
    end, so that a name that differs in its last character only is taken for the same:
    setting one variable removes the other. *)
Theorem setenv_removes_neighbour e es ptrs rest n1 c d w value name p :
  enough -> shows e ((n1 ++ [d], w) :: es) ptrs rest -> strings e !! name = Some (n1 ++ [c]) -> strings e !! p = Some (n1 ++ [d]) ->
  key_ok (n1 ++ [c]) -> d <> c -> get es (n1 ++ [d]) = None ->
  exists e', setenv init_environ malloc_string malloc_array realloc_array name value true e = Some (0, e') /\
    getenv init_environ (Some p) e = Some (Some w, e) /\ getenv init_environ (Some p) e' = Some (None, e').
Proof.
  intros Hen Hsh Hp Hpk Hn Hdc Hnone. pose proof (sh_keys _ _ _ _ Hsh) as [Hkd Hk]%Forall_cons.
  destruct (setenv_run e _ ptrs rest name _ value Hen Hsh Hp Hn) as (e' & ptrs' & rest' & E & Hsh' & Hst).
  assert (Hh : hit (n1 ++ [c]) (n1 ++ [d], w) = true).
  { unfold hit, entry. cbn [fst snd]. clear -Hdc. induction n1 as [|x n1 IH]; cbn [app putenv_match deref mbind option_bind next_char_of].
    - rewrite (proj2 (Z.eqb_neq c d)) by done. done.
    - by rewrite Z.eqb_refl. }
  cbn [put] in Hsh'. rewrite Hh in Hsh'. exists e'. split_and!; [exact E| |].
  - rewrite (getenv_run e _ _ _ p _ Hsh Hpk Hkd). cbn [get fst snd]. by rewrite decide_True.
  - rewrite (getenv_run e' _ _ _ p _ Hsh') by (try done; by apply Hst). cbn [get fst snd]. rewrite decide_False; [by rewrite Hnone|].
    intros Heq. apply app_inj_2 in Heq as [_ [= Heq]]; done.
Qed.
End refine.

(** An allocator, and the environment "V1=x" with the names "V1" and "V2" beside it. *)
Definition alloc_string (m : gmap Z (list Z)) : option Z := Some (fresh (dom m)).
Definition alloc_array (n : Z) : option (list (option Z)) := if 0 <=? n then Some (replicate (Z.to_nat n) None) else None.
Definition grow_array (l : list (option Z)) (n : Z) : option (list (option Z)) :=
  if alen l <=? n then Some (l ++ replicate (Z.to_nat (n - alen l)) None) else None.
#[export] Instance env_alloc : EnvAlloc alloc_string alloc_array grow_array.
Proof.
  split.
  - intros m p [= <-]. apply not_elem_of_dom, is_fresh.
  - intros n w. unfold alloc_array. destruct (Z.leb_spec 0 n); [|done]. intros [= <-]. unfold alen. rewrite length_replicate. lia.
  - intros l n w. unfold grow_array. destruct (Z.leb_spec (alen l) n); [|done]. intros [= <-]. eexists. split; [reflexivity|].
    unfold alen in *. rewrite length_app, length_replicate. lia.
Qed.
Lemma env_enough : enough alloc_string alloc_array grow_array.
Proof.
  split.
  - intros m. unfold alloc_string. eauto.
  - intros n Hn. unfold alloc_array. rewrite (proj2 (Z.leb_le _ _)) by done. eauto.
  - intros l n Hn. unfold grow_array. rewrite (proj2 (Z.leb_le _ _)) by done. eauto.
Qed.

Definition V1 : list Z := [86; 49].
Definition V2 : list Z := [86; 50].
Definition env_one : envst := mkEnv (<[100 := entry (V1, [120])]> (<[200 := V1]> (<[300 := V2]> (<[400 := [72]]> ∅)))) (Some [Some 100; None]) 0.
Lemma env_one_shows : shows env_one [(V1, [120])] [100] [].
Proof. split; [done|by repeat constructor|apply Forall_singleton; unfold key_ok; set_solver|by left]. Qed.

Lemma setenv_getenv_witness :
  (exists e', setenv None alloc_string alloc_array grow_array 400 [47] true env_one = Some (0, e') /\
    getenv None (Some 400) e' = Some (Some [47], e') /\ exists r, getenv None (Some 200) env_one = Some (r, env_one) /\ getenv None (Some 200) e' = Some (r, e')) /\
  setenv None alloc_string alloc_array grow_array 200 [47] false env_one = Some (0, env_one).
Proof.
  split.
  - destruct (setenv_getenv None alloc_string alloc_array grow_array env_one _ _ _ 400 [72] [47] true env_enough env_one_shows)
      as (old & e' & es' & ptrs' & rest' & Eo & E & _ & Hg & _ & Ho).
    + done.
    + unfold key_ok. set_solver.
    + assert (old = None) as -> by (vm_compute in Eo; by injection Eo as <-). exists e'. split_and!; [exact E|exact Hg|].
      apply (Ho 200 V1); [done|unfold key_ok; set_solver|done|].
      intros (n1 & c & E1 & [<-|(d & _ & E2)]); apply (f_equal length) in E1; rewrite length_app in E1; [done|].
      apply (f_equal length) in E2. rewrite length_app in E2. cbn in *. lia.
  - destruct (setenv_getenv None alloc_string alloc_array grow_array env_one _ _ _ 200 V1 [47] false env_enough env_one_shows)
      as (old & e' & es' & ptrs' & rest' & Eo & E & _ & _ & Hkeep & _).
    + done.
    + unfold key_ok. set_solver.
    + rewrite <- Hkeep at 2; [exact E| |done]. vm_compute in Eo. injection Eo as <-. by eexists.
Defined.

Lemma setenv_removes_neighbour_witness :
  exists e', setenv None alloc_string alloc_array grow_array 300 [121] true env_one = Some (0, e') /\
    getenv None (Some 200) env_one = Some (Some [120], env_one) /\ getenv None (Some 200) e' = Some (None, e').
Proof.
  apply (setenv_removes_neighbour None alloc_string alloc_array grow_array env_one [] [100] [] [86] 50 49 [120] [121] 300 200 env_enough env_one_shows).
  - done.
  - done.
  - unfold key_ok. set_solver.
  - done.
  - done.
Defined.
