(* ===== verification/Parse.v ===== *)
(** * user/bash/parse.c: the command line of the shell

    [parse] cuts a line into words in place: separators in the buffer become 0 and
    [argv] points to the words.  A pointer into [buf] is its index, and a NULL one
    [None]; an access outside of an array is [None]. *)
From S2P Require Import Prelude.

Definition MAX_LINE : Z := 100.
Definition MAX_COMMANDS : Z := 5.
Definition MAX_ARGS : Z := 10.

Record cmdLine := mkCmd {
  buf : list Z;
  numCommands : Z;
  cmdStart : list Z;
  argc : Z;
  argv : list (option Z);
  infile : option Z;
  outfile : option Z;
  append : bool;
  background : bool;
  env : option Z;
  env_val : option Z
}.
#[export] Instance eta_cmd : Settable cmdLine := mkEta (fun c =>
  mkCmd (buf c) (numCommands c) (cmdStart c) (argc c) (argv c) (infile c) (outfile c) (append c) (background c) (env c) (env_val c)).

Notation P := (ST cmdLine).

Definition isspace (c : Z) : bool := c =? 32.
Definition isShellSymb (c : Z) : bool :=
  (c =? 124) || (c =? 60) || (c =? 62) || (c =? 39) || (c =? 61) || (c =? 34) || (c =? 96).
Definition isSeparator (c : Z) : bool := isspace c || isShellSymb c.

(** ** Access through the pointer [line], and to the arrays *)
Definition rd_line (i : Z) : P Z := c ← getS; liftO (aget (buf c) i).
Definition wr_line (i v : Z) : P unit :=
  c ← getS; l ← liftO (aset (buf c) i v); modifyS (fun c => c <| buf := l |>).
Definition set_argv (i : Z) (p : option Z) : P unit :=
  c ← getS; l ← liftO (aset (argv c) i p); modifyS (fun c => c <| argv := l |>).
Definition get_argv (i : Z) : P (option Z) := c ← getS; liftO (aget (argv c) i).
Definition set_cmdStart (i v : Z) : P unit :=
  c ← getS; l ← liftO (aset (cmdStart c) i v); modifyS (fun c => c <| cmdStart := l |>).

(** while(f( *line )) line++: it leaves the buffer or stops, so that the length of
    the buffer is enough fuel. *)
Fixpoint skip (n : nat) (f : Z -> bool) (b : list Z) (i : Z) : option Z :=
  match n with
  | O => None
  | S n' => c ← aget b i; if f c then skip n' f b (i + 1) else Some i
  end.

Definition skip_while (f : Z -> bool) (i : Z) : P Z := c ← getS; liftO (skip (S (length (buf c))) f (buf c) i).

(** ** The loop *)

(** A quoted argument: to the closing quote, which stays; the character behind it
    becomes 0. *)
Definition quoted (q line argc : Z) : P (Z * Z * bool) :=
  _ ← set_argv argc (Some line);
  line ← skip_while (fun c => negb (c =? q)) (line + 1);
  _ ← wr_line (line + 1) 0;
  mret (line + 2, argc + 1, true).

(** The switch: [line], [argc], and whether it ends in [continue]. *)
Definition parse_switch (c line argc : Z) : P (Z * Z * bool) :=
  if c =? 124 then
    _ ← wr_line line 0;
    _ ← set_argv argc None;
    _ ← modifyS (fun c => c <| numCommands ::= Z.succ |>);
    s ← getS;
    _ ← set_cmdStart (numCommands s) (argc + 1);
    mret (line + 1, argc + 1, true)
  else if c =? 60 then
    _ ← wr_line line 0;
    line ← skip_while isspace (line + 1);
    _ ← modifyS (fun c => c <| infile := Some line |>);
    mret (line, argc, false)
  else if c =? 62 then
    _ ← wr_line line 0;
    c2 ← rd_line (line + 1);
    line ← (if c2 =? 62 then _ ← modifyS (fun c => c <| append := true |>); mret (line + 2) else mret (line + 1));
    line ← skip_while isspace line;
    _ ← modifyS (fun c => c <| outfile := Some line |>);
    mret (line, argc, false)
  else if c =? 38 then _ ← modifyS (fun c => c <| background := true |>); mret (line, argc, false)
  else if c =? 92 then _ ← set_argv argc (Some (line + 1)); mret (line + 2, argc + 1, false)
  else if c =? 39 then
    _ ← set_argv argc (Some (line + 1));
    line ← skip_while (fun c => negb (c =? 39)) (line + 1);
    _ ← wr_line line 0;
    mret (line, argc + 1, false)
  else if c =? 34 then quoted 34 line argc
  else if c =? 96 then quoted 96 line argc
  else _ ← set_argv argc (Some line); mret (line, argc + 1, false).

Section parse.
(** The automatic variable [symbol] before it is assigned, and [getenv]. *)
Context (symbol0 : Z) (getenv : list Z -> option (list Z)).

(** if( *line == '='): the value of an environment variable. *)
Definition parse_env (line argc : Z) : P (Z * Z) :=
  c ← rd_line line;
  if c =? 61 then
    _ ← wr_line line 0;
    let line := line + 1 in
    p ← get_argv (argc - 1);
    _ ← modifyS (fun c => c <| env := p |>);
    _ ← set_argv argc (Some line);
    _ ← modifyS (fun c => c <| env_val := Some line |>);
    q ← rd_line line;
    let symbol := if (q =? 34) || (q =? 39) then q else symbol0 in
    line ← skip_while (fun c => negb (c =? 0) && negb (c =? symbol)) (line + 1);
    mret (line + 1, argc + 1)
  else mret (line, argc).

(** Every round but the last moves [line]. *)
Fixpoint parse_loop (fuel : nat) (line argc : Z) : P Z :=
  match fuel with
  | O => crash
  | S n =>
      s ← getS;
      if negb ((argc <? MAX_ARGS - 1) && (numCommands s <? MAX_COMMANDS)) then mret argc
      else
        line ← skip_while isspace line;
        c ← rd_line line;
        if c =? 0 then mret argc
        else
          r ← parse_switch c line argc;
          let '(line, argc, continue) := (r : Z * Z * bool) in
          if continue then parse_loop n line argc
          else
            line ← skip_while (fun c => negb (c =? 0) && negb (isSeparator c)) line;
            r ← parse_env line argc;
            let '(line, argc) := (r : Z * Z) in
            c ← rd_line line;
            if c =? 0 then mret argc
            else _ ← wr_line line 0; parse_loop n (line + 1) argc
  end.

(** [strcpy(sc->buf, input_line)] *)
Definition parse (input_line : list Z) : P Z :=
  s ← getS;
  _ ← (if alen input_line <? alen (buf s)
       then modifyS (fun s => s <| buf := input_line ++ 0 :: drop (S (length input_line)) (buf s) |>) else crash);
  _ ← set_argv 0 None;
  _ ← modifyS (fun s => s <| infile := None |> <| outfile := None |> <| append := false |> <| numCommands := 0 |>
                          <| background := false |> <| env := None |> <| env_val := None |>);
  _ ← set_cmdStart 0 0;
  n ← parse_loop (S (S (length (buf s)))) 0 0;
  _ ← set_argv n None;
  _ ← set_argv (n + 1) None;
  _ ← (if n >? 0 then modifyS (fun s => s <| numCommands ::= Z.succ |>)
       else _ ← set_argv 0 (Some 0); wr_line 0 0);
  _ ← modifyS (fun s => s <| argc := n |>);
  mret 0.

(** ** parse_quotes: the input array, and the output as the list written so far *)
Definition isalpha_ (c : Z) : bool := (u32 (c - 97) <? 26) || (u32 (c - 65) <? 26).

Fixpoint quotes_loop (fuel : nat) (inp : list Z) (i : Z) (out : list Z) : option (list Z) :=
  match fuel with
  | O => None
  | S n =>
      c ← aget inp i;
      if c =? 0 then Some out
      else
        inp ← (if (c =? 34) || (c =? 39) then aset inp i 0 else Some inp);
        c ← aget inp i;
        if c =? 36 then
          let start := i + 1 in
          i ← skip (S (length inp)) isalpha_ inp start;
          let nm := take (Z.to_nat (i - start)) (drop (Z.to_nat start) inp) in
          match getenv nm with
          | None => quotes_loop n inp i out
          | Some v => quotes_loop n inp i (out ++ v)
          end
        else quotes_loop n inp (i + 1) (out ++ [c])
  end.

(** Every round moves on in the input. *)
Definition parse_quotes (input : list Z) : option (list Z) :=
  c ← aget input 0;
  quotes_loop (S (length input)) input (if (c =? 34) || (c =? 39) then 1 else 0) [].
End parse.

(** "ls -l | wc" in a fresh structure. *)
Definition cmd_zero : cmdLine := mkCmd (replicate 100 0) 0 (replicate 5 0) 0 (replicate 56 None) None None false false None None.
Definition argv_strings (s : cmdLine) (n : nat) : list (option Z) := take n (argv s).

Example parse_pipe :
  match parse 0 [108; 115; 32; 45; 108; 32; 124; 32; 119; 99] cmd_zero with
  | Some (_, s) => argv_strings s 6 = [Some 0; Some 3; None; Some 8; None; None] /\ numCommands s = 2 /\ cmdStart s = [0; 3; 0; 0; 0] /\ argc s = 4
  | None => False
  end.
Proof. vm_compute. done. Qed.

(** ** Lines of words and pipes *)
Inductive tok := TWord (w : list Z) | TPipe.

Definition word_char (c : Z) : Prop := 0 < c /\ isSeparator c = false.
Definition word_ok (w : list Z) : Prop := Forall word_char w /\ exists c w', w = c :: w' /\ c <> 38 /\ c <> 92.

(** Words end at a space or at the end of the line. *)
Inductive lexes : list Z -> list tok -> Prop :=
  | lex_end (k : nat) : lexes (replicate k 32) []
  | lex_word (k : nat) w rest ts :
      word_ok w -> (rest = [] \/ head rest = Some 32) -> lexes rest ts -> lexes (replicate k 32 ++ w ++ rest) (TWord w :: ts)
  | lex_pipe (k : nat) rest ts : lexes rest ts -> lexes (replicate k 32 ++ 124 :: rest) (TPipe :: ts).

(** The indices in [argv] behind the pipes. *)
Fixpoint starts_from (k : Z) (ts : list tok) : list Z :=
  match ts with
  | [] => []
  | TPipe :: ts' => (k + 1) :: starts_from (k + 1) ts'
  | TWord _ :: ts' => starts_from (k + 1) ts'
  end.
Definition pipes (ts : list tok) : Z := alen (starts_from 0 ts).
Definition cmd_starts (ts : list tok) : list Z := 0 :: starts_from 0 ts.

(** [argv] holds the words and a NULL for each pipe. *)
Definition argv_of (s : cmdLine) (k : Z) (t : tok) : Prop :=
  match t with
  | TWord w => exists p, aget (argv s) k = Some (Some p) /\ str_at (buf s) p w
  | TPipe => aget (argv s) k = Some None
  end.

Definition shape (s : cmdLine) : Prop :=
  alen (buf s) = MAX_LINE /\ alen (argv s) = (MAX_ARGS + 1) * MAX_COMMANDS + 1 /\ alen (cmdStart s) = MAX_COMMANDS.

Definition no_redirection (s : cmdLine) : Prop :=
  infile s = None /\ outfile s = None /\ append s = false /\ background s = false /\ env s = None /\ env_val s = None.

Lemma starts_snoc ts t : forall k, starts_from k (ts ++ [t]) = starts_from k ts ++ (match t with TPipe => [k + alen ts + 1] | TWord _ => [] end).
Proof.
  induction ts as [|[w|] ts IH]; intros k; cbn.
  - destruct t; cbn; [done|]. unfold alen. cbn. do 2 f_equal. lia.
  - rewrite IH. f_equal. destruct t; [done|]. unfold alen. cbn [length]. do 2 f_equal. lia.
  - rewrite IH. f_equal. f_equal. destruct t; [done|]. unfold alen. cbn [length]. do 2 f_equal. lia.
Qed.

Lemma pipes_snoc ts t : pipes (ts ++ [t]) = pipes ts + (match t with TPipe => 1 | TWord _ => 0 end).
Proof. unfold pipes, alen. rewrite starts_snoc, length_app. destruct t; cbn [length]; lia. Qed.

(** The rest of the line, and its 0, begins at index [i] of the buffer. *)
Definition tail_at (b : list Z) (i : Z) (rest : list Z) : Prop :=
  forall j, 0 <= j <= alen rest -> aget b (i + j) = aget (rest ++ [0]) j.

Lemma tail_skip b i p rest : tail_at b i (p ++ rest) -> tail_at b (i + alen p) rest.
Proof.
  intros H j Hj. rewrite <- Z.add_assoc, H by (rewrite alen_app; pose proof (alen_nonneg p); lia).
  unfold aget, alen in *. rewrite !decide_True by lia. rewrite <- app_assoc. rewrite lookup_app_r by lia. f_equal. lia.
Qed.

Lemma tail_head b i rest : tail_at b i rest -> aget b i = head (rest ++ [0]).
Proof.
  intros H. specialize (H 0). rewrite Z.add_0_r in H. rewrite H by (pose proof (alen_nonneg rest); lia). by destruct rest.
Qed.

Lemma tail_write b i rest v : tail_at b i rest -> 0 < i <= alen b -> tail_at (<[Z.to_nat (i - 1) := v]> b) i rest.
Proof. intros H Hi j Hj. rewrite aget_insert by lia. rewrite decide_False by lia. by apply H. Qed.

Lemma skip_run f p : forall (n : nat) b i rest,
  tail_at b i (p ++ rest) -> Forall (fun c => f c = true) p -> (forall c, head (rest ++ [0]) = Some c -> f c = false) -> (length p < n)%nat ->
  skip n f b i = Some (i + alen p).
Proof.
  induction p as [|c p IH]; intros [|n] b i rest Ht Hp Hr Hn; cbn in Hn; try lia; cbn [skip].
  - rewrite (tail_head _ _ _ Ht). cbn [app]. destruct (head (rest ++ [0])) as [c|] eqn:E; [|by destruct rest].
    cbn. rewrite Hr by done. unfold alen. cbn. f_equal. lia.
  - rewrite (tail_head _ _ _ Ht). cbn. apply Forall_cons in Hp as [Hc Hp]. rewrite Hc.
    rewrite (IH n b (i + 1) rest); [|exact (tail_skip b i [c] _ Ht)|done|done|lia]. unfold alen. cbn [length]. f_equal. lia.
Qed.

(** What holds at the head of the loop: [ts] has been read, [rest] is left. *)
Record reading (s : cmdLine) (i : Z) (rest : list Z) (ts : list tok) : Prop := {
  rd_shape : shape s;
  rd_index : 0 <= i /\ i + alen rest < MAX_LINE;
  rd_tail : tail_at (buf s) i rest;
  rd_argv : forall k t, ts !! k = Some t -> argv_of s (Z.of_nat k) t;
  rd_below : forall k w p, ts !! k = Some (TWord w) -> aget (argv s) (Z.of_nat k) = Some (Some p) -> p + alen w < i;
  rd_count : numCommands s = pipes ts;
  rd_starts : forall j v, cmd_starts ts !! j = Some v -> aget (cmdStart s) (Z.of_nat j) = Some v;
  rd_plain : no_redirection s
}.

(** The result of the loop. *)
Record read_all (s : cmdLine) (ts : list tok) : Prop := {
  ra_shape : shape s;
  ra_argv : forall k t, ts !! k = Some t -> argv_of s (Z.of_nat k) t;
  ra_count : numCommands s = pipes ts;
  ra_starts : forall j v, cmd_starts ts !! j = Some v -> aget (cmdStart s) (Z.of_nat j) = Some v;
  ra_plain : no_redirection s
}.

Lemma reading_all s i rest ts : reading s i rest ts -> read_all s ts.
Proof. by intros []. Qed.

Lemma skip_while_run f p s i rest :
  tail_at (buf s) i (p ++ rest) -> alen (p ++ rest) < alen (buf s) -> Forall (fun c => f c = true) p ->
  (forall c, head (rest ++ [0]) = Some c -> f c = false) -> skip_while f i s = Some (i + alen p, s).
Proof.
  intros Ht Hl Hp Hr. unfold skip_while. rewrite (bind_run _ _ s s s) by done. rewrite (skip_run f p _ _ _ rest Ht Hp Hr); [done|].
  rewrite alen_app in Hl. unfold alen in Hl. lia.
Qed.

Lemma rd_line_run s i c : aget (buf s) i = Some c -> rd_line i s = Some (c, s).
Proof. intros H. unfold rd_line. rewrite (bind_run _ _ s s s) by done. by rewrite H. Qed.

Lemma wr_line_run s i v : 0 <= i < alen (buf s) -> wr_line i v s = Some (tt, s <| buf := <[Z.to_nat i := v]> (buf s) |>).
Proof.
  intros H. unfold wr_line. rewrite (bind_run _ _ s s s) by done. rewrite aset_in by done. by rewrite (bind_run _ _ s (<[Z.to_nat i := v]> (buf s)) s).
Qed.

Lemma set_argv_run s i p : 0 <= i < alen (argv s) -> set_argv i p s = Some (tt, s <| argv := <[Z.to_nat i := p]> (argv s) |>).
Proof.
  intros H. unfold set_argv. rewrite (bind_run _ _ s s s) by done. rewrite aset_in by done. by rewrite (bind_run _ _ s (<[Z.to_nat i := p]> (argv s)) s).
Qed.

Lemma set_cmdStart_run s i v : 0 <= i < alen (cmdStart s) -> set_cmdStart i v s = Some (tt, s <| cmdStart := <[Z.to_nat i := v]> (cmdStart s) |>).
Proof.
  intros H. unfold set_cmdStart. rewrite (bind_run _ _ s s s) by done. rewrite aset_in by done. by rewrite (bind_run _ _ s (<[Z.to_nat i := v]> (cmdStart s)) s).
Qed.

(** ** One more token *)
Lemma argv_of_kept s s' k t i q p n :
  argv_of s k t -> (forall w x, t = TWord w -> aget (argv s) k = Some (Some x) -> x + alen w < i) ->
  0 <= k < n -> n < alen (argv s) -> argv s' = <[Z.to_nat n := p]> (argv s) ->
  i <= q < alen (buf s) -> 0 <= i -> (buf s' = <[Z.to_nat q := 0]> (buf s) \/ buf s' = buf s) -> argv_of s' k t.
Proof.
  intros Ha Hb Hk Hn Hargv Hq Hi Hbuf. assert (E : aget (argv s') k = aget (argv s) k).
  { rewrite Hargv, aget_insert by lia. by rewrite decide_False by lia. }
  destruct t as [w|]; cbn [argv_of] in *; [|by rewrite E]. destruct Ha as (x & Hx & Hs). exists x. rewrite E. split; [done|].
  destruct Hbuf as [-> | ->]; [|done]. eapply str_at_frame; [|exact Hs]. intros j Hj. specialize (Hb w x eq_refl Hx).
  destruct (decide (0 <= j)).
  - rewrite aget_insert by lia. by rewrite decide_False by lia.
  - by rewrite !aget_oob by lia.
Qed.

Lemma argv_of_snoc s s' i rest ts t q p :
  reading s i rest ts -> i <= q < MAX_LINE -> alen ts < 10 -> (buf s' = <[Z.to_nat q := 0]> (buf s) \/ buf s' = buf s) ->
  argv s' = <[Z.to_nat (alen ts) := p]> (argv s) -> argv_of s' (alen ts) t ->
  forall k t', (ts ++ [t]) !! k = Some t' -> argv_of s' (Z.of_nat k) t'.
Proof.
  intros [(Hs1 & Hs2 & Hs3) Hi _ Ha Hb _ _ _] Hq Hn Hbuf Hargv Ht k t' Hk. apply lookup_app_Some in Hk as [Hk|[Hk1 Hk2]].
  - pose proof (lookup_lt_Some _ _ _ Hk) as Hlt. unfold MAX_ARGS, MAX_COMMANDS in Hs2.
    eapply (argv_of_kept s s' _ _ i q p (alen ts)); [by apply Ha| |unfold alen; lia|lia|done|lia|lia|done].
    intros w x -> Hx. by eapply Hb.
  - apply list_lookup_singleton_Some in Hk2 as [Hk2 <-]. replace (Z.of_nat k) with (alen ts); [done|]. unfold alen. lia.
Qed.

Lemma read_more s s' i rest ts t q p rest' :
  reading s i rest ts -> i <= q < MAX_LINE -> alen ts < 10 ->
  buf s' = <[Z.to_nat q := 0]> (buf s) -> argv s' = <[Z.to_nat (alen ts) := p]> (argv s) -> shape s' ->
  argv_of s' (alen ts) t -> (forall w x, t = TWord w -> p = Some x -> x + alen w <= q) ->
  numCommands s' = pipes (ts ++ [t]) -> (forall j v, cmd_starts (ts ++ [t]) !! j = Some v -> aget (cmdStart s') (Z.of_nat j) = Some v) ->
  no_redirection s' -> tail_at (buf s') (q + 1) rest' -> q + 1 + alen rest' < MAX_LINE ->
  reading s' (q + 1) rest' (ts ++ [t]).
Proof.
  intros Hr Hq Hn Hbuf Hargv Hsh Ht Hbelow Hc Hst Hpl Htail Hend. pose proof Hr as [(_ & Hs2 & _) Hi _ _ Hb _ _ _].
  unfold MAX_ARGS, MAX_COMMANDS in Hs2. split; [done|lia|done| | |done|done|done].
  - eapply (argv_of_snoc s s'); [done|done|done|by left|done|done].
  - intros k w x Hk Hx. rewrite Hargv in Hx. apply lookup_app_Some in Hk as [Hk|[Hk1 Hk2]].
    + pose proof (lookup_lt_Some _ _ _ Hk) as Hlt. rewrite aget_insert in Hx by (unfold alen in *; lia).
      rewrite decide_False in Hx by (unfold alen; lia). specialize (Hb _ _ _ Hk Hx). lia.
    + apply list_lookup_singleton_Some in Hk2 as [Hk2 Et]. replace (Z.of_nat k) with (alen ts) in Hx by (unfold alen; lia).
      rewrite aget_insert in Hx by (pose proof (alen_nonneg ts); lia). rewrite decide_True in Hx by done.
      injection Hx as Hx. specialize (Hbelow _ _ Et Hx). lia.
Qed.

Lemma lexes_space r ts : lexes (32 :: r) ts -> lexes r ts.
Proof.
  intros H. inversion H as [k E|k w rest ts' Hw Hh Hl E|k rest ts' Hl E]; subst; destruct k as [|k]; cbn in *.
  - done.
  - injection E as <-. constructor.
  - destruct Hw as [Hc (c & w' & -> & _)]. injection E as -> _. apply Forall_cons in Hc as [[_ Hc] _]. done.
  - injection E as <-. by constructor.
  - done.
  - injection E as <-. by constructor.
Qed.

Lemma lexes_nil ts : lexes [] ts -> ts = [].
Proof.
  intros H. inversion H as [|k w rest ts' [_ (c & w' & -> & _)] Hh Hl E|k rest ts' Hl E]; subst; [done| |]; by destruct k.
Qed.

Lemma spaces_char (k : nat) : Forall (fun c => isspace c = true) (replicate k 32).
Proof. by apply Forall_replicate. Qed.

Lemma reading_spaces s i k rest ts :
  reading s i (replicate k 32 ++ rest) ts -> (forall c, head (rest ++ [0]) = Some c -> isspace c = false) ->
  skip_while isspace i s = Some (i + Z.of_nat k, s) /\ tail_at (buf s) (i + Z.of_nat k) rest /\
  i + Z.of_nat k + alen rest < MAX_LINE.
Proof.
  intros [(Hs1 & _) Hi Ht _ _ _ _ _] Hr. assert (Hk : alen (replicate k 32) = Z.of_nat k) by (unfold alen; by rewrite length_replicate).
  split; [|split].
  - rewrite <- Hk. apply (skip_while_run isspace _ s i rest Ht); [lia|apply spaces_char|done].
  - rewrite <- Hk. by apply tail_skip.
  - rewrite alen_app in Hi. lia.
Qed.

(** [cmdStart] after one more token. *)
Lemma starts_more s ts t :
  (forall j v, cmd_starts ts !! j = Some v -> aget (cmdStart s) (Z.of_nat j) = Some v) ->
  (t = TPipe -> pipes ts + 1 < alen (cmdStart s)) ->
  forall s', cmdStart s' = (match t with TPipe => <[Z.to_nat (pipes ts + 1) := alen ts + 1]> (cmdStart s) | TWord _ => cmdStart s end) ->
  forall j v, cmd_starts (ts ++ [t]) !! j = Some v -> aget (cmdStart s') (Z.of_nat j) = Some v.
Proof.
  intros H Hp s' -> j v Hj. unfold cmd_starts in Hj. rewrite starts_snoc in Hj. rewrite app_comm_cons in Hj.
  destruct t as [w|]; [rewrite app_nil_r in Hj; by apply H|]. specialize (Hp eq_refl).
  assert (Hlen : Z.of_nat (length (cmd_starts ts)) = pipes ts + 1) by (unfold cmd_starts, pipes, alen; cbn [length]; lia).
  rewrite aget_insert by (unfold pipes, alen in *; lia). apply lookup_app_Some in Hj as [Hj|[Hj1 Hj2]].
  - pose proof (lookup_lt_Some _ _ _ Hj). rewrite decide_False by (unfold cmd_starts in *; lia). by apply H.
  - apply list_lookup_singleton_Some in Hj2 as [Hj2 <-]. rewrite decide_True by (unfold cmd_starts in *; lia). done.
Qed.

Lemma head_word w rest : word_ok w -> forall c, head ((w ++ rest) ++ [0]) = Some c -> isspace c = false /\ word_char c /\ c <> 38 /\ c <> 92.
Proof.
  intros [Hw (c & w' & -> & H1 & H2)] d [= <-]. apply Forall_cons in Hw as [[Hc Hs] _]. split; [|done].
  unfold isSeparator in Hs. by apply orb_false_iff in Hs as [? _].
Qed.

Lemma switch_word s c line n :
  word_char c -> c <> 38 -> c <> 92 -> 0 <= n < alen (argv s) ->
  parse_switch c line n s = Some ((line, n + 1, false), s <| argv := <[Z.to_nat n := Some line]> (argv s) |>).
Proof.
  intros [_ Hs] H1 H2 Hn. unfold isSeparator, isShellSymb in Hs. repeat rewrite orb_false_iff in Hs.
  destruct Hs as (_ & Hs). destruct Hs as ((((((E1 & E2) & E3) & E4) & E5) & E6) & E7).
  unfold parse_switch. rewrite E1, E2, E3, E4, E6, E7, (proj2 (Z.eqb_neq c 38)), (proj2 (Z.eqb_neq c 92)) by done.
  by rewrite (bind_run _ _ _ _ _ (set_argv_run s n (Some line) Hn)).
Qed.

Lemma parse_env_none symbol0 s i c n : aget (buf s) i = Some c -> c <> 61 -> parse_env symbol0 i n s = Some ((i, n), s).
Proof. intros H Hc. unfold parse_env. rewrite (bind_run _ _ _ _ _ (rd_line_run s i c H)). by rewrite (proj2 (Z.eqb_neq c 61)). Qed.

(** Reading a pipe. *)
Lemma pipe_step s i k rest ts :
  reading s i (replicate k 32 ++ 124 :: rest) ts -> alen ts < MAX_ARGS - 1 -> pipes ts < MAX_COMMANDS - 1 ->
  exists s', parse_switch 124 (i + Z.of_nat k) (alen ts) s = Some ((i + Z.of_nat k + 1, alen ts + 1, true), s') /\
    reading s' (i + Z.of_nat k + 1) rest (ts ++ [TPipe]).
Proof.
  intros Hr Hn Hp. destruct (reading_spaces s i k (124 :: rest) ts Hr) as (_ & Ht & Hend); [by intros c [= <-]|].
  pose proof Hr as [(Hs1 & Hs2 & Hs3) Hi _ _ _ Hc Hst Hpl]. unfold MAX_LINE, MAX_ARGS, MAX_COMMANDS in *.
  pose proof (alen_nonneg ts) as Hn0. pose proof (alen_nonneg rest) as Hr0. assert (Hal : alen (124 :: rest) = alen rest + 1) by (unfold alen; cbn; lia).
  assert (Hp0 : 0 <= pipes ts) by apply alen_nonneg.
  set (q := i + Z.of_nat k) in *. unfold parse_switch. rewrite (proj2 (Z.eqb_eq 124 124)) by done.
  rewrite (bind_run _ _ _ _ _ (wr_line_run s q 0 ltac:(lia))). set (s1 := s <| buf := _ |>).
  rewrite (bind_run _ _ _ _ _ (set_argv_run s1 (alen ts) None ltac:(change (argv s1) with (argv s); lia))). set (s2 := s1 <| argv := _ |>).
  set (s3 := s2 <| numCommands ::= Z.succ |>). rewrite (bind_run _ _ s2 tt s3), (bind_run _ _ s3 s3 s3) by done.
  assert (Hn3 : numCommands s3 = pipes ts + 1) by (change (Z.succ (numCommands s) = pipes ts + 1); lia). rewrite Hn3.
  rewrite (bind_run _ _ _ _ _ (set_cmdStart_run s3 (pipes ts + 1) (alen ts + 1) ltac:(change (cmdStart s3) with (cmdStart s); lia))).
  set (s4 := s3 <| cmdStart := _ |>). exists s4. split; [done|].
  apply (read_more s s4 i _ ts TPipe q None rest Hr); try done; try (unfold MAX_LINE; lia).
  - split; [|split]; [change (buf s4) with (<[Z.to_nat q := 0]> (buf s))|change (argv s4) with (<[Z.to_nat (alen ts) := None]> (argv s))|
      change (cmdStart s4) with (<[Z.to_nat (pipes ts + 1) := alen ts + 1]> (cmdStart s))]; rewrite alen_insert; done.
  - change (aget (<[Z.to_nat (alen ts) := None]> (argv s)) (alen ts) = Some None). rewrite aget_insert by lia. by rewrite decide_True.
  - rewrite pipes_snoc. exact Hn3.
  - apply (starts_more s ts TPipe Hst); [lia|done].
  - change (buf s4) with (<[Z.to_nat q := 0]> (buf s)). replace q with (q + 1 - 1) at 1 by lia. apply tail_write; [|lia].
    exact (tail_skip _ q [124] rest Ht).
Qed.

(** Reading a word: the round up to the test of the character behind it. *)
Definition word_done (s : cmdLine) (n q : Z) : cmdLine := s <| argv := <[Z.to_nat n := Some q]> (argv s) |>.

Lemma word_step symbol0 s i k w rest ts n :
  reading s i (replicate k 32 ++ w ++ rest) ts -> word_ok w -> rest = [] \/ head rest = Some 32 ->
  alen ts < MAX_ARGS - 1 -> pipes ts < MAX_COMMANDS ->
  parse_loop symbol0 (S n) i (alen ts) s =
    (c ← rd_line (i + Z.of_nat k + alen w);
     if c =? 0 then mret (alen ts + 1)
     else _ ← wr_line (i + Z.of_nat k + alen w) 0; parse_loop symbol0 n (i + Z.of_nat k + alen w + 1) (alen ts + 1))
    (word_done s (alen ts) (i + Z.of_nat k)).
Proof.
  intros Hr Hw Hrest Hn Hp. pose proof (head_word w rest Hw) as Hh.
  destruct (reading_spaces s i k (w ++ rest) ts Hr) as (Hsp & Ht & Hend); [by intros c Hc; apply (Hh c)|].
  pose proof Hr as [(Hs1 & Hs2 & _) Hi _ _ _ Hc _ _]. pose proof (alen_nonneg ts) as Hn0.
  set (q := i + Z.of_nat k) in *. set (s1 := word_done s (alen ts) q). destruct Hw as [Hw (c & w' & Ew & H38 & H92)].
  destruct (Hh c) as (_ & Hwc & _); [by rewrite Ew|]. assert (E : aget (buf s) q = Some c) by (rewrite (tail_head _ _ _ Ht), Ew; done).
  unfold MAX_LINE, MAX_ARGS, MAX_COMMANDS in *. cbn [parse_loop].
  rewrite (bind_run _ _ s s s) by done. unfold MAX_ARGS, MAX_COMMANDS. rewrite Hc, !(proj2 (Z.ltb_lt _ _)) by lia. cbn [andb negb].
  rewrite (bind_run _ _ _ _ _ Hsp), (bind_run _ _ _ _ _ (rd_line_run s q c E)). rewrite (proj2 (Z.eqb_neq c 0)) by (destruct Hwc; lia).
  rewrite (bind_run _ _ _ _ _ (switch_word s c q (alen ts) Hwc H38 H92 ltac:(lia))). fold (word_done s (alen ts) q). fold s1.
  rewrite (bind_run _ _ s1 (q + alen w) s1).
  2:{ apply (skip_while_run _ w s1 q rest Ht); [change (buf s1) with (buf s); lia| |].
      - eapply Forall_impl; [exact Hw|]. intros d [Hd1 Hd2]. rewrite Hd2. by rewrite (proj2 (Z.eqb_neq d 0)) by lia.
      - intros d Hd. destruct Hrest as [->|H32]; [by injection Hd as <-|]. destruct rest; [done|]. by injection H32 as ->; injection Hd as <-. }
  destruct (head (rest ++ [0])) as [d|] eqn:Hd; [|by destruct rest].
  rewrite (bind_run _ _ _ _ _ (parse_env_none symbol0 s1 (q + alen w) d (alen ts + 1)
             ltac:(rewrite <- Hd; exact (tail_head _ _ _ (tail_skip _ q w rest Ht)))
             ltac:(destruct Hrest as [->|H32]; [by injection Hd as <-|]; destruct rest; [done|]; by injection H32 as ->; injection Hd as <-))).
  done.
Qed.

(** The string of the word is in place once a 0 is behind it. *)
Lemma tail_str b b' q w rest :
  tail_at b q (w ++ rest) -> (forall j, j < q + alen w -> aget b' j = aget b j) -> aget b' (q + alen w) = Some 0 -> str_at b' q w.
Proof.
  intros Ht Hb H0. apply str_at_intro. intros j Hj. pose proof (alen_nonneg rest) as Hr.
  destruct (decide (j = alen w)) as [->|Hne].
  - rewrite H0. unfold aget, alen. rewrite decide_True by lia. rewrite lookup_app_r by lia.
    by replace (Z.to_nat _ - length w)%nat with 0%nat by lia.
  - rewrite Hb by lia. rewrite (Ht j) by (rewrite alen_app; lia). unfold aget, alen in *. rewrite !decide_True by lia.
    rewrite <- app_assoc. by rewrite !lookup_app_l by lia.
Qed.

Lemma word_shape s n q : shape s -> shape (word_done s n q).
Proof. intros (H1 & H2 & H3). split; [done|]. split; [|done]. change (alen (<[Z.to_nat n := Some q]> (argv s)) = (MAX_ARGS + 1) * MAX_COMMANDS + 1). by rewrite alen_insert. Qed.

Lemma argv_of_word s s' n q w :
  0 <= n < alen (argv s) -> argv s' = <[Z.to_nat n := Some q]> (argv s) -> str_at (buf s') q w -> argv_of s' n (TWord w).
Proof. intros Hn E Hw. exists q. split; [|done]. rewrite E, aget_insert by lia. by rewrite decide_True. Qed.

(** A word in the middle of the line: the space behind it becomes 0. *)
Lemma word_mid s i k w rest ts :
  reading s i (replicate k 32 ++ w ++ 32 :: rest) ts -> word_ok w -> alen ts < MAX_ARGS - 1 ->
  let q := i + Z.of_nat k + alen w in let s1 := word_done s (alen ts) (i + Z.of_nat k) in
  rd_line q s1 = Some (32, s1) /\
  exists s2, wr_line q 0 s1 = Some (tt, s2) /\ reading s2 (q + 1) rest (ts ++ [TWord w]).
Proof.
  intros Hr Hw Hn q s1. pose proof (head_word w (32 :: rest) Hw) as Hh.
  destruct (reading_spaces s i k (w ++ 32 :: rest) ts Hr) as (_ & Ht & Hend); [by intros c Hc; apply (Hh c)|].
  pose proof Hr as [(Hs1 & Hs2 & Hs3) Hi _ _ _ Hc Hst Hpl]. pose proof (alen_nonneg ts) as Hn0. pose proof (alen_nonneg rest) as Hr0.
  pose proof (alen_nonneg w) as Hw0. rewrite alen_app in Hend. assert (Hal : alen (32 :: rest) = alen rest + 1) by (unfold alen; cbn; lia).
  unfold MAX_LINE, MAX_ARGS, MAX_COMMANDS in *. pose proof (tail_skip _ _ w _ Ht) as Hq. fold q in Hq.
  assert (Hlt : 0 <= q < alen (buf s1)) by (change (buf s1) with (buf s); lia).
  split; [apply rd_line_run; exact (tail_head _ _ _ Hq)|]. exists (s1 <| buf := <[Z.to_nat q := 0]> (buf s1) |>).
  split; [exact (wr_line_run s1 q 0 Hlt)|]. set (s2 := s1 <| buf := _ |>).
  assert (Hb2 : buf s2 = <[Z.to_nat q := 0]> (buf s)) by done.
  apply (read_more s s2 i _ ts (TWord w) q (Some (i + Z.of_nat k)) rest Hr); try done; try (unfold MAX_LINE; lia).
  - destruct (word_shape s (alen ts) (i + Z.of_nat k)) as (E1 & E2 & E3); [done|]. split; [|done]. rewrite Hb2, alen_insert. done.
  - eapply (argv_of_word s); [lia|done|]. rewrite Hb2. apply (tail_str (buf s) _ _ w _ Ht).
    + intros j Hj. destruct (decide (0 <= j)); [|by rewrite !aget_oob by lia]. rewrite aget_insert by lia. by rewrite decide_False by lia.
    + fold q. rewrite aget_insert by lia. by rewrite decide_True.
  - intros w' x [= <-] [= <-]. lia.
  - rewrite pipes_snoc. change (numCommands s2) with (numCommands s). lia.
  - apply (starts_more s ts (TWord w) Hst); [done|done].
  - rewrite Hb2. replace q with (q + 1 - 1) at 1 by lia. apply tail_write; [|lia]. exact (tail_skip _ q [32] rest Hq).
Qed.

(** The last word: the 0 of the line ends it. *)
Lemma word_end s i k w ts :
  reading s i (replicate k 32 ++ w ++ []) ts -> word_ok w -> alen ts < MAX_ARGS - 1 ->
  let s1 := word_done s (alen ts) (i + Z.of_nat k) in
  rd_line (i + Z.of_nat k + alen w) s1 = Some (0, s1) /\ read_all s1 (ts ++ [TWord w]).
Proof.
  intros Hr Hw Hn s1. pose proof (head_word w [] Hw) as Hh.
  destruct (reading_spaces s i k (w ++ []) ts Hr) as (_ & Ht & Hend); [by intros c Hc; apply (Hh c)|].
  pose proof Hr as [(Hs1 & Hs2 & Hs3) Hi _ _ _ Hc Hst Hpl]. pose proof (alen_nonneg ts) as Hn0. pose proof (alen_nonneg w) as Hw0.
  rewrite alen_app in Hend. change (alen []) with 0 in Hend. unfold MAX_LINE, MAX_ARGS, MAX_COMMANDS in *.
  pose proof (tail_head _ _ _ (tail_skip _ _ w _ Ht)) as H0. cbn in H0. split; [by apply rd_line_run|].
  split; [by apply word_shape| | | |done].
  - pose proof (alen_nonneg (replicate k 32 ++ w ++ [])). eapply (argv_of_snoc s s1 i _ ts (TWord w) i _ Hr); [unfold MAX_LINE; lia|lia|by right|done|].
    eapply (argv_of_word s); [lia|done|]. apply (tail_str (buf s) _ _ w _ Ht); [done|exact H0].
  - rewrite pipes_snoc. change (numCommands s1) with (numCommands s). lia.
  - by apply (starts_more s ts (TWord w) Hst).
Qed.

Lemma pipes_app ts us : pipes (ts ++ us) = pipes ts + pipes us.
Proof.
  revert ts. induction us as [|u us IH] using rev_ind; intros ts; [rewrite app_nil_r; change (pipes []) with 0; lia|].
  rewrite app_assoc, !pipes_snoc, IH. lia.
Qed.

(** The end of the line. *)
Lemma loop_end symbol0 s i k ts n :
  reading s i (replicate k 32) ts -> parse_loop symbol0 (S n) i (alen ts) s = Some (alen ts, s).
Proof.
  intros Hr. cbn [parse_loop]. rewrite (bind_run _ _ s s s) by done. destruct (negb _); [done|].
  rewrite <- (app_nil_r (replicate k 32)) in Hr. destruct (reading_spaces s i k [] ts Hr) as (Hsp & Ht & _); [by intros c [= <-]|].
  rewrite (bind_run _ _ _ _ _ Hsp). by rewrite (bind_run _ _ _ _ _ (rd_line_run s _ 0 (tail_head _ _ _ Ht))).
Qed.

Lemma loop_pipe symbol0 s i k rest ts n :
  reading s i (replicate k 32 ++ 124 :: rest) ts -> alen ts < MAX_ARGS - 1 -> pipes ts < MAX_COMMANDS - 1 ->
  exists s' i', parse_loop symbol0 (S n) i (alen ts) s = parse_loop symbol0 n i' (alen (ts ++ [TPipe])) s' /\
    reading s' i' rest (ts ++ [TPipe]).
Proof.
  intros Hr Hn Hp. destruct (pipe_step s i k rest ts Hr Hn Hp) as (s' & Hsw & Hr'). exists s', (i + Z.of_nat k + 1). split; [|done].
  destruct (reading_spaces s i k (124 :: rest) ts Hr) as (Hsp & Ht & _); [by intros c [= <-]|].
  pose proof Hr as [_ _ _ _ _ Hc _ _]. unfold MAX_ARGS, MAX_COMMANDS in *. cbn [parse_loop].
  rewrite (bind_run _ _ s s s) by done. unfold MAX_ARGS, MAX_COMMANDS. rewrite Hc, !(proj2 (Z.ltb_lt _ _)) by lia. cbn [andb negb].
  rewrite (bind_run _ _ _ _ _ Hsp), (bind_run _ _ _ _ _ (rd_line_run s _ 124 (tail_head _ _ _ Ht))).
  rewrite (proj2 (Z.eqb_neq 124 0)) by done. rewrite (bind_run _ _ _ _ _ Hsw). by rewrite alen_app.
Qed.

Lemma loop_reads symbol0 toks : forall line s i ts n,
  lexes line toks -> reading s i line ts -> alen ts + alen toks <= MAX_ARGS - 1 -> pipes ts + pipes toks <= MAX_COMMANDS - 1 -> (length toks < n)%nat ->
  exists s', parse_loop symbol0 n i (alen ts) s = Some (alen (ts ++ toks), s') /\ read_all s' (ts ++ toks).
Proof.
  induction toks as [|t toks IH]; intros line s i ts [|n] Hlex Hr Hn Hp Hf; try (cbn in Hf; lia);
    inversion Hlex as [k E|k w rest toks' Hw Hrest Hl E|k rest toks' Hl E]; subst.
  - exists s. rewrite app_nil_r. split; [by apply (loop_end _ _ _ k)|by eapply reading_all].
  - assert (Hn' : alen (TWord w :: toks) = alen toks + 1) by (unfold alen; cbn; lia). pose proof (alen_nonneg toks) as H0.
    change (pipes (TWord w :: toks)) with (pipes ([TWord w] ++ toks)) in Hp. rewrite pipes_app in Hp. change (pipes [TWord w]) with 0 in Hp.
    assert (Hp0 : 0 <= pipes toks) by apply alen_nonneg.
    rewrite (word_step symbol0 s i k w rest ts n Hr Hw Hrest ltac:(lia) ltac:(lia)). change (ts ++ TWord w :: toks) with (ts ++ [TWord w] ++ toks).
    rewrite app_assoc. destruct Hrest as [->|H32].
    + destruct (word_end s i k w ts Hr Hw ltac:(lia)) as (Hrd & Hall). apply lexes_nil in Hl as ->. rewrite app_nil_r.
      rewrite (bind_run _ _ _ _ _ Hrd). eexists. split; [|exact Hall]. by rewrite alen_app.
    + destruct rest as [|c rest]; [done|]. injection H32 as ->. destruct (word_mid s i k w rest ts Hr Hw ltac:(lia)) as (Hrd & s2 & Hwr & Hr2).
      rewrite (bind_run _ _ _ _ _ Hrd). change (32 =? 0) with false. cbv iota. rewrite (bind_run _ _ _ _ _ Hwr).
      replace (alen ts + 1) with (alen (ts ++ [TWord w])) by (by rewrite alen_app).
      apply (IH rest); [by apply lexes_space|done| | |cbn in Hf; lia].
      * rewrite alen_app. change (alen [TWord w]) with 1. lia.
      * rewrite pipes_snoc. lia.
  - assert (Hn' : alen (TPipe :: toks) = alen toks + 1) by (unfold alen; cbn; lia). pose proof (alen_nonneg toks) as H0.
    change (pipes (TPipe :: toks)) with (pipes ([TPipe] ++ toks)) in Hp. rewrite pipes_app in Hp. change (pipes [TPipe]) with 1 in Hp.
    assert (Hp0 : 0 <= pipes toks) by apply alen_nonneg.
    destruct (loop_pipe symbol0 s i k rest ts n Hr ltac:(lia) ltac:(lia)) as (s' & i' & -> & Hr').
    change (ts ++ TPipe :: toks) with (ts ++ [TPipe] ++ toks). rewrite app_assoc. apply (IH rest); [done|done| | |cbn in Hf; lia].
    + rewrite alen_app. change (alen [TPipe]) with 1. lia.
    + rewrite pipes_snoc. lia.
Qed.

(** ** The whole of [parse] *)

(** The structure at the head of the loop. *)
Definition cmd_init (s : cmdLine) (line : list Z) : cmdLine :=
  s <| buf := line ++ 0 :: drop (S (length line)) (buf s) |> <| argv := <[Z.to_nat 0 := None]> (argv s) |>
    <| infile := None |> <| outfile := None |> <| append := false |> <| numCommands := 0 |>
    <| background := false |> <| env := None |> <| env_val := None |> <| cmdStart := <[Z.to_nat 0 := 0]> (cmdStart s) |>.

Lemma init_reading s line : shape s -> alen line < MAX_LINE -> reading (cmd_init s line) 0 line [].
Proof.
  intros (H1 & H2 & H3) Hl. pose proof (alen_nonneg line) as H0. unfold MAX_LINE, MAX_ARGS, MAX_COMMANDS in *.
  assert (Hb : alen (line ++ 0 :: drop (S (length line)) (buf s)) = 100).
  { rewrite alen_app. unfold alen in *. cbn [length]. rewrite length_drop. lia. }
  split; [|unfold MAX_LINE; lia| |done|done|done| |done].
  - split; [exact Hb|]. split; [change (alen (<[Z.to_nat 0 := None]> (argv s)) = 56)|change (alen (<[Z.to_nat 0 := 0]> (cmdStart s)) = 5)]; rewrite alen_insert; lia.
  - intros j Hj. change (aget (line ++ [0] ++ drop (S (length line)) (buf s)) (0 + j) = aget (line ++ [0]) j). rewrite Z.add_0_l.
    unfold aget, alen in *. rewrite !decide_True by lia. rewrite app_assoc. by rewrite lookup_app_l by (rewrite length_app; cbn; lia).
  - intros j v Hj. unfold cmd_starts in Hj. cbn in Hj. destruct j as [|j]; [|done]. injection Hj as <-.
    change (aget (<[Z.to_nat 0 := 0]> (cmdStart s)) 0 = Some 0). rewrite aget_insert by lia. by rewrite decide_True.
Qed.

(** The two NULLs behind the arguments, and the count. *)
Definition cmd_close (s : cmdLine) (n : Z) : cmdLine :=
  s <| argv := <[Z.to_nat (n + 1) := None]> (<[Z.to_nat n := None]> (argv s)) |>.

Lemma argv_of_close s n k t : n < 10 -> alen (argv s) = 56 -> 0 <= k < n -> argv_of s k t -> argv_of (cmd_close s n) k t.
Proof.
  intros Hn Hl Hk H. assert (E : aget (argv (cmd_close s n)) k = aget (argv s) k).
  { change (aget (<[Z.to_nat (n + 1) := None]> (<[Z.to_nat n := None]> (argv s))) k = aget (argv s) k).
    rewrite aget_insert by (rewrite ?alen_insert; lia). rewrite decide_False by lia. rewrite aget_insert by lia. by rewrite decide_False by lia. }
  destruct t; cbn [argv_of] in *; rewrite E; done.
Qed.

Lemma strings_length line toks : lexes line toks -> alen toks <= alen line.
Proof.
  induction 1 as [k|k w rest toks [_ (c & w' & -> & _)] Hrest Hl IH|k rest toks Hl IH]; unfold alen in *; [cbn; lia| |];
    rewrite !length_app; cbn [length app]; rewrite ?length_app; lia.
Qed.

Lemma parse_run symbol0 s line toks :
  shape s -> lexes line toks -> toks <> [] -> alen line < MAX_LINE -> alen toks <= MAX_ARGS - 1 -> pipes toks <= MAX_COMMANDS - 1 ->
  exists s', parse symbol0 line s = Some (0, s') /\
    (forall k t, toks !! k = Some t -> argv_of s' (Z.of_nat k) t) /\
    aget (argv s') (alen toks) = Some None /\ aget (argv s') (alen toks + 1) = Some None /\
    argc s' = alen toks /\ numCommands s' = pipes toks + 1 /\
    (forall j v, cmd_starts toks !! j = Some v -> aget (cmdStart s') (Z.of_nat j) = Some v) /\ no_redirection s'.
Proof.
  intros Hs Hlex Hne Hl Hn Hp. pose proof (init_reading s line Hs Hl) as Hr. pose proof Hs as (H1 & H2 & H3).
  pose proof (strings_length _ _ Hlex) as Hsl.
  destruct (loop_reads symbol0 toks line _ 0 [] (S (S (length (buf (cmd_init s line))))) Hlex Hr) as (s2 & Hloop & Hall).
  { exact Hn. } { exact Hp. } { destruct Hr as [(Hb & _) _ _ _ _ _ _ _]. unfold alen, MAX_LINE in *. lia. }
  cbn [app] in *. change (alen []) with 0 in Hloop. destruct Hall as [(Hb2 & Ha2 & _) Hargv Hcnt Hst Hpl].
  unfold MAX_LINE, MAX_ARGS, MAX_COMMANDS in *. pose proof (alen_nonneg line) as H0.
  assert (Hpos : 0 < alen toks) by (destruct toks; [done|unfold alen; cbn; lia]).
  set (n := alen toks) in *. set (s3 := cmd_close s2 n).
  exists (s3 <| numCommands ::= Z.succ |> <| argc := n |>). split.
  - unfold parse. rewrite (bind_run _ _ s s s) by done. rewrite (proj2 (Z.ltb_lt _ _)) by lia.
    set (sa := s <| buf := line ++ 0 :: drop (S (length line)) (buf s) |>). rewrite (bind_run _ _ s tt sa) by done.
    rewrite (bind_run _ _ _ _ _ (set_argv_run sa 0 None ltac:(change (argv sa) with (argv s); lia))).
    match goal with |- context [modifyS ?f ≫= _] => set (F := f) end. set (sb := sa <| argv := _ |>).
    rewrite (bind_run _ _ sb tt (F sb)) by done.
    rewrite (bind_run _ _ _ _ _ (set_cmdStart_run (F sb) 0 0 ltac:(change (cmdStart (F sb)) with (cmdStart s); lia))).
    change (F sb <| cmdStart := _ |>) with (cmd_init s line).
    replace (length (buf s)) with (length (buf (cmd_init s line))) by (destruct Hr as [(Hb & _) _ _ _ _ _ _ _]; unfold alen, MAX_LINE in *; lia).
    rewrite (bind_run _ _ _ _ _ Hloop). rewrite (bind_run _ _ _ _ _ (set_argv_run s2 n None ltac:(lia))).
    set (sc := s2 <| argv := _ |>). assert (Hsc : alen (argv sc) = alen (argv s2)) by apply alen_insert.
    rewrite (bind_run _ _ _ _ _ (set_argv_run sc (n + 1) None ltac:(lia))).
    rewrite Z.gtb_ltb, (proj2 (Z.ltb_lt _ _)) by lia. done.
  - assert (Hget : forall k, n <= k <= n + 1 -> aget (argv s3) k = Some None).
    { intros k Hk. change (aget (<[Z.to_nat (n + 1) := None]> (<[Z.to_nat n := None]> (argv s2))) k = Some None).
      rewrite aget_insert by (rewrite ?alen_insert; lia). case_decide; [done|]. rewrite aget_insert by lia. by rewrite decide_True by lia. }
    split; [|split; [|split; [|split; [|split; [|split]]]]]; try done.
    + intros k t Hk. pose proof (lookup_lt_Some _ _ _ Hk). apply (argv_of_close s2); [lia|lia|unfold n, alen; lia|by apply Hargv].
    + apply (Hget n); lia.
    + apply (Hget (n + 1)); lia.
    + change (Z.succ (numCommands s2) = pipes toks + 1). lia.
Qed.

(** C28: [parse] on a line of words and pipes, within the limits of the structure: it returns,
    the argument vector holds the words with a NULL for each pipe and two at the end,
    [cmdStart] the beginnings of the commands. *)
Theorem parse_tokens symbol0 s line toks :
  shape s -> lexes line toks -> toks <> [] -> alen line < MAX_LINE -> alen toks <= MAX_ARGS - 1 -> pipes toks <= MAX_COMMANDS - 1 ->
  exists s', parse symbol0 line s = Some (0, s') /\
    (forall k t, toks !! k = Some t -> argv_of s' (Z.of_nat k) t) /\
    aget (argv s') (alen toks) = Some None /\ aget (argv s') (alen toks + 1) = Some None /\
    argc s' = alen toks /\ numCommands s' = pipes toks + 1 /\
    (forall j v, cmd_starts toks !! j = Some v -> aget (cmdStart s') (Z.of_nat j) = Some v) /\ no_redirection s'.
Proof. apply parse_run. Qed.

(** "ls -l | wc". *)
Lemma line_ls_l_wc : lexes [108; 115; 32; 45; 108; 32; 124; 32; 119; 99] [TWord [108; 115]; TWord [45; 108]; TPipe; TWord [119; 99]].
Proof.
  assert (Hok : forall a b, word_char a -> word_char b -> a <> 38 -> a <> 92 -> word_ok [a; b]).
    { intros a b Ha Hb H1 H2. split; [apply Forall_cons; split; [done|]; by apply Forall_singleton|eauto]. }
    apply (lex_word 0 [108; 115] [32; 45; 108; 32; 124; 32; 119; 99]); [apply Hok; by vm_compute|by right|].
    apply (lex_word 1 [45; 108] [32; 124; 32; 119; 99]); [apply Hok; by vm_compute|by right|].
    apply (lex_pipe 1 [32; 119; 99]). apply (lex_word 1 [119; 99] []); [apply Hok; by vm_compute|by left|]. apply (lex_end 0).
Qed.

Lemma parse_tokens_witness :
  exists s', parse 0 [108; 115; 32; 45; 108; 32; 124; 32; 119; 99] cmd_zero = Some (0, s') /\
    argc s' = 4 /\ numCommands s' = 2 /\ aget (cmdStart s') 1 = Some 3 /\ aget (argv s') 4 = Some None.
Proof.
  destruct (parse_tokens 0 cmd_zero [108; 115; 32; 45; 108; 32; 124; 32; 119; 99] [TWord [108; 115]; TWord [45; 108]; TPipe; TWord [119; 99]])
    as (s' & E & Ha & Hn & _ & Hc & Hm & Hst & _).
  - by vm_compute.
  - exact line_ls_l_wc.
  - done.
  - by vm_compute.
  - by vm_compute.
  - by vm_compute.
  - exists s'. split_and!; [exact E|exact Hc|exact Hm|exact (Hst 1%nat 3 eq_refl)|exact Hn].
Defined.

(** An operator next to a word is overwritten before it is read: "a|b" is one command
    of two words. *)
Example parse_adjacent_pipe :
  exists s', parse 0 [97; 124; 98] cmd_zero = Some (0, s') /\ numCommands s' = 1 /\ take 3 (argv s') = [Some 0; Some 2; None].
Proof. eexists. split; [vm_compute; reflexivity|]. repeat split. Qed.

(** The value of an assignment that ends the line: the parser goes on behind the 0, and
    finds what an earlier line left there. *)
Example parse_assignment_stale :
  exists s', parse 0 [97; 61; 98] (cmd_zero <| buf := [120; 120; 120; 120; 122; 122; 0] ++ replicate 93 0 |>) = Some (0, s') /\
    take 4 (argv s') = [Some 0; Some 2; Some 5; None].
Proof. eexists. split; [vm_compute; reflexivity|]. repeat split. Qed.
