(* ===== verification/UHeap.v ===== *)
(** * lib/stdlib/stdlib.c: malloc, free and realloc of user programs

    A first fit allocator over blocks that lie one behind the other between
    [managed_memory_start] and [last_valid_address].  A block is two words, the
    [mem_control_block], and the words given out.  Sizes are 32-bit signed integers and
    addresses 32-bit words.  [sbrk] is the system call do_sbrk (its kernel side is
    [sys_sbrk] of [Syscalls], lemma [sys_sbrk_moves] there): whether the kernel grants
    the move of the break is a parameter. *)
From S2P Require Import Prelude CString.

Record ust := mkUst {
  u_mem : memory;
  has_initialized : bool;
  managed_memory_start : Z;
  last_valid_address : Z;
  u_brk : Z                        (* the break of the process, kept by the kernel *)
}.
#[export] Instance eta_ust : Settable ust := mkEta (fun u =>
  mkUst (u_mem u) (has_initialized u) (managed_memory_start u) (last_valid_address u) (u_brk u)).

Notation U := (ST ust).

Definition MCB_LEN : Z := 2.     (* sizeof(struct mem_control_block) *)
Definition is_available (m : memory) (a : Z) : bool := negb (m a =? 0).
Definition mcb_size (m : memory) (a : Z) : Z := m (a + 1).

Section heap.
Context (can_grow : Z -> Z -> bool).

(** The new break, and 0 when the kernel does not grant it; malloc does not look at it. *)
Definition sbrk (n : Z) : U Z :=
  u ← getS;
  if n =? 0 then mret (u_brk u)
  else if can_grow (u_brk u) n then _ ← modifyS (fun u => u <| u_brk := u32 (u_brk u + n) |>); mret (u32 (u_brk u + n))
  else mret 0.

Definition malloc_init : U unit :=
  b ← sbrk 0;
  _ ← modifyS (fun u => u <| last_valid_address := b |>);
  _ ← modifyS (fun u => u <| managed_memory_start := b |>);
  modifyS (fun u => u <| has_initialized := true |>).

Definition free (firstbyte : Z) : U unit := modifyS (fun u => u <| u_mem ::= (fun m => mset m (firstbyte - MCB_LEN) 1) |>).

(** while(current_location != last_valid_address) *)
Fixpoint malloc_loop (fuel : nat) (current_location numbytes : Z) : U (option Z) :=
  match fuel with
  | O => crash
  | S n =>
      u ← getS;
      if current_location =? last_valid_address u then mret None
      else if is_available (u_mem u) current_location && (mcb_size (u_mem u) current_location >=? numbytes) then
        _ ← modifyS (fun u => u <| u_mem ::= (fun m => mset m current_location 0) |>);
        mret (Some current_location)
      else malloc_loop n (u32 (current_location + mcb_size (u_mem u) current_location)) numbytes
  end.

(** Every block has at least its control block, so that the words of the heap are
    enough rounds. *)
Definition malloc (numbytes : Z) : U Z :=
  u ← getS;
  _ ← (if has_initialized u then mret tt else malloc_init);
  let numbytes := s32 (numbytes + MCB_LEN) in
  u ← getS;
  r ← malloc_loop (S (Z.to_nat (last_valid_address u - managed_memory_start u))) (managed_memory_start u) numbytes;
  memory_location ← match r with
                    | Some a => mret a
                    | None =>
                        _ ← sbrk numbytes;
                        u ← getS;
                        let a := last_valid_address u in
                        _ ← modifyS (fun u => u <| last_valid_address ::= (fun l => u32 (l + numbytes)) |>);
                        _ ← modifyS (fun u => u <| u_mem ::= (fun m => mset m a 0) |>);
                        _ ← modifyS (fun u => u <| u_mem ::= (fun m => mset m (a + 1) numbytes) |>);
                        mret a
                    end;
  mret (u32 (memory_location + MCB_LEN)).

(** while(len--) *dst++ = *ptr++: the count is the size of the whole old block. *)
Definition realloc (p size : Z) : U Z :=
  ret ← malloc size;
  u ← getS;
  let len := mcb_size (u_mem u) (p - MCB_LEN) in
  _ ← modifyS (fun u => u <| u_mem ::= (fun m => memcpy_loop (Z.to_nat len) m ret p) |>);
  _ ← free p;
  mret ret.
End heap.

(** ** The blocks *)
Record ublock := mkUb { ub_addr : Z; ub_size : Z; ub_free : bool }.

(** The blocks lie one behind the other from [a] to [last]. *)
Fixpoint tiles (m : memory) (a : Z) (bs : list ublock) (last : Z) : Prop :=
  match bs with
  | [] => a = last
  | b :: bs' =>
      ub_addr b = a /\ MCB_LEN <= ub_size b /\ m a = Z.b2z (ub_free b) /\ m (a + 1) = ub_size b /\
      tiles m (a + ub_size b) bs' last
  end.

(** Before the first call the heap is empty and starts at the break. *)
Definition heap_start (u : ust) : Z := if has_initialized u then managed_memory_start u else u_brk u.

(** The blocks end at the break: the program moves it with malloc only. *)
Record uheap (u : ust) (bs : list ublock) : Prop := {
  uh_tiles : tiles (u_mem u) (heap_start u) bs (u_brk u);
  uh_end : has_initialized u = true -> last_valid_address u = u_brk u;
  uh_low : 0 <= heap_start u;
  uh_high : u_brk u < UINT_MOD
}.

(** The [s] words at [p] belong to the program. *)
Definition allocated (bs : list ublock) (p s : Z) : Prop := mkUb (p - MCB_LEN) (s + MCB_LEN) false ∈ bs.

Lemma tiles_bounds m bs : forall a last b,
  tiles m a bs last -> a <= last /\ (b ∈ bs -> a <= ub_addr b /\ ub_addr b + ub_size b <= last).
Proof.
  induction bs as [|b0 bs IH]; intros a last b; cbn [tiles].
  - intros ->. split; [lia|]. by intros ?%elem_of_nil.
  - intros (<- & Hs & _ & _ & Ht). destruct (IH _ _ b Ht) as [Hle Hin]. unfold MCB_LEN in Hs. split; [lia|].
    intros [->|Hb]%elem_of_cons; [lia|]. specialize (Hin Hb). lia.
Qed.

Lemma tiles_size m bs : forall a last b, tiles m a bs last -> b ∈ bs -> mcb_size m (ub_addr b) = ub_size b.
Proof.
  induction bs as [|b0 bs IH]; intros a last b Ht Hb; [by apply elem_of_nil in Hb|]. destruct Ht as (Ha & _ & _ & Hs & Ht).
  apply elem_of_cons in Hb as [->|Hb]; [by rewrite Ha|by eapply IH].
Qed.

(** Two blocks are the same or lie beside each other. *)
Lemma tiles_disjoint m bs : forall a last b c,
  tiles m a bs last -> b ∈ bs -> c ∈ bs -> b = c \/ ub_addr b + ub_size b <= ub_addr c \/ ub_addr c + ub_size c <= ub_addr b.
Proof.
  induction bs as [|b0 bs IH]; intros a last b c Ht Hb Hc; [by apply elem_of_nil in Hb|].
  cbn [tiles] in Ht. destruct Ht as (<- & _ & _ & _ & Ht).
  apply elem_of_cons in Hb as [->|Hb], Hc as [->|Hc].
  - by left.
  - right. left. by apply (tiles_bounds _ _ _ _ c Ht).
  - right. right. by apply (tiles_bounds _ _ _ _ b Ht).
  - by eapply IH.
Qed.

Lemma tiles_frame m m' bs : forall a last,
  tiles m a bs last -> (forall b, b ∈ bs -> m' (ub_addr b) = m (ub_addr b) /\ m' (ub_addr b + 1) = m (ub_addr b + 1)) -> tiles m' a bs last.
Proof.
  induction bs as [|b bs IH]; intros a last; cbn [tiles]; [done|]. intros (<- & Hs & H1 & H2 & Ht) Hf.
  destruct (Hf b) as [-> ->]; [by left|]. split_and!; try done. apply IH; [done|]. intros c Hc. apply Hf. by right.
Qed.

(** Marking the block [b] does not move any block. *)
Definition set_free (v : bool) (b : ublock) : ublock := mkUb (ub_addr b) (ub_size b) v.

Lemma tiles_mark m v l1 b l2 : forall a last,
  tiles m a (l1 ++ b :: l2) last -> tiles (mset m (ub_addr b) (Z.b2z v)) a (l1 ++ set_free v b :: l2) last.
Proof.
  induction l1 as [|c l1 IH]; intros a last; cbn [app tiles].
  - intros (<- & Hs & _ & H2 & Ht). cbn [ub_addr ub_size ub_free set_free]. unfold MCB_LEN in *.
    split_and!; [done|done|unfold mset; by rewrite Z.eqb_refl|unfold mset; rewrite (proj2 (Z.eqb_neq _ _)) by lia; done|].
    eapply tiles_frame; [exact Ht|]. intros c Hc. destruct (tiles_bounds _ _ _ _ c Ht) as [_ Hin]. specialize (Hin Hc).
    unfold mset. rewrite !(proj2 (Z.eqb_neq _ _)) by lia. done.
  - intros (<- & Hs & H1 & H2 & Ht). unfold MCB_LEN in Hs.
    destruct (tiles_bounds _ _ _ _ b Ht) as [_ Hin]. destruct Hin as [Hb _]; [apply elem_of_app; right; by left|].
    split_and!; [done|done| | |by apply IH]; unfold mset; rewrite (proj2 (Z.eqb_neq _ _)) by lia; done.
Qed.

Lemma tiles_snoc m n bs : forall a last,
  tiles m a bs last -> MCB_LEN <= n ->
  tiles (mset (mset m last 0) (last + 1) n) a (bs ++ [mkUb last n false]) (last + n).
Proof.
  induction bs as [|b bs IH]; intros a last; cbn [app tiles].
  - intros -> Hn. cbn. unfold mset. rewrite Z.eqb_refl. rewrite (proj2 (Z.eqb_neq last (last + 1))), Z.eqb_refl by lia. done.
  - intros (<- & Hs & H1 & H2 & Ht) Hn. pose proof (proj1 (tiles_bounds _ _ _ _ b Ht)) as Hle. unfold MCB_LEN in *.
    split_and!; [done|done| | |by apply IH]; unfold mset; rewrite !(proj2 (Z.eqb_neq _ _)) by lia; done.
Qed.

(** ** The search *)
Definition fits (n : Z) (b : ublock) : bool := ub_free b && (n <=? ub_size b).

Lemma malloc_loop_spec n bs : forall fuel u a,
  tiles (u_mem u) a bs (last_valid_address u) -> 0 <= a -> last_valid_address u < UINT_MOD -> (length bs < fuel)%nat ->
  match list_find (fun b => fits n b = true) bs with
  | Some (_, b) => malloc_loop fuel a n u = Some (Some (ub_addr b), u <| u_mem ::= (fun m => mset m (ub_addr b) 0) |>)
  | None => malloc_loop fuel a n u = Some (None, u)
  end.
Proof.
  induction bs as [|b bs IH]; intros [|fuel] u a Ht H0 Hmax Hf; try (cbn in Hf; lia); cbn [malloc_loop].
  - cbn [tiles list_find] in *. rewrite (bind_run _ _ u u u) by done. by rewrite (proj2 (Z.eqb_eq _ _)).
  - pose proof Ht as (Ha & Hs & H1 & H2 & Ht'). rewrite (bind_run _ _ u u u) by done.
    pose proof (proj1 (tiles_bounds _ _ _ _ b Ht')) as Hle. unfold MCB_LEN in Hs. rewrite (proj2 (Z.eqb_neq _ _)) by lia.
    assert (Hfit : (is_available (u_mem u) a && (mcb_size (u_mem u) a >=? n)) = fits n b).
    { unfold is_available, mcb_size, fits. rewrite H1, H2, Z.geb_leb. by destruct (ub_free b). }
    rewrite Hfit. cbn [list_find]. destruct (fits n b) eqn:E.
    + rewrite decide_True by done. by rewrite Ha.
    + rewrite decide_False by done. change (u_mem u (a + 1)) with (mcb_size (u_mem u) a) in H2. rewrite !H2.
      rewrite u32_id by (unfold is_u32; lia). cbn in Hf. specialize (IH fuel u _ Ht' ltac:(lia) Hmax ltac:(lia)).
      destruct (list_find _ bs) as [[i c]|]; exact IH.
Qed.

Lemma tiles_length m bs : forall a last, tiles m a bs last -> Z.of_nat (length bs) <= last - a.
Proof.
  induction bs as [|b bs IH]; intros a last; cbn [tiles length]; [lia|]. intros (_ & Hs & _ & _ & Ht%IH). unfold MCB_LEN in Hs. lia.
Qed.

Section malloc.
Context (can_grow : Z -> Z -> bool).

Definition opened (u : ust) : ust :=
  if has_initialized u then u
  else u <| last_valid_address := u_brk u |> <| managed_memory_start := u_brk u |> <| has_initialized := true |>.

Lemma opened_run u :
  (if has_initialized u then mret tt else malloc_init can_grow) u = Some (tt, opened u).
Proof. unfold opened. by destruct (has_initialized u). Qed.

Lemma opened_ok u bs : uheap u bs ->
  has_initialized (opened u) = true /\ u_mem (opened u) = u_mem u /\ u_brk (opened u) = u_brk u /\
  managed_memory_start (opened u) = heap_start u /\ last_valid_address (opened u) = u_brk u.
Proof. intros [_ He _ _]. unfold opened, heap_start. destruct (has_initialized u) eqn:Ei; [|done]. by split_and!; try apply He. Qed.

Lemma sbrk_run n u : n <> 0 ->
  exists r, sbrk can_grow n u = Some (r, u <| u_brk := if can_grow (u_brk u) n then u32 (u_brk u + n) else u_brk u |>).
Proof.
  intros Hn. unfold sbrk. rewrite (bind_run _ _ u u u), (proj2 (Z.eqb_neq _ _)) by done. destruct (can_grow (u_brk u) n).
  - by exists (u32 (u_brk u + n)).
  - exists 0. by destruct u.
Qed.

(** Some block is free and large enough, or the kernel grants the memory. *)
Definition reusable (n : Z) (bs : list ublock) : bool := existsb (fits (n + MCB_LEN)) bs.
Definition served (n : Z) (u : ust) (bs : list ublock) : bool := reusable n bs || can_grow (u_brk u) (n + MCB_LEN).

(** The block given out: the first free one that is large enough, which is marked, or a
    new one between the old break and the new one. *)
Definition given (n : Z) (bs bs' : list ublock) (brk p : Z) (brk' : Z) : Prop :=
  (exists l1 b l2, bs = l1 ++ b :: l2 /\ ub_free b = true /\ n + MCB_LEN <= ub_size b /\
     Forall (fun c => fits (n + MCB_LEN) c = false) l1 /\
     bs' = l1 ++ set_free false b :: l2 /\ p = ub_addr b + MCB_LEN /\ brk' = brk) \/
  (Forall (fun c => fits (n + MCB_LEN) c = false) bs /\
     bs' = bs ++ [mkUb brk (n + MCB_LEN) false] /\ p = brk + MCB_LEN /\ brk' = brk + (n + MCB_LEN)).

(** A size whose control block neither overflows the size nor the addresses. *)
Definition size_ok (u : ust) (n : Z) : Prop := 0 <= n /\ n + MCB_LEN < 2147483648 /\ u_brk u + n + MCB_LEN < UINT_MOD.

Lemma not_reusable n bs : list_find (fun b => fits (n + MCB_LEN) b = true) bs = None ->
  reusable n bs = false /\ Forall (fun c => fits (n + MCB_LEN) c = false) bs.
Proof.
  intros E%list_find_None. assert (H : Forall (fun c => fits (n + MCB_LEN) c = false) bs)
    by (eapply Forall_impl; [exact E|]; intros c Hc; by apply not_true_is_false).
  split; [|done]. unfold reusable. clear E. induction H as [|c l Hc H IH]; [done|]. cbn. by rewrite Hc.
Qed.

Lemma malloc_run n u bs :
  uheap u bs -> size_ok u n ->
  exists p u', malloc can_grow n u = Some (p, u') /\ has_initialized u' = true /\ managed_memory_start u' = heap_start u /\
    (forall x, x <> p - 2 -> x <> p - 1 -> u_mem u' x = u_mem u x) /\
    if served n u bs then exists bs', uheap u' bs' /\ given n bs bs' (u_brk u) p (u_brk u')
    else p = u_brk u + MCB_LEN /\ u_brk u' = u_brk u /\ last_valid_address u' = u_brk u + MCB_LEN + n.
Proof.
  intros Hu (Hn & Hn2 & Hn3). pose proof Hu as [Ht _ Hlow Hhigh]. destruct (opened_ok u bs Hu) as (Hi & Hm & Hb & Hst & Hl).
  unfold malloc. rewrite (bind_run _ _ u u u), (bind_run _ _ _ _ _ (opened_run u)) by done. cbv beta zeta. set (u0 := opened u) in *.
  unfold MCB_LEN in Hn2, Hn3. rewrite s32_id by (unfold is_s32, MCB_LEN; lia). rewrite (bind_run _ _ u0 u0 u0) by done.
  pose proof (tiles_length _ _ _ _ Ht) as Hlen. rewrite <- Hm, <- Hst, <- Hl in Ht. rewrite Hst, Hl.
  pose proof (malloc_loop_spec (n + MCB_LEN) bs (S (Z.to_nat (u_brk u - heap_start u))) u0 _ Ht) as Hloop.
  rewrite Hst, Hl in Hloop. specialize (Hloop Hlow Hhigh ltac:(lia)). rewrite Hst, Hl in Ht.
  unfold served. destruct (list_find _ bs) as [[i b]|] eqn:E; rewrite (bind_run _ _ _ _ _ Hloop); clear Hloop.
  - apply list_find_Some in E as (Hbi & Hfit & Hbefore). pose proof (take_drop_middle _ _ _ Hbi) as Hbs.
    assert (Hre : reusable n bs = true) by (apply existsb_exists; exists b; split; [apply list_elem_of_In; by eapply list_elem_of_lookup_2|done]).
    unfold fits in Hfit. apply andb_true_iff in Hfit as [Hfree Hsize%Z.leb_le].
    set (u1 := u0 <| u_mem ::= (fun m => mset m (ub_addr b) 0) |>). rewrite (bind_run _ _ u1 (ub_addr b) u1) by done.
    destruct (tiles_bounds _ _ _ _ b Ht) as [_ Hin]. specialize (Hin ltac:(by eapply list_elem_of_lookup_2)). unfold MCB_LEN in *.
    rewrite u32_id by (unfold is_u32; lia). exists (ub_addr b + 2), u1. rewrite Hre. split_and!; [done|done|done| |].
    + intros x H1 H2. change (mset (u_mem u0) (ub_addr b) 0 x = u_mem u x). unfold mset. by rewrite Hm, (proj2 (Z.eqb_neq _ _)) by lia.
    + exists (take i bs ++ set_free false b :: drop (S i) bs). rewrite <- Hbs in Ht. split.
      * assert (Hs1 : heap_start u1 = heap_start u) by (unfold heap_start at 1; change (has_initialized u1) with (has_initialized u0); by rewrite Hi).
        split; rewrite ?Hs1; change (u_brk u1) with (u_brk u0); rewrite ?Hb; [exact (tiles_mark _ false _ _ _ _ _ Ht)|done|done|done].
      * left. exists (take i bs), b, (drop (S i) bs). split_and!; try done. apply Forall_lookup. intros j c Hj.
        apply lookup_take_Some in Hj as [Hj Hlt]. specialize (Hbefore _ _ Hj Hlt). by apply not_true_is_false.
  - destruct (not_reusable n bs E) as [-> Hno].
    set (b' := if can_grow (u_brk u) (n + MCB_LEN) then u32 (u_brk u + (n + MCB_LEN)) else u_brk u).
    set (u1 := u0 <| u_brk := b' |>).
    set (u2 := u1 <| last_valid_address ::= (fun x => u32 (x + (n + MCB_LEN))) |> <| u_mem ::= (fun m => mset m (u_brk u) 0) |>
                  <| u_mem ::= (fun m => mset m (u_brk u + 1) (n + MCB_LEN)) |>).
    rewrite (bind_run _ _ u0 (u_brk u) u2).
    2:{ destruct (sbrk_run (n + MCB_LEN) u0) as (r & Es); [unfold MCB_LEN; lia|]. rewrite Hb in Es. rewrite (bind_run _ _ _ _ _ Es).
        change (u0 <| u_brk := _ |>) with u1. rewrite (bind_run _ _ u1 u1 u1) by done. unfold u2. by rewrite <- Hl. }
    unfold MCB_LEN in *. rewrite u32_id by (unfold is_u32; lia).
    assert (Hl2 : last_valid_address u2 = u_brk u + (n + 2)).
    { change (last_valid_address u2) with (u32 (last_valid_address u0 + (n + 2))). rewrite Hl. apply u32_id. unfold is_u32. lia. }
    exists (u_brk u + 2), u2. split_and!; [done|done|done| |].
    + intros x H1 H2. change (mset (mset (u_mem u0) (u_brk u) 0) (u_brk u + 1) (n + 2) x = u_mem u x). unfold mset.
      by rewrite Hm, !(proj2 (Z.eqb_neq _ _)) by lia.
    + destruct (can_grow (u_brk u) (n + 2)) eqn:Eg; cbn [orb]; [|split_and!; [done|done|lia]].
      assert (Hb2 : u_brk u2 = u_brk u + (n + 2)) by (change (u_brk u2) with b'; unfold b'; apply u32_id; unfold is_u32; lia).
      exists (bs ++ [mkUb (u_brk u) (n + 2) false]). split.
      * assert (Hs2 : heap_start u2 = heap_start u) by (unfold heap_start at 1; change (has_initialized u2) with (has_initialized u0); by rewrite Hi).
        split; rewrite ?Hs2, ?Hb2; [|intros _; exact Hl2|done|lia].
        change (u_mem u2) with (mset (mset (u_mem u0) (u_brk u) 0) (u_brk u + 1) (n + 2)). apply tiles_snoc; [done|unfold MCB_LEN; lia].
      * right. by split_and!.
Qed.

(** The words of [s] at [p] are new in [bs'] and everything allocated in [bs] is kept. *)
Definition fresh_area (u u' : ust) (bs bs' : list ublock) (p s : Z) : Prop :=
  allocated bs' p s /\ ~ allocated bs p s /\
  forall q t, allocated bs q t ->
    allocated bs' q t /\ (q + t <= p - MCB_LEN \/ p + s <= q - MCB_LEN) /\ forall x, q <= x < q + t -> u_mem u' x = u_mem u x.

Lemma given_allocated n bs bs' a brk p brk' m : tiles m a bs brk -> 0 <= n -> given n bs bs' brk p brk' ->
  exists s, n <= s /\ allocated bs' p s /\ (forall q t, allocated bs q t -> allocated bs' q t) /\ ~ allocated bs p s.
Proof.
  intros Ht Hn [(l1 & b & l2 & -> & Hfree & Hsize & _ & -> & -> & _)|(_ & -> & -> & _)].
  - exists (ub_size b - MCB_LEN). split; [lia|]. unfold allocated.
    assert (Eb : mkUb (ub_addr b + MCB_LEN - MCB_LEN) (ub_size b - MCB_LEN + MCB_LEN) false = set_free false b)
      by (unfold set_free; f_equal; lia).
    rewrite Eb. split; [apply elem_of_app; right; by left|]. split.
    + intros q t. rewrite !elem_of_app, !elem_of_cons. intros [|[Hb|]]; auto. rewrite <- Hb in Hfree. done.
    + intros Hin. assert (Hbin : b ∈ l1 ++ b :: l2) by (apply elem_of_app; right; by left).
      destruct (tiles_disjoint _ _ _ _ _ _ Ht Hbin Hin) as [Hb|Hd].
      * rewrite Hb in Hfree. done.
      * cbn in Hd. unfold MCB_LEN in Hsize. lia.
  - exists n. split; [lia|]. unfold allocated. replace (brk + MCB_LEN - MCB_LEN) with brk by lia.
    split; [apply elem_of_app; right; by left|]. split; [intros q t; rewrite elem_of_app; by left|].
    intros Hin. destruct (tiles_bounds _ _ _ _ (mkUb brk (n + MCB_LEN) false) Ht) as [_ Hb]. specialize (Hb Hin). cbn in Hb.
    unfold MCB_LEN in Hb. lia.
Qed.

(** C27: malloc of user programs gives out fresh memory that the program owns.  On a
    heap whose blocks tile the memory from its start to the break - before the first
    call the heap is empty - [malloc n] terminates for every size that does not
    overflow.  When a free block is large enough or the kernel grants the memory, the
    blocks tile the heap again, the break is moved by the size and the control block
    exactly when no block could be reused, and the result is an area of at least [n]
    words below the break that was not allocated before; every area that was allocated
    still is, with the same words in it, and does not overlap the new one.  When the
    kernel refuses, malloc does not notice: the break stays, and the result lies
    behind it, outside of the memory of the program. *)
Theorem malloc_fresh n u bs :
  uheap u bs -> size_ok u n ->
  exists p u', malloc can_grow n u = Some (p, u') /\
    if served n u bs then
      exists s bs', uheap u' bs' /\ n <= s /\ fresh_area u u' bs bs' p s /\ heap_start u' = heap_start u /\
        heap_start u < p /\ p + s <= u_brk u' /\
        u_brk u' = u_brk u + if reusable n bs then 0 else n + MCB_LEN
    else u_brk u' = u_brk u /\ u_brk u < p.
Proof.
  intros Hu Hn. destruct (malloc_run n u bs Hu Hn) as (p & u' & E & Hi & Hm & Hf & H). exists p, u'. split; [done|].
  destruct (served n u bs); [|destruct H as (-> & -> & _); unfold MCB_LEN; lia]. destruct H as (bs' & Hu' & Hg).
  pose proof (uh_tiles _ _ Hu) as Ht. pose proof (uh_tiles _ _ Hu') as Ht'.
  assert (Hs' : heap_start u' = heap_start u) by (unfold heap_start at 1; by rewrite Hi).
  destruct (given_allocated _ _ _ _ _ _ _ _ Ht (proj1 Hn) Hg) as (s & Hns & Ha & Hkeep & Hnew). exists s, bs'.
  destruct (tiles_bounds _ _ _ _ (mkUb (p - MCB_LEN) (s + MCB_LEN) false) Ht') as [_ Hb]. specialize (Hb Ha). cbn in Hb. unfold MCB_LEN in Hb.
  rewrite Hs' in Hb. split_and!; try done; try lia.
  - split; [done|]. split; [done|]. intros q t Hq. specialize (Hkeep q t Hq). split; [done|].
    assert (Hd : q + t <= p - MCB_LEN \/ p + s <= q - MCB_LEN).
    { destruct (tiles_disjoint _ _ _ _ _ _ Ht' Ha Hkeep) as [Heq|Hd]; [|unfold MCB_LEN in *; cbn in Hd; lia].
      exfalso. apply Hnew. unfold allocated in Hq |- *. by rewrite Heq. }
    split; [done|]. unfold MCB_LEN in Hd. pose proof (proj1 Hn). intros x Hx. apply Hf; lia.
  - destruct Hg as [(l1 & b & l2 & -> & Hfree & Hsize & _ & _ & _ & ->)|(Hno & _ & _ & ->)].
    + assert (reusable n (l1 ++ b :: l2) = true) as ->; [|lia]. unfold reusable. rewrite existsb_app. cbn [existsb].
      unfold fits at 2. rewrite Hfree, (proj2 (Z.leb_le _ _)) by done. by rewrite orb_true_r.
    + assert (reusable n bs = false) as ->; [|done]. unfold reusable. clear -Hno. induction Hno as [|c l Hc H IH]; [done|]. cbn. by rewrite Hc.
Qed.

(** Freeing an area marks its block and nothing else. *)
Lemma free_run p s u bs :
  uheap u bs -> allocated bs p s ->
  exists l1 l2, bs = l1 ++ mkUb (p - MCB_LEN) (s + MCB_LEN) false :: l2 /\
    free p u = Some (tt, u <| u_mem ::= (fun m => mset m (p - MCB_LEN) 1) |>) /\
    uheap (u <| u_mem ::= (fun m => mset m (p - MCB_LEN) 1) |>) (l1 ++ mkUb (p - MCB_LEN) (s + MCB_LEN) true :: l2).
Proof.
  intros [Ht He Hl Hh] (l1 & l2 & ->)%list_elem_of_split. exists l1, l2. split; [done|]. split; [done|].
  split; [exact (tiles_mark _ true _ _ _ _ _ Ht)|done|done|done].
Qed.

(** [realloc] copies as many words as the old block has with its control block:
    when the new area is taken from behind the heap, the last two of them, and for a
    smaller new size all words above it, go to the memory behind the new end of the
    heap. *)
Theorem realloc_overruns p s size u bs :
  uheap u bs -> allocated bs p s -> 0 <= s -> size_ok u size -> reusable size bs = false -> can_grow (u_brk u) (size + MCB_LEN) = true ->
  exists u1 u', realloc can_grow p size u = Some (u_brk u + MCB_LEN, u') /\
    malloc can_grow size u = Some (u_brk u + MCB_LEN, u1) /\
    u_brk u' = u_brk u + MCB_LEN + size /\
    (forall x, 0 <= x < s + MCB_LEN -> u_mem u' (u_brk u + MCB_LEN + x) = u_mem u1 (p + x)) /\
    (forall x, 0 <= x < s -> u_mem u1 (p + x) = u_mem u (p + x)) /\
    (size < s + MCB_LEN -> u_brk u' <= u_brk u + MCB_LEN + (s + MCB_LEN - 1)).
Proof.
  intros Hu Ha Hs Hn Hno Hg. destruct (malloc_run size u bs Hu Hn) as (q & u1 & E & _ & _ & Hf & H).
  unfold served in H. rewrite Hno, Hg in H. cbn [orb] in H. destruct H as (bs' & Hu1 & Hgiv). pose proof (uh_tiles _ _ Hu) as Ht.
  destruct (tiles_bounds _ _ _ _ (mkUb (p - MCB_LEN) (s + MCB_LEN) false) Ht) as [_ Hb]. specialize (Hb Ha). cbn in Hb.
  unfold allocated, MCB_LEN in *.
  destruct Hgiv as [(l1 & b & l2 & -> & Hfree & Hsize & _)|(_ & -> & -> & Hl1)].
  { exfalso. unfold reusable in Hno. rewrite existsb_app in Hno. cbn [existsb] in Hno. unfold fits at 2 in Hno.
    rewrite Hfree, (proj2 (Z.leb_le _ _)), orb_true_r in Hno by done. done. }
  unfold MCB_LEN in *. assert (Hsz : mcb_size (u_mem u1) (p - 2) = s + 2).
  { apply (tiles_size _ _ _ _ (mkUb (p - 2) (s + 2) false) (uh_tiles _ _ Hu1)). apply elem_of_app. by left. }
  unfold realloc. rewrite (bind_run _ _ _ _ _ E), (bind_run _ _ u1 u1 u1) by done. cbv zeta. unfold MCB_LEN. rewrite Hsz.
  set (u2 := u1 <| u_mem ::= (fun m => memcpy_loop (Z.to_nat (s + 2)) m (u_brk u + 2) p) |>).
  rewrite (bind_run _ _ u1 tt u2) by done. set (u3 := u2 <| u_mem ::= (fun m => mset m (p - 2) 1) |>). rewrite (bind_run _ _ u2 tt u3) by done.
  exists u1, u3. split; [done|]. split; [done|]. change (u_brk u3) with (u_brk u1). rewrite Hl1.
  split; [lia|]. split; [|split; [|lia]].
  - intros x Hx. change (u_mem u3) with (mset (memcpy_loop (Z.to_nat (s + 2)) (u_mem u1) (u_brk u + 2) p) (p - 2) 1).
    unfold mset. rewrite (proj2 (Z.eqb_neq _ _)) by lia. rewrite memcpy_loop_spec by lia.
    rewrite (proj2 (Z.leb_le _ _)), (proj2 (Z.ltb_lt _ _)) by lia. cbn [andb]. f_equal. lia.
  - intros x Hx. apply Hf; lia.
Qed.
End malloc.

(** A heap of two blocks, the first of them free, and a program that has not called
    malloc yet. *)
Definition uheap_sample : ust :=
  mkUst (fun a => if a =? 100 then 1 else if a =? 101 then 12 else if a =? 112 then 0 else if a =? 113 then 7 else 0) true 100 119 119.
Definition uheap_none : ust := mkUst (fun _ => 0) false 0 0 50.

Lemma uheap_sample_ok : uheap uheap_sample [mkUb 100 12 true; mkUb 112 7 false].
Proof. by split. Qed.

(** A block is reused; then the break moves from 119 to 131; a first call; a refusal. *)
Lemma malloc_fresh_witness :
  (exists p u' q u'', malloc (fun _ _ => true) 10 uheap_sample = Some (p, u') /\ p = 102 /\ u_brk u' = 119 /\
     malloc (fun _ _ => true) 10 u' = Some (q, u'') /\ q = 121 /\ u_brk u'' = 131) /\
  (exists u', malloc (fun _ _ => true) 5 uheap_none = Some (52, u') /\ u_brk u' = 57) /\
  (exists p u', malloc (fun _ _ => false) 20 uheap_sample = Some (p, u') /\ u_brk u' < p).
Proof.
  split; [|split].
  - destruct (malloc_fresh (fun _ _ => true) 10 uheap_sample _ uheap_sample_ok) as (p & u' & E & s & bs' & _).
    + done.
    + exists p, u'. vm_compute in E. injection E as <- <-. eexists _, _. split; [reflexivity|]. split; [done|]. split; [done|].
      split; [vm_compute; reflexivity|]. split; reflexivity.
  - destruct (malloc_fresh (fun _ _ => true) 5 uheap_none []) as (p & u' & E & s & bs' & _ & _ & _ & _ & _ & _ & Hb); [by split|by vm_compute|].
    exists u'. split; [|exact Hb]. rewrite E. vm_compute in E. by injection E as <- <-.
  - destruct (malloc_fresh (fun _ _ => false) 20 uheap_sample _ uheap_sample_ok) as (p & u' & E & Hu & Hb); [done|]. exists p, u'. split; [exact E|]. rewrite Hu. exact Hb.
Defined.
