(* ===== verification/Timer.v ===== *)
(** * winix/timer.c: the list of pending timers

    A [struct timer] is kept under a key: the alarm of a process under its
    process number, the scheduler's timer under [SCHED_TIMER].  Times are
    unsigned words.  NULL dereferences and the panic of [dequeue_alarm] are
    [None]. *)
From Stdlib Require Import Sorted.
From S2P Require Import Prelude Linked.

Definition TIMER_INUSE : Z := 1.
Definition TIMER_NEVER : Z := 2147483647.
Definition REBALANCE_TIMEOUT : Z := 36.
Definition SCHED_TIMER : Z := 100.

(** The functions the kernel passes as [timerhandler_t]. *)
Inductive timerhandler_t :=
| H_NULL | H_rebalance_queues | H_deliver_alarm | H_wakeup_process.

Record timer := mkTimer {
  t_proc_nr : Z;
  time_out : Z;
  t_next : option Z;
  t_handler : timerhandler_t;
  t_flags : Z
}.
#[export] Instance eta_timer : Settable timer := mkEta (fun t =>
  mkTimer (t_proc_nr t) (time_out t) (t_next t) (t_handler t) (t_flags t)).

(** A timer of zeroed memory. *)
Definition timer_zero : timer := mkTimer 0 0 None H_NULL 0.

Record tmst := mkTm {
  timers : gmap Z timer;
  pending_timers : option Z;
  next_timeout : Z;
  system_uptime : Z
}.
#[export] Instance eta_tmst : Settable tmst := mkEta (fun s =>
  mkTm (timers s) (pending_timers s) (next_timeout s) (system_uptime s)).

Definition get_timer (id : Z) : ST tmst timer := fun s => liftO (timers s !! id) s.

Definition upd_timer (id : Z) (f : timer -> timer) : ST tmst unit := fun s =>
  match timers s !! id with
  | Some t => Some (tt, s <| timers ::= insert id (f t) |>)
  | None => None
  end.

Definition timer_inuse (t : timer) : bool := negb (Z.land (t_flags t) TIMER_INUSE =? 0).

(** ** Operations *)

(** The walk of [insert_timer]: to the first timer that is not before
    [new_timeout], with its predecessor. *)
Fixpoint insert_walk (fuel : nat) (ts : gmap Z timer) (prev curr : option Z) (new_timeout : Z)
  : option (option Z * option Z) :=
  match curr, fuel with
  | None, _ => Some (prev, None)
  | Some _, O => None
  | Some c, S f =>
      t ← ts !! c;
      if time_out t <? new_timeout then insert_walk f ts (Some c) (t_next t) new_timeout
      else Some (prev, curr)
  end.

Definition insert_timer (id : Z) : ST tmst unit :=
  s ← getS;
  timer ← get_timer id;
  let new_timeout := time_out timer in
  r ← liftO (insert_walk (S (size (timers s))) (timers s) None (pending_timers s) new_timeout);
  let '(prev, curr) := (r : option Z * option Z) in
  _ ← match prev with
      | Some p =>
          _ ← upd_timer p (fun t => t <| t_next := Some id |>);
          upd_timer id (fun t => t <| t_next := curr |>)
      | None =>
          _ ← upd_timer id (fun t => t <| t_next := pending_timers s |>);
          modifyS (fun s => s <| pending_timers := Some id |> <| next_timeout := new_timeout |>)
      end;
  upd_timer id (fun t => t <| t_flags ::= Z.land TIMER_INUSE |>).

Definition new_timer (procnr_from id timeout : Z) (watchdog : timerhandler_t) : ST tmst Z :=
  if timeout <=? 0 then mret ERR
  else
    curr ← get_timer id;
    if negb (timer_inuse curr) then
      s ← getS;
      _ ← upd_timer id (fun t =>
            t <| t_flags ::= Z.lor TIMER_INUSE |>
              <| time_out := u32 (system_uptime s + timeout) |>
              <| t_handler := watchdog |>
              <| t_proc_nr := procnr_from |>
              <| t_next := None |>);
      _ ← insert_timer id;
      mret OK
    else mret ERR.

Definition dequeue_alarm : ST tmst Z :=
  s ← getS;
  match pending_timers s with
  | None => crash
  | Some mq =>
      t ← get_timer mq;
      _ ← modifyS (fun s => s <| pending_timers := t_next t |>);
      _ ← match t_next t with
          | Some n => tn ← get_timer n; modifyS (fun s => s <| next_timeout := time_out tn |>)
          | None => modifyS (fun s => s <| next_timeout := TIMER_NEVER |>)
          end;
      _ ← upd_timer mq (fun t => t <| t_flags ::= (fun f => Z.ldiff f TIMER_INUSE) |> <| t_next := None |>);
      mret mq
  end.

Fixpoint remove_walk (fuel : nat) (ts : gmap Z timer) (prev curr : option Z) (id : Z)
  : option (option Z * option Z) :=
  match curr, fuel with
  | None, _ => Some (prev, None)
  | Some _, O => None
  | Some c, S f =>
      if decide (c = id) then Some (prev, curr)
      else t ← ts !! c; remove_walk f ts (Some c) (t_next t) id
  end.

Definition remove_timer (id : Z) : ST tmst unit :=
  s ← getS;
  r ← liftO (remove_walk (S (size (timers s))) (timers s) None (pending_timers s) id);
  let '(prev, curr) := (r : option Z * option Z) in
  _ ← match prev with
      | Some p =>
          c ← liftO curr;
          tc ← get_timer c;
          upd_timer p (fun t => t <| t_next := t_next tc |>)
      | None =>
          h ← liftO (pending_timers s);
          th ← get_timer h;
          _ ← modifyS (fun s => s <| pending_timers := t_next th |>);
          match t_next th with
          | Some n => tn ← get_timer n; modifyS (fun s => s <| next_timeout := time_out tn |>)
          | None => mret tt
          end
      end;
  upd_timer id (fun t => t <| t_flags ::= (fun f => Z.ldiff f TIMER_INUSE) |>).

(** [memset(p, 0, sizeof(struct proc))] zeroes the alarm a process embeds. *)
Definition clear_timer (id : Z) : ST tmst unit :=
  modifyS (fun s => s <| timers ::= insert id timer_zero |>).

(** [memcpy(child, parent, sizeof(struct proc))] copies it. *)
Definition copy_timer (from to : Z) : ST tmst unit :=
  t ← get_timer from;
  modifyS (fun s => s <| timers ::= insert to t |>).

(** ** The queue a state represents *)
Definition tm_next (ts : gmap Z timer) (x : Z) : option Z := t ← ts !! x; t_next t.

Definition deadline (ts : gmap Z timer) (x : Z) : Z :=
  match ts !! x with Some t => time_out t | None => 0 end.

Record tm_inv (s : tmst) (l : list Z) : Prop := {
  tm_chain : chain (tm_next (timers s)) (pending_timers s) l;
  tm_inuse : forall x t, timers s !! x = Some t -> timer_inuse t = bool_decide (x ∈ l);
  tm_dom : forall x, x ∈ l -> is_Some (timers s !! x);
  tm_sorted : StronglySorted (fun x y => deadline (timers s) x <= deadline (timers s) y) l;
  tm_timeout : forall x l', l = x :: l' -> next_timeout s = deadline (timers s) x
}.

(** Abstract queue: deadlines with their timers, earliest first; a new timer
    goes before the ones with the same deadline. *)
Fixpoint arm (d : Z -> Z) (dl id : Z) (l : list Z) : list Z :=
  match l with
  | [] => [id]
  | x :: l' => if d x <? dl then x :: arm d dl id l' else id :: l
  end.

(** ** Lemmas *)
Lemma tm_next_insert ts id t :
  forall x, tm_next (<[id := t]> ts) x = upd_link (tm_next ts) id (t_next t) x.
Proof.
  intros x. unfold tm_next, upd_link. case_decide; subst.
  - by rewrite lookup_insert_eq.
  - by rewrite lookup_insert_ne.
Qed.

Lemma deadline_insert_ne ts id t x : x <> id -> deadline (<[id := t]> ts) x = deadline ts x.
Proof. intros. unfold deadline. by rewrite lookup_insert_ne. Qed.

Lemma deadline_insert_eq ts id t : deadline (<[id := t]> ts) id = time_out t.
Proof. unfold deadline. by rewrite lookup_insert_eq. Qed.

Lemma tm_fuel s l : tm_inv s l -> (length l < S (size (timers s)))%nat.
Proof.
  intros [Hc _ Hd _ _]. apply Nat.lt_succ_r, NoDup_length_size; [|done]. by eapply chain_NoDup.
Qed.

Lemma insert_walk_spec ts dl : forall fuel l prev curr,
  chain (tm_next ts) curr l -> (forall x, x ∈ l -> is_Some (ts !! x)) -> (length l < fuel)%nat ->
  exists l1 l2, l = l1 ++ l2 /\
    insert_walk fuel ts prev curr dl = Some (last_or l1 prev, head l2) /\
    forall d id, (forall x, x ∈ l -> d x = deadline ts x) -> arm d dl id l = l1 ++ id :: l2.
Proof.
  induction fuel as [|fuel IH]; intros l prev curr Hc Hd Hf; [lia|].
  destruct l as [|x l].
  { apply chain_nil in Hc as ->. exists [], []. done. }
  destruct Hc as [-> Hc]. destruct (Hd x) as [t Ht]; [set_solver|].
  cbn [insert_walk]. rewrite Ht, obind_Some.
  assert (Hdx : deadline ts x = time_out t) by (unfold deadline; by rewrite Ht).
  destruct (time_out t <? dl) eqn:E.
  - unfold tm_next in Hc. rewrite Ht in Hc. cbn in Hc, Hf.
    destruct (IH l (Some x) (t_next t)) as (l1 & l2 & -> & Hw & Ha); [done|set_solver|lia|].
    exists (x :: l1), l2. split; [done|]. rewrite Hw, last_or_cons. split; [done|].
    intros d id Hdd. cbn. rewrite Hdd, Hdx, E by set_solver. f_equal. apply Ha. set_solver.
  - exists [], (x :: l). split; [done|]. split; [done|].
    intros d id Hdd. cbn. by rewrite Hdd, Hdx, E by set_solver.
Qed.

Lemma remove_walk_spec ts id : forall fuel l prev curr,
  chain (tm_next ts) curr l -> (forall x, x ∈ l -> is_Some (ts !! x)) -> (length l < fuel)%nat ->
  (id ∉ l -> remove_walk fuel ts prev curr id = Some (last_or l prev, None)) /\
  (forall l1 l2, l = l1 ++ id :: l2 -> id ∉ l1 ->
     remove_walk fuel ts prev curr id = Some (last_or l1 prev, Some id)).
Proof.
  induction fuel as [|fuel IH]; intros l prev curr Hc Hd Hf; [lia|].
  destruct l as [|x l].
  { apply chain_nil in Hc as ->. split; [done|]. by intros []. }
  destruct Hc as [-> Hc]. destruct (Hd x) as [t Ht]; [set_solver|].
  unfold tm_next in Hc. rewrite Ht in Hc. cbn [mbind option_bind] in Hc. cbn [length] in Hf.
  destruct (IH l (Some x) (t_next t)) as (H1 & H2); [done|set_solver|lia|].
  cbn [remove_walk]. split.
  - intros Hni. rewrite decide_False by set_solver. rewrite Ht, obind_Some, H1 by set_solver.
    by rewrite last_or_cons.
  - intros [|y l1] l2 [= -> ->] Hni; [by rewrite decide_True|].
    rewrite decide_False by set_solver. rewrite Ht, obind_Some, last_or_cons. apply (H2 _ l2); set_solver.
Qed.

Lemma timer_inuse_lor t : timer_inuse (t <| t_flags ::= Z.lor TIMER_INUSE |>) = true.
Proof.
  unfold timer_inuse. rsimpl. change TIMER_INUSE with (2 ^ 0). rewrite land_pow2_eqb0 by lia.
  rewrite Z.lor_spec. done.
Qed.

(** A timer without its link. *)
Definition strip (t : timer) : timer := t <| t_next := None |>.

Lemma strip_next t p : strip (t <| t_next := p |>) = strip t.
Proof. by destruct t. Qed.

Lemma strip_lookup (ts ts' : gmap Z timer) x :
  strip <$> ts' !! x = strip <$> ts !! x ->
  deadline ts' x = deadline ts x /\ (is_Some (ts' !! x) <-> is_Some (ts !! x)) /\
  (timer_inuse <$> ts' !! x) = (timer_inuse <$> ts !! x).
Proof.
  unfold deadline. destruct (ts' !! x) as [t'|], (ts !! x) as [t|]; try done.
  cbn. intros [= E]. destruct t, t'. unfold strip in E. rsimpl. simplify_eq. done.
Qed.

Lemma strip_insert_next (ts : gmap Z timer) i t p x :
  ts !! i = Some t -> strip <$> <[i := t <| t_next := p |>]> ts !! x = strip <$> ts !! x.
Proof.
  intros Hi. destruct (decide (x = i)) as [->|].
  - rewrite lookup_insert_eq, Hi. cbn. by rewrite strip_next.
  - by rewrite lookup_insert_ne.
Qed.

(** The state change of [insert_timer], for a timer that is not pending. *)
Lemma insert_timer_spec s l id t :
  chain (tm_next (timers s)) (pending_timers s) l -> (forall x, x ∈ l -> is_Some (timers s !! x)) ->
  timers s !! id = Some t -> id ∉ l ->
  exists s', insert_timer id s = Some (tt, s') /\
    chain (tm_next (timers s')) (pending_timers s') (arm (deadline (timers s)) (time_out t) id l) /\
    (forall x, x <> id -> strip <$> timers s' !! x = strip <$> timers s !! x) /\
    (exists p, timers s' !! id = Some (t <| t_next := p |> <| t_flags ::= Z.land TIMER_INUSE |>)) /\
    system_uptime s' = system_uptime s /\
    next_timeout s' = match l with
                      | x :: _ => if deadline (timers s) x <? time_out t then next_timeout s else time_out t
                      | [] => time_out t
                      end.
Proof.
  intros Hc Hd Ht Hid.
  destruct (insert_walk_spec (timers s) (time_out t) (S (size (timers s))) l None (pending_timers s))
    as (l1 & l2 & -> & Hw & Ha); [done|done| |].
  { apply Nat.lt_succ_r, NoDup_length_size; [|done]. by eapply chain_NoDup. }
  assert (Hbefore : l1 = [] -> match l1 ++ l2 with
            | x :: _ => if deadline (timers s) x <? time_out t then next_timeout s else time_out t
            | [] => time_out t end = time_out t).
  { intros ->. cbn. destruct l2 as [|y l2]; [done|].
    specialize (Ha (deadline (timers s)) id ltac:(done)). cbn in Ha.
    destruct (deadline (timers s) y <? time_out t); [|done]. injection Ha. intros _ ->. set_solver. }
  rewrite (Ha (deadline (timers s)) id) by done.
  pose proof (chain_insert _ _ _ _ id Hc Hid) as Hins.
  unfold insert_timer. rewrite (bind_run _ _ s s s eq_refl).
  rewrite (bind_run _ _ s t s) by (unfold get_timer; by rewrite Ht).
  rewrite (bind_run _ _ s _ s) by (rewrite Hw; reflexivity).
  unfold last_or. destruct (last l1) as [p|] eqn:El; cbv beta iota.
  - assert (Hp : p ∈ l1).
    { destruct l1 as [|? ? _] using rev_ind; [done|]. rewrite last_snoc in El. set_solver. }
    destruct (Hd p) as [tp Htp]; [set_solver|].
    assert (p <> id) by set_solver.
    unfold mbind, st_bind, upd_timer. rewrite Htp. rsimpl. rewrite lookup_insert_ne, Ht by done. rsimpl.
    rewrite lookup_insert_eq. rsimpl. eexists. split; [done|]. rsimpl.
    split; [|split; [|split; [|split]]]; cbn.
    + eapply seg_ext, Hins. intros x. unfold tm_next, upd_link. rewrite !lookup_insert.
      repeat case_decide; simplify_eq; done.
    + intros x Hx. rewrite !lookup_insert_ne by done. by apply (strip_insert_next (timers s)).
    + rewrite lookup_insert_eq. eexists. done.
    + done.
    + destruct l1 as [|x l1]; [done|]. cbn [app].
      specialize (Ha (deadline (timers s)) id ltac:(done)). cbn in Ha.
      destruct (deadline (timers s) x <? time_out t); [done|]. injection Ha. intros _ ->. set_solver.
  - apply last_None in El as ->. cbn [app] in *.
    unfold mbind, st_bind, upd_timer, modifyS. rewrite Ht. rsimpl.
    rewrite lookup_insert_eq. rsimpl. eexists. split; [done|]. rsimpl.
    split; [|split; [|split; [|split]]]; cbn.
    + eapply seg_ext, Hins. intros x. unfold tm_next, upd_link. rewrite !lookup_insert.
      pose proof (chain_head _ _ _ Hc) as ->. repeat case_decide; simplify_eq; done.
    + intros x Hx. by rewrite !lookup_insert_ne.
    + rewrite lookup_insert_eq. eexists. done.
    + done.
    + symmetry. by apply Hbefore.
Qed.

Lemma elem_of_arm d dl id l x : x ∈ arm d dl id l <-> x = id \/ x ∈ l.
Proof.
  induction l as [|y l IH]; cbn; [set_solver|].
  destruct (d y <? dl); rewrite !elem_of_cons, ?IH; tauto.
Qed.

Lemma arm_sorted d id l :
  StronglySorted (fun x y => d x <= d y) l -> StronglySorted (fun x y => d x <= d y) (arm d (d id) id l).
Proof.
  induction 1 as [|y l Hs IH Hf]; cbn; [repeat constructor|].
  destruct (Z.ltb_spec (d y) (d id)); constructor; try done.
  - rewrite list.Forall_forall in *. intros z Hz%elem_of_arm.
    destruct Hz as [->|Hz]; [lia|by apply Hf].
  - by constructor.
  - constructor; [done|]. rewrite list.Forall_forall in *. intros z Hz. specialize (Hf z Hz). cbn in Hf. lia.
Qed.

Lemma arm_ext (d d' : Z -> Z) dl id l : (forall x, x ∈ l -> d' x = d x) -> arm d' dl id l = arm d dl id l.
Proof.
  induction l as [|y l IH]; intros Hd; cbn; [done|]. rewrite Hd, IH by set_solver. done.
Qed.

Lemma sorted_ext (d d' : Z -> Z) l :
  (forall x, x ∈ l -> d' x = d x) -> StronglySorted (fun x y => d x <= d y) l ->
  StronglySorted (fun x y => d' x <= d' y) l.
Proof.
  intros Hd Hs. induction Hs as [|y l Hs IH Hf]; constructor; [apply IH; set_solver|].
  rewrite list.Forall_forall in *. intros z Hz. rewrite !Hd; [by apply Hf|set_solver..].
Qed.

Lemma new_timer_armed s l id t from timeout h :
  tm_inv s l -> timers s !! id = Some t -> id ∉ l -> 0 < timeout ->
  exists s', new_timer from id timeout h s = Some (OK, s') /\
    (forall x, x <> id -> deadline (timers s') x = deadline (timers s) x) /\
    deadline (timers s') id = u32 (system_uptime s + timeout) /\
    (exists t', timers s' !! id = Some t' /\ t_handler t' = h /\ t_proc_nr t' = from) /\
    system_uptime s' = system_uptime s /\
    (forall x, is_Some (timers s' !! x) <-> is_Some (timers s !! x)) /\
    tm_inv s' (arm (deadline (timers s')) (deadline (timers s') id) id l).
Proof.
  intros [Hc Hu Hd Hs Ht] Hid Hni Hto. unfold new_timer.
  destruct (Z.leb_spec timeout 0); [lia|].
  rewrite (bind_run _ _ s t s) by (unfold get_timer; by rewrite Hid).
  rewrite (Hu _ _ Hid), bool_decide_eq_false_2 by done. cbn [negb].
  rewrite (bind_run _ _ s s s eq_refl).
  set (t1 := t <| t_flags ::= Z.lor TIMER_INUSE |> <| time_out := u32 (system_uptime s + timeout) |>
    <| t_handler := h |> <| t_proc_nr := from |> <| t_next := None |>).
  set (s1 := s <| timers ::= insert id t1 |>).
  rewrite (bind_run _ _ s tt s1) by (unfold upd_timer; by rewrite Hid).
  destruct (insert_timer_spec s1 l id t1) as (s' & Hr & Hc' & Hstrip & (p & Hid') & Hup & Hnt).
  { unfold s1. rsimpl. eapply seg_frame, Hc. intros x Hx. rewrite tm_next_insert. apply upd_link_ne. set_solver. }
  { intros x Hx. unfold s1. rsimpl. rewrite lookup_insert_ne by set_solver. auto. }
  { unfold s1. rsimpl. apply lookup_insert_eq. }
  { done. }
  rewrite (bind_run _ _ s1 tt s') by done.
  assert (Hdl : forall x, x <> id -> deadline (timers s') x = deadline (timers s) x /\
            (is_Some (timers s' !! x) <-> is_Some (timers s !! x)) /\
            timer_inuse <$> timers s' !! x = timer_inuse <$> timers s !! x).
  { intros x Hx. apply strip_lookup. rewrite Hstrip by done. unfold s1. rsimpl.
    by rewrite lookup_insert_ne. }
  assert (Hdid : deadline (timers s') id = u32 (system_uptime s + timeout)).
  { unfold deadline. rewrite Hid'. done. }
  assert (Harm : arm (deadline (timers s1)) (time_out t1) id l =
                 arm (deadline (timers s')) (deadline (timers s') id) id l).
  { rewrite Hdid. symmetry. apply arm_ext. intros x Hx. assert (x <> id) by set_solver.
    destruct (Hdl x) as (-> & _); [done|]. unfold s1. rsimpl. by rewrite deadline_insert_ne. }
  exists s'. split; [done|]. split; [intros x Hx; by apply Hdl|]. split; [done|].
  split; [rewrite Hid'; eexists; by split|]. split; [by rewrite Hup|].
  split.
  { intros x. destruct (decide (x = id)) as [->|]; [|by apply Hdl].
    rewrite Hid', Hid. split; eauto. }
  rewrite Harm in Hc'. split; [done| | | |].
  - intros x tx Htx. destruct (decide (x = id)) as [->|Hx].
    + rewrite Hid' in Htx. injection Htx as <-.
      rewrite bool_decide_eq_true_2 by (apply elem_of_arm; by left).
      unfold timer_inuse, t1. rsimpl. change TIMER_INUSE with (2 ^ 0). rewrite land_pow2_eqb0 by lia.
      by rewrite !Z.land_spec, !Z.lor_spec.
    + destruct (Hdl x Hx) as (_ & _ & E). rewrite Htx in E. cbn in E.
      destruct (timers s !! x) as [t0|] eqn:Ex; [|done]. injection E as E. rewrite E, (Hu _ _ Ex).
      apply bool_decide_ext. rewrite elem_of_arm. naive_solver.
  - intros x [->|Hx]%elem_of_arm; [by eauto|]. apply Hdl; [set_solver|auto].
  - apply arm_sorted. apply (sorted_ext (deadline (timers s))); [|done].
    intros x Hx. apply Hdl. set_solver.
  - intros x l' E. rewrite Hnt.
    assert (Hnt1 : next_timeout s1 = next_timeout s) by done.
    destruct l as [|y l0]; cbn in E.
    { injection E as <- <-. done. }
    assert (Hy : y <> id) by set_solver.
    destruct (Hdl y Hy) as (Hy' & _). rewrite Hy', Hdid in E.
    replace (deadline (timers s1) y) with (deadline (timers s) y)
      by (unfold s1; rsimpl; by rewrite deadline_insert_ne).
    replace (time_out t1) with (u32 (system_uptime s + timeout)) by done.
    destruct (deadline (timers s) y <? u32 (system_uptime s + timeout)); injection E as <- <-.
    + rewrite Hnt1, Hy'. by eapply Ht.
    + done.
Qed.

Lemma inuse_ldiff t p :
  timer_inuse (t <| t_flags ::= (fun f => Z.ldiff f TIMER_INUSE) |> <| t_next := p |>) = false.
Proof.
  unfold timer_inuse. rsimpl. change TIMER_INUSE with (2 ^ 0). rewrite land_pow2_eqb0 by lia.
  by rewrite Z.ldiff_spec, Z.pow2_bits_true, andb_false_r by lia.
Qed.

(** Taking [id] out of the queue keeps the invariant, for whatever [new] links. *)
Lemma tm_inv_drop s s' l1 l2 id :
  tm_inv s (l1 ++ id :: l2) ->
  chain (tm_next (timers s')) (pending_timers s') (l1 ++ l2) ->
  (forall x, x <> id -> strip <$> timers s' !! x = strip <$> timers s !! x) ->
  (exists t, timers s' !! id = Some t /\ timer_inuse t = false) ->
  (forall x l', l1 ++ l2 = x :: l' -> next_timeout s' = deadline (timers s) x) ->
  tm_inv s' (l1 ++ l2).
Proof.
  intros [Hc Hu Hd Hs Ht] Hc' Hstrip (t & Hid & Hiu) Hnt.
  pose proof (chain_NoDup _ _ _ Hc) as Hnd. apply NoDup_app in Hnd as (Hn1 & Hn2 & [Hn3 Hn4]%NoDup_cons).
  assert (Hne : forall x, x ∈ l1 ++ l2 -> x <> id).
  { intros x [Hx|Hx]%elem_of_app ->; [apply (Hn2 id Hx); set_solver|done]. }
  assert (Hdl : forall x, x ∈ l1 ++ l2 -> deadline (timers s') x = deadline (timers s) x).
  { intros x Hx. apply strip_lookup, Hstrip. by apply Hne. }
  split; [done| | | |].
  - intros x tx Htx. destruct (decide (x = id)) as [->|Hx].
    + rewrite Hid in Htx. injection Htx as <-. rewrite Hiu, bool_decide_eq_false_2; [done|].
      intros Hin. by apply (Hne id).
    + destruct (strip_lookup _ _ x (Hstrip x Hx)) as (_ & _ & E). rewrite Htx in E. cbn in E.
      destruct (timers s !! x) as [t0|] eqn:Ex; [|done]. injection E as E. rewrite E, (Hu _ _ Ex).
      apply bool_decide_ext. rewrite !elem_of_app, elem_of_cons. naive_solver.
  - intros x Hx. apply (strip_lookup (timers s)); [apply Hstrip; by apply Hne|]. apply Hd.
    rewrite elem_of_app in *. set_solver.
  - apply (sorted_ext (deadline (timers s))); [done|].
    clear -Hs. induction l1 as [|y l1 IH]; cbn in *; inversion Hs; subst; [done|].
    constructor; [by apply IH|]. rewrite list.Forall_forall in *. set_solver.
  - intros x l' E. rewrite (Hnt x l' E), Hdl; [done|]. rewrite E. set_solver.
Qed.

Lemma dequeue_alarm_spec s id l :
  tm_inv s (id :: l) ->
  exists s', dequeue_alarm s = Some (id, s') /\ tm_inv s' l /\ system_uptime s' = system_uptime s /\
    (forall x, deadline (timers s') x = deadline (timers s) x) /\
    (forall x, is_Some (timers s' !! x) <-> is_Some (timers s !! x)) /\
    (forall t, timers s !! id = Some t -> exists t', timers s' !! id = Some t' /\
       t_handler t' = t_handler t /\ t_proc_nr t' = t_proc_nr t) /\
    (l = [] -> next_timeout s' = TIMER_NEVER).
Proof.
  intros Hi. pose proof Hi as [Hc Hu Hd Hs Ht].
  destruct (Hd id) as [t Hid]; [set_solver|].
  pose proof (chain_remove _ _ [] _ _ Hc) as Hc'. cbn in Hc'.
  pose proof (chain_NoDup _ _ _ Hc) as [Hn1 Hn2]%NoDup_cons.
  pose proof Hc as [Hp _]. unfold dequeue_alarm. rewrite (bind_run _ _ s s s eq_refl), Hp.
  rewrite (bind_run _ _ s t s) by (unfold get_timer; by rewrite Hid).
  unfold tm_next in Hc'. rewrite Hid in Hc'. cbn [mbind option_bind] in Hc'.
  fold (tm_next (timers s)) in Hc'. pose proof (chain_head _ _ _ Hc') as Hnx.
  assert (Hch : forall t', chain (tm_next (<[id := t']> (timers s))) (t_next t) l).
  { intros t'. eapply seg_frame, Hc'. intros x Hx. rewrite tm_next_insert. apply upd_link_ne. set_solver. }
  assert (Hdl : forall p f x, deadline (<[id := t <| t_flags ::= f |> <| t_next := p |>]> (timers s)) x = deadline (timers s) x).
  { intros p f x. unfold deadline. destruct (decide (x = id)) as [->|]; [by rewrite lookup_insert_eq, Hid|by rewrite lookup_insert_ne]. }
  assert (Hsome : forall t' x, is_Some (<[id := t']> (timers s) !! x) <-> is_Some (timers s !! x)).
  { intros t' x. destruct (decide (x = id)) as [->|]; [rewrite lookup_insert_eq, Hid; by split; eauto|by rewrite lookup_insert_ne]. }
  unfold mbind, st_bind, modifyS, upd_timer, get_timer.
  destruct l as [|y l]; cbn [head] in Hnx; rewrite Hnx; cbn [liftO].
  - rsimpl. rewrite Hid. rsimpl. eexists. split; [done|].
    split; [|split; [done|split; [by intros x; apply (Hdl None (fun f => Z.ldiff f TIMER_INUSE))|split; [by apply Hsome|split]]]].
    + eapply (tm_inv_drop s _ [] []); [done| | | |done].
      * rewrite <- Hnx. apply Hch.
      * intros x Hx. rsimpl. by rewrite lookup_insert_ne.
      * rsimpl. rewrite lookup_insert_eq. eexists. split; [done|]. apply (inuse_ldiff t None).
    + rsimpl. rewrite lookup_insert_eq. intros t0 [= <-]. eauto.
    + done.
  - destruct (Hd y) as [ty Hty]; [set_solver|]. rsimpl. rewrite Hty. rsimpl. rewrite Hid. rsimpl.
    eexists. split; [done|].
    split; [|split; [done|split; [by intros x; apply (Hdl None (fun f => Z.ldiff f TIMER_INUSE))|split; [by apply Hsome|split]]]].
    + eapply (tm_inv_drop s _ [] (y :: l)); [done| | | |].
      * rewrite <- Hnx. apply Hch.
      * intros x Hx. rsimpl. by rewrite lookup_insert_ne.
      * rsimpl. rewrite lookup_insert_eq. eexists. split; [done|]. apply (inuse_ldiff t None).
      * rsimpl. intros x l' [= <- <-]. unfold deadline. by rewrite Hty.
    + rsimpl. rewrite lookup_insert_eq. intros t0 [= <-]. eauto.
    + done.
Qed.

Lemma remove_timer_out s l id :
  tm_inv s l -> id ∉ l -> remove_timer id s = None.
Proof.
  intros Hi Hni. pose proof Hi as [Hc Hu Hd Hs Ht]. unfold remove_timer.
  rewrite (bind_run _ _ s s s eq_refl).
  destruct (remove_walk_spec (timers s) id (S (size (timers s))) l None (pending_timers s)) as [Hw _];
    [done|done|by apply tm_fuel|].
  rewrite (bind_run _ _ s _ s) by (rewrite Hw by done; reflexivity).
  unfold last_or. destruct (last l) eqn:El; [done|]. apply last_None in El as ->.
  apply chain_nil in Hc. by unfold mbind, st_bind, liftO; rewrite Hc.
Qed.

Lemma remove_timer_spec s l1 id l2 :
  tm_inv s (l1 ++ id :: l2) ->
  exists s', remove_timer id s = Some (tt, s') /\ tm_inv s' (l1 ++ l2) /\
    system_uptime s' = system_uptime s /\
    (forall x, deadline (timers s') x = deadline (timers s) x) /\
    (forall x, is_Some (timers s' !! x) <-> is_Some (timers s !! x)) /\
    (l1 ++ l2 = [] -> next_timeout s' = next_timeout s /\ pending_timers s' = None).
Proof.
  intros Hi. pose proof Hi as [Hc Hu Hd Hs Ht].
  destruct (Hd id) as [t Hid]; [set_solver|].
  pose proof (chain_remove _ _ _ _ _ Hc) as Hc'.
  pose proof (chain_NoDup _ _ _ Hc) as Hnd. apply NoDup_app in Hnd as (Hn1 & Hn2 & [Hn3 Hn4]%NoDup_cons).
  assert (Hni : id ∉ l1) by (intros Hx; apply (Hn2 id Hx); set_solver).
  destruct (remove_walk_spec (timers s) id (S (size (timers s))) (l1 ++ id :: l2) None (pending_timers s))
    as [_ Hw]; [done|done|by apply tm_fuel|]. specialize (Hw l1 l2 eq_refl Hni).
  assert (Hxid : tm_next (timers s) id = t_next t) by (unfold tm_next; by rewrite Hid).
  assert (Hiu : forall t0, timer_inuse (t0 <| t_flags ::= (fun f => Z.ldiff f TIMER_INUSE) |>) = false).
  { intros t0. apply (inuse_ldiff t0 (t_next t0)). }
  unfold remove_timer. rewrite (bind_run _ _ s s s eq_refl).
  rewrite (bind_run _ _ s _ s) by (rewrite Hw; reflexivity).
  unfold last_or. destruct (last l1) as [p|] eqn:El; cbv beta iota.
  - assert (Hp : p ∈ l1).
    { destruct l1 as [|? ? _] using rev_ind; [done|]. rewrite last_snoc in El. set_solver. }
    destruct (Hd p) as [tp Htp]; [set_solver|].
    assert (p <> id) by set_solver.
    unfold mbind, st_bind, upd_timer, get_timer, liftO. rewrite Hid, Htp. rsimpl.
    rewrite lookup_insert_ne, Hid by done. rsimpl. eexists. split; [done|].
    assert (Hsame : forall x, strip <$> <[p := tp <| t_next := t_next t |>]> (timers s) !! x = strip <$> timers s !! x).
    { intros x. by apply strip_insert_next. }
    split; [|split; [done|split; [|split]]].
    + eapply (tm_inv_drop s); [done| | | |].
      * rsimpl. eapply seg_ext, Hc'. intros x. unfold tm_next, upd_link. rewrite !lookup_insert.
        rewrite Hid. cbn. repeat case_decide; simplify_eq; done.
      * intros x Hx. rsimpl. by rewrite lookup_insert_ne, <- Hsame.
      * rsimpl. rewrite lookup_insert_eq. eexists. split; [done|]. apply (Hiu t).
      * rsimpl. intros x l' E. destruct l1 as [|z l1]; [done|]. cbn in E. injection E as <- <-.
        by eapply Ht.
    + intros x. rsimpl. unfold deadline. rewrite !lookup_insert. repeat case_decide; subst; rsimpl.
      * by rewrite Hid.
      * by rewrite Htp.
      * done.
    + intros x. rsimpl. rewrite !lookup_insert. repeat case_decide; subst; rewrite ?Hid, ?Htp; split; eauto.
    + intros E. apply app_eq_nil in E as [-> _]. done.
  - apply last_None in El as ->. cbn [app] in *. pose proof Hc as [Hp _].
    rewrite Hxid in Hc'. pose proof (chain_head _ _ _ Hc') as Hnx.
    unfold mbind, st_bind, upd_timer, get_timer, liftO. rewrite Hp, Hid. rsimpl.
    destruct l2 as [|y l2]; cbn [head] in Hnx; rewrite Hnx.
    + unfold mret, st_ret. rsimpl. rewrite Hid. rsimpl. eexists. split; [done|].
      split; [|split; [done|split; [|split]]].
      * eapply (tm_inv_drop s _ [] []); [done| | | |done].
        -- done.
        -- intros x Hx. rsimpl. by rewrite lookup_insert_ne.
        -- rsimpl. rewrite lookup_insert_eq. eexists. split; [done|]. apply (Hiu t).
      * intros x. rsimpl. unfold deadline. rewrite !lookup_insert. case_decide; subst; [by rewrite Hid|done].
      * intros x. rsimpl. rewrite !lookup_insert. case_decide; subst; rewrite ?Hid; split; eauto.
      * done.
    + destruct (Hd y) as [ty Hty]; [set_solver|]. rsimpl. rewrite Hty. rsimpl. rewrite Hid. rsimpl.
      eexists. split; [done|]. split; [|split; [done|split; [|split]]].
      * eapply (tm_inv_drop s _ [] (y :: l2)); [done| | | |].
        -- rsimpl. rewrite <- Hnx. eapply seg_frame, Hc'. intros x Hx. rewrite tm_next_insert.
           apply upd_link_ne. set_solver.
        -- intros x Hx. rsimpl. by rewrite lookup_insert_ne.
        -- rsimpl. rewrite lookup_insert_eq. eexists. split; [done|]. apply (Hiu t).
        -- rsimpl. intros x l' [= <- <-]. unfold deadline. by rewrite Hty.
      * intros x. rsimpl. unfold deadline. rewrite !lookup_insert. case_decide; subst; [by rewrite Hid|done].
      * intros x. rsimpl. rewrite !lookup_insert. case_decide; subst; rewrite ?Hid; split; eauto.
      * done.
Qed.

(** ** Specification

    What the kernel expects of the timers: a list of deadlines, earliest first. *)
Inductive tm_req :=
| Arm (from id timeout : Z) (h : timerhandler_t)
| Fire
| Cancel (id : Z).

Definition tm_serve (r : tm_req) : ST tmst Z :=
  match r with
  | Arm from id timeout h => new_timer from id timeout h
  | Fire => dequeue_alarm
  | Cancel id => _ ← remove_timer id; mret OK
  end.

Notation aqueue := (list (Z * Z)).

Fixpoint aq_arm (d id : Z) (q : aqueue) : aqueue :=
  match q with
  | [] => [(d, id)]
  | (d', x) :: q' => if d' <? d then (d', x) :: aq_arm d id q' else (d, id) :: q
  end.

Definition aq_mem (id : Z) (q : aqueue) : bool := bool_decide (id ∈ q.*2).

(** [None]: a request the kernel must not make. *)
Definition aq_step (now : Z) (q : aqueue) (r : tm_req) : option (Z * aqueue) :=
  match r with
  | Arm _ id timeout _ =>
      if (timeout <=? 0) || aq_mem id q then Some (ERR, q)
      else Some (OK, aq_arm (u32 (now + timeout)) id q)
  | Fire => match q with [] => None | (_, x) :: q' => Some (x, q') end
  | Cancel id =>
      if aq_mem id q then Some (OK, filter (fun p => p.2 <> id) q) else None
  end.

(** Which requests name existing timers. *)
Definition tm_valid (s : tmst) (r : tm_req) : Prop :=
  match r with
  | Arm _ id _ _ => is_Some (timers s !! id)
  | _ => True
  end.

Definition tm_rep (s : tmst) (q : aqueue) : Prop :=
  exists l, tm_inv s l /\ q = map (fun x => (deadline (timers s) x, x)) l.

Lemma aq_arm_map d d' dl id l :
  (forall x, x ∈ l -> d' x = d x) -> d' id = dl ->
  aq_arm dl id (map (fun x => (d x, x)) l) = map (fun x => (d' x, x)) (arm d' dl id l).
Proof.
  intros Hd Hid. induction l as [|y l IH]; cbn; [by rewrite Hid|].
  rewrite Hd by set_solver. destruct (d y <? dl); cbn.
  - rewrite IH by set_solver. by rewrite Hd by set_solver.
  - rewrite Hid, Hd by set_solver. do 2 f_equal. apply map_ext_in.
    intros x Hx%list_elem_of_In. rewrite Hd by set_solver. done.
Qed.

Lemma aq_mem_map d id l : aq_mem id (map (fun x => (d x, x)) l) = bool_decide (id ∈ l).
Proof.
  unfold aq_mem. apply bool_decide_ext. induction l as [|y l IH]; cbn; [done|].
  rewrite !elem_of_cons, IH. done.
Qed.

(** C21: the intrusive timer list refines a queue of deadlines, for every
    request: arming inserts by deadline and fails exactly on a zero timeout or a
    pending timer; firing takes the earliest deadline; cancelling takes out the
    named timer.  Firing an empty queue and cancelling a timer that is not
    pending, which the queue does not allow, panic or dereference NULL. *)
Theorem timer_queue_refines s q r :
  tm_rep s q -> tm_valid s r ->
  match aq_step (system_uptime s) q r with
  | Some (res, q') => exists s', tm_serve r s = Some (res, s') /\ tm_rep s' q' /\
                        system_uptime s' = system_uptime s
  | None => tm_serve r s = None
  end.
Proof.
  intros (l & Hi & ->) Hv. destruct r as [from id timeout h| |id]; cbn [aq_step tm_serve].
  - rewrite aq_mem_map. destruct Hv as [t Hid]. pose proof (tm_inuse _ _ Hi _ _ Hid) as Hu.
    destruct (Z.leb_spec timeout 0) as [Hle|Hgt]; cbn [orb].
    { exists s. split; [|split; [by exists l|done]]. unfold new_timer. by destruct (Z.leb_spec timeout 0); [|lia]. }
    case_bool_decide as Hin.
    { exists s. split; [|split; [by exists l|done]]. unfold new_timer.
      destruct (Z.leb_spec timeout 0); [lia|].
      rewrite (bind_run _ _ s t s) by (unfold get_timer; by rewrite Hid). by rewrite Hu. }
    destruct (new_timer_armed s l id t from timeout h) as (s' & Hr & Hdl & Hdid & _ & Hup & _ & Hi');
      [done..|].
    exists s'. split; [done|]. split; [|done]. eexists. split; [exact Hi'|].
    rewrite Hdid. apply aq_arm_map; [|done]. intros x Hx. apply Hdl. intros ->. done.
  - destruct l as [|x l]; cbn [map].
    { destruct Hi as [Hc _ _ _ _]. apply chain_nil in Hc. unfold dequeue_alarm, mbind, st_bind, getS.
      by rewrite Hc. }
    destruct (dequeue_alarm_spec s x l Hi) as (s' & Hr & Hi' & Hup & Hdl & _).
    exists s'. split; [done|]. split; [|done]. exists l. split; [done|].
    apply map_ext. intros y. by rewrite Hdl.
  - rewrite aq_mem_map. case_bool_decide as Hin.
    + pose proof (chain_NoDup _ _ _ (tm_chain _ _ Hi)) as Hnd.
      apply list_elem_of_split in Hin as (l1 & l2 & ->).
      destruct (remove_timer_spec s l1 id l2 Hi) as (s' & Hr & Hi' & Hup & Hdl & _).
      exists s'. rewrite (bind_run _ _ _ _ _ Hr). split; [done|]. split; [|done].
      exists (l1 ++ l2). split; [done|].
      apply NoDup_app in Hnd as (_ & Hn2 & [Hn3 _]%NoDup_cons).
      rewrite !map_app, filter_app. cbn [map]. rewrite filter_cons_False by (cbn; tauto).
      f_equal; [|]; rewrite filter_all; try (apply map_ext; intros y; by rewrite Hdl).
      * apply list.Forall_forall. intros [d y] Hy%list_elem_of_fmap. destruct Hy as (z & [= -> ->] & Hz). cbn.
        intros ->. apply (Hn2 id Hz). set_solver.
      * apply list.Forall_forall. intros [d y] Hy%list_elem_of_fmap. destruct Hy as (z & [= -> ->] & Hz). cbn. by intros ->.
    + unfold mbind, st_bind. by rewrite (remove_timer_out _ _ _ Hi Hin).
Qed.

(** A boot-time state: three idle timers, nothing pending. *)
Definition tm_boot (now : Z) : tmst :=
  mkTm (<[1 := timer_zero]> (<[2 := timer_zero]> {[SCHED_TIMER := timer_zero]})) None 0 now.

Lemma tm_inv_empty ts nt now :
  (forall x t, ts !! x = Some t -> timer_inuse t = false) -> tm_inv (mkTm ts None nt now) [].
Proof.
  intros H. split; cbn; [done| |set_solver|constructor|done].
  intros x t Ht. rewrite (H _ _ Ht), bool_decide_eq_false_2; [done|set_solver].
Qed.

Lemma tm_boot_inv now : tm_inv (tm_boot now) [].
Proof.
  apply tm_inv_empty. intros x t. rewrite !lookup_insert_Some, lookup_singleton_Some. naive_solver.
Qed.

Lemma timer_queue_refines_witness :
  match aq_step 7 [] (Arm 2 2 30 H_wakeup_process) with
  | Some (res, q') => exists s', tm_serve (Arm 2 2 30 H_wakeup_process) (tm_boot 7) = Some (res, s') /\
                        tm_rep s' q' /\ system_uptime s' = 7
  | None => tm_serve (Arm 2 2 30 H_wakeup_process) (tm_boot 7) = None
  end.
Proof.
  apply (timer_queue_refines (tm_boot 7) [] (Arm 2 2 30 H_wakeup_process)).
  - exists []. split; [apply tm_boot_inv|done].
  - cbn. by eexists.
Defined.

(** Cancelling the only pending timer leaves [next_timeout] at the
    cancelled deadline, so that when the clock reaches it [do_ticks] takes a
    timer from an empty list and panics. *)
Theorem cancel_last_leaves_timeout s id :
  tm_inv s [id] ->
  exists s', remove_timer id s = Some (tt, s') /\
    next_timeout s' = deadline (timers s) id /\ dequeue_alarm s' = None.
Proof.
  intros Hi. destruct (remove_timer_spec s [] id [] Hi) as (s' & Hr & _ & _ & _ & _ & Hlast).
  destruct (Hlast eq_refl) as [Hnt Hp]. exists s'. split; [done|]. split.
  - rewrite Hnt. by eapply (tm_timeout _ _ Hi).
  - unfold dequeue_alarm, mbind, st_bind, getS. by rewrite Hp.
Qed.

Definition tm_armed : tmst :=
  mkTm {[2 := mkTimer 2 37 None H_wakeup_process 1]} (Some 2) 37 7.

Lemma cancel_last_leaves_timeout_witness :
  exists s', remove_timer 2 tm_armed = Some (tt, s') /\
    next_timeout s' = deadline (timers tm_armed) 2 /\ dequeue_alarm s' = None.
Proof.
  apply (cancel_last_leaves_timeout tm_armed 2).
  split; cbn; [by split| | |by repeat constructor|by intros ?? [= <- <-]].
  - intros x t [<- <-]%lookup_singleton_Some. by rewrite bool_decide_eq_true_2 by set_solver.
  - intros x ->%list_elem_of_singleton. by eexists.
Defined.

(** Zeroing a pending timer cuts the list behind it. *)
Lemma clear_timer_truncates s l1 id l2 :
  tm_inv s (l1 ++ id :: l2) ->
  exists s', clear_timer id s = Some (tt, s') /\
    chain (tm_next (timers s')) (pending_timers s') (l1 ++ [id]).
Proof.
  intros [Hc _ _ _ _]. eexists. split; [done|]. rsimpl.
  pose proof (chain_NoDup _ _ _ Hc) as Hnd. apply NoDup_app in Hnd as (Hn1 & Hn2 & [Hn3 _]%NoDup_cons).
  eapply seg_ext; [intros x; apply tm_next_insert|]. cbn [t_next timer_zero].
  apply (chain_relink _ _ _ _ l2); [|set_solver|done|done].
  apply NoDup_app. split; [done|]. split; [|apply NoDup_singleton].
  intros x Hx ->%list_elem_of_singleton. apply (Hn2 id Hx). set_solver.
Qed.
