(* ===== verification/Slab.v ===== *)
(** * winix/slab.c: the kernel allocator

    A block is a header of [SLAB_BLOCK_SIZE] words followed by its data.  The
    headers are kept under their addresses; the data is not modelled.  Sizes are
    unsigned words.  [base] is the start of the list, which the code walks with
    [prev]. *)
From S2P Require Import Prelude Bitmap Mm Linked.

Record mem_block := mkBlock {
  b_size : Z;
  b_next : option Z;
  b_prev : option Z;
  b_ra : Z;
  b_free : bool;
  b_ptr : Z
}.
#[export] Instance eta_block : Settable mem_block := mkEta (fun b =>
  mkBlock (b_size b) (b_next b) (b_prev b) (b_ra b) (b_free b) (b_ptr b)).

Record slst := mkSlab {
  blocks : gmap Z mem_block;
  base : option Z;
  count : Z;
  sl_mm : mmst
}.
#[export] Instance eta_slst : Settable slst := mkEta (fun s =>
  mkSlab (blocks s) (base s) (count s) (sl_mm s)).

(** sizeof(struct mem_block) - 1, a word per member *)
Definition SLAB_BLOCK_SIZE : Z := 6.

Definition align4 (x : Z) : Z := u32 (Z.shiftl (Z.shiftr (u32 (x - 1)) 2) 2 + 4).
Definition ALIGN1K_HB (x : Z) : Z := u32 (Z.shiftl (Z.shiftr (u32 (x - 1)) 10) 10 + PAGE_LEN).

Definition get_blk (a : Z) : ST slst mem_block := fun s => liftO (blocks s !! a) s.

Definition upd_blk (a : Z) (f : mem_block -> mem_block) : ST slst unit := fun s =>
  match blocks s !! a with
  | Some b => Some (tt, s <| blocks ::= insert a (f b) |>)
  | None => None
  end.

(** Writing a header where there was none. *)
Definition new_blk (a : Z) (b : mem_block) : ST slst unit :=
  modifyS (fun s => s <| blocks ::= insert a b |>).

(** [b->data] *)
Definition b_data (a : Z) : Z := u32 (a + SLAB_BLOCK_SIZE).

(** The block found, and the last block visited before it. *)
Fixpoint find_block (fuel : nat) (bs : gmap Z mem_block) (first b : option Z) (size : Z)
  : option (option Z * option Z) :=
  match b, fuel with
  | None, _ => Some (first, None)
  | Some _, O => None
  | Some a, S f =>
      blk ← bs !! a;
      if b_free blk && (b_size blk >=? size) then Some (first, b)
      else find_block f bs b (b_prev blk) size
  end.

Definition split_block (b s : Z) : ST slst Z :=
  blk ← get_blk b;
  let new := u32 (b_data b + b_size blk - s - SLAB_BLOCK_SIZE) in
  _ ← new_blk new (mkBlock s (b_next blk) (Some b) 0 true (b_data new));
  _ ← upd_blk b (fun x => x <| b_size := u32 (b_size blk - s - SLAB_BLOCK_SIZE) |> <| b_next := Some new |>);
  st ← getS;
  _ ← (if decide (base st = Some b) then modifyS (fun st => st <| base := Some new |>) else mret tt);
  _ ← (match b_next blk with
       | Some n => upd_blk n (fun x => x <| b_prev := Some new |>)
       | None => mret tt
       end);
  mret new.

(** The result 0 is NULL. *)
Definition extend_heap (first : option Z) (s : Z) : ST slst Z :=
  let s := if s <? SLAB_BLOCK_SIZE then SLAB_BLOCK_SIZE + 1 else s in
  let round_s := ALIGN1K_HB s in
  ptr ← zoom sl_mm (fun m st => st <| sl_mm := m |>) (get_free_pages (round_s / PAGE_LEN) GFP_HIGH);
  if ptr =? 0 then mret 0
  else
    _ ← new_blk ptr (mkBlock (u32 (round_s - SLAB_BLOCK_SIZE)) first None 0 true (b_data ptr));
    _ ← (match first with
         | Some f => upd_blk f (fun x => x <| b_prev := Some ptr |>)
         | None => mret tt
         end);
    if u32 (round_s - s) >? SLAB_BLOCK_SIZE * 2 then split_block ptr s
    else mret ptr.

(** The choice of a block in [_kmalloc]: the first that fits, split when it is
    much larger, or a new one. *)
Definition pick_block (s : Z) : ST slst Z :=
  st ← getS;
  match base st with
  | Some bs =>
      r ← liftO (find_block (S (size (blocks st))) (blocks st) (Some bs) (Some bs) s);
      match (r : option Z * option Z) with
      | (_, Some b) =>
          blk ← get_blk b;
          if u32 (b_size blk - s) >=? SLAB_BLOCK_SIZE * 2 then split_block b s else mret b
      | (first, None) => extend_heap first s
      end
  | None =>
      b ← extend_heap None s;
      if b =? 0 then mret 0
      else _ ← modifyS (fun st => st <| base := Some b |>); mret b
  end.

Definition _kmalloc (sz ra : Z) : ST slst Z :=
  _ ← modifyS (fun st => st <| count ::= (fun c => s32 (c + 1)) |>);
  let s := align4 sz in
  b ← pick_block s;
  if b =? 0 then mret 0
  else
    _ ← upd_blk b (fun x => x <| b_ra := ra |> <| b_free := false |>);
    mret (b_data b).

Definition get_block (p : Z) : Z := u32 (p - SLAB_BLOCK_SIZE).

(** Reading [ptr] of a header that was never written is [None]. *)
Definition valid_addr (p : Z) : ST slst bool :=
  if p =? 0 then mret false
  else blk ← get_blk (get_block p); mret (b_ptr blk =? p).

Definition fusion (b : Z) : ST slst Z :=
  blk ← get_blk b;
  match b_next blk with
  | None => mret b
  | Some next =>
      nblk ← get_blk next;
      if b_free nblk && (u32 (b_ptr blk + b_size blk) =? next) then
        _ ← upd_blk b (fun x => x <| b_size := u32 (b_size blk + SLAB_BLOCK_SIZE + b_size nblk) |>
                                  <| b_next := b_next nblk |>);
        st ← getS;
        _ ← (if decide (base st = Some next) then modifyS (fun st => st <| base := Some b |>) else mret tt);
        _ ← (match b_next nblk with
             | Some n => upd_blk n (fun x => x <| b_prev := Some b |>)
             | None => mret tt
             end);
        mret b
      else mret b
  end.

(** The warning printed for an invalid address has no effect on the state. *)
Definition _kfree (p ra : Z) : ST slst unit :=
  v ← valid_addr p;
  if (v : bool) then
    let b := get_block p in
    _ ← upd_blk b (fun x => x <| b_free := true |>);
    blk ← get_blk b;
    b ← (match b_prev blk with
         | Some pr =>
             pblk ← get_blk pr;
             if b_free pblk then fusion pr else mret b
         | None => mret b
         end);
    blk ← get_blk b;
    match b_next blk with
    | Some n =>
        nblk ← get_blk n;
        if b_free nblk then _ ← fusion b; mret tt else mret tt
    | None => mret tt
    end
  else mret tt.

(** ** Invariant *)
Definition bprev (bs : gmap Z mem_block) (a : Z) : option Z := b ← bs !! a; b_prev b.
Definition bnext (bs : gmap Z mem_block) (a : Z) : option Z := b ← bs !! a; b_next b.

(** The words of a block, header included. *)
Definition b_end (a : Z) (b : mem_block) : Z := a + SLAB_BLOCK_SIZE + b_size b.

Definition MEM_END : Z := 131072.

Record blk_ok (st : slst) (a : Z) (b : mem_block) : Prop := {
  bo_ptr : b_ptr b = a + SLAB_BLOCK_SIZE;
  bo_size : 0 <= b_size b;
  bo_pos : 0 < a;
  bo_end : b_end a b <= MEM_END;
  bo_used : forall w, a <= w < b_end a b -> used (sl_mm st) (w / 1024) = true
}.

(** [l] lists the blocks from [base] backwards. *)
Record slab_inv (st : slst) (l : list Z) : Prop := {
  si_prev : chain (bprev (blocks st)) (base st) l;
  si_next : chain (bnext (blocks st)) (last l) (reverse l);
  si_dom : forall a, a ∈ l -> is_Some (blocks st !! a);
  si_ok : forall a b, a ∈ l -> blocks st !! a = Some b -> blk_ok st a b;
  si_disj : forall a a' b b', a ∈ l -> a' ∈ l -> a <> a' ->
    blocks st !! a = Some b -> blocks st !! a' = Some b' -> b_end a b <= a' \/ b_end a' b' <= a;
  si_mm : mm_inv (sl_mm st)
}.

(** An allocated block, as its user sees it: address and number of words. *)
Definition live (st : slst) (l : list Z) (p z : Z) : Prop :=
  exists a b, a ∈ l /\ blocks st !! a = Some b /\ b_free b = false /\
    p = a + SLAB_BLOCK_SIZE /\ z = b_size b.

Lemma bprev_insert bs a b x : bprev (<[a := b]> bs) x = upd_link (bprev bs) a (b_prev b) x.
Proof. unfold bprev, upd_link. rewrite lookup_insert. repeat case_decide; simplify_eq; done. Qed.

Lemma bnext_insert bs a b x : bnext (<[a := b]> bs) x = upd_link (bnext bs) a (b_next b) x.
Proof. unfold bnext, upd_link. rewrite lookup_insert. repeat case_decide; simplify_eq; done. Qed.

Lemma slab_NoDup st l : slab_inv st l -> NoDup l.
Proof. intros [Hp _ _ _ _ _]. by eapply chain_NoDup. Qed.

Lemma u32_small z : 0 <= z < 4294967296 -> u32 z = z.
Proof. intros. apply u32_id. unfold is_u32, UINT_MOD. lia. Qed.

(** What a block must look like for the list order: [b_next] of a node is the
    node before it. *)
Lemma slab_next st l1 b l2 blk :
  slab_inv st (l1 ++ b :: l2) -> blocks st !! b = Some blk -> b_next blk = last l1.
Proof.
  intros [_ Hn _ _ _ _] Hb. rewrite reverse_app, reverse_cons, <- app_assoc in Hn. cbn in Hn.
  apply chain_split_next in Hn. unfold bnext in Hn. rewrite Hb in Hn. cbn in Hn. rewrite Hn.
  by rewrite head_reverse.
Qed.

Lemma slab_prev st l1 b l2 blk :
  slab_inv st (l1 ++ b :: l2) -> blocks st !! b = Some blk -> b_prev blk = head l2.
Proof.
  intros [Hp _ _ _ _ _] Hb. apply chain_split_next in Hp. unfold bprev in Hp. by rewrite Hb in Hp.
Qed.

Lemma last_app_cons {A} (l1 l2 : list A) b : last (l1 ++ b :: l2) = last (b :: l2).
Proof. by rewrite last_app; destruct (last (b :: l2)) eqn:E; [|apply last_None in E]. Qed.

Lemma base_head st l1 l2 b :
  slab_inv st (l1 ++ b :: l2) -> base st = Some b <-> l1 = [].
Proof.
  intros Hi. pose proof (slab_NoDup _ _ Hi) as Hnd. destruct Hi as [Hp _ _ _ _ _].
  apply chain_head in Hp. destruct l1 as [|x l1]; cbn in Hp; rewrite Hp; [done|].
  split; [|done]. intros [= ->]. cbn in Hnd. apply NoDup_cons in Hnd. set_solver.
Qed.

(** The link field of the old neighbour, when there is one. *)
Lemma prev_link_opt st n x bs' :
  (forall m, n = Some m -> is_Some (bs' !! m)) ->
  exists bs'', (match n with
                | Some n => upd_blk n (fun b => b <| b_prev := x |>)
                | None => mret tt
                end) (st <| blocks := bs' |>) = Some (tt, st <| blocks := bs'' |>) /\
    (forall a, bs'' !! a = (if decide (n = Some a) then (fun b => b <| b_prev := x |>) <$> bs' !! a else bs' !! a)).
Proof.
  intros Hn. destruct n as [n|].
  - destruct (Hn n eq_refl) as [b Hb]. unfold upd_blk. rsimpl. rewrite Hb.
    eexists. split; [done|]. intros a. rewrite lookup_insert.
    destruct (decide (n = a)) as [->|]; case_decide; simplify_eq; [by rewrite Hb|done].
  - exists bs'. split; [done|]. intros a. by rewrite decide_False.
Qed.

Lemma split_block_spec st l1 b l2 blk s :
  slab_inv st (l1 ++ b :: l2) -> blocks st !! b = Some blk ->
  0 <= s -> s + SLAB_BLOCK_SIZE <= b_size blk -> b_free blk = true ->
  let new := b + b_size blk - s in
  exists st', split_block b s st = Some (new, st') /\
    slab_inv st' (l1 ++ new :: b :: l2) /\ sl_mm st' = sl_mm st /\
    (exists nb, blocks st' !! new = Some nb /\ b_size nb = s /\ b_free nb = true) /\
    (forall p z, live st' (l1 ++ new :: b :: l2) p z <-> live st (l1 ++ b :: l2) p z).
Proof.
  intros Hi Hb Hs Hfit Hfree new.
  assert (Hnd0 : new - b = b_size blk - s) by (unfold new; lia). clearbody new. pose proof (slab_NoDup _ _ Hi) as Hnd.
  pose proof (slab_next _ _ _ _ _ Hi Hb) as Hnx. pose proof (slab_prev _ _ _ _ _ Hi Hb) as Hpv.
  pose proof (base_head _ _ _ _ Hi) as Hbase.
  pose proof Hi as [Hp Hn Hd Hok Hdis Hmm].
  destruct (Hok b blk ltac:(set_solver) Hb) as [Hptr Hsz Hpos Hend Hused].
  unfold b_end, SLAB_BLOCK_SIZE, MEM_END in *.
  assert (Hnew : forall a, a ∈ l1 ++ b :: l2 -> a <> new).
  { intros a Ha ->. destruct (decide (new = b)) as [E|E]; [lia|].
    destruct (Hd _ Ha) as [bn Hbn]. destruct (Hok _ _ Ha Hbn) as [_ Hz _ _ _].
    destruct (Hdis b new blk bn ltac:(set_solver) Ha ltac:(done) Hb Hbn); unfold b_end, SLAB_BLOCK_SIZE in *; lia. }
  assert (Hnewne : new <> b) by (specialize (Hnew b ltac:(set_solver)); done).
  assert (Hu1 : u32 (b_data b + b_size blk - s - SLAB_BLOCK_SIZE) = new).
  { unfold b_data, SLAB_BLOCK_SIZE. rewrite (u32_small (b + 6)) by lia. rewrite u32_small by lia. lia. }
  set (nb := mkBlock s (b_next blk) (Some b) 0 true (b_data new)).
  set (bb := blk <| b_size := u32 (b_size blk - s - SLAB_BLOCK_SIZE) |> <| b_next := Some new |>).
  set (bs1 := <[b := bb]> (<[new := nb]> (blocks st))).
  set (base' := if decide (base st = Some b) then Some new else base st).
  destruct (prev_link_opt (st <| base := base' |>) (b_next blk) (Some new) bs1) as (bs2 & Hlink & Hbs2).
  { intros m Hm. rewrite Hnx in Hm. apply last_Some in Hm as [l1' ->]. unfold bs1. rewrite !lookup_insert.
    repeat case_decide; [by eauto..|]. apply Hd. set_solver. }
  exists (st <| base := base' |> <| blocks := bs2 |>).
  assert (Hrun : split_block b s st = Some (new, st <| base := base' |> <| blocks := bs2 |>)).
  { unfold split_block. rewrite (bind_run _ _ st blk st) by (unfold get_blk; by rewrite Hb).
    rewrite Hu1. fold nb. rewrite (bind_run _ _ st tt (st <| blocks := <[new := nb]> (blocks st) |>)) by done.
    rewrite (bind_run _ _ _ tt (st <| blocks := bs1 |>))
      by (unfold upd_blk; rsimpl; rewrite lookup_insert_ne, Hb by done; done).
    rewrite (bind_run _ _ _ _ _ eq_refl).
    rewrite (bind_run _ _ _ tt (st <| base := base' |> <| blocks := bs1 |>)).
    2:{ unfold base'. rsimpl. case_decide; done. }
    by rewrite (bind_run _ _ _ _ _ Hlink). }
  assert (Hlast : forall a, last l1 = Some a -> a ∈ l1).
  { intros a [l1' ->]%last_Some. set_solver. }
  apply NoDup_app in Hnd as (Hnd1 & Hnd12 & [Hnd2 Hnd3]%NoDup_cons).
  assert (Hbl1 : b ∉ l1) by (intros Hx; apply (Hnd12 b Hx); set_solver).
  assert (Hlk : forall a, bs2 !! a =
     if decide (a = new) then Some nb else if decide (a = b) then Some bb
     else if decide (last l1 = Some a) then (fun x => x <| b_prev := Some new |>) <$> blocks st !! a
     else blocks st !! a).
  { intros a. rewrite Hbs2, Hnx. unfold bs1. rewrite !lookup_insert.
    rewrite (decide_ext (b = a) (a = b)), (decide_ext (new = a) (a = new)) by naive_solver.
    destruct (decide (a = new)) as [->|]; [|destruct (decide (a = b)) as [->|]; [|done]].
    - rewrite decide_False, decide_False; [done|done|]. intros E%Hlast. apply (Hnew new); set_solver.
    - rewrite decide_False; [done|]. intros E%Hlast. done. }
  assert (Hsame : forall a, a <> new -> a <> b -> exists f, bs2 !! a = (fun x => x <| b_prev := f x |>) <$> blocks st !! a).
  { intros a ??. rewrite Hlk, !decide_False by done. case_decide; [by exists (fun _ => Some new)|].
    exists b_prev. by destruct (blocks st !! a) as [[]|]. }
  assert (Hszb : b_size bb = b_size blk - s - 6).
  { unfold bb, SLAB_BLOCK_SIZE. rsimpl. apply u32_small. lia. }
  assert (Hinv : slab_inv (st <| base := base' |> <| blocks := bs2 |>) (l1 ++ new :: b :: l2)).
  { split; gsimpl.
    - pose proof (chain_insert _ _ l1 (b :: l2) new Hp ltac:(intros Hx; by apply (Hnew new))) as Hc.
      assert (Hb' : base' = match last l1 with Some _ => base st | None => Some new end).
      { unfold base'. destruct (decide (base st = Some b)) as [E|E].
        - apply Hbase in E as ->. done.
        - destruct (last l1) eqn:El; [done|]. apply last_None in El as ->. exfalso. by apply E, Hbase. }
      rewrite Hb'. destruct (last l1) as [la|] eqn:El.
      + eapply seg_ext, Hc. intros x. unfold bprev. rewrite Hlk. unfold upd_link.
        destruct (decide (x = new)) as [->|]; [|destruct (decide (x = b)) as [->|]].
        * rewrite decide_False; [done|]. intros ->. apply (Hnew la); [|done]. specialize (Hlast _ eq_refl). set_solver.
        * rewrite decide_False by (intros ->; by apply Hbl1, Hlast). cbn. unfold bprev. by rewrite Hb.
        * rewrite (decide_ext (Some la = Some x) (x = la)) by naive_solver. case_decide; [|done]. subst x.
          destruct (Hd la) as [bx ->]; [|done]. specialize (Hlast _ eq_refl). set_solver.
      + eapply seg_ext, Hc. intros x. unfold bprev. rewrite Hlk. unfold upd_link.
        destruct (decide (x = new)) as [->|]; [done|].
        destruct (decide (x = b)) as [->|]; [|done]. cbn. unfold bprev. by rewrite Hb.
    - rewrite last_app_cons, last_cons_cons, <- (last_app_cons l1).
      pose proof (chain_insert (bnext (blocks st)) (last (l1 ++ b :: l2)) (reverse l2 ++ [b]) (reverse l1) new) as Hc.
      rewrite last_snoc, <- app_assoc, head_reverse in Hc. cbn [app] in Hc.
      rewrite !reverse_app, !reverse_cons, <- !app_assoc in *. cbn [app] in *.
      specialize (Hc Hn ltac:(intros Hx; apply (Hnew new); [set_solver|done])).
      eapply seg_ext, Hc. intros x. unfold bnext. rewrite Hlk. unfold upd_link.
      destruct (decide (x = new)) as [->|]; [by rewrite decide_False|].
      destruct (decide (x = b)); [done|]. case_decide; [|done]. by destruct (blocks st !! x).
    - intros a Ha. rewrite Hlk. destruct (decide (a = new)); [by eauto|]. destruct (decide (a = b)); [by eauto|].
      destruct (Hd a) as [x ->]; [set_solver|]. case_decide; cbn; eauto.
    - intros a ba Ha Hba. destruct (decide (a = new)) as [->|]; [|destruct (decide (a = b)) as [->|]].
      + rewrite Hlk, decide_True in Hba by done. injection Hba as <-. split; cbn; unfold b_end, b_data, SLAB_BLOCK_SIZE, MEM_END; cbn.
        * rewrite u32_small; lia.
        * lia.
        * lia.
        * lia.
        * intros w Hw. apply Hused. lia.
      + rewrite Hlk, decide_False, decide_True in Hba by done. injection Hba as <-.
        split; unfold b_end, SLAB_BLOCK_SIZE, MEM_END; rewrite ?Hszb; unfold bb; gsimpl; [lia|lia|lia|lia|].
        intros w Hw. apply Hused. lia.
      + destruct (Hsame a) as [f Hf]; [done..|]. rewrite Hf in Hba.
        destruct (blocks st !! a) as [x|] eqn:Ex; [|done]. injection Hba as <-.
        destruct (Hok a x ltac:(set_solver) Ex). split; done.
    - assert (Hsub : forall a ba, a ∈ l1 ++ new :: b :: l2 -> bs2 !! a = Some ba ->
                (a = new /\ b_end a ba = b + 6 + b_size blk) \/
                (a = b /\ b_end a ba = new) \/
                (a <> new /\ a <> b /\ a ∈ l1 ++ b :: l2 /\ exists x, blocks st !! a = Some x /\ b_end a x = b_end a ba)).
      { intros a ba Ha Hba. unfold b_end, SLAB_BLOCK_SIZE.
        destruct (decide (a = new)) as [->|]; [|destruct (decide (a = b)) as [->|]].
        - left. rewrite Hlk, decide_True in Hba by done. injection Hba as <-. cbn. lia.
        - right; left. rewrite Hlk, decide_False, decide_True in Hba by done. injection Hba as <-.
          rewrite Hszb. lia.
        - right; right. destruct (Hsame a) as [f Hf]; [done..|]. rewrite Hf in Hba.
          destruct (blocks st !! a) as [x|] eqn:Ex; [|done]. injection Hba as <-.
          split; [done|]. split; [done|]. split; [set_solver|]. by exists x. }
      intros a a' ba ba' Ha Ha' Hne Hba Hba'.
      destruct (Hsub a ba Ha Hba) as [(-> & E1)|[(-> & E1)|(N1 & N2 & M1 & x & Ex & E1)]];
      destruct (Hsub a' ba' Ha' Hba') as [(-> & E2)|[(-> & E2)|(N1' & N2' & M1' & x' & Ex' & E2)]];
        try done; rewrite ?E1, ?E2; try lia.
      + destruct (Hdis b a' blk x' ltac:(set_solver) M1' ltac:(done) Hb Ex'); unfold b_end, SLAB_BLOCK_SIZE in *; lia.
      + destruct (Hdis b a' blk x' ltac:(set_solver) M1' ltac:(done) Hb Ex'); unfold b_end, SLAB_BLOCK_SIZE in *; lia.
      + destruct (Hdis a b x blk M1 ltac:(set_solver) ltac:(done) Ex Hb); unfold b_end, SLAB_BLOCK_SIZE in *; lia.
      + destruct (Hdis a b x blk M1 ltac:(set_solver) ltac:(done) Ex Hb); unfold b_end, SLAB_BLOCK_SIZE in *; lia.
      + rewrite <- E1, <- E2. by apply (Hdis a a' x x').
    - done. }
  split; [done|]. split; [done|]. split; [done|]. split.
  { exists nb. gsimpl. rewrite Hlk, decide_True by done. done. }
  intros p z. unfold live. gsimpl. split.
  - intros (a & ba & Ha & Hba & Hfr & -> & ->). destruct (decide (a = new)) as [->|]; [|destruct (decide (a = b)) as [->|]].
    + rewrite Hlk, decide_True in Hba by done. injection Hba as <-. done.
    + rewrite Hlk, decide_False, decide_True in Hba by done. injection Hba as <-. unfold bb in Hfr. rsimpl. congruence.
    + destruct (Hsame a) as [f Hf]; [done..|]. rewrite Hf in Hba.
      destruct (blocks st !! a) as [x|] eqn:Ex; [|done]. injection Hba as <-. exists a, x. split; [set_solver|done].
  - intros (a & ba & Ha & Hba & Hfr & -> & ->). assert (a <> b) by (intros ->; congruence).
    destruct (Hsame a) as [f Hf]; [by apply Hnew|done|]. rewrite Hba in Hf. exists a. eexists. split; [set_solver|].
    split; [exact Hf|]. done.
Qed.

(** Joining [b] with the block [x] right after it. *)
Lemma fusion_join st l1 x b l2 blk xb :
  slab_inv st (l1 ++ x :: b :: l2) -> blocks st !! b = Some blk -> blocks st !! x = Some xb ->
  b_free blk = true -> b_free xb = true -> b_end b blk = x ->
  exists st', fusion b st = Some (b, st') /\ slab_inv st' (l1 ++ b :: l2) /\
    (exists b', blocks st' !! b = Some b' /\ b_free b' = true) /\
    (forall p z, live st' (l1 ++ b :: l2) p z <-> live st (l1 ++ x :: b :: l2) p z).
Proof.
  intros Hi Hb Hx Hfb Hfx Hadj. pose proof (slab_NoDup _ _ Hi) as Hnd.
  assert (Hi' : slab_inv st ((l1 ++ [x]) ++ b :: l2)) by (rewrite <- app_assoc; exact Hi).
  pose proof (slab_next _ _ _ _ _ Hi' Hb) as Hnx. rewrite last_snoc in Hnx.
  pose proof (slab_next _ _ _ _ _ Hi Hx) as Hnxx. clear Hi'.
  pose proof (base_head _ _ _ _ Hi) as Hbase. pose proof Hi as [Hp Hn Hd Hok Hdis Hmm].
  destruct (Hok b blk ltac:(set_solver) Hb) as [Hptr Hsz Hpos Hend Hused].
  destruct (Hok x xb ltac:(set_solver) Hx) as [Hptrx Hszx Hposx Hendx Husedx].
  assert (Hlast : forall a, last l1 = Some a -> a ∈ l1) by (intros a [l1' ->]%last_Some; set_solver).
  assert (Hxb : x <> b).
  { intros ->. apply NoDup_app in Hnd as (_ & _ & Hnd). apply NoDup_cons in Hnd as [Hnd _]. set_solver. }
  assert (Hmem : forall a, a ∈ l1 ++ b :: l2 -> a <> x).
  { intros a Ha ->. apply NoDup_app in Hnd as (_ & H12 & [H3 _]%NoDup_cons).
    apply elem_of_app in Ha as [Ha|Ha]; [apply (H12 x Ha); set_solver|done]. }
  assert (Hbl1 : b ∉ l1).
  { intros Hin. apply NoDup_app in Hnd as (_ & H12 & _). apply (H12 b Hin). set_solver. }
  unfold b_end, SLAB_BLOCK_SIZE, MEM_END in *.
  set (bb := blk <| b_size := u32 (b_size blk + 6 + b_size xb) |> <| b_next := b_next xb |>).
  set (base' := if decide (base st = Some x) then Some b else base st).
  destruct (prev_link_opt (st <| base := base' |>) (b_next xb) (Some b) (<[b := bb]> (blocks st))) as (bs2 & Hlink & Hbs2).
  { intros m Hm. rewrite Hnxx in Hm. rewrite lookup_insert. case_decide; [by eauto|]. apply Hd. apply Hlast in Hm. set_solver. }
  exists (st <| base := base' |> <| blocks := bs2 |>).
  split.
  { unfold fusion. rewrite (bind_run _ _ st blk st) by (unfold get_blk; by rewrite Hb). rewrite Hnx.
    rewrite (bind_run _ _ st xb st) by (unfold get_blk; by rewrite Hx).
    rewrite Hfx, Hptr, u32_small by lia. rewrite Hadj, Z.eqb_refl. cbn [andb]. cbv iota.
    rewrite (bind_run _ _ _ tt (st <| blocks := <[b := bb]> (blocks st) |>))
      by (unfold upd_blk; by rewrite Hb).
    rewrite (bind_run _ _ _ _ _ eq_refl).
    rewrite (bind_run _ _ _ tt (st <| base := base' |> <| blocks := <[b := bb]> (blocks st) |>)).
    2:{ unfold base'. gsimpl. case_decide; done. }
    by rewrite (bind_run _ _ _ _ _ Hlink). }
  assert (Hlk : forall a, bs2 !! a = if decide (a = b) then Some bb
     else if decide (last l1 = Some a) then (fun x => x <| b_prev := Some b |>) <$> blocks st !! a
     else blocks st !! a).
  { intros a. rewrite Hbs2, Hnxx, lookup_insert. rewrite (decide_ext (b = a) (a = b)) by naive_solver.
    destruct (decide (a = b)) as [->|]; [|done]. rewrite decide_False; [done|]. intros E%Hlast. done. }
  assert (Hsame : forall a, a <> b -> exists f, bs2 !! a = (fun x => x <| b_prev := f x |>) <$> blocks st !! a).
  { intros a ?. rewrite Hlk, decide_False by done. case_decide; [by exists (fun _ => Some b)|].
    exists b_prev. by destruct (blocks st !! a) as [[]|]. }
  assert (Hszb : b_size bb = b_size blk + 6 + b_size xb) by (unfold bb; gsimpl; apply u32_small; lia).
  split; [|split].
  - split; gsimpl.
    + pose proof (chain_remove _ _ l1 x (b :: l2) Hp) as Hc.
      assert (Hprx : bprev (blocks st) x = Some b) by (apply (chain_split_next _ _ _ _ _ Hp)).
      assert (Hb' : base' = match last l1 with Some _ => base st | None => Some b end).
      { unfold base'. destruct (decide (base st = Some x)) as [E|E].
        - apply Hbase in E as ->. done.
        - destruct (last l1) eqn:El; [done|]. apply last_None in El as ->. exfalso. by apply E, Hbase. }
      rewrite Hb'. destruct (last l1) as [la|] eqn:El; rewrite Hprx in Hc.
      * eapply seg_ext, Hc. intros y. unfold bprev. rewrite Hlk. unfold upd_link.
        destruct (decide (y = b)) as [->|].
        -- rewrite decide_False by (intros ->; by apply Hbl1, Hlast). cbn. unfold bprev. by rewrite Hb.
        -- rewrite (decide_ext (Some la = Some y) (y = la)) by naive_solver. case_decide; [|done]. subst y.
           destruct (Hd la) as [by' ->]; [|done]. specialize (Hlast _ eq_refl). set_solver.
      * apply last_None in El as ->. eapply seg_ext, Hc. intros y. unfold bprev. rewrite Hlk.
        destruct (decide (y = b)) as [->|]; [|done]. cbn. by rewrite Hb.
    + rewrite last_app_cons, <- (last_cons_cons x), <- (last_app_cons l1).
      pose proof (chain_remove (bnext (blocks st)) (last (l1 ++ x :: b :: l2)) (reverse l2 ++ [b]) x (reverse l1)) as Hc.
      rewrite last_snoc, <- !app_assoc in Hc. cbn [app] in Hc.
      rewrite !reverse_app, !reverse_cons, <- !app_assoc in *. cbn [app] in *. specialize (Hc Hn).
      eapply seg_ext, Hc. intros y. unfold bnext. rewrite Hlk. unfold upd_link.
      destruct (decide (y = b)); [cbn; by rewrite Hx|]. case_decide; [|done]. by destruct (blocks st !! y).
    + intros a Ha. rewrite Hlk. destruct (decide (a = b)); [by eauto|].
      destruct (Hd a) as [y ->]; [set_solver|]. case_decide; cbn; eauto.
    + intros a ba Ha Hba. destruct (decide (a = b)) as [->|].
      * rewrite Hlk, decide_True in Hba by done. injection Hba as <-.
        split; unfold b_end, SLAB_BLOCK_SIZE, MEM_END; rewrite ?Hszb; unfold bb; gsimpl; [lia|lia|lia|lia|].
        intros w Hw. destruct (decide (w < x)); [apply Hused; lia|apply Husedx; lia].
      * destruct (Hsame a) as [f Hf]; [done|]. rewrite Hf in Hba.
        destruct (blocks st !! a) as [y|] eqn:Ey; [|done]. injection Hba as <-.
        destruct (Hok a y ltac:(set_solver) Ey). split; done.
    + assert (Hsub : forall a ba, a ∈ l1 ++ b :: l2 -> bs2 !! a = Some ba ->
                (a = b /\ b_end a ba = x + 6 + b_size xb) \/
                (a <> b /\ a <> x /\ a ∈ l1 ++ x :: b :: l2 /\ exists y, blocks st !! a = Some y /\ b_end a y = b_end a ba)).
      { intros a ba Ha Hba. unfold b_end, SLAB_BLOCK_SIZE. destruct (decide (a = b)) as [->|].
        - left. rewrite Hlk, decide_True in Hba by done. injection Hba as <-. split; [done|]. rewrite Hszb. lia.
        - right. destruct (Hsame a) as [f Hf]; [done..|]. rewrite Hf in Hba.
          destruct (blocks st !! a) as [y|] eqn:Ey; [|done]. injection Hba as <-.
          split; [done|]. split; [by apply Hmem|]. split; [set_solver|]. by exists y. }
      intros a a' ba ba' Ha Ha' Hne Hba Hba'.
      destruct (Hsub a ba Ha Hba) as [(-> & E1)|(N1 & N2 & M1 & y & Ey & E1)];
      destruct (Hsub a' ba' Ha' Hba') as [(-> & E2)|(N1' & N2' & M1' & y' & Ey' & E2)]; try done; rewrite ?E1, ?E2.
      * pose proof (Hdis b a' blk y' ltac:(set_solver) M1' ltac:(done) Hb Ey').
        pose proof (Hdis x a' xb y' ltac:(set_solver) M1' ltac:(done) Hx Ey').
        unfold b_end, SLAB_BLOCK_SIZE in *. destruct (Hok a' y' M1' Ey'). lia.
      * pose proof (Hdis a b y blk M1 ltac:(set_solver) ltac:(done) Ey Hb).
        pose proof (Hdis a x y xb M1 ltac:(set_solver) ltac:(done) Ey Hx).
        unfold b_end, SLAB_BLOCK_SIZE in *. destruct (Hok a y M1 Ey). lia.
      * rewrite <- E1, <- E2. by apply (Hdis a a' y y').
    + done.
  - exists bb. gsimpl. by rewrite Hlk, decide_True by done.
  - intros p z. unfold live. gsimpl. split.
    + intros (a & ba & Ha & Hba & Hfr & -> & ->). destruct (decide (a = b)) as [->|].
      * rewrite Hlk, decide_True in Hba by done. injection Hba as <-. unfold bb in Hfr. rsimpl. congruence.
      * destruct (Hsame a) as [f Hf]; [done..|]. rewrite Hf in Hba.
        destruct (blocks st !! a) as [y|] eqn:Ey; [|done]. injection Hba as <-. exists a, y. split; [set_solver|done].
    + intros (a & ba & Ha & Hba & Hfr & -> & ->). assert (a <> b) by (intros ->; congruence).
      assert (a <> x) by (intros ->; congruence).
      destruct (Hsame a) as [f Hf]; [done|]. rewrite Hba in Hf. exists a. eexists. split; [set_solver|].
      split; [exact Hf|]. done.
Qed.

(** Changing only [b_ra] and [b_free]. *)
Lemma slab_inv_flag st l a b (f : mem_block -> mem_block) :
  slab_inv st l -> a ∈ l -> blocks st !! a = Some b ->
  b_size (f b) = b_size b -> b_next (f b) = b_next b -> b_prev (f b) = b_prev b -> b_ptr (f b) = b_ptr b ->
  slab_inv (st <| blocks ::= insert a (f b) |>) l.
Proof.
  intros [Hp Hn Hd Hok Hdis Hmm] Ha Hb E1 E2 E3 E4.
  assert (Hlk : forall c x, <[a := f b]> (blocks st) !! c = Some x ->
            exists y, blocks st !! c = Some y /\ b_size x = b_size y /\ b_ptr x = b_ptr y).
  { intros c x. rewrite lookup_insert. case_decide; subst; [intros [= <-]; eauto|eauto]. }
  split; gsimpl.
  - eapply seg_ext, Hp. intros c. rewrite bprev_insert. unfold upd_link. case_decide; [|done].
    subst. rewrite E3. unfold bprev. by rewrite Hb.
  - eapply seg_ext, Hn. intros c. rewrite bnext_insert. unfold upd_link. case_decide; [|done].
    subst. rewrite E2. unfold bnext. by rewrite Hb.
  - intros c Hc. rewrite lookup_insert. case_decide; eauto.
  - intros c x Hc Hx. destruct (Hlk c x Hx) as (y & Hy & S1 & S2). destruct (Hok c y Hc Hy).
    split; unfold b_end in *; rewrite ?S1, ?S2; done.
  - intros c c' x x' Hc Hc' Hne Hx Hx'. destruct (Hlk c x Hx) as (y & Hy & S1 & S2).
    destruct (Hlk c' x' Hx') as (y' & Hy' & S1' & S2'). unfold b_end. rewrite S1, S1'. by apply (Hdis c c' y y').
  - done.
Qed.

Lemma fusion_spec st l b blk :
  slab_inv st l -> b ∈ l -> blocks st !! b = Some blk -> b_free blk = true ->
  exists st' l', fusion b st = Some (b, st') /\ slab_inv st' l' /\ b ∈ l' /\
    (exists b', blocks st' !! b = Some b' /\ b_free b' = true) /\
    (forall p z, live st' l' p z <-> live st l p z).
Proof.
  intros Hi (l1 & l2 & ->)%list_elem_of_split Hb Hf.
  pose proof (slab_next _ _ _ _ _ Hi Hb) as Hnx. pose proof Hi as [Hp Hn Hd Hok Hdis Hmm].
  destruct (Hok b blk ltac:(set_solver) Hb) as [Hptr Hsz Hpos Hend _].
  assert (Hsame : forall r, r st = Some (b, st) -> exists st' l', r st = Some (b, st') /\ slab_inv st' l' /\ b ∈ l' /\
    (exists b', blocks st' !! b = Some b' /\ b_free b' = true) /\
    (forall p z, live st' l' p z <-> live st (l1 ++ b :: l2) p z)).
  { intros r Hr. exists st, (l1 ++ b :: l2). split; [done|]. split; [done|]. split; [set_solver|]. split; [by eauto|done]. }
  destruct (last l1) as [x|] eqn:El.
  - pose proof El as [l1' ->]%last_Some. rewrite <- app_assoc in *. cbn [app] in *.
    destruct (Hd x) as [xb Hx]; [set_solver|].
    destruct (b_free xb && (u32 (b_ptr blk + b_size blk) =? x)) eqn:E.
    + apply andb_true_iff in E as [Hfx Hadj%Z.eqb_eq].
      unfold b_end, SLAB_BLOCK_SIZE, MEM_END in *. rewrite Hptr, u32_small in Hadj by lia.
      destruct (fusion_join st l1' x b l2 blk xb Hi Hb Hx Hf Hfx Hadj) as (st' & H1 & H2 & H3 & H4).
      exists st', (l1' ++ b :: l2). split; [done|]. split; [done|]. split; [set_solver|done].
    + apply (Hsame (fusion b)). unfold fusion. rewrite (bind_run _ _ st blk st) by (unfold get_blk; by rewrite Hb).
      rewrite Hnx. rewrite (bind_run _ _ st xb st) by (unfold get_blk; by rewrite Hx). by rewrite E.
  - apply (Hsame (fusion b)). unfold fusion. rewrite (bind_run _ _ st blk st) by (unfold get_blk; by rewrite Hb).
    by rewrite Hnx.
Qed.

Lemma find_block_spec bs size : forall fuel l first b,
  chain (bprev bs) b l -> (forall a, a ∈ l -> is_Some (bs !! a)) -> (length l < fuel)%nat ->
  exists first' r, find_block fuel bs first b size = Some (first', r) /\
    match r with
    | Some a => a ∈ l /\ exists blk, bs !! a = Some blk /\ b_free blk = true /\ size <= b_size blk
    | None => first' = last_or l first
    end.
Proof.
  induction fuel as [|fuel IH]; intros l first b Hc Hd Hf; [lia|].
  destruct l as [|a l].
  { apply chain_nil in Hc as ->. exists first, None. done. }
  destruct Hc as [-> Hc]. destruct (Hd a) as [blk Ha]; [set_solver|]. cbn [find_block].
  rewrite Ha, obind_Some. destruct (b_free blk && (b_size blk >=? size)) eqn:E.
  - apply andb_true_iff in E as [E1 E2]. exists first, (Some a). split; [done|].
    split; [set_solver|]. exists blk. split; [done|]. split; [done|]. destruct (Z.geb_spec (b_size blk) size); [lia|done].
  - unfold bprev in Hc. rewrite Ha in Hc. cbn [mbind option_bind] in Hc. cbn [length] in Hf.
    destruct (IH l (Some a) (b_prev blk)) as (f' & r & H1 & H2); [done|set_solver|lia|].
    exists f', r. rewrite H1. split; [done|]. destruct r as [a'|].
    + destruct H2 as [??]. split; [set_solver|done].
    + by rewrite last_or_cons.
Qed.

(** A new page at the far end of the list. *)
Lemma extend_inv st l p mm' f :
  slab_inv st l -> mm_inv mm' -> 0 < p < 127 -> used (sl_mm st) p = false ->
  (forall x, 0 <= x -> used mm' x = (used (sl_mm st) x || bool_decide (p <= x < p + 1))) ->
  f = last l ->
  exists bs', (match f with
               | Some f => upd_blk f (fun x => x <| b_prev := Some (p * 1024) |>)
               | None => mret tt
               end) (st <| sl_mm := mm' |>
                        <| blocks ::= insert (p * 1024) (mkBlock 1018 f None 0 true (p * 1024 + 6)) |>) =
      Some (tt, st <| sl_mm := mm' |> <| blocks := bs' |>) /\
    bs' !! (p * 1024) = Some (mkBlock 1018 f None 0 true (p * 1024 + 6)) /\
    let st' := st <| sl_mm := mm' |> <| blocks := bs' |>
                  <| base ::= (fun b => match b with Some b => Some b | None => Some (p * 1024) end) |> in
    slab_inv st' (l ++ [p * 1024]) /\
    (forall q z, live st' (l ++ [p * 1024]) q z <-> live st l q z).
Proof.
  intros Hi Hmm' Hp127 Hfree Hu ->. pose proof (slab_NoDup _ _ Hi) as Hnd.
  pose proof Hi as [Hp Hn Hd Hok Hdis Hmm]. set (ptr := p * 1024).
  set (nb := mkBlock 1018 (last l) None 0 true (ptr + 6)).
  assert (Hsep : forall a b, a ∈ l -> blocks st !! a = Some b -> b_end a b <= ptr \/ ptr + 1024 <= a).
  { intros a b Ha Hb. destruct (Hok a b Ha Hb) as [_ Hz Hpos _ Hus]. unfold b_end, SLAB_BLOCK_SIZE in *.
    destruct (Z_le_gt_dec (a + 6 + b_size b) ptr); [by left|]. destruct (Z_le_gt_dec (ptr + 1024) a); [by right|].
    exfalso. specialize (Hus (Z.max a ptr) ltac:(lia)).
    replace (Z.max a ptr / 1024) with p in Hus by (unfold ptr in *; zlia). congruence. }
  assert (Hni : ptr ∉ l).
  { intros Hin. destruct (Hd _ Hin) as [b Hb]. destruct (Hok _ _ Hin Hb).
    destruct (Hsep _ _ Hin Hb); unfold b_end, SLAB_BLOCK_SIZE in *; lia. }
  assert (Hlast : forall a, last l = Some a -> a ∈ l) by (intros a [l' ->]%last_Some; set_solver).
  destruct (prev_link_opt (st <| sl_mm := mm' |>) (last l) (Some ptr) (<[ptr := nb]> (blocks st))) as (bs' & Hlink & Hbs').
  { intros m Hm%Hlast. rewrite lookup_insert. case_decide; eauto. }
  exists bs'. split; [exact Hlink|].
  assert (Hlk : forall a, bs' !! a = if decide (a = ptr) then Some nb
     else if decide (last l = Some a) then (fun x => x <| b_prev := Some ptr |>) <$> blocks st !! a
     else blocks st !! a).
  { intros a. rewrite Hbs', lookup_insert. rewrite (decide_ext (ptr = a) (a = ptr)) by naive_solver.
    destruct (decide (a = ptr)) as [->|]; [|done]. rewrite decide_False; [done|]. intros E%Hlast. done. }
  assert (Hsame : forall a, a <> ptr -> exists f, bs' !! a = (fun x => x <| b_prev := f x |>) <$> blocks st !! a).
  { intros a ?. rewrite Hlk, decide_False by done. case_decide; [by exists (fun _ => Some ptr)|].
    exists b_prev. by destruct (blocks st !! a) as [[]|]. }
  split; [by rewrite Hlk, decide_True by done|]. split.
  - split; gsimpl.
    + pose proof (chain_insert _ _ l [] ptr ltac:(rewrite app_nil_r; exact Hp) ltac:(by rewrite app_nil_r)) as Hc. cbn [head] in Hc.
      pose proof (chain_head _ _ _ Hp) as Hb. destruct (last l) as [la|] eqn:El.
      * destruct l as [|a l]; [done|]. rewrite Hb in *. cbn [head] in *. eapply seg_ext, Hc. intros y. unfold bprev. rewrite Hlk. unfold upd_link.
        destruct (decide (y = ptr)) as [->|].
        -- rewrite decide_False by (intros ->; by apply Hni, Hlast). done.
        -- rewrite (decide_ext (Some la = Some y) (y = la)) by naive_solver. case_decide; [|done]. subst y.
           destruct (Hd la) as [by' ->]; [|done]. by apply Hlast.
      * apply last_None in El as ->. rewrite Hb. cbn [head]. eapply seg_ext, Hc. intros y. unfold bprev. rewrite Hlk. unfold upd_link.
        by destruct (decide (y = ptr)).
    + rewrite last_snoc, reverse_snoc. split; [done|].
      assert (bnext bs' ptr = last l) as -> by (unfold bnext; by rewrite Hlk, decide_True).
      eapply seg_frame, Hn. intros y Hy. rewrite elem_of_reverse in Hy. unfold bnext. rewrite Hlk.
      rewrite decide_False by (intros ->; done). case_decide; [|done]. by destruct (blocks st !! y).
    + intros a Ha. rewrite Hlk. destruct (decide (a = ptr)); [by eauto|].
      destruct (Hd a) as [y ->]; [set_solver|]. case_decide; cbn; eauto.
    + intros a ba Ha Hba. destruct (decide (a = ptr)) as [->|].
      * rewrite Hlk, decide_True in Hba by done. injection Hba as <-. unfold ptr.
        split; unfold b_end, SLAB_BLOCK_SIZE, MEM_END; cbn; [lia|lia|lia|lia|].
        intros w Hw. replace (w / 1024) with p by zlia. rewrite Hu by lia. rewrite bool_decide_eq_true_2 by lia.
        apply orb_true_r.
      * destruct (Hsame a) as [f Hf]; [done|]. rewrite Hf in Hba.
        destruct (blocks st !! a) as [y|] eqn:Ey; [|done]. injection Hba as <-.
        destruct (Hok a y ltac:(set_solver) Ey) as [?? Hpa ? Hua]. split; try done.
        intros w Hw. cbn. unfold b_end in *. rsimpl. rewrite Hu by zlia. rewrite Hua by lia. done.
    + assert (Hsub : forall a ba, a ∈ l ++ [ptr] -> a <> ptr -> bs' !! a = Some ba ->
                a ∈ l /\ exists y, blocks st !! a = Some y /\ b_end a y = b_end a ba).
      { intros a ba Ha Hne Hba. destruct (Hsame a) as [f Hf]; [done..|]. rewrite Hf in Hba.
        destruct (blocks st !! a) as [y|] eqn:Ey; [|done]. injection Hba as <-. split; [set_solver|]. by exists y. }
      assert (Hpe : forall ba, bs' !! ptr = Some ba -> b_end ptr ba = ptr + 1024).
      { intros ba. rewrite Hlk, decide_True by done. intros [= <-]. unfold b_end, SLAB_BLOCK_SIZE. cbn. lia. }
      intros a a' ba ba' Ha Ha' Hne Hba Hba'.
      destruct (decide (a = ptr)) as [->|]; [|destruct (decide (a' = ptr)) as [->|]].
      * rewrite (Hpe _ Hba). destruct (Hsub a' ba' Ha' ltac:(done) Hba') as (M & y & Ey & <-).
        destruct (Hsep a' y M Ey); lia.
      * rewrite (Hpe _ Hba'). destruct (Hsub a ba Ha ltac:(done) Hba) as (M & y & Ey & <-).
        destruct (Hsep a y M Ey); lia.
      * destruct (Hsub a ba Ha ltac:(done) Hba) as (M & y & Ey & <-).
        destruct (Hsub a' ba' Ha' ltac:(done) Hba') as (M' & y' & Ey' & <-). by apply (Hdis a a' y y').
    + done.
  - intros q z. unfold live. gsimpl. split.
    + intros (a & ba & Ha & Hba & Hfr & -> & ->). destruct (decide (a = ptr)) as [->|].
      * rewrite Hlk, decide_True in Hba by done. injection Hba as <-. done.
      * destruct (Hsame a) as [f Hf]; [done..|]. rewrite Hf in Hba.
        destruct (blocks st !! a) as [y|] eqn:Ey; [|done]. injection Hba as <-. exists a, y. split; [set_solver|done].
    + intros (a & ba & Ha & Hba & Hfr & -> & ->). assert (a <> ptr) by (intros ->; done).
      destruct (Hsame a) as [f Hf]; [done|]. rewrite Hba in Hf. exists a. eexists. split; [set_solver|].
      split; [exact Hf|]. done.
Qed.

(** Splitting the first block of an empty heap, before [base] is set. *)
Lemma split_base_none st b blk s :
  blocks st !! b = Some blk -> b_next blk = None -> base st = None ->
  u32 (b_data b + b_size blk - s - SLAB_BLOCK_SIZE) <> b ->
  exists new st1, split_block b s st = Some (new, st1) /\ base st1 = None /\
    (new = u32 (b_data b + b_size blk - s - SLAB_BLOCK_SIZE) /\ sl_mm st1 = sl_mm st) /\
    split_block b s (st <| base := Some b |>) = Some (new, st1 <| base := Some new |>).
Proof.
  intros Hb Hn Hba Hne. unfold split_block, mbind, st_bind, get_blk, new_blk, upd_blk, modifyS, liftO, getS.
  gsimpl. rewrite Hb. gsimpl. rewrite lookup_insert_ne, Hb by done. gsimpl. rewrite Hn, Hba.
  rewrite decide_False, decide_True by done. eexists _, _. split; [done|]. split; [done|]. split; [done|]. done.
Qed.

Definition set_base (b : Z) (st : slst) : slst :=
  st <| base ::= (fun x => match x with Some y => Some y | None => Some b end) |>.

Lemma extend_heap_spec st l s :
  slab_inv st l -> 0 <= s <= 1018 ->
  exists b st', extend_heap (last l) s st = Some (b, st') /\
    ((b = 0 /\ st' = st) \/
     (exists l' blk, b <> 0 /\ slab_inv (set_base b st') l' /\ b ∈ l' /\
        (base st = None <-> base st' = None) /\
        blocks st' !! b = Some blk /\ b_free blk = true /\ s <= b_size blk /\
        forall p z, live (set_base b st') l' p z <-> live st l p z)).
Proof.
  intros Hi Hs. unfold extend_heap.
  set (s' := if s <? SLAB_BLOCK_SIZE then SLAB_BLOCK_SIZE + 1 else s).
  assert (Hs' : 6 <= s' <= 1018 /\ s <= s').
  { unfold s', SLAB_BLOCK_SIZE. destruct (Z.ltb_spec s 6); lia. }
  clearbody s'.
  assert (Hround : ALIGN1K_HB s' = 1024).
  { unfold ALIGN1K_HB, PAGE_LEN. rewrite (u32_small (s' - 1)) by lia.
    rewrite Z.shiftl_mul_pow2, Z.shiftr_div_pow2 by lia. change (2 ^ 10) with 1024.
    assert ((s' - 1) / 1024 = 0) as -> by zlia. done. }
  rewrite Hround. change (1024 / PAGE_LEN) with 1.
  destruct (get_free_pages_spec (sl_mm st) 1 GFP_HIGH (si_mm _ _ Hi)) as (a & mm' & Hg & Hmm' & Hbss & Hcase);
    [unfold valid_len; lia|].
  rewrite (bind_run _ _ st a (st <| sl_mm := mm' |>)) by (unfold zoom; by rewrite Hg).
  destruct Hcase as [(-> & -> & _)|(p & -> & _ & Hlo & Hhi & Hrun & _ & Hu)].
  { exists 0, st. split; [by destruct st|]. by left. }
  change (npages 1) with 1 in *. pose proof (inv_bss _ (si_mm _ _ Hi)).
  rewrite page_to_paddr by lia. destruct (Z.eqb_spec (p * 1024) 0); [lia|].
  destruct (extend_inv st l p mm' (last l) Hi Hmm') as (bs' & Hlink & Hblk & Hinv); [lia|apply Hrun; lia|done|done|].
  rewrite (bind_run _ _ _ tt _ eq_refl).
  assert (b_data (p * 1024) = p * 1024 + 6) as -> by (unfold b_data, SLAB_BLOCK_SIZE; apply u32_small; lia).
  change (u32 (1024 - SLAB_BLOCK_SIZE)) with 1018.
  rewrite (bind_run _ _ _ _ _ Hlink). rewrite u32_small by lia.
  set (st2 := st <| sl_mm := mm' |> <| blocks := bs' |>) in *.
  destruct Hinv as [Hinv Hlive].
  destruct (Z.gtb_spec (1024 - s') (SLAB_BLOCK_SIZE * 2)) as [Hsp|Hsp]; unfold SLAB_BLOCK_SIZE in Hsp.
  - destruct (split_block_spec (set_base (p * 1024) st2) l (p * 1024) []
      (mkBlock 1018 (last l) None 0 true (p * 1024 + 6)) s' Hinv Hblk)
      as (st3 & Hsplit & Hi3 & _ & (nb & Hnb & Hsz & Hfr) & Hlive3); cbn; [lia|unfold SLAB_BLOCK_SIZE; lia|done|].
    set (new := p * 1024 + 1018 - s') in *.
    change (p * 1024 + b_size (mkBlock 1018 (last l) None 0 true (p * 1024 + 6)) - s') with new in *.
    destruct (base st) as [bb|] eqn:Hb0.
    + assert (set_base (p * 1024) st2 = st2) as E by (unfold set_base, st2; gsimpl; by rewrite Hb0).
      rewrite E in *. exists new, st3. split; [done|]. right. exists (l ++ [new; p * 1024]), nb.
      assert (Hb3 : base st3 <> None).
      { intros H0. pose proof (chain_head _ _ _ (si_prev _ _ Hi3)) as H1. rewrite H0 in H1. by destruct l. }
      assert (set_base new st3 = st3) as E3.
      { unfold set_base. destruct st3 as [bs3 [b3|] c3 m3]; done. }
      rewrite E3. split; [lia|]. split; [done|]. split; [set_solver|]. split; [naive_solver|].
      split; [done|]. split; [done|]. split; [lia|]. intros q z. by rewrite Hlive3, <- Hlive.
    + pose proof (chain_head _ _ _ (si_prev _ _ Hi)) as Hh. rewrite Hb0 in Hh. destruct l; [|done]. cbn [last app] in *.
      destruct (split_base_none st2 (p * 1024) _ s' Hblk) as (new' & st1 & Hr1 & Hbn & _ & Hr2); [done|done| |].
      { unfold b_data, SLAB_BLOCK_SIZE. cbn. rewrite (u32_small (p * 1024 + 6)) by lia. rewrite u32_small; lia. }
      assert (set_base (p * 1024) st2 = st2 <| base := Some (p * 1024) |>) as E.
      { unfold set_base, st2. gsimpl. by rewrite Hb0. }
      rewrite E, Hr2 in Hsplit. injection Hsplit as -> <-.
      exists new, st1. split; [done|]. right. exists [new; p * 1024], nb.
      assert (set_base new st1 = st1 <| base := Some new |>) as E3 by (unfold set_base; gsimpl; by rewrite Hbn).
      rewrite E3. split; [lia|]. split; [done|]. split; [set_solver|]. split; [naive_solver|].
      split; [done|]. split; [done|]. split; [lia|]. intros q z. by rewrite Hlive3, <- Hlive.
  - exists (p * 1024), st2. split; [done|]. right. exists (l ++ [p * 1024]). eexists.
    split; [done|]. split; [exact Hinv|]. split; [set_solver|]. split; [done|]. split; [exact Hblk|].
    split; [done|]. split; [cbn; lia|]. exact Hlive.
Qed.

Lemma align4_spec x : 0 < x <= 1024 -> align4 x = (x + 3) / 4 * 4.
Proof.
  intros Hx. unfold align4. rewrite (u32_small (x - 1)) by lia.
  rewrite Z.shiftl_mul_pow2, Z.shiftr_div_pow2 by lia. change (2 ^ 2) with 4.
  rewrite u32_small by zlia. zlia.
Qed.

(** Marking a free block of the list as allocated. *)
Lemma slab_take st l b blk ra :
  slab_inv st l -> b ∈ l -> blocks st !! b = Some blk -> b_free blk = true ->
  exists st', upd_blk b (fun x => x <| b_ra := ra |> <| b_free := false |>) st = Some (tt, st') /\
    slab_inv st' l /\ b_data b = b + SLAB_BLOCK_SIZE /\
    (forall y, ~ live st l (b + SLAB_BLOCK_SIZE) y) /\
    (forall q y, live st' l q y <-> (q = b + SLAB_BLOCK_SIZE /\ y = b_size blk) \/ live st l q y).
Proof.
  intros Hi Hin Hb Hf.
  pose proof (slab_inv_flag st l b blk (fun x => x <| b_ra := ra |> <| b_free := false |>) Hi Hin Hb
    eq_refl eq_refl eq_refl eq_refl) as Hi'.
  eexists. split; [unfold upd_blk; by rewrite Hb|]. split; [exact Hi'|].
  destruct (si_ok _ _ Hi b blk Hin Hb) as [_ Hz Hpos Hend _]. unfold b_end, SLAB_BLOCK_SIZE, MEM_END in *.
  split; [unfold b_data, SLAB_BLOCK_SIZE; apply u32_small; lia|].
  assert (Hnl : forall y, ~ live st l (b + 6) y).
  { intros y (a & x & Ha & Hx & Hfx & E & _). unfold SLAB_BLOCK_SIZE in E. replace a with b in * by lia. congruence. }
  split; [exact Hnl|]. intros q y. unfold live, SLAB_BLOCK_SIZE. gsimpl. split.
  - intros (a & x & Ha & Hx & Hfx & -> & ->). rewrite lookup_insert in Hx. case_decide; subst.
    + injection Hx as <-. by left.
    + right. by exists a, x.
  - intros [[-> ->]|(a & x & Ha & Hx & Hfx & -> & ->)].
    + exists b. eexists. split; [done|]. rewrite lookup_insert_eq. done.
    + exists a, x. split; [done|]. rewrite lookup_insert_ne; [done|]. intros <-. congruence.
Qed.

Lemma slab_inv_count st l c : slab_inv st l -> slab_inv (st <| count ::= c |>) l.
Proof. intros [????? ?]. split; gsimpl; [done..| |done|done]. intros a b Ha Hb. by destruct (si_ok0 a b Ha Hb). Qed.

(** [b] was chosen, or the heap is unchanged. *)
Definition picked (st : slst) (l : list Z) (s b : Z) (st' : slst) : Prop :=
  (b = 0 /\ st' = st) \/
  exists l' blk, b <> 0 /\ slab_inv st' l' /\ b ∈ l' /\ blocks st' !! b = Some blk /\
    b_free blk = true /\ s <= b_size blk /\ forall p z, live st' l' p z <-> live st l p z.

Lemma pick_existing st l b blk s :
  slab_inv st l -> b ∈ l -> blocks st !! b = Some blk -> b_free blk = true -> 0 <= s <= b_size blk ->
  exists b' st', (if u32 (b_size blk - s) >=? SLAB_BLOCK_SIZE * 2 then split_block b s else mret b) st =
      Some (b', st') /\ picked st l s b' st'.
Proof.
  intros Hi Hin Hb Hfree Hsize.
  destruct (si_ok _ _ Hi b blk Hin Hb) as [_ Hz Hpos Hend _]. unfold b_end, MEM_END, SLAB_BLOCK_SIZE in *.
  destruct (Z.geb_spec (u32 (b_size blk - s)) (6 * 2)) as [Hge|Hlt].
  - rewrite u32_small in Hge by lia. apply list_elem_of_split in Hin as (l1 & l2 & ->).
    destruct (split_block_spec st l1 b l2 blk s Hi Hb) as (st1 & Hsp & Hi1 & _ & (nb & Hnb & Hsz' & Hfr) & Hl1);
      [lia|unfold SLAB_BLOCK_SIZE; lia|done|].
    eexists _, st1. split; [exact Hsp|]. right. eexists _, nb. split; [lia|]. split; [exact Hi1|].
    split; [set_solver|]. split; [done|]. split; [done|]. split; [lia|done].
  - exists b, st. split; [done|]. right. exists l, blk. split; [lia|]. split; [done|]. split; [done|].
    split; [done|]. split; [done|]. split; [lia|done].
Qed.

Lemma pick_block_spec st l s :
  slab_inv st l -> 0 <= s <= 1018 ->
  exists b st', pick_block s st = Some (b, st') /\ picked st l s b st'.
Proof.
  intros Hi Hs. unfold pick_block. rewrite (bind_run _ _ _ _ _ eq_refl).
  pose proof (chain_head _ _ _ (si_prev _ _ Hi)) as Hh.
  destruct (extend_heap_spec st l s Hi Hs) as (b & st1 & Hre & Hcase).
  destruct (base st) as [bs|] eqn:Eb.
  - destruct (find_block_spec (blocks st) s (S (size (blocks st))) l (Some bs) (Some bs)) as (f' & r & Hf & Hr);
      [rewrite <- Eb; apply Hi|apply Hi|apply Nat.lt_succ_r, NoDup_length_size; [by eapply slab_NoDup|apply Hi]|].
    rewrite (bind_run _ _ st (f', r) st) by (rewrite Hf; reflexivity).
    destruct r as [a|]; cbv beta iota.
    { destruct Hr as [Hin (blk & Hb & Hfree & Hsize)].
      rewrite (bind_run _ _ st blk st) by (unfold get_blk; by rewrite Hb). apply (pick_existing st l); [done..|lia]. }
    assert (f' = last l) as ->.
    { rewrite Hr. unfold last_or. destruct (last l) eqn:E; [done|]. apply last_None in E as ->. done. }
    exists b, st1. split; [done|]. destruct Hcase as [Hcase|(l1 & blk & Hne & Hi1 & Hin & Hbn & Hrest)]; [by left|].
    right. exists l1, blk. assert (set_base b st1 = st1) as E.
    { unfold set_base. destruct st1 as [bs1 [b1|] c1 m1]; [done|].
      exfalso. assert (@Some Z bs = None) by (apply Hbn; done). done. }
    rewrite E in *. done.
  - destruct l as [|x l0]; [|done]. cbn [last] in Hre. rewrite (bind_run _ _ _ _ _ Hre).
    destruct Hcase as [[-> ->]|(l1 & blk & Hne & Hi1 & Hin & Hbn & Hb & Hrest)].
    + exists 0, st. split; [done|by left].
    + destruct (Z.eqb_spec b 0); [done|]. exists b, (set_base b st1). split.
      * unfold set_base. destruct st1 as [bs1 [b1|] c1 m1]; [|done].
        exfalso. assert (Some b1 = None) by (apply Hbn; done). done.
      * right. exists l1, blk. done.
Qed.

(** C25: [_kmalloc] of 1 to 1016 words terminates without touching anything but
    its own list: it fails, or returns a block that was not allocated before, is
    at least as long as requested, and leaves every allocated block allocated
    with its size.  The invariant it keeps makes the blocks pairwise disjoint and
    their pages reserved. *)
Theorem kmalloc_fresh_block st l sz ra :
  slab_inv st l -> 0 < sz <= 1016 ->
  exists p st' l', _kmalloc sz ra st = Some (p, st') /\ slab_inv st' l' /\
    if p =? 0 then (forall q y, live st' l' q y <-> live st l q y)
    else exists z, sz <= z /\ (forall y, ~ live st l p y) /\
           forall q y, live st' l' q y <-> (q = p /\ y = z) \/ live st l q y.
Proof.
  intros Hi0 Hsz. unfold _kmalloc. rewrite (bind_run _ _ _ _ _ eq_refl).
  set (st0 := st <| count ::= (fun c => s32 (c + 1)) |>).
  assert (Hi : slab_inv st0 l) by (by apply slab_inv_count).
  rewrite align4_spec by lia. set (s := (sz + 3) / 4 * 4).
  assert (Hs : sz <= s <= 1016) by (unfold s; zlia). clearbody s.
  destruct (pick_block_spec st0 l s Hi ltac:(lia)) as (b & st1 & Hp & Hcase).
  rewrite (bind_run _ _ _ _ _ Hp).
  destruct Hcase as [[-> ->]|(l1 & blk & Hne & Hi1 & Hin & Hb & Hf & Hz & Hl)].
  { exists 0, st0, l. done. }
  destruct (slab_take st1 l1 b blk ra Hi1 Hin Hb Hf) as (st' & Hr & Hi' & Hd & Hn & Hl').
  destruct (si_ok _ _ Hi1 b blk Hin Hb) as [_ _ Hpos _ _].
  exists (b + SLAB_BLOCK_SIZE), st', l1. destruct (Z.eqb_spec b 0); [done|].
  rewrite (bind_run _ _ _ _ _ Hr), Hd. split; [done|]. split; [done|].
  destruct (Z.eqb_spec (b + SLAB_BLOCK_SIZE) 0); [unfold SLAB_BLOCK_SIZE in *; lia|].
  exists (b_size blk). split; [lia|]. split; [intros y Hy; apply (Hn y); by apply Hl|].
  intros q y. rewrite Hl', Hl. done.
Qed.

(** C26: [_kfree] of an allocated block makes exactly that block free: every
    other allocated block keeps its place and size through the joining of
    neighbours, and the invariant is kept. *)
Theorem kfree_releases_block st l p z ra :
  slab_inv st l -> live st l p z ->
  exists st' l', _kfree p ra st = Some (tt, st') /\ slab_inv st' l' /\
    forall q y, live st' l' q y <-> live st l q y /\ q <> p.
Proof.
  intros Hi (b & blk & Hin & Hb & Hf & -> & ->).
  destruct (si_ok _ _ Hi b blk Hin Hb) as [Hptr Hz Hpos Hend _]. unfold b_end, MEM_END in *.
  assert (Hgb : get_block (b + SLAB_BLOCK_SIZE) = b).
  { unfold get_block, SLAB_BLOCK_SIZE in *. rewrite u32_small; lia. }
  unfold _kfree. rewrite Hgb.
  rewrite (bind_run _ _ st true st).
  2:{ unfold valid_addr. destruct (Z.eqb_spec (b + SLAB_BLOCK_SIZE) 0); [unfold SLAB_BLOCK_SIZE in *; lia|].
      rewrite Hgb, (bind_run _ _ st blk st) by (unfold get_blk; by rewrite Hb). by rewrite Hptr, Z.eqb_refl. }
  cbv iota. set (b1 := blk <| b_free := true |>).
  set (st1 := st <| blocks ::= insert b b1 |>).
  rewrite (bind_run _ _ st tt st1) by (unfold upd_blk; by rewrite Hb).
  pose proof (slab_inv_flag st l b blk (fun x => x <| b_free := true |>) Hi Hin Hb eq_refl eq_refl eq_refl eq_refl) as Hi1.
  cbv beta in Hi1. fold b1 in Hi1. fold st1 in Hi1.
  assert (Hb1 : blocks st1 !! b = Some b1) by (apply lookup_insert_eq).
  assert (Hl1 : forall q y, live st1 l q y <-> live st l q y /\ q <> b + SLAB_BLOCK_SIZE).
  { intros q y. unfold live, st1. gsimpl. split.
    - intros (a & x & Ha & Hx & Hfx & -> & ->). rewrite lookup_insert in Hx. case_decide; subst; [by injection Hx as <-|].
      split; [by exists a, x|]. lia.
    - intros [(a & x & Ha & Hx & Hfx & -> & ->) Hne]. exists a, x. rewrite lookup_insert_ne; [done|]. intros <-. done. }
  assert (Hfb1 : b_free b1 = true) by done.
  clearbody st1 b1. rewrite (bind_run _ _ st1 b1 st1) by (unfold get_blk; by rewrite Hb1).
  (* the join with the previous block *)
  assert (Hj : exists c cb st2 l2, (match b_prev b1 with
            | Some pr => pblk ← get_blk pr; if b_free pblk then fusion pr else mret b
            | None => mret b end) st1 = Some (c, st2) /\ slab_inv st2 l2 /\ c ∈ l2 /\ blocks st2 !! c = Some cb /\ b_free cb = true /\
            forall q y, live st2 l2 q y <-> live st1 l q y).
  { assert (Hno : exists c cb st2 l2, (mret b : ST slst Z) st1 = Some (c, st2) /\ slab_inv st2 l2 /\ c ∈ l2 /\
        blocks st2 !! c = Some cb /\ b_free cb = true /\ forall q y, live st2 l2 q y <-> live st1 l q y) by (by exists b, b1, st1, l).
    pose proof Hin as (la & lb & ->)%list_elem_of_split. pose proof (slab_prev _ _ _ _ _ Hi1 Hb1) as Hpv.
    destruct lb as [|pr lb]; rewrite Hpv; cbn [head]; [done|].
    destruct (si_dom _ _ Hi1 pr) as [pb Hpb]; [set_solver|].
    rewrite (bind_run _ _ st1 pb st1) by (unfold get_blk; by rewrite Hpb).
    destruct (b_free pb) eqn:Efp; [|done].
    destruct (fusion_spec st1 _ pr pb Hi1 ltac:(set_solver) Hpb Efp) as (st2 & l2 & H1 & H2 & H3 & (cb & H4 & H4') & H5).
    by exists pr, cb, st2, l2. }
  destruct Hj as (c & cb & st2 & l2 & Hr2 & Hi2 & Hc2 & Hcb & Hfc & Hl2).
  rewrite (bind_run _ _ _ _ _ Hr2), (bind_run _ _ st2 cb st2) by (unfold get_blk; by rewrite Hcb).
  assert (Hend2 : forall q y, live st2 l2 q y <-> live st l q y /\ q <> b + SLAB_BLOCK_SIZE).
  { intros q y. by rewrite Hl2, Hl1. }
  destruct (b_next cb) as [n|] eqn:En; [|by exists st2, l2].
  pose proof Hc2 as (la & lb & El2)%list_elem_of_split. rewrite El2 in Hi2.
  pose proof (slab_next _ _ _ _ _ Hi2 Hcb) as Hnx. rewrite En in Hnx. symmetry in Hnx.
  destruct (si_dom _ _ Hi2 n) as [nb Hnb]; [apply last_Some in Hnx as [? ->]; set_solver|].
  rewrite (bind_run _ _ st2 nb st2) by (unfold get_blk; by rewrite Hnb).
  rewrite <- El2 in Hi2. destruct (b_free nb) eqn:Efn; [|by exists st2, l2].
  destruct (fusion_spec st2 l2 c cb Hi2 Hc2 Hcb Hfc) as (st3 & l3 & Hr3 & Hi3 & _ & _ & Hl3).
  exists st3, l3. rewrite (bind_run _ _ _ _ _ Hr3). split; [done|]. split; [done|].
  intros q y. by rewrite Hl3, Hend2.
Qed.

Lemma ALIGN1K_HB_spec s :
  1020 <= s <= 1048576 ->
  exists k, ALIGN1K_HB s = k * 1024 /\ 1 <= k <= 1024 /\ s <= k * 1024 < s + 1024.
Proof.
  intros Hs. exists ((s - 1) / 1024 + 1). unfold ALIGN1K_HB, PAGE_LEN. rewrite (u32_small (s - 1)) by lia.
  rewrite Z.shiftl_mul_pow2, Z.shiftr_div_pow2 by lia. change (2 ^ 10) with 1024.
  rewrite u32_small by zlia. zlia.
Qed.

(** The second half of [extend_heap] on an empty heap: the new page becomes one
    block, or two. *)
Lemma extend_empty_tail st ptr R s :
  base st = None -> 0 < ptr < 200000 -> 1024 <= R <= 1048576 -> 1020 <= s <= R ->
  exists b st',
  (_ ← new_blk ptr (mkBlock (u32 (R - SLAB_BLOCK_SIZE)) None None 0 true (b_data ptr));
   _ ← (mret tt : ST slst unit);
   if u32 (R - s) >? SLAB_BLOCK_SIZE * 2 then split_block ptr s else mret ptr) st = Some (b, st') /\
  sl_mm st' = sl_mm st /\ (b = ptr \/ b = ptr + R - 6 - s /\ 12 < R - s).
Proof.
  intros Hb Hp HR Hs. rewrite (bind_run _ _ _ tt _ eq_refl), (bind_run _ _ _ tt _ eq_refl).
  destruct (Z.gtb_spec (u32 (R - s)) (SLAB_BLOCK_SIZE * 2)) as [Hgt|Hle].
  - rewrite u32_small in Hgt by lia. unfold SLAB_BLOCK_SIZE in Hgt.
    set (st1 := st <| blocks ::= insert ptr (mkBlock (u32 (R - SLAB_BLOCK_SIZE)) None None 0 true (b_data ptr)) |>).
    assert (Hd : b_data ptr = ptr + 6) by (unfold b_data, SLAB_BLOCK_SIZE; apply u32_small; lia).
    assert (Hblk : blocks st1 !! ptr = Some (mkBlock (u32 (R - SLAB_BLOCK_SIZE)) None None 0 true (b_data ptr))) by apply lookup_insert_eq.
    assert (Hnew : u32 (b_data ptr + u32 (R - SLAB_BLOCK_SIZE) - s - SLAB_BLOCK_SIZE) = ptr + R - 6 - s).
    { unfold SLAB_BLOCK_SIZE. rewrite Hd, (u32_small (R - 6)) by lia. rewrite u32_small by lia. lia. }
    destruct (split_base_none st1 ptr _ s Hblk) as (new & st3 & H1 & H2 & (H3 & H4) & _); [done|done|cbn [b_size]; lia|].
    cbn [b_size] in H3. exists new, st3. split; [exact H1|]. split; [exact H4|]. right. lia.
  - eexists _, _. split; [done|]. split; [done|by left].
Qed.

(** [extend_heap] on an empty heap, for requests longer than a page holds. *)
Lemma extend_large st s :
  base st = None -> mm_inv (sl_mm st) -> 1020 <= s <= 1048576 ->
  exists b st', extend_heap None s st = Some (b, st') /\ (b = 0 \/
  exists q, 0 < q < 128 /\ used (sl_mm st) q = false /\
    (b = q * 1024 \/ (q * 1024 + 2042 - s <= b < 2000000 /\ 0 < b)) /\
    forall x, 0 <= x -> used (sl_mm st') x = (used (sl_mm st) x || bool_decide (x = q))).
Proof.
  intros Hb Hmm Hs. unfold extend_heap.
  assert ((s <? SLAB_BLOCK_SIZE) = false) as -> by (apply Z.ltb_ge; unfold SLAB_BLOCK_SIZE; lia).
  destruct (ALIGN1K_HB_spec s Hs) as (k & HRe & Hk & HR). rewrite HRe.
  replace (k * 1024 / PAGE_LEN) with k by (unfold PAGE_LEN; zlia).
  destruct (get_free_pages_spec (sl_mm st) k GFP_HIGH Hmm) as (a & mm' & Hg & _ & _ & Hcase);
    [unfold valid_len; lia|]. replace (npages k) with 1 in Hcase by (unfold npages; zlia).
  rewrite (bind_run _ _ st a (st <| sl_mm := mm' |>)) by (unfold zoom; by rewrite Hg).
  destruct Hcase as [(-> & _)|(q & -> & _ & Hlo & Hhi & Hrun & _ & Hu)].
  { eexists _, _. split; [done|]. by left. }
  pose proof (inv_bss _ Hmm). rewrite page_to_paddr by lia.
  destruct (Z.eqb_spec (q * 1024) 0); [lia|].
  destruct (extend_empty_tail (st <| sl_mm := mm' |>) (q * 1024) (k * 1024) s) as (b & st' & Hr & Hm & Hcase);
    [exact Hb|lia|lia|lia|].
  exists b, st'. split; [exact Hr|]. right.
  exists q. split; [lia|]. split; [apply Hrun; lia|]. split.
  - destruct Hcase as [-> | [-> Hgt]]; [by left|right]. assert (2 <= k \/ k = 1) as [?| ->] by lia; lia.
  - intros x Hx. rewrite Hm. gsimpl. rewrite Hu by done. f_equal. apply bool_decide_ext. lia.
Qed.

(** Requests of 1019 words up overrun: [extend_heap] passes a number of
    pages where [get_free_pages] takes a number of words, so exactly one page is
    reserved and the returned area runs past its end. *)
Theorem kmalloc_large_overruns st sz ra p st' :
  base st = None -> mm_inv (sl_mm st) -> 1019 <= sz <= 1048576 ->
  _kmalloc sz ra st = Some (p, st') -> p <> 0 ->
  exists q, 0 <= q /\ used (sl_mm st) q = false /\ (q + 1) * 1024 < p + sz /\
    forall x, 0 <= x -> used (sl_mm st') x = (used (sl_mm st) x || bool_decide (x = q)).
Proof.
  intros Hb Hmm Hsz Hr Hp.
  assert (Hs : exists s, align4 sz = s /\ sz <= s <= 1048576 /\ 1020 <= s <= sz + 3).
  { unfold align4. rewrite (u32_small (sz - 1)) by lia.
    rewrite Z.shiftl_mul_pow2, Z.shiftr_div_pow2 by lia. change (2 ^ 2) with 4.
    rewrite u32_small by zlia. eexists. split; [done|]. zlia. }
  destruct Hs as (s & Es & Hs & Hs2).
  set (st0 := st <| count ::= (fun c => s32 (c + 1)) |>).
  destruct (extend_large st0 s Hb Hmm ltac:(lia)) as (b & st1 & Hext & Hcase).
  assert (Hrun : _kmalloc sz ra st = if b =? 0 then Some (0, st1) else
            (_ ← upd_blk b (fun x => x <| b_ra := ra |> <| b_free := false |>); mret (b_data b)) (st1 <| base := Some b |>)).
  { unfold _kmalloc. rewrite (bind_run (modifyS _) _ st tt st0) by done. rewrite Es. unfold pick_block.
    unfold mbind at 1, st_bind at 1. rewrite (bind_run getS _ st0 st0 st0) by done.
    replace (base st0) with (@None Z) by done. rewrite (bind_run _ _ _ _ _ Hext).
    destruct (Z.eqb_spec b 0) as [->|Hne]; [done|]. rewrite (bind_run _ _ _ _ _ eq_refl). cbn [mret st_ret].
    unfold mret, st_ret. destruct (Z.eqb_spec b 0); [done|]. done. }
  rewrite Hrun in Hr. clear Hrun. destruct (Z.eqb_spec b 0) as [|Hb']; [by injection Hr as <- _|].
  destruct Hcase as [|(q & Hq & Hfree & Hbound & Hu)]; [done|].
  unfold mbind, st_bind, upd_blk in Hr. destruct (_ !! b) as [nb|]; [|done]. injection Hr as <- <-.
  exists q. split; [lia|]. split; [done|]. split; [|exact Hu].
  unfold b_data, SLAB_BLOCK_SIZE. rewrite u32_small; lia.
Qed.

(** An empty heap, and one with a free and an allocated block in page 2. *)
Definition empty_slab : slst := mkSlab ∅ None 0 sample_mm.

Lemma empty_slab_inv : slab_inv empty_slab [].
Proof. split; cbn; [done|done|set_solver|set_solver|set_solver|exact sample_mm_inv]. Qed.

Lemma kmalloc_fresh_block_witness :
  exists p st' l', _kmalloc 40 7 empty_slab = Some (p, st') /\ slab_inv st' l' /\
    if p =? 0 then (forall q y, live st' l' q y <-> live empty_slab [] q y)
    else exists z, 40 <= z /\ (forall y, ~ live empty_slab [] p y) /\
           forall q y, live st' l' q y <-> (q = p /\ y = z) \/ live empty_slab [] q y.
Proof. apply (kmalloc_fresh_block empty_slab [] 40 7 empty_slab_inv). lia. Defined.

Lemma kmalloc_large_overruns_witness :
  exists p st', _kmalloc 3000 7 empty_slab = Some (p, st') /\
  exists q, 0 <= q /\ used (sl_mm empty_slab) q = false /\ (q + 1) * 1024 < p + 3000 /\
    forall x, 0 <= x -> used (sl_mm st') x = (used (sl_mm empty_slab) x || bool_decide (x = q)).
Proof.
  eexists _, _. split; [vm_compute; reflexivity|].
  eapply (kmalloc_large_overruns empty_slab 3000 7); [done|exact sample_mm_inv|lia|vm_compute; reflexivity|done].
Defined.

Definition small_slab : slst :=
  mkSlab {[ 2048 := mkBlock 100 (Some 2154) None 0 true 2054;
            2154 := mkBlock 912 None (Some 2048) 7 false 2160 ]} (Some 2154) 1
    (mkMm [0xe0000000; 0; 0; 1] 2).

Lemma small_slab_mm_inv : mm_inv (sl_mm small_slab).
Proof.
  split; [wf_concrete|cbn; lia| |reflexivity].
  intros k Hk. cbn in Hk. assert (k = 0 \/ k = 1) as [-> | ->] by lia; reflexivity.
Qed.

Lemma small_slab_inv : slab_inv small_slab [2154; 2048].
Proof.
  assert (Hl : forall a b, blocks small_slab !! a = Some b ->
    (a = 2048 /\ b = mkBlock 100 (Some 2154) None 0 true 2054) \/
    (a = 2154 /\ b = mkBlock 912 None (Some 2048) 7 false 2160)).
  { intros a b. cbn. rewrite lookup_insert_Some, lookup_singleton_Some. naive_solver. }
  split; [by repeat split|by repeat split| | | |exact small_slab_mm_inv].
  - intros a. rewrite !elem_of_cons. intros [->|[->|[]%elem_of_nil]]; by eexists.
  - intros a b _ Hb. assert (Hused : forall w, 2048 <= w < 3072 -> used (sl_mm small_slab) (w / 1024) = true).
    { intros w Hw. replace (w / 1024) with 2 by zlia. reflexivity. }
    destruct (Hl a b Hb) as [[-> ->]|[-> ->]]; split; unfold b_end, SLAB_BLOCK_SIZE, MEM_END; cbn; try lia;
      intros w Hw; apply Hused; lia.
  - intros a a' b b' _ _ Hne Hb Hb'. unfold b_end, SLAB_BLOCK_SIZE.
    destruct (Hl a b Hb) as [[-> ->]|[-> ->]], (Hl a' b' Hb') as [[-> ->]|[-> ->]]; cbn; lia || done.
Qed.

Lemma kfree_releases_block_witness :
  live small_slab [2154; 2048] 2160 912 /\
  exists st' l', _kfree 2160 9 small_slab = Some (tt, st') /\ slab_inv st' l' /\
    forall q y, live st' l' q y <-> live small_slab [2154; 2048] q y /\ q <> 2160.
Proof.
  assert (Hl : live small_slab [2154; 2048] 2160 912).
  { exists 2154. eexists. split; [set_solver|]. split; [vm_compute; reflexivity|]. done. }
  split; [exact Hl|]. apply (kfree_releases_block small_slab [2154; 2048] 2160 912 9 small_slab_inv Hl).
Defined.
