(* ===== verification/Kernel.v ===== *)
(** * The kernel state: include/kernel/proc.h, include/sys/ipc.h, signal.h

    One record holds what the C code keeps in static variables: the process
    table, the scheduling queues, memory, and the states of the components.  A
    [struct proc STAR] is the number of the process; NULL is [None].  Memory is one
    array of words; the kernel's own message buffers lie at addresses below 0. *)
From S2P Require Import Prelude Bitmap Mm Linked CString Timer Slab.

(** ** Constants *)
Definition INIT : Z := 1.
Definition NUM_TASKS : Z := 2.
Definition IDLE : Z := -1.
Definition CLOCK : Z := -2.
Definition SYSTEM : Z := 0.
Definition NUM_PROCS : Z := 8.
Definition NUM_QUEUES : Z := 5.
Definition MAX_PRIORITY : Z := 0.
Definition MIN_PRIORITY : Z := 4.
Definition PROC_NAME_LEN : Z := 16.
Definition OPEN_MAX : Z := 16.
Definition STACK_MAGIC : Z := 0x12345678.
Definition SIGNAL_CTX_LEN : Z := 21.
Definition DEFAULT_CCTRL : Z := 0xff9.
Definition DEFAULT_USER_QUANTUM : Z := 8.
Definition NUM_REGS : Z := 13.

Definition STATE_RUNNABLE : Z := 0.
Definition STATE_SENDING : Z := 1.
Definition STATE_RECEIVING : Z := 2.
Definition STATE_WAITING : Z := 4.
Definition STATE_PAUSING : Z := 8.
Definition STATE_VFORKING : Z := 16.
Definition STATE_STOPPED : Z := 32.
Definition STATE_KILLED : Z := 64.
Definition STATE_ZOMBIE : Z := 0x80000000.

Definition IN_USE : Z := 1.
Definition BILLABLE : Z := 2.
Definition DIRECT_SYSCALL : Z := 4.

Definition _NSIG : Z := 21.
Definition SIGABRT : Z := 6.
Definition SIGFPE : Z := 8.
Definition SIGKILL : Z := 9.
Definition SIGSEGV : Z := 11.
Definition SIGPIPE : Z := 13.
Definition SIGALRM : Z := 14.
Definition SIGSTOP : Z := 17.
Definition SIGTSTP : Z := 18.
Definition SIGCONT : Z := 19.
Definition SIGCHLD : Z := 20.
Definition SIG_DFL : Z := 0.
Definition SIG_IGN : Z := 1.
Definition SIG_ERR : Z := 0xffff.
Definition SA_RESETHAND : Z := 2.
Definition SA_NODEFER : Z := 4.

(** [x & flag], [x |= flag] and [x &= ~flag] on an [int] kept unsigned. *)
Definition has (x flag : Z) : bool := negb (Z.land x flag =? 0).
Definition set_flag (flag x : Z) : Z := Z.lor x flag.
Definition clr_flag (flag x : Z) : Z := Z.ldiff x flag.

(** ** Messages: eight words *)
Record message := mkMsg {
  m_src : Z;
  m_type : Z;              (* also called reply_res *)
  m1_i1 : Z; m1_i2 : Z; m1_i3 : Z;
  m1_p1 : Z; m1_p2 : Z; m1_p3 : Z
}.
#[export] Instance eta_message : Settable message := mkEta (fun m =>
  mkMsg (m_src m) (m_type m) (m1_i1 m) (m1_i2 m) (m1_i3 m) (m1_p1 m) (m1_p2 m) (m1_p3 m)).

Definition MESSAGE_LEN : Z := 8.

Definition rd_msg (mem : memory) (a : Z) : message :=
  mkMsg (mem a) (mem (a + 1)) (mem (a + 2)) (mem (a + 3)) (mem (a + 4)) (mem (a + 5)) (mem (a + 6)) (mem (a + 7)).

Definition msg_words (m : message) : list Z :=
  [m_src m; m_type m; m1_i1 m; m1_i2 m; m1_i3 m; m1_p1 m; m1_p2 m; m1_p3 m].

Fixpoint wr_words (mem : memory) (a : Z) (l : list Z) : memory :=
  match l with
  | [] => mem
  | w :: l' => wr_words (mset mem a w) (a + 1) l'
  end.

Definition wr_msg (mem : memory) (a : Z) (m : message) : memory := wr_words mem a (msg_words m).

(** Message buffers of the kernel itself: system.c, exception.c, do_csleep.c,
    and the local variables of send_sig, exec_welf and the pipe functions. *)
Definition SYS_MSG : Z := -100.
Definition EXPT_MSG : Z := -200.
Definition CSLEEP_MSG : Z := -300.
Definition LOCAL_MSG : Z := -400.

(** ** Processes *)
Record sigaction := mkSa { sa_handler : Z; sa_mask : Z; sa_flags : Z }.
#[export] Instance eta_sigaction : Settable sigaction := mkEta (fun a =>
  mkSa (sa_handler a) (sa_mask a) (sa_flags a)).

Record proc := mkProc {
  (* struct k_context ctx *)
  regs : list Z; sp : Z; ra : Z; pc : Z; rbase : Z; ctx_ptable : Z; cctrl : Z;
  state : Z; message_ptr : Z;
  mem_start : Z; stack_top : Z; heap_top : Z; heap_break : Z; heap_bottom : Z;
  rbase_offset : Z; text_size : Z; data_size : Z; bss_size : Z;
  protection_table : list Z;
  sender_q : option Z; next_sender : option Z;
  nq_next : option Z; nq_prev : option Z;    (* struct list_head notify_queue *)
  p_next : option Z; priority : Z; quantum : Z; ticks_left : Z;
  time_used : Z; sys_time_used : Z;
  name : list Z; uid : Z; gid : Z; exit_status : Z; sig_status : Z;
  pid : Z; procgrp : Z; session_id : Z; wpid : Z; woptions : Z; parent : Z; flags : Z;
  proc_nr : Z;
  sig_pending : Z; sig_mask : Z; sig_mask2 : Z; sig_table : list sigaction; sa_restorer : Z;
  umask : Z; fp_filp : list (option Z); fp_rootdir : option Z; fp_workdir : option Z
}.
#[export] Instance eta_proc : Settable proc := mkEta (fun p =>
  mkProc (regs p) (sp p) (ra p) (pc p) (rbase p) (ctx_ptable p) (cctrl p) (state p) (message_ptr p)
    (mem_start p) (stack_top p) (heap_top p) (heap_break p) (heap_bottom p)
    (rbase_offset p) (text_size p) (data_size p) (bss_size p) (protection_table p)
    (sender_q p) (next_sender p) (nq_next p) (nq_prev p) (p_next p) (priority p) (quantum p) (ticks_left p)
    (time_used p) (sys_time_used p) (name p) (uid p) (gid p) (exit_status p) (sig_status p)
    (pid p) (procgrp p) (session_id p) (wpid p) (woptions p) (parent p) (flags p) (proc_nr p)
    (sig_pending p) (sig_mask p) (sig_mask2 p) (sig_table p) (sa_restorer p)
    (umask p) (fp_filp p) (fp_rootdir p) (fp_workdir p)).

(** Zeroed memory. *)
Definition proc_zero : proc :=
  mkProc (replicate 13 0) 0 0 0 0 0 0 0 0 0 0 0 0 0 0 0 0 0 (replicate 32 0)
    None None None None None 0 0 0 0 0 (replicate 16 0) 0 0 0 0 0 0 0 0 0 0 0 0
    0 0 0 (replicate 21 (mkSa 0 0 0)) 0 0 (replicate 16 None) None None.

(** ** Files, as far as processes see them: include/fs/filp.h, include/fs/inode.h *)
Record filp_t := mkFilp {
  filp_mode : Z; filp_flags : Z; filp_count : Z; filp_ino : option Z; filp_pos : Z;
  filp_dev : Z; pipe_mode : Z; filp_pipe : Z; filp_table_index : Z;
  getdents_zone_nr : Z; getdents_dirstream_nr : Z;
  filp_private : Z               (* the tty_state of a tty, by device; 0 is NULL *)
}.
#[export] Instance eta_filp : Settable filp_t := mkEta (fun f =>
  mkFilp (filp_mode f) (filp_flags f) (filp_count f) (filp_ino f) (filp_pos f)
    (filp_dev f) (pipe_mode f) (filp_pipe f) (filp_table_index f)
    (getdents_zone_nr f) (getdents_dirstream_nr f) (filp_private f)).
Definition filp_zero : filp_t := mkFilp 0 0 0 None 0 0 0 0 0 0 0 0.

Record inode_t := mkInode {
  i_mode : Z; i_nlinks : Z; i_uid : Z; i_gid : Z; i_size : Z; i_atime : Z; i_mtime : Z; i_ctime : Z;
  i_zone : list Z;
  i_dev : Z; i_num : Z; i_count : Z; i_ndblock : Z; i_total_size : Z; i_flags : Z
}.
#[export] Instance eta_inode : Settable inode_t := mkEta (fun i =>
  mkInode (i_mode i) (i_nlinks i) (i_uid i) (i_gid i) (i_size i) (i_atime i) (i_mtime i) (i_ctime i)
    (i_zone i) (i_dev i) (i_num i) (i_count i) (i_ndblock i) (i_total_size i) (i_flags i)).
Definition inode_zero : inode_t := mkInode 0 0 0 0 0 0 0 0 (replicate 8 0) 0 0 0 0 0 0.

(** fs/cache.c: a buffer of the block cache; [disk] is the RAM disk. *)
Record block_buffer := mkBuf {
  block : list Z; bf_prev : option Z; bf_next : option Z;
  b_blocknr : Z; b_dev : Z; b_dirt : bool; b_count : Z
}.
#[export] Instance eta_buf : Settable block_buffer := mkEta (fun b =>
  mkBuf (block b) (bf_prev b) (bf_next b) (b_blocknr b) (b_dev b) (b_dirt b) (b_count b)).

Record superblock := mkSb {
  sb_magic : Z; s_block_inuse : Z; s_inode_inuse : Z; s_free_blocks : Z; s_free_inodes : Z;
  s_block_size : Z; s_inode_size : Z; s_rootnr : Z; s_superblock_nr : Z; s_superblock_size : Z;
  s_blockmapnr : Z; s_blockmap_size : Z; s_inodemapnr : Z; s_inodemap_size : Z;
  s_inode_tablenr : Z; s_inode_table_size : Z; s_inode_per_block : Z
}.
#[export] Instance eta_sb : Settable superblock := mkEta (fun s =>
  mkSb (sb_magic s) (s_block_inuse s) (s_inode_inuse s) (s_free_blocks s) (s_free_inodes s)
    (s_block_size s) (s_inode_size s) (s_rootnr s) (s_superblock_nr s) (s_superblock_size s)
    (s_blockmapnr s) (s_blockmap_size s) (s_inodemapnr s) (s_inodemap_size s)
    (s_inode_tablenr s) (s_inode_table_size s) (s_inode_per_block s)).

Record fsst := mkFs {
  fd_table : list filp_t;
  inode_table : list inode_t;
  inode_arch_map : list Z;
  buf_table : list block_buffer;
  lru_front : option Z;
  lru_rear : option Z;
  root_sb : superblock;
  disk : memory;
  disk_size : Z;
  buf_at : Z -> Z                (* &buf_table[i], placed by the linker *)
}.
#[export] Instance eta_fs : Settable fsst := mkEta (fun f =>
  mkFs (fd_table f) (inode_table f) (inode_arch_map f) (buf_table f) (lru_front f) (lru_rear f)
    (root_sb f) (disk f) (disk_size f) (buf_at f)).

(** A process blocked on a pipe, and the pipe itself. *)
Record pipe_waiting := mkPw {
  pw_node : Z;                   (* the address of the structure *)
  pw_who : Z; pw_syscall : Z; pw_filp : Z; pw_data : Z; pw_count : Z; pw_offset : Z
}.

Record pipe_t := mkPipe { pp_data : Z; pp_pos : Z }.
#[export] Instance eta_pipe : Settable pipe_t := mkEta (fun p => mkPipe (pp_data p) (pp_pos p)).

(** include/winix/tty.h: [bptr] and [read_ptr] are offsets into [tty_buffer], an
    array of TTY_BUFFER_SIZ characters; [tty_tx] is what was sent to the port. *)
Record tty_state := mkTty {
  tty_buffer : list Z; bptr : Z; read_ptr : Z;
  reader : option Z; read_data : Z; read_count : Z;
  foreground_group : Z; controlling_session : Z; is_echoing : bool;
  tty_tx : list Z
}.
#[export] Instance eta_tty : Settable tty_state := mkEta (fun t =>
  mkTty (tty_buffer t) (bptr t) (read_ptr t) (reader t) (read_data t) (read_count t)
    (foreground_group t) (controlling_session t) (is_echoing t) (tty_tx t)).

(** ** The state *)
Record kst := mkK {
  procs : gmap Z proc;
  ready_q : list (option Z * option Z);    (* ready_q[NUM_QUEUES][2]: HEAD, TAIL *)
  current_proc : option Z;
  curr_user_proc : option Z;
  bill_ptr : option Z;
  irq_count : Z;
  who_proc_nr : Z;
  curr_syscall : Z;
  trace_syscall : bool;
  kmem : memory;
  kslab : slst;
  ktm : tmst;
  kfs : fsst;
  kpipes : gmap Z pipe_t;                       (* struct filp_pipe, by address *)
  kreading : gmap Z (list pipe_waiting);        (* inode->pipe_reading_list, by inode *)
  kwriting : gmap Z (list pipe_waiting);
  next_inum : Z;
  kttys : gmap Z tty_state                      (* by device *)
}.
#[export] Instance eta_kst : Settable kst := mkEta (fun k =>
  mkK (procs k) (ready_q k) (current_proc k) (curr_user_proc k) (bill_ptr k) (irq_count k)
    (who_proc_nr k) (curr_syscall k) (trace_syscall k) (kmem k) (kslab k) (ktm k) (kfs k)
    (kpipes k) (kreading k) (kwriting k) (next_inum k) (kttys k)).

Notation K := (ST kst).

(** ** Access *)
Definition getp (n : Z) : K proc := fun k => liftO (procs k !! n) k.

Definition updp (n : Z) (f : proc -> proc) : K unit := fun k =>
  match procs k !! n with
  | Some p => Some (tt, k <| procs ::= insert n (f p) |>)
  | None => None
  end.

Definition get_mem : K memory := gets kmem.
Definition rd (a : Z) : K Z := gets (fun k => kmem k a).
Definition wr (a v : Z) : K unit := modifyS (fun k => k <| kmem ::= (fun m => mset m a v) |>).
Definition rd_message (a : Z) : K message := gets (fun k => rd_msg (kmem k) a).
Definition wr_message (a : Z) (m : message) : K unit := modifyS (fun k => k <| kmem ::= (fun mem => wr_msg mem a m) |>).
Definition upd_message (a : Z) (f : message -> message) : K unit :=
  m ← rd_message a; wr_message a (f m).

Definition on_mm {A} (c : ST mmst A) : K A :=
  zoom (fun k => sl_mm (kslab k)) (fun m k => k <| kslab := kslab k <| sl_mm := m |> |>) c.
Definition on_slab {A} (c : ST slst A) : K A := zoom kslab (fun s k => k <| kslab := s |>) c.
Definition on_timers {A} (c : ST tmst A) : K A := zoom ktm (fun t k => k <| ktm := t |>) c.
Definition on_fs {A} (c : ST fsst A) : K A := zoom kfs (fun f k => k <| kfs := f |>) c.

Definition when (b : bool) (c : K unit) : K unit := if b then c else mret tt.

Definition IS_PROCN_OK (i : Z) : bool := (i >? - NUM_TASKS) && (i <=? NUM_PROCS).
Definition IS_USER_PROC (p : proc) : bool := negb (rbase p =? 0).
Definition IS_KERNEL_PROC (p : proc) : bool := rbase p =? 0.
Definition IS_INUSE (p : proc) : bool := has (flags p) IN_USE.

(** foreach_proc: the process numbers in table order. *)
Definition proc_numbers : list Z := seqZ INIT NUM_PROCS.
Definition proc_and_task_numbers : list Z := seqZ (- NUM_TASKS + 1) (NUM_PROCS + NUM_TASKS).

(** The body runs on each process in use; [Some] leaves the loop. *)
Fixpoint foreach {A} (ns : list Z) (body : Z -> proc -> K (option A)) : K (option A) :=
  match ns with
  | [] => mret None
  | n :: ns' =>
      p ← getp n;
      if IS_INUSE p then
        r ← body n p;
        match r with
        | Some a => mret (Some a)
        | None => foreach ns' body
        end
      else foreach ns' body
  end.

(** ** Flags and messages *)
Lemma has_pow2 x i : 0 <= i -> has x (2 ^ i) = Z.testbit x i.
Proof. intros. unfold has. by rewrite land_pow2_eqb0, negb_involutive. Qed.

Lemma clr_set_flag x i : 0 <= i -> has x (2 ^ i) = false -> clr_flag (2 ^ i) (set_flag (2 ^ i) x) = x.
Proof.
  intros Hi Hx. rewrite has_pow2 in Hx by done. unfold clr_flag, set_flag. apply Z.bits_inj'. intros n Hn.
  rewrite Z.ldiff_spec, Z.lor_spec, testbit_pow2 by lia. case_bool_decide as E; cbn.
  - subst. by rewrite andb_false_r.
  - by rewrite orb_false_r, andb_true_r.
Qed.

Lemma has_set_flag x i : 0 <= i -> has (set_flag (2 ^ i) x) (2 ^ i) = true.
Proof. intros. rewrite has_pow2 by done. unfold set_flag. by rewrite Z.lor_spec, Z.pow2_bits_true, orb_true_r. Qed.

Lemma has_clr_flag x i : 0 <= i -> has (clr_flag (2 ^ i) x) (2 ^ i) = false.
Proof. intros. rewrite has_pow2 by done. unfold clr_flag. by rewrite Z.ldiff_spec, Z.pow2_bits_true, andb_false_r. Qed.

Lemma wr_words_out l : forall m a x, ~ (a <= x < a + alen l) -> wr_words m a l x = m x.
Proof.
  induction l as [|w l IH]; intros m a x Hx; [done|]. cbn [wr_words].
  unfold alen in *. cbn [length] in Hx. rewrite IH by lia. unfold mset. destruct (Z.eqb_spec x a); [lia|done].
Qed.

Lemma wr_words_in l : forall m a (i : nat) w, l !! i = Some w -> wr_words m a l (a + Z.of_nat i) = w.
Proof.
  induction l as [|v l IH]; intros m a i w Hi; [done|]. destruct i as [|i]; cbn [wr_words].
  - injection Hi as ->. rewrite wr_words_out by lia. unfold mset. rewrite Z.add_0_r. by rewrite Z.eqb_refl.
  - cbn in Hi. rewrite <- (IH (mset m a v) (a + 1) i w Hi). f_equal. lia.
Qed.

Lemma rd_wr_msg mem a m : rd_msg (wr_msg mem a m) a = m.
Proof.
  destruct m as [a0 a1 a2 a3 a4 a5 a6 a7]. unfold rd_msg, wr_msg.
  pose proof (wr_words_in (msg_words (mkMsg a0 a1 a2 a3 a4 a5 a6 a7)) mem a) as H.
  f_equal; [eapply eq_trans; [|apply (H 0%nat a0 eq_refl)]; f_equal; lia|apply (H 1%nat)|apply (H 2%nat)|apply (H 3%nat)
    |apply (H 4%nat)|apply (H 5%nat)|apply (H 6%nat)|apply (H 7%nat)]; done.
Qed.

(** ** A concrete kernel: the ten slots of the table, the file system empty *)
Definition sample_proc (n : Z) : proc :=
  proc_zero <| proc_nr := n |> <| pid := n |> <| procgrp := n |> <| parent := 1 |>
    <| flags := if n <=? 3 then IN_USE else 0 |>
    <| rbase := if n <=? 0 then 0 else 2048 |> <| ctx_ptable := n |>
    <| nq_next := Some n |> <| nq_prev := Some n |>.

Definition sample_fs : fsst := mkFs [] [] [] [] None None (mkSb 0 0 0 0 0 0 0 0 0 0 0 0 0 0 0 0 0) (fun _ => 0) 0 (fun i => 8192 + 1030 * (i mod 4)).

Definition sample_k : kst :=
  mkK (list_to_map (map (fun n => (n, sample_proc n)) proc_and_task_numbers))
    (replicate (Z.to_nat NUM_QUEUES) (None, None)) (Some 1) (Some 1) None 0 0 0 false (fun _ => 0)
    empty_slab (tm_boot 7) sample_fs ∅ ∅ ∅ 2 ∅.
