(* ===== verification/Proc.v ===== *)
(** * kernel/proc.c and kernel/sched.c: the process table and its queues *)
From S2P Require Import Prelude Bitmap Mm Linked CString Timer Slab Kernel.

(** ** The process table *)
Definition get_proc (n : Z) : K (option Z) :=
  if IS_PROCN_OK n then
    p ← getp n;
    mret (if IS_INUSE p then Some n else None)
  else mret None.

Definition get_proc_by_pid (pd : Z) : K (option Z) :=
  if pd =? 0 then mret (Some SYSTEM)
  else foreach proc_numbers (fun n p => mret (if pid p =? pd then Some n else None)).

Definition get_runnable_proc (n : Z) : K (option Z) :=
  p ← get_proc n;
  match p with
  | Some p => x ← getp p; mret (if state x =? STATE_RUNNABLE then Some p else None)
  | None => mret None
  end.

(** ** Queues: q[HEAD] and q[TAIL] *)
Definition get_queue (q : Z) : K (option Z * option Z) := fun k => liftO (aget (ready_q k) q) k.

Definition set_queue (q : Z) (ht : option Z * option Z) : K unit := fun k =>
  match aset (ready_q k) q ht with
  | Some rq => Some (tt, k <| ready_q := rq |>)
  | None => None
  end.

Definition enqueue_tail (q proc : Z) : K unit :=
  ht ← get_queue q;
  _ ← match fst ht with
      | None => set_queue q (Some proc, Some proc)
      | Some _ =>
          t ← liftO (snd ht);
          _ ← updp t (fun p => p <| p_next := Some proc |>);
          set_queue q (fst ht, Some proc)
      end;
  updp proc (fun p => p <| p_next := None |>).

Definition enqueue_head (q proc : Z) : K unit :=
  ht ← get_queue q;
  match fst ht with
  | None =>
      _ ← updp proc (fun p => p <| p_next := None |>);
      set_queue q (Some proc, Some proc)
  | Some h =>
      _ ← updp proc (fun p => p <| p_next := Some h |>);
      set_queue q (Some proc, snd ht)
  end.

Definition dequeue (q : Z) : K (option Z) :=
  ht ← get_queue q;
  match fst ht with
  | None => mret None
  | Some p =>
      _ ← (if decide (fst ht = snd ht) then set_queue q (None, None)
           else x ← getp p; set_queue q (p_next x, snd ht));
      _ ← updp p (fun p => p <| p_next := None |>);
      mret (Some p)
  end.

(** The search loop: the node before [h], and [h] if it was found. *)
Fixpoint find_prev (fuel : nat) (ps : gmap Z proc) (prev curr : option Z) (h : Z)
  : option (option Z * option Z) :=
  match curr, fuel with
  | None, _ => Some (prev, None)
  | Some _, O => None
  | Some c, S f =>
      if decide (c = h) then Some (prev, curr)
      else p ← ps !! c; find_prev f ps (Some c) (p_next p) h
  end.

Definition dequeue_schedule (h : Z) : K Z :=
  ph ← getp h;
  let q := priority ph in
  ht ← get_queue q;
  k ← getS;
  r ← liftO (find_prev (S (size (procs k))) (procs k) None (fst ht) h);
  match (r : option Z * option Z) with
  | (_, None) => mret ERR
  | (prev, Some c) =>
      pc ← getp c;
      _ ← (match prev with
           | None =>
               set_queue q (p_next pc, if decide (p_next pc = None) then None else snd ht)
           | Some pr => updp pr (fun p => p <| p_next := p_next pc |>)
           end);
      mret OK
  end.

Definition enqueue_schedule (p : Z) : K unit :=
  x ← getp p; enqueue_tail (priority x) p.

Definition zombify (p : Z) : K unit :=
  _ ← updp p (fun x => x <| state ::= set_flag STATE_ZOMBIE |>);
  _ ← dequeue_schedule p;
  mret tt.

Definition release_zombie (p : Z) : K unit :=
  x ← getp p;
  when (has (state x) STATE_ZOMBIE)
    (updp p (fun x => x <| flags := 0 |> <| pid := 0 |> <| state := 0xffffffff |>)).

(** ** Slots *)
Definition proc_set_default (n : Z) : K unit :=
  p ← getp n;
  let pnr_bak := proc_nr p in
  _ ← on_timers (clear_timer n);
  _ ← updp n (fun _ =>
        proc_zero <| proc_nr := pnr_bak |> <| state := 0xffffffff |>
          <| regs := replicate (Z.to_nat NUM_REGS) 0xffffffff |>
          <| cctrl := DEFAULT_CCTRL |> <| quantum := DEFAULT_USER_QUANTUM |>
          <| ctx_ptable := n |>
          <| sig_table := <[Z.to_nat SIGCHLD := mkSa SIG_IGN 0 0]> (sig_table proc_zero) |>
          <| umask := 0x22 |>
          <| nq_next := Some n |> <| nq_prev := Some n |>);
  on_timers (upd_timer n (fun t => t <| t_proc_nr := pnr_bak |>)).

Fixpoint free_slot_loop (ns : list Z) : K (option Z) :=
  match ns with
  | [] => mret None
  | i :: ns' =>
      p ← getp i;
      if negb (IS_INUSE p) then
        _ ← proc_set_default i;
        _ ← updp i (fun x => x <| state := STATE_RUNNABLE |> <| flags := IN_USE |> <| pid := i |>);
        mret (Some i)
      else free_slot_loop ns'
  end.

Definition get_free_proc_slot : K (option Z) := free_slot_loop proc_numbers.

(** [strncpy(p->name, src, n)]: the word behind [name] is [uid]. *)
Definition proc_strncpy (src : list Z) (n : Z) (p : proc) : proc :=
  let k := Nat.min (Z.to_nat n) (length src) in
  let p := p <| name ::= (fun old => take k src ++ drop k old) |> in
  if decide (k < 16)%nat then p <| name ::= (fun l => <[k := 0]> l) |> else p <| uid := 0 |>.

Definition set_proc (p entry : Z) (src : list Z) : K unit :=
  updp p (fun x => proc_strncpy src (PROC_NAME_LEN - 1) (x <| pc := entry |>)).

(** ** Protection tables: [ctx.ptable] points into the process [ctx_ptable] *)
Definition get_ptable (who : Z) : K (list Z) :=
  p ← getp who; o ← getp (ctx_ptable p); mret (protection_table o).

Definition set_ptable (who : Z) (t : list Z) : K unit :=
  p ← getp who; updp (ctx_ptable p) (fun o => o <| protection_table := t |>).

(** Run an operation of mm.c on the table of [who]. *)
Definition with_ptable (who : Z) (f : list Z -> ST mmst (Z * list Z)) : K Z :=
  t ← get_ptable who;
  r ← on_mm (f t);
  _ ← set_ptable who (snd (r : Z * list Z));
  mret (fst r).

Definition vaddr_ok (who addr : Z) : K bool :=
  p ← getp who; t ← get_ptable who; liftO (is_vaddr_ok addr (rbase p) t).

Definition kset_ptable (who : Z) : K unit :=
  p ← getp who;
  when (IS_KERNEL_PROC p)
    (t ← get_ptable who;
     r ← liftO (bitmap_fill t PTABLE_LEN);
     r2 ← liftO (bitmap_clear_bit (snd (r : Z * list Z)) PTABLE_LEN 0);
     set_ptable who (snd (r2 : Z * list Z))).

Definition PROC_ACCESS : Z := 1.
Definition PROC_NO_ACCESS : Z := 0.

Definition proc_memctl (who page_addr fl : Z) : K Z :=
  p ← getp who;
  let paged := PADDR_TO_PAGED (get_physical_addr page_addr (rbase p)) in
  t ← get_ptable who;
  if fl =? PROC_ACCESS then
    r ← liftO (bitmap_set_bit t PTABLE_LEN paged);
    _ ← set_ptable who (snd (r : Z * list Z)); mret (fst r)
  else if fl =? PROC_NO_ACCESS then
    r ← liftO (bitmap_clear_bit t PTABLE_LEN paged);
    _ ← set_ptable who (snd (r : Z * list Z)); mret (fst r)
  else mret ERR.

(** ** Kernel processes *)
Definition KERNEL_STACK_SIZE : Z := PAGE_LEN.

(** A failed allocation is a write to address 0; [kmalloc] records a return
    address, 0 here. *)
Definition alloc_kstack (who size : Z) : K Z :=
  stack_top' ← (if Z.rem size PAGE_LEN =? 0 then on_mm (get_free_pages size GFP_HIGH)
                else on_slab (_kmalloc size 0));
  let addr := u32 (stack_top' + size - 1) in
  _ ← wr stack_top' STACK_MAGIC;
  _ ← updp who (fun p => p <| stack_top := stack_top' |>);
  mret addr.

Record boot_image := mkBoot {
  bt_name : list Z; bt_entry : Z; bt_proc_nr : Z; bt_quantum : Z; bt_priority : Z; bt_stack_size : Z
}.

Definition start_kernel_proc (task : boot_image) : K Z :=
  let who := bt_proc_nr task in
  _ ← proc_set_default who;
  _ ← updp who (fun p => p <| flags ::= set_flag IN_USE |>);
  _ ← set_proc who (bt_entry task) (bt_name task);
  _ ← kset_ptable who;
  _ ← updp who (fun p => p <| quantum := bt_quantum task |>);
  s ← alloc_kstack who (bt_stack_size task);
  _ ← updp who (fun p => p <| sp := s |> <| priority := bt_priority task |> <| pid := 0 |>
                           <| state := STATE_RUNNABLE |>);
  _ ← enqueue_schedule who;
  mret who.

(** The entries of kernel/table.c; the entry points are addresses of the image. *)
Definition boot_table (idle_main system_main : Z) : list boot_image :=
  [ mkBoot [73; 68; 76; 69] idle_main IDLE 1 MIN_PRIORITY 50;
    mkBoot [83; 89; 83; 84; 69; 77] system_main SYSTEM 64 MAX_PRIORITY KERNEL_STACK_SIZE ].

Fixpoint init_kernel_tasks (tasks : list boot_image) : K unit :=
  match tasks with
  | [] => mret tt
  | t :: ts => _ ← start_kernel_proc t; init_kernel_tasks ts
  end.

(** ** Process images *)
Record winix_elf := mkElf {
  e_magic : Z; binary_pc : Z; binary_offset : Z; binary_size : Z;
  e_text_size : Z; e_data_size : Z; e_bss_size : Z
}.

Definition WINIX_ELF_MAGIC : Z := 0x19960503.

Definition kmemset (dst c n : Z) : K unit := modifyS (fun k => k <| kmem ::= (fun m => memset m dst c n) |>).
Definition kmemcpy (dst src n : Z) : K unit := modifyS (fun k => k <| kmem ::= (fun m => memcpy m dst src n) |>).

Definition alloc_mem_welf (who : Z) (elf : winix_elf) (stack_size heap_size : Z) : K Z :=
  let vm_offset := s32 (binary_offset elf) in
  if negb (e_magic elf =? WINIX_ELF_MAGIC) then mret EINVAL
  else if binary_offset elf <? u32 stack_size then mret EINVAL
  else if negb (binary_size elf =? u32 (e_text_size elf + e_data_size elf)) then mret EINVAL
  else
    let td_aligned := align_page (u32 (binary_size elf + e_bss_size elf)) in
    let proc_len := s32 (stack_size + td_aligned + heap_size) in
    mem_start' ← with_ptable who (fun t => user_get_free_pages t proc_len GFP_NORM);
    if mem_start' =? 0 then mret ENOMEM
    else
      _ ← updp who (fun p => p <| rbase := u32 (mem_start' + stack_size - vm_offset) |>
                               <| stack_top := mem_start' |> <| mem_start := mem_start' |>);
      _ ← updp who (fun p => p <| sp := get_virtual_addr (mem_start' + stack_size - 1) (rbase p) |>);
      _ ← wr mem_start' STACK_MAGIC;
      _ ← kmemset (u32 (mem_start' + stack_size + binary_size elf)) 0 (e_bss_size elf);
      _ ← kmemset mem_start' 0 stack_size;
      let heap_top' := u32 (mem_start' + stack_size + td_aligned) in
      _ ← updp who (fun p => p <| heap_top := heap_top' |> <| heap_break := heap_top' |>
                               <| heap_bottom := u32 (heap_top' + heap_size - 1) |>);
      _ ← kmemset heap_top' 0 heap_size;
      _ ← updp who (fun p => p <| data_size := e_data_size elf |> <| text_size := e_text_size elf |>
                               <| bss_size := e_bss_size elf |>
                               <| rbase_offset := u32 (binary_offset elf - stack_size) |>);
      mret OK.

Definition alloc_proc_mem (who text_data_length stack_size heap_size : Z) : K Z :=
  let vm_offset := PAGE_LEN in
  let td_aligned := align_page text_data_length in
  let bss_size' := s32 (td_aligned - text_data_length) in
  let stack_size := align_page stack_size in
  let heap_size := align_page heap_size in
  let bss_size' := if bss_size' <? 200 then s32 (bss_size' + PAGE_LEN) else bss_size' in
  let proc_len := s32 (vm_offset + stack_size + td_aligned + heap_size) in
  mem_start' ← with_ptable who (fun t => user_get_free_pages t proc_len GFP_NORM);
  if mem_start' =? 0 then mret ENOMEM
  else
    let stack_top' := u32 (mem_start' + vm_offset) in
    _ ← updp who (fun p => p <| rbase := mem_start' |> <| stack_top := stack_top' |>);
    _ ← updp who (fun p => p <| sp := get_virtual_addr (stack_top' + stack_size - 1) (rbase p) |>);
    _ ← wr stack_top' STACK_MAGIC;
    let bss_start := u32 (stack_top' + stack_size + text_data_length) in
    _ ← kmemset bss_start 0 (u32 bss_size');
    let heap_top' := u32 (bss_start + bss_size') in
    _ ← updp who (fun p => p <| heap_top := heap_top' |> <| heap_break := heap_top' |>
                             <| heap_bottom := u32 (heap_top' + heap_size - 1) |>);
    mret OK.

(** The source of these two copies is a structure of the kernel. *)
Definition copyto_user_stack (who : Z) (src : list Z) : K Z :=
  p ← getp who;
  let sp' := u32 (get_physical_addr (sp p) (rbase p) - alen src) in
  _ ← modifyS (fun k => k <| kmem ::= (fun m => wr_words m sp' src) |>);
  _ ← updp who (fun p => p <| sp := get_virtual_addr sp' (rbase p) |>);
  mret OK.

(** The result 0 is NULL. *)
Definition copyto_user_heap (who : Z) (src : list Z) : K Z :=
  p ← getp who;
  let addr := get_virtual_addr (heap_break p) (rbase p) in
  if u32 (heap_break p + alen src) >=? heap_bottom p then mret 0
  else
    _ ← modifyS (fun k => k <| kmem ::= (fun m => wr_words m (heap_break p) src) |>);
    _ ← updp who (fun p => p <| heap_break := u32 (heap_break p + alen src) |>);
    mret addr.

(** ** Initialisation *)
Fixpoint init_proc_loop (ns : list Z) : K unit :=
  match ns with
  | [] => mret tt
  | n :: ns' =>
      _ ← proc_set_default n;
      _ ← updp n (fun p => p <| proc_nr := n |>);
      init_proc_loop ns'
  end.

Definition init_proc : K unit :=
  _ ← modifyS (fun k => k <| ready_q := replicate (Z.to_nat NUM_QUEUES) (None, None) |>);
  _ ← init_proc_loop proc_and_task_numbers;
  modifyS (fun k => k <| current_proc := None |>).

(** ** kernel/sched.c *)
Definition init_sched : K unit :=
  _ ← on_timers (clear_timer SCHED_TIMER);
  _ ← on_timers (new_timer CLOCK SCHED_TIMER REBALANCE_TIMEOUT H_rebalance_queues);
  mret tt.

Definition rebalance_queues (pnr time : Z) : K unit :=
  _ ← foreach (A := unit) proc_numbers (fun n _ =>
        _ ← updp n (fun p => p <| priority := MAX_PRIORITY |>); mret None);
  _ ← on_timers (new_timer CLOCK SCHED_TIMER REBALANCE_TIMEOUT H_rebalance_queues);
  mret tt.

Fixpoint pick_proc_loop (qs : list Z) : K (option Z) :=
  match qs with
  | [] => crash     (* PANIC("No procs left") *)
  | i :: qs' =>
      mp ← dequeue i;
      match mp with
      | Some p => mret (Some p)
      | None => pick_proc_loop qs'
      end
  end.

Definition pick_proc : K (option Z) := pick_proc_loop (seqZ 0 NUM_QUEUES).

(** ** Representation: what the queue array stands for

    [p_link] follows the [next] pointers; [rq_rep k ls]: queue [q] is the list of
    processes [ls !! q], no process is on two queues. *)
Definition p_link (ps : gmap Z proc) (x : Z) : option Z := p ← ps !! x; p_next p.

Record rq_rep (k : kst) (ls : list (list Z)) : Prop := {
  rq_len : length ls = length (ready_q k);
  rq_chain : forall q l, aget ls q = Some l ->
    exists h t, aget (ready_q k) q = Some (h, t) /\ chain (p_link (procs k)) h l /\ (l <> [] -> t = last l);
  rq_dom : forall q l x, aget ls q = Some l -> x ∈ l -> is_Some (procs k !! x);
  rq_disj : forall q1 q2 l1 l2 x, aget ls q1 = Some l1 -> aget ls q2 = Some l2 -> x ∈ l1 -> x ∈ l2 -> q1 = q2
}.

Definition queued (ls : list (list Z)) (x : Z) : Prop := exists q l, aget ls q = Some l /\ x ∈ l.

(** The state apart from the queues and the links. *)
Definition unlinked (p : proc) : proc := p <| p_next := None |>.
Definition same_but_queues (k k' : kst) : Prop :=
  k' = k <| procs := procs k' |> <| ready_q := ready_q k' |> /\
  unlinked <$> procs k' = unlinked <$> procs k.

(** The specification: requests on a list of lists. *)
Inductive rq_req :=
| EnqTail (q p : Z)
| EnqHead (q p : Z)
| Deq (q : Z).

Definition rq_serve (r : rq_req) : K (option Z) :=
  match r with
  | EnqTail q p => _ ← enqueue_tail q p; mret None
  | EnqHead q p => _ ← enqueue_head q p; mret None
  | Deq q => dequeue q
  end.

Definition rq_step (ls : list (list Z)) (r : rq_req) : option (option Z * list (list Z)) :=
  match r with
  | EnqTail q p => l ← aget ls q; Some (None, <[Z.to_nat q := l ++ [p]]> ls)
  | EnqHead q p => l ← aget ls q; Some (None, <[Z.to_nat q := p :: l]> ls)
  | Deq q => l ← aget ls q;
      match l with
      | [] => Some (None, ls)
      | p :: l' => Some (Some p, <[Z.to_nat q := l']> ls)
      end
  end.

Definition rq_valid (k : kst) (ls : list (list Z)) (r : rq_req) : Prop :=
  match r with
  | EnqTail _ p | EnqHead _ p => is_Some (procs k !! p) /\ ~ queued ls p
  | Deq _ => True
  end.

(** The first non-empty queue. *)
Fixpoint first_ready (ls : list (list Z)) : option Z :=
  match ls with
  | [] => None
  | [] :: ls' => first_ready ls'
  | (p :: _) :: _ => Some p
  end.

(** ** Lemmas *)
Lemma p_link_insert ps x p y : p_link (<[x := p]> ps) y = upd_link (p_link ps) x (p_next p) y.
Proof.
  unfold p_link, upd_link. destruct (decide (y = x)) as [->|]; [by rewrite lookup_insert_eq|].
  by rewrite lookup_insert_ne.
Qed.

Lemma unlinked_insert (ps : gmap Z proc) x p (f : proc -> proc) :
  ps !! x = Some p -> unlinked (f p) = unlinked p -> unlinked <$> <[x := f p]> ps = unlinked <$> ps.
Proof.
  intros Hx Hf. rewrite fmap_insert, Hf, <- fmap_insert. by rewrite insert_id.
Qed.

Lemma same_but_queues_refl k : same_but_queues k k.
Proof. split; [by destruct k|done]. Qed.

Lemma same_but_queues_trans k1 k2 k3 :
  same_but_queues k1 k2 -> same_but_queues k2 k3 -> same_but_queues k1 k3.
Proof. intros [H1 H2] [H3 H4]. split; [|by rewrite H4]. rewrite H3, H1. by destruct k1. Qed.

Lemma same_but_queues_procs k ps : 
  unlinked <$> ps = unlinked <$> procs k -> same_but_queues k (k <| procs := ps |>).
Proof. intros H. split; [by destruct k|done]. Qed.

Lemma same_but_queues_link k n x v :
  procs k !! n = Some x -> same_but_queues k (k <| procs := <[n := x <| p_next := v |>]> (procs k) |>).
Proof.
  intros H. apply same_but_queues_procs. by apply (unlinked_insert _ _ _ (fun x => x <| p_next := v |>)).
Qed.

Lemma same_but_queues_rq k rq : same_but_queues k (k <| ready_q := rq |>).
Proof. split; by destruct k. Qed.

Lemma unlinked_eq y z : unlinked z = unlinked y -> z = y <| p_next := p_next z |>.
Proof.
  intros E. assert (z = unlinked z <| p_next := p_next z |>) as -> by (by destruct z).
  rewrite E. reflexivity.
Qed.

Lemma same_but_queues_lookup k k' x y :
  same_but_queues k k' -> procs k !! x = Some y -> exists v, procs k' !! x = Some (y <| p_next := v |>).
Proof.
  intros [_ Hps] Hy. assert (E : (unlinked <$> procs k') !! x = (unlinked <$> procs k) !! x) by (by rewrite Hps).
  rewrite !lookup_fmap, Hy in E. destruct (procs k' !! x) as [z|]; [|done]. apply (inj Some), unlinked_eq in E.
  exists (p_next z). by f_equal.
Qed.

Lemma getp_run k n p : procs k !! n = Some p -> getp n k = Some (p, k).
Proof. unfold getp. by intros ->. Qed.

Lemma updp_run k n p f :
  procs k !! n = Some p -> updp n f k = Some (tt, k <| procs := <[n := f p]> (procs k) |>).
Proof. unfold updp. by intros ->. Qed.

Lemma get_queue_run k q ht : aget (ready_q k) q = Some ht -> get_queue q k = Some (ht, k).
Proof. unfold get_queue. by intros ->. Qed.

Lemma set_queue_run k q ht ht' :
  aget (ready_q k) q = Some ht' ->
  set_queue q ht k = Some (tt, k <| ready_q := <[Z.to_nat q := ht]> (ready_q k) |>).
Proof. intros H%aget_Some_bound. unfold set_queue. by rewrite aset_in. Qed.

(** One queue is rewritten; the links of the processes of the others are kept. *)
Lemma rq_rep_update k k' ls q l l' h t :
  rq_rep k ls -> aget ls q = Some l ->
  ready_q k' = <[Z.to_nat q := (h, t)]> (ready_q k) ->
  chain (p_link (procs k')) h l' -> (l' <> [] -> t = last l') ->
  (forall x, x ∈ l' -> is_Some (procs k' !! x) /\ (x ∈ l \/ ~ queued ls x)) ->
  (forall x, is_Some (procs k !! x) -> is_Some (procs k' !! x)) ->
  (forall x, queued ls x -> x ∉ l -> p_link (procs k') x = p_link (procs k) x) ->
  rq_rep k' (<[Z.to_nat q := l']> ls).
Proof.
  intros [Hlen Hch Hdom Hdisj] Hl Hrq Hc Ht Hl' Hs Hlink.
  pose proof (aget_Some_bound _ _ _ Hl) as Hb.
  assert (Hb' : 0 <= q < alen (ready_q k)) by (unfold alen in *; lia).
  assert (Hget : forall q' l0, aget (<[Z.to_nat q := l']> ls) q' = Some l0 ->
                 (q' = q /\ l0 = l') \/ (q' <> q /\ aget ls q' = Some l0)).
  { intros q' l0 H. destruct (decide (0 <= q')); [|unfold aget in H; rewrite decide_False in H by done; done].
    rewrite aget_insert in H by done. case_decide; [left|right]; by simplify_eq. }
  split.
  - rewrite Hrq, !length_insert. done.
  - intros q' l0 [[-> ->]|[Hne H0]]%Hget; rewrite Hrq.
    + exists h, t. rewrite aget_insert, decide_True by lia. done.
    + destruct (Hch _ _ H0) as (h0 & t0 & Hq0 & Hc0 & Ht0). exists h0, t0.
      pose proof (aget_Some_bound _ _ _ H0). rewrite aget_insert, decide_False by lia.
      split; [done|]. split; [|done]. eapply seg_frame, Hc0. intros x Hx.
      apply Hlink; [by exists q', l0|]. intros Hxl. by apply Hne, (Hdisj q' q l0 l x).
  - intros q' l0 x [[-> ->]|[Hne H0]]%Hget Hx; [by apply Hl'|]. eauto.
  - intros q1 q2 l1 l2 x [[-> ->]|[Hn1 H1]]%Hget [[-> ->]|[Hn2 H2]]%Hget Hx1 Hx2; [done| | |eauto].
    + destruct (Hl' x Hx1) as [_ [?|Hnq]]; [eauto|]. destruct Hnq. by exists q2, l2.
    + destruct (Hl' x Hx2) as [_ [?|Hnq]]; [eauto|]. destruct Hnq. by exists q1, l1.
Qed.

Lemma enqueue_head_spec k ls q l p :
  rq_rep k ls -> aget ls q = Some l -> is_Some (procs k !! p) -> ~ queued ls p ->
  exists k', enqueue_head q p k = Some (tt, k') /\ rq_rep k' (<[Z.to_nat q := p :: l]> ls) /\ same_but_queues k k'.
Proof.
  intros Hr Hl [x Hp] Hnq. destruct (rq_chain _ _ Hr _ _ Hl) as (h & t & Hq & Hc & Ht).
  pose proof (chain_head _ _ _ Hc) as Hh. unfold enqueue_head. rewrite (bind_run _ _ _ _ _ (get_queue_run _ _ _ Hq)).
  cbn [fst snd].
  assert (Hpl : p ∉ l) by (intros ?; apply Hnq; by exists q, l).
  assert (E : exists k' t', match h with
     | Some h => _ ← updp p (fun p => p <| p_next := Some h |>); set_queue q (Some p, t)
     | None => _ ← updp p (fun p => p <| p_next := None |>); set_queue q (Some p, Some p) end k = Some (tt, k') /\
     k' = k <| procs := <[p := x <| p_next := h |>]> (procs k) |> <| ready_q := <[Z.to_nat q := (Some p, t')]> (ready_q k) |> /\
     t' = last (p :: l)).
  { destruct h; rewrite (bind_run _ _ _ _ _ (updp_run _ _ _ _ Hp)).
    - eexists _, _. split; [by apply (set_queue_run _ _ _ (Some z, t))|]. split; [done|].
      destruct l; [done|]. rewrite Ht by done. by rewrite last_cons_cons.
    - eexists _, _. split; [by apply (set_queue_run _ _ _ (None, t))|]. split; [done|]. destruct l; [done|]. by destruct Hc. }
  destruct E as (k' & t' & -> & -> & Et'). eexists. split; [done|]. split.
  - eapply rq_rep_update; [done|done|done| |done| | |]; gsimpl.
    + split; [done|]. rewrite p_link_insert, upd_link_eq. gsimpl.
      eapply seg_frame, Hc. intros y Hy. rewrite p_link_insert, upd_link_ne by set_solver. done.
    + intros y [->|Hy]%elem_of_cons.
      * rewrite lookup_insert_eq. eauto.
      * rewrite lookup_insert_is_Some. split; [|by left]. destruct (decide (p = y)); [by left|right]. split; [done|].
        by eapply (rq_dom _ _ Hr).
    + intros y Hy. rewrite lookup_insert_is_Some. destruct (decide (p = y)); [by left|by right].
    + intros y Hy Hyl. rewrite p_link_insert, upd_link_ne; [done|]. intros ->. done.
  - eapply same_but_queues_trans; [|apply same_but_queues_rq]. by apply same_but_queues_link.
Qed.

Lemma is_Some_insert_mono (ps : gmap Z proc) x p y : is_Some (ps !! y) -> is_Some (<[x := p]> ps !! y).
Proof. intros ?. rewrite lookup_insert_is_Some. destruct (decide (x = y)); [by left|by right]. Qed.

Lemma queue_last k ls q l h t :
  rq_rep k ls -> aget ls q = Some l -> aget (ready_q k) q = Some (h, t) -> l <> [] -> h = head l /\ t = last l.
Proof.
  intros Hr Hl Hq Hne. destruct (rq_chain _ _ Hr _ _ Hl) as (h' & t' & Hq' & Hc & Ht). simplify_eq.
  split; [by eapply chain_head|by apply Ht].
Qed.

Lemma enqueue_tail_spec k ls q l p :
  rq_rep k ls -> aget ls q = Some l -> is_Some (procs k !! p) -> ~ queued ls p ->
  exists k', enqueue_tail q p k = Some (tt, k') /\ rq_rep k' (<[Z.to_nat q := l ++ [p]]> ls) /\ same_but_queues k k'.
Proof.
  intros Hr Hl [x Hp] Hnq. destruct (rq_chain _ _ Hr _ _ Hl) as (h & t & Hq & Hc & Ht).
  pose proof (chain_head _ _ _ Hc) as Hh. unfold enqueue_tail. rewrite (bind_run _ _ _ _ _ (get_queue_run _ _ _ Hq)).
  assert (Hpl : p ∉ l) by (intros ?; apply Hnq; by exists q, l).
  pose proof (chain_insert (p_link (procs k)) h l [] p ltac:(by rewrite app_nil_r) ltac:(by rewrite app_nil_r)) as Hci.
  cbn [fst snd head] in *.
  assert (Hmem : forall y, y ∈ l ++ [p] -> y ∈ l \/ ~ queued ls y) by (intros y; set_solver).
  destruct l as [|y0 l0] eqn:El.
  - subst h. cbn [head last] in *.
    rewrite (bind_run _ _ _ _ _ (set_queue_run _ _ _ _ Hq)).
    rewrite (updp_run _ _ x) by done. eexists. split; [done|]. split.
    + eapply rq_rep_update; [done|done|done| |done| | |]; gsimpl.
      * split; [done|]. rewrite p_link_insert, upd_link_eq. done.
      * intros y Hy. split; [|by auto]. apply elem_of_cons in Hy as [->|[]%not_elem_of_nil]. rewrite lookup_insert_eq. eauto.
      * intros y. apply is_Some_insert_mono.
      * intros y Hy _. rewrite p_link_insert, upd_link_ne; [done|]. by intros ->.
    + eapply same_but_queues_trans; [apply same_but_queues_rq|]. by apply same_but_queues_link.
  - rewrite <- El in *. assert (Hne : l <> []) by (subst; done). specialize (Ht Hne).
    assert (exists z, h = Some z) as [z Hz] by (subst; eauto). rewrite Hz.
    destruct (last l) as [tl|] eqn:Elast; [|by apply last_None in Elast]. rewrite Ht. cbn [liftO].
    assert (Htl : tl ∈ l) by (apply last_Some in Elast as [l' ->]; set_solver).
    assert (tl <> p) by set_solver.
    destruct (rq_dom _ _ Hr _ _ tl Hl Htl) as [xt Hxt].
    unfold mbind, st_bind. cbn [liftO].
    rewrite (updp_run _ _ _ (fun p0 => p0 <| p_next := Some p |>) Hxt), (set_queue_run _ _ _ (h, t)) by done.
    rewrite (updp_run _ _ x) by (gsimpl; by rewrite lookup_insert_ne).
    eexists. split; [done|]. split.
    + eapply rq_rep_update; [done|done|done| |by rewrite last_snoc| | |]; gsimpl.
      * rewrite Hz in Hci. eapply seg_ext, Hci. intros y. rewrite p_link_insert. unfold upd_link. gsimpl.
        repeat case_decide; subst; try done; rewrite p_link_insert; unfold upd_link; by repeat case_decide.
      * intros y Hy. split; [|auto]. apply elem_of_app in Hy as [Hy|Hy].
        -- do 2 apply is_Some_insert_mono. by eapply (rq_dom _ _ Hr).
        -- apply list_elem_of_singleton in Hy as ->. rewrite lookup_insert_eq. eauto.
      * intros y Hy. by do 2 apply is_Some_insert_mono.
      * intros y Hy Hyl. rewrite p_link_insert, upd_link_ne by (by intros ->).
        rewrite p_link_insert, upd_link_ne; [done|]. by intros ->.
    + eapply same_but_queues_trans; [by apply (same_but_queues_link k tl)|].
      eapply same_but_queues_trans; [apply same_but_queues_rq|]. apply same_but_queues_link. gsimpl.
      by rewrite lookup_insert_ne.
Qed.

Lemma dequeue_spec k ls q p l :
  rq_rep k ls -> aget ls q = Some (p :: l) ->
  exists k', dequeue q k = Some (Some p, k') /\ rq_rep k' (<[Z.to_nat q := l]> ls) /\ same_but_queues k k'.
Proof.
  intros Hr Hl. destruct (rq_chain _ _ Hr _ _ Hl) as (h & t & Hq & Hc & Ht). specialize (Ht ltac:(done)).
  pose proof (chain_NoDup _ _ _ Hc) as [Hpl Hnd]%NoDup_cons.
  destruct Hc as [-> Hc]. fold (chain (p_link (procs k)) (p_link (procs k) p) l) in Hc.
  destruct (rq_dom _ _ Hr _ _ p Hl ltac:(set_solver)) as [x Hp].
  unfold p_link at 2 in Hc. rewrite Hp in Hc. cbn in Hc.
  unfold dequeue. rewrite (bind_run _ _ _ _ _ (get_queue_run _ _ _ Hq)). cbn [fst snd].
  assert (E : exists t', (if decide (Some p = t) then set_queue q (None, None)
              else x ← getp p; set_queue q (p_next x, t)) k
            = Some (tt, k <| ready_q := <[Z.to_nat q := (p_next x, t')]> (ready_q k) |>) /\ (l <> [] -> t' = last l)).
  { case_decide as Et.
    - assert (l = []) as ->.
      { destruct l as [|y l] using rev_ind; [done|]. rewrite Ht, app_comm_cons, last_snoc in Et. set_solver. }
      apply chain_nil in Hc. rewrite Hc. exists None. split; [by apply (set_queue_run _ _ _ (Some p, t))|done].
    - exists t. rewrite (bind_run _ _ _ _ _ (getp_run _ _ _ Hp)). split; [by apply (set_queue_run _ _ _ (Some p, t))|].
      intros ?. rewrite Ht. destruct l; [done|]. by rewrite last_cons_cons. }
  destruct E as (t' & E & Ht'). rewrite (bind_run _ _ _ _ _ E).
  unfold mbind, st_bind. rewrite (updp_run _ p x) by done. eexists. split; [done|]. split.
  - eapply rq_rep_update; [done|done|done| |done| | |]; gsimpl.
    + eapply seg_frame, Hc. intros y Hy. rewrite p_link_insert, upd_link_ne; [done|]. by intros ->.
    + intros y Hy. split; [|left; set_solver]. apply is_Some_insert_mono. eapply (rq_dom _ _ Hr); [done|set_solver].
    + intros y. apply is_Some_insert_mono.
    + intros y Hy Hyl. rewrite p_link_insert, upd_link_ne; [done|]. set_solver.
  - eapply same_but_queues_trans; [apply same_but_queues_rq|]. by apply same_but_queues_link.
Qed.

Lemma dequeue_empty k ls q : rq_rep k ls -> aget ls q = Some [] -> dequeue q k = Some (None, k).
Proof.
  intros Hr Hl. destruct (rq_chain _ _ Hr _ _ Hl) as (h & t & Hq & Hc & Ht). apply chain_nil in Hc as ->.
  unfold dequeue. by rewrite (bind_run _ _ _ _ _ (get_queue_run _ _ _ Hq)).
Qed.

(** C20: the five ready queues refine five lists of processes: enqueueing at the
    tail appends, enqueueing at the head prepends, dequeueing takes the first
    process; nothing else of the kernel state changes. *)
Theorem ready_queue_refines k ls r :
  rq_rep k ls -> rq_valid k ls r ->
  match rq_step ls r with
  | Some (res, ls') => exists k', rq_serve r k = Some (res, k') /\ rq_rep k' ls' /\ same_but_queues k k'
  | None => rq_serve r k = None
  end.
Proof.
  intros Hr Hv. destruct r as [q p|q p|q]; cbn [rq_step rq_serve];
    (destruct (aget ls q) as [l|] eqn:Hl; cbn [mbind option_bind];
     [|assert (Hq : aget (ready_q k) q = None);
       [apply aget_oob; intros Hb; destruct (aget_in ls q) as [? ?]; [|congruence];
        unfold alen in *; pose proof (rq_len _ _ Hr); lia|];
       unfold enqueue_tail, enqueue_head, dequeue, get_queue, mbind, st_bind; by rewrite Hq]).
  - destruct (enqueue_tail_spec k ls q l p) as (k' & Hk & Hr' & Hs); [done|done|apply Hv..|].
    exists k'. by rewrite (bind_run _ _ _ _ _ Hk).
  - destruct (enqueue_head_spec k ls q l p) as (k' & Hk & Hr' & Hs); [done|done|apply Hv..|].
    exists k'. by rewrite (bind_run _ _ _ _ _ Hk).
  - destruct l as [|p l]; [|by apply dequeue_spec].
    exists k. split; [by apply (dequeue_empty _ ls)|]. split; [done|apply same_but_queues_refl].
Qed.

Lemma rq_rep_empty k n : ready_q k = replicate n (None, None) -> rq_rep k (replicate n []).
Proof.
  intros Hq. assert (H : forall q l, aget (replicate n ([] : list Z)) q = Some l -> l = []).
  { intros q l. unfold aget. case_decide; [|done]. intros [-> _]%lookup_replicate. done. }
  split.
  - by rewrite Hq, !length_replicate.
  - intros q l Hl. pose proof (aget_Some_bound _ _ _ Hl) as Hb. unfold alen in Hb. rewrite length_replicate in Hb.
    apply H in Hl as ->. exists None, None. split; [|done]. rewrite Hq. unfold aget. rewrite decide_True by lia.
    apply lookup_replicate. split; [done|lia].
  - intros q l x Hl Hx. apply H in Hl as ->. by apply not_elem_of_nil in Hx.
  - intros q1 q2 l1 l2 x Hl _ Hx. apply H in Hl as ->. by apply not_elem_of_nil in Hx.
Qed.

Lemma not_queued_empty n x : ~ queued (replicate n []) x.
Proof.
  intros (q & l & Hl & Hx). unfold aget in Hl. case_decide; [|done]. apply lookup_replicate in Hl as [-> _].
  by apply not_elem_of_nil in Hx.
Qed.

(** A kernel with processes 1, 2 and 3 queued at priority 2. *)
Definition queued_k : kst :=
  sample_k <| ready_q := [(None, None); (None, None); (Some 1, Some 3); (None, None); (None, None)] |>
    <| procs := <[1 := sample_proc 1 <| priority := 2 |> <| p_next := Some 2 |>]>
                 (<[2 := sample_proc 2 <| priority := 2 |> <| p_next := Some 3 |>]>
                   (<[3 := sample_proc 3 <| priority := 2 |>]> (procs sample_k))) |>.

Lemma queued_k_rep : rq_rep queued_k [[]; []; [1; 2; 3]; []; []].
Proof.
  assert (H : forall q l, aget [[]; []; [1; 2; 3]; []; []] q = Some l -> q = 2 /\ l = [1; 2; 3] \/ (q = 0 \/ q = 1 \/ q = 3 \/ q = 4) /\ l = []).
  { intros q l Hq. pose proof (aget_Some_bound _ _ _ Hq) as Hb. unfold alen in Hb. cbn in Hb.
    assert (q = 0 \/ q = 1 \/ q = 2 \/ q = 3 \/ q = 4) as [->|[->|[->|[->| ->]]]] by lia; cbn in Hq; injection Hq as <-; auto 10. }
  split.
  - reflexivity.
  - intros q l [[-> ->]|[Hq ->]]%H.
    + exists (Some 1), (Some 3). split; [reflexivity|]. split; [|done]. repeat split.
    + exists None, None. by destruct Hq as [->|[->|[->| ->]]].
  - intros q l x [[-> ->]|[_ ->]]%H Hx; [|by apply not_elem_of_nil in Hx]. apply list_elem_of_In in Hx. cbn in Hx.
    destruct Hx as [<-|[<-|[<-|[]]]]; vm_compute; eauto.
  - intros q1 q2 l1 l2 x [[-> ->]|[_ ->]]%H [[-> ->]|[_ ->]]%H Hx1 Hx2;
      first [done|by apply not_elem_of_nil in Hx1|by apply not_elem_of_nil in Hx2].
Qed.

Lemma not_queued_k x : x ∉ [1; 2; 3] -> ~ queued [[]; []; [1; 2; 3]; []; []] x.
Proof.
  intros Hx (q & l & Hq & Hl). pose proof (aget_Some_bound _ _ _ Hq) as Hb. unfold alen in Hb. cbn in Hb.
  assert (q = 0 \/ q = 1 \/ q = 2 \/ q = 3 \/ q = 4) as [->|[->|[->|[->| ->]]]] by lia; cbn in Hq; injection Hq as <-; set_solver.
Qed.

Lemma ready_queue_refines_witness :
  match rq_step [[]; []; [1; 2; 3]; []; []] (EnqTail 2 0) with
  | Some (res, ls') => exists k', rq_serve (EnqTail 2 0) queued_k = Some (res, k') /\ rq_rep k' ls' /\ same_but_queues queued_k k'
  | None => rq_serve (EnqTail 2 0) queued_k = None
  end.
Proof.
  apply (ready_queue_refines queued_k _ (EnqTail 2 0)); [apply queued_k_rep|].
  split; [vm_compute; eauto|apply not_queued_k; set_solver].
Defined.

(** ** Choosing a process *)

(** The first process of the first queue that is not empty, and the queues without it. *)
Fixpoint pop_ready (ls : list (list Z)) : option (Z * list (list Z)) :=
  match ls with
  | [] => None
  | [] :: ls' => r ← pop_ready ls'; Some (fst r, [] :: snd r)
  | (p :: l) :: ls' => Some (p, l :: ls')
  end.

Lemma pick_proc_loop_spec k rest : forall pre,
  rq_rep k (pre ++ rest) -> Forall (fun l => l = []) pre ->
  match pop_ready rest with
  | None => pick_proc_loop (seqZ (alen pre) (alen rest)) k = None
  | Some (p, rest') => exists k', pick_proc_loop (seqZ (alen pre) (alen rest)) k = Some (Some p, k') /\
                         rq_rep k' (pre ++ rest') /\ same_but_queues k k'
  end.
Proof.
  induction rest as [|l rest IH]; intros pre Hr Hpre; [done|].
  assert (Hl : aget (pre ++ l :: rest) (alen pre) = Some l).
  { unfold aget, alen. rewrite decide_True, Nat2Z.id, lookup_app_r, Nat.sub_diag by lia. done. }
  assert (Es : seqZ (alen pre) (alen (l :: rest)) = alen pre :: seqZ (alen pre + 1) (alen rest)).
  { rewrite seqZ_cons by (unfold alen; cbn; lia). unfold alen. cbn. do 2 f_equal; lia. }
  rewrite Es. cbn [pick_proc_loop]. destruct l as [|p l]; cbn [pop_ready].
  - rewrite (bind_run _ _ _ _ _ (dequeue_empty _ _ _ Hr Hl)).
    specialize (IH (pre ++ [[]])). rewrite <- app_assoc in IH. specialize (IH Hr).
    replace (alen (pre ++ [[]])) with (alen pre + 1) in IH by (unfold alen; rewrite length_app; cbn; lia).
    destruct (pop_ready rest) as [[p rest']|]; cbn.
    + destruct IH as (k' & Hk & Hr' & Hs); [apply Forall_app; by repeat constructor|]. rewrite <- app_assoc in Hr'. eauto.
    + apply IH, Forall_app. by repeat constructor.
  - destruct (dequeue_spec _ _ _ _ _ Hr Hl) as (k' & Hk & Hr' & Hs). rewrite (bind_run _ _ _ _ _ Hk).
    exists k'. split; [done|]. split; [|done]. unfold alen in Hr'. rewrite Nat2Z.id in Hr'.
    rewrite insert_app_r_alt, Nat.sub_diag in Hr' by lia. done.
Qed.

(** C36: [pick_proc] takes the process that has waited longest in the highest
    priority queue that is not empty, and panics exactly when all are empty. *)
Theorem pick_proc_highest k ls :
  rq_rep k ls -> alen ls = NUM_QUEUES ->
  match pop_ready ls with
  | None => pick_proc k = None
  | Some (p, ls') => exists k', pick_proc k = Some (Some p, k') /\ rq_rep k' ls' /\ same_but_queues k k'
  end.
Proof. intros Hr Hn. unfold pick_proc. rewrite <- Hn. by apply (pick_proc_loop_spec k ls []). Qed.

Lemma pick_proc_highest_witness :
  exists k', pick_proc queued_k = Some (Some 1, k') /\ rq_rep k' [[]; []; [2; 3]; []; []] /\ same_but_queues queued_k k'.
Proof. apply (pick_proc_highest queued_k [[]; []; [1; 2; 3]; []; []]); [apply queued_k_rep|reflexivity]. Defined.

(** ** Taking a process off its queue *)
Lemma find_prev_spec (ps : gmap Z proc) h : forall fuel l prev curr,
  chain (p_link ps) curr l -> (forall x, x ∈ l -> is_Some (ps !! x)) -> (length l < fuel)%nat ->
  (h ∉ l -> find_prev fuel ps prev curr h = Some (last_or l prev, None)) /\
  (forall l1 l2, l = l1 ++ h :: l2 -> h ∉ l1 -> find_prev fuel ps prev curr h = Some (last_or l1 prev, Some h)).
Proof.
  induction fuel as [|fuel IH]; intros l prev curr Hc Hd Hf; [lia|].
  destruct l as [|x l]; [apply chain_nil in Hc as ->; split; [done|by intros []]|].
  destruct Hc as [-> Hc]. destruct (Hd x) as [t Ht]; [set_solver|].
  unfold p_link in Hc. rewrite Ht in Hc. cbn [mbind option_bind] in Hc. cbn [length] in Hf.
  destruct (IH l (Some x) (p_next t)) as (H1 & H2); [done|set_solver|lia|]. cbn [find_prev]. split.
  - intros Hni. rewrite decide_False by set_solver. rewrite Ht, obind_Some, H1 by set_solver. by rewrite last_or_cons.
  - intros [|y l1] l2 [= -> ->] Hni; [by rewrite decide_True|].
    rewrite decide_False by set_solver. rewrite Ht, obind_Some, last_or_cons. apply (H2 _ l2); set_solver.
Qed.

(** Its steps: the links, the head and the tail that remain. *)
Lemma dequeue_schedule_run k ls l1 h l2 x :
  rq_rep k ls -> procs k !! h = Some x -> aget ls (priority x) = Some (l1 ++ h :: l2) ->
  exists k' hd tl, aget (ready_q k) (priority x) = Some (hd, tl) /\ dequeue_schedule h k = Some (OK, k') /\
    same_but_queues k k' /\
    match last l1 with
    | None => procs k' = procs k /\
        ready_q k' = <[Z.to_nat (priority x) := (head l2, if decide (head l2 = None) then None else tl)]> (ready_q k)
    | Some p => (exists xp, procs k !! p = Some xp /\ procs k' = <[p := xp <| p_next := head l2 |>]> (procs k)) /\
        ready_q k' = ready_q k
    end.
Proof.
  intros Hr Hx Hl. destruct (rq_chain _ _ Hr _ _ Hl) as (hd & tl & Hq & Hc & Ht).
  assert (Hh : h ∉ l1).
  { pose proof (chain_NoDup _ _ _ Hc) as (_ & Hnd & _)%NoDup_app. intros Hin. apply (Hnd h Hin). set_solver. }
  assert (Hn : p_next x = head l2).
  { pose proof (chain_split_next _ _ _ _ _ Hc) as E. unfold p_link in E. by rewrite Hx in E. }
  destruct (find_prev_spec (procs k) h (S (size (procs k))) (l1 ++ h :: l2) None hd) as [_ Hf];
    [done|intros y Hy; by eapply (rq_dom _ _ Hr)| |].
  { apply Nat.lt_succ_r, NoDup_length_size; [by eapply chain_NoDup|]. intros y Hy. by eapply (rq_dom _ _ Hr). }
  specialize (Hf l1 l2 eq_refl Hh).
  unfold dequeue_schedule. rewrite (bind_run _ _ _ _ _ (getp_run _ _ _ Hx)).
  rewrite (bind_run _ _ _ _ _ (get_queue_run _ _ _ Hq)). cbn [fst snd].
  rewrite (bind_run _ _ k k k eq_refl).
  rewrite (bind_run _ _ k (last_or l1 None, Some h) k) by (by rewrite Hf).
  rewrite (bind_run _ _ _ _ _ (getp_run _ _ _ Hx)). rewrite Hn. unfold last_or.
  destruct (last l1) as [p|] eqn:El.
  - destruct (rq_dom _ _ Hr _ _ p Hl) as [xp Hp]; [apply last_Some in El as [l' ->]; set_solver|].
    eexists _, _, _. split; [exact Hq|]. rewrite (bind_run _ _ _ _ _ (updp_run _ _ _ _ Hp)). split; [done|].
    split; [by apply same_but_queues_link|]. eauto.
  - eexists _, _, _. split; [exact Hq|]. rewrite (bind_run _ _ _ _ _ (set_queue_run _ _ _ _ Hq)). split; [done|].
    split; [apply same_but_queues_rq|]. done.
Qed.

(** A process that is alone in its queue, or not the last one, is taken out
    of it by [dequeue_schedule]; the others keep their order. *)
Theorem dequeue_schedule_removes k ls l1 h l2 x :
  rq_rep k ls -> procs k !! h = Some x -> aget ls (priority x) = Some (l1 ++ h :: l2) -> (l2 = [] -> l1 = []) ->
  exists k', dequeue_schedule h k = Some (OK, k') /\
    rq_rep k' (<[Z.to_nat (priority x) := l1 ++ l2]> ls) /\ same_but_queues k k'.
Proof.
  intros Hr Hx Hl Hlast.
  destruct (dequeue_schedule_run _ _ _ _ _ _ Hr Hx Hl) as (k' & hd & tl & Hq & Hk & Hs & Hcase).
  exists k'. split; [done|]. split; [|done].
  destruct (rq_chain _ _ Hr _ _ Hl) as (hd' & tl' & Hq' & Hc & Ht). simplify_eq. specialize (Ht ltac:(by destruct l1)).
  pose proof (chain_remove _ _ _ _ _ Hc) as Hc'. pose proof (chain_NoDup _ _ _ Hc) as Hnd.
  pose proof (chain_split_next _ _ _ _ _ Hc) as Hn. rewrite Hn in Hc'.
  destruct (last l1) as [p|] eqn:El.
  - destruct Hcase as [(xp & Hp & Hps) Hrq].
    assert (Hp1 : p ∈ l1) by (apply last_Some in El as [l' ->]; set_solver).
    eapply (rq_rep_update k k' ls _ _ _ hd tl); [done|done| | | | | |].
    + rewrite Hrq. symmetry. apply list_insert_id. unfold aget in Hq. by case_decide.
    + rewrite Hps. eapply seg_ext, Hc'. intros y. by rewrite p_link_insert.
    + intros _. rewrite Ht. destruct l2 as [|y l2 _] using rev_ind; [by rewrite Hlast in El|].
      by rewrite app_comm_cons, !app_assoc, !last_snoc.
    + intros y Hy. rewrite Hps. split; [|left; set_solver]. apply is_Some_insert_mono. eapply (rq_dom _ _ Hr); [done|set_solver].
    + intros y. rewrite Hps. apply is_Some_insert_mono.
    + intros y _ Hy. rewrite Hps, p_link_insert, upd_link_ne; [done|]. set_solver.
  - destruct Hcase as [Hps Hrq]. apply last_None in El as ->. cbn [app] in *.
    eapply (rq_rep_update k k' ls _ _ _ (head l2)); [done|done|exact Hrq| | | | |]; rewrite ?Hps; [done| | |done|done].
    + intros Hne. rewrite decide_False by (by destruct l2). rewrite Ht. destruct l2; [done|]. by rewrite last_cons_cons.
    + intros y Hy. split; [|left; set_solver]. eapply (rq_dom _ _ Hr); [done|set_solver].
Qed.

Lemma dequeue_schedule_removes_witness :
  exists k', dequeue_schedule 2 queued_k = Some (OK, k') /\
    rq_rep k' [[]; []; [1; 3]; []; []] /\ same_but_queues queued_k k'.
Proof.
  exact (dequeue_schedule_removes queued_k [[]; []; [1; 2; 3]; []; []] [1] 2 [3]
    (sample_proc 2 <| priority := 2 |> <| p_next := Some 3 |>) queued_k_rep eq_refl eq_refl ltac:(done)).
Defined.

(** [dequeue_schedule] does not move TAIL when it takes out the last of several
    processes: the process enqueued next is linked behind the removed one and is
    not on the list that [dequeue] follows. *)
Theorem dequeue_schedule_tail_loses k ls l1 h x p xp :
  rq_rep k ls -> procs k !! h = Some x -> aget ls (priority x) = Some (l1 ++ [h]) -> l1 <> [] ->
  procs k !! p = Some xp -> ~ queued ls p ->
  exists k' k'', dequeue_schedule h k = Some (OK, k') /\ enqueue_tail (priority x) p k' = Some (tt, k'') /\
    exists hd, aget (ready_q k'') (priority x) = Some (hd, Some p) /\ chain (p_link (procs k'')) hd l1 /\ p ∉ l1.
Proof.
  intros Hr Hx Hl Hne Hp Hnq.
  destruct (dequeue_schedule_run _ _ _ _ _ _ Hr Hx Hl) as (k' & hd & tl & Hq & Hk & Hs & Hcase).
  destruct (rq_chain _ _ Hr _ _ Hl) as (hd' & tl' & Hq' & Hc & Ht). simplify_eq. specialize (Ht ltac:(by destruct l1)).
  rewrite last_snoc in Ht. subst tl.
  pose proof (chain_remove _ _ _ _ _ Hc) as Hc'. pose proof (chain_NoDup _ _ _ Hc) as Hnd.
  pose proof (chain_split_next _ _ _ _ _ Hc) as Hn. rewrite Hn in Hc'. cbn [head] in *.
  destruct (last l1) as [pr|] eqn:El; [|by apply last_None in El]. destruct Hcase as [(xr & Hpr & Hps) Hrq].
  rewrite app_nil_r in Hc'. apply NoDup_app in Hnd as (_ & Hnd & _).
  assert (Hpl : p ∉ l1 ++ [h]) by (intros ?; apply Hnq; by eexists _, _).
  assert (Hhp : h <> pr) by (intros ->; apply (Hnd pr); [apply last_Some in El as [l' ->]; set_solver|set_solver]).
  assert (p <> pr) by (apply last_Some in El as [l' ->]; set_solver).
  exists k'. eexists. split; [done|]. unfold enqueue_tail, mbind, st_bind.
  rewrite (get_queue_run _ _ (hd, Some h)) by (by rewrite Hrq). cbn [fst snd liftO].
  assert (Hhd : exists z, hd = Some z) by (rewrite (chain_head _ _ _ Hc); destruct l1; [done|eauto]).
  destruct Hhd as [z ->].
  rewrite (updp_run _ h x) by (by rewrite Hps, lookup_insert_ne by done).
  rewrite (set_queue_run _ _ _ (Some z, Some h)) by (gsimpl; by rewrite Hrq).
  rewrite (updp_run _ p xp) by (gsimpl; rewrite lookup_insert_ne by set_solver; by rewrite Hps, lookup_insert_ne by done).
  split; [done|]. exists (Some z). gsimpl. split; [|split; [|set_solver]].
  - rewrite Hrq. rewrite aget_insert, decide_True; [done|done|by eapply aget_Some_bound|by eapply aget_Some_bound].
  - rewrite Hps. eapply seg_frame, Hc'. intros y Hy. rewrite p_link_insert, upd_link_ne by set_solver.
    rewrite p_link_insert, upd_link_ne by (intros ->; apply (Hnd h Hy); set_solver). by rewrite p_link_insert.
Qed.

Lemma dequeue_schedule_tail_loses_witness :
  exists k' k'', dequeue_schedule 3 queued_k = Some (OK, k') /\ enqueue_tail 2 0 k' = Some (tt, k'') /\
    exists hd, aget (ready_q k'') 2 = Some (hd, Some 0) /\ chain (p_link (procs k'')) hd [1; 2] /\ 0 ∉ [1; 2].
Proof.
  exact (dequeue_schedule_tail_loses queued_k [[]; []; [1; 2; 3]; []; []] [1; 2] 3 (sample_proc 3 <| priority := 2 |>)
    0 (sample_proc 0) queued_k_rep eq_refl eq_refl ltac:(done) eq_refl ltac:(apply not_queued_k; set_solver)).
Defined.
