(* ===== verification/Ipc.v ===== *)
(** * kernel/wini_ipc.c and the reply path of kernel/system.c: message passing

    Messages are copied between buffers in memory; a process that sends is
    linked into the [sender_q] of its destination through [next_sender], a
    notification links the [notify_queue] node of the source into the list of
    the destination. *)
From S2P Require Import Prelude Bitmap Mm Linked CString Timer Slab Kernel Proc.

Definition this_proc : K Z := k ← getS; liftO (current_proc k).

(** ** include/winix/list.h on the [notify_queue] nodes *)
Definition list_empty (n : Z) : K bool :=
  p ← getp n; mret (bool_decide (nq_next p = Some n)).

Definition list_add (new head : Z) : K unit :=
  h ← getp head;
  next ← liftO (nq_next h);
  _ ← updp next (fun p => p <| nq_prev := Some new |>);
  _ ← updp new (fun p => p <| nq_next := Some next |> <| nq_prev := Some head |>);
  updp head (fun p => p <| nq_next := Some new |>).

(** The poison pointers are [None]. *)
Definition list_del (entry : Z) : K unit :=
  e ← getp entry;
  prev ← liftO (nq_prev e);
  next ← liftO (nq_next e);
  _ ← updp next (fun p => p <| nq_prev := Some prev |>);
  _ ← updp prev (fun p => p <| nq_next := Some next |>);
  updp entry (fun p => p <| nq_next := None |> <| nq_prev := None |>).

(** ** Sending *)

(** Is [pDest] among the processes waiting to send to the current one? *)
Fixpoint is_sender (fuel : nat) (ps : gmap Z proc) (xp : option Z) (pDest : Z) : option bool :=
  match xp, fuel with
  | None, _ => Some false
  | Some _, O => None
  | Some x, S f =>
      if decide (x = pDest) then Some true
      else p ← ps !! x; is_sender f ps (next_sender p) pDest
  end.

Definition do_send (dest m : Z) : K Z :=
  cur ← this_proc;
  _ ← updp cur (fun p => p <| message_ptr := m |>);
  d ← get_proc dest;
  match d with
  | None => mret ESRCH
  | Some pDest =>
      pd ← getp pDest;
      c ← getp cur;
      k ← getS;
      dead ← (if has (state pd) STATE_SENDING
              then liftO (is_sender (S (size (procs k))) (procs k) (sender_q c) pDest)
              else mret false);
      if (dead : bool) then mret EDEADLK
      else
        _ ← (if has (state pd) STATE_RECEIVING then
               msg ← rd_message m;
               _ ← wr_message (message_ptr pd) msg;
               _ ← updp pDest (fun p => p <| state ::= clr_flag STATE_RECEIVING |>);
               msg' ← rd_message m;
               _ ← updp pDest (fun p => p <| regs ::= <[0%nat := m_type msg']> |>);
               enqueue_head (priority pd) pDest
             else
               _ ← updp cur (fun p => p <| state ::= set_flag STATE_SENDING |>);
               pd' ← getp pDest;
               _ ← updp cur (fun p => p <| next_sender := sender_q pd' |>);
               updp pDest (fun p => p <| sender_q := Some cur |>));
        mret OK
  end.

(** ** Receiving *)
Definition do_receive (m : Z) : K Z :=
  cur ← this_proc;
  e ← list_empty cur;
  if negb e then
    c ← getp cur;
    p ← liftO (nq_next c);
    _ ← list_del p;
    pp ← getp p;
    msg ← rd_message (message_ptr pp);
    _ ← wr_message m msg;
    mret OK
  else
    c ← getp cur;
    match sender_q c with
    | Some p =>
        pp ← getp p;
        _ ← updp cur (fun x => x <| sender_q := next_sender pp |>);
        msg ← rd_message (message_ptr pp);
        _ ← wr_message m msg;
        _ ← updp p (fun x => x <| state ::= clr_flag STATE_SENDING |>);
        pp' ← getp p;
        _ ← when (state pp' =? STATE_RUNNABLE) (enqueue_head (priority pp') p);
        mret OK
    | None =>
        _ ← updp cur (fun x => x <| message_ptr := m |> <| state ::= set_flag STATE_RECEIVING |>);
        mret OK
    end.

(** ** Replies *)

(** [reply_res] and [type] are the same word. *)
Definition set_reply_res_errno (who m : Z) : K unit :=
  msg ← rd_message m;
  when (s32 (m_type msg) <? 0)
    (let reply := - s32 (m_type msg) in
     p ← getp who;
     _ ← wr (u32 (stack_top p + 1)) reply;
     msg' ← rd_message m;
     upd_message m (fun x => x <| m_type := if m_type msg' =? 52 then 0 else -1 |>)).

Definition do_notify (src dest m : Z) : K Z :=
  d ← get_proc dest;
  match d with
  | None => mret ESRCH
  | Some pDest =>
      pd ← getp pDest;
      if has (state pd) STATE_KILLED then mret ERR
      else if state pd =? STATE_RECEIVING then
        _ ← when (has (flags pd) DIRECT_SYSCALL)
              (_ ← set_reply_res_errno pDest m;
               updp pDest (fun p => p <| flags ::= clr_flag DIRECT_SYSCALL |>));
        msg ← rd_message m;
        _ ← wr_message (message_ptr pd) msg;
        _ ← updp pDest (fun p => p <| state ::= clr_flag STATE_RECEIVING |>);
        msg' ← rd_message m;
        _ ← updp pDest (fun p => p <| regs ::= <[0%nat := m_type msg']> |>);
        _ ← enqueue_head (priority pd) pDest;
        mret OK
      else
        s ← get_proc src;
        pSrc ← liftO s;
        _ ← updp pSrc (fun p => p <| message_ptr := m |>);
        _ ← list_add pSrc pDest;
        mret OK
  end.

(** The trace output has no effect on the state. *)
Definition syscall_reply2 (syscall_num reply dest m : Z) : K Z :=
  d ← get_proc dest;
  match d with
  | Some _ =>
      _ ← upd_message m (fun x => x <| m_type := reply |>);
      do_notify SYSTEM dest m
  | None => mret ERR
  end.

Definition syscall_reply (reply dest m : Z) : K Z :=
  k ← getS; syscall_reply2 (curr_syscall k) reply dest m.

(** ** Lemmas *)
Lemma get_proc_run k n p :
  IS_PROCN_OK n = true -> procs k !! n = Some p -> IS_INUSE p = true -> get_proc n k = Some (Some n, k).
Proof.
  intros Hn Hp Hu. unfold get_proc. rewrite Hn, (bind_run _ _ _ _ _ (getp_run _ _ _ Hp)). by rewrite Hu.
Qed.

Definition q_link (ps : gmap Z proc) (x : Z) : option Z := p ← ps !! x; next_sender p.

(** The walk of the senders of the current process. *)
Lemma is_sender_spec (ps : gmap Z proc) d : forall fuel l xp,
  chain (q_link ps) xp l -> (forall x, x ∈ l -> is_Some (ps !! x)) -> (length l < fuel)%nat ->
  is_sender fuel ps xp d = Some (bool_decide (d ∈ l)).
Proof.
  induction fuel as [|fuel IH]; intros l xp Hc Hd Hf; [lia|].
  destruct l as [|x l]; [by apply chain_nil in Hc as ->|].
  destruct Hc as [-> Hc]. destruct (Hd x) as [p Hp]; [set_solver|]. cbn [length] in Hf.
  unfold q_link in Hc. rewrite Hp in Hc. cbn [is_sender]. case_decide as E.
  - rewrite bool_decide_eq_true_2; [done|]. subst. set_solver.
  - rewrite Hp, obind_Some, (IH l) by (done || set_solver || lia). f_equal. apply bool_decide_ext. set_solver.
Qed.

(** ** Properties *)

(** The processes waiting to send to the current one, in a kernel where two
    processes could wait for each other. *)
Record senders (k : kst) (cur : Z) (c : proc) (l : list Z) : Prop := {
  sd_cur : procs k !! cur = Some c;
  sd_chain : chain (q_link (procs k)) (sender_q c) l;
  sd_dom : forall x, x ∈ l -> is_Some (procs k !! x)
}.

(** C38: [do_send] refuses a send that would close a cycle of two: the destination
    is itself blocked sending and is on the caller's queue of senders.  Then the
    call returns EDEADLK and only the caller's message pointer has changed. *)
Theorem do_send_deadlock k cur c l dest d m :
  current_proc k = Some cur -> senders k cur c l -> cur <> dest ->
  IS_PROCN_OK dest = true -> procs k !! dest = Some d -> IS_INUSE d = true ->
  has (state d) STATE_SENDING = true -> dest ∈ l ->
  do_send dest m k = Some (EDEADLK, k <| procs := <[cur := c <| message_ptr := m |>]> (procs k) |>).
Proof.
  intros Hcur [Hc Hch Hd] Hne Hn Hdest Hu Hs Hin. unfold do_send.
  rewrite (bind_run _ _ k cur k) by (unfold this_proc, mbind, st_bind, getS; by rewrite Hcur).
  set (k1 := k <| procs := <[cur := c <| message_ptr := m |>]> (procs k) |>).
  rewrite (bind_run _ _ k tt k1) by (by apply updp_run).
  assert (H1 : procs k1 !! dest = Some d) by (unfold k1; gsimpl; by rewrite lookup_insert_ne).
  rewrite (bind_run _ _ k1 (Some dest) k1) by (by eapply get_proc_run).
  rewrite (bind_run _ _ _ _ _ (getp_run _ _ _ H1)).
  rewrite (bind_run _ _ k1 (c <| message_ptr := m |>) k1) by (apply getp_run; unfold k1; gsimpl; by rewrite lookup_insert_eq).
  rewrite (bind_run _ _ k1 k1 k1 eq_refl), Hs, (bind_run _ _ k1 true k1); [done|].
  rewrite (is_sender_spec _ dest _ l).
  - unfold liftO. by rewrite bool_decide_eq_true_2.
  - eapply seg_ext, Hch. intros x. unfold q_link, k1. gsimpl.
    destruct (decide (x = cur)) as [->|]; [by rewrite lookup_insert_eq, Hc|by rewrite lookup_insert_ne].
  - intros x Hx. by apply is_Some_insert_mono, Hd.
  - apply Nat.lt_succ_r, NoDup_length_size; [by eapply chain_NoDup|]. intros x Hx. by apply is_Some_insert_mono, Hd.
Qed.

(** C14: a send to a process that waits for a message completes at once: the eight
    words are in the receiver's buffer, its RECEIVING flag is off, and it is the
    first process of its ready queue; the sender goes on. *)
Theorem do_send_delivers k ls cur c dest d l m :
  current_proc k = Some cur -> procs k !! cur = Some c -> cur <> dest ->
  IS_PROCN_OK dest = true -> procs k !! dest = Some d -> IS_INUSE d = true ->
  has (state d) STATE_RECEIVING = true -> has (state d) STATE_SENDING = false ->
  rq_rep k ls -> aget ls (priority d) = Some l -> ~ queued ls dest ->
  exists k' d', do_send dest m k = Some (OK, k') /\
    rd_msg (kmem k') (message_ptr d) = rd_msg (kmem k) m /\
    (forall x, ~ (message_ptr d <= x < message_ptr d + MESSAGE_LEN) -> kmem k' x = kmem k x) /\
    procs k' !! dest = Some d' /\ state d' = clr_flag STATE_RECEIVING (state d) /\
    has (state d') STATE_RECEIVING = false /\
    rq_rep k' (<[Z.to_nat (priority d) := dest :: l]> ls) /\
    exists v, procs k' !! cur = Some (c <| message_ptr := m |> <| p_next := v |>).
Proof.
  intros Hcur Hc Hne Hn Hdest Hu Hrec Hs Hr Hl Hnq. unfold do_send.
  rewrite (bind_run _ _ k cur k) by (unfold this_proc, mbind, st_bind, getS; by rewrite Hcur).
  set (k1 := k <| procs := <[cur := c <| message_ptr := m |>]> (procs k) |>).
  rewrite (bind_run _ _ k tt k1) by (by apply updp_run).
  assert (H1 : procs k1 !! dest = Some d) by (unfold k1; gsimpl; by rewrite lookup_insert_ne).
  rewrite (bind_run _ _ k1 (Some dest) k1) by (by eapply get_proc_run).
  rewrite (bind_run _ _ _ _ _ (getp_run _ _ _ H1)).
  rewrite (bind_run _ _ k1 (c <| message_ptr := m |>) k1) by (apply getp_run; unfold k1; gsimpl; by rewrite lookup_insert_eq).
  rewrite (bind_run _ _ k1 k1 k1 eq_refl). rewrite Hs, (bind_run _ _ k1 false k1 eq_refl). cbn iota.
  rewrite Hrec.
  set (msg := rd_msg (kmem k) m).
  set (k2 := k1 <| kmem ::= fun mem => wr_msg mem (message_ptr d) msg |>).
  set (d1 := d <| state ::= clr_flag STATE_RECEIVING |>).
  set (k3 := k2 <| procs := <[dest := d1]> (procs k2) |>).
  set (d2 := d1 <| regs ::= <[0%nat := m_type (rd_msg (kmem k3) m)]> |>).
  set (k4 := k3 <| procs := <[dest := d2]> (procs k3) |>).
  assert (Hr4 : rq_rep k4 ls).
  { destruct Hr as [A B C D]. split; [done| |intros q l0 x Hq Hx; by do 3 apply is_Some_insert_mono; eapply C|done].
    intros q l0 Hq. destruct (B _ _ Hq) as (h & t & E1 & E2 & E3). exists h, t. split; [done|]. split; [|done].
    eapply seg_ext, E2. intros x. unfold k4, k3, k2, k1, p_link. gsimpl.
    destruct (decide (x = dest)) as [->|]; [by rewrite lookup_insert_eq, Hdest|rewrite !lookup_insert_ne by done].
    destruct (decide (x = cur)) as [->|]; [by rewrite lookup_insert_eq, Hc|by rewrite lookup_insert_ne]. }
  assert (H4 : procs k4 !! dest = Some d2) by (unfold k4; gsimpl; by rewrite lookup_insert_eq).
  assert (Hlast : exists k', enqueue_head (priority d) dest k4 = Some (tt, k') /\
     rq_rep k' (<[Z.to_nat (priority d) := dest :: l]> ls) /\ same_but_queues k4 k').
  { apply enqueue_head_spec; [done|done|eauto|done]. }
  destruct Hlast as (k' & He & Hr' & Hsame).
  destruct (same_but_queues_lookup _ _ _ _ Hsame H4) as [v Hv]. exists k', (d2 <| p_next := v |>). split.
  { rewrite (bind_run _ _ k1 tt k'); [done|].
    rewrite (bind_run _ _ k1 msg k1) by done. rewrite (bind_run _ _ k1 tt k2) by done.
    rewrite (bind_run _ _ k2 tt k3) by (by apply updp_run).
    rewrite (bind_run _ _ k3 (rd_msg (kmem k3) m) k3) by done.
    rewrite (bind_run _ _ k3 tt k4); [done|]. apply updp_run. unfold k3. gsimpl. by rewrite lookup_insert_eq. }
  assert (Hm : kmem k' = wr_msg (kmem k) (message_ptr d) msg) by (by rewrite (proj1 Hsame)).
  split; [rewrite Hm; apply rd_wr_msg|]. split; [intros x Hx; rewrite Hm; by apply wr_words_out|].
  split; [done|]. split; [done|]. split; [apply (has_clr_flag _ 1); lia|]. split; [done|].
  apply (same_but_queues_lookup k4); [done|]. unfold k4, k3, k2, k1. gsimpl.
  by rewrite !(lookup_insert_ne _ dest cur), lookup_insert_eq by done.
Qed.

Lemma rq_rep_ext k k' ls :
  rq_rep k ls -> ready_q k' = ready_q k -> (forall x, p_link (procs k') x = p_link (procs k) x) ->
  (forall x, is_Some (procs k !! x) -> is_Some (procs k' !! x)) -> rq_rep k' ls.
Proof.
  intros [A B C D] Hq Hl Hs. split; rewrite ?Hq; [done| |eauto|done].
  intros q l Hl'. destruct (B _ _ Hl') as (h & t & E1 & E2 & E3). exists h, t. split; [done|]. split; [|done].
  by eapply seg_ext, E2.
Qed.

Lemma p_link_insert_same ps x p f y :
  ps !! x = Some p -> p_next (f p) = p_next p -> p_link (<[x := f p]> ps) y = p_link ps y.
Proof.
  intros Hx Hf. rewrite p_link_insert. unfold upd_link. case_decide; [|done]. subst. unfold p_link. by rewrite Hx.
Qed.

Lemma p_link_insert_eq ps x p p' y :
  ps !! x = Some p -> p_next p' = p_next p -> p_link (<[x := p']> ps) y = p_link ps y.
Proof. apply (p_link_insert_same ps x p (fun _ => p')). Qed.

(** C12: a send to a process that is not waiting blocks the sender; when the
    destination then receives, it gets the message that was sent, its queue of
    senders is what it was, and the sender's state is restored: if nothing else
    blocks it, it is the first process of its ready queue. *)
Theorem blocked_send_received k ls cur c dest d l m m' :
  current_proc k = Some cur -> procs k !! cur = Some c -> cur <> dest ->
  IS_PROCN_OK dest = true -> procs k !! dest = Some d -> IS_INUSE d = true ->
  has (state d) STATE_RECEIVING = false -> has (state d) STATE_SENDING = false -> nq_next d = Some dest ->
  has (state c) STATE_SENDING = false ->
  rq_rep k ls -> aget ls (priority c) = Some l -> ~ queued ls cur ->
  exists k1 k2, do_send dest m k = Some (OK, k1) /\
    (exists c1, procs k1 !! cur = Some c1 /\ has (state c1) STATE_SENDING = true) /\ rq_rep k1 ls /\
    do_receive m' (k1 <| current_proc := Some dest |>) = Some (OK, k2) /\
    rd_msg (kmem k2) m' = rd_msg (kmem k) m /\
    (exists v, procs k2 !! dest = Some (d <| p_next := v |>)) /\
    (exists c2, procs k2 !! cur = Some c2 /\ state c2 = state c) /\
    rq_rep k2 (if state c =? STATE_RUNNABLE then <[Z.to_nat (priority c) := cur :: l]> ls else ls).
Proof.
  intros Hcur Hc Hne Hn Hdest Hu Hrec Hs Hnq Hcs Hr Hl Hq.
  set (cm := c <| message_ptr := m |>).
  set (ka := k <| procs := <[cur := cm]> (procs k) |>).
  assert (Ha : procs ka !! dest = Some d) by (unfold ka; gsimpl; by rewrite lookup_insert_ne).
  assert (Hac : procs ka !! cur = Some cm) by (unfold ka; gsimpl; by rewrite lookup_insert_eq).
  set (cs := cm <| state ::= set_flag STATE_SENDING |>).
  set (kb := ka <| procs := <[cur := cs]> (procs ka) |>).
  assert (Hb : procs kb !! dest = Some d) by (unfold kb; gsimpl; by rewrite lookup_insert_ne).
  assert (Hbc : procs kb !! cur = Some cs) by (unfold kb; gsimpl; by rewrite lookup_insert_eq).
  set (cn := cs <| next_sender := sender_q d |>).
  set (kc := kb <| procs := <[cur := cn]> (procs kb) |>).
  assert (Hcd : procs kc !! dest = Some d) by (unfold kc; gsimpl; by rewrite lookup_insert_ne).
  assert (Hcc : procs kc !! cur = Some cn) by (unfold kc; gsimpl; by rewrite lookup_insert_eq).
  set (dn := d <| sender_q := Some cur |>).
  set (kd := kc <| procs := <[dest := dn]> (procs kc) |>).
  assert (Hdd : procs kd !! dest = Some dn) by (unfold kd; gsimpl; by rewrite lookup_insert_eq).
  assert (Hdc : procs kd !! cur = Some cn) by (unfold kd; gsimpl; by rewrite lookup_insert_ne).
  assert (Hrd : rq_rep kd ls).
  { apply (rq_rep_ext k); [done|done| |intros x ?; by do 4 apply is_Some_insert_mono]. intros x.
    transitivity (p_link (procs kc) x); [exact (p_link_insert_same _ _ d (fun d => d <| sender_q := Some cur |>) x Hcd eq_refl)|].
    transitivity (p_link (procs kb) x); [exact (p_link_insert_same _ _ cs (fun c => c <| next_sender := sender_q d |>) x Hbc eq_refl)|].
    transitivity (p_link (procs ka) x); [exact (p_link_insert_same _ _ cm (fun c => c <| state ::= set_flag STATE_SENDING |>) x Hac eq_refl)|].
    exact (p_link_insert_same _ _ c (fun c => c <| message_ptr := m |>) x Hc eq_refl). }
  assert (Hsend : do_send dest m k = Some (OK, kd)).
  { unfold do_send.
    rewrite (bind_run _ _ k cur k) by (unfold this_proc, mbind, st_bind, getS; by rewrite Hcur).
    rewrite (bind_run _ _ k tt ka) by (by apply updp_run).
    rewrite (bind_run _ _ ka (Some dest) ka) by (by eapply get_proc_run).
    rewrite (bind_run _ _ _ _ _ (getp_run _ _ _ Ha)), (bind_run _ _ _ _ _ (getp_run _ _ _ Hac)).
    rewrite (bind_run _ _ ka ka ka eq_refl), Hs, (bind_run _ _ ka false ka eq_refl), Hrec.
    rewrite (bind_run _ _ ka tt kd); [done|].
    rewrite (bind_run _ _ ka tt kb) by (by apply updp_run).
    rewrite (bind_run _ _ _ _ _ (getp_run _ _ _ Hb)).
    rewrite (bind_run _ _ kb tt kc) by (by apply updp_run). by apply updp_run. }
  set (k1 := kd <| current_proc := Some dest |>).
  set (kf := k1 <| procs := <[dest := dn <| sender_q := sender_q d |>]> (procs k1) |>).
  assert (Hff : procs kf !! dest = Some d) by (unfold kf; gsimpl; rewrite lookup_insert_eq; by destruct d).
  assert (Hfc : procs kf !! cur = Some cn) by (unfold kf; gsimpl; by rewrite lookup_insert_ne).
  set (kg := kf <| kmem ::= fun mem => wr_msg mem m' (rd_msg (kmem k) m) |>).
  set (cf := cn <| state ::= clr_flag STATE_SENDING |>).
  set (kh := kg <| procs := <[cur := cf]> (procs kg) |>).
  assert (Hhc : procs kh !! cur = Some cf) by (unfold kh; gsimpl; by rewrite lookup_insert_eq).
  assert (Hhd : procs kh !! dest = Some d) by (unfold kh; gsimpl; by rewrite lookup_insert_ne).
  assert (Hst : state cf = state c) by (apply (clr_set_flag (state c) 0); [lia|done]).
  assert (Hrh : rq_rep kh ls).
  { apply (rq_rep_ext kd); [done|done| |intros x ?; by do 2 apply is_Some_insert_mono]. intros x.
    transitivity (p_link (procs kg) x); [exact (p_link_insert_same _ _ cn (fun c => c <| state ::= clr_flag STATE_SENDING |>) x Hfc eq_refl)|].
    exact (p_link_insert_same _ _ dn (fun p => p <| sender_q := sender_q d |>) x Hdd eq_refl). }
  assert (Hfin : exists k2, when (state cf =? STATE_RUNNABLE) (enqueue_head (priority cf) cur) kh = Some (tt, k2) /\
     rq_rep k2 (if state c =? STATE_RUNNABLE then <[Z.to_nat (priority c) := cur :: l]> ls else ls) /\ same_but_queues kh k2).
  { rewrite Hst. destruct (state c =? STATE_RUNNABLE); unfold when.
    - by apply enqueue_head_spec.
    - exists kh. split; [done|]. split; [done|apply same_but_queues_refl]. }
  destruct Hfin as (k2 & Hw & Hr2 & Hsame).
  exists kd, k2. split; [done|]. split; [exists cn; split; [done|]; apply (has_set_flag _ 0); lia|]. split; [done|].
  split; [|split; [|split; [|split; [|done]]]].
  - fold k1. unfold do_receive. rewrite (bind_run _ _ k1 dest k1) by done.
    rewrite (bind_run _ _ k1 true k1).
    2:{ unfold list_empty. rewrite (bind_run _ _ _ _ _ (getp_run k1 _ _ Hdd)). unfold mret, st_ret.
        by rewrite bool_decide_eq_true_2. }
    cbn [negb]. rewrite (bind_run _ _ _ _ _ (getp_run k1 _ _ Hdd)). cbn [sender_q].
    change (sender_q dn) with (Some cur). cbn iota.
    rewrite (bind_run _ _ _ _ _ (getp_run k1 _ _ Hdc)).
    rewrite (bind_run _ _ k1 tt kf) by (by apply updp_run).
    rewrite (bind_run _ _ kf (rd_msg (kmem k) m) kf) by done.
    rewrite (bind_run _ _ kf tt kg) by done.
    rewrite (bind_run _ _ kg tt kh) by (by apply updp_run).
    rewrite (bind_run _ _ _ _ _ (getp_run _ _ _ Hhc)).
    by rewrite (bind_run _ _ _ _ _ Hw).
  - assert (kmem k2 = kmem kh) as -> by (by rewrite (proj1 Hsame)). apply rd_wr_msg.
  - by eapply same_but_queues_lookup.
  - destruct (same_but_queues_lookup _ _ _ _ Hsame Hhc) as [v ->]. exists (cf <| p_next := v |>). done.
Qed.

(** Process 0 waits for a message; 4, the current process, is not queued. *)
Definition ipc_p0 : proc := sample_proc 0 <| state := STATE_RECEIVING |> <| message_ptr := SYS_MSG |>.
Definition ipc_p4 : proc := sample_proc 4 <| flags := IN_USE |> <| state := STATE_RECEIVING |> <| sender_q := Some 5 |>.
Definition ipc_p5 : proc := sample_proc 5 <| flags := IN_USE |> <| state := STATE_SENDING |>.
Definition ipc_k : kst :=
  queued_k <| current_proc := Some 4 |>
    <| procs := <[4 := ipc_p4]> (<[5 := ipc_p5]> (<[0 := ipc_p0]> (procs queued_k))) |>.

Lemma ipc_k_rep : rq_rep ipc_k [[]; []; [1; 2; 3]; []; []].
Proof.
  assert (E : procs ipc_k = <[4 := ipc_p4]> (<[5 := ipc_p5]> (<[0 := ipc_p0]> (procs queued_k)))) by reflexivity.
  apply (rq_rep_ext queued_k); [apply queued_k_rep|reflexivity| |]; rewrite E.
  - assert (H4 : (<[5 := ipc_p5]> (<[0 := ipc_p0]> (procs queued_k))) !! 4 = Some (sample_proc 4)) by reflexivity.
    assert (H5 : (<[0 := ipc_p0]> (procs queued_k)) !! 5 = Some (sample_proc 5)) by reflexivity.
    assert (H0 : procs queued_k !! 0 = Some (sample_proc 0)) by reflexivity.
    intros x. refine (eq_trans (p_link_insert_eq _ 4 _ ipc_p4 x H4 eq_refl) _).
    refine (eq_trans (p_link_insert_eq _ 5 _ ipc_p5 x H5 eq_refl) _).
    exact (p_link_insert_eq _ 0 _ ipc_p0 x H0 eq_refl).
  - intros x Hx. by do 3 apply is_Some_insert_mono.
Qed.

Lemma do_send_deadlock_witness :
  do_send 5 4000 ipc_k
  = Some (EDEADLK, ipc_k <| procs := <[4 := ipc_p4 <| message_ptr := 4000 |>]> (procs ipc_k) |>).
Proof.
  apply (do_send_deadlock ipc_k 4 ipc_p4
           [5] 5 ipc_p5); [done| |done..|set_solver].
  split; [done|by repeat split|]. intros x ->%list_elem_of_singleton. vm_compute. eauto.
Defined.

Lemma do_send_delivers_witness :
  exists k' d', do_send 0 4000 ipc_k = Some (OK, k') /\
    rd_msg (kmem k') SYS_MSG = rd_msg (kmem ipc_k) 4000 /\
    (forall x, ~ (SYS_MSG <= x < SYS_MSG + MESSAGE_LEN) -> kmem k' x = kmem ipc_k x) /\
    procs k' !! 0 = Some d' /\ state d' = 0 /\ has (state d') STATE_RECEIVING = false /\
    rq_rep k' [[0]; []; [1; 2; 3]; []; []] /\
    exists v, procs k' !! 4 = Some (ipc_p4 <| message_ptr := 4000 |> <| p_next := v |>).
Proof.
  apply (do_send_delivers ipc_k [[]; []; [1; 2; 3]; []; []] 4
    ipc_p4 0
    ipc_p0 []);
    [done..|apply ipc_k_rep|done|apply not_queued_k; set_solver].
Defined.

Lemma blocked_send_received_witness :
  exists k1 k2, do_send 1 4000 ipc_k = Some (OK, k1) /\
    (exists c1, procs k1 !! 4 = Some c1 /\ has (state c1) STATE_SENDING = true) /\ rq_rep k1 [[]; []; [1; 2; 3]; []; []] /\
    do_receive 5000 (k1 <| current_proc := Some 1 |>) = Some (OK, k2) /\
    rd_msg (kmem k2) 5000 = rd_msg (kmem ipc_k) 4000 /\
    (exists v, procs k2 !! 1 = Some (sample_proc 1 <| priority := 2 |> <| p_next := Some 2 |> <| p_next := v |>)) /\
    (exists c2, procs k2 !! 4 = Some c2 /\ state c2 = 2) /\
    rq_rep k2 [[]; []; [1; 2; 3]; []; []].
Proof.
  apply (blocked_send_received ipc_k [[]; []; [1; 2; 3]; []; []] 4
    ipc_p4 1
    (sample_proc 1 <| priority := 2 |> <| p_next := Some 2 |>) []);
    [done..|apply ipc_k_rep|done|apply not_queued_k; set_solver].
Defined.
