(* ===== verification/Reply.v ===== *)
(** * How a reply reaches the process that asked

    [do_notify] on a process that waits for a message, with the errno of a direct
    system call: the last step of every system call. *)
From S2P Require Import Prelude Bitmap Mm Linked CString Timer Slab Kernel Proc Ipc.

(** The word of the caller that holds errno, and the result it is told: a
    negative result of a direct system call becomes -1. *)
Definition errno_addr (d : proc) : Z := u32 (stack_top d + 1).
Definition is_direct (d : proc) : bool := has (flags d) DIRECT_SYSCALL.
Definition told (d : proc) (reply : Z) : Z := if is_direct d && (reply <? 0) then -1 else reply.

Definition cleared (d : proc) : proc := if is_direct d then d <| flags ::= clr_flag DIRECT_SYSCALL |> else d.

(** A message buffer below address 0 is not touched by writes above. *)
Lemma rd_msg_frame mem mem' a : (forall x, a <= x < a + MESSAGE_LEN -> mem' x = mem x) -> rd_msg mem' a = rd_msg mem a.
Proof. intros H. unfold rd_msg. rewrite !H by (unfold MESSAGE_LEN; lia). done. Qed.

Lemma wr_msg_out mem a m x : ~ (a <= x < a + MESSAGE_LEN) -> wr_msg mem a m x = mem x.
Proof. intros Hx. apply wr_words_out. exact Hx. Qed.

Lemma kst_same k d dest :
  procs k !! dest = Some d -> k <| kmem := kmem k |> <| procs := <[dest := d]> (procs k) |> = k.
Proof. intros Hd. gsimpl. rewrite insert_id by done. by destruct k. Qed.

Lemma rd_message_run k m msg : rd_msg (kmem k) m = msg -> rd_message m k = Some (msg, k).
Proof. unfold rd_message, gets. by intros ->. Qed.

(** The errno step. *)
Lemma errno_run k dest d m msg :
  procs k !! dest = Some d -> rd_msg (kmem k) m = msg -> is_s32 (m_type msg) -> m + MESSAGE_LEN <= 0 ->
  exists mem', (when (is_direct d) (_ ← set_reply_res_errno dest m; updp dest (fun p => p <| flags ::= clr_flag DIRECT_SYSCALL |>))) k =
      Some (tt, k <| kmem := mem' |> <| procs := <[dest := cleared d]> (procs k) |>) /\
    rd_msg mem' m = msg <| m_type := told d (m_type msg) |> /\
    (is_direct d = true -> m_type msg < 0 -> mem' (errno_addr d) = - m_type msg) /\
    (forall x, ~ (m <= x < m + MESSAGE_LEN) -> x <> errno_addr d -> mem' x = kmem k x).
Proof.
  intros Hd Hm Hs Hneg. unfold told, cleared. pose proof (u32_range (stack_top d + 1)) as [He _]. fold (errno_addr d) in He.
  assert (Hsame : msg <| m_type := m_type msg |> = msg) by by destruct msg.
  destruct (is_direct d) eqn:Edir; cbn [when andb].
  2:{ exists (kmem k). rewrite kst_same by done. split; [done|]. by rewrite Hsame. }
  unfold set_reply_res_errno.
  destruct (Z.ltb_spec (m_type msg) 0) as [Hn|Hn].
  - set (mem1 := mset (kmem k) (errno_addr d) (- m_type msg)). set (k1 := k <| kmem := mem1 |>).
    assert (Hm1 : rd_msg mem1 m = msg).
    { rewrite <- Hm. apply rd_msg_frame. intros x Hx. unfold mem1, mset. destruct (Z.eqb_spec x (errno_addr d)); [lia|done]. }
    set (mem2 := wr_msg mem1 m (msg <| m_type := -1 |>)). exists mem2.
    assert (E : set_reply_res_errno dest m k = Some (tt, k <| kmem := mem2 |>)).
    { unfold set_reply_res_errno. rewrite (bind_run _ _ _ _ _ (rd_message_run _ _ _ Hm)).
      rewrite s32_id, (proj2 (Z.ltb_lt _ _) Hn) by done. cbn [when]. cbv zeta. rewrite (bind_run _ _ _ _ _ (getp_run _ _ _ Hd)).
      rewrite (bind_run _ _ k tt k1), (bind_run _ _ _ _ _ (rd_message_run k1 _ _ Hm1)) by done.
      unfold upd_message. rewrite (bind_run _ _ _ _ _ (rd_message_run k1 _ _ Hm1)).
      rewrite (proj2 (Z.eqb_neq (m_type msg) 52)) by lia. done. }
    rewrite (bind_run _ _ _ _ _ E). split; [exact (updp_run (k <| kmem := mem2 |>) dest d _ Hd)|]. split; [apply rd_wr_msg|]. split.
    + intros _ _. unfold mem2. rewrite wr_msg_out by lia. unfold mem1, mset. by rewrite Z.eqb_refl.
    + intros x Hx Hxe. unfold mem2. rewrite wr_msg_out by done. unfold mem1, mset. by rewrite (proj2 (Z.eqb_neq _ _) Hxe).
  - exists (kmem k). rewrite (bind_run _ _ k tt k).
    2:{ rewrite (bind_run _ _ _ _ _ (rd_message_run _ _ _ Hm)). rewrite s32_id, (proj2 (Z.ltb_ge _ _) Hn) by done. done. }
    split; [|split; [by rewrite Hsame|split; [lia|done]]]. rewrite (updp_run _ _ _ _ Hd). by destruct k.
Qed.

(** A notification that finds its destination waiting. *)
Lemma do_notify_delivers k ls src dest d l m msg :
  IS_PROCN_OK dest = true -> procs k !! dest = Some d -> IS_INUSE d = true -> state d = STATE_RECEIVING ->
  rd_msg (kmem k) m = msg -> is_s32 (m_type msg) -> m + MESSAGE_LEN <= 0 -> 0 <= message_ptr d ->
  rq_rep k ls -> aget ls (priority d) = Some l -> ~ queued ls dest ->
  exists k' d', do_notify src dest m k = Some (OK, k') /\
    rd_msg (kmem k') (message_ptr d) = msg <| m_type := told d (m_type msg) |> /\
    (is_direct d = true -> m_type msg < 0 -> ~ (message_ptr d <= errno_addr d < message_ptr d + MESSAGE_LEN) ->
       kmem k' (errno_addr d) = - m_type msg) /\
    procs k' !! dest = Some d' /\ state d' = STATE_RUNNABLE /\ regs d' = <[0%nat := told d (m_type msg)]> (regs d) /\
    flags d' = flags (cleared d) /\
    rq_rep k' (<[Z.to_nat (priority d) := dest :: l]> ls) /\
    (forall x p, x <> dest -> procs k !! x = Some p -> exists v, procs k' !! x = Some (p <| p_next := v |>)).
Proof.
  intros Hn Hd Hu Hst Hm Hs Hneg Hptr Hr Hl Hnq. unfold do_notify.
  rewrite (bind_run _ _ k (Some dest) k) by (by eapply get_proc_run). rewrite (bind_run _ _ _ _ _ (getp_run _ _ _ Hd)).
  rewrite Hst. change (has STATE_RECEIVING STATE_KILLED) with false. rewrite Z.eqb_refl. cbn iota.
  destruct (errno_run k dest d m msg Hd Hm Hs Hneg) as (mem1 & E1 & M1 & Herr & _). unfold is_direct in E1 at 1. rewrite (bind_run _ _ _ _ _ E1).
  set (dE := cleared d) in *. set (k1 := k <| kmem := mem1 |> <| procs := <[dest := dE]> (procs k) |>) in *.
  set (msg1 := msg <| m_type := told d (m_type msg) |>) in *.
  rewrite (bind_run _ _ _ _ _ (rd_message_run k1 m msg1 M1)).
  set (k2 := k1 <| kmem := wr_msg mem1 (message_ptr d) msg1 |>). rewrite (bind_run _ _ k1 tt k2) by done.
  assert (H2 : procs k2 !! dest = Some dE) by apply lookup_insert_eq.
  rewrite (bind_run _ _ _ _ _ (updp_run _ _ _ _ H2)).
  set (d3 := dE <| state ::= clr_flag STATE_RECEIVING |>). set (k3 := k2 <| procs := <[dest := d3]> (procs k2) |>).
  assert (M3 : rd_msg (kmem k3) m = msg1).
  { rewrite <- M1. apply rd_msg_frame. intros x Hx. apply wr_msg_out. lia. }
  rewrite (bind_run _ _ _ _ _ (rd_message_run k3 m msg1 M3)).
  assert (H3 : procs k3 !! dest = Some d3) by apply lookup_insert_eq. rewrite (bind_run _ _ _ _ _ (updp_run _ _ _ _ H3)).
  set (d4 := d3 <| regs ::= <[0%nat := m_type msg1]> |>). set (k4 := k3 <| procs := <[dest := d4]> (procs k3) |>).
  assert (H4 : procs k4 !! dest = Some d4) by apply lookup_insert_eq.
  assert (HE : p_next dE = p_next d /\ state dE = state d /\ regs dE = regs d /\ priority dE = priority d).
  { unfold dE, cleared. by destruct (is_direct d). }
  destruct HE as (En & Es & Er & Ep).
  assert (Hr4 : rq_rep k4 ls).
  { apply (rq_rep_ext k); [done|done| |intros x Hx; by do 3 apply is_Some_insert_mono].
    intros x. unfold k4, k3, k2, k1. gsimpl. rewrite !insert_insert_eq. by apply (p_link_insert_eq _ _ d). }
  destruct (enqueue_head_spec k4 ls (priority d) l dest) as (k' & E' & Hr' & Hsame); [done|done|by eexists|done|].
  rewrite (bind_run _ _ _ _ _ E'). destruct (same_but_queues_lookup _ _ _ _ Hsame H4) as [v Hv].
  exists k', (d4 <| p_next := v |>). split; [done|].
  assert (Hmem : kmem k' = wr_msg mem1 (message_ptr d) msg1) by by rewrite (proj1 Hsame).
  split; [rewrite Hmem; apply rd_wr_msg|]. split; [intros; rewrite Hmem, wr_msg_out by done; by apply Herr|].
  split; [done|]. split; [|split; [|split; [done|split; [done|]]]].
  - change (clr_flag STATE_RECEIVING (state dE) = STATE_RUNNABLE). by rewrite Es, Hst.
  - change (<[0%nat := told d (m_type msg)]> (regs dE) = <[0%nat := told d (m_type msg)]> (regs d)). by rewrite Er.
  - intros x p Hx Hp. assert (Hp4 : procs k4 !! x = Some p).
    { unfold k4, k3, k2, k1. gsimpl. by rewrite !lookup_insert_ne. }
    by destruct (same_but_queues_lookup _ _ _ _ Hsame Hp4) as [v' Hv']; exists v'.
Qed.
