(* ===== verification/Cache.v ===== *)
(** * fs/cache.c and the RAM disk of fs/rootfs.c

    Four block buffers, those not in use on a doubly linked list from
    [lru_rear] (least recently used) to [lru_front].  A [struct block_buffer STAR] is
    the index of the buffer; NULL is [None]. *)
From S2P Require Import Prelude Bitmap Linked CString Kernel.

Notation F := (ST fsst).

Definition BLOCK_SIZE : Z := 1024.
Definition LRU_LEN : Z := 4.
Definition READING : Z := 1.
Definition WRITING : Z := 2.
Definition NR_TZONES : Z := 8.

(** [struct device STAR]: the devices of the system; 0 is NULL. *)
Definition ROOTFS_DEV : Z := 1.
Definition PIPE_DEV : Z := 2.
Definition TTY_DEV : Z := 3.

(** Only the root device has a super block. *)
Definition get_sb (dev : Z) : F superblock := fun f =>
  if dev =? ROOTFS_DEV then Some (root_sb f, f) else None.

Definition upd_sb (g : superblock -> superblock) : F unit := modifyS (fun f => f <| root_sb ::= g |>).

Definition get_buf (i : Z) : F block_buffer := fun f => liftO (aget (buf_table f) i) f.
Definition upd_buf (i : Z) (g : block_buffer -> block_buffer) : F unit := fun f =>
  match aget (buf_table f) i with
  | Some b => match aset (buf_table f) i (g b) with
              | Some t => Some (tt, f <| buf_table := t |>)
              | None => None
              end
  | None => None
  end.

(** ** The RAM disk *)

(** [n] words of memory from [a]. *)
Definition mem_words (m : memory) (a n : Z) : list Z := map m (seqZ a n).

Definition dev_count (f : fsst) (off len : Z) : Z :=
  if u32 (off + len) >? disk_size f then u32 (disk_size f - off) else len.

(** The words that go into the buffer of the caller, and their number. *)
Definition blk_dev_io_read (off len : Z) : F (list Z * Z) := fun f =>
  if off >=? disk_size f then Some (([], 0), f)
  else let len := dev_count f off len in Some ((mem_words (disk f) off len, len), f).

Definition blk_dev_io_write (buf : list Z) (off len : Z) : F Z := fun f =>
  if off >=? disk_size f then Some (0, f)
  else
    let len := dev_count f off len in
    Some (len, f <| disk ::= (fun d => wr_words d off (take (Z.to_nat len) buf)) |>).

Definition sb_words (sb : superblock) : list Z :=
  [ sb_magic sb; s_block_inuse sb; s_inode_inuse sb; s_free_blocks sb; s_free_inodes sb;
    s_block_size sb; s_inode_size sb; s_rootnr sb; s_superblock_nr sb; s_superblock_size sb;
    s_blockmapnr sb; s_blockmap_size sb; s_inodemapnr sb; s_inodemap_size sb;
    s_inode_tablenr sb; s_inode_table_size sb; s_inode_per_block sb ].

Definition sb_read (d : memory) : superblock :=
  mkSb (d 0) (d 1) (d 2) (d 3) (d 4) (d 5) (d 6) (d 7) (d 8) (d 9) (d 10) (d 11) (d 12) (d 13) (d 14) (d 15) (d 16).

Definition arch_superblock (sb : superblock) : superblock :=
  sb <| s_inode_size ::= (fun x => x / 4) |> <| s_block_size ::= (fun x => x / 4) |>
     <| s_superblock_size ::= (fun x => x / 4) |> <| s_blockmap_size ::= (fun x => x / 4) |>
     <| s_inodemap_size ::= (fun x => x / 4) |> <| s_inode_table_size ::= (fun x => x / 4) |>.

Definition dearch_superblock (sb : superblock) : superblock :=
  sb <| s_inode_size ::= (fun x => u32 (x * 4)) |> <| s_block_size ::= (fun x => u32 (x * 4)) |>
     <| s_superblock_size ::= (fun x => u32 (x * 4)) |> <| s_blockmap_size ::= (fun x => u32 (x * 4)) |>
     <| s_inodemap_size ::= (fun x => u32 (x * 4)) |> <| s_inode_table_size ::= (fun x => u32 (x * 4)) |>.

Definition SUPER_BLOCK_MAGIC : Z := 0xabcdefff.
Definition DISK_SIZE : Z := 50 * BLOCK_SIZE.

(** A failed assertion panics. *)
Definition blk_dev_init : F Z := fun f =>
  if negb (disk f 0 =? SUPER_BLOCK_MAGIC) then None
  else
    let sb := arch_superblock (sb_read (disk f)) in
    if negb (sb_magic sb =? SUPER_BLOCK_MAGIC) then None
    else Some (0, f <| disk_size := DISK_SIZE |> <| root_sb := sb |>).

(** ** The list *)
Definition rm_lru (buffer : Z) : F unit :=
  b ← get_buf buffer;
  _ ← match bf_prev b with
      | Some p => upd_buf p (fun x => x <| bf_next := bf_next b |>)
      | None => mret tt
      end;
  b ← get_buf buffer;
  _ ← match bf_next b with
      | Some n => upd_buf n (fun x => x <| bf_prev := bf_prev b |>)
      | None => mret tt
      end;
  b ← get_buf buffer;
  f ← getS;
  _ ← (if decide (lru_rear f = Some buffer) then modifyS (fun f => f <| lru_rear := bf_next b |>) else mret tt);
  f ← getS;
  if decide (lru_front f = Some buffer) then modifyS (fun f => f <| lru_front := bf_prev b |>) else mret tt.

Definition dequeue_buf : F (option Z) :=
  f ← getS;
  match lru_rear f with
  | None => mret None
  | Some rear =>
      r ← get_buf rear;
      _ ← match bf_next r with
          | Some n => upd_buf n (fun x => x <| bf_prev := None |>)
          | None => mret tt
          end;
      _ ← modifyS (fun f => f <| lru_rear := bf_next r |>);
      _ ← upd_buf rear (fun x => x <| bf_next := None |> <| bf_prev := None |>);
      mret (Some rear)
  end.

Definition enqueue_buf (tbuf : Z) : F unit :=
  f ← getS;
  let front := lru_front f in
  _ ← upd_buf tbuf (fun x => x <| bf_next := None |> <| bf_prev := front |>);
  fr ← liftO front;
  _ ← upd_buf fr (fun x => x <| bf_next := Some tbuf |>);
  modifyS (fun f => f <| lru_front := Some tbuf |>).

(** ** Block I/O: the root device is the only one with device operations *)
Definition block_io (tbuf dev flag : Z) : F Z :=
  b ← get_buf tbuf;
  let off := u32 (b_blocknr b * BLOCK_SIZE) in
  if negb (dev =? ROOTFS_DEV) then crash
  else if flag =? READING then
    r ← blk_dev_io_read off BLOCK_SIZE;
    let '(ws, n) := (r : list Z * Z) in
    _ ← upd_buf tbuf (fun x => x <| block ::= (fun old => ws ++ drop (length ws) old) |>);
    mret n
  else if flag =? WRITING then blk_dev_io_write (block b) off BLOCK_SIZE
  else mret 0.

Definition put_block_buffer (tbuf : Z) : F Z :=
  _ ← enqueue_buf tbuf;
  _ ← upd_buf tbuf (fun x => x <| b_count := if b_count x - 1 <=? 0 then 0 else b_count x - 1 |>);
  mret OK.

Definition put_block_buffer_dirt (tbuf : Z) : F Z :=
  _ ← upd_buf tbuf (fun x => x <| b_dirt := true |>);
  put_block_buffer tbuf.

Definition put_block_buffer_immed (tbuf dev : Z) : F Z :=
  r ← block_io tbuf dev WRITING;
  if r =? 0 then mret EIO
  else
    _ ← upd_buf tbuf (fun x => x <| b_dirt := false |>);
    put_block_buffer tbuf.

(** The buffer that already holds [blocknr]; the device is not compared. *)
Fixpoint find_buf (n : nat) (i : Z) (t : list block_buffer) (blocknr : Z) : option Z :=
  match n, t with
  | S n', b :: t' => if b_blocknr b =? blocknr then Some i else find_buf n' (i + 1) t' blocknr
  | _, _ => None
  end.

Definition get_block_buffer (blocknr dev : Z) : F (option Z) :=
  f ← getS;
  match find_buf (Z.to_nat LRU_LEN) 0 (buf_table f) blocknr with
  | Some tbuf =>
      _ ← rm_lru tbuf;
      _ ← upd_buf tbuf (fun x => x <| b_count ::= Z.succ |>);
      mret (Some tbuf)
  | None =>
      d ← dequeue_buf;
      match d with
      | None => mret None
      | Some tbuf =>
          b ← get_buf tbuf;
          _ ← (if b_dirt b then
                 _ ← block_io tbuf dev WRITING;
                 upd_buf tbuf (fun x => x <| b_dirt := false |>)
               else mret tt);
          _ ← upd_buf tbuf (fun x => x <| b_blocknr := blocknr |>);
          ret ← block_io tbuf dev READING;
          if negb (ret =? BLOCK_SIZE) then
            _ ← enqueue_buf tbuf; mret None
          else
            _ ← upd_buf tbuf (fun x => x <| b_blocknr := blocknr |> <| bf_next := None |> <| bf_prev := None |>
                                         <| b_dirt := false |> <| b_dev := dev |> <| b_count := 1 |>);
            mret (Some tbuf)
      end
  end.

(** Most callers dereference the result. *)
Definition get_block (blocknr dev : Z) : F Z := b ← get_block_buffer blocknr dev; liftO b.

Definition get_imap (dev : Z) : F (option Z) := sb ← get_sb dev; get_block_buffer (s_inodemapnr sb) dev.
Definition get_bmap (dev : Z) : F (option Z) := sb ← get_sb dev; get_block_buffer (s_blockmapnr sb) dev.

Definition get_inode_table (num dev : Z) : F (option Z) :=
  sb ← get_sb dev;
  let bnr := u32 (num * s_inode_size sb) / BLOCK_SIZE in
  if u32 (bnr * BLOCK_SIZE) >? s_inode_table_size sb then mret None
  else get_block_buffer (u32 (s_inode_tablenr sb + bnr)) dev.

(** ** Flushing *)
Fixpoint flush_loop (js : list Z) (sel : block_buffer -> bool) (dev : block_buffer -> Z) : F unit :=
  match js with
  | [] => mret tt
  | j :: js' =>
      b ← get_buf j;
      _ ← (if sel b && b_dirt b then
             _ ← block_io j (dev b) WRITING;
             upd_buf j (fun x => x <| b_dirt := false |>)
           else mret tt);
      flush_loop js' sel dev
  end.

Definition flush_all_buffer : F Z :=
  _ ← flush_loop (seqZ 0 LRU_LEN) (fun _ => true) b_dev; mret OK.

Fixpoint flush_zones (zones : list Z) (dev : Z) : F unit :=
  match zones with
  | [] => mret tt
  | zid :: zs =>
      _ ← (if zid >? 0 then flush_loop (seqZ 0 LRU_LEN) (fun b => b_blocknr b =? zid) (fun _ => dev)
           else mret tt);
      flush_zones zs dev
  end.

Definition flush_inode_zones (ino : inode_t) : F Z :=
  _ ← flush_zones (i_zone ino) (i_dev ino); mret OK.

(** The 32 words of [s_name] are not modelled. *)
Definition flush_super_block (dev : Z) : F unit :=
  _ ← get_sb dev;
  _ ← upd_sb dearch_superblock;
  sb ← get_sb dev;
  _ ← blk_dev_io_write (sb_words sb) 0 (alen (sb_words sb));
  mret tt.

Fixpoint init_buf_loop (ixs : list Z) (prevbuf : option Z) : F unit :=
  match ixs with
  | [] => mret tt
  | i :: ixs' =>
      _ ← upd_buf i (fun _ => mkBuf (replicate (Z.to_nat BLOCK_SIZE) 0) None None 0 0 false 0);
      _ ← match prevbuf with
          | None => modifyS (fun f => f <| lru_front := Some i |> <| lru_rear := Some i |>)
          | Some p =>
              _ ← upd_buf p (fun x => x <| bf_next := Some i |>);
              _ ← upd_buf i (fun x => x <| bf_prev := Some p |>);
              modifyS (fun f => f <| lru_front := Some i |>)
          end;
      init_buf_loop ixs' (Some i)
  end.

Definition init_buf : F unit := init_buf_loop (seqZ 0 LRU_LEN) None.
