(* ===== verification/Coherence.v ===== *)
(** * The block cache is transparent

    What fs/cache.c promises to the file system: reading and writing blocks
    through the four buffers is reading and writing an array of blocks,
    whichever buffer is evicted and whenever a dirty one reaches the disk.  A
    client takes a buffer out of the list, uses it and puts it back; the
    representation invariant [cache_rep] describes the state in between. *)
From S2P Require Import Prelude Linked CString Kernel Cache.

(** ** The abstract side: an array of blocks *)

Definition NBLOCKS : Z := 50.
Definition is_block (n : Z) : Prop := 1 <= n < NBLOCKS.

(** The block [n] of the disk. *)
Definition disk_block (d : memory) (n : Z) : list Z := mem_words d (n * BLOCK_SIZE) BLOCK_SIZE.

(** A buffer without its links and its count. *)
Record cell := mkCell { c_block : list Z; c_nr : Z; c_dev : Z; c_dirt : bool }.
Definition cell_of (b : block_buffer) : cell := mkCell (block b) (b_blocknr b) (b_dev b) (b_dirt b).
Definition cells (f : fsst) : list cell := cell_of <$> buf_table f.

(** What a client sees as block [n]: the buffer that claims it, or the disk. *)
Definition cview (cs : list cell) (d : memory) (n : Z) : list Z :=
  match list_find (fun c => c_nr c = n) cs with
  | Some (_, c) => c_block c
  | None => disk_block d n
  end.

Definition view_of (f : fsst) : Z -> list Z := cview (cells f) (disk f).

(** A buffer is right about its block: clean ones agree with the disk.  All
    buffers start out claiming block 0, which is never asked for. *)
Definition cell_ok (d : memory) (c : cell) : Prop :=
  length (c_block c) = Z.to_nat BLOCK_SIZE /\ 0 <= c_nr c < NBLOCKS /\
  ((c_dirt c = true -> c_nr c <> 0) /\ (c_nr c <> 0 -> c_dev c = ROOTFS_DEV)) /\
  (c_dirt c = false -> c_nr c <> 0 -> c_block c = disk_block d (c_nr c)).

Definition distinct (cs : list cell) : Prop :=
  forall (i j : nat) c c', cs !! i = Some c -> cs !! j = Some c' -> c_nr c = c_nr c' -> c_nr c <> 0 -> i = j.

Definition coherent (cs : list cell) (d : memory) : Prop :=
  length cs = Z.to_nat LRU_LEN /\ Forall (cell_ok d) cs /\ distinct cs.

(** The list of free buffers, from [lru_rear] to [lru_front]. *)
Definition bnext (t : list block_buffer) (i : Z) : option Z := aget t i ≫= bf_next.
Definition bprev (t : list block_buffer) (i : Z) : option Z := aget t i ≫= bf_prev.

Definition lru_rep (f : fsst) (l : list Z) : Prop :=
  chain (bnext (buf_table f)) (lru_rear f) l /\ chain (bprev (buf_table f)) (lru_front f) (rev l) /\
  Forall (fun i => 0 <= i < alen (buf_table f)) l.

Definition cache_rep (f : fsst) (l : list Z) : Prop :=
  lru_rep f l /\ coherent (cells f) (disk f) /\ disk_size f = DISK_SIZE.

(** The requests of a client, and how the file system serves them. *)
Inductive breq := BRead (n : Z) | BWrite (n : Z) (ws : list Z) | BSync.

Definition bserve (r : breq) : F (list Z) :=
  match r with
  | BRead n =>
      i ← get_block n ROOTFS_DEV;
      b ← get_buf i;
      _ ← put_block_buffer i;
      mret (block b)
  | BWrite n ws =>
      i ← get_block n ROOTFS_DEV;
      _ ← upd_buf i (fun x => x <| block := ws |>);
      _ ← put_block_buffer_dirt i;
      mret []
  | BSync => _ ← flush_all_buffer; mret []
  end.

Fixpoint bserves (rs : list breq) : F (list (list Z)) :=
  match rs with
  | [] => mret []
  | r :: rs' => x ← bserve r; xs ← bserves rs'; mret (x :: xs)
  end.

Definition breq_ok (r : breq) : Prop :=
  match r with
  | BRead n => is_block n
  | BWrite n ws => is_block n /\ length ws = Z.to_nat BLOCK_SIZE
  | BSync => True
  end.

Definition astep (v : Z -> list Z) (r : breq) : list Z * (Z -> list Z) :=
  match r with
  | BRead n => (v n, v)
  | BWrite n ws => ([], fun m => if decide (m = n) then ws else v m)
  | BSync => ([], v)
  end.

Fixpoint arun (v : Z -> list Z) (rs : list breq) : list (list Z) * (Z -> list Z) :=
  match rs with
  | [] => ([], v)
  | r :: rs' => let '(x, v') := astep v r in let '(xs, v'') := arun v' rs' in (x :: xs, v'')
  end.

(** ** Words and blocks of the disk *)
Lemma mem_words_wr l : forall m a, mem_words (wr_words m a l) a (alen l) = l.
Proof.
  intros m a. unfold mem_words. apply list_eq. intros i. rewrite list_lookup_fmap.
  destruct (l !! i) as [w|] eqn:E.
  - rewrite lookup_seqZ_lt by (apply lookup_lt_Some in E; unfold alen; lia). cbn. f_equal. by apply wr_words_in.
  - rewrite lookup_seqZ_ge; [done|]. apply lookup_ge_None in E. unfold alen. lia.
Qed.

Lemma mem_words_frame m m' a n : (forall x, a <= x < a + n -> m' x = m x) -> mem_words m' a n = mem_words m a n.
Proof. intros H. unfold mem_words. apply map_ext_in. intros x Hx%list_elem_of_In%elem_of_seqZ. apply H. lia. Qed.

Lemma length_mem_words m a n : length (mem_words m a n) = Z.to_nat n.
Proof. unfold mem_words. by rewrite length_map, length_seqZ. Qed.

Lemma disk_block_wr d n l m :
  length l = Z.to_nat BLOCK_SIZE ->
  disk_block (wr_words d (n * BLOCK_SIZE) l) m = if decide (m = n) then l else disk_block d m.
Proof.
  intros Hl. assert (Ha : alen l = BLOCK_SIZE) by (unfold alen; rewrite Hl; done). unfold disk_block.
  case_decide as E.
  - subst. etransitivity; [|apply (mem_words_wr l d (n * BLOCK_SIZE))]. by rewrite Ha.
  - apply mem_words_frame. intros x Hx. apply wr_words_out. rewrite Ha. unfold BLOCK_SIZE in *. lia.
Qed.

(** ** Coherence *)
Lemma cview_hit (cs : list cell) d (i : nat) c n :
  distinct cs -> cs !! i = Some c -> c_nr c = n -> n <> 0 -> cview cs d n = c_block c.
Proof.
  intros Hd Hi Hn H0. unfold cview. destruct (list_find _ cs) as [[j c']|] eqn:E.
  - apply list_find_Some in E as (Hj & Hj' & _). by assert (j = i) as -> by (eapply Hd; eauto; congruence); simplify_eq.
  - apply list_find_None in E. rewrite Forall_lookup in E. by apply E in Hi.
Qed.

Lemma cview_miss cs d n : (forall (i : nat) c, cs !! i = Some c -> c_nr c <> n) -> cview cs d n = disk_block d n.
Proof.
  intros Hd. unfold cview. destruct (list_find _ cs) as [[j c']|] eqn:E; [|done].
  apply list_find_Some in E as (Hj & Hj' & _). by apply Hd in Hj.
Qed.

(** The cell that claims a block, or none. *)
Lemma claims (cs : list cell) n : (exists (i : nat) c, cs !! i = Some c /\ c_nr c = n) \/ (forall (i : nat) c, cs !! i = Some c -> c_nr c <> n).
Proof.
  destruct (list_find (fun c => c_nr c = n) cs) as [[j c']|] eqn:E.
  - apply list_find_Some in E as (Hj & Hj' & _). eauto.
  - right. apply list_find_None in E. rewrite Forall_lookup in E. eauto.
Qed.

(** The view after cell [i] and the disk have changed, when what they hold for
    any other block is still there. *)
Lemma coherent_replace cs d d' (i : nat) c c' :
  coherent cs d -> cs !! i = Some c -> cell_ok d' c' -> c_nr c' <> 0 ->
  (forall (j : nat) c0, cs !! j = Some c0 -> j <> i -> c_nr c0 <> c_nr c') ->
  (forall m, m <> 0 -> m <> c_nr c -> disk_block d' m = disk_block d m) ->
  coherent (<[i := c']> cs) d' /\
  (forall m, m <> 0 -> cview (<[i := c']> cs) d' m =
     if decide (m = c_nr c') then c_block c' else if decide (m = c_nr c) then disk_block d' m else cview cs d m).
Proof.
  intros (Hl & Hok & Hdist) Hi Hc' Hc0 Hfresh Hdisk. pose proof (lookup_lt_Some _ _ _ Hi) as Hlt.
  assert (Hdist' : distinct (<[i := c']> cs)).
  { intros j1 j2 c1 c2 [(<- & <- & _)|[Hn1 H1]]%list_lookup_insert_Some [(<- & <- & _)|[Hn2 H2]]%list_lookup_insert_Some He H0;
      [done|exfalso; eapply Hfresh; eauto|exfalso; eapply (Hfresh j1); eauto|eapply Hdist; eauto]. }
  split; [split; [by rewrite length_insert|split; [|done]]|].
  - apply Forall_lookup. intros j c0 [(<- & <- & _)|[Hn H1]]%list_lookup_insert_Some; [done|].
    rewrite Forall_lookup in Hok. destruct (Hok _ _ H1) as (A & B & C & Hcl). split; [exact A|split; [exact B|split; [exact C|]]].
    intros Hd H0. rewrite Hcl by done. symmetry. apply Hdisk; [done|]. intros E. apply Hn. symmetry. eapply Hdist; eauto.
  - intros m H0. case_decide as E.
    { subst. by apply (cview_hit _ _ i); [|apply list_lookup_insert_eq| |]. }
    destruct (claims cs m) as [(j & cj & Hj & Hm)|Hno].
    + destruct (decide (j = i)) as [->|Hji].
      * simplify_eq. rewrite decide_True by done. apply cview_miss.
        intros k ck [(<- & <- & _)|[Hn H1]]%list_lookup_insert_Some; [done|]. intros E'. apply Hn. by eapply Hdist.
      * rewrite decide_False by (intros E'; apply Hji; eapply Hdist; eauto; congruence).
        rewrite (cview_hit cs d j cj), (cview_hit _ d' j cj); [done| |rewrite list_lookup_insert_ne by done| | |done| | |]; done.
    + rewrite (cview_miss (<[i:=c']> cs)).
      2:{ intros k ck [(<- & <- & _)|[Hn H1]]%list_lookup_insert_Some; [done|]. eauto. }
      case_decide as E'; [done|]. rewrite cview_miss by done. by apply Hdisk.
Qed.

(** ** Updating one buffer *)
Definition same_data (f f' : fsst) : Prop :=
  cells f' = cells f /\ disk f' = disk f /\ disk_size f' = disk_size f /\ alen (buf_table f') = alen (buf_table f).

Lemma same_data_trans f1 f2 f3 : same_data f1 f2 -> same_data f2 f3 -> same_data f1 f3.
Proof. intros (? & ? & ? & ?) (? & ? & ? & ?). unfold same_data. repeat split; congruence. Qed.

Lemma upd_buf_run f i b g :
  aget (buf_table f) i = Some b ->
  upd_buf i g f = Some (tt, f <| buf_table := <[Z.to_nat i := g b]> (buf_table f) |>).
Proof. intros Hi. unfold upd_buf. rewrite Hi, aset_in; [done|]. by eapply aget_Some_bound. Qed.

Lemma get_buf_run f i b : aget (buf_table f) i = Some b -> get_buf i f = Some (b, f).
Proof. unfold get_buf. by intros ->. Qed.

Lemma aget_cell f i b : aget (buf_table f) i = Some b -> cells f !! Z.to_nat i = Some (cell_of b).
Proof. unfold cells, aget. case_decide; [|done]. intros H'. by rewrite list_lookup_fmap, H'. Qed.

Lemma cells_upd f i b b' :
  aget (buf_table f) i = Some b ->
  cells (f <| buf_table := <[Z.to_nat i := b']> (buf_table f) |>) = <[Z.to_nat i := cell_of b']> (cells f).
Proof. intros _. unfold cells. rsimpl. apply list_fmap_insert. Qed.

Lemma same_data_upd f i b b' :
  aget (buf_table f) i = Some b -> cell_of b' = cell_of b ->
  same_data f (f <| buf_table := <[Z.to_nat i := b']> (buf_table f) |>).
Proof.
  intros Hi Hb. split; [|by rsimpl; rewrite alen_insert]. rewrite (cells_upd _ _ _ _ Hi), Hb.
  apply list_insert_id. by apply aget_cell.
Qed.

Lemma link_insert {A} (t : list block_buffer) (p : block_buffer -> option A) i b j :
  0 <= i < alen t ->
  (aget (<[Z.to_nat i := b]> t) j ≫= p) = if decide (j = i) then p b else aget t j ≫= p.
Proof.
  intros Hi. destruct (decide (0 <= j)) as [Hj|Hj].
  - rewrite aget_insert by done. destruct (decide (i = j)) as [->|]; [by rewrite decide_True|by rewrite decide_False].
  - rewrite decide_False by lia. unfold aget. by rewrite !decide_False.
Qed.

Lemma tbl_upd f t : buf_table (f <| buf_table := t |>) = t.
Proof. done. Qed.

(** Writing one link of the buffer [o] points to. *)
Lemma set_next_run f o v :
  (forall x, o = Some x -> 0 <= x < alen (buf_table f)) ->
  exists f', (match o with Some x => upd_buf x (fun y => y <| bf_next := v |>) | None => mret tt end) f = Some (tt, f') /\
    same_data f f' /\ lru_rear f' = lru_rear f /\ lru_front f' = lru_front f /\
    (forall j, bprev (buf_table f') j = bprev (buf_table f) j) /\
    (forall j, bnext (buf_table f') j = match o with Some x => upd_link (bnext (buf_table f)) x v j | None => bnext (buf_table f) j end).
Proof.
  intros Ho. destruct o as [x|]; [|by exists f]. specialize (Ho x eq_refl).
  destruct (aget_in _ _ Ho) as [b Hb]. eexists. split; [by apply upd_buf_run|].
  split; [by eapply same_data_upd|]. split; [done|]. split; [done|].
  split; intros j; unfold bprev, bnext, upd_link; rewrite tbl_upd, link_insert by done; case_decide; subst; try done.
  by rewrite Hb.
Qed.

Lemma set_prev_run f o v :
  (forall x, o = Some x -> 0 <= x < alen (buf_table f)) ->
  exists f', (match o with Some x => upd_buf x (fun y => y <| bf_prev := v |>) | None => mret tt end) f = Some (tt, f') /\
    same_data f f' /\ lru_rear f' = lru_rear f /\ lru_front f' = lru_front f /\
    (forall j, bnext (buf_table f') j = bnext (buf_table f) j) /\
    (forall j, bprev (buf_table f') j = match o with Some x => upd_link (bprev (buf_table f)) x v j | None => bprev (buf_table f) j end).
Proof.
  intros Ho. destruct o as [x|]; [|by exists f]. specialize (Ho x eq_refl).
  destruct (aget_in _ _ Ho) as [b Hb]. eexists. split; [by apply upd_buf_run|].
  split; [by eapply same_data_upd|]. split; [done|]. split; [done|].
  split; intros j; unfold bprev, bnext, upd_link; rewrite tbl_upd, link_insert by done; case_decide; subst; try done.
  by rewrite Hb.
Qed.

(** ** The list of free buffers *)
Lemma last_rev {A} (l : list A) : last (rev l) = head l.
Proof. destruct l; [done|]. cbn. by rewrite last_snoc. Qed.

Lemma head_rev {A} (l : list A) : head (rev l) = last l.
Proof. rewrite <- last_rev. by rewrite rev_involutive. Qed.

Lemma elem_of_rev {A} (l : list A) x : x ∈ rev l <-> x ∈ l.
Proof. rewrite !list_elem_of_In. symmetry. apply in_rev. Qed.

(** The record of a buffer has the links the list functions read. *)
Lemma get_links f i :
  0 <= i < alen (buf_table f) ->
  exists b, get_buf i f = Some (b, f) /\ aget (buf_table f) i = Some b /\
    bf_next b = bnext (buf_table f) i /\ bf_prev b = bprev (buf_table f) i.
Proof.
  intros [b Hb]%aget_in. exists b. split; [by apply get_buf_run|]. unfold bnext, bprev. by rewrite Hb.
Qed.

Lemma lru_links f l1 i l2 :
  lru_rep f (l1 ++ i :: l2) ->
  bnext (buf_table f) i = head l2 /\ bprev (buf_table f) i = last l1.
Proof.
  intros (Hn & Hp & _). rewrite rev_app_distr in Hp. cbn in Hp. rewrite <- app_assoc in Hp.
  apply chain_split_next in Hn, Hp. by rewrite head_rev in Hp.
Qed.

(** The two ends of the list. *)
Lemma lru_ends f l : lru_rep f l -> lru_rear f = head l /\ lru_front f = last l.
Proof. intros (Hn & Hp & _). apply chain_head in Hn, Hp. by rewrite head_rev in Hp. Qed.

Lemma lru_bound f l x : lru_rep f l -> x ∈ l -> 0 <= x < alen (buf_table f).
Proof. intros (_ & _ & Hb) Hx. rewrite Forall_forall in Hb. by apply Hb. Qed.

Lemma lru_NoDup f l : lru_rep f l -> NoDup l.
Proof. intros (Hn & _). by eapply chain_NoDup. Qed.

Lemma upd_link_opt_ne next (o : option Z) v i :
  o <> Some i -> match o with Some x => upd_link next x v i | None => next i end = next i.
Proof. intros Ho. destruct o; [|done]. apply upd_link_ne. congruence. Qed.

(** Taking [i] out: the links of its neighbours, and the ends. *)
Lemma rm_links f f' l1 i l2 :
  lru_rep f (l1 ++ i :: l2) -> alen (buf_table f') = alen (buf_table f) ->
  (forall j, bnext (buf_table f') j =
     match last l1 with Some x => upd_link (bnext (buf_table f)) x (head l2) j | None => bnext (buf_table f) j end) ->
  (forall j, bprev (buf_table f') j =
     match head l2 with Some x => upd_link (bprev (buf_table f)) x (last l1) j | None => bprev (buf_table f) j end) ->
  lru_rear f' = head (l1 ++ l2) -> lru_front f' = last (l1 ++ l2) ->
  lru_rep f' (l1 ++ l2).
Proof.
  intros Hl Ha Hn' Hp' Hr Hf. destruct (lru_links _ _ _ _ Hl) as [En Ep].
  destruct Hl as (Hn & Hp & Hb). split; [|split].
  - eapply seg_ext; [exact Hn'|]. apply chain_remove in Hn. rewrite En in Hn. rewrite Hr.
    destruct l1 as [|x l1 _] using rev_ind; [exact Hn|]. rewrite last_snoc in *.
    pose proof (chain_head _ _ _ Hn) as Eh. by rewrite Eh in Hn.
  - eapply seg_ext; [exact Hp'|]. rewrite rev_app_distr in *. cbn in Hp. rewrite <- app_assoc in Hp. cbn in Hp.
    apply chain_remove in Hp. rewrite Ep, last_rev in Hp. rewrite Hf. destruct l2 as [|x l2]; cbn in *.
    + by rewrite app_nil_r.
    + pose proof (chain_head _ _ _ Hp) as Eh. rewrite Eh, <- app_assoc in Hp. cbn in Hp.
      assert (E : last (l1 ++ x :: l2) = head (rev l2 ++ x :: rev l1)).
      { rewrite <- head_rev, rev_app_distr. cbn. by rewrite <- app_assoc. }
      by rewrite E, <- app_assoc.
  - rewrite Ha. apply Forall_app in Hb as [? [_ ?]%Forall_cons]. by apply Forall_app.
Qed.

(** The last part of [rm_lru]: [i] may be either end of the list. *)
Lemma rm_ends f l1 i l2 nxt prv :
  NoDup (l1 ++ i :: l2) -> lru_rear f = head (l1 ++ i :: l2) -> lru_front f = last (l1 ++ i :: l2) ->
  nxt = head l2 -> prv = last l1 ->
  exists f', (f ← getS;
     _ ← (if decide (lru_rear f = Some i) then modifyS (fun f => f <| lru_rear := nxt |>) else mret tt);
     f ← getS;
     if decide (lru_front f = Some i) then modifyS (fun f => f <| lru_front := prv |>) else mret tt) f = Some (tt, f') /\
    buf_table f' = buf_table f /\ disk f' = disk f /\ disk_size f' = disk_size f /\
    lru_rear f' = head (l1 ++ l2) /\ lru_front f' = last (l1 ++ l2).
Proof.
  intros (_ & Hnd1 & [Hnd2 _]%NoDup_cons)%NoDup_app Hr Hf -> ->. rewrite (bind_run _ _ f f f) by done.
  assert (E1 : exists f1, (if decide (lru_rear f = Some i) then modifyS (fun f => f <| lru_rear := head l2 |>) else mret tt) f = Some (tt, f1) /\
    buf_table f1 = buf_table f /\ disk f1 = disk f /\ disk_size f1 = disk_size f /\
    lru_rear f1 = head (l1 ++ l2) /\ lru_front f1 = last (l1 ++ i :: l2)).
  { rewrite Hr. destruct l1 as [|x l1]; cbn in *; [rewrite decide_True by done; by eexists|].
    rewrite decide_False by (intros [= ->]; apply (Hnd1 i); set_solver). by exists f. }
  destruct E1 as (f1 & E1 & T1 & D1 & S1 & R1 & F1). rewrite (bind_run _ _ _ _ _ E1), (bind_run _ _ f1 f1 f1) by done. rewrite F1.
  destruct l2 as [|y l2 _] using rev_ind.
  - rewrite last_snoc, decide_True by done. eexists. split; [done|]. by rewrite app_nil_r in *.
  - rewrite app_comm_cons, app_assoc, last_snoc in *. rewrite decide_False by (intros [= ->]; set_solver).
    exists f1. by rewrite app_assoc, last_snoc in *.
Qed.

Lemma rm_lru_spec f l1 i l2 :
  lru_rep f (l1 ++ i :: l2) ->
  exists f', rm_lru i f = Some (tt, f') /\ lru_rep f' (l1 ++ l2) /\ same_data f f'.
Proof.
  intros Hl. pose proof (lru_links _ _ _ _ Hl) as [Hbn Hbp]. pose proof (lru_NoDup _ _ Hl) as Hnd.
  assert (Hi : 0 <= i < alen (buf_table f)) by (eapply lru_bound; [done|set_solver]).
  apply NoDup_app in Hnd as (_ & Hnd1 & [Hnd2 _]%NoDup_cons).
  assert (Hni : i ∉ l1) by (intros Hx; apply (Hnd1 i Hx); set_solver).
  assert (Hne1 : last l1 <> Some i) by by intros Hx%last_Some_elem_of.
  assert (Hne2 : head l2 <> Some i) by by intros Hx%head_Some_elem_of.
  unfold rm_lru. destruct (get_links f i Hi) as (b & Eb & _ & Ebn & Ebp). rewrite (bind_run _ _ _ _ _ Eb), Ebp, Hbp, Ebn, Hbn.
  destruct (set_next_run f (last l1) (head l2)) as (f1 & E1 & D1 & R1 & Fr1 & P1 & N1).
  { intros x Hx%last_Some_elem_of. eapply lru_bound; [done|]. set_solver. }
  rewrite (bind_run _ _ _ _ _ E1). pose proof D1 as (_ & _ & _ & A1).
  destruct (get_links f1 i) as (b1 & Eb1 & _ & Ebn1 & Ebp1); [by rewrite A1|].
  rewrite (bind_run _ _ _ _ _ Eb1), Ebp1, Ebn1, P1, N1, Hbp, upd_link_opt_ne, Hbn by done.
  destruct (set_prev_run f1 (head l2) (last l1)) as (f2 & E2 & D2 & R2 & Fr2 & N2 & P2).
  { intros x Hx%head_Some_elem_of. rewrite A1. eapply lru_bound; [done|]. set_solver. }
  rewrite (bind_run _ _ _ _ _ E2). pose proof (same_data_trans _ _ _ D1 D2) as D. pose proof D as (_ & _ & _ & A2).
  destruct (get_links f2 i) as (b2 & Eb2 & _ & Ebn2 & Ebp2); [by rewrite A2|].
  assert (En : bf_next b2 = head l2) by by rewrite Ebn2, N2, N1, upd_link_opt_ne.
  assert (Ep : bf_prev b2 = last l1) by by rewrite Ebp2, P2, upd_link_opt_ne, P1.
  destruct (lru_ends _ _ Hl) as [Er Ef].
  destruct (rm_ends f2 l1 i l2 (bf_next b2) (bf_prev b2)) as (f4 & E4 & Et4 & Ed4 & Es4 & Er4 & Ef4);
    [by eapply lru_NoDup|congruence|congruence|done|done|].
  rewrite (bind_run _ _ _ _ _ Eb2). exists f4. split; [exact E4|]. destruct D as (Dc & Dd & Ds & Da). split.
  - apply (rm_links f f4 l1 i l2); [done|by rewrite Et4| | |done|done]; intros j; rewrite Et4.
    + by rewrite N2, N1.
    + rewrite P2. destruct (head l2); [|apply P1]. unfold upd_link. by rewrite P1.
  - unfold same_data, cells in *. rewrite Et4. repeat split; congruence.
Qed.

Lemma set_links_run f i nxt prv :
  0 <= i < alen (buf_table f) ->
  exists f', upd_buf i (fun x => x <| bf_next := nxt |> <| bf_prev := prv |>) f = Some (tt, f') /\
    same_data f f' /\ lru_rear f' = lru_rear f /\ lru_front f' = lru_front f /\
    (forall j, bnext (buf_table f') j = upd_link (bnext (buf_table f)) i nxt j) /\
    (forall j, bprev (buf_table f') j = upd_link (bprev (buf_table f)) i prv j).
Proof.
  intros Hi. destruct (aget_in _ _ Hi) as [b Hb]. eexists. split; [by apply upd_buf_run|].
  split; [by eapply same_data_upd|]. split; [done|]. split; [done|].
  split; intros j; unfold bprev, bnext, upd_link; by rewrite tbl_upd, link_insert.
Qed.

Lemma enqueue_buf_spec f l i :
  lru_rep f l -> l <> [] -> i ∉ l -> 0 <= i < alen (buf_table f) ->
  exists f', enqueue_buf i f = Some (tt, f') /\ lru_rep f' (l ++ [i]) /\ same_data f f'.
Proof.
  intros Hl Hne Hil Hi. destruct (lru_ends _ _ Hl) as [Er Ef].
  unfold enqueue_buf. rewrite (bind_run _ _ f f f) by done. cbv zeta.
  destruct (set_links_run f i None (lru_front f) Hi) as (f1 & E1 & D1 & R1 & Fr1 & N1 & P1).
  rewrite (bind_run _ _ _ _ _ E1). pose proof D1 as (_ & _ & _ & A1).
  destruct l as [|h l _] using rev_ind; [done|]. rewrite last_snoc in Ef. rewrite Ef in *.
  rewrite (bind_run _ _ f1 h f1) by done.
  destruct (set_next_run f1 (Some h) (Some i)) as (f2 & E2 & D2 & R2 & Fr2 & P2 & N2).
  { intros x [= <-]. rewrite A1. eapply lru_bound; [done|set_solver]. }
  rewrite (bind_run _ _ _ _ _ E2). eexists. split; [done|].
  destruct (same_data_trans _ _ _ D1 D2) as (Dc & Dd & Ds & Da). split; [|done].
  destruct Hl as (Hn & Hp & Hb). split; [|split]; gsimpl; cbn [buf_table lru_rear lru_front].
  - rewrite R2, R1. eapply seg_ext; [intros x; rewrite N2; unfold upd_link at 1; rewrite N1; reflexivity|].
    rewrite <- (app_nil_r (l ++ [h])) in Hn, Hil. apply (chain_insert _ _ _ [] i) in Hn; [|done]. by rewrite last_snoc in Hn.
  - eapply seg_ext; [intros x; rewrite P2; apply P1|]. rewrite (rev_app_distr _ [i]).
    apply (chain_insert _ _ [] _ i) in Hp; [|cbn [app]; by rewrite elem_of_rev]. cbn [last] in Hp.
    by rewrite head_rev, last_snoc in Hp.
  - rewrite Da. apply Forall_app. split; [done|]. by constructor.
Qed.

Lemma dequeue_buf_spec f i l :
  lru_rep f (i :: l) -> l <> [] ->
  exists f', dequeue_buf f = Some (Some i, f') /\ lru_rep f' l /\ same_data f f'.
Proof.
  intros Hl Hne. destruct (lru_ends _ _ Hl) as [Er Ef]. pose proof (lru_NoDup _ _ Hl) as [Hil Hnd]%NoDup_cons.
  assert (Hi : 0 <= i < alen (buf_table f)) by (eapply lru_bound; [done|set_solver]).
  destruct (lru_links f [] i l Hl) as [Hbn Hbp]. cbn in Hbp.
  unfold dequeue_buf. rewrite (bind_run _ _ f f f) by done. rewrite Er. cbn [head].
  destruct (get_links f i Hi) as (b & Eb & _ & Ebn & _). rewrite (bind_run _ _ _ _ _ Eb), Ebn, Hbn.
  destruct (set_prev_run f (head l) None) as (f1 & E1 & D1 & R1 & Fr1 & N1 & P1).
  { intros x Hx%head_Some_elem_of. eapply lru_bound; [done|]. set_solver. }
  rewrite (bind_run _ _ _ _ _ E1). set (f2 := f1 <| lru_rear := head l |>).
  rewrite (bind_run _ _ f1 tt f2) by done. pose proof D1 as (Dc1 & Dd1 & Ds1 & A1).
  destruct (set_links_run f2 i None None) as (f3 & E3 & D3 & R3 & Fr3 & N3 & P3); [by rewrite <- A1 in Hi|].
  rewrite (bind_run _ _ _ _ _ E3). exists f3. split; [done|].
  assert (D2 : same_data f f2) by done. destruct (same_data_trans _ _ _ D2 D3) as (Dc & Dd & Ds & Da). split; [|done].
  assert (Hl2 : lru_rep f2 ([] ++ l)).
  { apply (rm_links f f2 [] i l); try done; cbn [app].
    change (lru_front f2) with (lru_front f1). rewrite Fr1, Ef. by destruct l. }
  destruct Hl2 as (Hn & Hp & Hb). split; [|split].
  - rewrite R3. eapply seg_ext; [exact N3|]. by apply seg_upd_notin.
  - rewrite Fr3. eapply seg_ext; [exact P3|]. apply seg_upd_notin; [by rewrite elem_of_rev|done].
  - destruct D3 as (_ & _ & _ & ->). exact Hb.
Qed.

(** ** Getting a block *)

(** [f'] differs from [f] in buffer [i] and the disk only. *)
Definition only (i : Z) (b : block_buffer) (d : memory) (f f' : fsst) : Prop :=
  buf_table f' = <[Z.to_nat i := b]> (buf_table f) /\ disk f' = d /\ disk_size f' = disk_size f /\
  lru_rear f' = lru_rear f /\ lru_front f' = lru_front f.

Lemma only_trans i b1 d1 b2 d2 f f1 f2 : only i b1 d1 f f1 -> only i b2 d2 f1 f2 -> only i b2 d2 f f2.
Proof.
  intros (T1 & _ & S1 & R1 & F1) (T2 & D2 & S2 & R2 & F2). unfold only.
  rewrite T2, T1, list_insert_insert_eq. repeat split; congruence.
Qed.

Lemma only_get i b d f f' : 0 <= i < alen (buf_table f) -> only i b d f f' -> aget (buf_table f') i = Some b.
Proof. intros Hi (-> & _). rewrite aget_insert by lia. by rewrite decide_True. Qed.

Lemma only_refl i b f : aget (buf_table f) i = Some b -> only i b (disk f) f f.
Proof.
  intros Hi. pose proof (aget_Some_bound _ _ _ Hi) as Hb. unfold only. rewrite list_insert_id; [done|].
  unfold aget in Hi. by rewrite decide_True in Hi by lia.
Qed.

Lemma upd_buf_only f i b g :
  aget (buf_table f) i = Some b ->
  exists f', upd_buf i g f = Some (tt, f') /\ only i (g b) (disk f) f f'.
Proof. intros Hi. eexists. split; [by apply upd_buf_run|done]. Qed.

Lemma lru_rep_only f f' i b d l :
  0 <= i < alen (buf_table f) -> only i b d f f' -> i ∉ l -> lru_rep f l -> lru_rep f' l.
Proof.
  intros Hi (T & _ & _ & R & Fr) Hil (Hn & Hp & Hb).
  assert (Hx : forall x, x ∈ l -> aget (buf_table f') x = aget (buf_table f) x).
  { intros x Hxl. rewrite Forall_forall in Hb. pose proof (Hb x Hxl) as Hxb. rewrite T, aget_insert by lia.
    rewrite decide_False; [done|]. by intros ->. }
  split; [|split].
  - rewrite R. eapply seg_frame; [|exact Hn]. intros x Hxl. unfold bnext. by rewrite Hx.
  - rewrite Fr. eapply seg_frame; [|exact Hp]. intros x Hxl. rewrite elem_of_rev in Hxl. unfold bprev. by rewrite Hx.
  - by rewrite T, alen_insert.
Qed.

Lemma cells_only f f' i b d : only i b d f f' -> cells f' = <[Z.to_nat i := cell_of b]> (cells f).
Proof. intros (T & _). unfold cells. rewrite T. apply list_fmap_insert. Qed.

Lemma block_off n : 0 <= n < NBLOCKS -> u32 (n * BLOCK_SIZE) = n * BLOCK_SIZE /\ n * BLOCK_SIZE + BLOCK_SIZE <= DISK_SIZE.
Proof. intros Hn. unfold DISK_SIZE, NBLOCKS, BLOCK_SIZE in *. split; [apply u32_id; unfold is_u32, UINT_MOD|]; lia. Qed.

Lemma dev_count_block f n :
  0 <= n < NBLOCKS -> disk_size f = DISK_SIZE ->
  (n * BLOCK_SIZE >=? disk_size f) = false /\ dev_count f (n * BLOCK_SIZE) BLOCK_SIZE = BLOCK_SIZE.
Proof.
  intros Hn Hs. pose proof (block_off n Hn) as [_ Ho]. rewrite Hs. assert (BLOCK_SIZE = 1024) as HB by done. split; [lia|].
  unfold dev_count. rewrite Hs, u32_id by (unfold is_u32, UINT_MOD, DISK_SIZE in *; lia).
  destruct (Z.gtb_spec (n * BLOCK_SIZE + BLOCK_SIZE) DISK_SIZE); lia.
Qed.

Lemma block_io_write f i b :
  aget (buf_table f) i = Some b -> 0 <= b_blocknr b < NBLOCKS -> disk_size f = DISK_SIZE ->
  length (block b) = Z.to_nat BLOCK_SIZE ->
  exists f', block_io i ROOTFS_DEV WRITING f = Some (BLOCK_SIZE, f') /\
    only i b (wr_words (disk f) (b_blocknr b * BLOCK_SIZE) (block b)) f f'.
Proof.
  intros Hi Hn Hs Hl. unfold block_io. rewrite (bind_run _ _ _ _ _ (get_buf_run _ _ _ Hi)). cbv zeta.
  destruct (block_off _ Hn) as [-> _]. change (negb (ROOTFS_DEV =? ROOTFS_DEV)) with false. cbn iota.
  change (WRITING =? READING) with false. change (WRITING =? WRITING) with true. cbn iota. unfold blk_dev_io_write.
  destruct (dev_count_block f _ Hn Hs) as [-> ->]. eexists. split; [done|].
  rewrite <- Hl, firstn_all. destruct (only_refl _ _ _ Hi) as (T & _). by repeat split.
Qed.

Lemma block_io_read f i b :
  aget (buf_table f) i = Some b -> 0 <= b_blocknr b < NBLOCKS -> disk_size f = DISK_SIZE ->
  length (block b) = Z.to_nat BLOCK_SIZE ->
  exists f', block_io i ROOTFS_DEV READING f = Some (BLOCK_SIZE, f') /\
    only i (b <| block := disk_block (disk f) (b_blocknr b) |>) (disk f) f f'.
Proof.
  intros Hi Hn Hs Hl. unfold block_io. rewrite (bind_run _ _ _ _ _ (get_buf_run _ _ _ Hi)). cbv zeta.
  destruct (block_off _ Hn) as [-> _]. change (negb (ROOTFS_DEV =? ROOTFS_DEV)) with false. cbn iota.
  change (READING =? READING) with true. cbn iota. unfold blk_dev_io_read.
  destruct (dev_count_block f _ Hn Hs) as [E1 E2]. erewrite bind_run by (rewrite E1, E2; reflexivity). cbn iota.
  destruct (upd_buf_only f i b (fun x => x <| block ::= (fun old => mem_words (disk f) (b_blocknr b * BLOCK_SIZE) BLOCK_SIZE ++
    drop (length (mem_words (disk f) (b_blocknr b * BLOCK_SIZE) BLOCK_SIZE)) old) |>) Hi) as (f' & E & O).
  rewrite (bind_run _ _ _ _ _ E). exists f'. split; [done|].
  assert (Eb : b <| block ::= (fun old => mem_words (disk f) (b_blocknr b * BLOCK_SIZE) BLOCK_SIZE ++
    drop (length (mem_words (disk f) (b_blocknr b * BLOCK_SIZE) BLOCK_SIZE)) old) |> = b <| block := disk_block (disk f) (b_blocknr b) |>).
  { unfold upd, setter; cbn -[mem_words Z.to_nat BLOCK_SIZE]. rewrite length_mem_words, drop_ge by (by rewrite Hl). by rewrite app_nil_r. }
  by rewrite <- Eb.
Qed.

(** The search for a block that is in a buffer already. *)
Lemma find_buf_spec n : forall (t : list block_buffer) i0, 0 <= i0 ->
  match find_buf (length t) i0 t n with
  | Some i => i0 <= i < i0 + alen t /\ exists b, t !! Z.to_nat (i - i0) = Some b /\ b_blocknr b = n
  | None => Forall (fun b => b_blocknr b <> n) t
  end.
Proof.
  unfold alen. induction t as [|b t IH]; intros i0 H0; cbn [find_buf length]; [constructor|].
  destruct (Z.eqb_spec (b_blocknr b) n) as [E|E].
  - split; [lia|]. exists b. by rewrite Z.sub_diag.
  - specialize (IH (i0 + 1)). destruct (find_buf _ _ t n) as [i|]; [|constructor; auto with lia].
    destruct IH as (? & b' & Hb' & Hn); [lia|]. split; [lia|]. exists b'. split; [|done].
    replace (Z.to_nat (i - i0)) with (S (Z.to_nat (i - (i0 + 1)))) by lia. done.
Qed.

Lemma find_buf_cells f n :
  length (buf_table f) = Z.to_nat LRU_LEN ->
  match find_buf (Z.to_nat LRU_LEN) 0 (buf_table f) n with
  | Some i => exists b, aget (buf_table f) i = Some b /\ b_blocknr b = n
  | None => forall (j : nat) c, cells f !! j = Some c -> c_nr c <> n
  end.
Proof.
  intros Hl. rewrite <- Hl. pose proof (find_buf_spec n (buf_table f) 0 ltac:(lia)) as H. destruct (find_buf _ _ _ _) as [i|].
  - destruct H as (Hi & b & Hb & Hn). exists b. rewrite Z.sub_0_r in Hb. unfold aget. by rewrite decide_True by lia.
  - intros j c (b & -> & Hb)%list_lookup_fmap_Some. rewrite Forall_lookup in H. by apply (H j b).
Qed.

Lemma coherent_cell f i b :
  coherent (cells f) (disk f) -> aget (buf_table f) i = Some b -> cell_ok (disk f) (cell_of b).
Proof. intros (_ & Hok & _) Hi%aget_cell. rewrite Forall_lookup in Hok. eauto. Qed.

(** The victim after it was written back, when it was dirty. *)
Definition written_back (b : block_buffer) (d : memory) : memory :=
  if b_dirt b then wr_words d (b_blocknr b * BLOCK_SIZE) (block b) else d.

Lemma write_back_run f i b :
  aget (buf_table f) i = Some b -> cell_ok (disk f) (cell_of b) -> disk_size f = DISK_SIZE ->
  exists f', (if b_dirt b then
       _ ← block_io i ROOTFS_DEV WRITING; upd_buf i (fun x => x <| b_dirt := false |>)
     else mret tt) f = Some (tt, f') /\ only i (b <| b_dirt := false |>) (written_back b (disk f)) f f'.
Proof.
  intros Hi (Hlen & Hnr & _) Hs. pose proof (aget_Some_bound _ _ _ Hi) as Hb. unfold written_back. destruct (b_dirt b) eqn:Ed.
  - destruct (block_io_write f i b Hi Hnr Hs Hlen) as (f1 & E1 & O1). rewrite (bind_run _ _ _ _ _ E1).
    destruct (upd_buf_only f1 i b (fun x => x <| b_dirt := false |>)) as (f2 & E2 & O2); [by eapply only_get|].
    exists f2. split; [exact E2|]. destruct O1 as (T & D & O1'). rewrite D in O2. eapply only_trans; [|exact O2]. by split.
  - exists f. split; [done|]. assert (E : b <| b_dirt := false |> = b) by (destruct b; cbn in Ed; by subst).
    rewrite E. by apply only_refl.
Qed.

(** A block that no buffer holds goes into the buffer [i]. *)
Lemma refill_run f i b n :
  aget (buf_table f) i = Some b -> cell_ok (disk f) (cell_of b) -> disk_size f = DISK_SIZE -> is_block n ->
  exists f' b', (_ ← (if b_dirt b then
         _ ← block_io i ROOTFS_DEV WRITING; upd_buf i (fun x => x <| b_dirt := false |>)
       else mret tt);
     _ ← upd_buf i (fun x => x <| b_blocknr := n |>);
     ret ← block_io i ROOTFS_DEV READING;
     if negb (ret =? BLOCK_SIZE) then _ ← enqueue_buf i; mret None
     else
       _ ← upd_buf i (fun x => x <| b_blocknr := n |> <| bf_next := None |> <| bf_prev := None |>
                                 <| b_dirt := false |> <| b_dev := ROOTFS_DEV |> <| b_count := 1 |>);
       mret (Some i)) f = Some (Some i, f') /\
    only i b' (written_back b (disk f)) f f' /\
    cell_of b' = mkCell (disk_block (written_back b (disk f)) n) n ROOTFS_DEV false.
Proof.
  intros Hi Hok Hs Hn. pose proof (aget_Some_bound _ _ _ Hi) as Hb.
  destruct (write_back_run f i b Hi Hok Hs) as (f1 & E1 & O1). rewrite (bind_run _ _ _ _ _ E1).
  pose proof (only_get _ _ _ _ _ Hb O1) as H1. set (b1 := b <| b_dirt := false |>) in *.
  destruct (upd_buf_only f1 i b1 (fun x => x <| b_blocknr := n |>) H1) as (f2 & E2 & O2). rewrite (bind_run _ _ _ _ _ E2).
  set (b2 := b1 <| b_blocknr := n |>) in *. pose proof O1 as (_ & D1 & S1 & _). rewrite D1 in O2.
  pose proof (only_trans _ _ _ _ _ _ _ _ O1 O2) as O12. pose proof (only_get _ _ _ _ _ Hb O12) as H2.
  destruct O12 as (T2 & D2 & S2 & R2). destruct Hok as (Hlen & _).
  destruct (block_io_read f2 i b2 H2) as (f3 & E3 & O3); [change (b_blocknr b2) with n; unfold is_block in Hn; lia|congruence|exact Hlen|].
  rewrite (bind_run _ _ _ _ _ E3). change (negb (BLOCK_SIZE =? BLOCK_SIZE)) with false. cbn iota. rewrite D2 in O3.
  pose proof (only_trans _ _ _ _ _ _ _ _ (conj T2 (conj D2 (conj S2 R2))) O3) as O123. pose proof (only_get _ _ _ _ _ Hb O123) as H3.
  destruct (upd_buf_only f3 i _ (fun x => x <| b_blocknr := n |> <| bf_next := None |> <| bf_prev := None |>
    <| b_dirt := false |> <| b_dev := ROOTFS_DEV |> <| b_count := 1 |>) H3) as (f4 & E4 & O4).
  rewrite (bind_run _ _ _ _ _ E4). destruct O123 as (T3 & D3 & S3 & R3). rewrite D3 in O4.
  exists f4. eexists. split; [done|]. split.
  - eapply only_trans; [exact (conj T3 (conj D3 (conj S3 R3)))|exact O4].
  - reflexivity.
Qed.

(** Evicting the buffer [i] in favour of block [n] changes no block. *)
Lemma evict_coherent cs d (i : nat) b n :
  coherent cs d -> cs !! i = Some (cell_of b) -> is_block n -> (forall (j : nat) c, cs !! j = Some c -> c_nr c <> n) ->
  let cs' := <[i := mkCell (disk_block (written_back b d) n) n ROOTFS_DEV false]> cs in
  coherent cs' (written_back b d) /\ (forall m, m <> 0 -> cview cs' (written_back b d) m = cview cs d m).
Proof.
  intros Hc Hi Hn Hfree. pose proof Hc as (_ & Hok & Hd). rewrite Forall_lookup in Hok.
  destruct (Hok _ _ Hi) as (Hlen & Hnr & Hdirt & Hclean). cbn in *. unfold is_block in Hn.
  assert (Hd' : forall m, m <> b_blocknr b -> disk_block (written_back b d) m = disk_block d m).
  { intros m Hm. unfold written_back. destruct (b_dirt b); [|done]. rewrite disk_block_wr by done. by rewrite decide_False. }
  edestruct (coherent_replace cs d (written_back b d) i (cell_of b) (mkCell (disk_block (written_back b d) n) n ROOTFS_DEV false)) as [Hc' Hv];
    [done..| | | |intros m _ Hm; by apply Hd'|].
  - split; [apply length_mem_words|]. by split; [cbn; lia|split; [split|]].
  - cbn. lia.
  - intros j c0 Hj _. by apply (Hfree j).
  - split; [done|]. intros m Hm. rewrite Hv by done. cbn. case_decide as E; [|case_decide as E']; [| |done].
    + subst. rewrite Hd' by (intros E; by apply (Hfree _ _ Hi)). by rewrite cview_miss.
    + subst. rewrite (cview_hit _ _ i (cell_of b)) by done. cbn. unfold written_back. destruct (b_dirt b) eqn:Ed.
      * rewrite disk_block_wr by done. by rewrite decide_True.
      * symmetry. by apply Hclean.
Qed.

(** What a client gets that asks for block [n]: a buffer with its contents, off
    the list; no block changes. *)
Definition got (f : fsst) (l : list Z) (n i : Z) (f' : fsst) : Prop :=
  exists l', cache_rep f' l' /\ l ≡ₚ i :: l' /\ (forall m, m <> 0 -> view_of f' m = view_of f m) /\
    exists b, aget (buf_table f') i = Some b /\ b_blocknr b = n /\ block b = view_of f n /\ b_dev b = ROOTFS_DEV.

Lemma get_hit f l n i b :
  cache_rep f l -> is_block n -> aget (buf_table f) i = Some b -> b_blocknr b = n -> i ∈ l ->
  exists f', (_ ← rm_lru i; _ ← upd_buf i (fun x => x <| b_count ::= Z.succ |>); mret (Some i)) f = Some (Some i, f') /\ got f l n i f'.
Proof.
  intros (Hl & Hc & Hs) Hn Hb Hbn (l1 & l2 & ->)%list_elem_of_split.
  destruct (rm_lru_spec _ _ _ _ Hl) as (f1 & E1 & L1 & (C1 & D1 & S1 & A1)). rewrite (bind_run _ _ _ _ _ E1).
  pose proof (aget_Some_bound _ _ _ Hb) as Hi. destruct (aget_in (buf_table f1) i) as [b1 Hb1]; [by rewrite A1|].
  destruct (upd_buf_only f1 i b1 (fun x => x <| b_count ::= Z.succ |>) Hb1) as (f2 & E2 & O2). rewrite (bind_run _ _ _ _ _ E2).
  pose proof (aget_cell _ _ _ Hb) as Cb. pose proof (aget_cell _ _ _ Hb1) as Cb1. rewrite C1, Cb in Cb1. injection Cb1 as B1 B2 B3 B4.
  assert (C2 : cells f2 = cells f).
  { rewrite (cells_only _ _ _ _ _ O2), C1. apply list_insert_id. rewrite Cb. unfold cell_of. by rewrite B1, B2, B3, B4. }
  pose proof O2 as (T2 & D2 & S2 & _). pose proof (lru_NoDup _ _ Hl) as (_ & Hn1 & [Hn2 _]%NoDup_cons)%NoDup_app.
  exists f2. split; [done|]. exists (l1 ++ l2). split; [split; [|split]|].
  - eapply lru_rep_only; [by rewrite A1|exact O2| |exact L1]. intros [Hx|Hx]%elem_of_app; [|done]. by apply (Hn1 i Hx); left.
  - by rewrite C2, D2, D1.
  - congruence.
  - split; [by rewrite Permutation_middle|]. split; [intros m _; unfold view_of; by rewrite C2, D2, D1|].
    exists (b1 <| b_count ::= Z.succ |>). split; [eapply only_get; [by rewrite A1|exact O2]|].
    change (b_blocknr b1 = n /\ block b1 = view_of f n /\ b_dev b1 = ROOTFS_DEV).
    rewrite <- B1, <- B2, <- B3. assert (n <> 0) by (unfold is_block in Hn; lia). split; [done|]. split.
    + pose proof Hc as (_ & _ & Hd). symmetry. apply (cview_hit _ _ (Z.to_nat i) (cell_of b)); [done|done|done|done].
    + destruct (coherent_cell _ _ _ Hc Hb) as (_ & _ & [_ Hdev] & _). apply Hdev. cbn. by rewrite Hbn.
Qed.

(** When the block is not in a buffer, one more buffer must stay on the list:
    [dequeue_buf] does not move [lru_front]. *)
Lemma get_miss f l n :
  cache_rep f l -> is_block n -> (2 <= length l)%nat -> find_buf (Z.to_nat LRU_LEN) 0 (buf_table f) n = None ->
  (forall (j : nat) c, cells f !! j = Some c -> c_nr c <> n) ->
  exists i f', get_block_buffer n ROOTFS_DEV f = Some (Some i, f') /\ got f l n i f'.
Proof.
  intros (Hl & Hc & Hs) Hn Hlen Hfind Hf. unfold get_block_buffer. rewrite (bind_run _ _ f f f), Hfind by done.
  destruct l as [|i l]; [cbn in Hlen; lia|]. assert (Hne : l <> []) by (intros ->; cbn in Hlen; lia).
  destruct (dequeue_buf_spec _ _ _ Hl Hne) as (f1 & E1 & L1 & (C1 & D1 & S1 & A1)). rewrite (bind_run _ _ _ _ _ E1). cbn iota.
  assert (Hi : 0 <= i < alen (buf_table f)) by (eapply lru_bound; [done|set_solver]).
  rewrite <- A1 in Hi. destruct (aget_in _ _ Hi) as [b Hb]. rewrite (bind_run _ _ _ _ _ (get_buf_run _ _ _ Hb)).
  rewrite <- C1, <- D1 in Hc. pose proof (coherent_cell _ _ _ Hc Hb) as Hcell.
  destruct (refill_run f1 i b n Hb Hcell) as (f2 & b2 & E2 & O2 & Cb2); [congruence|done|].
  rewrite E2. exists i, f2. split; [done|]. exists l. apply lru_NoDup in Hl as [Hil _]%NoDup_cons.
  pose proof (cells_only _ _ _ _ _ O2) as C2. pose proof O2 as (T2 & D2 & S2 & _). pose proof (aget_cell _ _ _ Hb) as Cb.
  rewrite <- C1 in Hf. destruct (evict_coherent _ _ _ _ n Hc Cb Hn Hf) as [Hc' Hv].
  rewrite <- Cb2, <- C2, <- D2 in Hc'. split; [split; [eapply lru_rep_only; eauto|split; [done|congruence]]|].
  assert (Hview : forall m, m <> 0 -> view_of f2 m = view_of f m).
  { intros m Hm. unfold view_of. rewrite C2, D2, Cb2, Hv by done. by rewrite C1, D1. }
  split; [done|]. split; [done|]. exists b2. pose proof (only_get _ _ _ _ _ Hi O2) as Hb2. split; [done|].
  destruct Hc' as (_ & _ & Hd'). assert (n <> 0) by (unfold is_block in Hn; lia). rewrite <- Hview by done.
  injection Cb2 as B1 B2 B3 B4. split; [done|]. split; [|done].
  symmetry. by apply (cview_hit _ _ (Z.to_nat i) (cell_of b2)); [|apply aget_cell| |].
Qed.

Lemma get_block_buffer_spec f l n :
  cache_rep f l -> is_block n -> (2 <= length l)%nat ->
  (forall i b, aget (buf_table f) i = Some b -> b_blocknr b = n -> i ∈ l) ->
  exists i f', get_block_buffer n ROOTFS_DEV f = Some (Some i, f') /\ got f l n i f'.
Proof.
  intros Hc Hn Hlen Hfree. pose proof Hc as (_ & (Hlc & _) & _). unfold cells in Hlc. rewrite length_fmap in Hlc.
  pose proof (find_buf_cells f n Hlc) as Hf. destruct (find_buf _ _ _ _) as [i|] eqn:Ef; [|by apply (get_miss f l)].
  destruct Hf as (b & Hb & Hbn). destruct (get_hit f l n i b) as (f' & E & G); [done..|by eapply Hfree|].
  exists i, f'. split; [|done]. unfold get_block_buffer. by rewrite (bind_run _ _ f f f), Ef by done.
Qed.


(** ** Putting a block back, and flushing *)
Lemma lru_rep_links f f' i b b' d l :
  aget (buf_table f) i = Some b -> only i b' d f f' -> bf_next b' = bf_next b -> bf_prev b' = bf_prev b ->
  lru_rep f l -> lru_rep f' l.
Proof.
  intros Hb (T & _ & _ & R & Fr) En Ep (Hn & Hp & Hf). pose proof (aget_Some_bound _ _ _ Hb) as Hi.
  rewrite <- R in Hn. rewrite <- Fr in Hp. split; [|split].
  - eapply seg_ext; [|exact Hn]. intros j. unfold bnext. rewrite T, link_insert by done. case_decide; [|done].
    subst. by rewrite Hb.
  - eapply seg_ext; [|exact Hp]. intros j. unfold bprev. rewrite T, link_insert by done. case_decide; [|done].
    subst. by rewrite Hb.
  - by rewrite T, alen_insert.
Qed.

Lemma put_block_buffer_spec f l i :
  lru_rep f l -> l <> [] -> i ∉ l -> 0 <= i < alen (buf_table f) ->
  exists f', put_block_buffer i f = Some (OK, f') /\ lru_rep f' (l ++ [i]) /\ same_data f f'.
Proof.
  intros Hl Hne Hil Hi. unfold put_block_buffer.
  destruct (enqueue_buf_spec f l i) as (f1 & E1 & L1 & D1); [done..|]. rewrite (bind_run _ _ _ _ _ E1).
  pose proof D1 as (_ & _ & _ & A1). rewrite <- A1 in Hi. destruct (aget_in _ _ Hi) as [b Hb].
  eexists. split; [by rewrite (bind_run _ _ _ _ _ (upd_buf_run _ _ _ _ Hb))|].
  split; [|eapply same_data_trans; [exact D1|by eapply same_data_upd]].
  by eapply (lru_rep_links f1 _ i b).
Qed.

Lemma cache_rep_put f l i :
  cache_rep f l -> l <> [] -> i ∉ l -> 0 <= i < alen (buf_table f) ->
  exists f', put_block_buffer i f = Some (OK, f') /\ cache_rep f' (l ++ [i]) /\ view_of f' = view_of f.
Proof.
  intros (Hl & Hc & Hs) Hne Hil Hi. destruct (put_block_buffer_spec f l i) as (f' & E & L & (C & D & S & A)); [done..|].
  exists f'. split; [done|]. unfold cache_rep, view_of. rewrite C, D, S. done.
Qed.

(** New contents for the buffer [i] in use, put back dirty. *)
Lemma put_dirt_spec f l i b ws :
  cache_rep f l -> l <> [] -> i ∉ l -> aget (buf_table f) i = Some b -> is_block (b_blocknr b) -> b_dev b = ROOTFS_DEV ->
  length ws = Z.to_nat BLOCK_SIZE ->
  exists f', (_ ← upd_buf i (fun x => x <| block := ws |>); _ ← put_block_buffer_dirt i; mret ([] : list Z)) f = Some ([], f') /\
    cache_rep f' (l ++ [i]) /\ forall m, m <> 0 -> view_of f' m = if decide (m = b_blocknr b) then ws else view_of f m.
Proof.
  intros (Hl & Hc & Hs) Hne Hil Hb Hn Hdev Hws. pose proof (aget_Some_bound _ _ _ Hb) as Hi.
  destruct (upd_buf_only f i b (fun x => x <| block := ws |>) Hb) as (f1 & E1 & O1). rewrite (bind_run _ _ _ _ _ E1).
  pose proof (only_get _ _ _ _ _ Hi O1) as Hb1.
  destruct (upd_buf_only f1 i _ (fun x => x <| b_dirt := true |>) Hb1) as (f2 & E2 & O2).
  pose proof O1 as (_ & D1 & _). rewrite D1 in O2. pose proof (only_trans _ _ _ _ _ _ _ _ O1 O2) as O.
  pose proof O as (T & D & S & _). assert (A : alen (buf_table f2) = alen (buf_table f)) by by rewrite T, alen_insert.
  assert (Hn0 : b_blocknr b <> 0) by (unfold is_block in Hn; lia).
  destruct (coherent_replace (cells f) (disk f) (disk f) (Z.to_nat i) (cell_of b) (mkCell ws (b_blocknr b) ROOTFS_DEV true)) as [Hc' Hv];
    [done|by apply aget_cell|split; [done|split; [unfold is_block in Hn; cbn; lia|done]]|done| |done|].
  { intros j c0 Hj Hji E. apply Hji. destruct Hc as (_ & _ & Hd). by eapply Hd; [|apply aget_cell| |]; [|exact Hb|by rewrite E|by rewrite E]. }
  assert (C : cells f2 = <[Z.to_nat i := mkCell ws (b_blocknr b) ROOTFS_DEV true]> (cells f)).
  { rewrite (cells_only _ _ _ _ _ O). f_equal. rewrite <- Hdev. done. }
  destruct (cache_rep_put f2 l i) as (f3 & E3 & C3 & V3); [|done|done|by rewrite A|].
  { split; [by eapply lru_rep_only|]. rewrite C, D, S. done. }
  exists f3. split; [|split; [done|]].
  - unfold put_block_buffer_dirt. erewrite bind_run; [done|]. by rewrite (bind_run _ _ _ _ _ E2).
  - intros m Hm. rewrite V3. unfold view_of. rewrite C, D, Hv by done. cbn. by case_decide.
Qed.

(** One step of [flush_loop]: the buffer is clean afterwards, its links and
    every block are what they were. *)
Lemma flush_step f l i b :
  cache_rep f l -> aget (buf_table f) i = Some b ->
  exists f', (if true && b_dirt b then
      _ ← block_io i (b_dev b) WRITING; upd_buf i (fun x => x <| b_dirt := false |>)
    else mret tt) f = Some (tt, f') /\
    cache_rep f' l /\ (forall m, m <> 0 -> view_of f' m = view_of f m) /\
    cells f' = <[Z.to_nat i := mkCell (block b) (b_blocknr b) (b_dev b) false]> (cells f).
Proof.
  intros (Hl & Hc & Hs) Hb. cbn [andb]. pose proof (aget_Some_bound _ _ _ Hb) as Hi.
  pose proof (coherent_cell _ _ _ Hc Hb) as Hcell. pose proof (aget_cell _ _ _ Hb) as Cb.
  pose proof Hcell as (Hlen & Hnr & [Hdirt Hdev] & _). cbn in *.
  destruct (write_back_run f i b Hb Hcell Hs) as (f1 & E1 & O1). pose proof (cells_only _ _ _ _ _ O1) as C1.
  change (cell_of (b <| b_dirt := false |>)) with (mkCell (block b) (b_blocknr b) (b_dev b) false) in C1.
  exists f1. destruct (b_dirt b) eqn:Ed.
  - rewrite Hdev by auto. split; [done|]. specialize (Hdirt eq_refl). specialize (Hdev Hdirt).
    unfold written_back in O1. rewrite Ed in O1. pose proof O1 as (T & D & S & R & Fr).
    destruct (coherent_replace (cells f) (disk f) (disk f1) (Z.to_nat i) (cell_of b) (mkCell (block b) (b_blocknr b) (b_dev b) false)) as [Hc' Hv].
    + done.
    + done.
    + split; [done|split; [done|split; [done|]]]. intros _ _. cbn. rewrite D, disk_block_wr by done. by rewrite decide_True.
    + done.
    + intros j c0 Hj Hji E. apply Hji. destruct Hc as (_ & _ & Hd). by eapply Hd; [|exact Cb| |]; [|exact E|rewrite E].
    + intros m _ Hm. rewrite D, disk_block_wr by done. by rewrite decide_False.
    + rewrite <- C1 in Hc', Hv. split; [split; [|split; [done|congruence]]|split; [|by rewrite <- Hdev at 1]].
      * by eapply (lru_rep_links f f1 i b).
      * intros m Hm. unfold view_of. rewrite Hv by done. cbn. case_decide as Em; [|done]. subst.
        symmetry. apply (cview_hit _ _ (Z.to_nat i) (cell_of b)); [|done..]. apply Hc.
  - split; [done|]. injection E1 as <-. split; [done|]. by rewrite C1 at 1.
Qed.

Definition clean_upto (f : fsst) (k : Z) : Prop :=
  forall i b, aget (buf_table f) i = Some b -> i < k -> b_dirt b = false.

Lemma flush_loop_spec n : forall f l k, cache_rep f l -> clean_upto f k -> 0 <= k -> k + Z.of_nat n = LRU_LEN ->
  exists f', flush_loop (seqZ k (Z.of_nat n)) (fun _ => true) b_dev f = Some (tt, f') /\
    cache_rep f' l /\ (forall m, m <> 0 -> view_of f' m = view_of f m) /\ clean_upto f' LRU_LEN.
Proof.
  induction n as [|n IH]; intros f l k Hr Hcl Hk Hn.
  { exists f. split; [done|]. split; [done|]. split; [done|]. by replace LRU_LEN with k by lia. }
  rewrite seqZ_cons by lia. cbn [flush_loop]. replace (Z.pred (Z.of_nat (S n))) with (Z.of_nat n) by lia.
  pose proof Hr as (_ & (Hlen & _) & _). unfold cells in Hlen. rewrite length_fmap in Hlen.
  destruct (aget_in (buf_table f) k) as [b Hb]; [unfold alen; rewrite Hlen; lia|].
  rewrite (bind_run _ _ _ _ _ (get_buf_run _ _ _ Hb)). destruct (flush_step f l k b Hr Hb) as (f1 & E1 & R1 & V1 & C1).
  rewrite (bind_run _ _ _ _ _ E1). destruct (IH f1 l (Z.succ k) R1) as (f2 & E2 & R2 & V2 & Cl2); [|lia..|].
  - intros i b1 Hi Hik. pose proof (aget_Some_bound _ _ _ Hi) as Hbd. apply aget_cell in Hi. rewrite C1 in Hi.
    apply list_lookup_insert_Some in Hi as [(_ & [= _ _ _ <-] & _)|[Hne Hi]]; [done|].
    apply list_lookup_fmap_Some in Hi as (b0 & Eb & Hi). injection Eb as _ _ _ ->. apply (Hcl i); [|lia].
    unfold aget. by rewrite decide_True by lia.
  - exists f2. split; [done|]. split; [done|]. split; [|done]. intros m Hm. by rewrite V2, V1.
Qed.

(** A disk whose buffers are all clean is what the clients see. *)
Lemma clean_view f l m : cache_rep f l -> clean_upto f LRU_LEN -> m <> 0 -> disk_block (disk f) m = view_of f m.
Proof.
  intros (_ & (Hl & Hok & Hd) & _) Hcl Hm. unfold view_of. destruct (claims (cells f) m) as [(i & c & Hi & Hc)|Hno].
  - rewrite (cview_hit _ _ i c) by done. rewrite Forall_lookup in Hok. destruct (Hok _ _ Hi) as (_ & _ & _ & Heq).
    apply lookup_lt_Some in Hi as Hlt. rewrite Hl in Hlt. apply list_lookup_fmap_Some in Hi as (b & -> & Hi).
    cbn in *. rewrite Heq; [by rewrite Hc| |by rewrite Hc].
    apply (Hcl (Z.of_nat i)); [|unfold LRU_LEN in *; lia]. unfold aget. by rewrite decide_True, Nat2Z.id by lia.
  - by rewrite cview_miss.
Qed.

Definition free_list (l : list Z) : Prop := l ≡ₚ seqZ 0 LRU_LEN.

(** A client takes a block while every buffer is on the list. *)
Lemma take_block f l n :
  cache_rep f l -> free_list l -> is_block n ->
  exists i f1 l1, get_block n ROOTFS_DEV f = Some (i, f1) /\ cache_rep f1 l1 /\
    l1 <> [] /\ i ∉ l1 /\ free_list (l1 ++ [i]) /\ (forall m, m <> 0 -> view_of f1 m = view_of f m) /\
    exists b, aget (buf_table f1) i = Some b /\ b_blocknr b = n /\ block b = view_of f n /\ b_dev b = ROOTFS_DEV.
Proof.
  unfold free_list. intros Hr Hfl Hn. pose proof Hr as (_ & (Hlen & _) & _). unfold cells in Hlen. rewrite length_fmap in Hlen.
  destruct (get_block_buffer_spec f l n) as (i & f1 & E & l1 & R1 & P1 & V1 & B1); [done|done|..].
  - rewrite Hfl, length_seqZ. unfold LRU_LEN. lia.
  - intros i b Hi%aget_Some_bound _. rewrite Hfl. apply elem_of_seqZ. unfold alen in Hi. rewrite Hlen in Hi. unfold LRU_LEN in *. lia.
  - exists i, f1, l1. split; [unfold get_block; by rewrite (bind_run _ _ _ _ _ E)|]. split; [done|].
    rewrite Hfl in P1. split; [|split; [|split; [|done]]].
    + intros ->. apply Permutation_length in P1. done.
    + pose proof (NoDup_seqZ 0 LRU_LEN) as Hnd. rewrite P1 in Hnd. by apply NoDup_cons in Hnd as [? _].
    + by rewrite <- Permutation_cons_append.
Qed.

(** One request, from a state with every buffer on the list. *)
Lemma bserve_spec f l r :
  cache_rep f l -> free_list l -> breq_ok r ->
  exists f' l', bserve r f = Some ((astep (view_of f) r).1, f') /\ cache_rep f' l' /\ free_list l' /\
    (forall m, is_block m -> view_of f' m = (astep (view_of f) r).2 m) /\
    (r = BSync -> clean_upto f' LRU_LEN).
Proof.
  intros Hr Hfl Hok.
  destruct r as [n|n ws|]; cbn [bserve astep fst snd breq_ok] in *.
  - destruct (take_block f l n Hr Hfl Hok) as (i & f1 & l1 & E1 & R1 & Hne & Hi & Hf & V1 & b & Hb & Hbn & Hbl & _).
    rewrite (bind_run _ _ _ _ _ E1), (bind_run _ _ _ _ _ (get_buf_run _ _ _ Hb)).
    destruct (cache_rep_put f1 l1 i) as (f2 & E2 & R2 & V2); [done..|by eapply aget_Some_bound|].
    rewrite (bind_run _ _ _ _ _ E2), Hbl. exists f2, (l1 ++ [i]). split; [done|]. split; [done|]. split; [done|].
    split; [|done]. intros m Hm. rewrite V2. apply V1. unfold is_block in Hm. lia.
  - destruct Hok as [Hn Hws]. destruct (take_block f l n Hr Hfl Hn) as (i & f1 & l1 & E1 & R1 & Hne & Hi & Hf & V1 & b & Hb & Hbn & _ & Hdev).
    rewrite (bind_run _ _ _ _ _ E1). destruct (put_dirt_spec f1 l1 i b ws) as (f2 & E2 & R2 & V2); [done..|by rewrite Hbn|done|done|].
    exists f2, (l1 ++ [i]). split; [exact E2|]. split; [done|]. split; [done|]. split; [|done].
    intros m Hm. unfold is_block in Hm. rewrite V2, Hbn by lia. case_decide; [done|]. apply V1. lia.
  - destruct (flush_loop_spec 4 f l 0) as (f1 & E1 & R1 & V1 & C1); [done|intros i b Hi%aget_Some_bound; lia|done|done|].
    exists f1, l. split; [|split; [done|split; [done|split; [|done]]]].
    + unfold flush_all_buffer. erewrite bind_run; [done|]. by erewrite bind_run by exact E1.
    + intros m Hm. apply V1. unfold is_block in Hm. lia.
Qed.

Lemma astep_ext v v' r : (forall m, is_block m -> v' m = v m) -> breq_ok r ->
  (astep v' r).1 = (astep v r).1 /\ forall m, is_block m -> (astep v' r).2 m = (astep v r).2 m.
Proof.
  intros Hv Hr. destruct r; cbn in *; [auto| |auto]. split; [done|]. intros m Hm. case_decide; auto.
Qed.

Lemma arun_cons v r rs : arun v (r :: rs) = ((astep v r).1 :: (arun (astep v r).2 rs).1, (arun (astep v r).2 rs).2).
Proof. cbn. destruct (astep v r) as [x v']. cbn. by destruct (arun v' rs). Qed.

Lemma bserves_spec rs : forall f l v,
  cache_rep f l -> free_list l -> Forall breq_ok rs -> (forall m, is_block m -> view_of f m = v m) ->
  exists f' l', bserves rs f = Some ((arun v rs).1, f') /\ cache_rep f' l' /\ free_list l' /\
    (forall m, is_block m -> view_of f' m = (arun v rs).2 m) /\
    (last rs = Some BSync -> clean_upto f' LRU_LEN).
Proof.
  induction rs as [|r rs IH]; intros f l v Hr Hfl Hok Hv; [by exists f, l|].
  apply Forall_cons in Hok as [Hok Hoks]. rewrite arun_cons. cbn [bserves fst snd].
  destruct (bserve_spec f l r Hr Hfl Hok) as (f1 & l1 & E1 & R1 & F1 & V1 & S1). rewrite (bind_run _ _ _ _ _ E1).
  destruct (astep_ext v (view_of f) r Hv Hok) as [Ex Ev]. rewrite Ex.
  destruct (IH f1 l1 (astep v r).2) as (f2 & l2 & E2 & R2 & F2 & V2 & S2); [done..| |].
  - intros m Hm. by rewrite V1, Ev.
  - rewrite (bind_run _ _ _ _ _ E2). exists f2, l2. split; [done|]. split; [done|]. split; [done|]. split; [done|].
    destruct rs as [|r' rs]; [|by rewrite last_cons_cons]. cbn. injection E2 as <-. intros [= ->]. by apply S1.
Qed.

(** ** The start *)
Definition zero_block : list Z := replicate (Z.to_nat BLOCK_SIZE) 0.

Definition start_bufs : list block_buffer :=
  [ mkBuf zero_block None (Some 1) 0 0 false 0; mkBuf zero_block (Some 0) (Some 2) 0 0 false 0;
    mkBuf zero_block (Some 1) (Some 3) 0 0 false 0; mkBuf zero_block (Some 2) None 0 0 false 0 ].

Lemma init_buf_run f :
  length (buf_table f) = Z.to_nat LRU_LEN ->
  exists f', init_buf f = Some (tt, f') /\ buf_table f' = start_bufs /\ disk f' = disk f /\ disk_size f' = disk_size f /\
    lru_rear f' = Some 0 /\ lru_front f' = Some 3.
Proof.
  intros Hl. destruct f as [fd it iam bt lf lr sb d ds at_]. cbn in Hl.
  destruct bt as [|b0 [|b1 [|b2 [|b3 [|]]]]]; try done.
  exists (mkFs fd it iam start_bufs (Some 3) (Some 0) sb d ds at_). split; [reflexivity|done].
Qed.

Lemma start_rep f :
  buf_table f = start_bufs -> lru_rear f = Some 0 -> lru_front f = Some 3 -> disk_size f = DISK_SIZE ->
  cache_rep f (seqZ 0 LRU_LEN) /\ forall m, m <> 0 -> view_of f m = disk_block (disk f) m.
Proof.
  intros Ht Hr Hf Hs. assert (Hz : length zero_block = Z.to_nat BLOCK_SIZE) by apply length_replicate.
  assert (Hn : forall (i : nat) c, cells f !! i = Some c -> c_nr c = 0 /\ c_block c = zero_block /\ c_dirt c = false).
  { intros i c (b & -> & Hb)%list_lookup_fmap_Some. rewrite Ht in Hb. unfold start_bufs in Hb. do 4 (destruct i as [|i]; [by injection Hb as <-|]). done. }
  split; [split; [|split; [|done]]|].
  - unfold lru_rep. rewrite Ht, Hr, Hf. split; [|split]; [by repeat split..|]. repeat constructor; done.
  - split; [unfold cells; by rewrite length_fmap, Ht|]. split.
    + apply Forall_lookup. intros i c Hi. destruct (Hn i c Hi) as (En & Eb & Ed). unfold cell_ok. rewrite En, Eb, Ed. done.
    + intros i j c c' Hi _ _ H0. by destruct (Hn i c Hi).
  - intros m Hm. apply cview_miss. intros i c Hi. destruct (Hn i c Hi) as [-> _]. done.
Qed.

(** C3: the block cache refines an array of blocks.  After [init_buf], any sequence
    of reads, writes and flushes of the blocks 1 to 49 terminates without a crash and
    answers as if the requests went to an array that starts as the disk, whatever
    buffers are reused; after a final flush the disk is that array. *)
Theorem block_cache_transparent f rs :
  length (buf_table f) = Z.to_nat LRU_LEN -> disk_size f = DISK_SIZE -> Forall breq_ok rs ->
  exists f', (_ ← init_buf; bserves rs) f = Some ((arun (disk_block (disk f)) rs).1, f') /\
    (forall n, is_block n -> view_of f' n = (arun (disk_block (disk f)) rs).2 n) /\
    (last rs = Some BSync -> forall n, is_block n -> disk_block (disk f') n = (arun (disk_block (disk f)) rs).2 n).
Proof.
  intros Hl Hs Hok. destruct (init_buf_run f Hl) as (f1 & E1 & T & D & S & R & Fr). rewrite (bind_run _ _ _ _ _ E1).
  destruct (start_rep f1) as [R1 V1]; [done..|congruence|]. rewrite <- D.
  destruct (bserves_spec rs f1 (seqZ 0 LRU_LEN) (disk_block (disk f1))) as (f2 & l2 & E2 & R2 & _ & V2 & S2);
    [done|by unfold free_list|done|intros m Hm; apply V1; unfold is_block in Hm; lia|].
  exists f2. split; [done|]. split; [done|]. intros Hlast n Hn. rewrite <- V2 by done.
  apply (clean_view f2 l2); [done|by apply S2|unfold is_block in Hn; lia].
Qed.

(** Six blocks through four buffers. *)
Definition cache_sample : fsst :=
  mkFs [] [] [] (replicate 4 (mkBuf [] None None 0 0 false 0)) None None (mkSb 0 0 0 0 0 0 0 0 0 0 0 0 0 0 0 0 0) (fun a => a) DISK_SIZE (buf_at sample_fs).

Lemma block_cache_transparent_witness :
  exists f', (_ ← init_buf; bserves [BWrite 1 zero_block; BWrite 2 zero_block; BRead 3; BRead 4; BRead 5; BRead 1; BSync]) cache_sample =
      Some ([[]; []; disk_block (fun a => a) 3; disk_block (fun a => a) 4; disk_block (fun a => a) 5; zero_block; []], f') /\
    disk_block (disk f') 2 = zero_block.
Proof.
  assert (Hz : length zero_block = Z.to_nat BLOCK_SIZE) by apply length_replicate.
  destruct (block_cache_transparent cache_sample [BWrite 1 zero_block; BWrite 2 zero_block; BRead 3; BRead 4; BRead 5; BRead 1; BSync])
    as (f' & E & _ & D); [reflexivity|reflexivity| |].
  - do 2 (apply Forall_cons; split; [split; [by split|exact Hz]|]). do 4 (apply Forall_cons; split; [by split|]). by apply Forall_cons.
  - exists f'. split; [eapply eq_trans; [exact E|vm_compute; reflexivity]|].
    eapply eq_trans; [apply D; [reflexivity|by split]|vm_compute; reflexivity].
Defined.
