(* ===== verification/Blocks.v ===== *)
(** * Blocks through the cache, for the layers above

    What the users of the block cache rely on: its operations leave the tables of
    the file system alone, and taking a block, changing it and putting it back
    changes that block and no other. *)
From S2P Require Import Prelude Linked Kernel Cache Coherence.

(** ** The cache does not touch the tables of the file system *)
Record tables_kept (f f' : fsst) : Prop := {
  tk_files : fd_table f' = fd_table f;
  tk_inodes : inode_table f' = inode_table f;
  tk_super : root_sb f' = root_sb f;
  tk_at : buf_at f' = buf_at f;
  tk_arch : inode_arch_map f' = inode_arch_map f
}.

Lemma tables_kept_refl f : tables_kept f f.
Proof. done. Qed.

Lemma tables_kept_trans f1 f2 f3 : tables_kept f1 f2 -> tables_kept f2 f3 -> tables_kept f1 f3.
Proof. intros [] []. split; congruence. Qed.

Definition keeps {A} (c : F A) : Prop := forall f a f', c f = Some (a, f') -> tables_kept f f'.

Create HintDb keeps.

Lemma keeps_ret {A} (a : A) : keeps (mret a).
Proof. intros f b f' [= _ <-]. done. Qed.

Lemma keeps_bind {A B} (c : F A) (g : A -> F B) : keeps c -> (forall a, keeps (g a)) -> keeps (c ≫= g).
Proof.
  intros Hc Hg f b f' (a & f1 & E1 & E2)%bind_Some. eapply tables_kept_trans; [by eapply Hc|by eapply Hg].
Qed.

Lemma keeps_getS : keeps getS.
Proof. by intros f a f' [= _ <-]. Qed.

Lemma keeps_liftO {A} (o : option A) : keeps (liftO o).
Proof. intros f a f'. unfold liftO. destruct o; [|done]. by intros [= _ <-]. Qed.

Lemma keeps_crash {A} : keeps (crash : F A).
Proof. done. Qed.

Lemma keeps_get_buf i : keeps (get_buf i).
Proof. intros f a f'. unfold get_buf. apply keeps_liftO. Qed.

Lemma keeps_upd_buf i g : keeps (upd_buf i g).
Proof. intros f a f'. unfold upd_buf. repeat case_match; try done. by intros [= _ <-]. Qed.

Lemma keeps_rear v : keeps (modifyS (fun f => f <| lru_rear := v |>)).
Proof. by intros f a f' [= _ <-]. Qed.

Lemma keeps_front v : keeps (modifyS (fun f => f <| lru_front := v |>)).
Proof. by intros f a f' [= _ <-]. Qed.

Lemma keeps_dev_read off len : keeps (blk_dev_io_read off len).
Proof. intros f a f'. unfold blk_dev_io_read. case_match; by intros [= _ <-]. Qed.

Lemma keeps_dev_write buf off len : keeps (blk_dev_io_write buf off len).
Proof. intros f a f'. unfold blk_dev_io_write. case_match; by intros [= _ <-]. Qed.

#[export] Hint Resolve keeps_ret keeps_getS keeps_liftO keeps_crash keeps_get_buf keeps_upd_buf keeps_rear keeps_front
  keeps_dev_read keeps_dev_write : keeps.

(** Walk through a function down to the operations of the hint base. *)
Ltac keeps_step :=
  first [ solve [auto with keeps] | apply keeps_bind; [|intros ?]
        | match goal with
          | |- keeps (match ?x with _ => _ end) => destruct x
          | |- keeps (let _ := _ in _) => cbv zeta
          end ].
Ltac keeps_tac := repeat keeps_step.

Lemma keeps_rm_lru i : keeps (rm_lru i).
Proof. unfold rm_lru. keeps_tac. Qed.

Lemma keeps_dequeue_buf : keeps dequeue_buf.
Proof. unfold dequeue_buf. keeps_tac. Qed.

Lemma keeps_enqueue_buf i : keeps (enqueue_buf i).
Proof. unfold enqueue_buf. keeps_tac. Qed.

Lemma keeps_block_io i dev flag : keeps (block_io i dev flag).
Proof. unfold block_io. keeps_tac. Qed.

#[export] Hint Resolve keeps_rm_lru keeps_dequeue_buf keeps_enqueue_buf keeps_block_io : keeps.

Lemma keeps_get_block n dev : keeps (Cache.get_block n dev).
Proof. unfold Cache.get_block, get_block_buffer. keeps_tac. Qed.

Lemma keeps_put i : keeps (put_block_buffer i).
Proof. unfold put_block_buffer. keeps_tac. Qed.

#[export] Hint Resolve keeps_get_block keeps_put : keeps.

Lemma keeps_put_dirt i : keeps (put_block_buffer_dirt i).
Proof. unfold put_block_buffer_dirt. keeps_tac. Qed.

(** ** Taking a block and putting it back *)
Lemma view_length f l n : cache_rep f l -> is_block n -> length (view_of f n) = Z.to_nat BLOCK_SIZE.
Proof.
  intros (_ & (_ & Hok & Hd) & _) Hn. unfold view_of. destruct (claims (cells f) n) as [(j & c & Hj & Hc)|Hno].
  - rewrite (cview_hit _ _ j c) by (done || (unfold is_block in Hn; lia)). rewrite Forall_lookup in Hok. by destruct (Hok _ _ Hj).
  - rewrite cview_miss by done. apply length_mem_words.
Qed.

(** The cache operations of a write to a block, and of a read. *)
Lemma write_block_run f l n blk :
  cache_rep f l -> free_list l -> is_block n -> length blk = Z.to_nat BLOCK_SIZE ->
  exists i f1 b f2 r f3 l3, Cache.get_block n ROOTFS_DEV f = Some (i, f1) /\ get_buf i f1 = Some (b, f1) /\ block b = view_of f n /\
    upd_buf i (fun x => x <| block := blk |>) f1 = Some (tt, f2) /\ put_block_buffer_dirt i f2 = Some (r, f3) /\
    cache_rep f3 l3 /\ free_list l3 /\ tables_kept f f3 /\
    (forall m, m <> 0 -> view_of f3 m = if decide (m = n) then blk else view_of f m).
Proof.
  intros Hr Hfl Hn Hb. destruct (take_block f l n Hr Hfl Hn) as (i & f1 & l1 & E1 & R1 & Hne & Hi & Hf & V1 & b & Hb1 & Hbn & Hbl & Hdev).
  destruct (put_dirt_spec f1 l1 i b blk) as (f3 & E3 & R3 & V3); [done..|by rewrite Hbn|done|done|].
  pose proof E3 as ([] & f2 & Eu & E3')%bind_Some. apply bind_Some in E3' as (r & f3' & Ep & [= ->]).
  exists i, f1, b, f2, r, f3, (l1 ++ [i]). split; [done|]. split; [by apply get_buf_run|]. split; [done|]. split; [done|].
  split; [done|]. split; [done|]. split; [done|]. split.
  - eapply tables_kept_trans; [exact (keeps_get_block _ _ _ _ _ E1)|].
    eapply tables_kept_trans; [exact (keeps_upd_buf _ _ _ _ _ Eu)|exact (keeps_put_dirt _ _ _ _ Ep)].
  - intros m Hm. rewrite V3, Hbn by done. case_decide; [done|by apply V1].
Qed.

Lemma read_block_run f l n :
  cache_rep f l -> free_list l -> is_block n ->
  exists i f1 b r f2 l2, Cache.get_block n ROOTFS_DEV f = Some (i, f1) /\ get_buf i f1 = Some (b, f1) /\ block b = view_of f n /\
    put_block_buffer i f1 = Some (r, f2) /\ cache_rep f2 l2 /\ free_list l2 /\ tables_kept f f2 /\
    (forall m, m <> 0 -> view_of f2 m = view_of f m).
Proof.
  intros Hr Hfl Hn. destruct (take_block f l n Hr Hfl Hn) as (i & f1 & l1 & E1 & R1 & Hne & Hi & Hf & V1 & b & Hb1 & Hbn & Hbl & Hdev).
  destruct (cache_rep_put f1 l1 i) as (f2 & E2 & R2 & V2); [done..|by eapply aget_Some_bound|].
  exists i, f1, b, OK, f2, (l1 ++ [i]). split; [done|]. split; [by apply get_buf_run|]. do 4 (split; [done|]). split.
  - eapply tables_kept_trans; [exact (keeps_get_block _ _ _ _ _ E1)|exact (keeps_put _ _ _ _ E2)].
  - intros m Hm. rewrite V2. by apply V1.
Qed.
