(* ===== verification/Inode.v ===== *)
(** * fs/inode.c, fs/util.c and the directory walks of fs/path.c

    A [struct inode STAR] is the index of its slot in [inode_table]; NULL is [None].
    A directory block is 1024 words of 33 word entries.  The last entry of the
    loops of the source starts at word 1023: what follows the block in its
    [struct block_buffer] are the two list pointers, as the list left them; any
    other access outside of the block is [None]. *)
From S2P Require Import Prelude Bitmap Linked CString Kernel Cache.

Definition NR_INODES : Z := 48.
Definition INODE_ARC_MAP_LEN : Z := 8.
Definition INODE_DISK_SIZE : Z := 16.
Definition BLOCK_SIZE_WORD : Z := 1024.
Definition ROOT_INODE_NUM : Z := 1.
Definition INODE_MOCK_UTC_TIME : Z := 1587268254.
Definition S_IFMT : Z := 0x170000.
Definition S_IFIFO : Z := 0x10000.
Definition S_IFCHR : Z := 0x20000.
Definition S_IFDIR : Z := 0x40000.
Definition S_IFBLK : Z := 0x60000.
Definition S_IFREG : Z := 0x100000.
Definition S_ISDIR (m : Z) : bool := Z.land m S_IFMT =? S_IFDIR.
Definition F_OK : Z := 0.
Definition W_OK : Z := 2.
Definition DT_CHR : Z := 2.
Definition DT_DIR : Z := 4.
Definition DT_BLK : Z := 6.
Definition DT_REG : Z := 8.
Definition DIRNAME_LEN : Z := 30.
Definition DIRENT_LEN : Z := 32.          (* sizeof(struct dirent) *)
Definition WINIX_DIRENT_LEN : Z := 33.    (* sizeof(struct winix_dirent) *)
Definition NAME_MAX : Z := 32.
Definition PATH_MAX : Z := 128.

Definition geti (i : Z) : F inode_t := fun f => liftO (aget (inode_table f) i) f.
Definition updi (i : Z) (g : inode_t -> inode_t) : F unit := fun f =>
  match aget (inode_table f) i with
  | Some x => match aset (inode_table f) i (g x) with
              | Some t => Some (tt, f <| inode_table := t |>)
              | None => None
              end
  | None => None
  end.

(** ** Slots and access *)
Fixpoint find_free_inode (l : list inode_t) (i : Z) : option Z :=
  match l with
  | [] => None
  | x :: l' => if s32 (i_num x) <=? 0 then Some i else find_free_inode l' (i + 1)
  end.

Definition get_free_inode_slot : F (option Z) :=
  f ← getS;
  match find_free_inode (inode_table f) 0 with
  | Some i => _ ← updi i (fun _ => inode_zero); mret (Some i)
  | None => mret None
  end.

Definition has_file_access (who_uid who_gid : Z) (ino : inode_t) (mode : Z) : bool :=
  if who_uid =? 0 then true
  else if (who_uid =? i_uid ino) && has (Z.shiftl mode 8) (i_mode ino) then true
  else if (who_gid =? i_gid ino) && has (Z.shiftl mode 4) (i_mode ino) then true
  else has mode (i_mode ino).

Definition is_valid_inode_num (num dev : Z) : F bool :=
  sb ← get_sb dev;
  if (num <=? 0) || (num >=? NR_INODES) then mret false
  else mret (num <=? s_inode_per_block sb * (s_inode_table_size sb / BLOCK_SIZE)).

(** A bitmap operation on the words of a buffer. *)
Definition on_bitmap (b : Z) (g : list Z -> option (Z * list Z)) : F Z :=
  x ← get_buf b;
  r ← liftO (g (block x));
  _ ← upd_buf b (fun y => y <| block := snd (r : Z * list Z) |>);
  mret (fst r).

Definition is_inode_in_use (num dev : Z) : F bool :=
  sb ← get_sb dev;
  v ← is_valid_inode_num num dev;
  if negb v then mret false
  else
    buf ← get_block (s_inodemapnr sb) dev;
    x ← get_buf buf;
    ret ← liftO (is_bit_on (block x) (s32 (s_inodemap_size sb)) num);
    _ ← put_block_buffer buf;
    mret ret.

(** ** Blocks *)
Fixpoint alloc_block_loop (fuel : nat) (ino dev bmap bmap_end bnr : Z) : F Z :=
  match fuel with
  | O => crash
  | S fu =>
      b ← get_buf bmap;
      if b_blocknr b <? bmap_end then
        free_bit ← liftO (bitmap_search_from (block b) BLOCK_SIZE_WORD 0 1);
        if free_bit >? 0 then
          _ ← on_bitmap bmap (fun m => bitmap_set_bit m BLOCK_SIZE_WORD free_bit);
          _ ← upd_sb (fun s => s <| s_block_inuse ::= (fun x => u32 (x + 1)) |>
                                 <| s_free_blocks ::= (fun x => u32 (x - 1)) |>);
          _ ← updi ino (fun i => i <| i_total_size ::= (fun x => u32 (x + BLOCK_SIZE)) |>);
          _ ← put_block_buffer_dirt bmap;
          mret free_bit
        else
          _ ← put_block_buffer bmap;
          bmap ← get_block (bnr + 1) dev;
          alloc_block_loop fu ino dev bmap bmap_end (bnr + 1)
      else
        _ ← put_block_buffer bmap;
        mret ENOSPC
  end.

Definition alloc_block (ino dev : Z) : F Z :=
  sb ← get_sb dev;
  bmap ← get_block (s_blockmapnr sb) dev;
  let bmap_end := u32 (s_blockmapnr sb + s_blockmap_size sb / BLOCK_SIZE) in
  b ← get_buf bmap;
  alloc_block_loop (S (S (Z.to_nat (s_blockmap_size sb / BLOCK_SIZE)))) ino dev bmap bmap_end (b_blocknr b).

Definition release_block (bnr dev : Z) : F Z :=
  sb ← get_sb dev;
  let bmap_nr := u32 (s_blockmapnr sb + bnr / BLOCK_SIZE) in
  if bnr >? s_blockmap_size sb then mret (-1)
  else
    blk ← get_block bnr dev;
    _ ← upd_buf blk (fun x => x <| block := replicate (Z.to_nat BLOCK_SIZE) 0 |>);
    _ ← put_block_buffer_dirt blk;
    bmap ← get_block bmap_nr dev;
    _ ← on_bitmap bmap (fun m => match bitmap_clear_bit m BLOCK_SIZE_WORD (s32 bnr) with
                                 | Some r => Some r
                                 | None => None
                                 end);
    _ ← upd_sb (fun s => s <| s_block_inuse ::= (fun x => u32 (x - 1)) |>
                           <| s_free_blocks ::= (fun x => u32 (x + 1)) |>);
    put_block_buffer bmap.

Definition get_inode_blocks (ino : inode_t) : Z :=
  alen (filter (fun z => 0 < z) (take (Z.to_nat NR_TZONES) (i_zone ino))).

Definition get_inode_total_size_word (ino : inode_t) : Z := u32 (BLOCK_SIZE * get_inode_blocks ino).

(** ** Inodes *)
Definition init_inode_non_disk (ino num dev : Z) (sb : option superblock) : F Z :=
  _ ← updi ino (fun i => i <| i_dev := dev |> <| i_num := num |>);
  _ ← updi ino (fun i => i <| i_total_size := get_inode_total_size_word i |>);
  match sb with
  | None => mret OK
  | Some sb =>
      let bnr := u32 (u32 (num * s_inode_size sb) / BLOCK_SIZE + s_inode_tablenr sb) in
      if u32 (bnr * BLOCK_SIZE) >=? u32 (s_inode_tablenr sb * BLOCK_SIZE + s_inode_table_size sb) then mret ERR
      else _ ← updi ino (fun i => i <| i_ndblock := bnr |>); mret OK
  end.

Definition on_arch_map (g : list Z -> option (Z * list Z)) : F Z := fun f =>
  match g (inode_arch_map f) with
  | Some (r, m) => Some (r, f <| inode_arch_map := m |>)
  | None => None
  end.

Definition arch_inode (ino : Z) : F unit :=
  i ← geti ino;
  f ← getS;
  result ← liftO (is_bit_on (inode_arch_map f) INODE_ARC_MAP_LEN (i_num i));
  if negb result then
    _ ← updi ino (fun i => i <| i_size ::= (fun x => x / 4) |>);
    _ ← on_arch_map (fun m => bitmap_set_bit m INODE_ARC_MAP_LEN (i_num i));
    mret tt
  else mret tt.

(** The 16 words of [struct inode_disk], from and to a block. *)
Definition inode_of_words (l : list Z) (i : inode_t) : inode_t :=
  let w n := default 0 (l !! n) in
  i <| i_mode := w 0%nat |> <| i_nlinks := w 1%nat |> <| i_uid := w 2%nat |> <| i_gid := w 3%nat |>
    <| i_size := w 4%nat |> <| i_atime := w 5%nat |> <| i_mtime := w 6%nat |> <| i_ctime := w 7%nat |>
    <| i_zone := map w (seq 8 8) |>.

Definition inode_words (i : inode_t) : list Z :=
  [i_mode i; i_nlinks i; i_uid i; i_gid i; i_size i; i_atime i; i_mtime i; i_ctime i] ++ take 8 (i_zone i).

(** [memcpy] out of and into a block; crossing its end is [None]. *)
Definition blk_read (l : list Z) (off n : Z) : option (list Z) :=
  if (0 <=? off) && (off + n <=? alen l) then Some (take (Z.to_nat n) (drop (Z.to_nat off) l)) else None.

Definition blk_write (l : list Z) (off : Z) (ws : list Z) : option (list Z) :=
  if (0 <=? off) && (off + alen ws <=? alen l)
  then Some (take (Z.to_nat off) l ++ ws ++ drop (Z.to_nat off + length ws) l) else None.

Definition read_inode (num dev : Z) : F (Z * option Z) :=
  sb ← get_sb dev;
  let inode_block_nr := u32 (num * s_inode_size sb) / BLOCK_SIZE in
  let offset := u32 (num * s_inode_size sb) mod BLOCK_SIZE in
  let blocknr := u32 (s_inode_tablenr sb + inode_block_nr) in
  slot ← get_free_inode_slot;
  match slot with
  | None => mret (ENOSPC, None)
  | Some inode =>
      used ← is_inode_in_use num dev;
      if negb used then mret (EINVAL, None)
      else if num =? 0 then mret (EINVAL, None)
      else
        buffer ← get_block blocknr dev;
        b ← get_buf buffer;
        ws ← liftO (blk_read (block b) offset INODE_DISK_SIZE);
        _ ← updi inode (fun i => inode_of_words ws i <| i_count ::= Z.succ |>);
        _ ← init_inode_non_disk inode num dev (Some sb);
        _ ← arch_inode inode;
        _ ← put_block_buffer buffer;
        mret (OK, Some inode)
  end.

Fixpoint find_inode (l : list inode_t) (i num : Z) : option Z :=
  match l with
  | [] => None
  | x :: l' => if i_num x =? num then Some i else find_inode l' (i + 1) num
  end.

(** When the inode cannot be read the result is the last slot of the table. *)
Definition get_inode (num dev : Z) : F Z :=
  f ← getS;
  match find_inode (inode_table f) 0 num with
  | Some i => _ ← updi i (fun x => x <| i_count ::= Z.succ |>); mret i
  | None =>
      r ← read_inode num dev;
      match snd (r : Z * option Z) with
      | Some i => mret i
      | None => mret (NR_INODES - 1)
      end
  end.

Definition put_inode (inode : option Z) (is_dirty : bool) : F Z :=
  match inode with
  | None => mret EINVAL
  | Some ino =>
      _ ← updi ino (fun i => i <| i_count ::= Z.pred |>);
      if negb is_dirty then mret OK
      else
        i ← geti ino;
        sb ← get_sb (i_dev i);
        let inode_block_offset := u32 (i_num i * s_inode_size sb) mod BLOCK_SIZE in
        buffer ← get_block (i_ndblock i) (i_dev i);
        b ← get_buf buffer;
        blk ← liftO (blk_write (block b) inode_block_offset (inode_words i));
        _ ← upd_buf buffer (fun x => x <| block := blk |>);
        _ ← put_block_buffer_dirt buffer;
        mret OK
  end.

(** The search of [alloc_inode]: after the first map block it goes on at block 1. *)
Fixpoint alloc_inode_loop (fuel : nat) (dev imap imap_end bnr : Z) : F (Z * option Z) :=
  match fuel with
  | O => crash
  | S fu =>
      b ← get_buf imap;
      if b_blocknr b <? imap_end then
        inum ← liftO (bitmap_search_from (block b) BLOCK_SIZE_WORD 0 1);
        if inum >? 0 then mret (imap, Some inum)
        else
          _ ← put_block_buffer imap;
          imap ← get_block (bnr + 1) dev;
          alloc_inode_loop fu dev imap imap_end (bnr + 1)
      else mret (imap, None)
  end.

Definition alloc_inode (who_uid who_gid parentdev inodev : Z) : F (option Z) :=
  sb ← get_sb parentdev;
  im ← get_imap parentdev;
  imap ← liftO im;
  b ← get_buf imap;
  let imap_end := u32 (b_blocknr b + s_blockmap_size sb / BLOCK_SIZE) in
  r ← alloc_inode_loop (S (S (Z.to_nat imap_end))) parentdev imap imap_end 0;
  let '(imap, found) := (r : Z * option Z) in
  match found with
  | None => _ ← put_block_buffer imap; mret None
  | Some inum =>
      _ ← on_bitmap imap (fun m => bitmap_set_bit m BLOCK_SIZE_WORD inum);
      _ ← put_block_buffer_dirt imap;
      slot ← get_free_inode_slot;
      inode ← liftO slot;
      _ ← init_inode_non_disk inode inum inodev (Some sb);
      _ ← updi inode (fun i => i <| i_gid := who_gid |> <| i_uid := who_uid |> <| i_count ::= Z.succ |>
                                 <| i_ctime := INODE_MOCK_UTC_TIME |>);
      _ ← on_arch_map (fun m => bitmap_set_bit m INODE_ARC_MAP_LEN inum);
      _ ← upd_sb (fun s => s <| s_free_inodes ::= (fun x => u32 (x - 1)) |>
                             <| s_inode_inuse ::= (fun x => u32 (x + 1)) |>);
      mret (Some inode)
  end.

Fixpoint release_zones (zs : list Z) (ino dev : Z) : F unit :=
  match zs with
  | [] => mret tt
  | i :: zs' =>
      x ← geti ino;
      zone_id ← liftO (aget (i_zone x) i);
      _ ← (if zone_id >? 0 then
             _ ← release_block zone_id dev;
             updi ino (fun x => x <| i_zone ::= <[Z.to_nat i := 0]> |>)
           else mret tt);
      release_zones zs' ino dev
  end.

Definition truncate_inode (inode : Z) : F Z :=
  i ← geti inode;
  _ ← release_zones (seqZ 0 NR_TZONES) inode (i_dev i);
  mret OK.

(** The bit is cleared in the first block of the inode table. *)
Definition release_inode (inode : Z) : F Z :=
  i ← geti inode;
  sb ← get_sb (i_dev i);
  used ← is_inode_in_use (i_num i) (i_dev i);
  if negb used then mret EINVAL
  else
    _ ← release_zones (seqZ 0 NR_TZONES) inode (i_dev i);
    imap ← get_block (s_inode_tablenr sb) (i_dev i);
    _ ← on_bitmap imap (fun m => bitmap_clear_bit m BLOCK_SIZE_WORD (i_num i));
    _ ← upd_sb (fun s => s <| s_inode_inuse ::= (fun x => u32 (x - 1)) |>
                           <| s_free_inodes ::= (fun x => u32 (x + 1)) |>);
    _ ← put_block_buffer_dirt imap;
    _ ← updi inode (fun _ => inode_zero);
    mret OK.

Definition init_inode : F unit := fun f =>
  match bitmap_clear (inode_arch_map f) INODE_ARC_MAP_LEN with
  | Some (_, m) =>
      Some (tt, f <| inode_table ::= map (fun i => i <| i_num := 0 |> <| i_count := 0 |>) |>
                  <| inode_arch_map := m |>)
  | None => None
  end.

(** ** Directory entries

    The words of a [struct block_buffer] that the loops look at: the block and the
    two list pointers behind it. *)
Definition ptr_word (at_ : Z -> Z) (p : option Z) : Z := match p with None => 0 | Some i => at_ i end.

Definition buf_words (at_ : Z -> Z) (b : block_buffer) : list Z :=
  block b ++ [ptr_word at_ (bf_prev b); ptr_word at_ (bf_next b)].

Definition get_words (buf : Z) : F (list Z) :=
  f ← getS; b ← get_buf buf; mret (buf_words (buf_at f) b).

Definition d_ino_off (e : Z) : Z := e.
Definition d_type_off (e : Z) : Z := e + 1.
Definition d_name_off (e : Z) : Z := e + 2.
Definition dev_off (e : Z) : Z := e + 32.

(** [char32_strcmp] of the name at [off] with a C string. *)
Fixpoint char32_strcmp (w : list Z) (off : Z) (s2 : list Z) : option Z :=
  x ← aget w off;
  match s2 with
  | [] => Some (s32 x)
  | c :: s2' => if negb (x =? 0) && (x =? c) then char32_strcmp w (off + 1) s2' else Some (s32 (x - c))
  end.

(** [char32_strncpy] into a block. *)
Definition char32_strncpy (l : list Z) (off : Z) (src : list Z) (n : Z) : option (list Z) :=
  blk_write l off (take (Z.to_nat n) src ++ [0]).

Definition fill_dirent (ino : inode_t) (l : list Z) (e : Z) (string : list Z) : option (list Z) :=
  l ← char32_strncpy l (d_name_off e) string DIRNAME_LEN;
  l ← aset l (d_ino_off e) (i_num ino);
  let mode := i_mode ino in
  if has mode S_IFDIR then aset l (d_type_off e) DT_DIR
  else if has mode S_IFCHR then aset l (d_type_off e) DT_CHR
  else if has mode S_IFREG then aset l (d_type_off e) DT_REG
  else if has mode S_IFBLK then aset l (d_type_off e) DT_BLK
  else Some l.

(** The offsets the loops visit: every 33 words while below 1024. *)
Definition dirent_offs : list Z := map (fun k => k * WINIX_DIRENT_LEN) (seqZ 0 32).

Definition dot : list Z := [46].
Definition dot2 : list Z := [46; 46].

Fixpoint first_zone (zs : list Z) : option Z :=
  match zs with
  | [] => None
  | z :: zs' => if z >? 0 then Some z else first_zone zs'
  end.

Definition init_dirent (dir ino : Z) : F Z :=
  d ← geti dir;
  i ← geti ino;
  if negb (S_ISDIR (i_mode i)) then mret ENOTDIR
  else
    match first_zone (i_zone i) with
    | None => mret ENOSPC
    | Some bnr =>
        buf ← get_block bnr (i_dev i);
        b ← get_buf buf;
        l ← liftO (fill_dirent i (block b) 0 dot);
        l ← liftO (fill_dirent d l WINIX_DIRENT_LEN dot2);
        _ ← upd_buf buf (fun x => x <| block := l |>);
        _ ← put_block_buffer_dirt buf;
        mret OK
    end.

(** The first free entry of a block. *)
Fixpoint find_free_ent (w : list Z) (offs : list Z) : option (option Z) :=
  match offs with
  | [] => Some None
  | e :: offs' =>
      c ← aget w (d_name_off e);
      if c =? 0 then Some (Some e) else find_free_ent w offs'
  end.

Fixpoint add_loop (zs : list Z) (dir ino : Z) (string : list Z) : F Z :=
  match zs with
  | [] => mret ENOSPC
  | i :: zs' =>
      d ← geti dir;
      z ← liftO (aget (i_zone d) i);
      _ ← (if z =? 0 then
             nr ← alloc_block dir (i_dev d);
             updi dir (fun d => d <| i_zone ::= <[Z.to_nat i := u32 nr]> |>)
           else mret tt);
      d ← geti dir;
      bnr ← liftO (aget (i_zone d) i);
      buf ← get_block bnr (i_dev d);
      b ← get_buf buf;
      w ← get_words buf;
      r ← liftO (find_free_ent w dirent_offs);
      match (r : option Z) with
      | Some e =>
          x ← geti ino;
          l ← liftO (fill_dirent x (block b) e string);
          l ← liftO (aset l (dev_off e) (i_dev x));
          _ ← upd_buf buf (fun y => y <| block := l |>);
          _ ← updi ino (fun x => x <| i_nlinks ::= Z.succ |>);
          _ ← put_block_buffer_dirt buf;
          mret OK
      | None =>
          _ ← put_block_buffer buf;
          add_loop zs' dir ino string
      end
  end.

Definition add_inode_to_directory (who_uid who_gid dir ino : Z) (string : list Z) : F Z :=
  d ← geti dir;
  if negb (S_ISDIR (i_mode d)) then mret EINVAL
  else if negb (has_file_access who_uid who_gid d W_OK) then mret EACCES
  else if alen string >=? DIRNAME_LEN then mret ENAMETOOLONG
  else add_loop (seqZ 0 NR_TZONES) dir ino string.

(** The first entry of a block that satisfies [ok]. *)
Fixpoint find_ent (ok : Z -> option bool) (offs : list Z) : option (option Z) :=
  match offs with
  | [] => Some None
  | e :: offs' =>
      o ← ok e;
      if (o : bool) then Some (Some e) else find_ent ok offs'
  end.

(** [d_ino == num && char32_strcmp(d_name, name) == 0] *)
Definition ent_is (w : list Z) (num : Z) (nm : list Z) (e : Z) : option bool :=
  i ← aget w (d_ino_off e);
  if i =? num then c ← char32_strcmp w (d_name_off e) nm; Some (c =? 0) else Some false.

Definition ent_named (w : list Z) (nm : list Z) (e : Z) : option bool :=
  c ← char32_strcmp w (d_name_off e) nm; Some (c =? 0).

Fixpoint remove_loop (zs : list Z) (dir target : Z) (nm : list Z) : F Z :=
  match zs with
  | [] => mret ENOENT
  | i :: zs' =>
      d ← geti dir;
      bnr ← liftO (aget (i_zone d) i);
      if bnr =? 0 then remove_loop zs' dir target nm
      else
        buf ← get_block bnr (i_dev d);
        b ← get_buf buf;
        w ← get_words buf;
        t ← geti target;
        r ← liftO (find_ent (ent_is w (i_num t) nm) dirent_offs);
        match (r : option Z) with
        | Some e =>
            l ← liftO (aset (block b) (d_name_off e) 0);
            l ← liftO (aset l (d_ino_off e) 0);
            _ ← upd_buf buf (fun y => y <| block := l |>);
            _ ← put_block_buffer_dirt buf;
            _ ← updi target (fun x => x <| i_nlinks ::= Z.pred |>);
            mret OK
        | None =>
            _ ← put_block_buffer buf;
            remove_loop zs' dir target nm
        end
  end.

Definition remove_inode_from_dir (who_uid who_gid dir target : Z) (nm : list Z) : F Z :=
  d ← geti dir;
  if negb (has_file_access who_uid who_gid d W_OK) then mret EACCES
  else remove_loop (seqZ 0 NR_TZONES) dir target nm.

(** ** fs/path.c *)

(** [get_name]: the next component (at most 32 characters of it) and the rest of
    the path, [None] when the path is longer than PATH_MAX. *)
Fixpoint skip_slashes (p : list Z) (pos : Z) : list Z * Z :=
  match p with
  | 47 :: p' => skip_slashes p' (pos + 1)
  | _ => (p, pos)
  end.

Fixpoint copy_name (p : list Z) (pos : Z) (np : list Z) : list Z * list Z * Z :=
  match p with
  | c :: p' =>
      if (pos <? PATH_MAX) && negb (c =? 47) then
        copy_name p' (pos + 1) (if alen np <? NAME_MAX then np ++ [c] else np)
      else (np, p, pos)
  | [] => (np, p, pos)
  end.

Fixpoint skip_trailing (p : list Z) (pos : Z) : list Z * Z :=
  match p with
  | 47 :: p' => if pos <? PATH_MAX then skip_trailing p' (pos + 1) else (p, pos)
  | _ => (p, pos)
  end.

Definition get_name (old_name : list Z) : list Z * option (list Z) :=
  let '(rnp, pos) := skip_slashes old_name 0 in
  let '(np, rnp, pos) := copy_name rnp pos [] in
  let '(rnp, pos) := skip_trailing rnp pos in
  (np, if pos >=? PATH_MAX then None else Some rnp).

(** The walk shared by [advance] and [get_parent_inode_num]. *)
Fixpoint lookup_loop (zs : list Z) (dirp : Z) (nm : list Z) : F Z :=
  match zs with
  | [] => mret ERR
  | i :: zs' =>
      d ← geti dirp;
      bnr ← liftO (aget (i_zone d) i);
      if bnr >? 0 then
        buffer ← get_block_buffer bnr (i_dev d);
        match buffer with
        | Some buf =>
            w ← get_words buf;
            r ← liftO (find_ent (ent_named w nm) dirent_offs);
            match (r : option Z) with
            | Some e =>
                inum ← liftO (aget w (d_ino_off e));
                _ ← put_block_buffer buf;
                mret inum
            | None => _ ← put_block_buffer buf; lookup_loop zs' dirp nm
            end
        | None => lookup_loop zs' dirp nm
        end
      else lookup_loop zs' dirp nm
  end.

Definition advance (dirp : Z) (string : list Z) : F Z :=
  if bool_decide (string = []) then mret ERR else lookup_loop (seqZ 0 NR_TZONES) dirp string.

Definition get_parent_inode_num (dirp : Z) : F Z := lookup_loop (seqZ 0 NR_TZONES) dirp dot2.

(** The name of an entry: the words up to the first 0. *)
Fixpoint ent_name (n : nat) (w : list Z) (off : Z) : option (list Z) :=
  match n with
  | O => None
  | S n' => x ← aget w off; if x =? 0 then Some [] else l ← ent_name n' w (off + 1); Some (x :: l)
  end.

Fixpoint child_loop (zs : list Z) (parent num : Z) : F (Z * list Z) :=
  match zs with
  | [] => mret (ERR, [])
  | i :: zs' =>
      d ← geti parent;
      bnr ← liftO (aget (i_zone d) i);
      if bnr >? 0 then
        buffer ← get_block_buffer bnr (i_dev d);
        match buffer with
        | Some buf =>
            w ← get_words buf;
            r ← liftO (find_ent (fun e => i ← aget w (d_ino_off e); Some (i =? num)) dirent_offs);
            match (r : option Z) with
            | Some e =>
                nm ← liftO (ent_name 1100 w (d_name_off e));
                _ ← put_block_buffer buf;
                mret (alen nm, nm)
            | None => _ ← put_block_buffer buf; child_loop zs' parent num
            end
        | None => child_loop zs' parent num
        end
      else child_loop zs' parent num
  end.

Definition get_child_inode_name (parent child : Z) : F (Z * list Z) :=
  c ← geti child; child_loop (seqZ 0 NR_TZONES) parent (i_num c).

(** Result: the code, [*last_dir], [*ret_ino] and the last component.  Every round
    consumes a component, so the length of the path is enough fuel. *)
Fixpoint eath_loop (fuel : nat) (rip dev : Z) (path : list Z) : F (Z * option Z * option Z * list Z) :=
  match fuel with
  | O => crash
  | S f =>
      let '(string, component_name) := get_name path in
      match component_name with
      | None => mret (ENOENT, None, None, string)
      | Some rest =>
          r ← geti rip;
          if bool_decide (rest = []) then
            if has (i_mode r) S_IFDIR then
              inum ← advance rip string;
              if inum =? ERR then mret (OK, Some rip, None, string)
              else
                new_rip ← get_inode inum (i_dev r);
                mret (OK, Some rip, Some new_rip, string)
            else mret (ENOTDIR, None, None, string)
          else if negb (has (i_mode r) S_IFDIR) then mret (ENOTDIR, None, None, string)
          else
            inum ← advance rip string;
            if inum =? ERR then mret (OK, None, None, string)
            else
              _ ← put_inode (Some rip) false;
              new_rip ← get_inode inum dev;
              eath_loop f new_rip dev rest
      end
  end.

Definition __eath_path (curr_ino : Z) (path : list Z) : F (Z * option Z * option Z * list Z) :=
  rip ← geti curr_ino;
  if (i_nlinks rip =? 0) || bool_decide (path = []) then mret (ENOENT, None, None, [])
  else eath_loop (S (length path)) curr_ino (i_dev rip) path.
