(* ===== verification/Dirs.v ===== *)
(** * A directory is a finite map

    [add_inode_to_directory], [remove_inode_from_dir] and [advance] of fs/inode.c
    and fs/path.c on a directory with one block, on top of the block cache: they
    insert into, delete from and look up in a map from names to inode numbers. *)
From S2P Require Import Prelude Bitmap Linked CString Kernel Cache Coherence Blocks Inode.

(** The whole entries of a block; a 32nd one begins at its last word. *)
Definition NENTS : Z := 31.

(** The word at which entry [k] begins. *)
Definition ent_off (k : Z) : Z := k * WINIX_DIRENT_LEN.

(** ** Names and entries *)
Definition is_char (c : Z) : Prop := 0 < c < 256.
Definition name_ok (s : list Z) : Prop := alen s < DIRNAME_LEN /\ Forall is_char s.

(** The slots of a block: the name, empty when the entry is free, and [d_ino]. *)
Definition slots_rep (w : list Z) (ents : list (list Z * Z)) : Prop :=
  alen ents = NENTS /\
  forall k nm num, aget ents k = Some (nm, num) ->
    name_ok nm /\ str_at w (d_name_off (ent_off k)) nm /\ aget w (d_ino_off (ent_off k)) = Some num.

(** The map the slots stand for; no name is there twice. *)
Definition slots_map (ents : list (list Z * Z)) (m : gmap (list Z) Z) : Prop :=
  (forall nm num, m !! nm = Some num <-> nm <> [] /\ exists k, aget ents k = Some (nm, num)) /\
  (forall k k' nm num num', aget ents k = Some (nm, num) -> aget ents k' = Some (nm, num') -> nm <> [] -> k = k').

Definition dir_block (l : list Z) (m : gmap (list Z) Z) : Prop :=
  alen l = BLOCK_SIZE /\ exists ents, slots_rep l ents /\ slots_map ents m.

(** ** Requests, and the map that answers them *)
Inductive dreq :=
  | DLookup (nm : list Z)
  | DAdd (ino : Z) (nm : list Z)
  | DRemove (ino : Z) (nm : list Z).

Definition dserve (uid gid dir : Z) (r : dreq) : F Z :=
  match r with
  | DLookup nm => advance dir nm
  | DAdd ino nm => add_inode_to_directory uid gid dir ino nm
  | DRemove ino nm => remove_inode_from_dir uid gid dir ino nm
  end.

Fixpoint dserves (uid gid dir : Z) (rs : list dreq) : F (list Z) :=
  match rs with
  | [] => mret []
  | r :: rs' => x ← dserve uid gid dir r; xs ← dserves uid gid dir rs'; mret (x :: xs)
  end.

(** The map and the link counts; [num] gives the number of each inode slot. *)
Record dmap := mkDmap { d_names : gmap (list Z) Z; d_links : Z -> Z }.

Definition bump (links : Z -> Z) (i n : Z) : Z -> Z := fun j => if decide (j = i) then links j + n else links j.

Definition dstep (num : Z -> Z) (s : dmap) (r : dreq) : Z * dmap :=
  match r with
  | DLookup nm => (default ERR (d_names s !! nm), s)
  | DAdd ino nm =>
      if decide (alen nm < DIRNAME_LEN) then (OK, mkDmap (<[nm := num ino]> (d_names s)) (bump (d_links s) ino 1)) else (ENAMETOOLONG, s)
  | DRemove ino nm =>
      if decide (d_names s !! nm = Some (num ino))
      then (OK, mkDmap (delete nm (d_names s)) (bump (d_links s) ino (-1))) else (ENOENT, s)
  end.

Fixpoint drun (num : Z -> Z) (s : dmap) (rs : list dreq) : list Z * dmap :=
  match rs with
  | [] => ([], s)
  | r :: rs' => let '(x, s1) := dstep num s r in let '(xs, s2) := drun num s1 rs' in (x :: xs, s2)
  end.

(** Within these requests a directory is a map: names are not empty, and a name that
    is inserted is not there yet and finds room, as a block has [NENTS] entries.  The
    code checks neither: see [NENTS] for the entry after the last. *)
Definition dreq_ok (n : Z) (s : dmap) (r : dreq) : Prop :=
  match r with
  | DLookup nm => Forall is_char nm /\ nm <> []
  | DAdd ino nm => Forall is_char nm /\ nm <> [] /\ 0 <= ino < n /\ d_names s !! nm = None /\ Z.of_nat (size (d_names s)) < NENTS
  | DRemove ino nm => Forall is_char nm /\ nm <> [] /\ 0 <= ino < n
  end.

Fixpoint dreqs_ok (num : Z -> Z) (n : Z) (s : dmap) (rs : list dreq) : Prop :=
  match rs with
  | [] => True
  | r :: rs' => dreq_ok n s r /\ dreqs_ok num n (dstep num s r).2 rs'
  end.

(** ** The state of the file system that represents the map *)
Definition dir_inode (uid gid : Z) (d : inode_t) (bnr : Z) : Prop :=
  S_ISDIR (i_mode d) = true /\ has_file_access uid gid d W_OK = true /\ i_dev d = ROOTFS_DEV /\
  i_zone d = bnr :: replicate 7 0.

Record dir_rep (uid gid dir bnr : Z) (num : Z -> Z) (n : Z) (s : dmap) (f : fsst) : Prop := {
  dr_cache : exists l, cache_rep f l /\ free_list l;
  dr_block_nr : is_block bnr;
  dr_dir : exists d, aget (inode_table f) dir = Some d /\ dir_inode uid gid d bnr;
  dr_len : alen (inode_table f) = n;
  dr_inodes : forall i x, aget (inode_table f) i = Some x -> i_num x = num i /\ i_nlinks x = d_links s i;
  dr_block : dir_block (view_of f bnr) (d_names s);
  dr_at : forall i, 256 <= buf_at f i < 0x100000
}.

(** ** Strings in a block *)
Lemma s32_nz x : - UINT_MOD < x < UINT_MOD -> s32 x = 0 -> x = 0.
Proof. unfold s32, u32, UINT_MOD. intros H. repeat case_match; intros; zlia. Qed.

Lemma char32_strcmp_spec s : forall w off u,
  str_at w off u -> Forall is_char u -> Forall is_char s ->
  exists c, char32_strcmp w off s = Some c /\ (c =? 0) = bool_decide (u = s).
Proof.
  induction s as [|c s IH]; intros w off u Hu Fu Fs; destruct u as [|d u]; cbn in *.
  - rewrite Hu. by exists 0.
  - destruct Hu as [-> _]. apply Forall_cons in Fu as [Hd _]. exists (s32 d). split; [done|].
    rewrite bool_decide_false by done. apply Z.eqb_neq. intros E%s32_nz; unfold is_char, UINT_MOD in *; lia.
  - rewrite Hu. cbn. apply Forall_cons in Fs as [Hc _]. exists (s32 (0 - c)). split; [done|].
    rewrite bool_decide_false by done. apply Z.eqb_neq. intros E%s32_nz; unfold is_char, UINT_MOD in *; lia.
  - destruct Hu as [-> Hu]. apply Forall_cons in Fu as [Hd Fu], Fs as [Hc Fs]. cbn.
    rewrite (proj2 (Z.eqb_neq d 0)) by (unfold is_char in Hd; lia). cbn. destruct (Z.eqb_spec d c) as [->|Hne].
    + destruct (IH w (off + 1) u Hu Fu Fs) as (x & E & Ex). exists x. split; [done|]. rewrite Ex.
      apply bool_decide_ext. split; congruence.
    + exists (s32 (d - c)). split; [done|]. rewrite bool_decide_false by congruence.
      apply Z.eqb_neq. intros E%s32_nz; unfold is_char, UINT_MOD in *; lia.
Qed.

(** ** Writing into a block *)
Lemma aget_take_drop (l : list Z) off ws j :
  0 <= off -> off + alen ws <= alen l ->
  aget (take (Z.to_nat off) l ++ ws ++ drop (Z.to_nat off + length ws) l) j =
    if decide (off <= j < off + alen ws) then aget ws (j - off) else aget l j.
Proof.
  unfold aget, alen. intros Ho Hl. destruct (decide (0 <= j)) as [Hj|Hj]; [|case_decide; [lia|done]].
  assert (Ht : length (take (Z.to_nat off) l) = Z.to_nat off) by (rewrite length_take; lia).
  case_decide as Hin.
  - rewrite decide_True by lia. rewrite lookup_app_r by lia. rewrite lookup_app_l by lia. f_equal. lia.
  - destruct (decide (j < off)).
    + rewrite lookup_app_l by lia. rewrite lookup_take_lt by lia. done.
    + rewrite lookup_app_r by lia. rewrite lookup_app_r by lia. rewrite lookup_drop. f_equal. lia.
Qed.

Lemma blk_write_spec l off ws :
  0 <= off -> off + alen ws <= alen l ->
  exists l', blk_write l off ws = Some l' /\ alen l' = alen l /\
    forall j, aget l' j = if decide (off <= j < off + alen ws) then aget ws (j - off) else aget l j.
Proof.
  intros Ho Hl. unfold blk_write. rewrite (proj2 (Z.leb_le 0 off)), (proj2 (Z.leb_le _ (alen l))) by done. cbn.
  eexists. split; [done|]. split; [|intros j; by apply aget_take_drop].
  unfold alen in *. rewrite !length_app, length_take, length_drop. lia.
Qed.

(** ** Changing an entry *)
Lemma slots_update l l' ents k nm num :
  slots_rep l ents -> 0 <= k < NENTS -> name_ok nm ->
  str_at l' (d_name_off (ent_off k)) nm -> aget l' (d_ino_off (ent_off k)) = Some num ->
  (forall j, ~ (ent_off k <= j < ent_off k + WINIX_DIRENT_LEN) -> aget l' j = aget l j) ->
  slots_rep l' (<[Z.to_nat k := (nm, num)]> ents).
Proof.
  intros [Hlen Hs] Hk Hnm H1 H2 Hf. split; [by rewrite alen_insert|]. intros k' nm' num' E.
  pose proof (aget_Some_bound _ _ _ E) as Hk'. rewrite aget_insert in E by lia. case_decide as Ek; [by simplify_eq|].
  destruct (Hs _ _ _ E) as (Hok & S1 & S2). split; [done|].
  pose proof (proj1 Hok) as Hal. unfold d_name_off, d_ino_off, ent_off, WINIX_DIRENT_LEN, DIRNAME_LEN in *. split; [|rewrite Hf by lia; done].
  eapply str_at_frame; [|exact S1]. intros j Hj. apply Hf. lia.
Qed.

Lemma slot_insert {A} (l : list A) k x k' y :
  0 <= k < alen l -> aget (<[Z.to_nat k := x]> l) k' = Some y <-> (k' = k /\ y = x) \/ (k' <> k /\ aget l k' = Some y).
Proof.
  intros Hk. destruct (decide (0 <= k')) as [H|H].
  - rewrite aget_insert by done. case_decide as E; subst.
    + split; [intros [= <-]; by left|]. by intros [[_ ->]|[]].
    + split; [by right|]. by intros [[-> _]|[]].
  - rewrite !aget_oob by lia. split; [done|]. by intros [[-> _]|[_ ?]]; [lia|].
Qed.

Lemma slots_map_add ents m k nm num n :
  slots_map ents m -> aget ents k = Some ([], n) -> nm <> [] -> m !! nm = None ->
  slots_map (<[Z.to_nat k := (nm, num)]> ents) (<[nm := num]> m).
Proof.
  intros [Hm Hu] Hk Hnm Hnew. pose proof (aget_Some_bound _ _ _ Hk) as Hb.
  assert (Hother : forall k' n', aget ents k' <> Some (nm, n')).
  { intros k' n' E. assert (m !! nm = Some n') by (apply Hm; eauto). congruence. }
  split.
  - intros nm' num'. rewrite lookup_insert_Some, Hm. split.
    + intros [[<- <-]|(Hne & Hn' & k' & E)]; (split; [done|]).
      * exists k. rewrite slot_insert by done. by left.
      * exists k'. rewrite slot_insert by done. right. split; [intros ->|done]. congruence.
    + intros (Hn' & k' & E). rewrite slot_insert in E by done. destruct E as [[_ [= -> ->]]|[_ E]]; [by left|].
      right. split; [intros <-; by apply Hother in E|]. eauto.
  - intros k1 k2 nm' n1 n2 E1 E2 Hn'. rewrite slot_insert in E1, E2 by done.
    destruct E1 as [[-> P1]|[_ E1]], E2 as [[-> P2]|[_ E2]]; simplify_eq; try done.
    + by apply Hother in E2.
    + by apply Hother in E1.
    + by eapply Hu.
Qed.

Lemma slots_map_remove ents m k nm num :
  slots_map ents m -> aget ents k = Some (nm, num) -> nm <> [] ->
  slots_map (<[Z.to_nat k := ([], 0)]> ents) (delete nm m).
Proof.
  intros [Hm Hu] Hk Hnm. pose proof (aget_Some_bound _ _ _ Hk) as Hb. split.
  - intros nm' num'. rewrite lookup_delete_Some, Hm. split.
    + intros (Hne & Hn' & k' & E). split; [done|]. exists k'. rewrite slot_insert by done. right. split; [intros ->|done]. congruence.
    + intros (Hn' & k' & E). rewrite slot_insert in E by done. destruct E as [[_ Ep]|[Hk' E]]; [by simplify_eq|].
      split; [|by eauto]. intros <-. apply Hk'. by eapply Hu.
  - intros k1 k2 nm' n1 n2 E1 E2 Hn'. rewrite slot_insert in E1, E2 by done.
    destruct E1 as [[-> P1]|[_ E1]], E2 as [[-> P2]|[_ E2]]; simplify_eq; try done. by eapply Hu.
Qed.

(** A map with fewer names than slots leaves a slot free. *)
Lemma slot_free ents m :
  slots_map ents m -> Z.of_nat (size m) < alen ents -> exists k n, aget ents k = Some ([], n).
Proof.
  intros [Hm Hu] Hs. destruct (decide (Exists (fun e => e.1 = []) ents)) as [H|H].
  - apply Exists_exists in H as ([s n] & [i Hi]%list_elem_of_lookup & E). cbn in E. subst. exists (Z.of_nat i), n.
    unfold aget. rewrite decide_True by lia. by rewrite Nat2Z.id.
  - exfalso. rewrite <- Forall_Exists_neg in H. rewrite Forall_lookup in H.
    assert (Hn : NoDup ents.*1).
    { apply NoDup_alt. intros i j s Ei Ej. rewrite list_lookup_fmap_Some in Ei, Ej.
      destruct Ei as ([s1 n1] & Es1 & Ei), Ej as ([s2 n2] & Es2 & Ej). cbn in *. subst. apply Nat2Z.inj.
      eapply Hu; [unfold aget; rewrite decide_True, Nat2Z.id by lia; exact Ei|unfold aget; rewrite decide_True, Nat2Z.id by lia; exact Ej|].
      by apply H in Ei. }
    assert (Hd : (list_to_set ents.*1 : gset (list Z)) ⊆ dom m).
    { intros s Hin. rewrite elem_of_list_to_set in Hin. apply list_elem_of_fmap in Hin as ([s1 n] & -> & [i Hi]%list_elem_of_lookup).
      apply elem_of_dom. exists n. apply Hm. split; [by apply H in Hi|]. exists (Z.of_nat i). unfold aget.
      by rewrite decide_True, Nat2Z.id by lia. }
    apply subseteq_size in Hd. rewrite size_list_to_set, size_dom, length_fmap in Hd by done. unfold alen in Hs. lia.
Qed.

(** ** Looking for an entry *)
Lemma find_ent_run ok (P : Z -> bool) ks :
  (forall k, k ∈ ks -> ok (ent_off k) = Some (P k)) ->
  find_ent ok (map ent_off ks) = Some (ent_off <$> List.find P ks).
Proof.
  induction ks as [|k ks IH]; intros H; [done|]. cbn. rewrite (H k) by by left. cbn. destruct (P k); [done|].
  apply IH. intros k' Hk'. apply H. by right.
Qed.

Lemma find_free_run w ents ks tl :
  slots_rep w ents -> (forall k, k ∈ ks -> 0 <= k < NENTS) -> (exists k n, k ∈ ks /\ aget ents k = Some ([], n)) ->
  exists k n, k ∈ ks /\ aget ents k = Some ([], n) /\ find_free_ent w (map ent_off ks ++ tl) = Some (Some (ent_off k)).
Proof.
  intros [Hl Hs]. induction ks as [|k ks IH]; intros Hks (k0 & n0 & Hin & Hk0); [by apply elem_of_nil in Hin|].
  destruct (aget_in ents k) as [[nm n] E]; [rewrite Hl; apply Hks; by left|]. destruct (Hs _ _ _ E) as ([_ Hch] & S1 & _).
  cbn [map app find_free_ent]. destruct nm as [|c nm]; cbn in S1.
  - rewrite S1. exists k, n. split; [by left|]. done.
  - destruct S1 as [-> _]. apply Forall_cons in Hch as [Hc _]. cbn. rewrite (proj2 (Z.eqb_neq c 0)) by (unfold is_char in Hc; lia).
    destruct IH as (k1 & n1 & ? & ? & ?).
    + intros k' Hk'. apply Hks. by right.
    + exists k0, n0. split; [|done]. apply elem_of_cons in Hin as [->|]; [congruence|done].
    + exists k1, n1. split; [by right|]. done.
Qed.

(** The words of a directory block in a buffer: its slots, and the 32nd entry,
    whose name begins with a list pointer. *)
Record dir_words (w : list Z) (ents : list (list Z * Z)) : Prop := {
  dw_slots : slots_rep w ents;
  dw_num : is_Some (aget w 1023);
  dw_ptr : exists x, aget w 1025 = Some x /\ (x = 0 \/ 256 <= x < 0x100000)
}.

Lemma buf_words_dir at_ b ents :
  slots_rep (block b) ents -> alen (block b) = BLOCK_SIZE -> (forall i, 256 <= at_ i < 0x100000) ->
  dir_words (buf_words at_ b) ents.
Proof.
  intros [Hl Hs] Hb Ha. assert (HB : BLOCK_SIZE = 1024) by done. rewrite HB in Hb. split.
  - split; [done|]. intros k nm num E. destruct (Hs _ _ _ E) as (H1 & H2 & H3). split; [done|]. split.
    + eapply str_at_mono; [|exact H2]. intros j v. apply aget_app_l.
    + by apply aget_app_l.
  - apply aget_in. unfold buf_words, alen in *. rewrite length_app. cbn. lia.
  - exists (ptr_word at_ (bf_next b)). split.
    + unfold buf_words, aget. rewrite decide_True by done. unfold alen in Hb. rewrite lookup_app_r by lia.
      by replace (Z.to_nat 1025 - length (block b))%nat with 1%nat by lia.
    + unfold ptr_word. destruct (bf_next b); [by right|by left].
Qed.

(** The name of entry [k] is [nm]; for the 32nd this is never so. *)
Definition slot_named (ents : list (list Z * Z)) (nm : list Z) (k : Z) : bool :=
  match aget ents k with Some (s, _) => bool_decide (s = nm) | None => false end.

Lemma ent_named_run w ents nm k :
  dir_words w ents -> Forall is_char nm -> nm <> [] -> 0 <= k <= NENTS -> ent_named w nm (ent_off k) = Some (slot_named ents nm k).
Proof.
  intros [[Hl Hs] _ (x & Hx & Hp)] Hc Hne Hk. unfold ent_named, slot_named. destruct (decide (k = NENTS)) as [->|].
  - rewrite aget_oob by lia. destruct nm as [|c nm]; [done|]. apply Forall_cons in Hc as [Hc _]. unfold is_char in Hc.
    change (d_name_off (ent_off NENTS)) with 1025. cbn [char32_strcmp]. rewrite Hx. cbn.
    rewrite (proj2 (Z.eqb_neq x c)), andb_false_r by lia. cbn. f_equal. apply Z.eqb_neq.
    intros E%s32_nz; unfold UINT_MOD; lia.
  - destruct (aget_in ents k) as [[s j] E]; [lia|]. rewrite E. destruct (Hs _ _ _ E) as ([_ Hs1] & S1 & _).
    destruct (char32_strcmp_spec nm w _ s S1 Hs1 Hc) as (c & Ec & Eq). rewrite Ec. cbn. by rewrite Eq.
Qed.

Definition slot_is (ents : list (list Z * Z)) (num : Z) (nm : list Z) (k : Z) : bool :=
  match aget ents k with Some e => bool_decide (e = (nm, num)) | None => false end.

Lemma ent_is_run w ents num nm k :
  dir_words w ents -> Forall is_char nm -> nm <> [] -> 0 <= k <= NENTS -> ent_is w num nm (ent_off k) = Some (slot_is ents num nm k).
Proof.
  intros Hw Hnm Hne Hk. pose proof (ent_named_run _ _ _ _ Hw Hnm Hne Hk) as Hn. unfold ent_named in Hn.
  unfold ent_is, slot_is. unfold slot_named in Hn. destruct Hw as [[Hl Hs] [v Hv] _]. destruct (decide (k = NENTS)) as [->|].
  - rewrite (aget_oob ents) by lia. rewrite (aget_oob ents) in Hn by lia. change (d_ino_off (ent_off NENTS)) with 1023. rewrite Hv. cbn.
    case_match; [|done]. done.
  - destruct (aget_in ents k) as [[s j] E]; [lia|]. rewrite E in Hn |- *. destruct (Hs _ _ _ E) as (_ & _ & S2).
    rewrite S2. cbn. destruct (Z.eqb_spec j num) as [->|Hnum].
    + rewrite Hn. f_equal. apply bool_decide_ext. split; congruence.
    + f_equal. symmetry. apply bool_decide_false. congruence.
Qed.

(** What the search finds, in terms of the map. *)
Lemma find_named ents m nm :
  slots_map ents m -> alen ents = NENTS -> nm <> [] ->
  match List.find (slot_named ents nm) (seqZ 0 32) with
  | Some k => exists num, aget ents k = Some (nm, num) /\ m !! nm = Some num
  | None => m !! nm = None
  end.
Proof.
  intros [Hm _] Hl Hne. unfold slot_named. destruct (List.find _ _) as [k|] eqn:E.
  - apply List.find_some in E as [_ E]. destruct (aget ents k) as [[s n]|] eqn:Ek; [|done].
    apply bool_decide_eq_true in E as ->. exists n. split; [done|]. apply Hm. eauto.
  - destruct (m !! nm) as [num|] eqn:Em; [|done]. apply Hm in Em as (_ & k & Ek).
    pose proof (aget_Some_bound _ _ _ Ek) as Hb. assert (Hin : In k (seqZ 0 32)).
    { apply list_elem_of_In, elem_of_seqZ. unfold NENTS in *. lia. }
    apply (List.find_none _ _ E) in Hin. rewrite Ek, bool_decide_true in Hin; done.
Qed.

Lemma find_is ents m num nm :
  slots_map ents m -> alen ents = NENTS -> nm <> [] ->
  match List.find (slot_is ents num nm) (seqZ 0 32) with
  | Some k => aget ents k = Some (nm, num) /\ m !! nm = Some num
  | None => m !! nm <> Some num
  end.
Proof.
  intros [Hm _] Hl Hne. unfold slot_is. destruct (List.find _ _) as [k|] eqn:E.
  - apply List.find_some in E as [_ E]. destruct (aget ents k) as [e|] eqn:Ek; [|done].
    apply bool_decide_eq_true in E as ->. split; [done|]. apply Hm. eauto.
  - intros (_ & k & Ek)%Hm. pose proof (aget_Some_bound _ _ _ Ek) as Hb. assert (Hin : In k (seqZ 0 32)).
    { apply list_elem_of_In, elem_of_seqZ. unfold NENTS in *. lia. }
    apply (List.find_none _ _ E) in Hin. rewrite Ek, bool_decide_true in Hin; done.
Qed.

(** ** Filling in an entry *)
Lemma aset_spec {A} (l : list A) i v :
  0 <= i < alen l ->
  exists l', aset l i v = Some l' /\ alen l' = alen l /\ aget l' i = Some v /\ forall j, j <> i -> aget l' j = aget l j.
Proof.
  intros Hi. exists (<[Z.to_nat i := v]> l). split; [by apply aset_in|]. split; [apply alen_insert|].
  split; [rewrite aget_insert by lia; by rewrite decide_True|]. intros j Hj. destruct (decide (0 <= j)).
  - rewrite aget_insert by lia. by rewrite decide_False.
  - by rewrite !aget_oob by lia.
Qed.

Lemma fill_dirent_run ino l ents k s v :
  slots_rep l ents -> alen l = BLOCK_SIZE -> 0 <= k < NENTS -> name_ok s ->
  exists l1 l2, fill_dirent ino l (ent_off k) s = Some l1 /\ aset l1 (dev_off (ent_off k)) v = Some l2 /\
    alen l2 = BLOCK_SIZE /\ slots_rep l2 (<[Z.to_nat k := (s, i_num ino)]> ents).
Proof.
  intros Hs Hl Hk Hn. pose proof Hn as [Hlen _]. pose proof (alen_nonneg s) as Hs0.
  set (e := ent_off k). assert (He : 0 <= e <= 990) by (unfold e, ent_off, WINIX_DIRENT_LEN, NENTS in *; lia).
  assert (HB : BLOCK_SIZE = 1024) by done. assert (HD : DIRNAME_LEN = 30) by done. rewrite HB, HD in *.
  assert (Hlz : alen (s ++ [0]) = alen s + 1) by (unfold alen; rewrite length_app; cbn; lia).
  destruct (blk_write_spec l (e + 2) (s ++ [0])) as (l1 & E1 & A1 & F1); [lia|lia|].
  destruct (aset_spec l1 e (i_num ino)) as (l2 & E2 & A2 & G2 & F2); [lia|].
  assert (H3 : exists l3, (if has (i_mode ino) S_IFDIR then aset l2 (d_type_off e) DT_DIR
    else if has (i_mode ino) S_IFCHR then aset l2 (d_type_off e) DT_CHR
    else if has (i_mode ino) S_IFREG then aset l2 (d_type_off e) DT_REG
    else if has (i_mode ino) S_IFBLK then aset l2 (d_type_off e) DT_BLK else Some l2) = Some l3 /\
    alen l3 = alen l2 /\ forall j, j <> e + 1 -> aget l3 j = aget l2 j).
  { assert (He1 : 0 <= d_type_off e < alen l2) by (unfold d_type_off; lia).
    repeat case_match; [..|by exists l2];
      match goal with |- context [aset l2 _ ?d] => destruct (aset_spec l2 _ d He1) as (l3 & ? & ? & _ & ?); by exists l3 end. }
  destruct H3 as (l3 & E3 & A3 & F3). destruct (aset_spec l3 (dev_off e) v) as (l4 & E4 & A4 & _ & F4); [unfold dev_off; lia|].
  exists l3, l4. split; [|split; [done|split; [lia|]]].
  - unfold fill_dirent, char32_strncpy. rewrite take_ge by (unfold alen in *; lia). unfold d_name_off. rewrite E1. cbn.
    unfold d_ino_off. rewrite E2. cbn. exact E3.
  - unfold dev_off in *. eapply (slots_update l); [done..| | |].
    + apply str_at_intro. fold e. unfold d_name_off. intros j Hj. rewrite F4, F3, F2, F1 by lia. rewrite decide_True by lia. f_equal. lia.
    + fold e. unfold d_ino_off. rewrite F4, F3 by lia. done.
    + fold e. unfold WINIX_DIRENT_LEN. intros j Hj. rewrite F4, F3, F2, F1 by lia. apply decide_False. lia.
Qed.

(** Erasing one, as [remove_inode_from_dir] does. *)
Lemma erase_dirent_run l ents k nm num :
  slots_rep l ents -> alen l = BLOCK_SIZE -> aget ents k = Some (nm, num) ->
  exists l1 l2, aset l (d_name_off (ent_off k)) 0 = Some l1 /\ aset l1 (d_ino_off (ent_off k)) 0 = Some l2 /\
    alen l2 = BLOCK_SIZE /\ slots_rep l2 (<[Z.to_nat k := ([], 0)]> ents).
Proof.
  intros Hs Hl Hk. pose proof (aget_Some_bound _ _ _ Hk) as Hb. rewrite (proj1 Hs) in Hb. set (e := ent_off k).
  assert (He : 0 <= e <= 990) by (unfold e, ent_off, WINIX_DIRENT_LEN, NENTS in *; lia).
  assert (HB : BLOCK_SIZE = 1024) by done. rewrite HB in *. unfold d_name_off, d_ino_off.
  destruct (aset_spec l (e + 2) 0) as (l1 & E1 & A1 & G1 & F1); [lia|].
  destruct (aset_spec l1 e 0) as (l2 & E2 & A2 & G2 & F2); [lia|].
  exists l1, l2. split; [done|]. split; [done|]. split; [lia|]. eapply (slots_update l); [done..| | | |].
  - by split.
  - cbn. fold e. unfold d_name_off. rewrite F2 by lia. done.
  - done.
  - fold e. unfold WINIX_DIRENT_LEN. intros j Hj. by rewrite F2, F1 by lia.
Qed.

(** ** The operations *)
Lemma geti_run f i x : aget (inode_table f) i = Some x -> geti i f = Some (x, f).
Proof. unfold geti. by intros ->. Qed.

Lemma updi_run f i x g :
  aget (inode_table f) i = Some x ->
  updi i g f = Some (tt, f <| inode_table := <[Z.to_nat i := g x]> (inode_table f) |>).
Proof. intros H. unfold updi. rewrite H, aset_in; [done|]. by eapply aget_Some_bound. Qed.

Lemma get_words_run f i b : aget (buf_table f) i = Some b -> get_words i f = Some (buf_words (buf_at f) b, f).
Proof. intros H. unfold get_words. rewrite (bind_run _ _ f f f) by done. by rewrite (bind_run _ _ _ _ _ (get_buf_run _ _ _ H)). Qed.

Lemma get_block_some n dev f i f' : Cache.get_block n dev f = Some (i, f') -> get_block_buffer n dev f = Some (Some i, f').
Proof. intros (o & f1 & E & E')%bind_Some. destruct o as [j|]; [|done]. by injection E' as -> ->. Qed.

Section directory.
Context (uid gid dir bnr : Z) (num : Z -> Z) (n : Z).
Notation rep := (dir_rep uid gid dir bnr num n).

(** The block of the directory in a buffer. *)
Record dir_taken (s : dmap) (f : fsst) (i : Z) (f1 : fsst) (l1 : list Z) (b : block_buffer) (ents : list (list Z * Z)) : Prop := {
  dt_get : Cache.get_block bnr ROOTFS_DEV f = Some (i, f1);
  dt_rep : cache_rep f1 l1;
  dt_ne : l1 <> [];
  dt_off : i ∉ l1;
  dt_free : free_list (l1 ++ [i]);
  dt_view : forall m, m <> 0 -> view_of f1 m = view_of f m;
  dt_buf : aget (buf_table f1) i = Some b;
  dt_nr : b_blocknr b = bnr;
  dt_block : block b = view_of f bnr;
  dt_dev : b_dev b = ROOTFS_DEV;
  dt_tables : tables_kept f f1;
  dt_words : dir_words (buf_words (buf_at f1) b) ents;
  dt_slots : slots_rep (view_of f bnr) ents;
  dt_map : slots_map ents (d_names s);
  dt_len : alen (view_of f bnr) = BLOCK_SIZE
}.

Lemma take_dir s f : rep s f -> exists i f1 l1 b ents, dir_taken s f i f1 l1 b ents.
Proof.
  intros [(l & Hr & Hf) Hn _ _ _ (Hlen & ents & Hs & Hm) Hat].
  destruct (take_block f l bnr Hr Hf Hn) as (i & f1 & l1 & E1 & R1 & Hne & Hi & Hfr & V1 & b & Hb & Hbn & Hbl & Hdev).
  pose proof (keeps_get_block _ _ _ _ _ E1) as T. exists i, f1, l1, b, ents.
  split; try done. apply buf_words_dir; [by rewrite Hbl..|]. intros j. rewrite (tk_at _ _ T). apply Hat.
Qed.

(** The state after the block was put back as it was. *)
Lemma rep_kept s f f' l :
  rep s f -> cache_rep f' l -> free_list l -> tables_kept f f' -> (forall m, m <> 0 -> view_of f' m = view_of f m) -> rep s f'.
Proof.
  intros [_ Hn Hd Hl Hi Hb Hat] Hr Hf [T1 T2 T3 T4 _] V. split; [by exists l|done|by rewrite T2|by rewrite T2|by rewrite T2| |by rewrite T4].
  rewrite V; [done|]. unfold is_block in Hn. lia.
Qed.

Lemma put_dir s f i f1 l1 b ents :
  rep s f -> dir_taken s f i f1 l1 b ents ->
  exists f', put_block_buffer i f1 = Some (OK, f') /\ rep s f' /\ tables_kept f f' /\
    forall m, m <> 0 -> view_of f' m = view_of f m.
Proof.
  intros Hrep []. destruct (cache_rep_put f1 l1 i) as (f2 & E2 & R2 & V2); [done..|by eapply aget_Some_bound|].
  assert (V : forall m, m <> 0 -> view_of f2 m = view_of f m) by (intros m Hm; rewrite V2; auto).
  assert (T2 : tables_kept f f2) by (eapply tables_kept_trans; [done|exact (keeps_put _ _ _ _ E2)]).
  exists f2. split; [done|]. split; [|done]. by eapply rep_kept.
Qed.

Lemma lookup_zeros zs nm f d :
  aget (inode_table f) dir = Some d -> (forall i, i ∈ zs -> aget (i_zone d) i = Some 0) ->
  lookup_loop zs dir nm f = Some (ERR, f).
Proof.
  intros Hd. induction zs as [|i zs IH]; intros H; [done|]. cbn [lookup_loop].
  rewrite (bind_run _ _ _ _ _ (geti_run _ _ _ Hd)), (H i), (bind_run _ _ f 0 f) by (done || by left).
  apply IH. intros j Hj. apply H. by right.
Qed.

Lemma other_zones d : dir_inode uid gid d bnr -> forall i, i ∈ seqZ 1 7 -> aget (i_zone d) i = Some 0.
Proof.
  intros (_ & _ & _ & Hz) i Hi%elem_of_seqZ. rewrite Hz. unfold aget. rewrite decide_True by lia.
  replace (Z.to_nat i) with (S (Z.to_nat (i - 1))) by lia. cbn [lookup list_lookup]. apply lookup_replicate. lia.
Qed.

Lemma advance_run s f nm :
  rep s f -> Forall is_char nm -> nm <> [] ->
  exists f', advance dir nm f = Some (default ERR (d_names s !! nm), f') /\ rep s f' /\ tables_kept f f' /\
    forall m, m <> 0 -> view_of f' m = view_of f m.
Proof.
  intros Hrep Hnm Hne. destruct (take_dir s f Hrep) as (i & f1 & l1 & b & ents & T).
  destruct (put_dir _ _ _ _ _ _ _ Hrep T) as (f2 & E2 & R2 & T2 & V2). pose proof T as [Eg _ _ _ _ _ Hb _ _ _ Tb Hw Hs Hm _].
  pose proof Hrep as [_ Hbn (d & Hd & Hdi) _ _ _ _]. pose proof Hdi as (_ & _ & Hdev & Hz).
  unfold advance. rewrite bool_decide_false by done. change (seqZ 0 NR_TZONES) with (0 :: seqZ 1 7). cbn [lookup_loop].
  rewrite (bind_run _ _ _ _ _ (geti_run _ _ _ Hd)), Hz, (bind_run _ _ f bnr f) by done.
  rewrite (proj2 (Z.gtb_lt bnr 0)), Hdev by (unfold is_block in Hbn; lia).
  rewrite (bind_run _ _ _ _ _ (get_block_some _ _ _ _ _ Eg)), (bind_run _ _ _ _ _ (get_words_run _ _ _ Hb)).
  change dirent_offs with (map ent_off (seqZ 0 32)). rewrite (find_ent_run _ (slot_named ents nm)).
  2:{ intros k Hk%elem_of_seqZ. apply ent_named_run; [done..|]. unfold NENTS. lia. }
  pose proof (find_named ents (d_names s) nm Hm (proj1 Hs) Hne) as Hf. destruct (List.find _ _) as [k|].
  - destruct Hf as (nb & Ek & ->). cbn [fmap option_fmap option_map default]. rewrite (bind_run _ _ f1 (Some (ent_off k)) f1) by done.
    destruct (proj2 (dw_slots _ _ Hw) _ _ _ Ek) as (_ & _ & ->). rewrite (bind_run _ _ f1 nb f1), (bind_run _ _ _ _ _ E2) by done.
    by exists f2.
  - rewrite Hf. cbn [fmap option_fmap option_map default]. rewrite (bind_run _ _ f1 None f1), (bind_run _ _ _ _ _ E2) by done.
    exists f2. split; [|done]. destruct (dr_dir _ _ _ _ _ _ _ _ R2) as (d2 & Hd2 & Hdi2).
    apply (lookup_zeros _ _ _ d2); [done|]. by apply other_zones.
Qed.
(** Both writers change an entry, and the link count of an inode. *)
Lemma rep_edited s f f' l ino x d ws m' :
  rep s f -> cache_rep f' l -> free_list l -> buf_at f' = buf_at f ->
  aget (inode_table f) ino = Some x -> inode_table f' = <[Z.to_nat ino := x <| i_nlinks ::= (fun c => c + d) |>]> (inode_table f) ->
  view_of f' bnr = ws -> dir_block ws m' -> rep (mkDmap m' (bump (d_links s) ino d)) f'.
Proof.
  intros [_ Hn (e & Hd & Hdi) Hl Hi _ Hat] Hr Hf Ha Hx Ht Hv Hb. pose proof (aget_Some_bound _ _ _ Hx) as Hxb.
  split; [by exists l|done| | | |by rewrite Hv|by rewrite Ha].
  - rewrite Ht. destruct (decide (dir = ino)) as [->|Hne].
    + exists (x <| i_nlinks ::= (fun c => c + d) |>). split; [by eapply slot_insert; [|left]|].
      rewrite Hd in Hx. by injection Hx as <-.
    + exists e. split; [|done]. apply slot_insert; [done|]. by right.
  - by rewrite Ht, alen_insert.
  - intros j y Hy. rewrite Ht, slot_insert in Hy by done. unfold bump. cbn [d_links].
    destruct Hy as [[-> ->]|[Hne Hy]].
    + rewrite decide_True by done. destruct (Hi _ _ Hx) as [H1 H2]. split; [done|]. by rewrite <- H2.
    + rewrite decide_False by done. by apply Hi.
Qed.

Lemma updi_buf_comm f i b g j x h :
  aget (buf_table f) i = Some b -> aget (inode_table f) j = Some x ->
  (_ ← upd_buf i g; updi j h) f = (_ ← updi j h; upd_buf i g) f.
Proof.
  intros Hb Hx. rewrite (bind_run _ _ _ _ _ (upd_buf_run f i b g Hb)), (bind_run _ _ _ _ _ (updi_run f j x h Hx)).
  rewrite (updi_run _ j x h) by done. by rewrite (upd_buf_run _ i b g).
Qed.

Lemma add_long s f ino nm :
  rep s f -> ~ alen nm < DIRNAME_LEN ->
  exists f', add_inode_to_directory uid gid dir ino nm f = Some (ENAMETOOLONG, f') /\ rep s f' /\
    forall m, m <> 0 -> m <> bnr -> view_of f' m = view_of f m.
Proof.
  intros Hrep Hlong. pose proof Hrep as [_ _ (d & Hd & Hdir & Hacc & _) _ _ _ _]. exists f. split; [|done].
  unfold add_inode_to_directory. rewrite (bind_run _ _ _ _ _ (geti_run _ _ _ Hd)), Hdir, Hacc. cbn [negb].
  by rewrite Z.geb_leb, (proj2 (Z.leb_le DIRNAME_LEN (alen nm))) by lia.
Qed.

Lemma add_run s f ino nm :
  rep s f -> dreq_ok n s (DAdd ino nm) ->
  exists f', add_inode_to_directory uid gid dir ino nm f = Some ((dstep num s (DAdd ino nm)).1, f') /\ rep (dstep num s (DAdd ino nm)).2 f' /\
    forall m, m <> 0 -> m <> bnr -> view_of f' m = view_of f m.
Proof.
  intros Hrep (Hch & Hne & Hino & Hnew & Hsize). cbn [dstep]. case_decide as Hlong; [|by apply add_long].
  assert (Hnm : name_ok nm) by done. destruct (take_dir s f Hrep) as (i & f1 & l1 & b & ents & T).
  pose proof T as [Eg R1 Hl1 Hi Hfr V1 Hb Hbn Hbl Hbd Tb Hw Hs Hm Hvl].
  pose proof Hrep as [_ Hblk (d & Hd & Hdir & Hacc & Hdev & Hz) Hlen Hinodes _ _].
  rewrite <- Hlen in Hino. destruct (aget_in _ _ Hino) as [x Hx]. rewrite <- (tk_inodes _ _ Tb) in Hx.
  unfold add_inode_to_directory. rewrite (bind_run _ _ _ _ _ (geti_run _ _ _ Hd)), Hdir, Hacc. cbn [negb].
  rewrite Z.geb_leb, (proj2 (Z.leb_gt DIRNAME_LEN (alen nm))) by apply Hnm.
  change (seqZ 0 NR_TZONES) with (0 :: seqZ 1 7). cbn [add_loop].
  rewrite (bind_run _ _ _ _ _ (geti_run _ _ _ Hd)), Hz, (bind_run _ _ f bnr f) by done.
  rewrite (proj2 (Z.eqb_neq bnr 0)), (bind_run _ _ f tt f), (bind_run _ _ _ _ _ (geti_run _ _ _ Hd)), Hz, (bind_run _ _ f bnr f), Hdev
    by (done || (unfold is_block in Hblk; lia)).
  rewrite (bind_run _ _ _ _ _ Eg), (bind_run _ _ _ _ _ (get_buf_run _ _ _ Hb)), (bind_run _ _ _ _ _ (get_words_run _ _ _ Hb)).
  change dirent_offs with (map ent_off (seqZ 0 31) ++ [ent_off 31]).
  destruct (find_free_run (buf_words (buf_at f1) b) ents (seqZ 0 31) [ent_off 31]) as (k & n0 & Hk & Ek & ->).
  { apply Hw. } { intros k Hk%elem_of_seqZ. unfold NENTS. lia. }
  { destruct (slot_free ents (d_names s) Hm) as (k & n0 & Ek); [by rewrite (proj1 Hs)|]. exists k, n0. split; [|done].
    apply aget_Some_bound in Ek. rewrite (proj1 Hs) in Ek. apply elem_of_seqZ. unfold NENTS in Ek. lia. }
  apply elem_of_seqZ in Hk. rewrite (bind_run _ _ f1 (Some (ent_off k)) f1), (bind_run _ _ _ _ _ (geti_run _ _ _ Hx)) by done.
  destruct (fill_dirent_run x (view_of f bnr) ents k nm (i_dev x)) as (w1 & w2 & E1 & E2 & A2 & S2); [done|done|unfold NENTS; lia|done|].
  rewrite Hbl, E1, (bind_run _ _ f1 w1 f1), E2, (bind_run _ _ f1 w2 f1) by done.
  set (g1 := f1 <| inode_table := <[Z.to_nat ino := x <| i_nlinks ::= Z.succ |>]> (inode_table f1) |>).
  destruct (put_dirt_spec g1 l1 i b w2) as (g3 & E3 & R3 & V3); [done..|by rewrite Hbn|done|unfold alen in A2; lia|].
  apply bind_Some in E3 as ([] & g2 & Eu & E3). apply bind_Some in E3 as (r & g3' & Ep & [= ->]).
  pose proof (updi_buf_comm f1 i b (fun y => y <| block := w2 |>) ino x (fun y => y <| i_nlinks ::= Z.succ |>) Hb Hx) as Hcomm.
  rewrite (bind_run _ _ _ _ _ (updi_run _ _ _ _ Hx)) in Hcomm. fold g1 in Hcomm. rewrite Eu in Hcomm.
  apply bind_Some in Hcomm as ([] & f2 & Eb & Ei).
  exists g3. split; [|split].
  - rewrite (bind_run _ _ _ _ _ Eb), (bind_run _ _ _ _ _ Ei). by rewrite (bind_run _ _ _ _ _ Ep).
  - assert (T3 : tables_kept g1 g3) by (eapply tables_kept_trans; [exact (keeps_upd_buf _ _ _ _ _ Eu)|exact (keeps_put_dirt _ _ _ _ Ep)]).
    cbn [snd]. rewrite (tk_inodes _ _ Tb) in Hx. eapply (rep_edited s f g3 _ ino x 1 w2); [done|exact R3|done| |done| | |].
    + rewrite (tk_at _ _ T3). exact (tk_at _ _ Tb).
    + rewrite (tk_inodes _ _ T3). unfold g1. change (inode_table (f1 <| inode_table := ?t |>)) with t. by rewrite (tk_inodes _ _ Tb).
    + rewrite V3, Hbn, decide_True by (done || (unfold is_block in Hblk; lia)). done.
    + split; [done|]. eexists. split; [exact S2|]. rewrite (proj1 (Hinodes _ _ Hx)). by apply (slots_map_add _ _ _ _ _ n0).
  - intros m Hm0 Hmb. rewrite V3, Hbn, decide_False by done. change (view_of g1 m) with (view_of f1 m). by apply V1.
Qed.
Lemma remove_zeros zs target nm f d :
  aget (inode_table f) dir = Some d -> (forall i, i ∈ zs -> aget (i_zone d) i = Some 0) ->
  remove_loop zs dir target nm f = Some (ENOENT, f).
Proof.
  intros Hd. induction zs as [|i zs IH]; intros H; [done|]. cbn [remove_loop].
  rewrite (bind_run _ _ _ _ _ (geti_run _ _ _ Hd)), (H i), (bind_run _ _ f 0 f) by (done || by left).
  apply IH. intros j Hj. apply H. by right.
Qed.

Lemma remove_run s f ino nm :
  rep s f -> dreq_ok n s (DRemove ino nm) ->
  exists f', remove_inode_from_dir uid gid dir ino nm f = Some ((dstep num s (DRemove ino nm)).1, f') /\
    rep (dstep num s (DRemove ino nm)).2 f' /\ forall m, m <> 0 -> m <> bnr -> view_of f' m = view_of f m.
Proof.
  intros Hrep (Hnm & Hne & Hino). destruct (take_dir s f Hrep) as (i & f1 & l1 & b & ents & T).
  pose proof T as [Eg R1 Hl1 Hi Hfr V1 Hb Hbn Hbl Hbd Tb Hw Hs Hm Hvl].
  pose proof Hrep as [_ Hblk (d & Hd & Hdir & Hacc & Hdev & Hz) Hlen Hinodes _ _].
  rewrite <- Hlen in Hino. destruct (aget_in _ _ Hino) as [x Hx]. destruct (Hinodes _ _ Hx) as [Hnum _].
  pose proof Hx as Hx1. rewrite <- (tk_inodes _ _ Tb) in Hx1.
  unfold remove_inode_from_dir. rewrite (bind_run _ _ _ _ _ (geti_run _ _ _ Hd)), Hacc. cbn [negb].
  change (seqZ 0 NR_TZONES) with (0 :: seqZ 1 7). cbn [remove_loop].
  rewrite (bind_run _ _ _ _ _ (geti_run _ _ _ Hd)), Hz, (bind_run _ _ f bnr f) by done.
  rewrite (proj2 (Z.eqb_neq bnr 0)), Hdev by (unfold is_block in Hblk; lia).
  rewrite (bind_run _ _ _ _ _ Eg), (bind_run _ _ _ _ _ (get_buf_run _ _ _ Hb)), (bind_run _ _ _ _ _ (get_words_run _ _ _ Hb)).
  rewrite (bind_run _ _ _ _ _ (geti_run _ _ _ Hx1)), Hnum.
  change dirent_offs with (map ent_off (seqZ 0 32)). rewrite (find_ent_run _ (slot_is ents (num ino) nm)).
  2:{ intros k Hk%elem_of_seqZ. apply ent_is_run; [done..|]. unfold NENTS. lia. }
  pose proof (find_is ents (d_names s) (num ino) nm Hm (proj1 Hs) Hne) as Hf. cbn [dstep]. destruct (List.find _ _) as [k|].
  - destruct Hf as [Ek Em]. rewrite decide_True by done. cbn [fmap option_fmap option_map fst snd].
    rewrite (bind_run _ _ f1 (Some (ent_off k)) f1) by done.
    destruct (erase_dirent_run _ _ _ _ _ Hs Hvl Ek) as (w1 & w2 & E1 & E2 & A2 & S2).
    rewrite Hbl, E1, (bind_run _ _ f1 w1 f1), E2, (bind_run _ _ f1 w2 f1) by done.
    destruct (put_dirt_spec f1 l1 i b w2) as (f3 & E3 & R3 & V3); [done..|by rewrite Hbn|done|unfold alen in A2; lia|].
    apply bind_Some in E3 as ([] & f2 & Eu & E3). apply bind_Some in E3 as (r & f3' & Ep & [= ->]).
    assert (T3 : tables_kept f f3).
    { eapply tables_kept_trans; [exact Tb|]. eapply tables_kept_trans; [exact (keeps_upd_buf _ _ _ _ _ Eu)|exact (keeps_put_dirt _ _ _ _ Ep)]. }
    pose proof Hx as Hx3. rewrite <- (tk_inodes _ _ T3) in Hx3.
    pose proof (updi_run f3 ino x (fun x => x <| i_nlinks ::= Z.pred |>) Hx3) as E4.
    rewrite (bind_run _ _ _ _ _ Eu), (bind_run _ _ _ _ _ Ep), (bind_run _ _ _ _ _ E4). eexists. split; [done|]. split.
    + eapply (rep_edited s f _ _ ino x (-1) w2); [done|exact R3|done|exact (tk_at _ _ T3)|done| | |].
      * change (inode_table (f3 <| inode_table := ?t |>)) with t. by rewrite (tk_inodes _ _ T3).
      * change (view_of f3 bnr = w2). rewrite V3, Hbn, decide_True by (done || (unfold is_block in Hblk; lia)). done.
      * split; [done|]. eexists. split; [exact S2|]. by eapply slots_map_remove.
    + intros m Hm0 Hmb. change (view_of f3 m = view_of f m). rewrite V3, Hbn, decide_False by done. by apply V1.
  - rewrite decide_False by done. cbn [fmap option_fmap option_map fst snd].
    destruct (put_dir _ _ _ _ _ _ _ Hrep T) as (f2 & E2 & R2 & _ & V2).
    rewrite (bind_run _ _ f1 None f1), (bind_run _ _ _ _ _ E2) by done. exists f2. split; [|split; [done|auto]].
    destruct (dr_dir _ _ _ _ _ _ _ _ R2) as (d2 & Hd2 & Hdi2). apply (remove_zeros _ _ _ _ d2); [done|]. by apply other_zones.
Qed.

Lemma dserve_run s f r :
  rep s f -> dreq_ok n s r ->
  exists f', dserve uid gid dir r f = Some ((dstep num s r).1, f') /\ rep (dstep num s r).2 f' /\
    forall m, m <> 0 -> m <> bnr -> view_of f' m = view_of f m.
Proof.
  intros Hrep Hok. destruct r as [nm|ino nm|ino nm]; [|by apply add_run|by apply remove_run].
  destruct Hok as [Hnm Hne]. destruct (advance_run s f nm Hrep Hnm Hne) as (f' & E & R & _ & V). exists f'. auto.
Qed.

(** C7: a directory refines a finite map.  Starting from a state that stands for
    the map [s], any sequence of look-ups, removals and insertions on a directory of
    one block terminates and answers as the map from names to inode numbers does, as
    long as each insertion is of an absent name and finds fewer than 31 in the block;
    the link counts of the inodes go up and down with it, and no other
    block of the disk changes.  A look-up of an absent name gives ERR, an insertion of
    a name of 30 characters or more ENAMETOOLONG, a removal of an absent name or of
    another inode ENOENT. *)
Theorem directory_refines rs : forall s f,
  rep s f -> dreqs_ok num n s rs ->
  exists f', dserves uid gid dir rs f = Some ((drun num s rs).1, f') /\ rep (drun num s rs).2 f' /\
    forall m, m <> 0 -> m <> bnr -> view_of f' m = view_of f m.
Proof.
  induction rs as [|r rs IH]; intros s f Hrep Hok; [by exists f|]. destruct Hok as [Hr Hrs].
  destruct (dserve_run s f r Hrep Hr) as (f1 & E1 & R1 & V1). cbn [dserves drun] in *.
  destruct (dstep num s r) as [x s1]. cbn [fst snd] in *. destruct (IH s1 f1 R1 Hrs) as (f2 & E2 & R2 & V2).
  destruct (drun num s1 rs) as [xs s2]. cbn [fst snd] in *. exists f2. split; [|split; [done|]].
  - by rewrite (bind_run _ _ _ _ _ E1), (bind_run _ _ _ _ _ E2).
  - intros m H0 Hb. rewrite V2, V1 by done. done.
Qed.
End directory.

(** An empty directory, inode 1, and the file with inode 2: the file is linked
    under a name, found, unlinked and not found any more. *)
Definition dir_sample : fsst :=
  mkFs [] [inode_zero <| i_dev := ROOTFS_DEV |> <| i_mode := S_IFDIR |> <| i_num := 1 |> <| i_nlinks := 2 |> <| i_zone := 7 :: replicate 7 0 |>;
           inode_zero <| i_dev := ROOTFS_DEV |> <| i_mode := S_IFREG |> <| i_num := 2 |>] []
    start_bufs (Some 3) (Some 0) (root_sb sample_fs) (fun _ => 0) DISK_SIZE (buf_at sample_fs).

Definition dir_sample_num (i : Z) : Z := i + 1.
Definition dir_sample_map : dmap := mkDmap ∅ (fun i => if i =? 0 then 2 else 0).
Definition dir_sample_reqs : list dreq := [DAdd 1 [97; 98]; DLookup [97; 98]; DLookup [99]; DRemove 1 [97; 98]; DLookup [97; 98]].

Definition empty_slots : list (list Z * Z) := replicate 31 ([], 0).

Lemma empty_slots_get k e : aget empty_slots k = Some e -> 0 <= k < NENTS /\ e = ([], 0).
Proof.
  intros E. split; [exact (aget_Some_bound _ _ _ E)|]. unfold aget in E. case_decide; [|done].
  by apply lookup_replicate in E as [-> _].
Qed.

Lemma empty_slots_rep : slots_rep zero_block empty_slots.
Proof.
  assert (Hz : forall j, 0 <= j < BLOCK_SIZE -> aget zero_block j = Some 0).
  { intros j Hj. unfold aget, zero_block. rewrite decide_True by lia. apply lookup_replicate. lia. }
  split; [done|]. intros k nm num [Hk [= -> ->]]%empty_slots_get.
  assert (0 <= ent_off k < 1000) by (unfold ent_off, NENTS, WINIX_DIRENT_LEN in *; lia).
  assert (HB : BLOCK_SIZE = 1024) by done. split; [by split|]. split; apply Hz; unfold d_name_off, d_ino_off; lia.
Qed.

Lemma empty_slots_map : slots_map empty_slots ∅.
Proof.
  split.
  - intros nm num. rewrite lookup_empty. split; [done|]. by intros (Hne & k & [_ [= -> _]]%empty_slots_get).
  - intros k k' nm n1 n2 [_ [= -> _]]%empty_slots_get. done.
Qed.

Lemma zero_dir_block : dir_block zero_block ∅.
Proof.
  split; [by unfold alen, zero_block; rewrite length_replicate|]. exists empty_slots.
  split; [exact empty_slots_rep|exact empty_slots_map].
Qed.

Lemma directory_refines_witness :
  exists f', dserves 0 0 0 dir_sample_reqs dir_sample = Some ([OK; 2; ERR; OK; ERR], f').
Proof.
  destruct (directory_refines 0 0 0 7 dir_sample_num 2 dir_sample_reqs dir_sample_map dir_sample) as (f' & E & _).
  - destruct (start_rep dir_sample) as [R V]; [reflexivity..|]. split.
    + exists (seqZ 0 LRU_LEN). split; [exact R|by unfold free_list].
    + by split.
    + eexists. split; [reflexivity|]. unfold dir_inode. split_and!; reflexivity.
    + reflexivity.
    + intros i x Hx. pose proof (aget_Some_bound _ _ _ Hx) as Hb. change (0 <= i < 2) in Hb.
      assert (i = 0 \/ i = 1) as [-> | ->] by lia; cbn in Hx; injection Hx as <-; done.
    + rewrite V by done. exact zero_dir_block.
    + intros i. change (256 <= 8192 + 1030 * (i mod 4) < 0x100000). zlia.
  - assert (Hab : Forall is_char [97; 98]) by (repeat (apply Forall_cons; split; [done|]); by apply Forall_nil).
    assert (Hc : Forall is_char [99]) by (apply Forall_cons; split; [done|by apply Forall_nil]).
    split; [split; [done|split; [done|split; [done|split; vm_compute; reflexivity]]]|]. split; [by split|]. split; [by split|].
    split; [split_and!; done|]. split; [by split|done].
  - exists f'. rewrite E. f_equal.
Defined.
