(* ===== verification/Paths.v ===== *)
(** * Path resolution

    [get_name], [eath_loop] and [__eath_path] of fs/path.c on a tree of directories
    whose inodes are in memory: a path resolves to the inode that the maps of the
    directories along it lead to. *)
From S2P Require Import Prelude Bitmap Linked CString Kernel Cache Coherence Blocks Inode Dirs.

Definition SLASH : Z := 47.

(** ** Splitting a path *)
(** A name that the array of [get_name] holds with its end. *)
Definition component_ok (x : list Z) : Prop := (alen x < NAME_MAX /\ Forall is_char x) /\ x <> [] /\ SLASH ∉ x.

(** [p] spells the names with one or more slashes between them, and any number
    before the first and after the last. *)
Inductive spells : list Z -> list (list Z) -> Prop :=
  | spells_nil k : spells (replicate k SLASH) []
  | spells_cons k x p names :
      component_ok x -> spells p names -> (p = [] \/ head p = Some SLASH) ->
      spells (replicate k SLASH ++ x ++ p) (x :: names).

Lemma skip_slashes_cons c p pos : skip_slashes (c :: p) pos = if c =? 47 then skip_slashes p (pos + 1) else (c :: p, pos).
Proof. destruct c as [|q|q]; try done. repeat (destruct q as [q|q|]; try done). Qed.

Lemma skip_slashes_spec (k : nat) : forall p pos, head p <> Some SLASH -> skip_slashes (replicate k SLASH ++ p) pos = (p, pos + Z.of_nat k).
Proof.
  induction k as [|k IH]; intros p pos Hp.
  - cbn [replicate app]. rewrite Z.add_0_r. destruct p as [|c p]; [done|]. rewrite skip_slashes_cons.
    rewrite (proj2 (Z.eqb_neq c 47)); [done|]. intros ->. by apply Hp.
  - cbn [replicate app]. rewrite skip_slashes_cons. change (SLASH =? 47) with true. cbn iota. rewrite IH by done. f_equal. lia.
Qed.

Lemma skip_trailing_cons c p pos :
  skip_trailing (c :: p) pos = if (c =? 47) && (pos <? PATH_MAX) then skip_trailing p (pos + 1) else (c :: p, pos).
Proof. destruct c as [|q|q]; try done. repeat (destruct q as [q|q|]; try done). Qed.

Lemma skip_trailing_spec (k : nat) : forall p pos,
  head p <> Some SLASH -> pos + Z.of_nat k <= PATH_MAX -> skip_trailing (replicate k SLASH ++ p) pos = (p, pos + Z.of_nat k).
Proof.
  induction k as [|k IH]; intros p pos Hp Hk.
  - cbn [replicate app]. rewrite Z.add_0_r. destruct p as [|c p]; [done|]. rewrite skip_trailing_cons.
    rewrite (proj2 (Z.eqb_neq c 47)); [done|]. intros ->. by apply Hp.
  - cbn [replicate app]. rewrite skip_trailing_cons. change (SLASH =? 47) with true.
    rewrite (proj2 (Z.ltb_lt pos PATH_MAX)) by lia. cbn iota beta delta [andb]. rewrite IH by (done || lia). f_equal. lia.
Qed.

Lemma copy_name_spec x : forall p pos np,
  SLASH ∉ x -> (p = [] \/ head p = Some SLASH) -> pos + alen x <= PATH_MAX -> alen np + alen x <= NAME_MAX ->
  copy_name (x ++ p) pos np = (np ++ x, p, pos + alen x).
Proof.
  induction x as [|c x IH]; intros p pos np Hx Hp Hpos Hnp; unfold alen in *; cbn [app length] in *.
  - rewrite app_nil_r, Z.add_0_r. destruct p as [|c p]; [done|]. destruct Hp as [|[= ->]]; [done|]. cbn [copy_name].
    by rewrite Z.eqb_refl, andb_false_r.
  - cbn [copy_name]. rewrite (proj2 (Z.ltb_lt pos PATH_MAX)) by lia.
    rewrite (proj2 (Z.eqb_neq c 47)) by (intros ->; apply Hx; by left). cbn [andb negb].
    unfold alen. rewrite (proj2 (Z.ltb_lt _ NAME_MAX)) by lia. rewrite IH; [|by intros ?; apply Hx; right|done|lia|].
    + rewrite <- app_assoc. f_equal. lia.
    + rewrite length_app. cbn. lia.
Qed.

Lemma spells_head p names : spells p names -> exists k r, p = replicate k SLASH ++ r /\ head r <> Some SLASH /\ spells r names /\
  (r = [] <-> names = []).
Proof.
  intros H. destruct H as [k|k x p names Hx Hp Hh].
  - exists k, []. split; [by rewrite app_nil_r|]. split; [done|]. split; [exact (spells_nil 0)|done].
  - exists k, (x ++ p). split; [done|]. destruct Hx as (Hn & Hne & Hs). destruct x as [|c x]; [done|]. split; [|split].
    + cbn. intros [= ->]. apply Hs. by left.
    + exact (spells_cons 0 (c :: x) p names (conj Hn (conj Hne Hs)) Hp Hh).
    + done.
Qed.

(** The first name and a path that spells the others. *)
Lemma get_name_spec p x names :
  spells p (x :: names) -> alen p < PATH_MAX ->
  exists rest, get_name p = (x, Some rest) /\ spells rest names /\ (rest = [] <-> names = []) /\ (length rest < length p)%nat.
Proof.
  intros H Hl. inversion H as [|k x' p' names' Hx Hp' Hh Ep En]; subst. clear H. pose proof Hx as ([Hlen _] & Hne & Hs).
  destruct (spells_head _ _ Hp') as (j & r & -> & Hr & Hsr & Hnil). exists r.
  unfold alen in Hl. rewrite !length_app, !length_replicate in Hl. 
  unfold get_name. rewrite skip_slashes_spec by (destruct x as [|c x]; [done|]; cbn; intros [= ->]; apply Hs; by left).
  rewrite copy_name_spec; [|done|done|unfold alen; lia|unfold NAME_MAX, alen in *; cbn [length]; lia]. cbn iota beta. rewrite app_nil_l.
  rewrite skip_trailing_spec by (done || (unfold alen; lia)). rewrite Z.geb_leb, (proj2 (Z.leb_gt PATH_MAX _)) by (unfold alen; lia).
  split; [done|]. split; [done|]. split; [done|]. rewrite !length_app, !length_replicate. destruct x; [done|]. cbn. lia.
Qed.

(** ** A tree of directories in memory *)

(** The directories by the slots of their inodes: their block and their map. *)
Definition dirtree := gmap Z (Z * gmap (list Z) Z).

Definition in_core (f : fsst) (n : Z) : option Z := find_inode (inode_table f) 0 n.

(** [bdev] marks the inodes of block devices.  S_IFBLK shares a bit with S_IFDIR, so
    the test of the walk takes them for directories; they have no blocks. *)
Record tree_rep (t : dirtree) (bdev : Z -> bool) (core : Z -> option Z) (f : fsst) : Prop := {
  tr_cache : exists l, cache_rep f l /\ free_list l;
  tr_dirs : forall s b m, t !! s = Some (b, m) -> is_block b /\ dir_block (view_of f b) m /\
    exists d, aget (inode_table f) s = Some d /\ S_ISDIR (i_mode d) = true /\ i_dev d = ROOTFS_DEV /\ i_zone d = b :: replicate 7 0;
  tr_flag : forall s d, aget (inode_table f) s = Some d -> has (i_mode d) S_IFDIR = bool_decide (is_Some (t !! s)) || bdev s;
  tr_bdev : forall s d, aget (inode_table f) s = Some d -> bdev s = true -> t !! s = None /\ i_zone d = replicate 8 0;
  tr_core : forall n, in_core f n = core n;
  tr_names : forall s b m nm n, t !! s = Some (b, m) -> m !! nm = Some n -> n <> ERR /\ is_Some (core n);
  tr_at : forall i, 256 <= buf_at f i < 0x100000
}.

(** The walk along the names: the result, the last directory, the inode found and
    the last name looked at.  Nothing is found in a block device. *)
Fixpoint resolve (t : dirtree) (bdev : Z -> bool) (core : Z -> option Z) (s : Z) (names : list (list Z)) : Z * option Z * option Z * list Z :=
  match names with
  | [] => if bool_decide (is_Some (t !! s)) || bdev s then (OK, Some s, None, []) else (ENOTDIR, None, None, [])
  | x :: names' =>
      match t !! s with
      | None => if bdev s then (OK, if bool_decide (names' = []) then Some s else None, None, x) else (ENOTDIR, None, None, x)
      | Some (_, m) =>
          match m !! x with
          | None => (OK, if bool_decide (names' = []) then Some s else None, None, x)
          | Some n =>
              if bool_decide (names' = []) then (OK, Some s, core n, x)
              else match core n with Some s' => resolve t bdev core s' names' | None => (ENOENT, None, None, x) end
          end
      end
  end.

(** Reference counts are all that a resolution changes. *)
Definition same_inodes (f f' : fsst) : Prop :=
  (fun i : inode_t => i <| i_count := 0 |>) <$> inode_table f' = (fun i : inode_t => i <| i_count := 0 |>) <$> inode_table f.

Lemma same_inodes_aget f f' s d :
  same_inodes f f' -> aget (inode_table f') s = Some d ->
  exists d0, aget (inode_table f) s = Some d0 /\ d0 <| i_count := 0 |> = d <| i_count := 0 |>.
Proof.
  unfold same_inodes, aget. intros H. case_decide; [|done]. intros Hd.
  assert (E : ((fun i : inode_t => i <| i_count := 0 |>) <$> inode_table f) !! Z.to_nat s = Some (d <| i_count := 0 |>))
    by (rewrite <- H, list_lookup_fmap, Hd; done).
  rewrite list_lookup_fmap in E. destruct (inode_table f !! Z.to_nat s) as [d0|]; [|done]. exists d0. split; [done|]. exact (inj Some _ _ E).
Qed.

Lemma find_inode_same l : forall l' i n,
  (fun i : inode_t => i <| i_count := 0 |>) <$> l' = (fun i : inode_t => i <| i_count := 0 |>) <$> l ->
  find_inode l' i n = find_inode l i n.
Proof.
  induction l as [|d l IH]; intros [|d' l'] i n H; try done. rewrite !fmap_cons in H. apply (f_equal (fun q => (head q, tail q))) in H. apply pair_equal_spec in H as [H1 H2]. cbn [find_inode].
  assert (E : i_num d' = i_num d) by (apply (inj Some) in H1; exact (f_equal i_num H1)).
  rewrite E. destruct (i_num d =? n); [done|]. by apply IH.
Qed.

Lemma tree_rep_kept t bdev core f f' l :
  tree_rep t bdev core f -> cache_rep f' l -> free_list l -> buf_at f' = buf_at f -> same_inodes f f' ->
  (forall m, m <> 0 -> view_of f' m = view_of f m) -> tree_rep t bdev core f'.
Proof.
  intros [_ Hd Hf Hbd Hc Hn Ha] Hr Hfr Hat Hi V.
  assert (Hi' : same_inodes f' f) by (unfold same_inodes; by rewrite Hi). split.
  - by exists l.
  - intros s b m Hs. destruct (Hd s b m Hs) as (Hb & Hm & d & Ed & H1 & H2 & H3). split; [done|]. split; [rewrite V; [done|unfold is_block in Hb; lia]|].
    destruct (same_inodes_aget _ _ _ _ Hi' Ed) as (d' & Ed' & E). exists d'. split; [done|].
    change (i_mode d) with (i_mode (d <| i_count := 0 |>)) in H1. change (i_dev d) with (i_dev (d <| i_count := 0 |>)) in H2.
    change (i_zone d) with (i_zone (d <| i_count := 0 |>)) in H3. rewrite <- E in H1, H2, H3. done.
  - intros s d Ed. destruct (same_inodes_aget _ _ _ _ Hi Ed) as (d0 & Ed0 & E). rewrite <- (Hf s d0 Ed0).
    change (has (i_mode (d <| i_count := 0 |>)) S_IFDIR = has (i_mode (d0 <| i_count := 0 |>)) S_IFDIR). by rewrite E.
  - intros s d Ed Hb. destruct (same_inodes_aget _ _ _ _ Hi Ed) as (d0 & Ed0 & E). destruct (Hbd s d0 Ed0 Hb) as [H1 H2]. split; [done|].
    change (i_zone (d <| i_count := 0 |>) = replicate 8 0). by rewrite <- E.
  - intros n. rewrite <- Hc. unfold in_core. by apply find_inode_same.
  - done.
  - by rewrite Hat.
Qed.

Lemma updi_count_same f s d g :
  aget (inode_table f) s = Some d -> (forall d : inode_t, g d <| i_count := 0 |> = d <| i_count := 0 |>) ->
  same_inodes f (f <| inode_table := <[Z.to_nat s := g d]> (inode_table f) |>).
Proof.
  intros Hd Hg. unfold same_inodes. change (inode_table (f <| inode_table := ?t |>)) with t. rewrite list_fmap_insert, Hg.
  apply list_insert_id. unfold aget in Hd. case_decide; [|done]. by rewrite list_lookup_fmap, Hd.
Qed.

Lemma tree_count t bdev core f s d g :
  tree_rep t bdev core f -> aget (inode_table f) s = Some d -> (forall d : inode_t, g d <| i_count := 0 |> = d <| i_count := 0 |>) ->
  let f' := f <| inode_table := <[Z.to_nat s := g d]> (inode_table f) |> in
  updi s g f = Some (tt, f') /\ tree_rep t bdev core f' /\ same_inodes f f' /\ view_of f' = view_of f.
Proof.
  intros Hrep Hd Hg f'. pose proof (updi_count_same f s d g Hd Hg) as Hsame. split; [by apply updi_run|].
  split; [|split; [done|done]]. destruct (tr_cache _ _ _ _ Hrep) as (l & Hr & Hl). by eapply (tree_rep_kept t bdev core f f' l).
Qed.

Lemma find_inode_Some l : forall i n s, find_inode l i n = Some s -> i <= s /\ exists d, l !! Z.to_nat (s - i) = Some d /\ i_num d = n.
Proof.
  induction l as [|d l IH]; intros i n s; [done|]. cbn [find_inode]. destruct (Z.eqb_spec (i_num d) n) as [E|].
  - intros [= ->]. split; [lia|]. exists d. by rewrite Z.sub_diag.
  - intros (Hle & d' & Hd' & En)%IH. split; [lia|]. exists d'. split; [|done].
    replace (Z.to_nat (s - i)) with (S (Z.to_nat (s - (i + 1)))) by lia. done.
Qed.

(** [get_inode] of an inode in memory counts one more reference. *)
Lemma get_inode_core t bdev core f n dev s :
  tree_rep t bdev core f -> core n = Some s ->
  exists f', get_inode n dev f = Some (s, f') /\ tree_rep t bdev core f' /\ same_inodes f f' /\ view_of f' = view_of f.
Proof.
  intros Hrep Hc. rewrite <- (tr_core _ _ _ _ Hrep) in Hc. unfold in_core in Hc. destruct (find_inode_Some _ _ _ _ Hc) as (Hs & d & Hd & _).
  rewrite Z.sub_0_r in Hd. assert (Hd' : aget (inode_table f) s = Some d) by (unfold aget; by rewrite decide_True).
  destruct (tree_count t bdev core f s d (fun x => x <| i_count ::= Z.succ |>) Hrep Hd') as (E & R & S & V); [done|].
  eexists. split; [|split; [exact R|split; [exact S|exact V]]]. unfold get_inode. rewrite (bind_run _ _ f f f), Hc by done.
  by rewrite (bind_run _ _ _ _ _ E).
Qed.

(** Looking a name up in a directory of the tree. *)
Lemma advance_tree t bdev core f s b m x :
  tree_rep t bdev core f -> t !! s = Some (b, m) -> component_ok x ->
  exists f', advance s x f = Some (default ERR (m !! x), f') /\ tree_rep t bdev core f' /\ same_inodes f f' /\
    forall n, n <> 0 -> view_of f' n = view_of f n.
Proof.
  intros Hrep Hs (Hx & Hne & _). pose proof Hrep as [Hc Hd _ _ _ _ Ha]. destruct (Hd s b m Hs) as (Hb & Hm & d & Ed & H1 & H2 & H3).
  set (info g i := default 0 (g <$> aget (inode_table f) i) : Z).
  assert (R : dir_rep 0 0 s b (info i_num) (alen (inode_table f)) (mkDmap m (info i_nlinks)) f).
  { split; [done|done| |done| |done|done].
    - exists d. split; [done|]. by repeat split.
    - intros i y Hy. unfold info. cbn [d_links]. by rewrite Hy. }
  destruct (advance_run 0 0 s b _ _ _ f x R (proj2 Hx) Hne) as (f' & E & R' & T & V). exists f'. split; [exact E|].
  assert (Hsame : same_inodes f f') by (unfold same_inodes; by rewrite (tk_inodes _ _ T)). split; [|done].
  destruct (dr_cache _ _ _ _ _ _ _ _ R') as (l & Hr & Hl). by eapply (tree_rep_kept t bdev core f f' l); [| | |exact (tk_at _ _ T)| |].
Qed.

Lemma core_slot t bdev core f n s : tree_rep t bdev core f -> core n = Some s -> is_Some (aget (inode_table f) s).
Proof.
  intros Hrep Hc. rewrite <- (tr_core _ _ _ _ Hrep) in Hc. destruct (find_inode_Some _ _ _ _ Hc) as (Hs & d & Hd & _).
  rewrite Z.sub_0_r in Hd. exists d. unfold aget. by rewrite decide_True.
Qed.

Definition same_views (f f' : fsst) : Prop := forall n, n <> 0 -> view_of f' n = view_of f n.

Lemma put_inode_run t bdev core f s :
  tree_rep t bdev core f -> is_Some (aget (inode_table f) s) ->
  exists f', put_inode (Some s) false f = Some (OK, f') /\ tree_rep t bdev core f' /\ same_inodes f f' /\ same_views f f'.
Proof.
  intros Hrep [d Hd]. destruct (tree_count t bdev core f s d (fun x => x <| i_count ::= Z.pred |>) Hrep Hd) as (E & R & S & V); [done|].
  eexists. split; [|split; [exact R|split; [exact S|by intros n _; rewrite V]]]. unfold put_inode. by rewrite (bind_run _ _ _ _ _ E).
Qed.

(** A block device has no blocks to look in. *)
Lemma advance_bdev t bdev core f s d x :
  tree_rep t bdev core f -> aget (inode_table f) s = Some d -> bdev s = true -> advance s x f = Some (ERR, f).
Proof.
  intros Hrep Hd Hb. destruct (tr_bdev _ _ _ _ Hrep s d Hd Hb) as [_ Hz]. unfold advance. case_bool_decide; [done|].
  apply (lookup_zeros _ _ _ _ d Hd). intros i Hi%elem_of_seqZ. rewrite Hz. unfold aget. rewrite decide_True by lia.
  apply lookup_replicate. unfold NR_TZONES in *. lia.
Qed.

Lemma get_name_slashes k : Z.of_nat k < PATH_MAX -> get_name (replicate k SLASH) = ([], Some []).
Proof.
  intros Hk. unfold get_name. pose proof (skip_slashes_spec k [] 0) as E. rewrite app_nil_r in E. rewrite E by done. cbn.
  by rewrite Z.geb_leb, (proj2 (Z.leb_gt PATH_MAX _)) by lia.
Qed.

Lemma walk_run fuel : forall names p t bdev core f s dev,
  tree_rep t bdev core f -> names <> [] -> spells p names -> alen p < PATH_MAX -> (length p < fuel)%nat -> is_Some (aget (inode_table f) s) ->
  exists f', eath_loop fuel s dev p f = Some (resolve t bdev core s names, f') /\
    tree_rep t bdev core f' /\ same_inodes f f' /\ same_views f f'.
Proof.
  induction fuel as [|fuel IH]; intros [|x names] p t bdev core f s dev Hrep Hne Hsp Hlen Hfuel [d Hd]; [lia|lia|done|].
  destruct (get_name_spec p x names Hsp Hlen) as (rest & En & Hsr & Hnil & Hshort).
  assert (Hx : component_ok x) by (by inversion Hsp).
  cbn [eath_loop resolve]. rewrite En, (bind_run _ _ _ _ _ (geti_run _ _ _ Hd)), (tr_flag _ _ _ _ Hrep s d Hd).
  rewrite (bool_decide_ext (rest = []) (names = []) Hnil).
  destruct (t !! s) as [[b m]|] eqn:Es.
  2:{ rewrite (bool_decide_false (is_Some None)) by by intros [? ?]. cbn [orb]. exists f. destruct (bdev s) eqn:Eb; cbn [negb]; [|by case_bool_decide].
      pose proof (advance_bdev t bdev core f s d x Hrep Hd Eb) as Ea. case_bool_decide; by rewrite (bind_run _ _ _ _ _ Ea). }
  rewrite (bool_decide_true (is_Some (Some _))) by by eexists. cbn [orb negb].
  destruct (advance_tree t bdev core f s b m x Hrep Es Hx) as (f1 & E1 & R1 & S1 & V1).
  destruct (decide (names = [])) as [->|Hn].
  - rewrite bool_decide_true by done. rewrite (bind_run _ _ _ _ _ E1). destruct (m !! x) as [n|] eqn:Em.
    + destruct (tr_names _ _ _ _ Hrep s b m x n Es Em) as [Hn' [s' Hs']].
      change (default ERR (Some n)) with n. rewrite (proj2 (Z.eqb_neq n ERR)) by done.
      destruct (get_inode_core t bdev core f1 n (i_dev d) s' R1 Hs') as (f2 & E2 & R2 & S2 & V2). rewrite (bind_run _ _ _ _ _ E2), Hs'.
      exists f2. split; [done|]. split; [done|]. split; [unfold same_inodes in *; congruence|]. intros j Hj. rewrite V2. by apply V1.
    + exists f1. done.
  - rewrite bool_decide_false by done. rewrite (bind_run _ _ _ _ _ E1). destruct (m !! x) as [n|] eqn:Em.
    + destruct (tr_names _ _ _ _ Hrep s b m x n Es Em) as [Hn' [s' Hs']].
      change (default ERR (Some n)) with n. rewrite (proj2 (Z.eqb_neq n ERR)) by done.
      destruct (put_inode_run t bdev core f1 s R1) as (f2 & E2 & R2 & S2 & V2).
      { destruct (tr_dirs _ _ _ _ R1 s b m Es) as (_ & _ & d1 & Hd1 & _). by exists d1. }
      rewrite (bind_run _ _ _ _ _ E2). destruct (get_inode_core t bdev core f2 n dev s' R2 Hs') as (f3 & E3 & R3 & S3 & V3).
      rewrite (bind_run _ _ _ _ _ E3), Hs'.
      destruct (IH names rest t bdev core f3 s' dev R3 Hn Hsr) as (f4 & E4 & R4 & S4 & V4); [unfold alen in *; lia|lia|by eapply core_slot|].
      exists f4. split; [exact E4|]. split; [done|]. split; [unfold same_inodes in *; congruence|].
      intros j Hj. rewrite V4, V3, V2 by done. by apply V1.
    + exists f1. split; [done|]. done.
Qed.

(** C6: a path resolves along the maps of its directories.  For a tree of
    directories whose inodes are in memory and a path of fewer than 128 characters
    that spells the names [names], each of fewer than 32, with any number of slashes
    between them, [__eath_path] terminates and returns what following the names from
    map to map gives: the last directory and the inode of the last name, or no inode
    when only the last name is missing, no directory either when an earlier one is,
    ENOTDIR at the first name that is looked up in something else but a block device,
    in which nothing is found; the directory itself for slashes alone; ENOENT for the
    empty path and from a directory that was removed.  Blocks do not change, and
    inodes only in their reference counts. *)
Theorem path_resolves names p t bdev core f s d :
  tree_rep t bdev core f -> spells p names -> alen p < PATH_MAX -> aget (inode_table f) s = Some d ->
  exists f', __eath_path s p f = Some (if decide (i_nlinks d = 0 \/ p = []) then (ENOENT, None, None, []) else resolve t bdev core s names, f') /\
    tree_rep t bdev core f' /\ same_inodes f f' /\ same_views f f'.
Proof.
  intros Hrep Hsp Hlen Hd. unfold __eath_path. rewrite (bind_run _ _ _ _ _ (geti_run _ _ _ Hd)).
  destruct (decide (i_nlinks d = 0 \/ p = [])) as [H|H].
  { exists f. split; [|done]. destruct H as [->| ->]; [done|]. by rewrite bool_decide_true, orb_true_r. }
  apply Decidable.not_or in H as [Hl Hp]. rewrite (proj2 (Z.eqb_neq _ 0)), bool_decide_false by done. cbn [orb].
  destruct (decide (names = [])) as [->|Hne]; [|apply walk_run; [done|done|done|done|lia|by exists d]].
  exists f. split; [|done]. inversion Hsp as [k Ek|]; subst. unfold alen in Hlen. rewrite length_replicate in Hlen.
  cbn [eath_loop resolve]. rewrite get_name_slashes, (bind_run _ _ _ _ _ (geti_run _ _ _ Hd)), (tr_flag _ _ _ _ Hrep s d Hd), bool_decide_true by done.
  by destruct (bool_decide (is_Some (t !! s)) || bdev s).
Qed.

(** The root directory, in slot 0, has an entry "a" for the empty directory with
    inode 2, in slot 1. *)
Definition tree_disk : memory := fun a => if a =? 7168 then 2 else if a =? 7170 then 97 else 0.
Definition tree_dir (num b : Z) : inode_t :=
  inode_zero <| i_dev := ROOTFS_DEV |> <| i_mode := S_IFDIR |> <| i_num := num |> <| i_nlinks := 2 |> <| i_zone := b :: replicate 7 0 |>.
Definition tree_sample : fsst :=
  mkFs [] [tree_dir 1 7; tree_dir 2 8] [] start_bufs (Some 3) (Some 0) (root_sb sample_fs) tree_disk DISK_SIZE (buf_at sample_fs).
Definition tree_map : dirtree := {[ 0 := (7, {[ [97] := 2 ]}); 1 := (8, ∅) ]}.
Definition tree_core (n : Z) : option Z := if 1 =? n then Some 0 else if 2 =? n then Some 1 else None.

Lemma tree_words j : 0 <= j < BLOCK_SIZE -> aget (disk_block tree_disk 7) j = Some (tree_disk (7168 + j)).
Proof.
  intros Hj. unfold aget, disk_block, mem_words. rewrite decide_True by lia. rewrite list_lookup_fmap, lookup_seqZ_lt by lia.
  cbn [fmap option_fmap option_map]. do 2 f_equal. change (7 * BLOCK_SIZE) with 7168. lia.
Qed.

Lemma tree_block : dir_block (disk_block tree_disk 7) {[ [97] := 2 ]}.
Proof.
  assert (HB : BLOCK_SIZE = 1024) by done.
  assert (Hlen : alen (disk_block tree_disk 7) = BLOCK_SIZE) by (unfold alen, disk_block; rewrite length_mem_words; lia).
  split; [done|]. exists (<[Z.to_nat 0 := ([97], 2)]> empty_slots). split.
  - eapply (slots_update zero_block); [exact empty_slots_rep|done|split; [done|by apply Forall_singleton]| | |].
    + cbn [str_at]. split; rewrite tree_words; done.
    + by rewrite tree_words.
    + intros j Hj. change (ent_off 0) with 0 in Hj. unfold WINIX_DIRENT_LEN in Hj. destruct (decide (0 <= j < BLOCK_SIZE)).
      * rewrite tree_words by done. unfold tree_disk. rewrite !(proj2 (Z.eqb_neq _ _)) by lia.
        unfold aget, zero_block. rewrite decide_True by lia. symmetry. apply lookup_replicate. lia.
      * rewrite !aget_oob; [done| |by rewrite Hlen]. unfold alen, zero_block. rewrite length_replicate. lia.
  - apply (slots_map_add _ _ _ _ _ 0 empty_slots_map); done.
Qed.

Lemma tree_sample_rep : tree_rep tree_map (fun _ => false) tree_core tree_sample.
Proof.
  destruct (start_rep tree_sample) as [R V]; [reflexivity..|].
  assert (H0 : tree_map !! 0 = Some (7, {[ [97] := 2 ]})) by reflexivity. assert (H1 : tree_map !! 1 = Some (8, ∅)) by reflexivity.
  assert (Hs : forall s e, tree_map !! s = Some e -> s = 0 \/ s = 1).
  { intros s e E. unfold tree_map, dirtree in E. apply lookup_insert_Some in E as [[<- _]|[_ E]]; [by left|].
    apply lookup_singleton_Some in E as [<- _]. by right. }
  split.
  - exists (seqZ 0 LRU_LEN). split; [exact R|by unfold free_list].
  - intros s b m E. destruct (Hs s _ E) as [->| ->]; [rewrite H0 in E|rewrite H1 in E]; injection E as <- <-; rewrite V by done.
    + split; [by split|]. split; [exact tree_block|]. exists (tree_dir 1 7). by split_and!.
    + split; [by split|]. split; [|exists (tree_dir 2 8); by split_and!]. exact zero_dir_block.
  - intros s d E. pose proof (aget_Some_bound _ _ _ E) as Hb. change (0 <= s < 2) in Hb.
    assert (s = 0 \/ s = 1) as [->| ->] by lia; [rewrite H0|rewrite H1]; cbn in E; injection E as <-; reflexivity.
  - done.
  - intros n. reflexivity.
  - intros s b m nm n E Hn. destruct (Hs s _ E) as [->| ->]; [rewrite H0 in E|rewrite H1 in E]; injection E as <- <-.
    + apply lookup_singleton_Some in Hn as [_ <-]. split; [done|by exists 1].
    + by rewrite lookup_empty in Hn.
  - intros i. change (256 <= 8192 + 1030 * (i mod 4) < 0x100000). zlia.
Qed.

(** "/a//x": the directory of inode 2 is reached, and "x" is missing in it. *)
Lemma path_resolves_witness :
  exists f', __eath_path 0 [47; 97; 47; 47; 120] tree_sample = Some ((OK, Some 1, None, [120]), f').
Proof.
  assert (Ha : forall c, c = 97 \/ c = 120 -> component_ok [c]).
  { intros c Hc. split; [split; [done|apply Forall_singleton; unfold is_char; lia]|]. split; [done|].
    intros E%list_elem_of_singleton. unfold SLASH in E. lia. }
  destruct (path_resolves [[97]; [120]] [47; 97; 47; 47; 120] tree_map (fun _ => false) tree_core tree_sample 0 (tree_dir 1 7)) as (f' & E & _).
  - exact tree_sample_rep.
  - apply (spells_cons 1 [97] [47; 47; 120] [[120]]); [apply Ha; by left| |by right].
    apply (spells_cons 2 [120] [] []); [apply Ha; by right|exact (spells_nil 0)|by left].
  - done.
  - reflexivity.
  - rewrite decide_False in E by (by intros [?|?]). exists f'. exact E.
Defined.
