(* ===== verification/Alloc.v ===== *)
(** * Block allocation

    [alloc_block] of fs/inode.c through the block cache, for a disk whose block map
    is one block: it hands out the free blocks in order, each once, and answers
    ENOSPC when none is left. *)
From Stdlib Require Import Sorted.
From S2P Require Import Prelude Bitmap Linked Kernel Cache Coherence Blocks Inode Dirs.

(** Blocks are numbered by the bits of the map. *)
Definition NBITS : Z := BLOCK_SIZE_WORD * 32.

(** [n] allocations for the inode in slot [ino]. *)
Fixpoint allocs (n : nat) (ino : Z) : F (list Z) :=
  match n with
  | O => mret []
  | S n' => r ← alloc_block ino ROOTFS_DEV; rs ← allocs n' ino; mret (r :: rs)
  end.

(** The map of used blocks as the cache shows it; block 0 is the super block. *)
Record map_rep (bm : Z) (used : Z -> bool) (f : fsst) : Prop := {
  mr_cache : exists l, cache_rep f l /\ free_list l;
  mr_nr : is_block bm /\ is_block (bm + 1);
  mr_sb : s_blockmapnr (root_sb f) = bm /\ s_blockmap_size (root_sb f) = BLOCK_SIZE;
  mr_map : wf_map (view_of f bm) BLOCK_SIZE_WORD;
  mr_bits : forall x, 0 <= x < NBITS -> bit (view_of f bm) x = used x;
  mr_super : used 0 = true
}.

(** The least free block, if there is one. *)
Definition least_free (used : Z -> bool) (r : Z) : Prop :=
  0 < r < NBITS /\ used r = false /\ forall x, 0 <= x < r -> used x = true.

Definition all_used (used : Z -> bool) : Prop := forall x, 0 <= x < NBITS -> used x = true.

Definition use (used : Z -> bool) (r : Z) : Z -> bool := fun x => used x || bool_decide (x = r).

Lemma search_first used l :
  wf_map l BLOCK_SIZE_WORD -> (forall x, 0 <= x < NBITS -> bit l x = used x) -> used 0 = true ->
  exists r, bitmap_search_from l BLOCK_SIZE_WORD 0 1 = Some r /\ (least_free used r \/ r <= 0 /\ all_used used).
Proof.
  intros Hwf Hb H0. rewrite search_from_scan by done. eexists. split; [done|].
  destruct (scan_spec (bit l) 1 (Z.to_nat (BLOCK_SIZE_WORD * 32 - 0)) 0 0) as [[-> H]|(H1 & H2 & H3 & H4)]; [lia|intros x; lia| |].
  - right. split; [done|]. intros x Hx. destruct (used x) eqn:E; [done|]. destruct (H x); [lia|unfold NBITS in Hx; lia|].
    intros y Hy. replace y with x by lia. by rewrite Hb.
  - set (r := scan _ _ _ _ _) in *. clearbody r. assert (Hr : 0 <= r < NBITS) by (unfold NBITS; lia).
    assert (Hfree : used r = false) by (rewrite <- Hb by done; apply H3; lia). left.
    split; [|split; [done|]].
    + assert (r <> 0) by (intros ->; congruence). lia.
    + intros x Hx. destruct (used x) eqn:E; [done|]. destruct (H4 x); [lia|]. intros y Hy. replace y with x by lia.
      rewrite Hb by lia. done.
Qed.

(** The super block and the inode are updated while the buffer is held. *)
Definition count_block (s : superblock) : superblock :=
  s <| s_block_inuse ::= (fun x => u32 (x + 1)) |> <| s_free_blocks ::= (fun x => u32 (x - 1)) |>.
Definition grow_inode (i : inode_t) : inode_t := i <| i_total_size ::= (fun x => u32 (x + BLOCK_SIZE)) |>.

(** What one allocation changes. *)
Record allocated (bm r ino : Z) (x : inode_t) (f f' : fsst) : Prop := {
  al_sb : root_sb f' = count_block (root_sb f);
  al_inodes : inode_table f' = <[Z.to_nat ino := grow_inode x]> (inode_table f);
  al_files : fd_table f' = fd_table f;
  al_view : forall m, m <> 0 -> m <> bm -> view_of f' m = view_of f m
}.

Lemma on_bitmap_run f i b g r m :
  aget (buf_table f) i = Some b -> g (block b) = Some (r, m) ->
  on_bitmap i g f = (_ ← upd_buf i (fun y => y <| block := m |>); mret r) f.
Proof.
  intros Hb Hg. unfold on_bitmap. rewrite (bind_run _ _ _ _ _ (get_buf_run _ _ _ Hb)), Hg. by rewrite (bind_run _ _ f (r, m) f).
Qed.

Lemma map_rep_kept bm used f f' l :
  map_rep bm used f -> cache_rep f' l -> free_list l -> tables_kept f f' -> (forall m, m <> 0 -> view_of f' m = view_of f m) ->
  map_rep bm used f'.
Proof.
  intros [_ Hn Hs Hm Hb H0] Hr Hf [_ _ T _] V. assert (Hv : view_of f' bm = view_of f bm) by (apply V; destruct Hn; unfold is_block in *; lia).
  split; [by exists l|done|by rewrite T|by rewrite Hv|by rewrite Hv|done].
Qed.

(** No bit is free: the loop looks at the block behind the map and stops. *)
Lemma alloc_full bm used f ino fuel i f1 l1 b :
  map_rep bm used f -> tables_kept f f1 -> cache_rep f1 l1 -> l1 <> [] -> i ∉ l1 -> free_list (l1 ++ [i]) ->
  (forall m, m <> 0 -> view_of f1 m = view_of f m) -> aget (buf_table f1) i = Some b ->
  exists f', (_ ← put_block_buffer i; bmap ← Cache.get_block (bm + 1) ROOTFS_DEV;
              alloc_block_loop (S fuel) ino ROOTFS_DEV bmap (bm + 1) (bm + 1)) f1 = Some (ENOSPC, f') /\
    map_rep bm used f' /\ tables_kept f f' /\ forall m, m <> 0 -> view_of f' m = view_of f m.
Proof.
  intros Hrep T1 R1 Hl1 Hi Hfr V1 Hb. pose proof Hrep as [_ [_ Hbm1] _ _ _ _].
  destruct (cache_rep_put f1 l1 i) as (f2 & E2 & R2 & V2); [done..|by eapply aget_Some_bound|]. rewrite (bind_run _ _ _ _ _ E2).
  destruct (take_block f2 (l1 ++ [i]) (bm + 1) R2 Hfr Hbm1) as (j & f3 & l3 & E3 & R3 & Hl3 & Hj & Hfr3 & V3 & b3 & Hb3 & Hn3 & _ & _).
  rewrite (bind_run _ _ _ _ _ E3). cbn [alloc_block_loop]. rewrite (bind_run _ _ _ _ _ (get_buf_run _ _ _ Hb3)), Hn3, Z.ltb_irrefl.
  destruct (cache_rep_put f3 l3 j) as (f4 & E4 & R4 & V4); [done..|by eapply aget_Some_bound|]. rewrite (bind_run _ _ _ _ _ E4).
  exists f4. split; [done|].
  assert (V : forall m, m <> 0 -> view_of f4 m = view_of f m) by (intros m Hm; rewrite V4, V3, V2, V1 by done; done).
  assert (T : tables_kept f f4).
  { eapply tables_kept_trans; [exact T1|]. eapply tables_kept_trans; [exact (keeps_put _ _ _ _ E2)|].
    eapply tables_kept_trans; [exact (keeps_get_block _ _ _ _ _ E3)|exact (keeps_put _ _ _ _ E4)]. }
  split; [|done]. by eapply map_rep_kept.
Qed.

(** One bit is set, the counters move, and the map goes back dirty. *)
Lemma alloc_found bm used f ino x r i f1 l1 b :
  map_rep bm used f -> tables_kept f f1 -> cache_rep f1 l1 -> l1 <> [] -> i ∉ l1 -> free_list (l1 ++ [i]) ->
  (forall m, m <> 0 -> view_of f1 m = view_of f m) -> aget (buf_table f1) i = Some b ->
  b_blocknr b = bm -> block b = view_of f bm -> b_dev b = ROOTFS_DEV -> aget (inode_table f) ino = Some x -> least_free used r ->
  exists f', (_ ← on_bitmap i (fun m => bitmap_set_bit m BLOCK_SIZE_WORD r);
     _ ← upd_sb (fun s => s <| s_block_inuse ::= (fun x => u32 (x + 1)) |> <| s_free_blocks ::= (fun x => u32 (x - 1)) |>);
     _ ← updi ino (fun i => i <| i_total_size ::= (fun x => u32 (x + BLOCK_SIZE)) |>);
     _ ← put_block_buffer_dirt i; mret r) f1 = Some (r, f') /\
    map_rep bm (use used r) f' /\ allocated bm r ino x f f'.
Proof.
  intros [_ Hn Hs Hm Hb H0] T1 R1 Hl1 Hi Hfr V1 Hbi Hbn Hbl Hbd Hx (Hr & Hfree & _). destruct Hn as [Hbm Hbm1].
  assert (Hbm0 : bm <> 0) by (unfold is_block in Hbm; lia).
  destruct (set_bit_ok _ _ r Hm) as (l' & El & Hwf' & Hbit'); [unfold NBITS in Hr; lia|].
  rewrite <- (tk_inodes _ _ T1) in Hx.
  set (g1 := f1 <| root_sb ::= count_block |> <| inode_table := <[Z.to_nat ino := grow_inode x]> (inode_table f1) |>).
  destruct (put_dirt_spec g1 l1 i b l') as (g3 & E3 & R3 & V3); [done..|by rewrite Hbn|done| |].
  { destruct Hwf' as [Hl' _]. unfold alen, BLOCK_SIZE_WORD in Hl'. change BLOCK_SIZE with 1024. lia. }
  apply bind_Some in E3 as ([] & g2 & Eu & E3). apply bind_Some in E3 as (v & g3' & Ep & [= ->]).
  pose proof (upd_buf_run f1 i b (fun y => y <| block := l' |>) Hbi) as Eb. set (f2 := f1 <| buf_table := _ |>) in Eb.
  assert (Hg2 : g2 = f2 <| root_sb ::= count_block |> <| inode_table := <[Z.to_nat ino := grow_inode x]> (inode_table f1) |>).
  { rewrite (upd_buf_run g1 i b _ Hbi) in Eu. by injection Eu as <-. }
  exists g3. split; [|].
  - erewrite bind_run by (rewrite (on_bitmap_run f1 i b _ OK l') by (done || by rewrite Hbl); by rewrite (bind_run _ _ _ _ _ Eb)).
    rewrite (bind_run _ _ f2 tt (f2 <| root_sb ::= count_block |>)) by done.
    set (f2' := f2 <| root_sb ::= count_block |>) in *. assert (Hin : inode_table f2' = inode_table f1) by done.
    assert (Hx2 : aget (inode_table f2') ino = Some x) by by rewrite Hin.
    rewrite (bind_run _ _ _ _ _ (updi_run f2' ino x _ Hx2)), Hin. fold (grow_inode x). rewrite <- Hg2.
    by rewrite (bind_run _ _ _ _ _ Ep).
  - assert (T3 : tables_kept g1 g3) by (eapply tables_kept_trans; [exact (keeps_upd_buf _ _ _ _ _ Eu)|exact (keeps_put_dirt _ _ _ _ Ep)]).
    assert (Hv : view_of g3 bm = l') by (rewrite V3, Hbn, decide_True by done; done).
    assert (Hsb : root_sb g3 = count_block (root_sb f)) by (rewrite (tk_super _ _ T3), <- (tk_super _ _ T1); done).
    split; split.
    + by exists (l1 ++ [i]).
    + done.
    + by rewrite Hsb.
    + by rewrite Hv.
    + intros y Hy. rewrite Hv, Hbit', Hb by (done || lia). done.
    + unfold use. by rewrite H0.
    + exact Hsb.
    + rewrite (tk_inodes _ _ T3). rewrite <- (tk_inodes _ _ T1). done.
    + rewrite (tk_files _ _ T3). exact (tk_files _ _ T1).
    + intros m Hm0 Hmb. rewrite V3, Hbn, decide_False by done. exact (V1 m Hm0).
Qed.

Lemma alloc_step bm used f ino x :
  map_rep bm used f -> aget (inode_table f) ino = Some x ->
  exists r f', alloc_block ino ROOTFS_DEV f = Some (r, f') /\
    ((least_free used r /\ map_rep bm (use used r) f' /\ allocated bm r ino x f f') \/
     (r = ENOSPC /\ all_used used /\ map_rep bm used f' /\ tables_kept f f' /\ forall m, m <> 0 -> view_of f' m = view_of f m)).
Proof.
  intros Hrep Hx. pose proof Hrep as [(l & Hr & Hf) [Hbm Hbm1] [Hs1 Hs2] Hm Hb H0].
  destruct (take_block f l bm Hr Hf Hbm) as (i & f1 & l1 & E1 & R1 & Hl1 & Hi & Hfr & V1 & b & Hbi & Hbn & Hbl & Hbd).
  pose proof (keeps_get_block _ _ _ _ _ E1) as T1.
  unfold alloc_block. rewrite (bind_run _ _ f (root_sb f) f), Hs1, (bind_run _ _ _ _ _ E1), Hs2 by done.
  cbv zeta. change (BLOCK_SIZE / BLOCK_SIZE) with 1. replace (u32 (bm + 1)) with (bm + 1) by (symmetry; apply u32_id; unfold is_u32, UINT_MOD, is_block, NBLOCKS in *; lia).
  rewrite (bind_run _ _ _ _ _ (get_buf_run _ _ _ Hbi)), Hbn. change (S (S (Z.to_nat 1))) with (S (S 1)). set (rest := S 1).
  cbn [alloc_block_loop]. rewrite (bind_run _ _ _ _ _ (get_buf_run _ _ _ Hbi)), Hbn, (proj2 (Z.ltb_lt bm (bm + 1))) by lia.
  destruct (search_first used (view_of f bm) Hm Hb H0) as (r & Es & [Hleast|[Hr0 Hall]]).
  - rewrite Hbl, Es, (bind_run _ _ f1 r f1) by done. rewrite (proj2 (Z.gtb_lt r 0)) by apply Hleast.
    destruct (alloc_found bm used f ino x r i f1 l1 b) as (f' & E & R' & A'); [done..|]. exists r, f'. split; [exact E|]. by left.
  - rewrite Hbl, Es, (bind_run _ _ f1 r f1) by done. rewrite Z.gtb_ltb, (proj2 (Z.ltb_ge 0 r)) by done.
    destruct (alloc_full bm used f ino 1 i f1 l1 b) as (f' & E & R' & T' & V'); [done..|]. exists ENOSPC, f'. split; [exact E|]. right. auto.
Qed.

(** [used] and the blocks of [rs]. *)
Definition used_with (used : Z -> bool) (rs : list Z) : Z -> bool := fun x => used x || bool_decide (x ∈ rs).

Lemma used_with_cons used r rs x : used_with (use used r) rs x = used_with used (r :: rs) x.
Proof.
  unfold used_with, use. rewrite <- orb_assoc. f_equal. rewrite <- bool_decide_or. apply bool_decide_ext. by rewrite elem_of_cons.
Qed.

Lemma map_rep_ext bm used used' f : (forall x, used x = used' x) -> map_rep bm used f -> map_rep bm used' f.
Proof. intros H [? ? ? ? Hb H0]. split; try done; [|by rewrite <- H]. intros x Hx. by rewrite Hb, H. Qed.

Definition same_but (bm : Z) (f f' : fsst) : Prop := forall m, m <> 0 -> m <> bm -> view_of f' m = view_of f m.

(** C16: [alloc_block] hands out free blocks, each one once, in order.  [n]
    allocations terminate; the successful ones come first, are blocks that were
    free, in ascending order, hence distinct; ENOSPC comes only when every block of
    the map is in use.  The block map marks exactly the old and the new blocks, the
    number of blocks in use grows by the number of successes, and no other block of
    the disk changes. *)
Theorem alloc_blocks_distinct n : forall bm used f ino,
  map_rep bm used f -> 0 <= ino < alen (inode_table f) -> is_u32 (s_block_inuse (root_sb f)) ->
  exists good k f', allocs n ino f = Some (good ++ replicate k ENOSPC, f') /\ (length good + k)%nat = n /\
    StronglySorted Z.lt good /\ Forall (fun r => 0 < r < NBITS /\ used r = false) good /\
    (k <> 0%nat -> all_used (used_with used good)) /\ map_rep bm (used_with used good) f' /\
    s_block_inuse (root_sb f') = u32 (s_block_inuse (root_sb f) + alen good) /\ same_but bm f f'.
Proof.
  induction n as [|n IH]; intros bm used f ino Hrep Hino Hu.
  - exists [], 0%nat, f. split; [done|]. split; [done|]. split; [by constructor|]. split; [by constructor|]. split; [done|].
    split; [|split; [by rewrite Z.add_0_r, u32_id|done]].
    eapply map_rep_ext; [|exact Hrep]. intros x. unfold used_with. by rewrite bool_decide_false, orb_false_r by apply not_elem_of_nil.
  - destruct (aget_in _ _ Hino) as [x Hx]. destruct (alloc_step bm used f ino x Hrep Hx) as (r & f1 & E1 & H). cbn [allocs].
    rewrite (bind_run _ _ _ _ _ E1). destruct H as [(Hl & R1 & [S1 I1 F1 V1])|(-> & Hall & R1 & T1 & V1)].
    + destruct (IH bm (use used r) f1 ino R1) as (good & k & f2 & E2 & Hlen & Hs & Hg & Hk & R2 & S2 & V2).
      { by rewrite I1, alen_insert. } { rewrite S1. apply u32_range. }
      rewrite (bind_run _ _ _ _ _ E2). exists (r :: good), k, f2. split; [done|]. split; [cbn; lia|].
      destruct Hl as (Hr & Hfree & Hless). rewrite Forall_forall in Hg. split; [|split; [|split; [|split; [|split]]]].
      * apply SSorted_cons; [done|]. apply Forall_forall. intros y Hy. destruct (Hg y Hy) as [Hy1 Hy2].
        unfold use in Hy2. apply orb_false_iff in Hy2 as [Hy2 Hy3]. apply bool_decide_eq_false in Hy3.
        destruct (Z.lt_trichotomy r y) as [|[|Hlt]]; [done|congruence|]. rewrite Hless in Hy2 by lia. done.
      * apply Forall_cons. split; [done|]. apply Forall_forall. intros y Hy. destruct (Hg y Hy) as [Hy1 Hy2].
        apply orb_false_iff in Hy2 as [Hy2 _]. done.
      * intros Hk0 y Hy. rewrite <- used_with_cons. by apply Hk.
      * eapply map_rep_ext; [|exact R2]. apply used_with_cons.
      * rewrite S2, S1. change (s_block_inuse (count_block (root_sb f))) with (u32 (s_block_inuse (root_sb f) + 1)).
        unfold u32, alen. rewrite Z.add_mod_idemp_l by done. f_equal. cbn. lia.
      * intros m Hm Hb. by rewrite V2, V1.
    + destruct (IH bm used f1 ino R1) as (good & k & f2 & E2 & Hlen & Hs & Hg & Hk & R2 & S2 & V2).
      { by rewrite (tk_inodes _ _ T1). } { by rewrite (tk_super _ _ T1). }
      destruct good as [|y good]; [|apply Forall_cons in Hg as [[Hy1 Hy2] _]; rewrite Hall in Hy2 by lia; done].
      rewrite (bind_run _ _ _ _ _ E2). exists [], (S k), f2. split; [done|]. split; [cbn in *; lia|]. split; [done|]. split; [done|].
      split; [|split; [done|split; [by rewrite S2, (tk_super _ _ T1)|]]].
      * intros _ y Hy. unfold used_with. by rewrite Hall.
      * intros m Hm Hb. by rewrite V2, V1.
Qed.

(** A map whose blocks 0 to 4 are in use. *)
Definition alloc_sample : fsst :=
  mkFs [] [inode_zero] [] start_bufs (Some 3) (Some 0)
    (root_sb sample_fs <| s_blockmapnr := 1 |> <| s_blockmap_size := BLOCK_SIZE |> <| s_block_inuse := 5 |>)
    (fun a => if a =? 1024 then 0xf8000000 else 0) DISK_SIZE (buf_at sample_fs).

Lemma sample_bits x : 0 <= x < NBITS -> bit (0xf8000000 :: replicate 1023 0) x = (x <? 5).
Proof.
  intros Hx. destruct (decide (x < 32)) as [H|H].
  - assert (Hall : forallb (fun y => eqb (bit [0xf8000000] y) (y <? 5)) (seqZ 0 32) = true) by (vm_compute; reflexivity).
    rewrite forallb_forall in Hall. transitivity (bit [0xf8000000] x).
    + unfold bit. by replace (x / 32) with 0 by zlia.
    + apply eqb_prop, Hall, list_elem_of_In, elem_of_seqZ. lia.
  - rewrite (proj2 (Z.ltb_ge x 5)) by lia. unfold bit, aget. rewrite decide_True by zlia.
    assert (E : (0xf8000000 :: replicate 1023 0) !! Z.to_nat (x / 32) = Some 0).
    { replace (Z.to_nat (x / 32)) with (S (Z.to_nat (x / 32 - 1))) by zlia. apply (lookup_replicate_2 1023 0).
      unfold NBITS, BLOCK_SIZE_WORD in Hx. zlia. }
    rewrite E. apply Z.testbit_0_l.
Qed.

Lemma start_map s :
  buf_table s = start_bufs -> lru_rear s = Some 0 -> lru_front s = Some 3 -> disk_size s = DISK_SIZE ->
  root_sb s = root_sb alloc_sample -> disk_block (disk s) 1 = 0xf8000000 :: replicate 1023 0 -> map_rep 1 (fun x => x <? 5) s.
Proof.
  intros Hb Hr Hf Hd Hs Hv. destruct (start_rep s) as [R V]; [done..|]. rewrite <- V in Hv by done.
  split.
  - exists (seqZ 0 LRU_LEN). split; [exact R|by unfold free_list].
  - unfold is_block, NBLOCKS. lia.
  - by rewrite Hs.
  - rewrite Hv. split; [reflexivity|]. apply Forall_cons. split; [by split|]. apply Forall_replicate. by split.
  - rewrite Hv. apply sample_bits.
  - reflexivity.
Qed.

Lemma alloc_sample_map : map_rep 1 (fun x => x <? 5) alloc_sample.
Proof. apply start_map; [reflexivity..|vm_compute; reflexivity]. Qed.

Lemma alloc_blocks_distinct_witness :
  exists good k f', allocs 3 0 alloc_sample = Some (good ++ replicate k ENOSPC, f') /\ StronglySorted Z.lt good /\
    (k <> 0%nat -> all_used (used_with (fun x => x <? 5) good)) /\ s_block_inuse (root_sb f') = u32 (5 + alen good).
Proof.
  destruct (alloc_blocks_distinct 3 1 (fun x => x <? 5) alloc_sample 0) as (good & k & f' & E & _ & Hs & _ & Hk & _ & Hu & _).
  - exact alloc_sample_map.
  - change (0 <= 0 < 1). lia.
  - change (is_u32 5). by split.
  - exists good, k, f'. auto.
Defined.
