(* ===== verification/Makefs.v ===== *)
(** * fs/makefs.c: the empty file system of the disk image

    A program of the host builds the image the kernel is linked with.  On the host a block
    has 4096 bytes and a field of a structure is four of them; the image is written out
    word by word, so it is a [memory] of words here and a byte offset is divided by four.
    The bitmap functions are those of fs/makefs_only/cmake_bitmap.c, a copy of
    winix/bitmap.c, the directory entries those of fs/inode.c.  [dearch_superblock]
    does nothing on the host. *)
From S2P Require Import Prelude Bitmap Linked CString Kernel Cache Coherence Blocks Inode Dirs Paths Alloc.

(** BLOCK_SIZE and DISK_SIZE where [__x86_64__] is defined. *)
Definition HOST_BLOCK_SIZE : Z := 4096.
Definition HOST_DISK_SIZE : Z := 50 * HOST_BLOCK_SIZE.
(** sizeof(struct inode_disk) in bytes *)
Definition HOST_INODE_DISK_SIZE : Z := 64.

(** "WINIX_ROOTFS" *)
Definition rootfs_name : list Z := [87; 73; 78; 73; 88; 95; 82; 79; 79; 84; 70; 83].
Definition S_NAME_LEN : nat := 32.

(** [char32_strcpy] into s_name, which is 0: a second 0 follows the one of the string. *)
Definition s_name : option (list Z) := blk_write (replicate S_NAME_LEN 0) 0 (rootfs_name ++ [0; 0]).

Definition setBits (n : Z) : option Z :=
  r ← bitmap_set_nbits [0] 1 0 n; aget (snd (r : Z * list Z)) 0.

(** (int)(blocks_nr * 0.02): the factor is the double next to 1/50 and above it. *)
Definition table_blocks (blocks_nr : Z) : Z := blocks_nr / 50.

(** The places of the parts, and the initializer of [superblock]. *)
Definition root_node_block_nr (blocks_nr : Z) : Z := 3 + table_blocks blocks_nr.
Definition block_in_use (blocks_nr : Z) : Z := root_node_block_nr blocks_nr + 1.
Definition new_superblock (blocks_nr : Z) : superblock :=
  let inode_tablesize := table_blocks blocks_nr * HOST_BLOCK_SIZE in
  mkSb SUPER_BLOCK_MAGIC (block_in_use blocks_nr) 1 (u32 (blocks_nr - block_in_use blocks_nr))
    (u32 (inode_tablesize / HOST_INODE_DISK_SIZE - 1)) HOST_BLOCK_SIZE HOST_INODE_DISK_SIZE ROOT_INODE_NUM
    0 HOST_BLOCK_SIZE 1 HOST_BLOCK_SIZE 2 HOST_BLOCK_SIZE 3 inode_tablesize (HOST_BLOCK_SIZE / HOST_INODE_DISK_SIZE).

Definition root_node (blocks_nr : Z) : inode_t :=
  inode_zero <| i_mode := Z.lor S_IFDIR 0x755 |> <| i_nlinks := 1 |> <| i_size := HOST_BLOCK_SIZE |>
    <| i_atime := INODE_MOCK_UTC_TIME |> <| i_mtime := INODE_MOCK_UTC_TIME |> <| i_ctime := INODE_MOCK_UTC_TIME |>
    <| i_zone := <[0%nat := root_node_block_nr blocks_nr]> (i_zone inode_zero) |>
    <| i_num := ROOT_INODE_NUM |> <| i_ndblock := 3 |>.

(** [pdisk], a byte offset, as the index of a word. *)
Definition word_at (pdisk : Z) : Z := pdisk / 4.

(** The two entries of the root directory, in the block at [pdisk]. *)
Definition root_entries (root : inode_t) (disk : memory) (pdisk : Z) : option memory :=
  l ← fill_dirent root (mem_words disk (word_at pdisk) BLOCK_SIZE_WORD) 0 dot;
  l ← fill_dirent root l WINIX_DIRENT_LEN dot2;
  Some (wr_words disk (word_at pdisk) l).

Definition makefs (disk_raw : memory) (disk_size_words : Z) : option (Z * memory) :=
  let blocks_nr := disk_size_words / HOST_BLOCK_SIZE in
  let sb := new_superblock blocks_nr in
  name ← s_name;
  if blocks_nr <? 8 then Some (-1, disk_raw)
  else if s_block_inuse sb >=? 32 then Some (-1, disk_raw)
  else
    let root := root_node blocks_nr in
    let pdisk := 0 in
    let disk := wr_words disk_raw (word_at pdisk) (sb_words sb ++ name) in
    let pdisk := pdisk + s_superblock_size sb in
    bitval ← setBits (s_block_inuse sb);
    let disk := wr_words disk (word_at pdisk) [bitval] in
    let pdisk := pdisk + s_blockmap_size sb in
    bitval ← setBits 2;
    let disk := wr_words disk (word_at pdisk) [bitval] in
    let pdisk := pdisk + s_inodemap_size sb in
    let disk := wr_words disk (word_at (pdisk + HOST_INODE_DISK_SIZE)) (inode_words root) in
    let pdisk := pdisk + s_inode_table_size sb in
    disk ← root_entries root disk pdisk;
    Some (0, disk).

(** ** The image *)
Definition image : memory := match makefs (fun _ => 0) HOST_DISK_SIZE with Some (_, d) => d | None => fun _ => 0 end.

Lemma makefs_image : makefs (fun _ => 0) HOST_DISK_SIZE = Some (0, image).
Proof.
  unfold image. assert (H : fst <$> makefs (fun _ => 0) HOST_DISK_SIZE = Some 0) by (vm_compute; reflexivity).
  destruct (makefs (fun _ => 0) HOST_DISK_SIZE) as [[r d]|]; [|done]. by injection H as ->.
Qed.

Lemma image_block_map : disk_block image 1 = 0xf8000000 :: replicate 1023 0.
Proof. vm_compute. reflexivity. Qed.
Lemma image_inode_map : disk_block image 2 = 0xc0000000 :: replicate 1023 0.
Proof. vm_compute. reflexivity. Qed.
Definition root_words : list Z := inode_words (root_node 50).
Lemma image_root_inode : blk_read (disk_block image 3) 16 INODE_DISK_SIZE = Some root_words.
Proof. vm_compute. reflexivity. Qed.

Definition root_slots : list (list Z * Z) := <[Z.to_nat 1 := (dot2, 1)]> (<[Z.to_nat 0 := (dot, 1)]> empty_slots).
Definition root_names : gmap (list Z) Z := <[dot2 := 1]> (<[dot := 1]> ∅).

Lemma image_root_block :
  (l ← fill_dirent (root_node 50) zero_block (ent_off 0) dot;
   l ← aset l (dev_off (ent_off 0)) 0;
   l ← fill_dirent (root_node 50) l (ent_off 1) dot2;
   aset l (dev_off (ent_off 1)) 0) = Some (disk_block image 4).
Proof. vm_compute. reflexivity. Qed.

Lemma root_dir_block : dir_block (disk_block image 4) root_names.
Proof.
  destruct (fill_dirent_run (root_node 50) zero_block empty_slots 0 dot 0) as (l1 & l2 & E1 & E2 & A2 & S2);
    [exact empty_slots_rep|done|done|split; [done|by apply Forall_singleton]|].
  destruct (fill_dirent_run (root_node 50) l2 (<[Z.to_nat 0 := (dot, 1)]> empty_slots) 1 dot2 0) as (l3 & l4 & E3 & E4 & A4 & S4);
    [exact S2|done|done|split; [done|by repeat (apply Forall_cons; split)]|].
  pose proof image_root_block as E. rewrite E1 in E. cbn [mbind option_bind] in E. rewrite E2 in E. cbn [mbind option_bind] in E.
  rewrite E3 in E. cbn [mbind option_bind] in E. rewrite E4 in E. injection E as E. rewrite <- E.
  split; [done|]. exists root_slots. split; [exact S4|].
  apply (slots_map_add _ _ _ _ _ 0); [|done..]. by apply (slots_map_add _ _ _ _ _ 0 empty_slots_map).
Qed.

(** ** Mounting it *)

(** [init_fs], [init_all_dev], and the first look at the root directory. *)
Definition mount : F Z := _ ← init_buf; _ ← init_inode; _ ← blk_dev_init; get_inode ROOT_INODE_NUM ROOTFS_DEV.

(** The sizes in words. *)
Definition root_super : superblock := mkSb SUPER_BLOCK_MAGIC 5 1 45 63 1024 16 1 0 1024 1 1024 2 1024 3 1024 64.

(** The root inode in memory. *)
Definition root_inode : inode_t :=
  root_node 50 <| i_size := 1024 |> <| i_dev := ROOTFS_DEV |> <| i_count := 1 |> <| i_total_size := 1024 |>.

Definition root_table : list inode_t := <[0%nat := root_inode]> (replicate 48 inode_zero).
Definition root_tree : dirtree := {[ 0 := (4, root_names) ]}.

(** A state in which the super block of the image was read. *)
Record mounted (f : fsst) : Prop := {
  mt_cache : exists l, cache_rep f l /\ free_list l;
  mt_super : root_sb f = root_super;
  mt_views : forall n, n <> 0 -> view_of f n = disk_block image n
}.

Lemma mounted_kept f f' l : mounted f -> tables_kept f f' -> cache_rep f' l -> free_list l -> (forall m, m <> 0 -> view_of f' m = view_of f m) -> mounted f'.
Proof. intros [_ Hs V] T R Hl V'. split; [by exists l|by rewrite (tk_super _ _ T)|]. intros n Hn. by rewrite V', V. Qed.

Lemma in_use_run f : mounted f -> exists f', is_inode_in_use 1 ROOTFS_DEV f = Some (true, f') /\ mounted f' /\ tables_kept f f'.
Proof.
  intros M. pose proof M as [(l & R & Hl) Hs V].
  destruct (read_block_run f l 2 R Hl ltac:(by split)) as (i & f1 & b & r & f2 & l2 & E1 & E2 & Hb & E3 & R2 & Hl2 & T2 & V2).
  exists f2. split; [|split; [by eapply mounted_kept|done]]. unfold is_inode_in_use, is_valid_inode_num.
  assert (Hg : get_sb ROOTFS_DEV f = Some (root_super, f)) by (rewrite <- Hs; done).
  rewrite (bind_run _ _ _ _ _ Hg). rewrite (bind_run _ _ f true f); [|by rewrite (bind_run _ _ _ _ _ Hg)]. cbn [negb].
  change (s_inodemapnr root_super) with 2. rewrite (bind_run _ _ _ _ _ E1), (bind_run _ _ _ _ _ E2).
  rewrite Hb, V, image_inode_map by done. rewrite (bind_run _ _ f1 true f1) by (vm_compute; reflexivity). by rewrite (bind_run _ _ _ _ _ E3).
Qed.

Lemma image_super : image 0 = SUPER_BLOCK_MAGIC /\ arch_superblock (sb_read image) = root_super.
Proof. split; vm_compute; reflexivity. Qed.

#[local] Opaque image.

(** What [read_inode] does to the slot while it holds the buffer. *)
Definition load_inode (ws : list Z) : F unit :=
  _ ← updi 0 (fun i => inode_of_words ws i <| i_count ::= Z.succ |>);
  _ ← init_inode_non_disk 0 ROOT_INODE_NUM ROOTFS_DEV (Some root_super);
  arch_inode 0.

Lemma load_inode_run f : inode_table f = replicate 48 inode_zero -> inode_arch_map f = replicate 8 0 ->
  load_inode root_words f = Some (tt, f <| inode_table := root_table |> <| inode_arch_map := 0x40000000 :: replicate 7 0 |>).
Proof. destruct f as [fd it am bt lf lr sb d ds at_]. cbn [inode_table inode_arch_map]. intros -> ->. vm_compute. reflexivity. Qed.

Lemma get_root_run f : mounted f -> inode_table f = replicate 48 inode_zero -> inode_arch_map f = replicate 8 0 ->
  exists f', get_inode ROOT_INODE_NUM ROOTFS_DEV f = Some (0, f') /\ mounted f' /\ inode_table f' = root_table /\ buf_at f' = buf_at f.
Proof.
  intros M Ht Ha. set (g := f <| inode_table := <[0%nat := inode_zero]> (inode_table f) |>).
  assert (Mg : mounted g) by (destruct M; by split). destruct (in_use_run g Mg) as (f1 & E1 & [(l & R & Hl) Hs V] & T1).
  destruct (take_block f1 l 3 R Hl ltac:(by split)) as (i & f2 & l2 & E2 & R2 & Hne & Hi & Hl2 & V2 & b & Hb & Hbn & Hbl & _).
  pose proof (keeps_get_block _ _ _ _ _ E2) as T2. pose proof (tables_kept_trans _ _ _ T1 T2) as T.
  assert (Hg : inode_table g = replicate 48 inode_zero) by (change (inode_table g) with (<[0%nat := inode_zero]> (inode_table f)); by rewrite Ht).
  pose proof (load_inode_run f2 ltac:(by rewrite (tk_inodes _ _ T)) ltac:(by rewrite (tk_arch _ _ T))) as E3.
  match type of E3 with _ = Some (_, ?x) => set (f3 := x) in * end.
  destruct (cache_rep_put f3 l2 i) as (f4 & E4 & R4 & V4); [exact R2|done|done|exact (aget_Some_bound _ _ _ Hb)|].
  exists f4. split.
  - unfold get_inode. rewrite (bind_run _ _ f f f) by done. rewrite Ht. change (find_inode (replicate 48 inode_zero) 0 ROOT_INODE_NUM) with (@None Z). cbv iota.
    rewrite (bind_run _ _ f (OK, Some 0) f4); [done|]. unfold read_inode.
    assert (Hsf : root_sb f = root_super) by (by destruct M).
    rewrite (bind_run _ _ f root_super f) by (rewrite <- Hsf; done).
    rewrite (bind_run _ _ f (Some 0) g).
    2:{ unfold get_free_inode_slot. rewrite (bind_run _ _ f f f) by done. replace (find_free_inode (inode_table f) 0) with (Some 0) by (by rewrite Ht).
        cbv iota. rewrite (bind_run _ _ f tt g); [done|]. apply (updi_run f 0 inode_zero). by rewrite Ht. }
    cbv iota. rewrite (bind_run _ _ _ _ _ E1). cbn [negb]. change (ROOT_INODE_NUM =? 0) with false. cbv iota.
    change (u32 (s_inode_tablenr root_super + u32 (ROOT_INODE_NUM * s_inode_size root_super) / BLOCK_SIZE)) with 3.
    rewrite (bind_run _ _ _ _ _ E2), (bind_run _ _ _ _ _ (get_buf_run _ _ _ Hb)), Hbl, V by done.
    change (u32 (ROOT_INODE_NUM * s_inode_size root_super) mod BLOCK_SIZE) with 16. rewrite image_root_inode.
    rewrite (bind_run _ _ f2 root_words f2) by done.
    unfold load_inode in E3. apply bind_Some in E3 as ([] & h1 & X1 & E3). apply bind_Some in E3 as (r & h2 & X2 & X3).
    rewrite (bind_run _ _ _ _ _ X1), (bind_run _ _ _ _ _ X2), (bind_run _ _ _ _ _ X3), (bind_run _ _ _ _ _ E4). done.
  - pose proof (keeps_put _ _ _ _ E4) as T4. split; [split|split].
    + exists (l2 ++ [i]). done.
    + rewrite (tk_super _ _ T4). change (root_sb f3) with (root_sb f2). by rewrite (tk_super _ _ T2).
    + intros n Hn. rewrite V4. change (view_of f3 n) with (view_of f2 n). by rewrite V2, V.
    + by rewrite (tk_inodes _ _ T4).
    + rewrite (tk_at _ _ T4). exact (tk_at _ _ T).
Qed.

Lemma root_inode_get (t : list inode_t) s d : t = root_table -> aget t s = Some d -> (s = 0 /\ d = root_inode) \/ (s <> 0 /\ d = inode_zero).
Proof.
  intros -> E. pose proof (aget_Some_bound _ _ _ E) as Hb. destruct (decide (s = 0)) as [->|Hs]; [left; by injection E as <-|right; split; [done|]].
  unfold aget in E. rewrite decide_True in E by lia. unfold root_table in E. rewrite list_lookup_insert_ne in E by lia.
  by apply lookup_replicate in E as [-> _].
Qed.

Lemma mounted_tree f : mounted f -> inode_table f = root_table -> (forall i, 256 <= buf_at f i < 0x100000) -> tree_rep root_tree (fun _ => false) (in_core f) f.
Proof.
  intros [Hc Hs V] Ht Hat.
  assert (Hroot : forall s b m, root_tree !! s = Some (b, m) -> s = 0 /\ b = 4 /\ m = root_names).
  { intros s b m E. unfold root_tree, dirtree in E. by apply lookup_singleton_Some in E as [<- [= <- <-]]. }
  assert (H1 : in_core f 1 = Some 0) by (unfold in_core; by rewrite Ht).
  split; try done.
  - intros s b m (-> & -> & ->)%Hroot. split; [by split|]. rewrite V by done. split; [exact root_dir_block|].
    exists root_inode. rewrite Ht. by split_and!.
  - intros s d E. destruct (root_inode_get _ _ _ Ht E) as [[-> ->]|[Hne ->]]; [by vm_compute|].
    rewrite orb_false_r. symmetry. apply bool_decide_eq_false. intros [[b m] (-> & _)%Hroot]. done.
  - intros s b m nm n (-> & -> & ->)%Hroot Hn. unfold root_names in Hn.
    assert (n = 1) as ->; [|by rewrite H1].
    apply lookup_insert_Some in Hn as [[_ <-]|[_ Hn]]; [done|]. apply lookup_insert_Some in Hn as [[_ <-]|[_ Hn]]; [done|]. by rewrite lookup_empty in Hn.
Qed.

Lemma mounted_map f : mounted f -> map_rep 1 (fun x => x <? 5) f.
Proof.
  intros [Hc Hs V]. split; try done.
  - by rewrite Hs.
  - rewrite V, image_block_map by done. split; [reflexivity|]. apply Forall_cons. split; [by split|]. apply Forall_replicate. by split.
  - rewrite V, image_block_map by done. apply sample_bits.
Qed.

(** The start of the cache and of the inode table, and the super block. *)
Definition started (f : fsst) : fsst :=
  f <| buf_table := start_bufs |> <| lru_rear := Some 0 |> <| lru_front := Some 3 |>
    <| inode_arch_map := replicate 8 0 |> <| disk_size := DISK_SIZE |> <| root_sb := root_super |>.

Lemma start_run f : disk f 0 = SUPER_BLOCK_MAGIC -> arch_superblock (sb_read (disk f)) = root_super ->
  length (buf_table f) = Z.to_nat LRU_LEN -> inode_table f = replicate 48 inode_zero -> alen (inode_arch_map f) = INODE_ARC_MAP_LEN ->
  mount f = get_inode ROOT_INODE_NUM ROOTFS_DEV (started f).
Proof.
  intros Hm Hsb Hl Ht Ha. destruct (bitmap_clear_spec _ _ Ha) as [Hclear _]. destruct f as [fd it am bt lf lr sb d ds at_].
  cbn [disk buf_table inode_table inode_arch_map] in *. subst it. destruct bt as [|b0 [|b1 [|b2 [|b3 [|]]]]]; try done. unfold mount.
  rewrite (bind_run init_buf _ _ tt (mkFs fd (replicate 48 inode_zero) am start_bufs (Some 3) (Some 0) sb d ds at_)) by done.
  rewrite (bind_run init_inode _ _ tt (mkFs fd (replicate 48 inode_zero) (replicate 8 0) start_bufs (Some 3) (Some 0) sb d ds at_))
    by (unfold init_inode; cbn [inode_arch_map]; by rewrite Hclear).
  rewrite (bind_run blk_dev_init _ _ 0 (mkFs fd (replicate 48 inode_zero) (replicate 8 0) start_bufs (Some 3) (Some 0) root_super d DISK_SIZE at_)); [done|].
  unfold blk_dev_init. cbn [disk]. by rewrite Hm, Hsb.
Qed.

Lemma started_mounted f : disk f = image -> mounted (started f).
Proof.
  intros Hd. destruct (start_rep (started f)) as [R V]; [done..|]. split; [exists (seqZ 0 LRU_LEN); split; [exact R|by unfold free_list]|done|].
  intros n Hn. rewrite V by done. change (disk (started f)) with (disk f). by rewrite Hd.
Qed.

(** C17: The image [makefs] builds is a file system the kernel mounts: the builder succeeds, and
    from its image [init_fs], the super block and the root inode are read without a crash.
    The root directory is then the tree of directories with "." and ".." in it that the
    path look-up works on, the block map marks the five blocks in use, which is the number
    in the super block, and all sizes are in words. *)
Theorem image_mounts f :
  disk f = image -> length (buf_table f) = Z.to_nat LRU_LEN -> inode_table f = replicate 48 inode_zero -> alen (inode_arch_map f) = INODE_ARC_MAP_LEN ->
  (forall i, 256 <= buf_at f i < 0x100000) ->
  exists f', makefs (fun _ => 0) HOST_DISK_SIZE = Some (0, disk f) /\ mount f = Some (0, f') /\
    tree_rep root_tree (fun _ => false) (in_core f') f' /\ map_rep 1 (fun x => x <? 5) f' /\ root_sb f' = root_super /\ aget (inode_table f') 0 = Some root_inode.
Proof.
  intros Hd Hl Ht Ha Hat. destruct image_super as [Hm Hsb]. rewrite Hd, makefs_image. rewrite <- Hd in Hm, Hsb.
  rewrite (start_run f Hm Hsb Hl Ht Ha).
  destruct (get_root_run (started f)) as (f' & E & M & T & A); [by apply started_mounted|done|done|].
  exists f'. split; [done|]. split; [done|]. split; [apply mounted_tree; [done..|by rewrite A]|]. split; [by apply mounted_map|].
  split; [by destruct M|by rewrite T].
Qed.

(** The machine after the kernel was loaded: its static variables are 0. *)
Definition loaded : fsst :=
  mkFs [] (replicate 48 inode_zero) (replicate 8 0) (replicate 4 (mkBuf zero_block None None 0 0 false 0)) None None
    (mkSb 0 0 0 0 0 0 0 0 0 0 0 0 0 0 0 0 0) image 0 (buf_at sample_fs).
Lemma image_mounts_witness :
  exists f', makefs (fun _ => 0) HOST_DISK_SIZE = Some (0, image) /\ mount loaded = Some (0, f') /\ s_block_inuse (root_sb f') = 5.
Proof.
  destruct (image_mounts loaded) as (f' & E1 & E2 & _ & _ & E3 & _).
  - reflexivity.
  - reflexivity.
  - reflexivity.
  - reflexivity.
  - intros i. change (256 <= 8192 + 1030 * (i mod 4) < 0x100000). zlia.
  - exists f'. split; [exact E1|]. split; [exact E2|]. rewrite E3. reflexivity.
Defined.
