(* ===== verification/Signal.v ===== *)
(** * lib/posix/_sigset.c, and kernel/signal.c up to the delivery of a signal *)
From S2P Require Import Prelude Bitmap Mm Linked CString Timer Slab Kernel Proc Ipc.

(** ** Signal sets: the result and the new set *)
Definition sigisvalid (signo : Z) : bool := u32 signo <=? _NSIG.

Definition sigaddset (set signo : Z) : Z * Z :=
  if negb (sigisvalid signo) then (-1, set) else (0, Z.lor set (u32 (Z.shiftl 1 signo))).

Definition sigdelset (set signo : Z) : Z * Z :=
  if negb (sigisvalid signo) then (-1, set) else (0, Z.ldiff set (u32 (Z.shiftl 1 signo))).

Definition sigemptyset (set : Z) : Z * Z := (0, 0).
Definition SIGMASK : Z := u32 (Z.shiftl (u32 (Z.shiftl 1 _NSIG)) 1 - 1).
Definition sigfillset (set : Z) : Z * Z := (0, SIGMASK).

Definition sigismember (set signo : Z) : Z :=
  if negb (sigisvalid signo) then -1
  else if negb (Z.land set (u32 (Z.shiftl 1 signo)) =? 0) then 1 else 0.

(** ** kernel/signal.c *)
Fixpoint sigpending_loop (ixs : list Z) (pendings blocked : Z) : Z :=
  match ixs with
  | [] => 0
  | i :: ixs' =>
      let sigmask := Z.shiftl 1 i in
      if negb (Z.land pendings sigmask =? 0) && (Z.land blocked sigmask =? 0) then i
      else sigpending_loop ixs' pendings blocked
  end.

Definition is_sigpending (who : proc) : Z :=
  let pendings := sig_pending who in
  let blocked := sig_mask who in
  if negb (pendings =? 0) && negb (pendings =? blocked)
  then sigpending_loop (seqZ 1 (_NSIG - 1)) pendings blocked else 0.

Definition get_sa (who : proc) (signum : Z) : K sigaction := fun k => liftO (aget (sig_table who) signum) k.

Definition upd_sa (who signum : Z) (f : sigaction -> sigaction) : K unit :=
  p ← getp who;
  a ← get_sa p signum;
  updp who (fun p => p <| sig_table ::= <[Z.to_nat signum := f a]> |>).

Definition send_sig (who signum : Z) : K Z :=
  p ← getp who;
  if negb (IS_USER_PROC p) then mret EINVAL
  else if (negb (sigismember (sig_mask p) signum =? 0)) && negb (signum =? SIGKILL) && negb (signum =? SIGSTOP) then
    act ← get_sa p signum;
    if negb (sa_handler act =? SIG_IGN) then
      let '(ret, s) := sigaddset (sig_pending p) signum in
      _ ← updp who (fun p => p <| sig_pending := s |>);
      mret ret
    else mret 0
  else
    _ ← when (has (state p) STATE_PAUSING)
          (_ ← upd_message LOCAL_MSG (fun m => m <| m_type := 0 |>);
           _ ← updp who (fun p => p <| state ::= clr_flag STATE_PAUSING |>);
           _ ← syscall_reply2 0 EINTR (proc_nr p) LOCAL_MSG;
           mret tt);
    _ ← updp who (fun p => p <| sig_pending ::= (fun s => snd (sigaddset s signum)) |>);
    mret OK.

(** ** Delivery: the frame on the user stack *)

(** The first [SIGNAL_CTX_LEN] words of a [struct proc]. *)
Definition proc_ctx_words (p : proc) : list Z :=
  take 13 (regs p) ++
  [sp p; ra p; pc p; rbase p; ctx_ptable p; cctrl p; state p; message_ptr p].

Definition set_proc_ctx (l : list Z) (p : proc) : proc :=
  let w n := default 0 (l !! n) in
  p <| regs := take 13 l |> <| sp := w 13%nat |> <| ra := w 14%nat |> <| pc := w 15%nat |>
    <| rbase := w 16%nat |> <| ctx_ptable := w 17%nat |> <| cctrl := w 18%nat |>
    <| state := w 19%nat |> <| message_ptr := w 20%nat |>.

Definition WINIX_SEND : Z := 0x13370001.
Definition WINIX_RECEIVE : Z := 0x13370002.
Definition WINIX_SENDREC : Z := 0x13370003.
Definition WINIX_NOTIFY : Z := 0x13370004.
Definition SIGRET : Z := 9.
Definition SYSCALL_FRAME_LEN : Z := 11.     (* sizeof(struct syscall_frame_comm) *)

(** [struct sigframe]: the members the source leaves uninitialised are 0. *)
Definition sigframe (signum pm : Z) : list Z :=
  [signum; WINIX_SENDREC; SYSTEM; pm] ++ msg_words (mkMsg 0 SIGRET signum 0 0 0 0 0).

Definition build_signal_ctx (who signum : Z) : K Z :=
  p ← getp who;
  _ ← copyto_user_stack who (proc_ctx_words p);
  p ← getp who;
  _ ← copyto_user_stack who (sigframe signum (u32 (sp p - MESSAGE_LEN)));
  p ← getp who;
  act ← get_sa p signum;
  _ ← updp who (fun p => p <| pc := sa_handler act |> <| ra := sa_restorer p |>
                           <| sig_mask2 := sig_mask p |> <| sig_mask := sa_mask act |>
                           <| state := STATE_RUNNABLE |>);
  mret OK.

(** ** Signal sets as sets of bits *)
Lemma shiftl1_u32 n : 0 <= n <= 21 -> u32 (Z.shiftl 1 n) = 2 ^ n.
Proof.
  intros Hn. rewrite Z.shiftl_1_l. apply u32_id. unfold is_u32.
  pose proof (Z.pow_le_mono_r 2 n 21). pose proof (Z.pow_pos_nonneg 2 n). unfold UINT_MOD. lia.
Qed.

Lemma sigisvalid_range n : 0 <= n <= 21 -> sigisvalid n = true.
Proof. intros. unfold sigisvalid, _NSIG. rewrite u32_id by (unfold is_u32, UINT_MOD; lia). lia. Qed.

Lemma sigaddset_bit s n i :
  0 <= n <= 21 -> 0 <= i -> Z.testbit (snd (sigaddset s n)) i = Z.testbit s i || bool_decide (i = n).
Proof.
  intros. unfold sigaddset. rewrite sigisvalid_range, shiftl1_u32 by done. cbn.
  rewrite Z.lor_spec, testbit_pow2 by lia. f_equal. apply bool_decide_ext. split; congruence.
Qed.

Lemma sigdelset_bit s n i :
  0 <= n <= 21 -> 0 <= i -> Z.testbit (snd (sigdelset s n)) i = Z.testbit s i && negb (bool_decide (i = n)).
Proof.
  intros. unfold sigdelset. rewrite sigisvalid_range, shiftl1_u32 by done. cbn.
  rewrite Z.ldiff_spec, testbit_pow2 by lia. do 2 f_equal. apply bool_decide_ext. split; congruence.
Qed.

Lemma sigismember_bit s n : 0 <= n <= 21 -> negb (sigismember s n =? 0) = Z.testbit s n.
Proof.
  intros. unfold sigismember. rewrite sigisvalid_range, shiftl1_u32, land_pow2_eqb0 by lia. cbn.
  by destruct (Z.testbit s n).
Qed.

(** ** Which signal is delivered *)
Definition deliverable (pendings blocked i : Z) : bool := Z.testbit pendings i && negb (Z.testbit blocked i).

Lemma sigpending_loop_spec pendings blocked n : forall a,
  0 < a -> let r := sigpending_loop (seqZ a (Z.of_nat n)) pendings blocked in
  (r = 0 /\ forall i, a <= i < a + Z.of_nat n -> deliverable pendings blocked i = false) \/
  (a <= r < a + Z.of_nat n /\ deliverable pendings blocked r = true /\
   forall i, a <= i < r -> deliverable pendings blocked i = false).
Proof.
  induction n as [|n IH]; intros a Ha; [left; split; [done|lia]|].
  rewrite seqZ_cons by lia. replace (Z.pred (Z.of_nat (S n))) with (Z.of_nat n) by lia.
  cbn [sigpending_loop]. rewrite Z.shiftl_1_l, !land_pow2_eqb0, negb_involutive by lia.
  change (Z.testbit pendings a && negb (Z.testbit blocked a)) with (deliverable pendings blocked a).
  destruct (deliverable pendings blocked a) eqn:E; [right; split; [lia|split; [done|lia]]|].
  destruct (IH (Z.succ a) ltac:(lia)) as [[-> Hn]|(Hr & Hd & Hn)].
  - left. split; [done|]. intros i Hi. destruct (decide (i = a)) as [->|]; [done|]. apply Hn. lia.
  - right. split; [lia|]. split; [done|]. intros i Hi. destruct (decide (i = a)) as [->|]; [done|]. apply Hn. lia.
Qed.

(** [is_sigpending] is the lowest numbered signal that is pending and not
    blocked, and 0 when every pending signal is blocked. *)
Theorem is_sigpending_lowest who :
  let r := is_sigpending who in
  (r = 0 /\ forall i, 1 <= i < _NSIG -> deliverable (sig_pending who) (sig_mask who) i = false) \/
  (1 <= r < _NSIG /\ deliverable (sig_pending who) (sig_mask who) r = true /\
   forall i, 1 <= i < r -> deliverable (sig_pending who) (sig_mask who) i = false).
Proof.
  unfold is_sigpending. destruct (Z.eqb_spec (sig_pending who) 0) as [E|_]; cbn [negb andb].
  { left. split; [done|]. intros i _. unfold deliverable. by rewrite E, Z.bits_0. }
  destruct (Z.eqb_spec (sig_pending who) (sig_mask who)) as [E|_]; cbn [negb].
  { left. split; [done|]. intros i _. unfold deliverable. by rewrite E, andb_negb_r. }
  exact (sigpending_loop_spec (sig_pending who) (sig_mask who) 20 1 ltac:(lia)).
Qed.
