(* ===== verification/Filp.v ===== *)
(** * fs/filp.c: the table of open files

    A [struct filp STAR] is an index of [fd_table]. *)
From S2P Require Import Prelude Bitmap Mm Linked CString Timer Slab Kernel Proc Cache Inode.

Definition NR_FILPS : Z := 32.

Definition getf (i : Z) : K filp_t := fun k => liftO (aget (fd_table (kfs k)) i) k.
Definition updf (i : Z) (g : filp_t -> filp_t) : K unit := fun k =>
  match aget (fd_table (kfs k)) i with
  | Some x => match aset (fd_table (kfs k)) i (g x) with
              | Some t => Some (tt, k <| kfs := kfs k <| fd_table := t |> |>)
              | None => None
              end
  | None => None
  end.

Definition kgeti (i : Z) : K inode_t := on_fs (geti i).
Definition kupdi (i : Z) (g : inode_t -> inode_t) : K unit := on_fs (updi i g).

(** The file behind a descriptor; the array has [OPEN_MAX] slots. *)
Definition get_fp (who fd : Z) : K (option Z) :=
  p ← getp who; liftO (aget (fp_filp p) fd).

Definition set_fp (who fd : Z) (f : option Z) : K unit :=
  p ← getp who;
  l ← liftO (aset (fp_filp p) fd f);
  updp who (fun p => p <| fp_filp := l |>).

Definition is_fd_opened_and_valid (who fd : Z) : K bool :=
  if (fd <? 0) || (fd >=? OPEN_MAX) then mret false
  else f ← get_fp who fd; mret (bool_decide (f <> None)).

Fixpoint find_open_slot (l : list (option Z)) (i start : Z) : option Z :=
  match l with
  | [] => None
  | f :: l' => if (start <=? i) && bool_decide (f = None) then Some i else find_open_slot l' (i + 1) start
  end.

Fixpoint find_free_filp (l : list filp_t) (i : Z) : option Z :=
  match l with
  | [] => None
  | f :: l' => if filp_count f =? 0 then Some i else find_free_filp l' (i + 1)
  end.

(** Result, open slot and file. *)
Definition get_fd (curr start : Z) : K (Z * Z * Z) :=
  p ← getp curr;
  match find_open_slot (take (Z.to_nat OPEN_MAX) (fp_filp p)) 0 start with
  | None => mret (EMFILE, 0, 0)
  | Some slot =>
      k ← getS;
      match find_free_filp (fd_table (kfs k)) 0 with
      | None => mret (ENFILE, slot, 0)
      | Some i =>
          _ ← updf i (fun _ => filp_zero <| filp_table_index := i |>);
          mret (OK, slot, i)
      end
  end.

Definition init_filp_by_inode (filp inode : Z) : K Z :=
  i ← kgeti inode;
  _ ← updf filp (fun f => f <| filp_ino := Some inode |> <| filp_count ::= Z.succ |>
                            <| filp_dev := i_dev i |>);
  mret OK.

Definition release_filp (file : Z) : K Z :=
  _ ← updf file (fun f => f <| filp_count := 0 |>); mret 0.

Fixpoint find_filp_loop (l : list filp_t) (i inode : Z) : option Z :=
  match l with
  | [] => None
  | f :: l' => if bool_decide (filp_ino f = Some inode) then Some i else find_filp_loop l' (i + 1) inode
  end.
Definition find_filp (inode : Z) : K (option Z) := k ← getS; mret (find_filp_loop (fd_table (kfs k)) 0 inode).

Definition get_free_filp : K (option Z) := k ← getS; mret (find_free_filp (fd_table (kfs k)) 0).

(** The loop increments its counter twice: every other slot is initialised. *)
Fixpoint init_filp_loop (ixs : list Z) : K unit :=
  match ixs with
  | [] => mret tt
  | i :: ixs' =>
      _ ← (if Z.even i then updf i (fun f => f <| filp_count := 0 |> <| filp_table_index := i |>) else mret tt);
      init_filp_loop ixs'
  end.
Definition init_filp : K unit := init_filp_loop (seqZ 0 NR_FILPS).
