(* ===== verification/Pipe.v ===== *)
(** * fs/system/pipe.c

    A pipe is a page of characters, filled up to [pp_pos] and read from the start.
    The lists of blocked readers and writers hang off the inode; [list_add] puts
    a process in front and [get_next_waiting] takes the front. *)
From S2P Require Import Prelude Bitmap Mm Linked CString Timer Slab Kernel Proc Ipc Cache Inode Signal Filp.

Definition PIPE_LIMIT : Z := BLOCK_SIZE.
Definition FILP_PIPE_READ : Z := 2.
Definition FILP_PIPE_WRITE : Z := 0.
Definition INODE_FLAG_PIPE : Z := 2.
Definition O_NONBLOCK : Z := 0x4000.
Definition SYS_READ : Z := 23.
Definition SYS_WRITE : Z := 24.

(** sizeof(struct filp_pipe), sizeof(struct pipe_waiting) *)
Definition FILP_PIPE_LEN : Z := 3.
Definition PIPE_WAITING_LEN : Z := 8.

Definition get_pipe (a : Z) : K pipe_t := fun k => liftO (kpipes k !! a) k.
Definition upd_pipe (a : Z) (f : pipe_t -> pipe_t) : K unit := fun k =>
  match kpipes k !! a with
  | Some p => Some (tt, k <| kpipes ::= insert a (f p) |>)
  | None => None
  end.

Definition get_next_ino : K Z :=
  k ← getS; _ ← modifyS (fun k => k <| next_inum ::= Z.succ |>); mret (next_inum k).

(** ** Data *)

(** while(i < end): data[j++] = data[i]; data[i++] = 0 *)
Fixpoint shift_loop (n : nat) (m : memory) (data j i : Z) : memory * Z :=
  match n with
  | O => (m, j)
  | S n' =>
      let m := mset m (data + j) (m (data + i)) in
      let m := mset m (data + i) 0 in
      shift_loop n' m data (j + 1) (i + 1)
  end.

Definition shift_pipe_data (m : memory) (data pos i : Z) : memory * Z :=
  let '(m, j) := shift_loop (Z.to_nat (pos - i)) m data 0 i in
  (memset m (data + j) 0 (pos - j), j).

(** The count is unsigned; the result is the number of characters moved. *)
Definition _pipe_read (filp data count : Z) : K Z :=
  f ← getf filp;
  p ← get_pipe (filp_pipe f);
  let end_ := if count <? pp_pos p then count else pp_pos p in
  _ ← kmemcpy data (pp_data p) end_;
  k ← getS;
  let '(m, j) := shift_pipe_data (kmem k) (pp_data p) (pp_pos p) end_ in
  _ ← modifyS (fun k => k <| kmem := m |>);
  _ ← upd_pipe (filp_pipe f) (fun p => p <| pp_pos := j |>);
  mret end_.

Definition _pipe_write (filp data count : Z) : K Z :=
  f ← getf filp;
  p ← get_pipe (filp_pipe f);
  let off := pp_pos p in
  let end_ := if u32 (off + count) <? PIPE_LIMIT then u32 (off + count) else PIPE_LIMIT in
  _ ← kmemcpy (pp_data p + off) data (end_ - off);
  let ret := end_ - off in
  _ ← upd_pipe (filp_pipe f) (fun p => p <| pp_pos ::= Z.add ret |>);
  mret ret.

(** ** Waiting lists *)
Definition waiting_at (l : gmap Z (list pipe_waiting)) (ino : Z) : list pipe_waiting := default [] (l !! ino).

(** The head is taken off the list. *)
Definition get_next_waiting (reading : bool) (ino : Z) : K (option pipe_waiting) :=
  k ← getS;
  match waiting_at (if reading then kreading k else kwriting k) ino with
  | [] => mret None
  | w :: l =>
      _ ← modifyS (fun k => if reading then k <| kreading ::= insert ino l |>
                            else k <| kwriting ::= insert ino l |>);
      mret (Some w)
  end.

Definition add_waiting (reading : bool) (ino : Z) (w : pipe_waiting) : K unit :=
  k ← getS;
  modifyS (fun k => if reading then k <| kreading ::= insert ino (w :: waiting_at (kreading k) ino) |>
                    else k <| kwriting ::= insert ino (w :: waiting_at (kwriting k) ino) |>).

(** Block the caller: a node is allocated, and STATE_WAITING is set in [flags]. *)
Definition pipe_block (reading : bool) (syscall filp ino data count offset : Z) : K Z :=
  next ← on_slab (_kmalloc PIPE_WAITING_LEN 0);
  if next =? 0 then mret ENOMEM
  else
    k ← getS;
    who ← liftO (curr_user_proc k);
    _ ← updp who (fun p => p <| flags ::= set_flag STATE_WAITING |>);
    _ ← add_waiting reading ino (mkPw next who syscall filp data count offset);
    mret SUSPEND.

(** Serve one blocked process of the other side. *)
Definition pipe_wake (reading : bool) (ino : Z) : K unit :=
  next ← get_next_waiting reading ino;
  match next with
  | None => mret tt
  | Some w =>
      ret2 ← (if reading then _pipe_read (pw_filp w) (pw_data w) (pw_count w)
              else _pipe_write (pw_filp w) (pw_data w) (pw_count w));
      _ ← updp (pw_who w) (fun p => p <| flags ::= clr_flag STATE_WAITING |>);
      _ ← syscall_reply2 (pw_syscall w) ret2 (pw_who w) LOCAL_MSG;
      on_slab (_kfree (pw_node w) 0)
  end.

Definition pipe_read (filp data count offset : Z) : K Z :=
  f ← getf filp;
  ino ← liftO (filp_ino f);
  i ← kgeti ino;
  if pipe_mode f =? FILP_PIPE_WRITE then mret 0
  else if i_count i =? 1 then mret 0
  else
    p ← get_pipe (filp_pipe f);
    if pp_pos p =? 0 then
      if has (filp_flags f) O_NONBLOCK then mret 0
      else pipe_block true SYS_READ filp ino data count 0
    else
      ret ← _pipe_read filp data count;
      if ret =? 0 then mret ret
      else _ ← pipe_wake false ino; mret ret.

Definition pipe_write (filp data count offset : Z) : K Z :=
  f ← getf filp;
  ino ← liftO (filp_ino f);
  i ← kgeti ino;
  if pipe_mode f =? FILP_PIPE_READ then mret 0
  else if i_count i =? 1 then
    k ← getS;
    who ← liftO (curr_user_proc k);
    w ← getp who;
    act ← get_sa w SIGPIPE;
    if sa_handler act =? SIG_IGN then mret EPIPE
    else _ ← send_sig who SIGPIPE; mret SUSPEND
  else if count >? PIPE_LIMIT then mret ENOSPC
  else
    p ← get_pipe (filp_pipe f);
    if count >? u32 (PIPE_LIMIT - pp_pos p) then
      if has (filp_flags f) O_NONBLOCK then mret 0
      else pipe_block false SYS_WRITE filp ino data count offset
    else
      ret ← _pipe_write filp data count;
      if ret =? 0 then mret ret
      else _ ← pipe_wake true ino; mret ret.

Definition pipe_open (dev file : Z) : K Z := mret 0.

Definition pipe_close (dev file : Z) : K Z :=
  _ ← updf file (fun f => f <| filp_count ::= Z.pred |>);
  f ← getf file;
  ino ← liftO (filp_ino f);
  if filp_count f =? 0 then
    _ ← kupdi ino (fun i => i <| i_count ::= Z.pred |>);
    i ← kgeti ino;
    if i_count i =? 0 then
      p ← get_pipe (filp_pipe f);
      _ ← on_mm (release_pages (pp_data p) 1);
      _ ← on_slab (_kfree (filp_pipe f) 0);
      mret 0
    else mret 0
  else mret 0.

(** ** Creation *)
Definition set_filp (who : Z) : K (Z * Z) :=
  r ← get_fd who 0;
  let '(ret, open_slot, file) := (r : Z * Z * Z) in
  if negb (ret =? 0) then mret (ret, file) else mret (open_slot, file).

Definition open_end (who file inode mode pipe slot fd_addr : Z) : K unit :=
  _ ← updf file (fun f => f <| pipe_mode := mode |> <| filp_pipe := pipe |>);
  _ ← init_filp_by_inode file inode;
  _ ← set_fp who slot (Some file);
  wr fd_addr slot.

Definition sys_pipe (who fd : Z) : K Z :=
  ptr ← on_mm (get_free_pages 1 GFP_HIGH);
  if ptr =? 0 then mret ENOMEM
  else
    let failed_filp_pipe ret := _ ← on_mm (release_pages ptr 1); mret ret in
    pipe ← on_slab (_kmalloc FILP_PIPE_LEN 0);
    if pipe =? 0 then failed_filp_pipe ENOMEM
    else
      let failed_filp_slot ret := _ ← on_slab (_kfree pipe 0); failed_filp_pipe ret in
      _ ← modifyS (fun k => k <| kpipes ::= insert pipe (mkPipe ptr 0) |>);
      slot ← on_fs get_free_inode_slot;
      match slot with
      | None => failed_filp_slot EMFILE
      | Some inode =>
          let failed_filp1 ret := _ ← kupdi inode (fun i => i <| i_count := 0 |>); failed_filp_slot ret in
          _ ← kupdi inode (fun i => i <| i_flags ::= set_flag INODE_FLAG_PIPE |> <| i_count := 2 |> <| i_nlinks := 1 |>);
          num ← get_next_ino;
          _ ← on_fs (init_inode_non_disk inode num PIPE_DEV None);
          r1 ← set_filp who;
          let '(ret1, file1) := (r1 : Z * Z) in
          if ret1 <? 0 then failed_filp1 ret1
          else
            _ ← open_end who file1 inode FILP_PIPE_READ pipe ret1 fd;
            r2 ← set_filp who;
            let '(ret2, file2) := (r2 : Z * Z) in
            if ret2 <? 0 then
              _ ← set_fp who ret1 None;
              _ ← release_filp file1;
              failed_filp1 ret2
            else
              _ ← open_end who file2 inode FILP_PIPE_WRITE pipe ret2 (fd + 1);
              _ ← modifyS (fun k => k <| kreading ::= insert inode [] |> <| kwriting ::= insert inode [] |>);
              mret OK
      end.
