(* ===== verification/Fifo.v ===== *)
(** * A pipe is a queue of words

    The two ends of a pipe opened with O_NONBLOCK, as a client uses them: it
    stores words in a buffer of its own and calls [pipe_write], or calls
    [pipe_read] and looks at what arrived.  The specification is a list. *)
From S2P Require Import Prelude Bitmap Linked CString Timer Slab Kernel Proc Cache Coherence Inode Signal Filp Pipe.

(** ** The abstract queue *)
Inductive fifo_req := FWrite (ws : list Z) | FRead (n : Z).

(** A read of nothing is left out: it destroys the contents of the pipe. *)
Definition fifo_ok (r : fifo_req) : Prop :=
  match r with FWrite ws => alen ws < UINT_MOD - PIPE_LIMIT | FRead n => 0 < n end.

(** The result of the call, the words that arrive, and the new contents. *)
Definition fifo_step (l : list Z) (r : fifo_req) : Z * list Z * list Z :=
  match r with
  | FWrite ws =>
      if alen ws >? PIPE_LIMIT then (ENOSPC, [], l)
      else if alen l + alen ws >? PIPE_LIMIT then (0, [], l)
      else (alen ws, [], l ++ ws)
  | FRead n => (Z.min n (alen l), take (Z.to_nat n) l, drop (Z.to_nat n) l)
  end.

Fixpoint fifo_run (l : list Z) (rs : list fifo_req) : list (Z * list Z) * list Z :=
  match rs with
  | [] => ([], l)
  | r :: rs' =>
      let '(ret, ws, l') := fifo_step l r in
      let '(xs, l'') := fifo_run l' rs' in ((ret, ws) :: xs, l'')
  end.

(** ** The client: its buffer is at [buf], the ends of the pipe are [fr] and [fw] *)
Definition fifo_serve (fr fw buf : Z) (r : fifo_req) : K (Z * list Z) :=
  match r with
  | FWrite ws =>
      _ ← modifyS (fun k => k <| kmem ::= (fun m => wr_words m buf ws) |>);
      ret ← pipe_write fw buf (alen ws) 0;
      mret (ret, [])
  | FRead n =>
      ret ← pipe_read fr buf n 0;
      m ← get_mem;
      mret (ret, mem_words m buf ret)
  end.

Fixpoint fifo_serves (fr fw buf : Z) (rs : list fifo_req) : K (list (Z * list Z)) :=
  match rs with
  | [] => mret []
  | r :: rs' => x ← fifo_serve fr fw buf r; xs ← fifo_serves fr fw buf rs'; mret (x :: xs)
  end.

(** What stays as it is while the pipe is used, and what the pipe holds. *)
Record pipe_ends (fr fw a : Z) (k : kst) : Prop := {
  pe_read : exists f i ino, aget (fd_table (kfs k)) fr = Some f /\ filp_ino f = Some i /\ filp_pipe f = a /\
    pipe_mode f = FILP_PIPE_READ /\ has (filp_flags f) O_NONBLOCK = true /\
    aget (inode_table (kfs k)) i = Some ino /\ i_count ino <> 1 /\ waiting_at (kwriting k) i = [];
  pe_write : exists f i ino, aget (fd_table (kfs k)) fw = Some f /\ filp_ino f = Some i /\ filp_pipe f = a /\
    pipe_mode f = FILP_PIPE_WRITE /\ has (filp_flags f) O_NONBLOCK = true /\
    aget (inode_table (kfs k)) i = Some ino /\ i_count ino <> 1 /\ waiting_at (kreading k) i = []
}.

Definition pipe_holds (a d : Z) (l : list Z) (k : kst) : Prop :=
  kpipes k !! a = Some (mkPipe d (alen l)) /\ alen l <= PIPE_LIMIT /\ mem_words (kmem k) d (alen l) = l.

(** The page of the pipe and the buffer of the client do not overlap. *)
Definition apart (d buf n : Z) : Prop := d + PIPE_LIMIT <= buf \/ buf + n <= d.

(** ** Words of memory *)
Lemma mem_words_app m a n1 n2 : 0 <= n1 -> 0 <= n2 -> mem_words m a (n1 + n2) = mem_words m a n1 ++ mem_words m (a + n1) n2.
Proof. intros. unfold mem_words. by rewrite seqZ_app, map_app by lia. Qed.

Lemma mem_words_copy m dst src n :
  (dst <= src \/ src + n <= dst) -> mem_words (memcpy m dst src n) dst n = mem_words m src n.
Proof.
  intros Ho. unfold mem_words, memcpy. apply list_eq. intros i. rewrite !list_lookup_fmap.
  destruct (decide (Z.of_nat i < n)) as [Hi|Hi].
  - rewrite !lookup_seqZ_lt by lia. cbn. f_equal. rewrite memcpy_loop_spec by lia.
    destruct (Z.leb_spec dst (dst + Z.of_nat i)), (Z.ltb_spec (dst + Z.of_nat i) (dst + Z.of_nat (Z.to_nat n))); cbn; try lia.
    f_equal. lia.
  - by rewrite !lookup_seqZ_ge by lia.
Qed.

Lemma memcpy_frame m dst src n x :
  (dst <= src \/ src + n <= dst) -> ~ (dst <= x < dst + n) -> memcpy m dst src n x = m x.
Proof.
  intros Ho Hx. unfold memcpy. destruct (decide (0 <= n)) as [Hn|Hn].
  - rewrite memcpy_loop_spec by lia. destruct (Z.leb_spec dst x), (Z.ltb_spec x (dst + Z.of_nat (Z.to_nat n))); cbn; try done; lia.
  - by replace (Z.to_nat n) with 0%nat by lia.
Qed.

Lemma memset_frame m dst c n x : ~ (dst <= x < dst + n) -> memset m dst c n x = m x.
Proof.
  intros Hx. unfold memset. case_match; [|done]. destruct (decide (0 <= n)) as [Hn|Hn]; [|by replace (Z.to_nat n) with 0%nat by lia].
  rewrite <- (Z2Nat.id n) in Hx by done. clear -Hx. revert m dst Hx. induction (Z.to_nat n) as [|i IH]; intros m dst Hx; [done|].
  cbn [memset_loop]. rewrite IH by lia. unfold mset. destruct (Z.eqb_spec x dst); [lia|done].
Qed.

Lemma shift_loop_spec n : forall m d j i, j < i ->
  let '(m', j') := shift_loop n m d j i in
  j' = j + Z.of_nat n /\ (forall t, 0 <= t < Z.of_nat n -> m' (d + j + t) = m (d + i + t)) /\
  (forall x, ~ (d + j <= x < d + i + Z.of_nat n) -> m' x = m x).
Proof.
  induction n as [|n IH]; intros m d j i Hji; cbn [shift_loop]; [split; [lia|split; [lia|done]]|].
  set (m1 := mset (mset m (d + j) (m (d + i))) (d + i) 0). specialize (IH m1 d (j + 1) (i + 1) ltac:(lia)).
  destruct (shift_loop n m1 d (j + 1) (i + 1)) as [m' j'] eqn:E.
  assert (Hm1 : forall x, m1 x = if x =? d + i then 0 else if x =? d + j then m (d + i) else m x) by done.
  destruct IH as (Hj & Hmv & Hfr). split; [lia|]. split.
  - intros t Ht. destruct (decide (t = 0)) as [->|Ht0].
    + rewrite Hfr by lia. rewrite Hm1. destruct (Z.eqb_spec (d + j + 0) (d + i)), (Z.eqb_spec (d + j + 0) (d + j)); try lia.
      f_equal. lia.
    + replace (d + j + t) with (d + (j + 1) + (t - 1)) by lia. rewrite Hmv, Hm1 by lia.
      destruct (Z.eqb_spec (d + (i + 1) + (t - 1)) (d + i)), (Z.eqb_spec (d + (i + 1) + (t - 1)) (d + j)); try lia. f_equal. lia.
  - intros x Hx. rewrite Hfr, Hm1 by lia. destruct (Z.eqb_spec x (d + i)), (Z.eqb_spec x (d + j)); try lia; done.
Qed.

(** Taking [i] words off the front of [pos] words moves the rest down. *)
Lemma shift_pipe_data_spec m d pos i :
  0 < i <= pos ->
  (shift_pipe_data m d pos i).2 = pos - i /\
  mem_words (shift_pipe_data m d pos i).1 d (pos - i) = mem_words m (d + i) (pos - i) /\
  (forall x, ~ (d <= x < d + pos) -> (shift_pipe_data m d pos i).1 x = m x).
Proof.
  intros Hi. unfold shift_pipe_data. pose proof (shift_loop_spec (Z.to_nat (pos - i)) m d 0 i ltac:(lia)) as H.
  destruct (shift_loop _ m d 0 i) as [m' j'] eqn:E. destruct H as (Hj & Hmv & Hfr). cbn [fst snd].
  rewrite Z2Nat.id in * by lia. cbn in Hj. subst j'. split; [done|]. split.
  - unfold mem_words. apply list_eq. intros t. rewrite !list_lookup_fmap. destruct (decide (Z.of_nat t < pos - i)) as [Ht|Ht].
    + rewrite !lookup_seqZ_lt by lia. cbn. f_equal. rewrite memset_frame by lia. rewrite <- Hmv by lia. f_equal. lia.
    + by rewrite !lookup_seqZ_ge by lia.
  - intros x Hx. rewrite memset_frame by lia. apply Hfr. lia.
Qed.

(** ** The two calls *)
Definition fifo_rep (fr fw a d : Z) (l : list Z) (k : kst) : Prop := pipe_ends fr fw a k /\ pipe_holds a d l k.

Lemma getf_run k i f : aget (fd_table (kfs k)) i = Some f -> getf i k = Some (f, k).
Proof. unfold getf. by intros ->. Qed.

Lemma get_pipe_run k a p : kpipes k !! a = Some p -> get_pipe a k = Some (p, k).
Proof. unfold get_pipe. by intros ->. Qed.

Lemma kgeti_run k i ino : aget (inode_table (kfs k)) i = Some ino -> kgeti i k = Some (ino, k).
Proof. intros Hi. unfold kgeti, on_fs, zoom, geti. rewrite Hi. cbn. by destruct k. Qed.

Lemma upd_pipe_run k a p g : kpipes k !! a = Some p -> upd_pipe a g k = Some (tt, k <| kpipes ::= insert a (g p) |>).
Proof. unfold upd_pipe. by intros ->. Qed.

Lemma no_waiting k (reading : bool) i :
  waiting_at (if reading then kreading k else kwriting k) i = [] -> pipe_wake reading i k = Some (tt, k).
Proof. intros Hw. unfold pipe_wake, get_next_waiting. rewrite (bind_run _ _ k (@None pipe_waiting) k); [done|]. rewrite (bind_run _ _ k k k) by done. by rewrite Hw. Qed.

(** Only memory and the pipe's position change. *)
Definition fifo_frame (k k' : kst) : Prop :=
  kfs k' = kfs k /\ kreading k' = kreading k /\ kwriting k' = kwriting k.

Lemma pipe_ends_frame fr fw a k k' : fifo_frame k k' -> pipe_ends fr fw a k -> pipe_ends fr fw a k'.
Proof. intros (E1 & E2 & E3) [Hr Hw]. split; by rewrite E1, ?E2, ?E3. Qed.

Lemma _pipe_write_spec fw buf n a d l k f :
  aget (fd_table (kfs k)) fw = Some f -> filp_pipe f = a -> pipe_holds a d l k ->
  0 <= n < UINT_MOD - PIPE_LIMIT -> alen l + n <= PIPE_LIMIT -> apart d buf n ->
  exists k', _pipe_write fw buf n k = Some (n, k') /\ fifo_frame k k' /\
    pipe_holds a d (l ++ mem_words (kmem k) buf n) k'.
Proof.
  intros Hf Ha (Hp & Hl & Hm) Hn Hroom Hap. unfold _pipe_write. pose proof (alen_nonneg l).
  rewrite (bind_run _ _ _ _ _ (getf_run _ _ _ Hf)), Ha, (bind_run _ _ _ _ _ (get_pipe_run _ _ _ Hp)). cbn [pp_pos pp_data]. cbv zeta.
  rewrite u32_id by (unfold is_u32, UINT_MOD, PIPE_LIMIT, BLOCK_SIZE in *; lia).
  assert (E : (if alen l + n <? PIPE_LIMIT then alen l + n else PIPE_LIMIT) - alen l = n) by (destruct (Z.ltb_spec (alen l + n) PIPE_LIMIT); lia).
  rewrite E. set (k1 := k <| kmem ::= (fun m => memcpy m (d + alen l) buf n) |>). rewrite (bind_run _ _ k tt k1) by done.
  rewrite (bind_run _ _ k1 tt _ (upd_pipe_run k1 a _ _ Hp)). eexists. split; [done|]. split; [done|].
  assert (Ho : d + alen l <= buf \/ buf + n <= d + alen l) by (unfold apart in Hap; lia).
  assert (Hw : alen (mem_words (kmem k) buf n) = n) by (unfold alen; rewrite length_mem_words; lia).
  assert (Ea : alen (l ++ mem_words (kmem k) buf n) = alen l + n) by (rewrite <- Hw at 2; unfold alen; rewrite length_app; lia).
  split; [|split; [lia|]].
  - rewrite Ea. gsimpl. rewrite lookup_insert_eq. do 2 f_equal. lia.
  - rewrite Ea. change (mem_words (memcpy (kmem k) (d + alen l) buf n) d (alen l + n) = l ++ mem_words (kmem k) buf n).
    rewrite mem_words_app by lia. f_equal; [|by apply mem_words_copy].
    eapply eq_trans; [|exact Hm]. apply mem_words_frame. intros x Hx. apply memcpy_frame; [done|lia].
Qed.

Lemma _pipe_read_spec fr buf n a d l k f :
  aget (fd_table (kfs k)) fr = Some f -> filp_pipe f = a -> pipe_holds a d l k ->
  0 < n -> l <> [] -> apart d buf (Z.min n (alen l)) ->
  exists k', _pipe_read fr buf n k = Some (Z.min n (alen l), k') /\ fifo_frame k k' /\
    pipe_holds a d (drop (Z.to_nat n) l) k' /\ mem_words (kmem k') buf (Z.min n (alen l)) = take (Z.to_nat n) l.
Proof.
  intros Hf Ha (Hp & Hl & Hm) Hn Hne Hap. unfold _pipe_read. set (c := Z.min n (alen l)) in *.
  assert (Hc : 0 < c <= alen l) by (destruct l; [done|]; unfold c, alen; cbn; lia).
  assert (Hcm : c = Z.min n (alen l)) by done. clearbody c.
  rewrite (bind_run _ _ _ _ _ (getf_run _ _ _ Hf)), Ha, (bind_run _ _ _ _ _ (get_pipe_run _ _ _ Hp)). cbn [pp_pos pp_data]. cbv zeta.
  assert (E : (if n <? alen l then n else alen l) = c) by (destruct (Z.ltb_spec n (alen l)); lia). rewrite E.
  set (k1 := k <| kmem ::= (fun m => memcpy m buf d c) |>). rewrite (bind_run _ _ k tt k1), (bind_run _ _ k1 k1 k1) by done.
  pose proof (shift_pipe_data_spec (kmem k1) d (alen l) c Hc) as (Ej & Esh & Efr).
  destruct (shift_pipe_data (kmem k1) d (alen l) c) as [m' j]. cbn [fst snd] in *. subst j.
  set (k2 := k1 <| kmem := m' |>). rewrite (bind_run _ _ k1 tt k2) by done.
  rewrite (bind_run _ _ k2 tt _ (upd_pipe_run k2 a _ _ Hp)). eexists. split; [done|]. split; [done|].
  assert (Ho : buf <= d \/ d + c <= buf) by (unfold apart in Hap; lia).
  assert (Hk1 : kmem k1 = memcpy (kmem k) buf d c) by done.
  assert (Hlc : l = mem_words (kmem k) d c ++ mem_words (kmem k) (d + c) (alen l - c)).
  { rewrite <- mem_words_app by lia. by replace (c + (alen l - c)) with (alen l) by lia. }
  assert (Hcn : take (Z.to_nat n) l = mem_words (kmem k) d c /\ drop (Z.to_nat n) l = mem_words (kmem k) (d + c) (alen l - c)).
  { destruct (decide (n <= alen l)) as [Hle|Hgt].
    - assert (n = c) as -> by lia. generalize Hlc. generalize (mem_words (kmem k) (d + c) (alen l - c)) as l2. intros l2 ->.
      split; [apply take_app_length'|apply drop_app_length']; by rewrite length_mem_words.
    - replace (alen l - c) with 0 in * by lia. rewrite app_nil_r in Hlc by done. rewrite take_ge, drop_ge by (unfold alen in *; lia). done. }
  destruct Hcn as [-> ->].
  assert (Ed : alen (mem_words (kmem k) (d + c) (alen l - c)) = alen l - c) by (unfold alen at 1; rewrite length_mem_words; lia).
  split; [split; [|split; [lia|]]|].
  - rewrite Ed. gsimpl. by rewrite lookup_insert_eq.
  - rewrite Ed. change (mem_words m' d (alen l - c) = mem_words (kmem k) (d + c) (alen l - c)). rewrite Esh, Hk1.
    apply mem_words_frame. intros x Hx. apply memcpy_frame; [done|]. unfold apart in Hap. lia.
  - change (mem_words m' buf c = mem_words (kmem k) d c). rewrite <- (mem_words_copy (kmem k) buf d c Ho), <- Hk1.
    apply mem_words_frame. intros x Hx. apply Efr. unfold apart in Hap. lia.
Qed.

(** Storing words in the client's buffer. *)
Lemma store_rep fr fw a d l k buf ws :
  fifo_rep fr fw a d l k -> apart d buf (alen ws) ->
  fifo_rep fr fw a d l (k <| kmem ::= (fun m => wr_words m buf ws) |>).
Proof.
  intros (He & Hp & Hl & Hm) Hap. split; [by apply (pipe_ends_frame _ _ _ k)|]. split; [done|]. split; [done|].
  change (mem_words (wr_words (kmem k) buf ws) d (alen l) = l). eapply eq_trans; [|exact Hm].
  apply mem_words_frame. intros x Hx. apply wr_words_out. unfold apart in Hap. lia.
Qed.

Lemma pipe_write_spec fr fw buf a d l k n :
  fifo_rep fr fw a d l k -> 0 <= n < UINT_MOD - PIPE_LIMIT -> apart d buf n ->
  exists ret k', pipe_write fw buf n 0 k = Some (ret, k') /\
    (ret, [], if (n >? PIPE_LIMIT) || (alen l + n >? PIPE_LIMIT) then l else l ++ mem_words (kmem k) buf n) =
      (if n >? PIPE_LIMIT then (ENOSPC, [], l)
       else if alen l + n >? PIPE_LIMIT then (0, [], l) else (n, ([] : list Z), l ++ mem_words (kmem k) buf n)) /\
    fifo_rep fr fw a d (if (n >? PIPE_LIMIT) || (alen l + n >? PIPE_LIMIT) then l else l ++ mem_words (kmem k) buf n) k'.
Proof.
  intros Hrep Hn Hap. pose proof Hrep as (He & Hh). pose proof (pe_write _ _ _ _ He) as (f & i & ino & Hf & Hi & Ha & Hmode & Hnb & Hino & Hc & Hw).
  pose proof Hh as (Hp & Hl & Hm). pose proof (alen_nonneg l).
  unfold pipe_write. rewrite (bind_run _ _ _ _ _ (getf_run _ _ _ Hf)), Hi, (bind_run _ _ k i k) by done.
  rewrite (bind_run _ _ _ _ _ (kgeti_run _ _ _ Hino)), Hmode. change (FILP_PIPE_WRITE =? FILP_PIPE_READ) with false. cbn iota.
  rewrite (proj2 (Z.eqb_neq (i_count ino) 1) Hc), Hnb, Ha. destruct (Z.gtb_spec n PIPE_LIMIT) as [Hbig|Hsmall]; cbn [orb].
  { exists ENOSPC, k. by split. }
  rewrite (bind_run _ _ _ _ _ (get_pipe_run _ _ _ Hp)). cbn [pp_pos].
  assert (Er : (n >? u32 (PIPE_LIMIT - alen l)) = (alen l + n >? PIPE_LIMIT)).
  { rewrite u32_id by (unfold is_u32, UINT_MOD, PIPE_LIMIT, BLOCK_SIZE in *; lia).
    destruct (Z.gtb_spec n (PIPE_LIMIT - alen l)), (Z.gtb_spec (alen l + n) PIPE_LIMIT); lia. }
  rewrite Er. destruct (Z.gtb_spec (alen l + n) PIPE_LIMIT) as [Hfull|Hroom]; [by exists 0, k|].
  destruct (_pipe_write_spec fw buf n a d l k f) as (k1 & E1 & F1 & H1); [done..|].
  rewrite (bind_run _ _ _ _ _ E1). exists n. pose proof F1 as (_ & Fr & _).
  destruct (Z.eqb_spec n 0); [exists k1|exists k1; rewrite (bind_run _ _ k1 tt k1) by (apply no_waiting; by rewrite Fr)];
    (split; [done|split; [done|split; [by apply (pipe_ends_frame _ _ _ k)|done]]]).
Qed.

Lemma pipe_read_spec fr fw buf a d l k n :
  fifo_rep fr fw a d l k -> 0 < n -> apart d buf (Z.min n (alen l)) ->
  exists k', pipe_read fr buf n 0 k = Some (Z.min n (alen l), k') /\
    fifo_rep fr fw a d (drop (Z.to_nat n) l) k' /\ mem_words (kmem k') buf (Z.min n (alen l)) = take (Z.to_nat n) l.
Proof.
  intros (He & Hh) Hn Hap. pose proof (pe_read _ _ _ _ He) as (f & i & ino & Hf & Hi & Ha & Hmode & Hnb & Hino & Hc & Hw).
  pose proof Hh as (Hp & Hl & Hm). pose proof (alen_nonneg l).
  unfold pipe_read. rewrite (bind_run _ _ _ _ _ (getf_run _ _ _ Hf)), Hi, (bind_run _ _ k i k) by done.
  rewrite (bind_run _ _ _ _ _ (kgeti_run _ _ _ Hino)), Hmode. change (FILP_PIPE_READ =? FILP_PIPE_WRITE) with false. cbn iota.
  rewrite (proj2 (Z.eqb_neq (i_count ino) 1) Hc), Hnb, Ha, (bind_run _ _ _ _ _ (get_pipe_run _ _ _ Hp)). cbn [pp_pos].
  destruct (decide (l = [])) as [->|Hne].
  { change (alen (@nil Z)) with 0 in *. rewrite Z.min_r by lia. exists k. rewrite drop_nil, take_nil. split; [done|split; [by split|done]]. }
  assert (alen l <> 0) as Hl0 by (unfold alen; destruct l; [done|cbn; lia]). rewrite (proj2 (Z.eqb_neq _ _) Hl0).
  destruct (_pipe_read_spec fr buf n a d l k f) as (k1 & E1 & F1 & H1 & M1); [done..|].
  rewrite (bind_run _ _ _ _ _ E1), (proj2 (Z.eqb_neq (Z.min n (alen l)) 0)) by lia. pose proof F1 as (_ & _ & Fw).
  exists k1. rewrite (bind_run _ _ k1 tt k1) by (apply no_waiting; by rewrite Fw).
  split; [done|]. split; [|done]. split; [by apply (pipe_ends_frame _ _ _ k)|done].
Qed.

Lemma fifo_serve_spec fr fw a d buf l k r :
  fifo_rep fr fw a d l k -> fifo_ok r -> d + PIPE_LIMIT <= buf ->
  exists k', fifo_serve fr fw buf r k = Some ((fifo_step l r).1, k') /\ fifo_rep fr fw a d (fifo_step l r).2 k'.
Proof.
  intros Hrep Hok Hbuf. assert (Hap : forall n, apart d buf n) by (intros; by left). destruct r as [ws|n]; cbn [fifo_serve fifo_ok] in *.
  - set (k1 := k <| kmem ::= (fun m => wr_words m buf ws) |>). rewrite (bind_run _ _ k tt k1) by done.
    pose proof (store_rep _ _ _ _ _ _ buf ws Hrep (Hap _)) as Hrep1. pose proof (alen_nonneg ws).
    destruct (pipe_write_spec fr fw buf a d l k1 (alen ws)) as (ret & k2 & E2 & Es & R2); [done|lia|done|].
    rewrite (bind_run _ _ _ _ _ E2). exists k2. change (kmem k1) with (wr_words (kmem k) buf ws) in *.
    rewrite mem_words_wr in *. cbn [fifo_step]. rewrite <- Es. by split.
  - destruct (pipe_read_spec fr fw buf a d l k n Hrep Hok (Hap _)) as (k1 & E1 & R1 & M1).
    rewrite (bind_run _ _ _ _ _ E1), (bind_run _ _ k1 (kmem k1) k1), M1 by done. by exists k1.
Qed.

Lemma fifo_run_cons l r rs :
  fifo_run l (r :: rs) = ((fifo_step l r).1 :: (fifo_run (fifo_step l r).2 rs).1, (fifo_run (fifo_step l r).2 rs).2).
Proof. cbn. destruct (fifo_step l r) as [[ret ws] l']. cbn. by destruct (fifo_run l' rs). Qed.

(** C15: a pipe refines a queue of words.  Through two non-blocking ends, any
    sequence of writes and of reads of at least one word terminates without a crash,
    returns the counts of the queue and delivers the words in the order they were
    written; a write that does not fit in the 1024 words of the pipe has no effect. *)
Theorem pipe_fifo_refines fr fw a d buf rs : forall k l,
  pipe_ends fr fw a k -> pipe_holds a d l k -> d + PIPE_LIMIT <= buf -> Forall fifo_ok rs ->
  exists k', fifo_serves fr fw buf rs k = Some ((fifo_run l rs).1, k') /\
    pipe_ends fr fw a k' /\ pipe_holds a d (fifo_run l rs).2 k'.
Proof.
  induction rs as [|r rs IH]; intros k l He Hh Hap Hok; [by exists k|].
  apply Forall_cons in Hok as [Hr Hrs]. rewrite fifo_run_cons. cbn [fifo_serves fst snd].
  destruct (fifo_serve_spec fr fw a d buf l k r) as (k1 & E1 & He1 & Hh1); [done..|]. rewrite (bind_run _ _ _ _ _ E1).
  destruct (IH k1 _ He1 Hh1 Hap Hrs) as (k2 & E2 & He2 & Hh2). rewrite (bind_run _ _ _ _ _ E2). by exists k2.
Qed.

Definition pipe_sample : kst :=
  let e mode := filp_zero <| filp_ino := Some 0 |> <| filp_count := 1 |> <| filp_pipe := 5000 |> <| pipe_mode := mode |> <| filp_flags := O_NONBLOCK |> in
  sample_k <| kfs := sample_fs <| fd_table := [e FILP_PIPE_READ; e FILP_PIPE_WRITE] |> <| inode_table := [inode_zero <| i_count := 2 |>] |> |>
    <| kpipes := {[ 5000 := mkPipe 4096 0 ]} |>.

Lemma pipe_fifo_refines_witness :
  exists k', fifo_serves 0 1 9000 [FWrite [7; 8; 9]; FRead 2; FWrite [10]; FRead 5; FRead 1] pipe_sample =
    Some ([(3, []); (2, [7; 8]); (1, []); (2, [9; 10]); (0, [])], k').
Proof.
  destruct (pipe_fifo_refines 0 1 5000 4096 9000 [FWrite [7; 8; 9]; FRead 2; FWrite [10]; FRead 5; FRead 1] pipe_sample [])
    as (k' & E & _).
  - split; do 3 eexists; repeat split; done.
  - repeat split; done.
  - done.
  - repeat constructor; done.
  - by exists k'.
Defined.
