(* ===== verification/Rootfs.v ===== *)
(** * fs/rootfs.c, fs/dev.c and driver/tty.c: the devices behind open files

    The operations of a file are those of its device: [struct filp_operations] is a
    record of handlers, [fops] the table [register_device] fills. *)
From S2P Require Import Prelude Bitmap Mm Linked CString Timer Slab Kernel Proc Ipc Cache Inode Signal Filp Pipe.

Definition O_RDONLY : Z := 0.
Definition O_WRONLY : Z := 1.
Definition O_CREAT : Z := 0x100.
Definition O_EXCL : Z := 0x200.
Definition O_TRUNC : Z := 0x1000.
Definition O_APPEND : Z := 0x2000.
Definition O_DIRECT : Z := 0x80000.

Record filp_operations := mkFops {
  fop_open : Z -> Z -> K Z;                  (* device, file *)
  fop_read : Z -> Z -> Z -> Z -> K Z;        (* file, data, count, offset *)
  fop_write : Z -> Z -> Z -> Z -> K Z;
  fop_close : Z -> Z -> K Z;
  fop_ioctl : Z -> Z -> Z -> K Z             (* file, request, argument *)
}.

(** ** fs/rootfs.c *)

(** A block of a file or 0; indices beyond the zones are [None]. *)
Definition zone_of (ino : inode_t) (i : Z) : option Z := aget (i_zone ino) i.

(** [while(len2-- > 0) STAR data++ = STAR p++] from a buffer: [len] may be past the block. *)
Definition block_slice (b : block_buffer) (off len : Z) : option (list Z) :=
  if len <=? 0 then Some []
  else if off + len <=? BLOCK_SIZE then Some (take (Z.to_nat len) (drop (Z.to_nat off) (block b)))
  else None.

(** More rounds than a file has zones: the next one reads past [i_zone]. *)
Definition ZONE_ROUNDS : nat := Z.to_nat (NR_TZONES + 2).

Fixpoint root_read_loop (n : nat) (filp curr limit off count ret data : Z) : K Z :=
  match n with
  | O => crash
  | S n' =>
      if curr >? limit then mret ret
      else
        f ← getf filp;
        i ← liftO (filp_ino f);
        ino ← kgeti i;
        bnr ← liftO (zone_of ino curr);
        if bnr =? 0 then root_read_loop n' filp (curr + 1) limit off count ret data
        else
          let len := if u32 (BLOCK_SIZE - off) >? count then count else u32 (BLOCK_SIZE - off) in
          let len := if u32 (off + len) <? i_size ino then len else u32 (i_size ino - off) in
          if has (filp_flags f) O_DIRECT then
            (* the device operations of the pipe are NULL *)
            if negb (filp_dev f =? ROOTFS_DEV) then crash
            else
              w ← on_fs (blk_dev_io_read (u32 (off + bnr * BLOCK_SIZE)) len);
              let r := snd (w : list Z * Z) in
              _ ← modifyS (fun k => k <| kmem ::= (fun m => wr_words m data (fst w)) |>);
              _ ← updf filp (fun f => f <| filp_pos ::= (fun p => u32 (p + r)) |>);
              if r =? 0 then mret (s32 ret)
              else root_read_loop n' filp (curr + 1) limit 0 (u32 (count - len)) (ret + r) (data + r)
          else
            buf ← on_fs (Cache.get_block bnr (filp_dev f));
            b ← on_fs (get_buf buf);
            ws ← liftO (block_slice b off len);
            _ ← modifyS (fun k => k <| kmem ::= (fun m => wr_words m data ws) |>);
            _ ← on_fs (put_block_buffer buf);
            _ ← updf filp (fun f => f <| filp_pos ::= (fun p => u32 (p + len)) |>);
            if len =? 0 then mret ret
            else root_read_loop n' filp (curr + 1) limit 0 (u32 (count - len)) (ret + len) (data + len)
  end.

(** At most NR_TZONES rounds stay inside of [i_zone]. *)
Definition root_fs_read (filp data count offset : Z) : K Z :=
  f ← getf filp;
  root_read_loop ZONE_ROUNDS filp (offset / BLOCK_SIZE)
    (u32 (filp_pos f + count) / BLOCK_SIZE) (offset mod BLOCK_SIZE) count 0 data.

Fixpoint root_write_loop (n : nat) (filp curr limit off count ret data : Z) : K Z :=
  match n with
  | O => crash
  | S n' =>
      if curr >? limit then mret ret
      else
        f ← getf filp;
        i ← liftO (filp_ino f);
        ino ← kgeti i;
        bnr0 ← liftO (zone_of ino curr);
        bnr ← (if bnr0 =? 0 then
                 (* bnr is unsigned: ENOSPC is a positive block number *)
                 a ← on_fs (alloc_block i (i_dev ino));
                 _ ← (if u32 a >? 0
                      then kupdi i (fun x => x <| i_zone ::= <[Z.to_nat curr := u32 a]> |>)
                      else mret tt);
                 mret (u32 a)
               else mret bnr0);
        if (bnr : Z) =? 0 then mret ENOSPC
        else
          let len := if u32 (BLOCK_SIZE - off) >? count then count else u32 (BLOCK_SIZE - off) in
          k ← getS;
          r ← (if has (filp_flags f) O_DIRECT then
                 if negb (filp_dev f =? ROOTFS_DEV) then crash
                 else on_fs (blk_dev_io_write (mem_words (kmem k) data len) (u32 (off + bnr * BLOCK_SIZE)) len)
               else
                 buf ← on_fs (Cache.get_block bnr (filp_dev f));
                 b ← on_fs (get_buf buf);
                 blk ← liftO (blk_write (block b) off (mem_words (kmem k) data len));
                 _ ← on_fs (upd_buf buf (fun x => x <| block := blk |>));
                 _ ← on_fs (put_block_buffer_dirt buf);
                 mret len);
          if (r : Z) =? 0 then mret ret
          else
            _ ← updf filp (fun f => f <| filp_pos ::= (fun p => u32 (p + r)) |>);
            _ ← kupdi i (fun x => x <| i_size ::= (fun s => u32 (s + r)) |>);
            root_write_loop n' filp (curr + 1) limit 0 (u32 (count - len)) (ret + r) (data + r)
  end.

Definition root_fs_write (filp data count offset : Z) : K Z :=
  f ← getf filp;
  root_write_loop ZONE_ROUNDS filp (offset / BLOCK_SIZE)
    (u32 (filp_pos f + count) / BLOCK_SIZE) (offset mod BLOCK_SIZE) count 0 data.

Definition root_fs_open (dev file : Z) : K Z := mret 0.

Definition root_fs_close (dev filp : Z) : K Z :=
  _ ← updf filp (fun f => f <| filp_count ::= Z.pred |>);
  f ← getf filp;
  if filp_count f =? 0 then
    _ ← on_fs (put_inode (filp_ino f) true);
    i ← liftO (filp_ino f);
    ino ← kgeti i;
    if (i_count ino =? 0) && (i_nlinks ino =? 0) then _ ← on_fs (release_inode i); mret OK
    else mret OK
  else mret OK.

Definition root_fs_ioctl (file request_type arg : Z) : K Z := mret OK.

(** ** driver/tty.c, the file operations *)
Definition TTY2_DEV : Z := 4.
Definition TTY_BUFFER_SIZ : Z := 64.
Definition TIOCGPGRP : Z := 11.
Definition TIOCSPGRP : Z := 12.
Definition TIOCSCTTY : Z := 18.
Definition TIOCDISABLEECHO : Z := 20.
Definition TIOCENABLEECHO : Z := 21.
Definition IS_SERIAL_CODE (c : Z) : bool := (c >=? 0) && (c <=? 127).

Definition get_tty (d : Z) : K tty_state := fun k => liftO (kttys k !! d) k.
Definition upd_tty (d : Z) (f : tty_state -> tty_state) : K unit := fun k =>
  match kttys k !! d with
  | Some t => Some (tt, k <| kttys ::= insert d (f t) |>)
  | None => None
  end.

(** The port is always ready to send; it accepts the serial codes only. *)
Definition __kputc (d c : Z) : K Z :=
  if IS_SERIAL_CODE c then _ ← upd_tty d (fun t => t <| tty_tx ::= (fun o => o ++ [c]) |>); mret c
  else mret (-1).

Fixpoint until_nul (l : list Z) : list Z :=
  match l with
  | [] => []
  | c :: l' => if c =? 0 then [] else c :: until_nul l'
  end.

(** [strncpy] from the tty buffer to memory; the word behind [count] characters
    is set to 0. *)
Definition tty_strncpy (m : memory) (dest : Z) (src : list Z) (count : Z) : memory :=
  let s := take (Z.to_nat count) (until_nul src) in
  mset (wr_words m dest s) (dest + alen s) 0.

Definition __tty_read (d data len : Z) : K Z :=
  t ← get_tty d;
  let buffer_count := u32 (bptr t - read_ptr t) in
  let count := if buffer_count <? len then buffer_count else len in
  if (count >? 0) && (bptr t >? read_ptr t) then
    b ← liftO (aset (tty_buffer t) (bptr t) 0);
    _ ← modifyS (fun k => k <| kmem ::= (fun m => tty_strncpy m data (drop (Z.to_nat (read_ptr t)) b) count) |>);
    _ ← upd_tty d (fun t => t <| tty_buffer := b |> <| read_ptr ::= Z.add count |>);
    mret count
  else mret 0.

(** [len-- > 0] on an unsigned count: all of it. *)
Definition tty_write_rex (d data len : Z) : K Z :=
  k ← getS;
  _ ← upd_tty d (fun t => t <| tty_tx ::= (fun o => o ++ filter IS_SERIAL_CODE (map s32 (mem_words (kmem k) data len))) |>);
  mret (s32 len).

Definition tty_read (filp data count offset : Z) : K Z :=
  f ← getf filp;
  let d := filp_private f in
  t ← get_tty d;
  busy ← match reader t with
         | Some r =>
             p ← getp r;
             if IS_INUSE p then mret true else _ ← upd_tty d (fun t => t <| reader := None |>); mret false
         | None => mret false
         end;
  if (busy : bool) then mret EBUSY
  else if has (filp_flags f) O_NONBLOCK then __tty_read d data count
  else
    k ← getS;
    _ ← upd_tty d (fun t => t <| read_data := data |> <| read_count := count |> <| reader := curr_user_proc k |>);
    mret SUSPEND.

Definition tty_write (filp data count offset : Z) : K Z :=
  f ← getf filp; tty_write_rex (filp_private f) data count.

Definition tty_open (dev file : Z) : K Z :=
  _ ← updf file (fun f => f <| filp_private := dev |>); mret 0.

(** The count of the file is not decremented. *)
Definition tty_close (dev file : Z) : K Z := mret 0.

Definition tty_ioctl (file request ptr : Z) : K Z :=
  k ← getS;
  f ← getf file;
  let d := filp_dev f in
  t ← get_tty d;
  if request =? TIOCGPGRP then _ ← wr ptr (foreground_group t); mret OK
  else if request =? TIOCSPGRP then
    v ← rd ptr; _ ← upd_tty d (fun t => t <| foreground_group := s32 v |>); mret OK
  else if request =? TIOCSCTTY then
    who ← liftO (curr_user_proc k); p ← getp who;
    _ ← upd_tty d (fun t => t <| controlling_session := session_id p |>); mret OK
  else if request =? TIOCDISABLEECHO then _ ← upd_tty d (fun t => t <| is_echoing := false |>); mret OK
  else if request =? TIOCENABLEECHO then _ ← upd_tty d (fun t => t <| is_echoing := true |>); mret OK
  else mret EINVAL.

(** ** fs/dev.c: the registered devices *)
Definition ROOT_DEV : Z := 0x101.

Definition dev_id (dev : Z) : Z :=
  if dev =? ROOTFS_DEV then ROOT_DEV
  else if dev =? PIPE_DEV then 0x201
  else if dev =? TTY_DEV then 0x301
  else 0x302.

Definition device_type (dev : Z) : Z :=
  if dev =? ROOTFS_DEV then S_IFREG else if dev =? PIPE_DEV then S_IFIFO else S_IFCHR.

(** The list has the devices in the reverse order of their registration. *)
Definition devices_list : list Z := [TTY2_DEV; TTY_DEV; PIPE_DEV; ROOTFS_DEV].

Definition get_dev (id : Z) : option Z := head (filter (fun d => dev_id d = id) devices_list).

Definition root_fops : filp_operations := mkFops root_fs_open root_fs_read root_fs_write root_fs_close root_fs_ioctl.
(** There is no [ioctl] of a pipe: the call jumps to NULL. *)
Definition pipe_fops : filp_operations := mkFops pipe_open pipe_read pipe_write pipe_close (fun _ _ _ => crash).
Definition tty_fops : filp_operations := mkFops tty_open tty_read tty_write tty_close tty_ioctl.

(** [dev->fops]; a NULL device is a crash. *)
Definition fops (dev : Z) : K filp_operations :=
  if dev =? ROOTFS_DEV then mret root_fops
  else if dev =? PIPE_DEV then mret pipe_fops
  else if (dev =? TTY_DEV) || (dev =? TTY2_DEV) then mret tty_fops
  else crash.

(** [file->filp_dev->fops->close(file->filp_dev, file)] *)
Definition filp_close (file : Z) : K Z :=
  f ← getf file; o ← fops (filp_dev f); fop_close o (filp_dev f) file.
