(* ===== verification/Shell.v ===== *)
(** * user/bash/bash.c: the shell runs a line

    [exec_cmd] parses a line ([Parse]), stores a variable, runs a command of its own or
    starts programs: [_exec_cmd] makes a pipe between each command and the next one and
    runs the commands one after the other.  What matters of the kernel are the
    descriptors: each process has a table of open files, and a system call takes the
    least free place of the table of the process that runs.  vfork gives the child a
    copy of the table and lets it run until it has ended; what it hands to execv is
    recorded.  Process groups, signals and the terminal's modes are left out. *)
From S2P Require Import Prelude Parse.
From S2P Require Kernel Rootfs.

Inductive file := Tty | Reg (path : list Z) (flags : Z) | PipeR (k : Z) | PipeW (k : Z).

(** A call of execv: path, arguments, open files. *)
Record run := mkRun { r_path : list Z; r_args : list (list Z); r_fds : list (option file) }.

Record shst := mkSh {
  tabs : gmap Z (list (option file));      (* the open files of each process *)
  cur : Z;                                 (* the process that runs *)
  npipes : Z;
  nonblock : list Z;
  pipe_fds : list Z;
  ran : list run;
  unknown : list (list Z)
}.
#[export] Instance eta_sh : Settable shst := mkEta (fun s => mkSh (tabs s) (cur s) (npipes s) (nonblock s) (pipe_fds s) (ran s) (unknown s)).
Notation B := (ST shst).

(** The table of the process that runs. *)
Definition fds (s : shst) : list (option file) := default [] (tabs s !! cur s).
Definition set_fds (l : list (option file)) (s : shst) : shst := s <| tabs ::= <[cur s := l]> |>.

Definition STDIN_FILENO : Z := 0.
Definition STDOUT_FILENO : Z := 1.
Definition PIPE_READ : Z := 0.
Definition PIPE_WRITE : Z := 1.



Definition close (fd : Z) : B unit :=
  s ← getS;
  match aset (fds s) fd None with Some l => modifyS (set_fds l) | None => mret tt end.

Definition file_at (fd : Z) : B (option file) := s ← getS; mret (aget (fds s) fd ≫= id).

(** The result is not looked at by the shell. *)
Definition dup2 (oldfd newfd : Z) : B unit :=
  f ← file_at oldfd;
  s ← getS;
  match f, aset (fds s) newfd f with
  | Some _, Some l => modifyS (set_fds l)
  | _, _ => mret tt
  end.



(** vfork: a new process with a copy of the caller's table runs; the result is the caller,
    which goes on after [exit]. *)
Definition vfork : B Z :=
  s ← getS;
  let child := fresh (dom (tabs s)) in
  _ ← modifyS (fun s => s <| tabs ::= <[child := fds s]> |> <| cur := child |>);
  mret (cur s).

Definition exit (parent : Z) : B unit := modifyS (fun s => s <| tabs ::= delete (cur s) |> <| cur := parent |>).

Definition in_child {A} (body : B A) : B A := parent ← vfork; r ← body; _ ← exit parent; mret r.

Definition pipe_end (i e : Z) : B Z := s ← getS; liftO (aget (pipe_fds s) (i * 2 + e)).

(** ** Strings of the command line *)
Fixpoint c_string (fuel : nat) (b : list Z) (p : Z) : option (list Z) :=
  match fuel with
  | O => None
  | S n => c ← aget b p; if c =? 0 then Some [] else r ← c_string n b (p + 1); Some (c :: r)
  end.
Definition string_of (c : cmdLine) (p : option Z) : option (list Z) := p ← p; c_string (S (length (buf c))) (buf c) p.

(** The vector that begins at argv[i]. *)
Fixpoint arg_vector (fuel : nat) (c : cmdLine) (i : Z) : option (list (list Z)) :=
  match fuel with
  | O => None
  | S n =>
      p ← aget (argv c) i;
      match p with
      | None => Some []
      | Some _ => w ← string_of c p; r ← arg_vector n c (i + 1); Some (w :: r)
      end
  end.
Definition args_from (c : cmdLine) (i : Z) : option (list (list Z)) := arg_vector (S (length (argv c))) c i.

Section shell.
(** Whether [open] succeeds, and whether the file exists for [access]. *)
Context (open_ok : list Z -> Z -> bool) (found : list Z -> bool).




(** The child: its ends of the pipes, then execv. *)
Definition child_pipes (c : cmdLine) (i : Z) : B unit :=
  if numCommands c >? 1 then
    _ ← (if i + 1 <? numCommands c then w ← pipe_end i PIPE_WRITE; _ ← dup2 w STDOUT_FILENO; close w else mret tt);
    if i >? 0 then r ← pipe_end (i - 1) PIPE_READ; _ ← dup2 r STDIN_FILENO; close r else mret tt
  else mret tt.

Definition child (c : cmdLine) (i start : Z) (path : list Z) : B unit :=
  in_child (
    _ ← child_pipes c i;
    args ← liftO (args_from c start);
    modifyS (fun s => s <| ran ::= (fun l => l ++ [mkRun path args (fds s)]) |>)).










(** [cmd]: the structure on the stack before it is filled. *)
Context (symbol0 : Z) (getenv : list Z -> option (list Z)).

(** ** A pipeline is connected *)










(** What runs in one process leaves the tables of the others alone. *)
Definition same_others (s s' : shst) : Prop := cur s' = cur s /\ delete (cur s) (tabs s') = delete (cur s) (tabs s).

Lemma same_others_refl s : same_others s s.
Proof. done. Qed.









































End shell.

