(* ===== verification/FileIO.v ===== *)
(** * Reading back what was written

    [root_fs_write] and [root_fs_read] of fs/rootfs.c on one block of a file, on
    top of the block cache: what is written is what a later read delivers, and
    nothing else changes in the file system. *)
From S2P Require Import Prelude Bitmap Mm Linked CString Timer Slab Kernel Proc Ipc Cache Coherence Blocks Inode Signal Filp Pipe Fifo Rootfs.

(** ** One block of an open file *)

(** [ws] in place of the words of [l] from [off] on. *)
Definition splice (l : list Z) (off : Z) (ws : list Z) : list Z :=
  take (Z.to_nat off) l ++ ws ++ drop (Z.to_nat off + length ws) l.

Definition slice (l : list Z) (off n : Z) : list Z := take (Z.to_nat n) (drop (Z.to_nat off) l).

Lemma slice_splice l off ws :
  0 <= off -> off + alen ws <= alen l -> slice (splice l off ws) off (alen ws) = ws.
Proof.
  intros Ho Hl. unfold slice, splice. unfold alen in *.
  rewrite drop_app_length' by (rewrite length_take; lia). rewrite take_app_length'; [done|lia].
Qed.

(** A file of the root device open without O_DIRECT, its inode, and a state with
    every buffer of the cache on the list. *)
Record open_file (k : kst) (file i : Z) (f : filp_t) (ino : inode_t) : Prop := {
  of_file : aget (fd_table (kfs k)) file = Some f;
  of_ino : filp_ino f = Some i;
  of_dev : filp_dev f = ROOTFS_DEV;
  of_direct : has (filp_flags f) O_DIRECT = false;
  of_inode : aget (inode_table (kfs k)) i = Some ino
}.

Definition cache_idle (k : kst) : Prop := exists l, cache_rep (kfs k) l /\ free_list l.

(** [n] words at [offset] of the file, in the block [bnr], not up to its end. *)
Record in_block (ino : inode_t) (offset n bnr : Z) : Prop := {
  ib_offset : 0 <= offset;
  ib_count : 0 < n;
  ib_end : offset + n < UINT_MOD;
  ib_fits : offset mod BLOCK_SIZE + n < BLOCK_SIZE;
  ib_zone : zone_of ino (offset / BLOCK_SIZE) = Some bnr;
  ib_block : is_block bnr
}.

(** Projections of updated states, one update at a time. *)
Lemma kfs_kfs (k : kst) f : kfs (k <| kfs := f |>) = f.
Proof. done. Qed.
Lemma kmem_kfs (k : kst) f : kmem (k <| kfs := f |>) = kmem k.
Proof. done. Qed.
Lemma kfs_kmem (k : kst) g : kfs (k <| kmem ::= g |>) = kfs k.
Proof. done. Qed.
Lemma kmem_kmem (k : kst) g : kmem (k <| kmem ::= g |>) = g (kmem k).
Proof. done. Qed.

Lemma on_fs_run {A} (c : F A) k a f' : c (kfs k) = Some (a, f') -> on_fs c k = Some (a, k <| kfs := f' |>).
Proof. unfold on_fs, zoom. by intros ->. Qed.

Lemma in_block_len ino offset n bnr :
  in_block ino offset n bnr ->
  u32 (offset + n) / BLOCK_SIZE = offset / BLOCK_SIZE /\
  (u32 (BLOCK_SIZE - offset mod BLOCK_SIZE) >? n) = true /\ u32 (offset mod BLOCK_SIZE + n) = offset mod BLOCK_SIZE + n.
Proof.
  intros [Ho Hn He Hf _ _]. assert (HB : BLOCK_SIZE = 1024) by done. unfold UINT_MOD in *. rewrite HB in *.
  rewrite !u32_id by (unfold is_u32, UINT_MOD; zlia). split; [zlia|split; [|done]]. apply Z.gtb_lt. lia.
Qed.

(** The file after [n] more words. *)
Definition moved (f : filp_t) (n : Z) : filp_t := f <| filp_pos ::= (fun p => u32 (p + n)) |>.
Definition grown (ino : inode_t) (n : Z) : inode_t := ino <| i_size ::= (fun s => u32 (s + n)) |>.

Lemma updf_run k i f g :
  aget (fd_table (kfs k)) i = Some f ->
  updf i g k = Some (tt, k <| kfs := kfs k <| fd_table := <[Z.to_nat i := g f]> (fd_table (kfs k)) |> |>).
Proof. intros Hf. unfold updf. rewrite Hf, aset_in; [done|]. by eapply aget_Some_bound. Qed.

Lemma kupdi_run k i ino g :
  aget (inode_table (kfs k)) i = Some ino ->
  kupdi i g k = Some (tt, k <| kfs := kfs k <| inode_table := <[Z.to_nat i := g ino]> (inode_table (kfs k)) |> |>).
Proof. intros Hi. apply on_fs_run. unfold updi. rewrite Hi, aset_in; [done|]. by eapply aget_Some_bound. Qed.

Lemma aget_insert_same {A} (l : list A) i x y : aget l i = Some x -> aget (<[Z.to_nat i := y]> l) i = Some y.
Proof. intros Hi%aget_Some_bound. rewrite aget_insert by lia. by rewrite decide_True. Qed.

Lemma zone_rounds : ZONE_ROUNDS = S (S 8).
Proof. done. Qed.
#[local] Opaque ZONE_ROUNDS.

Lemma write_loop_stop fuel file curr limit off count ret data k :
  limit < curr -> root_write_loop (S fuel) file curr limit off count ret data k = Some (ret, k).
Proof. intros H. cbn [root_write_loop]. by rewrite (proj2 (Z.gtb_lt _ _)) by lia. Qed.

Lemma read_loop_stop fuel file curr limit off count ret data k :
  limit < curr -> root_read_loop (S fuel) file curr limit off count ret data k = Some (ret, k).
Proof. intros H. cbn [root_read_loop]. by rewrite (proj2 (Z.gtb_lt _ _)) by lia. Qed.

(** One round of [root_read_loop] through the buffer cache. *)
Lemma read_loop_round fuel file curr limit off count ret data k f i ino bnr n :
  curr <= limit -> aget (fd_table (kfs k)) file = Some f -> filp_ino f = Some i -> has (filp_flags f) O_DIRECT = false ->
  aget (inode_table (kfs k)) i = Some ino -> zone_of ino curr = Some bnr -> bnr <> 0 -> n <> 0 ->
  (let len := if u32 (BLOCK_SIZE - off) >? count then count else u32 (BLOCK_SIZE - off) in
   if u32 (off + len) <? i_size ino then len else u32 (i_size ino - off)) = n ->
  root_read_loop (S fuel) file curr limit off count ret data k =
    (buf ← on_fs (Cache.get_block bnr (filp_dev f));
     b ← on_fs (get_buf buf);
     ws ← liftO (block_slice b off n);
     _ ← modifyS (fun k => k <| kmem ::= (fun m => wr_words m data ws) |>);
     _ ← on_fs (put_block_buffer buf);
     _ ← updf file (fun f => f <| filp_pos ::= (fun p => u32 (p + n)) |>);
     root_read_loop fuel file (curr + 1) limit 0 (u32 (count - n)) (ret + n) (data + n)) k.
Proof.
  intros Hc Hf Hi Hdir Hino Hz Hb Hn Hl. cbn [root_read_loop]. rewrite Z.gtb_ltb, (proj2 (Z.ltb_ge limit curr)) by lia.
  rewrite (bind_run _ _ _ _ _ (getf_run _ _ _ Hf)), Hi, (bind_run _ _ k i k) by done.
  rewrite (bind_run _ _ _ _ _ (kgeti_run _ _ _ Hino)), Hz, (bind_run _ _ k bnr k) by done.
  rewrite (proj2 (Z.eqb_neq bnr 0)) by done. cbv zeta in Hl |- *. rewrite Hl, Hdir. by rewrite (proj2 (Z.eqb_neq n 0)) by done.
Qed.

(** A write within one block that the file has already. *)
Lemma root_fs_write_block k file i f ino data n offset bnr :
  open_file k file i f ino -> cache_idle k -> in_block ino offset n bnr -> filp_pos f = offset ->
  exists k', root_fs_write file data n offset k = Some (n, k') /\ kmem k' = kmem k /\ cache_idle k' /\
    open_file k' file i (moved f n) (grown ino n) /\
    (forall m, m <> 0 -> view_of (kfs k') m =
       if decide (m = bnr) then splice (view_of (kfs k) bnr) (offset mod BLOCK_SIZE) (mem_words (kmem k) data n) else view_of (kfs k) m).
Proof.
  intros [Hf Hi Hdev Hdir Hino] (l & Hr & Hfl) Hin Hpos. pose proof (in_block_len _ _ _ _ Hin) as (El & Eg & _).
  destruct Hin as [Ho Hn He Hfit Hz Hb]. set (off := offset mod BLOCK_SIZE) in *. set (ws := mem_words (kmem k) data n).
  assert (Hws : length ws = Z.to_nat n) by apply length_mem_words. pose proof (view_length _ _ _ Hr Hb) as Hvl.
  assert (Ho' : 0 <= off) by (apply Z.mod_pos_bound; done). assert (HB : BLOCK_SIZE = 1024) by done.
  assert (Hbw : blk_write (view_of (kfs k) bnr) off ws = Some (splice (view_of (kfs k) bnr) off ws)).
  { unfold blk_write, splice, alen. rewrite Hvl, Hws. destruct (Z.leb_spec 0 off), (Z.leb_spec (off + Z.of_nat (Z.to_nat n)) (Z.of_nat (Z.to_nat BLOCK_SIZE))); try done; lia. }
  destruct (write_block_run (kfs k) l bnr (splice (view_of (kfs k) bnr) off ws)) as (b & f1 & x & f2 & r & f3 & l3 & E1 & E2 & Ex & E3 & E4 & R3 & Fl3 & [T1 T2] & V3);
    [done..| |].
  { unfold splice. rewrite !length_app, length_take, length_drop, Hws, Hvl. lia. }
  unfold root_fs_write. rewrite (bind_run _ _ _ _ _ (getf_run _ _ _ Hf)), Hpos, El. 
  rewrite zone_rounds. remember (S 8) as rest eqn:Hrest. cbn [root_write_loop].
  rewrite Z.gtb_ltb, Z.ltb_irrefl, (bind_run _ _ _ _ _ (getf_run _ _ _ Hf)), Hi, (bind_run _ _ k i k) by done.
  rewrite (bind_run _ _ _ _ _ (kgeti_run _ _ _ Hino)), Hz, (bind_run _ _ k bnr k) by done.
  assert (Hb0 : (bnr =? 0) = false) by (apply Z.eqb_neq; unfold is_block in Hb; lia).
  rewrite Hb0, (bind_run _ _ k bnr k), Hb0 by done. fold off. rewrite Eg. cbv zeta. rewrite (bind_run _ _ k k k), Hdir, Hdev by done.
  set (k1 := k <| kfs := f1 |>). set (k2 := k <| kfs := f2 |>). set (k3 := k <| kfs := f3 |>).
  rewrite (bind_run _ _ k n k3).
  2:{ rewrite (bind_run _ _ _ _ _ (on_fs_run _ _ _ _ E1)). fold k1. rewrite (bind_run _ _ k1 x k1) by (by apply (on_fs_run _ k1)).
      rewrite Ex. fold ws. rewrite Hbw, (bind_run _ _ k1 (splice (view_of (kfs k) bnr) off ws) k1) by done.
      rewrite (bind_run _ _ k1 tt k2) by (by apply (on_fs_run _ k1)). by rewrite (bind_run _ _ k2 r k3) by (by apply (on_fs_run _ k2)). }
  rewrite (proj2 (Z.eqb_neq n 0)) by lia.
  assert (Hf3 : aget (fd_table (kfs k3)) file = Some f) by (change (kfs k3) with f3; congruence).
  rewrite (bind_run _ _ _ _ _ (updf_run _ _ _ _ Hf3)). set (k4 := k3 <| kfs := _ |>).
  assert (Hi4 : aget (inode_table (kfs k4)) i = Some ino) by (change (inode_table (kfs k4)) with (inode_table f3); congruence).
  rewrite (bind_run _ _ _ _ _ (kupdi_run _ _ _ _ Hi4)). set (k5 := k4 <| kfs := _ |>).
  exists k5. rewrite Hrest, write_loop_stop by lia. split; [done|]. split; [done|]. split; [by exists l3|]. split.
  - split; [|done|done|done|].
    + change (fd_table (kfs k5)) with (<[Z.to_nat file := moved f n]> (fd_table (kfs k3))). by apply (aget_insert_same _ _ f).
    + change (inode_table (kfs k5)) with (<[Z.to_nat i := grown ino n]> (inode_table (kfs k4))). by apply (aget_insert_same _ _ ino).
  - intros m Hm. change (view_of (kfs k5) m) with (view_of f3 m). by apply V3.
Qed.

(** A read within one block, up to the size of the file. *)
Lemma root_fs_read_block k file i f ino data n offset bnr :
  open_file k file i f ino -> cache_idle k -> in_block ino offset n bnr -> filp_pos f = offset ->
  offset mod BLOCK_SIZE + n <= i_size ino < UINT_MOD ->
  exists k', root_fs_read file data n offset k = Some (n, k') /\
    mem_words (kmem k') data n = slice (view_of (kfs k) bnr) (offset mod BLOCK_SIZE) n /\
    (forall x, ~ (data <= x < data + n) -> kmem k' x = kmem k x) /\ cache_idle k' /\
    open_file k' file i (moved f n) ino /\ (forall m, m <> 0 -> view_of (kfs k') m = view_of (kfs k) m).
Proof.
  intros [Hf Hi Hdev Hdir Hino] (l & Hr & Hfl) Hin Hpos Hsize. pose proof (in_block_len _ _ _ _ Hin) as (El & Eg & Eo).
  destruct Hin as [Ho Hn He Hfit Hz Hb]. set (off := offset mod BLOCK_SIZE) in *.
  pose proof (view_length _ _ _ Hr Hb) as Hvl. assert (Ho' : 0 <= off) by (apply Z.mod_pos_bound; done).
  destruct (read_block_run (kfs k) l bnr) as (b & f1 & x & r & f2 & l2 & E1 & E2 & Ex & E3 & R2 & Fl2 & [T1 T2] & V2); [done..|].
  set (ws := slice (view_of (kfs k) bnr) off n).
  assert (Hws : alen ws = n).
  { unfold ws, slice, alen. rewrite length_take, length_drop, Hvl. lia. }
  assert (Hbs : block_slice x off n = Some ws).
  { unfold block_slice. rewrite (proj2 (Z.leb_gt n 0)), (proj2 (Z.leb_le (off + n) BLOCK_SIZE)) by lia. by rewrite Ex. }
  assert (Hlen : (if u32 (off + n) <? i_size ino then n else u32 (i_size ino - off)) = n).
  { rewrite Eo. destruct (Z.ltb_spec (off + n) (i_size ino)); [done|]. rewrite u32_id by (unfold is_u32; lia). lia. }
  unfold root_fs_read. rewrite (bind_run _ _ _ _ _ (getf_run _ _ _ Hf)), Hpos, El.
  rewrite zone_rounds, (read_loop_round _ _ _ _ _ _ _ _ _ f i ino bnr n); try done; cycle 1.
  { unfold is_block in Hb. lia. }
  { lia. }
  { cbv zeta. fold off. by rewrite Eg, Hlen. }
  fold off. rewrite Hdev.
  set (k1 := k <| kfs := f1 |>). set (k2 := k1 <| kmem ::= (fun m => wr_words m data ws) |>). set (k3 := k2 <| kfs := f2 |>).
  rewrite (bind_run _ _ _ _ _ (on_fs_run _ _ _ _ E1)). fold k1. rewrite (bind_run _ _ k1 x k1) by (by apply (on_fs_run _ k1)).
  rewrite Hbs, (bind_run _ _ k1 ws k1), (bind_run _ _ k1 tt k2) by done.
  assert (Hk2 : kfs k2 = f1) by (unfold k2; by rewrite kfs_kmem). rewrite <- Hk2 in E3.
  assert (Hm3 : kmem k3 = wr_words (kmem k) data ws) by (unfold k3, k2, k1; by rewrite kmem_kfs, kmem_kmem, kmem_kfs).
  assert (Hk3 : kfs k3 = f2) by apply kfs_kfs.
  rewrite (bind_run _ _ k2 r k3) by (exact (on_fs_run _ k2 _ _ E3)). clearbody k3. clear k2 Hk2 E3.
  assert (Hf3 : aget (fd_table (kfs k3)) file = Some f) by (rewrite Hk3; congruence).
  rewrite (bind_run _ _ _ _ _ (updf_run _ _ _ _ Hf3)). set (k4 := k3 <| kfs := _ |>).
  rewrite read_loop_stop by lia. exists k4. split; [done|].
  assert (Hm4 : kmem k4 = wr_words (kmem k) data ws) by (unfold k4; by rewrite kmem_kfs).
  split; [rewrite Hm4, <- Hws at 1; apply mem_words_wr|]. split; [intros y Hy; rewrite Hm4; apply wr_words_out; by rewrite Hws|].
  assert (Hk4 : kfs k4 = f2 <| fd_table := <[Z.to_nat file := moved f n]> (fd_table f2) |>) by (unfold k4; by rewrite kfs_kfs, Hk3).
  unfold cache_idle. rewrite Hk4. split; [by exists l2|]. split; [|done]. split; [|done|done|done|]; rewrite Hk4.
  - rewrite <- Hk3. exact (aget_insert_same _ _ f _ Hf3).
  - change (aget (inode_table f2) i = Some ino). congruence.
Qed.

(** What is written to a file is what a read delivers.  For [n] words at a
    position within one block the file has, [root_fs_write] returns [n]; after the
    position is moved back, as lseek does, [root_fs_read] returns [n] and the words
    that were written, through the four buffers of the cache; no other block of the
    disk changes in between. *)
Theorem file_read_after_write k file i f ino src dst n offset bnr :
  open_file k file i f ino -> cache_idle k -> in_block ino offset n bnr -> filp_pos f = offset ->
  offset mod BLOCK_SIZE <= i_size ino -> i_size ino + n < UINT_MOD ->
  exists k1 k2 k3, root_fs_write file src n offset k = Some (n, k1) /\
    updf file (fun x => x <| filp_pos := offset |>) k1 = Some (tt, k2) /\
    root_fs_read file dst n offset k2 = Some (n, k3) /\
    mem_words (kmem k3) dst n = mem_words (kmem k) src n /\ cache_idle k3 /\
    (forall m, m <> 0 -> m <> bnr -> view_of (kfs k3) m = view_of (kfs k) m).
Proof.
  intros Ho Hc Hin Hpos Hsize Hmax. pose proof Hin as [Hoff Hn He Hfit Hz Hb].
  assert (0 <= offset mod BLOCK_SIZE) by (apply Z.mod_pos_bound; done).
  destruct (root_fs_write_block k file i f ino src n offset bnr) as (k1 & E1 & M1 & C1 & O1 & V1); [done..|].
  pose proof O1 as [Hf1 Hi1 Hdev1 Hdir1 Hino1]. set (f2 := moved f n <| filp_pos := offset |>).
  pose proof (updf_run k1 file _ (fun x => x <| filp_pos := offset |>) Hf1) as E2. set (k2 := k1 <| kfs := _ |>) in E2.
  assert (O2 : open_file k2 file i f2 (grown ino n)).
  { split; [|done|done|done|done].
    change (fd_table (kfs k2)) with (<[Z.to_nat file := f2]> (fd_table (kfs k1))). by apply (aget_insert_same _ _ (moved f n)). }
  assert (Hsz : i_size (grown ino n) = i_size ino + n).
  { change (i_size (grown ino n)) with (u32 (i_size ino + n)). apply u32_id. unfold is_u32. lia. }
  destruct (root_fs_read_block k2 file i f2 (grown ino n) dst n offset bnr) as (k3 & E3 & M3 & _ & C3 & _ & V3); [done|done|by split|done|lia|].
  exists k1, k2, k3. split; [done|]. split; [done|]. split; [done|].
  assert (Hb0 : bnr <> 0) by (unfold is_block in Hb; lia). split; [|split; [done|]].
  - rewrite M3. change (view_of (kfs k2) bnr) with (view_of (kfs k1) bnr). rewrite V1, decide_True by done.
    destruct Hc as (l & Hr & _). pose proof (view_length _ _ _ Hr Hb) as Hvl.
    set (ws := mem_words (kmem k) src n). assert (Hws : alen ws = n) by (unfold ws, alen; rewrite length_mem_words; lia).
    rewrite <- Hws at 1. apply slice_splice; [done|]. rewrite Hws. unfold alen. rewrite Hvl. lia.
  - intros m Hm Hne. rewrite V3 by done. change (view_of (kfs k2) m) with (view_of (kfs k1) m). by rewrite V1, decide_False.
Qed.

(** Three words at offset 1028 of a file whose second block is block 7. *)
Definition io_ino : inode_t := inode_zero <| i_zone := [6; 7; 0; 0; 0; 0; 0; 0] |> <| i_size := 1030 |>.
Definition io_file : filp_t := mkFilp 0 0 1 (Some 0) 1028 ROOTFS_DEV 0 0 0 0 0 0.
Definition io_fs : fsst :=
  mkFs [io_file] [io_ino] [] start_bufs (Some 3) (Some 0) (root_sb sample_fs) (fun _ => 0) DISK_SIZE (buf_at sample_fs).
Definition io_sample : kst := sample_k <| kmem := fun a => a |> <| kfs := io_fs |>.

Lemma file_read_after_write_witness :
  exists k1 k2 k3, root_fs_write 0 100 3 1028 io_sample = Some (3, k1) /\
    updf 0 (fun x => x <| filp_pos := 1028 |>) k1 = Some (tt, k2) /\
    root_fs_read 0 500 3 1028 k2 = Some (3, k3) /\ mem_words (kmem k3) 500 3 = [100; 101; 102].
Proof.
  assert (Hk : kfs io_sample = io_fs) by apply kfs_kfs.
  assert (Hm : kmem io_sample = (fun a => a)) by (unfold io_sample; by rewrite kmem_kfs).
  destruct (file_read_after_write io_sample 0 0 io_file io_ino 100 500 3 1028 7) as (k1 & k2 & k3 & E1 & E2 & E3 & M & _).
  - split; [by rewrite Hk|reflexivity..|by rewrite Hk].
  - exists (seqZ 0 LRU_LEN). rewrite Hk. split; [by apply start_rep|by unfold free_list].
  - split; [lia..|by vm_compute| |reflexivity|by split]. vm_compute; reflexivity.
  - reflexivity.
  - by vm_compute.
  - by vm_compute.
  - exists k1, k2, k3. split; [exact E1|]. split; [exact E2|]. split; [exact E3|]. rewrite M, Hm. reflexivity.
Defined.
