(* ===== verification/Exit.v ===== *)
(** * kernel/system/do_exit_wait.c, kernel/signal.c (delivery), kernel/sched.c (sched)

    The life of a process after its creation: how it ends, how its parent collects
    it, how a pending signal is acted on and which process runs next. *)
From S2P Require Import Prelude Bitmap Mm Linked CString Timer Slab Kernel Proc Ipc Cache Inode Signal Filp Pipe Rootfs.

Definition EXIT : Z := 2.
Definition VFORK : Z := 4.
Definition WAITPID : Z := 10.
Definition WNOHANG : Z := 1.
Definition WUNTRACED : Z := 2.
Definition EXIT_MAGIC : Z := 0x10293847.

Definition in_interrupt : K bool := gets (fun k => negb (irq_count k =? 0)).

(** foreach_child: the processes in use whose parent is [who]. *)
Definition foreach_child {A} (who : Z) (body : Z -> proc -> K (option A)) : K (option A) :=
  foreach proc_numbers (fun n p =>
    w ← getp who;
    if parent p =? proc_nr w then body n p else mret None).

Definition get_wstats (child : proc) : Z :=
  u32 (Z.lor (Z.shiftl (exit_status child) 8) (Z.land (sig_status child) 0x7f)).

(** ** waitpid *)

(** Does [wait(pid)] of [parent] concern [child]? *)
Definition wait_matches (pd : Z) (par child : proc) : bool :=
  negb ((pd >? 0) && negb (pd =? pid child)) &&
  negb ((pd <? -1) && negb (- pd =? procgrp child)) &&
  negb ((pd =? 0) && negb (procgrp child =? procgrp par)).

(** [Some r]: the call returns [r] with the child that is reported released;
    the pid is read after [release_zombie]. *)
Fixpoint wait_loop (ns : list Z) (par m pd options children : Z) : K (option Z * Z) :=
  match ns with
  | [] => mret (None, children)
  | n :: ns' =>
      child ← getp n;
      pp ← getp par;
      if negb (IS_INUSE child && (parent child =? proc_nr pp)) then wait_loop ns' par m pd options children
      else if negb (wait_matches pd pp child) then wait_loop ns' par m pd options children
      else if has (state child) STATE_ZOMBIE || (has options WUNTRACED && has (state child) STATE_STOPPED) then
        _ ← upd_message m (fun x => x <| m1_i2 := get_wstats child |>);
        _ ← release_zombie n;
        child ← getp n;
        mret (Some (pid child), children)
      else wait_loop ns' par m pd options (children + 1)
  end.

Definition do_waitpid (par m : Z) : K Z :=
  msg ← rd_message m;
  let pd := s32 (m1_i1 msg) in
  let options := m1_i2 msg in
  r ← wait_loop proc_numbers par m pd options 0;
  let '(found, children) := (r : option Z * Z) in
  match found with
  | Some p => mret p
  | None =>
      if has options WNOHANG then mret OK
      else if children <=? 0 then mret ECHILD
      else
        _ ← updp par (fun p => p <| wpid := pd |> <| woptions := options |> <| state ::= set_flag STATE_WAITING |>);
        mret SUSPEND
  end.

(** ** exit *)

(** The walk of one sender queue: the node before [who], if [who] is in it. *)
Fixpoint sender_prev (fuel : nat) (ps : gmap Z proc) (prev curr : option Z) (who : Z)
  : option (option Z * bool) :=
  match curr, fuel with
  | None, _ => Some (prev, false)
  | Some _, O => None
  | Some c, S f =>
      if decide (c = who) then Some (prev, true)
      else p ← ps !! c; sender_prev f ps (Some c) (next_sender p) who
  end.

Definition clear_sending_mesg (who : Z) : K unit :=
  _ ← foreach (A := unit) proc_and_task_numbers (fun n rp =>
        k ← getS;
        r ← liftO (sender_prev (S (size (procs k))) (procs k) None (sender_q rp) who);
        let '(prev, found) := (r : option Z * bool) in
        w ← getp who;
        _ ← (if found then
               match prev with
               | None => updp n (fun p => p <| sender_q := next_sender w |>)
               | Some pr => updp pr (fun p => p <| next_sender := next_sender w |>)
               end
             else mret tt);
        mret None);
  mret tt.

Definition check_waiting (who : Z) : K Z :=
  w ← getp who;
  par ← get_proc (parent w);
  match par with
  | None => mret ERR
  | Some pn =>
      p ← getp pn;
      let pd := wpid p in
      if has (state p) STATE_WAITING &&
         (((pd >? 0) && (pd =? pid w)) || ((pd <? -1) && (- pd =? procgrp w)) ||
          ((pd =? 0) && (procgrp p =? procgrp w)) || (pd =? -1)) then
        if has (state w) STATE_STOPPED && negb (has (woptions p) WUNTRACED) then mret ERR
        else
          _ ← upd_message SYS_MSG (fun m => m <| m_type := WAITPID |> <| m1_i2 := get_wstats w |>);
          _ ← updp pn (fun p => p <| state ::= clr_flag STATE_WAITING |> <| wpid := 0 |>);
          _ ← syscall_reply2 WAITPID (pid w) (proc_nr p) SYS_MSG;
          w ← getp who;
          _ ← when (has (state w) STATE_ZOMBIE) (release_zombie who);
          mret OK
      else mret ERR
  end.

(** The members of [em] that are not assigned are 0. *)
Definition exit_proc_in_interrupt (who exit_val signum : Z) : K unit :=
  irq ← in_interrupt;
  if negb irq then mret tt
  else
    w ← getp who;
    vptr ← copyto_user_heap who (msg_words (mkMsg (proc_nr w) EXIT 0 signum 0 0 0 0));
    let ptr := get_physical_addr vptr (rbase w) in
    _ ← updp who (fun p => p <| state ::= set_flag STATE_KILLED |>);
    _ ← do_notify (proc_nr w) SYSTEM ptr;
    mret tt.

Definition krelease_proc_mem (who : Z) : K unit :=
  p ← getp who;
  t ← get_ptable who;
  t' ← on_mm (release_proc_mem (heap_bottom p) (mem_start p) t);
  set_ptable who t'.

(** Close every open file of [who]; the fuel is the number of slots. *)
Fixpoint close_files (fds : list Z) (who : Z) : K unit :=
  match fds with
  | [] => mret tt
  | i :: fds' =>
      file ← get_fp who i;
      _ ← match file with
          | Some f => _ ← filp_close f; set_fp who i None
          | None => mret tt
          end;
      close_files fds' who
  end.

Definition exit_proc (who status signum : Z) : K unit :=
  irq ← in_interrupt;
  if (irq : bool) then exit_proc_in_interrupt who status signum
  else
    w ← getp who;
    par ← get_proc (parent w);
    _ ← zombify who;
    _ ← clear_sending_mesg who;
    _ ← updp who (fun p => p <| exit_status := status |> <| sig_status := signum |>);
    pn ← liftO par;
    p ← getp pn;
    _ ← (if has (state p) STATE_VFORKING then
           _ ← updp pn (fun p => p <| state ::= clr_flag STATE_VFORKING |>);
           _ ← upd_message SYS_MSG (fun m => m <| m_type := VFORK |>);
           _ ← syscall_reply2 VFORK (pid w) (proc_nr p) SYS_MSG;
           mret tt
         else krelease_proc_mem who);
    _ ← foreach_child (A := unit) who (fun n _ => _ ← updp n (fun p => p <| parent := INIT |>); mret None);
    _ ← close_files (seqZ 0 OPEN_MAX) who;
    w ← getp who;
    _ ← on_fs (put_inode (fp_workdir w) false);
    _ ← on_fs (put_inode (fp_rootdir w) false);
    _ ← check_waiting who;
    _ ← send_sig pn SIGCHLD;
    mret tt.

Definition do_exit (who m : Z) : K Z :=
  msg ← rd_message m;
  w ← getp who;
  let status := if s32 (m1_i1 msg) =? EXIT_MAGIC then default 0 (regs w !! 0%nat) else m1_i1 msg in
  _ ← exit_proc who status (m1_i2 msg);
  mret SUSPEND.

(** ** Delivery of signals *)
Definition sys_sig_handler (who signum : Z) : K Z :=
  w ← getp who;
  act ← get_sa w signum;
  if sa_handler act =? SIG_DFL then
    _ ← (if signum =? SIGCONT then
           when (has (state w) STATE_STOPPED)
             (_ ← updp who (fun p => p <| state ::= clr_flag STATE_STOPPED |>); enqueue_schedule who)
         else if (signum =? SIGTSTP) || (signum =? SIGSTOP) then
           _ ← updp who (fun p => p <| state ::= set_flag STATE_STOPPED |> <| sig_status := signum |>);
           _ ← dequeue_schedule who;
           _ ← check_waiting who;
           mret tt
         else exit_proc who 0 signum);
    mret OK
  else if sa_handler act =? SIG_IGN then
    _ ← (if signum =? SIGABRT then exit_proc who 0 signum
         else if signum =? SIGCHLD then
           _ ← foreach_child who (fun n mp =>
                 if has (state mp) STATE_ZOMBIE then _ ← release_zombie n; mret (Some tt) else mret None);
           mret tt
         else mret tt);
    mret OK
  else mret ERR.

(** SA_NODEFER blocks the signal, and without it the signal is unblocked. *)
Definition handle_sig (who signum : Z) : K Z :=
  _ ← updp who (fun p => p <| sig_pending ::= (fun s => snd (sigdelset s signum)) |>);
  r ← sys_sig_handler who signum;
  if r =? OK then mret OK
  else
    w ← getp who;
    act ← get_sa w signum;
    _ ← upd_sa who signum (fun a =>
          a <| sa_mask ::= (fun s => snd (if has (sa_flags a) SA_NODEFER then sigaddset s signum else sigdelset s signum)) |>);
    _ ← build_signal_ctx who signum;
    _ ← when (has (sa_flags act) SA_RESETHAND) (upd_sa who signum (fun a => a <| sa_handler := SIG_DFL |>));
    mret OK.

Definition handle_pendingsig (who : Z) : K Z :=
  w ← getp who;
  let signum := is_sigpending w in
  _ ← (if negb (signum =? 0) then
         _ ← handle_sig who signum;
         w ← getp who;
         when (state w =? STATE_RUNNABLE) (enqueue_schedule who)
       else mret tt);
  mret signum.

(** ** The scheduler *)

(** The loop of [sched]: dequeue until a process stays runnable. *)
Fixpoint sched_loop (fuel : nat) : K unit :=
  match fuel with
  | O => crash
  | S f =>
      mp ← pick_proc;
      _ ← modifyS (fun k => k <| current_proc := mp |>);
      c ← liftO mp;
      p ← getp c;
      let signum := is_sigpending p in
      _ ← (if negb (signum =? 0) then _ ← handle_sig c signum; mret tt else mret tt);
      p ← getp c;
      if state p =? 0 then mret tt else sched_loop f
  end.

(** The signals of the processes bound the number of rounds. *)
Definition SCHED_FUEL : nat := 400%nat.

(** [wramp_load_context] then runs [current_proc]. *)
Definition sched : K unit :=
  _ ← modifyS (fun k => k <| irq_count := 0 |>);
  k ← getS;
  _ ← match current_proc k with
      | Some c =>
          p ← getp c;
          if negb (state p =? 0) then mret tt
          else if ticks_left p >? 0 then enqueue_head (priority p) c
          else
            _ ← when (IS_USER_PROC p && (priority p <? MIN_PRIORITY)) (updp c (fun p => p <| priority ::= Z.succ |>));
            p ← getp c;
            enqueue_tail (priority p) c
      | None => mret tt
      end;
  _ ← sched_loop SCHED_FUEL;
  k ← getS;
  c ← liftO (current_proc k);
  p ← getp c;
  when (ticks_left p <=? 0) (updp c (fun p => p <| ticks_left := quantum p |>)).
