(* ===== verification/Wait.v ===== *)
(** * waitpid, and the end of a child its parent waits for

    [do_waitpid] and [check_waiting] of kernel/system/do_exit_wait.c: what a parent
    is told, and when. *)
From S2P Require Import Prelude Bitmap Mm Linked CString Timer Slab Kernel Proc Ipc Reply Cache Inode Signal Filp Pipe Rootfs Exit.

(** ** What waitpid reports *)













(** ** A child ends while its parent waits *)




