(* ===== verification/Syscalls.v ===== *)
(** * kernel/system: signals, time, fork and the heap

    A handler gets the number of the calling process and the address of its message;
    user memory is read and written through the caller's rbase. *)
From Stdlib Require Import Ascii String.
From S2P Require Import Prelude Bitmap Mm Linked CString Timer Slab Kernel Proc Ipc Cache Coherence Inode Signal Filp Pipe Rootfs Exit Stdio.

Definition FORK : Z := 3.
Definition SIGINT : Z := 2.
Definition SIG_BLOCK : Z := 0.
Definition SIG_UNBLOCK : Z := 1.
Definition SIG_SETMASK : Z := 2.

(** The C strings and words of a structure, read from memory.  The fuel is the
    number of words of the machine: a longer string leaves memory. *)
Definition MEM_WORDS : nat := Z.to_nat 131072.

Fixpoint read_str (n : nat) (m : memory) (a : Z) : option (list Z) :=
  match n with
  | O => None
  | S n' => if m a =? 0 then Some [] else l ← read_str n' m (a + 1); Some (m a :: l)
  end.

Definition kstring (a : Z) : K (list Z) := fun k => liftO (read_str MEM_WORDS (kmem k) a) k.

Definition phys (who va : Z) : K Z := p ← getp who; mret (get_physical_addr va (rbase p)).

(** ** do_kill.c *)

(** With [pid == 0] the processes of the caller's own group are skipped. *)
Definition kill_skips (who : Z) (pd : Z) (to w : proc) : bool :=
  ((pd <? -1) && negb (- pd =? procgrp to)) || ((pd =? 0) && (procgrp to =? procgrp w)) ||
  ((pd >? 0) && negb (pd =? pid to)) || ((pd =? -1) && (pid to =? 1)).

Fixpoint kill_loop (ns : list Z) (who pd signum valid_targets : Z) : K (option Z * Z) :=
  match ns with
  | [] => mret (None, valid_targets)
  | n :: ns' =>
      to ← getp n;
      w ← getp who;
      if negb (IS_INUSE to) || kill_skips who pd to w then kill_loop ns' who pd signum valid_targets
      else if signum =? 0 then mret (Some OK, valid_targets)
      else
        _ ← send_sig n signum;
        to ← getp n;
        _ ← (if negb (n =? who) && negb (state to =? 0) then _ ← handle_pendingsig n; mret tt else mret tt);
        kill_loop ns' who pd signum (valid_targets + 1)
  end.

Definition sys_kill (who pd signum : Z) : K Z :=
  if (signum <? 0) || (signum >=? _NSIG) then mret EINVAL
  else if (pd =? 1) && ((signum =? SIGSTOP) || (signum =? SIGKILL)) then mret EINVAL
  else
    r ← kill_loop proc_numbers who pd signum 0;
    match r with
    | (Some v, _) => mret v
    | (None, valid_targets) => mret (if valid_targets =? 0 then ESRCH else OK)
    end.

Definition do_kill (who m : Z) : K Z :=
  msg ← rd_message m; sys_kill who (s32 (m1_i1 msg)) (s32 (m1_i2 msg)).

(** ** do_sigaction.c *)
Definition sa_words (a : sigaction) : list Z := [sa_handler a; sa_mask a; sa_flags a].
Definition rd_sa (mem : memory) (a : Z) : sigaction := mkSa (mem a) (mem (a + 1)) (mem (a + 2)).

(** [act] with the masks of SIGKILL and SIGSTOP taken out, and the old action. *)
Definition sys_sigaction (who signum : Z) (act : sigaction) (restorer : Z) : K (Z * sigaction * sigaction) :=
  p ← getp who;
  if (signum <? 1) || (signum >=? _NSIG) then mret (EINVAL, act, act)
  else if (signum =? SIGKILL) || (signum =? SIGSTOP) then mret (EINVAL, act, act)
  else if (sa_handler act =? SIG_IGN) && (signum =? SIGSEGV) then mret (EINVAL, act, act)
  else
    _ ← when (sa_handler act =? SIG_IGN)
          (updp who (fun p => p <| sig_pending ::= (fun s => snd (sigdelset s signum)) |>));
    old ← get_sa p signum;
    let act' := act <| sa_mask ::= (fun s => snd (sigdelset (snd (sigdelset s SIGKILL)) SIGSTOP)) |> in
    _ ← upd_sa who signum (fun _ => act');
    _ ← updp who (fun p => p <| sa_restorer := restorer |>);
    mret (OK, act', old).

(** The user's own structure is changed too: [act] points to it. *)
Definition do_sigaction (who m : Z) : K Z :=
  msg ← rd_message m;
  let act := m1_p1 msg in
  let oact := m1_p2 msg in
  ok1 ← vaddr_ok who act;
  if negb ok1 then mret EFAULT
  else
    ok2 ← (if oact =? 0 then mret true else vaddr_ok who oact);
    if negb (ok2 : bool) then mret EFAULT
    else
      ok3 ← vaddr_ok who (m1_p3 msg);
      if negb ok3 then mret EFAULT
      else
        act ← phys who act;
        mem ← get_mem;
        r ← sys_sigaction who (s32 (m1_i1 msg)) (rd_sa mem act) (m1_p3 msg);
        let '(ret, new, old) := (r : Z * sigaction * sigaction) in
        if negb (ret =? OK) then mret ret
        else
          oact' ← phys who oact;
          _ ← (if oact =? 0 then mret tt
               else modifyS (fun k => k <| kmem ::= (fun mm => wr_words mm oact' (sa_words old)) |>));
          (* act may be oact: the mask is then read after the copy *)
          mem ← get_mem;
          let act_now := rd_sa mem act in
          let final := act_now <| sa_mask ::= (fun s => snd (sigdelset (snd (sigdelset s SIGKILL)) SIGSTOP)) |> in
          _ ← modifyS (fun k => k <| kmem ::= (fun mm => wr_words mm act (sa_words final)) |>);
          _ ← upd_sa who (s32 (m1_i1 msg)) (fun _ => final);
          mret OK.

Definition do_signal (who m : Z) : K Z :=
  msg ← rd_message m;
  r ← sys_sigaction who (s32 (m1_i1 msg)) (mkSa (m1_i2 msg) 0xffff SA_RESETHAND) (m1_p1 msg);
  let '(ret, _, old) := (r : Z * sigaction * sigaction) in
  mret (if negb (ret =? 0) then SIG_ERR else s32 (sa_handler old)).

(** ** do_sigpending.c, do_sigprocmask.c, do_sigreturn.c, do_sigsuspend.c *)
Definition do_sigpending (who m : Z) : K Z :=
  msg ← rd_message m;
  ok ← vaddr_ok who (m1_p1 msg);
  if negb ok then mret EACCES
  else
    a ← phys who (m1_p1 msg);
    p ← getp who;
    _ ← wr a (sig_pending p);
    mret OK.

(** for (i = 1; i < _NSIG; i++) if (sigismember(pset, i)) f(pblocked, i) *)
Definition mask_loop (f : Z -> Z -> Z * Z) (set blocked : Z) : Z :=
  foldl (fun b i => if sigismember set i =? 0 then b else snd (f b i)) blocked (seqZ 1 (_NSIG - 1)).

Definition do_sigprocmask (who m : Z) : K Z :=
  msg ← rd_message m;
  let how := s32 (m1_i1 msg) in
  ok ← vaddr_ok who (m1_p1 msg);
  if negb ok then mret EACCES
  else
    oldact ← phys who (m1_p1 msg);
    p ← getp who;
    _ ← wr oldact (sig_mask p);
    msg ← rd_message m;
    let set := snd (sigdelset (snd (sigdelset (m1_i2 msg) SIGKILL)) SIGSTOP) in
    if how =? SIG_SETMASK then _ ← updp who (fun p => p <| sig_mask := set |>); mret OK
    else if how =? SIG_BLOCK then
      _ ← updp who (fun p => p <| sig_mask ::= mask_loop sigaddset set |>); mret OK
    else if how =? SIG_UNBLOCK then
      _ ← updp who (fun p => p <| sig_mask ::= mask_loop sigdelset set |>); mret OK
    else mret EINVAL.

Definition do_sigreturn (who m : Z) : K Z :=
  msg ← rd_message m;
  p ← getp who;
  let sp' := u32 (get_physical_addr (sp p) (rbase p) + SYSCALL_FRAME_LEN) in
  mem ← get_mem;
  _ ← updp who (set_proc_ctx (mem_words mem sp' SIGNAL_CTX_LEN));
  _ ← updp who (fun p => p <| sig_mask := sig_mask2 p |>);
  _ ← (if s32 (m1_i1 msg) =? SIGABRT then
         _ ← upd_sa who SIGABRT (fun a => a <| sa_handler := SIG_DFL |>);
         _ ← send_sig who SIGABRT;
         mret tt
       else
         p ← getp who;
         when (state p =? STATE_RUNNABLE) (enqueue_schedule who));
  p ← getp who;
  if has (state p) STATE_RECEIVING then
    _ ← updp who (fun p => p <| state := STATE_RECEIVING |>);
    mret EINTR
  else mret DONTREPLY.

Definition do_sigsuspend (who m : Z) : K Z :=
  msg ← rd_message m;
  let mask := snd (sigdelset (snd (sigdelset (m1_i1 msg) SIGKILL)) SIGSTOP) in
  _ ← updp who (fun p => p <| sig_mask2 := sig_mask p |> <| sig_mask := mask |>);
  p ← getp who;
  if negb (is_sigpending p =? 0) then mret EINTR
  else _ ← updp who (fun p => p <| state ::= set_flag STATE_PAUSING |>); mret SUSPEND.

(** ** do_alarm.c, do_csleep.c, kernel/clock.c *)
Definition get_hz : Z := 60.
Definition CSLEEP : Z := 47.

Definition deliver_alarm (pnr time : Z) : K unit :=
  w ← get_proc pnr;
  match w with
  | Some who => _ ← send_sig who SIGALRM; mret tt
  | None => mret tt
  end.

(** The result is the previous [time_out], an absolute time. *)
Definition do_alarm (who m : Z) : K Z :=
  msg ← rd_message m;
  if s32 (m1_i1 msg) <? 0 then mret EINVAL
  else
    let seconds := u32 (m1_i1 msg) in
    t ← on_timers (get_timer who);
    let prev_timeout := time_out t in
    _ ← when (timer_inuse t) (on_timers (remove_timer who));
    p ← getp who;
    _ ← (if seconds >? 0 then
           _ ← on_timers (new_timer (proc_nr p) who (u32 (seconds * get_hz)) H_deliver_alarm); mret tt
         else mret tt);
    mret (s32 prev_timeout).

Definition wakeup_process (pnr time : Z) : K unit :=
  w ← get_proc pnr;
  match w with
  | Some p =>
      x ← getp p;
      if has (state x) STATE_ZOMBIE then mret tt
      else _ ← syscall_reply2 CSLEEP 0 pnr CSLEEP_MSG; mret tt
  | None => mret tt
  end.

(** The result of [new_timer] is not checked. *)
Definition do_csleep (who m : Z) : K Z :=
  msg ← rd_message m;
  let ticks := u32 (m1_i1 msg) in
  t ← on_timers (get_timer who);
  if timer_inuse t then mret EINVAL
  else
    p ← getp who;
    _ ← on_timers (new_timer (proc_nr p) who ticks H_wakeup_process);
    mret SUSPEND.

Definition run_handler (h : timerhandler_t) (pnr time : Z) : K unit :=
  match h with
  | H_NULL => crash
  | H_rebalance_queues => rebalance_queues pnr time
  | H_deliver_alarm => deliver_alarm pnr time
  | H_wakeup_process => wakeup_process pnr time
  end.

(** Every round takes out a timer and only rebalance_queues puts one in, in the
    future: the fuel exceeds the number of timers. *)
Fixpoint ticks_loop (fuel : nat) : K unit :=
  match fuel with
  | O => crash
  | S f =>
      k ← getS;
      if next_timeout (ktm k) <=? system_uptime (ktm k) then
        id ← on_timers dequeue_alarm;
        t ← on_timers (get_timer id);
        _ ← run_handler (t_handler t) (t_proc_nr t) (time_out t);
        ticks_loop f
      else mret tt
  end.

Definition do_ticks : K unit := k ← getS; ticks_loop (S (S (size (timers (ktm k))))).

Definition clock_handler : K unit :=
  _ ← modifyS (fun k => k <| ktm ::= (fun t => t <| system_uptime ::= (fun u => u32 (u + 1)) |>) |>);
  k ← getS;
  c ← liftO (current_proc k);
  _ ← updp c (fun p => p <| time_used ::= (fun x => u32 (x + 1)) |> <| ticks_left ::= Z.pred |>);
  p ← getp c;
  _ ← when (has (flags p) BILLABLE)
        (b ← liftO (bill_ptr k); updp b (fun p => p <| sys_time_used ::= (fun x => u32 (x + 1)) |>));
  _ ← do_ticks;
  sched.

(** ** do_fork.c, do_vfork.c *)
Fixpoint incr_filps (l : list (option Z)) : K unit :=
  match l with
  | [] => mret tt
  | Some f :: l' => _ ← updf f (fun x => x <| filp_count ::= Z.succ |>); incr_filps l'
  | None :: l' => incr_filps l'
  end.

(** The alarm of the parent is copied with the rest. *)
Definition copy_pcb (par child : Z) : K Z :=
  p ← getp par;
  c ← getp child;
  _ ← updp child (fun _ =>
        p <| proc_nr := proc_nr c |> <| pid := pid c |> <| sig_pending := 0 |> <| ctx_ptable := child |>
          <| nq_next := Some child |> <| nq_prev := Some child |>);
  _ ← on_timers (copy_timer par child);
  c ← getp child;
  _ ← incr_filps (fp_filp c);
  mret OK.

(** copy_page until [src] reaches the heap bottom; [n] bounds the rounds. *)
Fixpoint copy_pages (n : nat) (src dest bottom : Z) : K unit :=
  match n with
  | O => crash
  | S n' =>
      if src <? bottom then
        _ ← kmemcpy dest src PAGE_LEN;
        copy_pages n' (u32 (src + PAGE_LEN)) (u32 (dest + PAGE_LEN)) bottom
      else mret tt
  end.

Definition copy_mm (par child : Z) : K Z :=
  p ← getp par;
  t ← get_ptable child;
  r ← liftO (bitmap_clear t PTABLE_LEN);
  _ ← set_ptable child (snd (r : Z * list Z));
  start ← with_ptable child (dup_vm (heap_bottom p) (mem_start p));
  _ ← updp child (fun c => c <| mem_start := start |>);
  if start =? 0 then mret ERR
  else
    _ ← updp child (fun c => c <| rbase := u32 (mem_start c - rbase_offset c) |> <| stack_top := mem_start c |>);
    _ ← copy_pages (S (Z.to_nat ((heap_bottom p - mem_start p) / PAGE_LEN + 1))) (mem_start p) start (heap_bottom p);
    mret OK.

Definition copy_pregs (par child : Z) : K Z :=
  p ← getp par;
  c ← getp child;
  let sp' := get_physical_addr (sp p) (rbase p) in
  pm ← rd (u32 (sp' + 2));
  let move a := get_physical_addr (get_virtual_addr a (rbase p)) (rbase c) in
  _ ← updp child (fun c => c <| message_ptr := get_physical_addr pm (rbase c) |>
                             <| heap_break := move (heap_break p) |> <| heap_bottom := move (heap_bottom p) |>);
  mret OK.

(** release_proc_slot is release_zombie. *)
Definition sys_fork (par : Z) : K Z :=
  slot ← get_free_proc_slot;
  match slot with
  | None => mret EAGAIN
  | Some child =>
      _ ← copy_pcb par child;
      e ← copy_mm par child;
      if negb (e =? 0) then _ ← release_zombie child; mret ENOMEM
      else
        _ ← copy_pregs par child;
        p ← getp par;
        _ ← updp child (fun c => c <| time_used := 0 |> <| sys_time_used := 0 |> <| parent := proc_nr p |>);
        c ← getp child;
        mret (proc_nr c)
  end.

Definition do_fork (who m : Z) : K Z :=
  child_pr ← sys_fork who;
  if child_pr <? 0 then mret child_pr
  else
    _ ← syscall_reply2 FORK 0 child_pr m;
    c ← get_proc child_pr;
    c ← liftO c;
    x ← getp c;
    mret (pid x).

Definition do_vfork (par m : Z) : K Z :=
  slot ← get_free_proc_slot;
  match slot with
  | None => mret EAGAIN
  | Some child =>
      _ ← copy_pcb par child;
      p ← getp par;
      _ ← updp child (fun c => c <| time_used := 0 |> <| sys_time_used := 0 |> <| parent := proc_nr p |>);
      c ← getp child;
      _ ← syscall_reply2 VFORK 0 (proc_nr c) m;
      _ ← updp par (fun p => p <| state ::= set_flag STATE_VFORKING |>);
      mret SUSPEND
  end.

(** ** do_brk.c: 0 is NULL *)
Definition sys_sbrk (who size : Z) : K Z :=
  p ← getp who;
  let ret_result := p ← getp who; mret (heap_break p) in
  if size =? 0 then ret_result
  else if size <? 0 then
    if u32 (heap_break p + size) >=? heap_top p then
      _ ← updp who (fun p => p <| heap_break ::= (fun b => u32 (b + size)) |>);
      ret_result
    else mret 0
  else
    let residual := s32 (heap_bottom p - heap_break p) in
    if residual >=? size then
      _ ← updp who (fun p => p <| heap_break ::= (fun b => u32 (b + size)) |>);
      ret_result
    else
      let next_page := u32 (heap_bottom p + 1) in
      let request_size := s32 (size - residual) in
      err ← with_ptable who (fun t => user_get_free_pages_from t next_page request_size);
      if negb (err =? 0) then mret 0
      else
        _ ← updp who (fun p => p <| heap_break ::= (fun b => u32 (b + size)) |>
                                 <| heap_bottom ::= (fun b => u32 (b + align_page request_size)) |>);
        ret_result.

Definition do_sbrk (who m : Z) : K Z :=
  msg ← rd_message m;
  ret ← sys_sbrk who (s32 (m1_i1 msg));
  p ← getp who;
  mret (s32 (get_virtual_addr ret (rbase p))).

Definition do_brk (who m : Z) : K Z :=
  msg ← rd_message m;
  p ← getp who;
  let vaddr := m1_p1 msg in
  let addr := get_physical_addr vaddr (rbase p) in
  _ ← upd_message m (fun x => x <| m1_p1 := get_virtual_addr (heap_break p) (rbase p) |>);
  if addr <? heap_break p then
    if addr <? heap_top p then mret EINVAL
    else
      _ ← updp who (fun p => p <| heap_break := addr |>);
      _ ← upd_message m (fun x => x <| m1_p1 := vaddr |>);
      mret OK
  else
    new_brk ← sys_sbrk who (s32 (s32 addr - s32 (heap_break p)));
    if new_brk =? 0 then mret ENOMEM
    else
      _ ← upd_message m (fun x => x <| m1_p1 := get_virtual_addr new_brk (rbase p) |>);
      mret OK.

Lemma with_ptable_break who f k e k' p :
  procs k !! who = Some p -> with_ptable who f k = Some (e, k') -> exists p', procs k' !! who = Some p' /\ heap_break p' = heap_break p.
Proof.
  intros Hp. unfold with_ptable, get_ptable, set_ptable. intros E.
  apply bind_Some in E as (t & k1 & E1 & E). rewrite (bind_run _ _ _ _ _ (getp_run _ _ _ Hp)) in E1.
  apply bind_Some in E1 as (o & k2 & E2 & E1). unfold getp, liftO in E2. destruct (procs k !! ctx_ptable p) as [x|] eqn:Eo; [|done].
  injection E2 as -> <-. injection E1 as _ <-. apply bind_Some in E as ([r t'] & k3 & E3 & E).
  assert (Hk3 : procs k3 = procs k) by (unfold on_mm, zoom in E3; destruct (f t _) as [[? ?]|]; [by injection E3 as _ <-|done]).
  apply bind_Some in E as ([] & k4 & E4 & [= _ <-]). rewrite <- Hk3 in Hp, Eo. rewrite (bind_run _ _ _ _ _ (getp_run _ _ _ Hp)) in E4.
  rewrite (updp_run _ _ _ _ Eo) in E4. injection E4 as <-. destruct (decide (ctx_ptable p = who)) as [Hw|Hw].
  - rewrite Hw in Eo |- *. rewrite Hp in Eo. injection Eo as <-. eexists. split; [apply lookup_insert_eq|done].
  - exists p. split; [|done]. etransitivity; [by apply lookup_insert_ne|done].
Qed.

(** What the user's malloc ([UHeap]) relies on: the break moves by the size that was asked
    for, and the result is the new break, or the break stays and the result is NULL. *)
Lemma sys_sbrk_moves who size k p r k' :
  procs k !! who = Some p -> is_u32 (heap_break p) -> sys_sbrk who size k = Some (r, k') ->
  exists p', procs k' !! who = Some p' /\
    ((r = heap_break p' /\ heap_break p' = u32 (heap_break p + size)) \/ (r = 0 /\ heap_break p' = heap_break p)).
Proof.
  intros Hp Hb. unfold sys_sbrk. rewrite (bind_run _ _ _ _ _ (getp_run _ _ _ Hp)). cbv zeta.
  assert (Hret : forall k0 p0, procs k0 !! who = Some p0 -> (p ← getp who; mret (heap_break p)) k0 = Some (heap_break p0, k0))
    by (intros k0 p0 H0; by rewrite (bind_run _ _ _ _ _ (getp_run _ _ _ H0))).
  assert (Hmove : forall k0 p0 f, procs k0 !! who = Some p0 -> heap_break (f p0) = u32 (heap_break p + size) ->
    (_ ← updp who f; p ← getp who; mret (heap_break p)) k0 = Some (r, k') ->
    exists p', procs k' !! who = Some p' /\
      ((r = heap_break p' /\ heap_break p' = u32 (heap_break p + size)) \/ (r = 0 /\ heap_break p' = heap_break p))).
  { intros k0 p0 f H0 Hf. rewrite (bind_run _ _ _ _ _ (updp_run _ _ _ _ H0)).
    rewrite (Hret _ (f p0)) by apply lookup_insert_eq. intros [= <- <-]. exists (f p0). split; [apply lookup_insert_eq|by left]. }
  destruct (Z.eqb_spec size 0) as [->|Hne].
  { rewrite (Hret _ _ Hp). intros [= <- <-]. exists p. split; [done|]. left. split; [done|]. by rewrite Z.add_0_r, u32_id. }
  destruct (size <? 0).
  { destruct (_ >=? _); [by apply Hmove with (p0 := p)|]. intros [= <- <-]. exists p. split; [done|by right]. }
  destruct (_ >=? size); [by apply Hmove with (p0 := p)|]. intros H. apply bind_Some in H as (err & k1 & E & H).
  destruct (with_ptable_break _ _ _ _ _ _ Hp E) as (p1 & Hp1 & Hb1). destruct (negb (err =? 0)).
  { injection H as <- <-. exists p1. split; [done|by right]. }
  apply (Hmove k1 p1 _ Hp1) in H; [exact H|]. change (u32 (heap_break p1 + size) = u32 (heap_break p + size)). by rewrite Hb1.
Qed.

(** ** The small calls *)
Definition do_getpgid (who m : Z) : K Z :=
  msg ← rd_message m;
  let pd := s32 (m1_i1 msg) in
  if pd <? 0 then mret EINVAL
  else
    w ← getp who;
    to ← get_proc_by_pid (if pd =? 0 then pid w else pd);
    match to with
    | None => mret ESRCH
    | Some t => x ← getp t; mret (procgrp x)
    end.

Definition do_setpgid (who m : Z) : K Z :=
  msg ← rd_message m;
  let pd := s32 (m1_i1 msg) in
  let pgid := s32 (m1_i2 msg) in
  if (pd <? 0) || (pgid <? 0) then mret EINVAL
  else
    mp ← (if pd =? 0 then mret (Some who) else get_proc_by_pid pd);
    match (mp : option Z) with
    | None => mret ESRCH
    | Some n =>
        _ ← updp n (fun p => p <| procgrp := if pgid =? 0 then pid p else pgid |>);
        mret OK
    end.

Definition do_setsid (who m : Z) : K Z :=
  p ← getp who;
  _ ← updp who (fun p => p <| session_id := pid p |> <| procgrp := pid p |>);
  mret (pid p).

Definition do_getpid (who m : Z) : K Z :=
  p ← getp who;
  _ ← upd_message m (fun x => x <| m1_i2 := parent p |>);
  mret (pid p).

Definition do_getppid (who m : Z) : K Z := p ← getp who; mret (parent p).

Definition do_times (who m : Z) : K Z :=
  msg ← rd_message m;
  ok ← vaddr_ok who (m1_p1 msg);
  if negb ok then mret EACCES
  else
    buf ← phys who (m1_p1 msg);
    p ← getp who;
    _ ← modifyS (fun k => k <| kmem ::= (fun mm => wr_words mm buf [time_used p; sys_time_used p; 0; 0]) |>);
    k ← getS;
    mret (s32 (system_uptime (ktm k))).

Definition do_sysconf (who m : Z) : K Z :=
  msg ← rd_message m;
  mret (if s32 (m1_i1 msg) =? 3 then get_hz else EINVAL).

(** The characters of a string of the kernel. *)
Definition chars (s : string) : list Z :=
  map (fun c => Z.of_N (N_of_ascii c)) (list_ascii_of_string s).

Definition do_winix_strerror (who m : Z) : K Z :=
  msg ← rd_message m;
  ok ← vaddr_ok who (m1_p1 msg);
  if negb ok then mret EACCES
  else
    let len := s32 (m1_i1 msg) in
    let usr_errno := s32 (m1_i2 msg) in
    if (usr_errno <=? 0) || (usr_errno >=? _NERROR) then mret EINVAL
    else
      dst ← phys who (m1_p1 msg);
      s ← liftO (kstr_error usr_errno);
      s ← liftO s;
      _ ← modifyS (fun k => k <| kmem ::= (fun mm => tty_strncpy mm dst (chars s) (u32 len)) |>);
      mret 0.

(** ** Lemmas *)
Lemma mask_loop_bits (f : Z -> Z -> Z * Z) (g : bool -> bool -> bool) set l : forall b,
  (forall s n i, 0 <= n <= 21 -> 0 <= i -> Z.testbit (snd (f s n)) i = g (Z.testbit s i) (bool_decide (i = n))) ->
  (forall x, g x false = x) -> (forall x, g (g x true) true = g x true) ->
  Forall (fun n => 0 <= n <= 21) l ->
  forall i, 0 <= i ->
  Z.testbit (foldl (fun b n => if sigismember set n =? 0 then b else snd (f b n)) b l) i
  = g (Z.testbit b i) (bool_decide (i ∈ l) && Z.testbit set i).
Proof.
  intros b Hf Hg0 Hgg Hl. revert b. induction Hl as [|n l Hn Hl IH]; intros b i Hi; cbn [foldl].
  { by rewrite bool_decide_eq_false_2, Hg0 by set_solver. }
  rewrite IH by done. rewrite <- (negb_involutive (sigismember set n =? 0)), sigismember_bit by done.
  assert (E : bool_decide (i ∈ n :: l) = bool_decide (i = n) || bool_decide (i ∈ l)).
  { rewrite <- bool_decide_or. apply bool_decide_ext. set_solver. }
  rewrite E. destruct (decide (i = n)) as [->|Hne].
  - rewrite (bool_decide_eq_true_2 (n = n)) by done. destruct (Z.testbit set n) eqn:Es; cbn [negb].
    + rewrite Hf, (bool_decide_eq_true_2 (n = n)), !andb_true_r by done. cbn [orb].
      destruct (bool_decide (n ∈ l)); [by rewrite Hgg|by rewrite Hg0].
    + by rewrite !andb_false_r.
  - rewrite (bool_decide_eq_false_2 (i = n)) by done. cbn [orb]. destruct (Z.testbit set n); cbn [negb]; [|done].
    by rewrite Hf, (bool_decide_eq_false_2 (i = n)), Hg0 by done.
Qed.

Definition settable (set i : Z) : bool := Z.testbit set i && negb (bool_decide (i = SIGKILL)) && negb (bool_decide (i = SIGSTOP)).
Definition is_signo (i : Z) : bool := bool_decide (1 <= i < _NSIG).

(** The new mask, bit by bit. *)
Definition new_mask (how set old i : Z) : bool :=
  if how =? SIG_SETMASK then settable set i
  else if how =? SIG_BLOCK then Z.testbit old i || (is_signo i && settable set i)
  else if how =? SIG_UNBLOCK then Z.testbit old i && negb (is_signo i && settable set i)
  else Z.testbit old i.

Lemma sigpair_bits set i :
  0 <= i -> Z.testbit (snd (sigdelset (snd (sigdelset set SIGKILL)) SIGSTOP)) i = settable set i.
Proof. intros. by rewrite !sigdelset_bit by (unfold SIGKILL, SIGSTOP; lia). Qed.

Lemma signos i : bool_decide (i ∈ seqZ 1 (_NSIG - 1)) = is_signo i.
Proof. apply bool_decide_ext. rewrite elem_of_seqZ. unfold _NSIG. lia. Qed.

Lemma signos_range : Forall (fun n => 0 <= n <= 21) (seqZ 1 (_NSIG - 1)).
Proof. apply list.Forall_forall. intros n Hn%elem_of_seqZ. unfold _NSIG in *. lia. Qed.

Lemma mask_block_bits set old i :
  0 <= i -> Z.testbit (mask_loop sigaddset set old) i = Z.testbit old i || (is_signo i && Z.testbit set i).
Proof.
  intros. rewrite <- signos. apply (mask_loop_bits sigaddset orb); [apply sigaddset_bit|by intros []|by intros []|apply signos_range|done].
Qed.

Lemma mask_unblock_bits set old i :
  0 <= i -> Z.testbit (mask_loop sigdelset set old) i = Z.testbit old i && negb (is_signo i && Z.testbit set i).
Proof.
  intros. rewrite <- signos. apply (mask_loop_bits sigdelset (fun x y => x && negb y));
    [apply sigdelset_bit|by intros []|by intros []|apply signos_range|done].
Qed.

(** [do_sigprocmask] stores the old mask for the caller and changes the mask
    the way [how] says, but never for SIGKILL and SIGSTOP; another [how] is EINVAL
    and leaves the mask alone. *)
Theorem do_sigprocmask_mask k who m p :
  procs k !! who = Some p ->
  let msg := rd_msg (kmem k) m in
  let old_va := m1_p1 msg in
  let a := get_physical_addr old_va (rbase p) in
  let how := s32 (m1_i1 msg) in
  vaddr_ok who old_va k = Some (true, k) -> ~ (m <= a < m + MESSAGE_LEN) ->
  exists k' p', do_sigprocmask who m k = Some (if (0 <=? how) && (how <=? 2) then OK else EINVAL, k') /\
    kmem k' a = sig_mask p /\ procs k' !! who = Some p' /\
    forall i, 0 <= i -> Z.testbit (sig_mask p') i = new_mask how (m1_i2 msg) (sig_mask p) i.
Proof.
  intros Hp msg old_va a how Hok Ha.
  set (k1 := k <| kmem ::= fun mm => mset mm a (sig_mask p) |>).
  assert (Hm : m1_i2 (rd_msg (kmem k1) m) = m1_i2 msg).
  { unfold k1, rd_msg. gsimpl. unfold mset. destruct (Z.eqb_spec (m + 3) a); [unfold MESSAGE_LEN in Ha; lia|done]. }
  assert (Hread : kmem k1 a = sig_mask p) by (unfold k1; gsimpl; unfold mset; by rewrite Z.eqb_refl).
  unfold do_sigprocmask. rewrite (bind_run _ _ k msg k) by done. fold old_va how. rewrite (bind_run _ _ _ _ _ Hok). cbn [negb].
  rewrite (bind_run _ _ k a k) by (unfold phys; by rewrite (bind_run _ _ _ _ _ (getp_run _ _ _ Hp))).
  rewrite (bind_run _ _ _ _ _ (getp_run _ _ _ Hp)), (bind_run _ _ k tt k1) by done.
  rewrite (bind_run _ _ k1 (rd_msg (kmem k1) m) k1) by done. rewrite Hm.
  unfold new_mask, SIG_SETMASK, SIG_BLOCK, SIG_UNBLOCK. destruct (Z.eqb_spec how 2) as [->|H2].
  { eexists _, _. rewrite (bind_run _ _ _ _ _ (updp_run k1 _ _ _ Hp)). split; [done|]. split; [done|].
    split; [apply lookup_insert_eq|]. intros. by apply sigpair_bits. }
  destruct (Z.eqb_spec how 0) as [->|H0].
  { eexists _, _. rewrite (bind_run _ _ _ _ _ (updp_run k1 _ _ _ Hp)). split; [done|]. split; [done|].
    split; [apply lookup_insert_eq|]. intros. gsimpl. by rewrite mask_block_bits, sigpair_bits. }
  destruct (Z.eqb_spec how 1) as [->|H1].
  { eexists _, _. rewrite (bind_run _ _ _ _ _ (updp_run k1 _ _ _ Hp)). split; [done|]. split; [done|].
    split; [apply lookup_insert_eq|]. intros. gsimpl. by rewrite mask_unblock_bits, sigpair_bits. }
  exists k1, p. destruct (Z.leb_spec 0 how), (Z.leb_spec how 2); cbn [andb]; try done. lia.
Qed.

(** Process 3 wants to block signals 2 and 9, SIGKILL. *)
Definition sigmask_k : kst :=
  sample_k <| kmem := fun a => if a =? -98 then 0 else if a =? -97 then 0x204 else if a =? -95 then 10 else 0 |>
    <| procs ::= insert 3 (sample_proc 3 <| protection_table := 0xffffffff :: replicate 31 0 |>) |>.

Lemma do_sigprocmask_mask_witness :
  exists k' p', do_sigprocmask 3 SYS_MSG sigmask_k = Some (OK, k') /\
    kmem k' 2058 = 0 /\ procs k' !! 3 = Some p' /\
    forall i, 0 <= i -> Z.testbit (sig_mask p') i = new_mask 0 0x204 0 i.
Proof.
  pose proof (do_sigprocmask_mask sigmask_k 3 SYS_MSG (sample_proc 3 <| protection_table := 0xffffffff :: replicate 31 0 |>)
    ltac:(reflexivity) ltac:(vm_compute; reflexivity) ltac:(vm_compute; intros [_ H]; discriminate H)) as H.
  exact H.
Defined.

(** ** kill *)

(** [kill(0, sig)] skips the processes of the caller's own group instead of
    sending to them: when every process is in that group the call fails with ESRCH
    and changes nothing. *)
Theorem sys_kill_zero_spares_group k who w signum :
  procs k !! who = Some w -> 0 <= signum < _NSIG ->
  (forall n, n ∈ proc_numbers -> exists p, procs k !! n = Some p /\ (IS_INUSE p = true -> procgrp p = procgrp w)) ->
  sys_kill who 0 signum k = Some (ESRCH, k).
Proof.
  intros Hw Hs Hall. unfold sys_kill. destruct (Z.ltb_spec signum 0); [lia|].
  destruct (Z.geb_spec signum _NSIG); [lia|]. cbn [orb andb Z.eqb].
  assert (Hloop : forall ns v, (forall n, n ∈ ns -> n ∈ proc_numbers) -> kill_loop ns who 0 signum v k = Some ((None, v), k)).
  { induction ns as [|n ns IH]; intros v Hns; [done|]. cbn [kill_loop].
    destruct (Hall n) as (p & Hp & Hg); [set_solver|].
    rewrite (bind_run _ _ _ _ _ (getp_run _ _ _ Hp)), (bind_run _ _ _ _ _ (getp_run _ _ _ Hw)).
    assert (negb (IS_INUSE p) || kill_skips who 0 p w = true) as ->.
    { destruct (IS_INUSE p); [|done]. unfold kill_skips. rewrite Hg by done. by rewrite !Z.eqb_refl, orb_true_r. }
    apply IH. set_solver. }
  by rewrite (bind_run _ _ _ _ _ (Hloop proc_numbers 0 ltac:(done))).
Qed.

Lemma sys_kill_zero_spares_group_witness :
  let k := sample_k <| procs ::= fmap (fun p => p <| procgrp := 1 |>) |> in
  sys_kill 3 0 SIGINT k = Some (ESRCH, k).
Proof.
  intros k. apply (sys_kill_zero_spares_group k 3 (sample_proc 3 <| procgrp := 1 |>)); [reflexivity|done|].
  intros n Hn%elem_of_seqZ. unfold NUM_PROCS, INIT in Hn.
  assert (n = 1 \/ n = 2 \/ n = 3 \/ n = 4 \/ n = 5 \/ n = 6 \/ n = 7 \/ n = 8) as Hc by lia.
  destruct Hc as [->|[->|[->|[->|[->|[->|[->| ->]]]]]]]; eexists; (split; [reflexivity|done]).
Defined.

(** ** Signal delivery and return *)
Lemma copyto_user_stack_run k who p src :
  procs k !! who = Some p ->
  let a := u32 (get_physical_addr (sp p) (rbase p) - alen src) in
  copyto_user_stack who src k
  = Some (OK, k <| kmem := wr_words (kmem k) a src |>
                <| procs := <[who := p <| sp := get_virtual_addr a (rbase p) |>]> (procs k) |>).
Proof.
  intros Hp a. unfold copyto_user_stack. rewrite (bind_run _ _ _ _ _ (getp_run _ _ _ Hp)).
  set (k1 := k <| kmem := wr_words (kmem k) a src |>). assert (H1 : procs k1 !! who = Some p) by exact Hp.
  rewrite (bind_run _ _ k tt k1) by done. by rewrite (bind_run _ _ _ _ _ (updp_run _ _ _ _ H1)).
Qed.

Lemma phys_virt a r : get_physical_addr (get_virtual_addr a r) r = u32 a.
Proof.
  unfold get_physical_addr, get_virtual_addr, u32. rewrite Zplus_mod_idemp_l. f_equal. lia.
Qed.

Lemma phys_virt_add a r n : get_physical_addr (u32 (get_virtual_addr a r + n)) r = u32 (a + n).
Proof.
  unfold get_physical_addr, get_virtual_addr, u32. rewrite Zplus_mod_idemp_l, <- Z.add_assoc, Zplus_mod_idemp_l. f_equal. lia.
Qed.

Lemma set_proc_ctx_words p0 p :
  length (regs p) = 13%nat -> 
  let q := set_proc_ctx (proc_ctx_words p) p0 in
  regs q = regs p /\ sp q = sp p /\ ra q = ra p /\ pc q = pc p /\ rbase q = rbase p /\ ctx_ptable q = ctx_ptable p /\
  cctrl q = cctrl p /\ state q = state p /\ message_ptr q = message_ptr p /\ sig_mask2 q = sig_mask2 p0 /\
  priority q = priority p0 /\ p_next q = p_next p0.
Proof.
  intros Hl. unfold set_proc_ctx, proc_ctx_words. rewrite take_ge by lia.
  rewrite take_app_le, take_ge by lia. rewrite !lookup_app_r, Hl by lia. done.
Qed.

(** Where the context of [p] is saved on its stack. *)
Definition ctx_addr (p : proc) : Z := u32 (get_physical_addr (sp p) (rbase p) - SIGNAL_CTX_LEN).

Lemma build_signal_ctx_run k who p signum act :
  procs k !! who = Some p -> length (regs p) = 13%nat -> aget (sig_table p) signum = Some act ->
  33 <= get_physical_addr (sp p) (rbase p) ->
  exists k1 p1, build_signal_ctx who signum k = Some (OK, k1) /\ procs k1 !! who = Some p1 /\
    mem_words (kmem k1) (ctx_addr p) SIGNAL_CTX_LEN = proc_ctx_words p /\
    sp p1 = get_virtual_addr (ctx_addr p - 12) (rbase p) /\ rbase p1 = rbase p /\ ready_q k1 = ready_q k /\
    kmem k1 (ctx_addr p - 12) = signum /\
    pc p1 = sa_handler act /\ sig_mask2 p1 = sig_mask p /\ sig_mask p1 = sa_mask act /\ state p1 = STATE_RUNNABLE.
Proof.
  intros Hp Hl Hact Hph. unfold build_signal_ctx.
  rewrite (bind_run _ _ _ _ _ (getp_run _ _ _ Hp)).
  pose proof (copyto_user_stack_run k who p (proc_ctx_words p) Hp) as E1. cbn zeta in E1.
  assert (Ew : alen (proc_ctx_words p) = SIGNAL_CTX_LEN).
  { unfold alen, proc_ctx_words. rewrite length_app, length_take, Hl. done. }
  rewrite Ew in E1. fold (ctx_addr p) in E1. set (k1 := k <| kmem := _ |> <| procs := _ |>) in E1.
  rewrite (bind_run _ _ _ _ _ E1). set (p1 := p <| sp := get_virtual_addr (ctx_addr p) (rbase p) |>).
  assert (Hp1 : procs k1 !! who = Some p1) by apply lookup_insert_eq.
  rewrite (bind_run _ _ _ _ _ (getp_run _ _ _ Hp1)).
  pose proof (copyto_user_stack_run k1 who p1 (sigframe signum (u32 (sp p1 - MESSAGE_LEN))) Hp1) as E2. cbn zeta in E2.
  change (alen (sigframe signum (u32 (sp p1 - MESSAGE_LEN)))) with 12 in E2.
  set (frame := sigframe signum (u32 (sp p1 - MESSAGE_LEN))) in E2.
  assert (Hr : 0 <= ctx_addr p < UINT_MOD /\ ctx_addr p = get_physical_addr (sp p) (rbase p) - 21).
  { split; [apply u32_range|]. unfold ctx_addr, SIGNAL_CTX_LEN. apply u32_id. split; [lia|].
    pose proof (u32_range (sp p + rbase p)) as [_ ?]. unfold get_physical_addr in *. lia. }
  destruct Hr as [Hr Hra].
  assert (Ea : u32 (get_physical_addr (sp p1) (rbase p1) - 12) = ctx_addr p - 12).
  { change (sp p1) with (get_virtual_addr (ctx_addr p) (rbase p)). change (rbase p1) with (rbase p).
    rewrite phys_virt, (u32_id (ctx_addr p)) by done. apply u32_id. unfold is_u32. lia. }
  rewrite Ea in E2. set (k2 := k1 <| kmem := _ |> <| procs := _ |>) in E2. rewrite (bind_run _ _ _ _ _ E2).
  set (p2 := p1 <| sp := get_virtual_addr (ctx_addr p - 12) (rbase p1) |>).
  assert (Hp2 : procs k2 !! who = Some p2) by apply lookup_insert_eq.
  rewrite (bind_run _ _ _ _ _ (getp_run _ _ _ Hp2)).
  rewrite (bind_run _ _ k2 act k2) by (unfold get_sa; change (sig_table p2) with (sig_table p); by rewrite Hact).
  rewrite (bind_run _ _ _ _ _ (updp_run _ _ _ _ Hp2)).
  set (k3 := k2 <| procs := _ |>). eexists k3, _. split; [done|]. split; [apply lookup_insert_eq|].
  assert (Hm1 : kmem k1 = wr_words (kmem k) (ctx_addr p) (proc_ctx_words p)) by reflexivity.
  assert (Hm : kmem k3 = wr_words (kmem k1) (ctx_addr p - 12) frame) by reflexivity. rewrite Hm, Hm1.
  split; [|split; [done|split; [done|split; [done|split; [|done]]]]].
  - etransitivity; [|exact (mem_words_wr (proc_ctx_words p) (kmem k) (ctx_addr p))]. rewrite Ew. unfold mem_words.
    apply map_ext_in. intros x Hx%list_elem_of_In%elem_of_seqZ. apply wr_words_out.
    change (alen frame) with 12. lia.
  - rewrite <- (Z.add_0_r (ctx_addr p - 12)) at 2. by apply (wr_words_in frame _ _ 0).
Qed.

Lemma do_sigreturn_run k who p2 q m ls l :
  procs k !! who = Some p2 ->
  set_proc_ctx (mem_words (kmem k) (u32 (get_physical_addr (sp p2) (rbase p2) + SYSCALL_FRAME_LEN)) SIGNAL_CTX_LEN) p2 = q ->
  s32 (m1_i1 (rd_msg (kmem k) m)) <> SIGABRT ->
  rq_rep k ls -> aget ls (priority q) = Some l -> ~ queued ls who -> p_next q = p_next p2 ->
  exists k3 v, do_sigreturn who m k = Some (if has (state q) STATE_RECEIVING then EINTR else DONTREPLY, k3) /\
    procs k3 !! who = Some (q <| sig_mask := sig_mask2 q |> <| p_next := v |>
      <| state := if has (state q) STATE_RECEIVING then STATE_RECEIVING else state q |>) /\
    rq_rep k3 (if state q =? STATE_RUNNABLE then <[Z.to_nat (priority q) := l ++ [who]]> ls else ls).
Proof.
  intros Hp2 Hpa Hsig Hr Hq Hnq Hnext. unfold do_sigreturn.
  rewrite (bind_run _ _ k (rd_msg (kmem k) m) k) by done.
  rewrite (bind_run _ _ _ _ _ (getp_run _ _ _ Hp2)), (bind_run _ _ k (kmem k) k) by done.
  rewrite (bind_run _ _ _ _ _ (updp_run _ _ _ _ Hp2)), Hpa.
  set (ka := k <| procs := <[who := q]> (procs k) |>).
  assert (Ha : procs ka !! who = Some q) by apply lookup_insert_eq.
  assert (Hra : rq_rep ka ls).
  { apply (rq_rep_ext k); [done|done| |intros x ?; by apply is_Some_insert_mono]. intros x. by apply (p_link_insert_eq _ _ p2). }
  clearbody ka. rewrite (proj2 (Z.eqb_neq _ _) Hsig). clear Hr Hp2 Hpa p2 Hnext Hsig.
  rewrite (bind_run _ _ _ _ _ (updp_run _ _ _ _ Ha)).
  set (pb := q <| sig_mask := sig_mask2 q |>). set (kb := ka <| procs := <[who := pb]> (procs ka) |>).
  assert (Hpb : procs kb !! who = Some pb) by apply lookup_insert_eq.
  assert (Hrb : rq_rep kb ls).
  { apply (rq_rep_ext ka); [done|done| |intros x ?; by apply is_Some_insert_mono]. intros x. by apply (p_link_insert_eq _ _ q). }
  assert (Est : state pb = state q) by done. assert (Epr : priority pb = priority q) by done. clearbody kb.
  assert (Hsched : exists kc v, when (state q =? STATE_RUNNABLE) (enqueue_schedule who) kb = Some (tt, kc) /\
     rq_rep kc (if state q =? STATE_RUNNABLE then <[Z.to_nat (priority q) := l ++ [who]]> ls else ls) /\
     procs kc !! who = Some (pb <| p_next := v |>)).
  { destruct (state q =? STATE_RUNNABLE); unfold when.
    - unfold enqueue_schedule. destruct (enqueue_tail_spec kb ls (priority q) l who) as (kc & Hk & Hrk & Hs); [done|done|eauto|done|].
      destruct (same_but_queues_lookup _ _ _ _ Hs Hpb) as [v Hv]. exists kc, v.
      rewrite (bind_run _ _ _ _ _ (getp_run _ _ _ Hpb)), Epr. done.
    - exists kb, (p_next pb). split; [done|]. split; [done|]. by rewrite Hpb. }
  destruct Hsched as (kc & v & Hw & Hrc & Hpc). set (px := pb <| p_next := v |>) in Hpc.
  rewrite (bind_run _ _ kb tt kc) by (by rewrite (bind_run _ _ _ _ _ (getp_run _ _ _ Hpb)), Est).
  rewrite (bind_run _ _ _ _ _ (getp_run _ _ _ Hpc)). change (state px) with (state q).
  destruct (has (state q) STATE_RECEIVING).
  - rewrite (bind_run _ _ _ _ _ (updp_run _ _ _ _ Hpc)). eexists _, v. split; [done|]. split; [apply lookup_insert_eq|].
    apply (rq_rep_ext kc); [done|done| |intros x ?; by apply is_Some_insert_mono].
    intros x. by apply (p_link_insert_eq _ _ px).
  - exists kc, v. split; [done|]. split; [|done]. by rewrite Hpc.
Qed.

(** [send_sig] of a signal that is not ignored, to a process that does not pause. *)
Lemma send_sig_pends k who p signum act :
  procs k !! who = Some p -> IS_USER_PROC p = true -> has (state p) STATE_PAUSING = false ->
  aget (sig_table p) signum = Some act -> sa_handler act <> SIG_IGN ->
  exists r, send_sig who signum k = Some (r, k <| procs := <[who := p <| sig_pending := snd (sigaddset (sig_pending p) signum) |>]> (procs k) |>).
Proof.
  intros Hp Hu Hpa Hact Hig. unfold send_sig. rewrite (bind_run _ _ _ _ _ (getp_run _ _ _ Hp)), Hu. cbn [negb].
  destruct (negb (sigismember (sig_mask p) signum =? 0) && negb (signum =? SIGKILL) && negb (signum =? SIGSTOP)).
  - rewrite (bind_run _ _ k act k) by (unfold get_sa; by rewrite Hact). rewrite (proj2 (Z.eqb_neq _ _) Hig). cbn [negb].
    destruct (sigaddset (sig_pending p) signum) as [r t]. exists r. by rewrite (bind_run _ _ _ _ _ (updp_run _ _ _ _ Hp)).
  - rewrite Hpa. cbn [when]. rewrite (bind_run _ _ k tt k) by done. exists OK. by rewrite (bind_run _ _ _ _ _ (updp_run _ _ _ _ Hp)).
Qed.

(** [p3] has the context of [q], with the mask that was kept. *)
Definition resumed (p3 q : proc) : Prop :=
  regs p3 = regs q /\ sp p3 = sp q /\ ra p3 = ra q /\ pc p3 = pc q /\ rbase p3 = rbase q /\ sig_mask p3 = sig_mask2 q /\
  state p3 = if has (state q) STATE_RECEIVING then STATE_RECEIVING else state q.

(** The return from the handler of SIGABRT: its action is the default again and it is
    sent again; the process is not put into a ready queue. *)
Lemma do_sigreturn_abort k who p2 q m ls act :
  procs k !! who = Some p2 ->
  set_proc_ctx (mem_words (kmem k) (u32 (get_physical_addr (sp p2) (rbase p2) + SYSCALL_FRAME_LEN)) SIGNAL_CTX_LEN) p2 = q ->
  s32 (m1_i1 (rd_msg (kmem k) m)) = SIGABRT ->
  rq_rep k ls -> p_next q = p_next p2 ->
  IS_USER_PROC q = true -> has (state q) STATE_PAUSING = false -> aget (sig_table q) SIGABRT = Some act ->
  exists k3 p3, do_sigreturn who m k = Some (if has (state q) STATE_RECEIVING then EINTR else DONTREPLY, k3) /\
    procs k3 !! who = Some p3 /\ resumed p3 q /\ rq_rep k3 ls /\
    Z.testbit (sig_pending p3) SIGABRT = true /\ (sa_handler <$> aget (sig_table p3) SIGABRT) = Some SIG_DFL.
Proof.
  intros Hp2 Hpa Hsig Hr Hnext Hu Hpause Hact. unfold do_sigreturn.
  rewrite (bind_run _ _ k (rd_msg (kmem k) m) k) by done.
  rewrite (bind_run _ _ _ _ _ (getp_run _ _ _ Hp2)), (bind_run _ _ k (kmem k) k) by done.
  rewrite (bind_run _ _ _ _ _ (updp_run _ _ _ _ Hp2)), Hpa.
  set (ka := k <| procs := <[who := q]> (procs k) |>).
  assert (Ha : procs ka !! who = Some q) by apply lookup_insert_eq.
  assert (Hra : rq_rep ka ls).
  { apply (rq_rep_ext k); [done|done| |intros x ?; by apply is_Some_insert_mono]. intros x. by apply (p_link_insert_eq _ _ p2). }
  clearbody ka. rewrite (proj2 (Z.eqb_eq _ _) Hsig). clear Hr Hp2 Hpa p2 Hnext Hsig.
  rewrite (bind_run _ _ _ _ _ (updp_run _ _ _ _ Ha)).
  set (pb := q <| sig_mask := sig_mask2 q |>). set (kb := ka <| procs := <[who := pb]> (procs ka) |>).
  assert (Hpb : procs kb !! who = Some pb) by apply lookup_insert_eq.
  set (pc1 := pb <| sig_table ::= <[Z.to_nat SIGABRT := act <| sa_handler := SIG_DFL |>]> |>).
  set (kc := kb <| procs := <[who := pc1]> (procs kb) |>).
  assert (Ec : upd_sa who SIGABRT (fun a => a <| sa_handler := SIG_DFL |>) kb = Some (tt, kc)).
  { unfold upd_sa. rewrite (bind_run _ _ _ _ _ (getp_run _ _ _ Hpb)), (bind_run _ _ kb act kb).
    - exact (updp_run _ _ _ _ Hpb).
    - unfold get_sa. change (sig_table pb) with (sig_table q). by rewrite Hact. }
  assert (Hpc1 : procs kc !! who = Some pc1) by apply lookup_insert_eq.
  assert (Hact' : aget (sig_table pc1) SIGABRT = Some (act <| sa_handler := SIG_DFL |>)).
  { pose proof (aget_Some_bound _ _ _ Hact). change (sig_table pc1) with (<[Z.to_nat SIGABRT := act <| sa_handler := SIG_DFL |>]> (sig_table q)).
    rewrite aget_insert by lia. by rewrite decide_True. }
  destruct (send_sig_pends kc who pc1 SIGABRT _ Hpc1 Hu Hpause Hact') as (r & Es); [done|].
  set (pd := pc1 <| sig_pending := snd (sigaddset (sig_pending q) SIGABRT) |>).
  set (kd := kc <| procs := <[who := pd]> (procs kc) |>).
  assert (Hpd : procs kd !! who = Some pd) by apply lookup_insert_eq.
  rewrite (bind_run _ _ kb tt kd).
  2:{ rewrite (bind_run _ _ _ _ _ Ec). by rewrite (bind_run _ _ kc r kd). }
  assert (Hrd : rq_rep kd ls).
  { apply (rq_rep_ext ka); [done|done| |].
    - intros x. change (procs kd) with (<[who := pd]> (<[who := pc1]> (<[who := pb]> (procs ka)))). rewrite !insert_insert_eq.
      by apply (p_link_insert_eq _ _ q).
    - intros x ?. change (procs kd) with (<[who := pd]> (<[who := pc1]> (<[who := pb]> (procs ka)))). rewrite !insert_insert_eq.
      by apply is_Some_insert_mono. }
  assert (Hbit : Z.testbit (sig_pending pd) SIGABRT = true).
  { change (sig_pending pd) with (snd (sigaddset (sig_pending q) SIGABRT)). rewrite sigaddset_bit by (unfold SIGABRT; lia).
    rewrite bool_decide_eq_true_2 by done. by rewrite orb_true_r. }
  assert (Hdfl : (sa_handler <$> aget (sig_table pd) SIGABRT) = Some SIG_DFL).
  { change (sig_table pd) with (sig_table pc1). by rewrite Hact'. }
  rewrite (bind_run _ _ _ _ _ (getp_run _ _ _ Hpd)). assert (Hstd : state pd = state q) by done. rewrite Hstd. unfold resumed.
  destruct (has (state q) STATE_RECEIVING).
  - rewrite (bind_run _ _ _ _ _ (updp_run _ _ _ _ Hpd)). eexists _, (pd <| state := STATE_RECEIVING |>).
    split; [reflexivity|]. split; [apply lookup_insert_eq|]. split; [done|]. split; [|done].
    apply (rq_rep_ext kd); [done|done| |intros x ?; by apply is_Some_insert_mono].
    intros x. by apply (p_link_insert_eq _ _ pd).
  - exists kd, pd. split; [reflexivity|]. split; [done|]. split; [done|]. split; [done|]. by split.
Qed.

Lemma do_sigreturn_resumes k who p2 q m ls l :
  procs k !! who = Some p2 ->
  set_proc_ctx (mem_words (kmem k) (u32 (get_physical_addr (sp p2) (rbase p2) + SYSCALL_FRAME_LEN)) SIGNAL_CTX_LEN) p2 = q ->
  s32 (m1_i1 (rd_msg (kmem k) m)) <> SIGABRT ->
  rq_rep k ls -> aget ls (priority q) = Some l -> ~ queued ls who -> p_next q = p_next p2 ->
  exists k3 p3, do_sigreturn who m k = Some (if has (state q) STATE_RECEIVING then EINTR else DONTREPLY, k3) /\
    procs k3 !! who = Some p3 /\ resumed p3 q /\ sig_pending p3 = sig_pending q /\ sig_table p3 = sig_table q /\
    rq_rep k3 (if state q =? STATE_RUNNABLE then <[Z.to_nat (priority q) := l ++ [who]]> ls else ls).
Proof.
  intros H1 H2 H3 H4 H5 H6 H7. destruct (do_sigreturn_run k who p2 q m ls l H1 H2 H3 H4 H5 H6 H7) as (k3 & v & E & Hp3 & Hr3).
  eexists k3, _. split; [exact E|]. split; [exact Hp3|]. by split.
Qed.

(** What the return from a handler leaves, besides the context: the signal SIGABRT gets
    its default action and is pending again; after every other one a process that was
    running is ready again. *)
Definition returned (sig : Z) (p p2 p3 : proc) (k3 : kst) (who : Z) (ls : list (list Z)) (l : list Z) : Prop :=
  if sig =? SIGABRT then
    rq_rep k3 ls /\ Z.testbit (sig_pending p3) SIGABRT = true /\ (sa_handler <$> aget (sig_table p3) SIGABRT) = Some SIG_DFL
  else
    rq_rep k3 (if state p =? STATE_RUNNABLE then <[Z.to_nat (priority p2) := l ++ [who]]> ls else ls) /\
    sig_pending p3 = sig_pending p2 /\ sig_table p3 = sig_table p2.

(** C35: the frame [build_signal_ctx] builds is what [do_sigreturn] undoes.  Between the
    two the handler runs: it takes the signal number off the stack and may change the
    memory, the registers and the state of the process, but not the context saved on the
    stack nor the mask the kernel saved - no other handler is started and no sigsuspend
    called meanwhile.  Then the call restores the registers, stack pointer, program
    counter and signal mask the process was interrupted with.  A process that was running
    is ready again, except after the handler of SIGABRT: that signal gets its default
    action and is sent again (for a user process that does not pause). *)
Theorem sigreturn_restores k who p signum act k1 p1 k2 p2 ls l m :
  procs k !! who = Some p -> length (regs p) = 13%nat -> aget (sig_table p) signum = Some act ->
  33 <= get_physical_addr (sp p) (rbase p) ->
  build_signal_ctx who signum k = Some (OK, k1) -> procs k1 !! who = Some p1 ->
  (* the handler runs, and calls sigreturn from the frame it was given *)
  procs k2 !! who = Some p2 -> sp p2 = u32 (sp p1 + 1) -> rbase p2 = rbase p1 -> sig_mask2 p2 = sig_mask2 p1 ->
  (forall i, 0 <= i < SIGNAL_CTX_LEN -> kmem k2 (ctx_addr p + i) = kmem k1 (ctx_addr p + i)) ->
  let sig := s32 (m1_i1 (rd_msg (kmem k2) m)) in
  (sig = SIGABRT -> IS_USER_PROC p = true /\ has (state p) STATE_PAUSING = false /\ is_Some (aget (sig_table p2) SIGABRT)) ->
  rq_rep k2 ls -> aget ls (priority p2) = Some l -> ~ queued ls who ->
  exists k3 p3, do_sigreturn who m k2 = Some (if has (state p) STATE_RECEIVING then EINTR else DONTREPLY, k3) /\
    procs k3 !! who = Some p3 /\
    regs p3 = regs p /\ sp p3 = sp p /\ ra p3 = ra p /\ pc p3 = pc p /\ rbase p3 = rbase p /\ sig_mask p3 = sig_mask p /\
    state p3 = (if has (state p) STATE_RECEIVING then STATE_RECEIVING else state p) /\
    returned sig p p2 p3 k3 who ls l.
Proof.
  intros Hp Hl Hact Hph Hb Hp1 Hp2 Hsp Hrb Hmask Hframe sig Habort Hr Hq Hnq.
  destruct (build_signal_ctx_run k who p signum act Hp Hl Hact Hph) as
    (k1' & p1' & Hb' & Hp1' & Hctx & Hsp1 & Hrb1 & _ & _ & _ & Hm1 & _). rewrite Hb in Hb'. injection Hb' as <-. simplify_eq.
  assert (Hra : 12 <= ctx_addr p < UINT_MOD).
  { unfold ctx_addr, SIGNAL_CTX_LEN. pose proof (u32_range (sp p + rbase p)) as [_ ?].
    unfold get_physical_addr in *. rewrite u32_id; unfold is_u32; lia. }
  assert (E : u32 (get_physical_addr (sp p2) (rbase p2) + SYSCALL_FRAME_LEN) = ctx_addr p).
  { rewrite Hsp, Hrb, Hrb1, Hsp1, phys_virt_add. unfold u32 at 1. unfold u32. rewrite Zplus_mod_idemp_l.
    rewrite Z.mod_small; unfold SYSCALL_FRAME_LEN; lia. }
  assert (Ew : mem_words (kmem k2) (ctx_addr p) SIGNAL_CTX_LEN = proc_ctx_words p).
  { rewrite <- Hctx. unfold mem_words. apply map_ext_in. intros x Hx%list_elem_of_In%elem_of_seqZ.
    specialize (Hframe (x - ctx_addr p)). rewrite Zplus_minus in Hframe. apply Hframe. lia. }
  rewrite Hm1 in Hmask.
  destruct (set_proc_ctx_words p2 p Hl) as (E1 & E2 & E3 & E4 & E5 & _ & _ & E8 & _ & E10 & E11 & E12).
  assert (Et : sig_table (set_proc_ctx (proc_ctx_words p) p2) = sig_table p2) by reflexivity.
  assert (Es : sig_pending (set_proc_ctx (proc_ctx_words p) p2) = sig_pending p2) by reflexivity.
  assert (Eq : exists q, q = set_proc_ctx (proc_ctx_words p) p2) by (by eexists). destruct Eq as [q Eq]. rewrite <- Eq in *.
  rewrite <- E11 in Hq.
  unfold returned. destruct (Z.eqb_spec sig SIGABRT) as [Hsig|Hsig].
  - destruct (Habort Hsig) as (Hu & Hpa & act' & Hact'). rewrite <- Et in Hact'. rewrite <- E8 in Hpa.
    destruct (do_sigreturn_abort k2 who p2 q m ls act') as (k3 & p3 & Hk3 & Hp3 & (R1 & R2 & R3 & R4 & R5 & R6 & R7) & H);
      [done|by rewrite E, Ew|done|done|done|unfold IS_USER_PROC in *; by rewrite E5|done|done|].
    rewrite E8 in Hk3, R7. exists k3, p3. split; [exact Hk3|]. split; [exact Hp3|]. split_and!; try congruence; apply H.
  - destruct (do_sigreturn_resumes k2 who p2 q m ls l) as (k3 & p3 & Hk3 & Hp3 & (R1 & R2 & R3 & R4 & R5 & R6 & R7) & P1 & P2 & Hr3);
      [done|by rewrite E, Ew|done|done|done|done|done|].
    rewrite E8 in Hk3, R7, Hr3. rewrite E11 in Hr3. exists k3, p3. split; [exact Hk3|]. split; [exact Hp3|]. split_and!; congruence.
Qed.

(** Process 3 is interrupted by SIGALRM, and its handler returns. *)
Definition sig_k0 : kst :=
  sample_k <| procs ::= insert 3 (sample_proc 3 <| pc := 77 |> <| sig_mask := 0x100 |>
    <| sig_table := <[Z.to_nat SIGALRM := mkSa 500 0xffff SA_RESETHAND]> (sig_table proc_zero) |>) |>.
Definition sig_p0 : proc := default proc_zero (procs sig_k0 !! 3).
Definition sig_k1 : kst := match build_signal_ctx 3 SIGALRM sig_k0 with Some (_, k) => k | None => sig_k0 end.
Definition sig_p1 : proc := default proc_zero (procs sig_k1 !! 3).
Definition sig_p2 : proc := sig_p1 <| sp := u32 (sp sig_p1 + 1) |>.
Definition sig_k2 : kst := sig_k1 <| procs := <[3 := sig_p2]> (procs sig_k1) |>.

Lemma sig_k1_built : build_signal_ctx 3 SIGALRM sig_k0 = Some (OK, sig_k1).
Proof.
  assert (Er : fst <$> build_signal_ctx 3 SIGALRM sig_k0 = Some OK) by (vm_compute; reflexivity). revert Er. unfold sig_k1.
  generalize (build_signal_ctx 3 SIGALRM sig_k0). intros [[r k]|] E; [|done]. by injection E as ->.
Qed.

Lemma sig_p1_here : procs sig_k1 !! 3 = Some sig_p1.
Proof.
  assert (Hs : bool_decide (procs sig_k1 !! 3 <> None) = true) by (vm_compute; reflexivity). revert Hs. unfold sig_p1.
  generalize (procs sig_k1 !! 3). by intros [x|].
Qed.

Lemma sig_handler_ran : procs sig_k2 !! 3 = Some sig_p2 /\ sp sig_p2 = u32 (sp sig_p1 + 1) /\ rbase sig_p2 = rbase sig_p1 /\
  sig_mask2 sig_p2 = sig_mask2 sig_p1 /\ kmem sig_k2 = kmem sig_k1 /\ ready_q sig_k2 = ready_q sig_k1.
Proof.
  unfold sig_k2, sig_p2. generalize sig_k1 sig_p1. intros k p. split; [apply lookup_insert_eq|]. by split_and!.
Qed.

Lemma sigreturn_restores_witness :
  exists k3 p3, do_sigreturn 3 SYS_MSG sig_k2 = Some (DONTREPLY, k3) /\
    procs k3 !! 3 = Some p3 /\
    regs p3 = regs sig_p0 /\ sp p3 = sp sig_p0 /\ pc p3 = 77 /\ sig_mask sig_p1 = 0xffff /\ sig_mask p3 = 0x100 /\ state p3 = STATE_RUNNABLE /\
    rq_rep k3 [[3]; []; []; []; []].
Proof.
  assert (Hp : procs sig_k0 !! 3 = Some sig_p0) by (vm_compute; reflexivity).
  assert (Hmsg : s32 (m1_i1 (rd_msg (kmem sig_k1) SYS_MSG)) =? SIGABRT = false) by (vm_compute; reflexivity).
  assert (Hrq : ready_q sig_k1 = ready_q sample_k) by (vm_compute; reflexivity).
  assert (H0 : state sig_p0 = STATE_RUNNABLE) by (vm_compute; reflexivity). assert (H1 : priority sig_p2 = 0) by (vm_compute; reflexivity).
  assert (H2 : pc sig_p0 = 77) by (vm_compute; reflexivity). assert (H3 : sig_mask sig_p0 = 0x100) by (vm_compute; reflexivity).
  assert (H4 : sig_mask sig_p1 = 0xffff) by (vm_compute; reflexivity).
  destruct sig_handler_ran as (Hp2 & Hsp & Hrb & Hmask & Hf1 & Hf2).
  destruct (sigreturn_restores sig_k0 3 sig_p0 SIGALRM (mkSa 500 0xffff SA_RESETHAND) sig_k1 sig_p1 sig_k2 sig_p2
    [[]; []; []; []; []] [] SYS_MSG) as (k3 & p3 & E & Hp3 & Er & Esp & _ & Epc & _ & Em & Est & Hret).
  - exact Hp.
  - vm_compute; reflexivity.
  - vm_compute; reflexivity.
  - vm_compute; discriminate.
  - exact sig_k1_built.
  - exact sig_p1_here.
  - exact Hp2.
  - exact Hsp.
  - exact Hrb.
  - exact Hmask.
  - intros i _. by rewrite Hf1.
  - rewrite Hf1. intros Hs. by apply Z.eqb_neq in Hmsg.
  - apply (rq_rep_empty _ 5). rewrite Hf2, Hrq. reflexivity.
  - rewrite H1. reflexivity.
  - apply (not_queued_empty 5).
  - unfold returned in Hret. rewrite Hf1, Hmsg in Hret. destruct Hret as [Hr _]. rewrite H0 in E, Est, Hr. rewrite H1 in Hr. rewrite H2 in Epc. rewrite H3 in Em.
    exists k3, p3. by split_and!.
Defined.
