(* ===== verification/Fork.v ===== *)
(** * fork copies the memory of the parent

    [copy_mm] of kernel/system/do_fork.c: the child gets pages that were free, with
    the words of the parent in them, and access to these pages only. *)
From S2P Require Import Prelude Bitmap Mm Linked CString Timer Slab Kernel Proc Ipc Cache Inode Signal Filp Pipe Rootfs Exit Syscalls.

(** The process occupies [np] pages from page [pg] on. *)
Definition occupies (p : proc) (pg np : Z) : Prop :=
  mem_start p = PAGE_TO_PADDR pg /\ heap_bottom p = PAGE_TO_PADDR pg + np * 1024 - 1 /\ 0 < np /\ 0 <= pg /\ pg + np <= 127.

Lemma memcpy_disjoint m d s n x :
  0 <= n -> d + n <= s \/ s + n <= d ->
  memcpy m d s n x = if (d <=? x) && (x <? d + n) then m (s + (x - d)) else m x.
Proof. intros Hn Hd. unfold memcpy. rewrite memcpy_loop_spec by lia. by rewrite Z2Nat.id by lia. Qed.

(** The loop copies the pages one after the other and stops behind the last. *)
Lemma copy_pages_spec (i : nat) : forall fuel k s d,
  (i < fuel)%nat -> 0 <= s -> 0 <= d -> s + Z.of_nat i * 1024 <= 0x1fc00 -> d + Z.of_nat i * 1024 <= 0x1fc00 ->
  d + Z.of_nat i * 1024 <= s \/ s + Z.of_nat i * 1024 <= d ->
  exists mem, copy_pages fuel s d (s + Z.of_nat i * 1024 - 1) k = Some (tt, k <| kmem := mem |>) /\
    forall x, mem x = if (d <=? x) && (x <? d + Z.of_nat i * 1024) then kmem k (s + (x - d)) else kmem k x.
Proof.
  induction i as [|i IH]; intros fuel k s d Hf Hs Hd Hs1 Hd1 Hdis; (destruct fuel as [|fuel]; [lia|]); cbn [copy_pages].
  - rewrite (proj2 (Z.ltb_ge _ _)) by lia. exists (kmem k). split; [by destruct k|]. intros x.
    destruct (Z.leb_spec d x), (Z.ltb_spec x (d + Z.of_nat 0 * 1024)); cbn; try done; lia.
  - assert (HP : PAGE_LEN = 1024) by done. rewrite (proj2 (Z.ltb_lt _ _)) by lia. unfold kmemcpy.
    set (k1 := k <| kmem ::= (fun m => memcpy m d s PAGE_LEN) |>). rewrite (bind_run _ _ k tt k1) by done.
    rewrite HP, !u32_id by (unfold is_u32, UINT_MOD; lia).
    replace (s + Z.of_nat (S i) * 1024 - 1) with (s + 1024 + Z.of_nat i * 1024 - 1) by lia.
    destruct (IH fuel k1 (s + 1024) (d + 1024)) as (mem & E & M); [lia..|].
    exists mem. split; [exact E|]. intros x. rewrite M.
    assert (Hk1 : forall y, kmem k1 y = if (d <=? y) && (y <? d + 1024) then kmem k (s + (y - d)) else kmem k y).
    { intros y. change (kmem k1 y) with (memcpy (kmem k) d s 1024 y). apply memcpy_disjoint; lia. }
    assert (Hin : forall a b y, ((a <=? y) && (y <? b)) = bool_decide (a <= y < b)).
    { intros a b y. destruct (Z.leb_spec a y), (Z.ltb_spec y b); symmetry; (apply bool_decide_true || apply bool_decide_false); lia. }
    rewrite !Hk1, !Hin. repeat case_bool_decide; try lia; try done; f_equal; lia.
Qed.

(** A run of free pages lies beside a run of used ones. *)
Lemma free_beside_used u q pg np :
  run_free u q np -> (forall x, pg <= x < pg + np -> u x = true) -> 0 < np -> q + np <= pg \/ pg + np <= q.
Proof.
  intros Hf Hu Hn. destruct (decide (q + np <= pg)); [by left|]. destruct (decide (pg + np <= q)); [by right|]. exfalso.
  assert (Hx : u (Z.max q pg) = false) by (apply Hf; lia). rewrite Hu in Hx by lia. done.
Qed.

Lemma get_ptable_run k who p : procs k !! who = Some p -> ctx_ptable p = who -> get_ptable who k = Some (protection_table p, k).
Proof.
  intros Hp Hc. unfold get_ptable. rewrite (bind_run _ _ _ _ _ (getp_run _ _ _ Hp)), Hc. by rewrite (bind_run _ _ _ _ _ (getp_run _ _ _ Hp)).
Qed.

Lemma set_ptable_run k who p t :
  procs k !! who = Some p -> ctx_ptable p = who ->
  set_ptable who t k = Some (tt, k <| procs := <[who := p <| protection_table := t |>]> (procs k) |>).
Proof. intros Hp Hc. unfold set_ptable. rewrite (bind_run _ _ _ _ _ (getp_run _ _ _ Hp)), Hc. exact (updp_run _ _ _ _ Hp). Qed.

Lemma on_mm_run {A} (c : ST mmst A) k a m' :
  c (sl_mm (kslab k)) = Some (a, m') -> on_mm c k = Some (a, k <| kslab := kslab k <| sl_mm := m' |> |>).
Proof. intros H. unfold on_mm, zoom. by rewrite H. Qed.

(** The child's slot after the table was cleared and pages were granted. *)
Definition granted (c : proc) (t : list Z) (a : Z) : proc := c <| protection_table := t |> <| mem_start := a |>.

Lemma copy_mm_grant k par child p c pg np :
  procs k !! par = Some p -> procs k !! child = Some c -> par <> child -> ctx_ptable c = child ->
  alen (protection_table c) = PTABLE_LEN -> mm_inv (sl_mm (kslab k)) -> occupies p pg np ->
  exists a t m', (r ← liftO (bitmap_clear (protection_table c) PTABLE_LEN);
     _ ← set_ptable child (snd (r : Z * list Z));
     start ← with_ptable child (dup_vm (heap_bottom p) (mem_start p));
     _ ← updp child (fun c => c <| mem_start := start |>); mret start) k =
      Some (a, k <| kslab := kslab k <| sl_mm := m' |> |> <| procs := <[child := granted c t a]> (procs k) |>) /\
    mm_inv m' /\
    ((a = 0 /\ m' = sl_mm (kslab k) /\ forall x, bit t x = false) \/
     (exists q, a = PAGE_TO_PADDR q /\ 0 < q /\ q + np <= 127 /\ run_free (used (sl_mm (kslab k))) q np /\
       (forall x, 0 <= x -> used m' x = used (sl_mm (kslab k)) x || bool_decide (q <= x < q + np)) /\
       (forall x, 0 <= x -> bit t x = bool_decide (q <= x < q + np)))).
Proof.
  intros Hp Hc Hne Hctx Hlen Hinv (Hms & Hhb & Hnp & Hpg & Hend).
  destruct (bitmap_clear_spec _ _ Hlen) as (E0 & Hwf & Hz). set (z := replicate _ 0) in *.
  assert (Hpa : PAGE_TO_PADDR pg = pg * 1024) by (apply page_to_paddr; lia).
  assert (Hlen' : s32 (heap_bottom p + 1 - mem_start p) = np * 1024) by (rewrite s32_id by (unfold is_s32; lia); lia).
  destruct (user_get_free_pages_spec (sl_mm (kslab k)) z (np * 1024) GFP_NORM) as (a & t & m' & E1 & Hinv' & _ & _ & Hcase);
    [done|done|unfold valid_len; lia|]. rewrite npages_pages in Hcase.
  rewrite E0, (bind_run _ _ k (OK, z) k), (bind_run _ _ _ _ _ (set_ptable_run k child c z Hc Hctx)) by done.
  set (c1 := c <| protection_table := z |>). set (k1 := k <| procs := <[child := c1]> (procs k) |>).
  assert (Hc1 : procs k1 !! child = Some c1) by apply lookup_insert_eq.
  set (k2 := k1 <| kslab := kslab k1 <| sl_mm := m' |> |>). assert (Hc2 : procs k2 !! child = Some c1) by exact Hc1.
  exists a, t, m'. split; [|split; [done|]].
  - unfold with_ptable. rewrite (bind_run _ _ k1 a (k2 <| procs := <[child := c1 <| protection_table := t |>]> (procs k2) |>)).
    2:{ rewrite (bind_run _ _ _ _ _ (get_ptable_run k1 child c1 Hc1 Hctx)). unfold dup_vm. cbv zeta. rewrite Hlen'.
        rewrite (bind_run _ _ _ _ _ (on_mm_run _ k1 _ _ E1)). fold k2.
        by rewrite (bind_run _ _ _ _ _ (set_ptable_run k2 child c1 t Hc2 Hctx)). }
    set (c3 := c1 <| protection_table := t |>). set (k3 := k2 <| procs := _ |>).
    assert (Hc3 : procs k3 !! child = Some c3) by apply lookup_insert_eq. rewrite (bind_run _ _ _ _ _ (updp_run _ _ _ _ Hc3)).
    unfold mret, st_ret. do 2 f_equal. unfold k3, k2, k1, granted, c3, c1. gsimpl. by rewrite !insert_insert_eq.
  - destruct Hcase as [(-> & -> & ->)|(q & -> & Hlo & Hhi & Hf & Hu & Hb)]; [by left|]. right. exists q.
    pose proof (inv_bss _ Hinv). split; [done|]. split; [lia|]. split; [done|]. split; [done|]. split; [done|].
    intros x Hx. by rewrite Hb, Hz.
Qed.

(** C11: fork gives the child a copy of the parent's memory.  [copy_mm] ends for
    every parent that occupies a run of used pages.  It fails with ERR when no run
    of that length is free, with no page granted and no word changed.  Otherwise the
    child starts on a page with as many free pages, beside the parent's; its
    protection table grants exactly these pages, which are marked used; every word
    of the parent is at the same place of the child, and no other word changed. *)
Theorem copy_mm_copies k par child p c pg np :
  procs k !! par = Some p -> procs k !! child = Some c -> par <> child -> ctx_ptable c = child ->
  alen (protection_table c) = PTABLE_LEN -> mm_inv (sl_mm (kslab k)) -> occupies p pg np ->
  (forall x, pg <= x < pg + np -> used (sl_mm (kslab k)) x = true) ->
  exists r k' c', copy_mm par child k = Some (r, k') /\ procs k' = <[child := c']> (procs k) /\
    mm_inv (sl_mm (kslab k')) /\
    ((r = ERR /\ mem_start c' = 0 /\ kmem k' = kmem k /\ (forall x, bit (protection_table c') x = false) /\
       sl_mm (kslab k') = sl_mm (kslab k)) \/
     (r = OK /\ exists q, mem_start c' = q * 1024 /\ 0 < q /\ (q + np <= pg \/ pg + np <= q) /\
       run_free (used (sl_mm (kslab k))) q np /\
       (forall x, 0 <= x -> used (sl_mm (kslab k')) x = used (sl_mm (kslab k)) x || bool_decide (q <= x < q + np)) /\
       (forall x, 0 <= x -> bit (protection_table c') x = bool_decide (q <= x < q + np)) /\
       rbase c' = u32 (mem_start c' - rbase_offset c) /\ stack_top c' = mem_start c' /\
       (forall o, 0 <= o < np * 1024 -> kmem k' (mem_start c' + o) = kmem k (mem_start p + o)) /\
       (forall a, ~ (mem_start c' <= a < mem_start c' + np * 1024) -> kmem k' a = kmem k a))).
Proof.
  intros Hp Hc Hne Hctx Hlen Hinv Hocc Hused. pose proof Hocc as (Hms & Hhb & Hnp & Hpg & Hend).
  destruct (copy_mm_grant k par child p c pg np) as (a & t & m' & E & Hinv' & Hcase); [done..|].
  set (k1 := k <| kslab := _ |> <| procs := _ |>) in E. set (c1 := granted c t a) in k1.
  assert (Hc1 : procs k1 !! child = Some c1) by apply lookup_insert_eq.
  assert (Erun : copy_mm par child k = (if a =? 0 then mret ERR else
     _ ← updp child (fun c => c <| rbase := u32 (mem_start c - rbase_offset c) |> <| stack_top := mem_start c |>);
     _ ← copy_pages (S (Z.to_nat ((heap_bottom p - mem_start p) / PAGE_LEN + 1))) (mem_start p) a (heap_bottom p);
     mret OK) k1).
  { unfold copy_mm. rewrite (bind_run _ _ _ _ _ (getp_run _ _ _ Hp)), (bind_run _ _ _ _ _ (get_ptable_run k child c Hc Hctx)).
    apply bind_Some in E as (r0 & k0 & E0 & E). rewrite (bind_run _ _ _ _ _ E0).
    apply bind_Some in E as ([] & k2 & E2 & E). rewrite (bind_run _ _ _ _ _ E2).
    apply bind_Some in E as (st & k3 & E3 & E). rewrite (bind_run _ _ _ _ _ E3).
    apply bind_Some in E as ([] & k4 & E4 & [= -> ->]). by rewrite (bind_run _ _ _ _ _ E4). }
  assert (Hpa : PAGE_TO_PADDR pg = pg * 1024) by (apply page_to_paddr; lia). rewrite Hpa in *.
  destruct Hcase as [(Ha & Hm' & Hz)|(q & Ha & Hq0 & Hq & Hf & Hu & Hb)].
  - exists ERR, k1, c1. rewrite Erun, Ha. split; [reflexivity|]. split; [reflexivity|]. split; [exact Hinv'|]. left.
    split; [reflexivity|]. split; [exact Ha|]. split; [reflexivity|]. split; [exact Hz|exact Hm'].
  - assert (Hqa : PAGE_TO_PADDR q = q * 1024) by (apply page_to_paddr; lia). rewrite Hqa in Ha.
    rewrite (proj2 (Z.eqb_neq _ _)) in Erun by lia. rewrite (bind_run _ _ _ _ _ (updp_run _ _ _ _ Hc1)) in Erun.
    set (c2 := c1 <| rbase := u32 (mem_start c1 - rbase_offset c1) |> <| stack_top := mem_start c1 |>) in Erun.
    set (k2 := k1 <| procs := _ |>) in Erun. pose proof (free_beside_used _ _ _ _ Hf Hused Hnp) as Hbeside.
    assert (HP : PAGE_LEN = 1024) by done.
    destruct (copy_pages_spec (Z.to_nat np) (S (Z.to_nat ((heap_bottom p - mem_start p) / PAGE_LEN + 1))) k2 (pg * 1024) a)
      as (mem & Ec & M); [rewrite HP; zlia|lia..|].
    replace (pg * 1024 + Z.of_nat (Z.to_nat np) * 1024 - 1) with (heap_bottom p) in Ec by lia. rewrite Hms in Erun, Ec.
    rewrite (bind_run _ _ _ _ _ Ec) in Erun. set (k3 := k2 <| kmem := mem |>) in Erun.
    exists OK, k3, c2. split; [exact Erun|]. split; [change (procs k3) with (<[child := c2]> (<[child := c1]> (procs k))); by rewrite insert_insert_eq|].
    split; [done|]. right. split; [done|]. exists q. change (mem_start c2) with a. change (kmem k3) with mem.
    split; [done|]. split; [done|]. split; [done|]. split; [done|]. split; [done|]. split; [done|]. split; [done|]. split; [done|]. split.
    + intros o Ho. rewrite M. rewrite (proj2 (Z.leb_le _ _)), (proj2 (Z.ltb_lt _ _)) by lia. cbn. rewrite Hms.
      change (kmem k2) with (kmem k). f_equal. lia.
    + intros x Hx. rewrite M. destruct (Z.leb_spec a x), (Z.ltb_spec x (a + Z.of_nat (Z.to_nat np) * 1024)); cbn; try done. lia.
Qed.

(** Process 3 occupies pages 2 and 3; process 4 is the child. *)
Definition fork_mm : mmst := mkMm [0xf0000000; 0; 0; 1] 2.
Definition fork_par : proc := sample_proc 3 <| mem_start := 2048 |> <| heap_bottom := 4095 |>.
Definition fork_child : proc := sample_proc 4 <| protection_table := replicate 32 0 |>.
Definition fork_k : kst :=
  sample_k <| procs := <[4 := fork_child]> (<[3 := fork_par]> (procs sample_k)) |>
    <| kslab := empty_slab <| sl_mm := fork_mm |> |> <| kmem := fun a => a |>.

Lemma fork_mm_inv : mm_inv fork_mm.
Proof.
  split; cbn [mem_map bss_page_end fork_mm]; [split; [reflexivity|]|lia| |reflexivity].
  - repeat (apply Forall_cons; split; [by split|]). by apply Forall_nil.
  - intros p Hp. assert (p = 0 \/ p = 1) as [->| ->] by lia; reflexivity.
Qed.

Lemma copy_mm_copies_witness :
  exists r k' c', copy_mm 3 4 fork_k = Some (r, k') /\ procs k' = <[4 := c']> (procs fork_k) /\
    (r = OK -> forall o, 0 <= o < 2048 -> kmem k' (mem_start c' + o) = 2048 + o).
Proof.
  destruct (copy_mm_copies fork_k 3 4 fork_par fork_child 2 2) as (r & k' & c' & E & P & _ & Hcase).
  - vm_compute; reflexivity.
  - vm_compute; reflexivity.
  - done.
  - reflexivity.
  - reflexivity.
  - exact fork_mm_inv.
  - split; [reflexivity|]. split; [reflexivity|]. lia.
  - intros x Hx. change (bit [0xf0000000; 0; 0; 1] x = true). assert (x = 2 \/ x = 3) as [->| ->] by lia; reflexivity.
  - exists r, k', c'. split; [exact E|]. split; [exact P|]. intros ->.
    destruct Hcase as [[Hr _]|(_ & q & _ & _ & _ & _ & _ & _ & _ & _ & Hcopy & _)]; [discriminate Hr|].
    intros o Ho. rewrite Hcopy by lia. reflexivity.
Defined.
