(* ===== verification/Fsys.v ===== *)
(** * fs/system and fs/path.c: the file system calls

    [eat_path] resolves a path read from the caller's memory; the calls below it
    work on inodes, descriptors and the open files behind them. *)
From S2P Require Import Prelude Bitmap Mm Linked CString Timer Slab Kernel Proc Ipc Cache Inode Signal Filp Pipe Rootfs Exit Syscalls.

Definition DIRSIZ : Z := 32.
Definition SEEK_SET : Z := 0.
Definition SEEK_CUR : Z := 1.
Definition SEEK_END : Z := 2.
Definition F_GETFL : Z := 3.
Definition F_SETFL : Z := 4.

(** ** fs/path.c *)

(** Result, [*last_dir], [*ret_ino] and the last component. *)
Definition eat_path (who : Z) (path : list Z) : K (Z * option Z * option Z * list Z) :=
  p ← getp who;
  _ ← (if bool_decide (fp_workdir p = None) || bool_decide (fp_rootdir p = None) then
         curr_dir ← on_fs (get_inode ROOT_INODE_NUM ROOTFS_DEV);
         updp who (fun p => p <| fp_workdir := Some curr_dir |> <| fp_rootdir := Some curr_dir |>)
       else mret tt);
  p ← getp who;
  curr_dir ← liftO (if bool_decide (head path = Some 47) then fp_rootdir p else fp_workdir p);
  _ ← kupdi curr_dir (fun i => i <| i_count ::= Z.succ |>);
  on_fs (__eath_path curr_dir path).

Definition get_inode_by_path (who : Z) (path : list Z) : K (Z * option Z) :=
  r ← eat_path who path;
  let '(ret, lastdir, inode, _) := (r : Z * option Z * option Z * list Z) in
  _ ← on_fs (put_inode lastdir false);
  mret (ret, inode).

(** ** open_close.c *)
Definition sys_close (who fd : Z) : K Z :=
  ok ← is_fd_opened_and_valid who fd;
  if negb ok then mret EBADF
  else
    f ← get_fp who fd;
    filp ← liftO f;
    ret ← filp_close filp;
    if negb (ret =? 0) then mret ret
    else _ ← set_fp who fd None; mret OK.

(** The file is missing: create it in [lastdir], which is dereferenced. *)
Definition open_create (who dev mode : Z) (lastdir : option Z) (string : list Z) : K (Z + Z) :=
  p ← getp who;
  a ← on_fs (alloc_inode (uid p) (gid p) dev dev);
  match a with
  | None => mret (inl ENOSPC)
  | Some inode =>
      dir ← liftO lastdir;
      ret ← on_fs (add_inode_to_directory (uid p) (gid p) dir inode string);
      if negb (ret =? 0) then _ ← on_fs (release_inode inode); mret (inl ret)
      else
        _ ← kupdi inode (fun i => i <| i_mode := Z.lor (device_type dev) (Z.ldiff mode (umask p)) |>);
        mret (inr inode)
  end.

(** From a found or created inode (or, for the path "/", the directory itself). *)
Definition open_inode (who flags : Z) (inode : Z) : K Z :=
  r ← get_fd who 0;
  let '(ret, open_slot, filp) := (r : Z * Z * Z) in
  if negb (ret =? 0) then mret ret
  else
    _ ← when (has flags O_TRUNC) (_ ← on_fs (truncate_inode inode); mret tt);
    _ ← init_filp_by_inode filp inode;
    i ← kgeti inode;
    _ ← when (has flags O_APPEND) (updf filp (fun f => f <| filp_pos := i_size i |>));
    _ ← updf filp (fun f => f <| filp_mode := i_mode i |> <| filp_flags := flags |>);
    _ ← set_fp who open_slot (Some filp);
    o ← fops (i_dev i);
    ret ← fop_open o (i_dev i) filp;
    if negb (ret =? 0) then mret ret else mret open_slot.

Definition _sys_open (who : Z) (path : list Z) (flags mode devid : Z) : K Z :=
  match get_dev devid with
  | None => mret ENXIO
  | Some dev =>
      r ← eat_path who path;
      let '(ret, lastdir, inode, string) := (r : Z * option Z * option Z * list Z) in
      if negb (ret =? 0) then mret ret
      else
        let final ret := _ ← on_fs (put_inode lastdir false); mret ret in
        match inode with
        | Some ino =>
            i ← kgeti ino;
            if has flags O_EXCL && has flags O_CREAT then final EEXIST
            else if has (i_mode i) S_IFDIR && has flags O_WRONLY then final EISDIR
            else ret ← open_inode who flags ino; final ret
        | None =>
            if bool_decide (string = []) then
              dir ← liftO lastdir;
              ret ← open_inode who flags dir; final ret
            else if negb (has flags O_CREAT) then final ENOENT
            else
              c ← open_create who dev mode lastdir string;
              match (c : Z + Z) with
              | inl ret => final ret
              | inr ino => ret ← open_inode who flags ino; final ret
              end
        end
  end.

Definition sys_open (who : Z) (path : list Z) (flags mode : Z) : K Z := _sys_open who path flags mode ROOT_DEV.
Definition sys_creat (who : Z) (path : list Z) (mode : Z) : K Z := sys_open who path (Z.lor O_CREAT O_EXCL) mode.

(** The path at [va] of the caller, if it is accessible. *)
Definition with_path (who va err : Z) (f : list Z -> K Z) : K Z :=
  ok ← vaddr_ok who va;
  if negb ok then mret err
  else a ← phys who va; path ← kstring a; f path.

Definition do_open (who m : Z) : K Z :=
  msg ← rd_message m;
  with_path who (m1_p1 msg) EFAULT (fun path => sys_open who path (u32 (m1_i1 msg)) (u32 (m1_i2 msg))).

Definition do_creat (who m : Z) : K Z :=
  msg ← rd_message m;
  with_path who (m1_p1 msg) EFAULT (fun path => sys_creat who path (u32 (m1_i1 msg))).

Definition do_close (who m : Z) : K Z := msg ← rd_message m; sys_close who (s32 (m1_i1 msg)).

(** ** read_write.c *)
Definition set_caller (who : Z) : K unit := modifyS (fun k => k <| curr_user_proc := Some who |>).

Definition sys_read (who fd buf count : Z) : K Z :=
  _ ← set_caller who;
  ok ← is_fd_opened_and_valid who fd;
  if negb ok then mret EBADF
  else
    f ← get_fp who fd;
    file ← liftO f;
    x ← getf file;
    o ← fops (filp_dev x);
    fop_read o file buf count (filp_pos x).

Definition sys_write (who fd buf count : Z) : K Z :=
  _ ← set_caller who;
  ok ← is_fd_opened_and_valid who fd;
  if negb ok then mret EBADF
  else
    f ← get_fp who fd;
    file ← liftO f;
    x ← getf file;
    o ← fops (filp_dev x);
    fop_write o file buf count (filp_pos x).

Definition do_read (who m : Z) : K Z :=
  msg ← rd_message m;
  buf ← phys who (m1_p1 msg);
  ok ← vaddr_ok who (m1_p1 msg);
  if negb ok then mret EACCES else sys_read who (s32 (m1_i1 msg)) buf (u32 (m1_i2 msg)).

Definition do_write (who m : Z) : K Z :=
  msg ← rd_message m;
  buf ← phys who (m1_p1 msg);
  ok ← vaddr_ok who (m1_p1 msg);
  if negb ok then mret EACCES else sys_write who (s32 (m1_i1 msg)) buf (u32 (m1_i2 msg)).

(** ** dup.c *)
Definition share_file (who from_fd to_fd : Z) : K unit :=
  f ← get_fp who from_fd;
  _ ← set_fp who to_fd f;
  file1 ← liftO f;
  updf file1 (fun x => x <| filp_count ::= Z.succ |>).

Definition sys_dup (who oldfd : Z) : K Z :=
  ok ← is_fd_opened_and_valid who oldfd;
  if negb ok then mret EBADF
  else
    r ← get_fd who 0;
    let '(ret, open_slot, _) := (r : Z * Z * Z) in
    if negb (ret =? 0) then mret ret
    else _ ← share_file who oldfd open_slot; mret open_slot.

Definition sys_dup2 (who oldfd newfd : Z) : K Z :=
  ok ← is_fd_opened_and_valid who oldfd;
  if negb ok then mret EBADF
  else if (newfd <? 0) || (newfd >=? OPEN_MAX) then mret EBADF
  else
    r ← get_fd who 0;
    let '(ret, _, _) := (r : Z * Z * Z) in
    if negb (ret =? 0) then mret ret
    else
      f ← get_fp who newfd;
      ret ← (if bool_decide (f <> None) then sys_close who newfd else mret 0);
      if negb (ret =? 0) then mret ret
      else _ ← share_file who oldfd newfd; mret newfd.

Definition do_dup (who m : Z) : K Z := msg ← rd_message m; sys_dup who (s32 (m1_i1 msg)).
Definition do_dup2 (who m : Z) : K Z :=
  msg ← rd_message m; sys_dup2 who (s32 (m1_i1 msg)) (s32 (m1_i2 msg)).

(** ** pipe.c *)
Definition do_pipe (who m : Z) : K Z :=
  msg ← rd_message m; fds ← phys who (m1_p1 msg); sys_pipe who fds.

(** ** lseek.c *)
Definition ALIGN1K (x : Z) : Z := u32 (Z.shiftl (Z.shiftr (u32 (x - 1)) 10) 10 + 1023).

(** Sizes are unsigned; ENOSPC of [alloc_block] is stored as a block number. *)
Fixpoint extend_loop (ixs : list Z) (ino : Z) (user_increment allocated : Z) : F Z :=
  match ixs with
  | [] => mret allocated
  | i :: ixs' =>
      x ← geti ino;
      bnr ← liftO (aget (i_zone x) i);
      if (bnr =? 0) && (user_increment >? 0) then
        a ← alloc_block ino (i_dev x);
        _ ← updi ino (fun x => x <| i_zone ::= <[Z.to_nat i := u32 a]> |>);
        extend_loop ixs' ino (u32 (user_increment - BLOCK_SIZE)) (allocated + BLOCK_SIZE)
      else extend_loop ixs' ino user_increment allocated
  end.

Definition extend_file (file count : Z) : K Z :=
  f ← getf file;
  ino ← liftO (filp_ino f);
  i ← kgeti ino;
  if count <? i_total_size i then
    _ ← updf file (fun f => f <| filp_pos := count |>);
    mret (s32 count)
  else on_fs (extend_loop (seqZ 0 NR_TZONES) ino (ALIGN1K (u32 (count - i_total_size i))) 0).

Definition sys_lseek (who fd offset whence : Z) : K Z :=
  ok ← is_fd_opened_and_valid who fd;
  if negb ok then mret EBADF
  else
    f ← get_fp who fd;
    file ← liftO f;
    x ← getf file;
    ino ← liftO (filp_ino x);
    i ← kgeti ino;
    if has (i_flags i) INODE_FLAG_PIPE then mret ESPIPE
    else if whence =? SEEK_SET then extend_file file (u32 offset)
    else if whence =? SEEK_CUR then extend_file file (u32 (filp_pos x + offset))
    else if whence =? SEEK_END then extend_file file (u32 (i_total_size i + offset))
    else mret EINVAL.

Definition do_lseek (who m : Z) : K Z :=
  msg ← rd_message m; sys_lseek who (s32 (m1_i1 msg)) (u32 (m1_i2 msg)) (s32 (m1_i3 msg)).

(** ** link_unlink.c *)
Definition sys_link (who : Z) (oldpath newpath : list Z) : K Z :=
  r ← get_inode_by_path who oldpath;
  let '(ret, oldinode) := (r : Z * option Z) in
  let failed_1 ret := _ ← (match oldinode with Some o => _ ← on_fs (put_inode (Some o) false); mret tt | None => mret tt end); mret ret in
  if negb (ret =? 0) then failed_1 ret
  else
    r ← eat_path who newpath;
    let '(ret, lastdir, newinode, string) := (r : Z * option Z * option Z * list Z) in
    let final ret :=
      _ ← (match newinode with Some n => _ ← on_fs (put_inode (Some n) false); mret tt | None => mret tt end);
      _ ← (match lastdir with Some d => _ ← on_fs (put_inode (Some d) (ret =? OK)); mret tt | None => mret tt end);
      failed_1 ret in
    if negb (ret =? 0) then final ret
    else if bool_decide (newinode <> None) then final EEXIST
    else
      p ← getp who;
      dir ← liftO lastdir;
      old ← liftO oldinode;
      ret ← on_fs (add_inode_to_directory (uid p) (gid p) dir old string);
      final ret.

Definition sys_unlink (who : Z) (path : list Z) : K Z :=
  r ← eat_path who path;
  let '(ret, lastdir, inode, string) := (r : Z * option Z * option Z * list Z) in
  let final ret := _ ← on_fs (put_inode lastdir false); mret ret in
  if negb (ret =? 0) then final ret
  else
    match inode with
    | None => final ENOENT
    | Some ino =>
        i ← kgeti ino;
        if S_ISDIR (i_mode i) then final EISDIR
        else
          p ← getp who;
          dir ← liftO lastdir;
          ret ← on_fs (remove_inode_from_dir (uid p) (gid p) dir ino string);
          _ ← on_fs (put_inode (Some ino) false);
          i ← kgeti ino;
          ret ← (if (i_nlinks i =? 0) && (i_count i =? 0) then on_fs (release_inode ino) else mret ret);
          final ret
    end.

Definition do_link (who m : Z) : K Z :=
  msg ← rd_message m;
  ok1 ← vaddr_ok who (m1_p1 msg);
  if negb ok1 then mret EACCES
  else
    ok2 ← vaddr_ok who (m1_p2 msg);
    if negb ok2 then mret EACCES
    else
      a ← phys who (m1_p1 msg); old ← kstring a;
      b ← phys who (m1_p2 msg); new ← kstring b;
      sys_link who old new.

Definition do_unlink (who m : Z) : K Z :=
  msg ← rd_message m; with_path who (m1_p1 msg) EACCES (sys_unlink who).

(** ** chdir_mkdir.c *)
Definition sys_chdir (who : Z) (pathname : list Z) : K Z :=
  r ← get_inode_by_path who pathname;
  let '(ret, inode) := (r : Z * option Z) in
  if negb (ret =? 0) then mret ret
  else
    match inode with
    | None => mret EEXIST
    | Some ino =>
        i ← kgeti ino;
        if negb (S_ISDIR (i_mode i)) then _ ← on_fs (put_inode (Some ino) false); mret ENOTDIR
        else
          p ← getp who;
          _ ← updp who (fun p => p <| fp_workdir := Some ino |>);
          _ ← on_fs (put_inode (fp_workdir p) false);
          mret OK
    end.

(** The result of [alloc_block] goes into the zone unchecked. *)
Definition sys_mkdir (who : Z) (pathname : list Z) (mode : Z) : K Z :=
  r ← eat_path who pathname;
  let '(ret, lastdir, inode, string) := (r : Z * option Z * option Z * list Z) in
  if negb (ret =? 0) then mret ret
  else
    let final_dir ret dirty := _ ← on_fs (put_inode lastdir dirty); mret ret in
    let final ino ret dirty := _ ← on_fs (put_inode ino dirty); final_dir ret dirty in
    if bool_decide (inode <> None) then final inode EEXIST false
    else
      p ← getp who;
      dir ← liftO lastdir;
      d ← kgeti dir;
      a ← on_fs (alloc_inode (uid p) (gid p) (i_dev d) (i_dev d));
      match a with
      | None => final None ENOSPC false
      | Some ino =>
          _ ← kupdi ino (fun i => i <| i_mode := Z.lor S_IFDIR (Z.ldiff mode (umask p)) |>);
          bnr ← on_fs (alloc_block ino (i_dev d));
          _ ← kupdi ino (fun i => i <| i_zone ::= <[0%nat := u32 bnr]> |> <| i_size := BLOCK_SIZE |>);
          _ ← on_fs (init_dirent dir ino);
          ret ← on_fs (add_inode_to_directory (uid p) (gid p) dir ino string);
          if negb (ret =? 0) then _ ← on_fs (release_inode ino); final_dir ret false
          else final (Some ino) ret true
      end.

Definition do_chdir (who m : Z) : K Z :=
  msg ← rd_message m; with_path who (m1_p1 msg) EFAULT (sys_chdir who).

Definition do_mkdir (who m : Z) : K Z :=
  msg ← rd_message m;
  with_path who (m1_p1 msg) EFAULT (fun path => sys_mkdir who path (u32 (m1_i1 msg))).

(** ** mknod.c *)
Definition sys_mknod (who : Z) (path : list Z) (mode devid : Z) : K Z :=
  match get_dev devid with
  | None => mret ENXIO
  | Some dev =>
      r ← eat_path who path;
      let '(ret, lastdir, inode, string) := (r : Z * option Z * option Z * list Z) in
      if negb (ret =? 0) then mret ret
      else
        let final ino ret :=
          _ ← on_fs (put_inode ino false); _ ← on_fs (put_inode lastdir (ret =? 0)); mret ret in
        if bool_decide (inode <> None) || bool_decide (string = []) then final inode EEXIST
        else
          p ← getp who;
          dir ← liftO lastdir;
          d ← kgeti dir;
          a ← on_fs (alloc_inode (uid p) (gid p) (i_dev d) dev);
          match a with
          | None => final None ENOSPC
          | Some ino =>
              ret ← on_fs (add_inode_to_directory (uid p) (gid p) dir ino string);
              if negb (ret =? 0) then _ ← on_fs (release_inode ino); final (Some ino) ret
              else
                _ ← kupdi ino (fun i => i <| i_mode := Z.lor (device_type dev) (Z.ldiff mode (umask p)) |>);
                final (Some ino) ret
          end
  end.

Definition do_mknod (who m : Z) : K Z :=
  msg ← rd_message m;
  with_path who (m1_p1 msg) EACCES (fun path => sys_mknod who path (u32 (m1_i1 msg)) (u32 (m1_i2 msg))).

(** ** chown_chmod.c, umask_access.c *)
Definition sys_chmod (who : Z) (pathname : list Z) (mode : Z) : K Z :=
  r ← get_inode_by_path who pathname;
  let '(ret, inode) := (r : Z * option Z) in
  if negb (ret =? 0) then mret ret
  else
    match inode with
    | None => mret ENOENT
    | Some ino =>
        _ ← kupdi ino (fun i => i <| i_mode := mode |>);
        _ ← on_fs (put_inode (Some ino) true);
        mret OK
    end.

Definition do_chmod (who m : Z) : K Z :=
  msg ← rd_message m;
  with_path who (m1_p1 msg) EFAULT (fun path => sys_chmod who path (u32 (m1_i1 msg))).

Definition do_chown (who m : Z) : K Z :=
  msg ← rd_message m;
  ok ← vaddr_ok who (m1_p1 msg); mret (if negb ok then EFAULT else EINVAL).

Definition sys_umask (who mask : Z) : K Z :=
  p ← getp who;
  _ ← updp who (fun p => p <| umask := Z.land mask 0x777 |>);
  mret (umask p).

Definition do_umask (who m : Z) : K Z := msg ← rd_message m; sys_umask who (u32 (m1_i1 msg)).

(** Only root, whose rights are not looked up in the inode, may pass a NULL inode. *)
Definition sys_access (who : Z) (pathname : list Z) (mode : Z) : K Z :=
  r ← get_inode_by_path who pathname;
  let '(ret, ino) := (r : Z * option Z) in
  if mode =? F_OK then
    if bool_decide (ino = None) then mret ENOENT
    else _ ← on_fs (put_inode ino false); mret ret
  else
    p ← getp who;
    has_access ← (if uid p =? 0 then mret true
                  else i ← liftO ino; x ← kgeti i; mret (has_file_access (uid p) (gid p) x mode));
    _ ← on_fs (put_inode ino false);
    mret (if has_access : bool then OK else EACCES).

(** The address is not checked. *)
Definition do_access (who m : Z) : K Z :=
  msg ← rd_message m;
  a ← phys who (m1_p1 msg);
  path ← kstring a;
  sys_access who path (s32 (m1_i1 msg)).

(** ** stat.c, statfs.c, sync.c *)
Definition stat_words (i : inode_t) : list Z :=
  [ dev_id (i_dev i); i_num i; i_mode i; i_nlinks i; i_uid i; i_gid i; dev_id (i_dev i); i_size i;
    BLOCK_SIZE; get_inode_blocks i; i_atime i; i_mtime i; i_ctime i ].

Definition set_statbuf (inode statbuf : Z) : K unit :=
  i ← kgeti inode;
  modifyS (fun k => k <| kmem ::= (fun m => wr_words m statbuf (stat_words i)) |>).

Definition sys_fstat (who fd statbuf : Z) : K Z :=
  ok ← is_fd_opened_and_valid who fd;
  if negb ok then mret EBADF
  else
    f ← get_fp who fd;
    file ← liftO f;
    x ← getf file;
    ino ← liftO (filp_ino x);
    _ ← set_statbuf ino statbuf;
    mret OK.

Definition sys_stat (who : Z) (pathname : list Z) (statbuf : Z) : K Z :=
  r ← get_inode_by_path who pathname;
  let '(ret, inode) := (r : Z * option Z) in
  if negb (ret =? 0) then mret ret
  else
    match inode with
    | None => mret ENOENT
    | Some ino =>
        _ ← set_statbuf ino statbuf;
        _ ← on_fs (put_inode (Some ino) false);
        mret OK
    end.

Definition do_stat (who m : Z) : K Z :=
  msg ← rd_message m;
  ok1 ← vaddr_ok who (m1_p1 msg);
  if negb ok1 then mret EACCES
  else
    ok2 ← vaddr_ok who (m1_p2 msg);
    if negb ok2 then mret EACCES
    else
      a ← phys who (m1_p1 msg);
      path ← kstring a;
      b ← phys who (m1_p2 msg);
      sys_stat who path b.

Definition do_fstat (who m : Z) : K Z :=
  msg ← rd_message m;
  ok ← vaddr_ok who (m1_p1 msg);
  if negb ok then mret EACCES
  else b ← phys who (m1_p1 msg); sys_fstat who (s32 (m1_i1 msg)) b.

Definition statfs_words (sb : superblock) : list Z :=
  [ sb_magic sb; Z.quot (s32 (s_block_size sb)) 4; u32 (s_block_inuse sb + s_free_blocks sb); s_free_blocks sb;
    s_free_blocks sb; u32 (s_inode_inuse sb + s_free_inodes sb); s_free_inodes sb; DIRNAME_LEN ].

Definition sys_statfs (who : Z) (path : list Z) (buf : Z) : K Z :=
  r ← eat_path who path;
  let '(ret, last_dir, inode, _) := (r : Z * option Z * option Z * list Z) in
  if negb (ret =? 0) then mret ret
  else
    let final ret := _ ← on_fs (put_inode last_dir false); _ ← on_fs (put_inode inode false); mret ret in
    match last_dir with
    | None => final ENOENT
    | Some d =>
        i ← kgeti d;
        if negb (i_dev i =? ROOTFS_DEV) then final ENOSYS
        else
          sb ← on_fs (get_sb (i_dev i));
          _ ← modifyS (fun k => k <| kmem ::= (fun m => wr_words m buf (statfs_words sb)) |>);
          final ret
    end.

Definition do_statfs (who m : Z) : K Z :=
  msg ← rd_message m;
  ok1 ← vaddr_ok who (m1_p1 msg);
  if negb ok1 then mret EFAULT
  else
    ok2 ← vaddr_ok who (m1_p2 msg);
    if negb ok2 then mret EFAULT
    else
      a ← phys who (m1_p1 msg); path ← kstring a;
      b ← phys who (m1_p2 msg);
      sys_statfs who path b.

Definition do_sync (who m : Z) : K Z := mret OK.

(** ** fcntl.c, ioctl.c *)
Definition __sys_fcntl (who fd cmd arg : Z) : K Z :=
  ok ← is_fd_opened_and_valid who fd;
  if negb ok then mret EBADF
  else
    f ← get_fp who fd;
    file ← liftO f;
    x ← getf file;
    if cmd =? F_GETFL then mret (s32 (filp_flags x))
    else if cmd =? F_SETFL then
      a ← phys who arg; v ← rd a;
      _ ← updf file (fun x => x <| filp_flags := v |>);
      mret OK
    else mret EINVAL.

Definition do_fcntl (who m : Z) : K Z :=
  msg ← rd_message m; __sys_fcntl who (s32 (m1_i1 msg)) (s32 (m1_i2 msg)) (m1_p1 msg).

Definition _sys_ioctl (who fd request arg : Z) : K Z :=
  ok ← is_fd_opened_and_valid who fd;
  if negb ok then mret EBADF
  else
    acc ← vaddr_ok who arg;
    if negb acc then mret EFAULT
    else
      f ← get_fp who fd;
      file ← liftO f;
      ptr ← phys who arg;
      x ← getf file;
      o ← fops (filp_dev x);
      fop_ioctl o file request ptr.

Definition do_ioctl (who m : Z) : K Z :=
  msg ← rd_message m; _sys_ioctl who (s32 (m1_i1 msg)) (s32 (m1_i2 msg)) (m1_p1 msg).

(** ** getcwd.c: the path is written from the end of the buffer.  Every round goes
    one directory up; a longer chain than [size] leaves the loop by ERANGE. *)
Fixpoint getcwd_loop (fuel : nat) (inode len size p : Z) : K (Z * Z * Z) :=
  match fuel with
  | O => crash
  | S f =>
      i ← kgeti inode;
      if i_num i =? ROOT_INODE_NUM then mret (OK, inode, p)
      else
        inum ← on_fs (get_parent_inode_num inode);
        parent_inode ← on_fs (get_inode inum (i_dev i));
        r ← on_fs (get_child_inode_name parent_inode inode);
        let '(ret, string) := (r : Z * list Z) in
        if ret =? ERR then mret (EFAULT, inode, p)
        else
          _ ← on_fs (put_inode (Some inode) false);
          if len + (ret + 1) >=? size then mret (ERANGE, parent_inode, p)
          else
            _ ← wr (p - 1) 47;
            let p := p - 1 - ret in
            _ ← modifyS (fun k => k <| kmem ::= (fun m => wr_words m p string) |>);
            getcwd_loop f parent_inode (len + (ret + 1)) size p
  end.

Definition sys_getcwd (who pathname size : Z) : K Z :=
  ok1 ← vaddr_ok who pathname;
  if negb ok1 then mret EFAULT
  else
    ok2 ← vaddr_ok who (u32 (pathname + size));
    if negb ok2 then mret EFAULT
    else if size <=? 1 then mret ERANGE
    else
      a ← phys who (u32 (pathname + size));
      _ ← wr a 0;
      pr ← getp who;
      inode ← liftO (fp_workdir pr);
      _ ← kupdi inode (fun i => i <| i_count ::= Z.succ |>);
      r ← getcwd_loop (S (Z.to_nat size)) inode 1 size a;
      let '(ret, inode, p) := (r : Z * Z * Z) in
      ret ← (if ret =? OK then _ ← wr (p - 1) 47; mret (s32 (get_virtual_addr (p - 1) (rbase pr))) else mret ret);
      _ ← on_fs (put_inode (Some inode) false);
      mret ret.

Definition do_getcwd (who m : Z) : K Z :=
  msg ← rd_message m; sys_getcwd who (m1_p1 msg) (s32 (m1_i1 msg)).

(** ** getdent.c *)
Definition ent_words (w : list Z) (e : Z) : option (list Z) :=
  mapM (fun i => aget w (e + i)) (seqZ 0 DIRENT_LEN).

(** One block: the entries from [dirstream_nr] on; the result is the number still
    wanted, the bytes copied, the destination and the next entry. *)
Fixpoint getdents_block (n : nat) (file : Z) (w : list Z) (nr dst count ret : Z) : K (Z * Z * Z * Z) :=
  match n with
  | O => mret (count, ret, dst, nr)
  | S n' =>
      if (nr * WINIX_DIRENT_LEN >=? BLOCK_SIZE) || (count =? 0) then mret (count, ret, dst, nr)
      else
        ino ← liftO (aget w (d_ino_off (nr * WINIX_DIRENT_LEN)));
        if s32 ino >? 0 then
          ws ← liftO (ent_words w (nr * WINIX_DIRENT_LEN));
          _ ← modifyS (fun k => k <| kmem ::= (fun m => wr_words m dst ws) |>);
          _ ← updf file (fun x => x <| getdents_dirstream_nr := nr + 1 |>);
          getdents_block n' file w (nr + 1) (dst + DIRENT_LEN) (count - 1) (ret + DIRENT_LEN)
        else getdents_block n' file w (nr + 1) dst count ret
  end.

Fixpoint getdents_loop (zs : list Z) (file dirp nr dst count ret : Z) : K Z :=
  match zs with
  | [] => mret ret
  | i :: zs' =>
      d ← kgeti dirp;
      bnr ← liftO (aget (i_zone d) i);
      if bnr >? 0 then
        buf ← on_fs (Cache.get_block bnr (i_dev d));
        w ← on_fs (get_words buf);
        r ← getdents_block 33 file w nr dst count ret;
        let '(count', ret', dst', nr') := (r : Z * Z * Z * Z) in
        _ ← when (negb (count' =? 0)) (updf file (fun x => x <| getdents_zone_nr ::= Z.succ |>));
        _ ← on_fs (put_block_buffer buf);
        getdents_loop zs' file dirp (if count' =? 0 then nr' else 0) dst' count' ret'
      else getdents_loop zs' file dirp nr dst count ret
  end.

Definition sys_getdents (who fd dirp_dst count : Z) : K Z :=
  ok ← is_fd_opened_and_valid who fd;
  if negb ok then mret EACCES
  else
    f ← get_fp who fd;
    file ← liftO f;
    x ← getf file;
    dirp ← liftO (filp_ino x);
    d ← kgeti dirp;
    if negb (S_ISDIR (i_mode d)) then mret ENOTDIR
    else
      let z := getdents_zone_nr x in
      getdents_loop (seqZ z (NR_TZONES - z)) file dirp (getdents_dirstream_nr x) dirp_dst count 0.

Definition do_getdents (who m : Z) : K Z :=
  msg ← rd_message m;
  path ← phys who (m1_p1 msg);
  ok ← vaddr_ok who (m1_p1 msg);
  if negb ok then mret EACCES else sys_getdents who (s32 (m1_i1 msg)) path (u32 (m1_i2 msg)).
