(* ===== verification/Files.v ===== *)
(** * Files of several blocks

    [sys_write], [sys_lseek] and [sys_read] on a file of the root device: blocks
    are allocated as the file grows, and what is written is what is read back,
    whatever the blocks it lies in.  The file refines a map from offsets to words. *)
From S2P Require Import Prelude Bitmap Mm Linked CString Timer Slab Kernel Proc Ipc Cache Coherence Blocks Inode Dirs Alloc Signal Filp Pipe Fifo Rootfs FileIO Fsys.

Definition MAX_FILE : Z := NR_TZONES * BLOCK_SIZE.

(** ** The words of a file *)

(** The word at an offset of a file; [None] in a hole. *)
Definition fword (s : fsst) (ino : inode_t) (o : Z) : option Z :=
  match zone_of ino (o / BLOCK_SIZE) with
  | Some z => if z =? 0 then None else view_of s z !! Z.to_nat (o mod BLOCK_SIZE)
  | None => None
  end.

(** Zones a file does not have yet, and blocks of the disk nobody has. *)
Definition holes (ino : inode_t) : nat := length (filter (fun z => z = 0) (i_zone ino)).
Definition free_blocks (used : Z -> bool) : nat := length (filter (fun b => used b = false) (seqZ 1 (NBLOCKS - 1))).

(** An open file whose blocks are its own, on a disk with room for the zones it
    does not have. *)
Record file_rep (bm : Z) (used : Z -> bool) (k : kst) (file i : Z) (f : filp_t) (ino : inode_t) : Prop := {
  fr_open : open_file k file i f ino;
  fr_pos : is_u32 (filp_pos f);
  fr_size : is_u32 (i_size ino);
  fr_map : map_rep bm used (kfs k);
  fr_bm : used bm = true;
  fr_dev : i_dev ino = ROOTFS_DEV;
  fr_flags : has (i_flags ino) INODE_FLAG_PIPE = false;
  fr_len : alen (i_zone ino) = NR_TZONES;
  fr_blocks : forall j z, zone_of ino j = Some z -> z <> 0 -> is_block z /\ z <> bm /\ used z = true;
  fr_inj : forall j1 j2 z, zone_of ino j1 = Some z -> zone_of ino j2 = Some z -> z <> 0 -> j1 = j2;
  fr_total : i_total_size ino = BLOCK_SIZE * (NR_TZONES - Z.of_nat (holes ino));
  fr_room : (holes ino <= free_blocks used)%nat
}.

(** What an operation keeps: the blocks in use that are not of this file, the other
    open files and inodes, and the room that is left when the holes are filled. *)
Record grows (bm file i : Z) (s : fsst) (ino : inode_t) (used : Z -> bool) (s' : fsst) (ino' : inode_t) (used' : Z -> bool) : Prop := {
  gr_used : forall x, used x = true -> used' x = true;
  gr_zone : forall j z, zone_of ino j = Some z -> z <> 0 -> zone_of ino' j = Some z;
  gr_new : forall j z, zone_of ino' j = Some z -> z <> 0 -> zone_of ino j = Some z \/ used z = false;
  gr_others : forall m, m <> 0 -> m <> bm -> used m = true -> (forall j, zone_of ino j <> Some m) -> view_of s' m = view_of s m;
  gr_files : forall x, 0 <= x -> x <> file -> aget (fd_table s') x = aget (fd_table s) x;
  gr_inodes : forall x, 0 <= x -> x <> i -> aget (inode_table s') x = aget (inode_table s) x;
  gr_room : (free_blocks used + holes ino' <= free_blocks used' + holes ino)%nat
}.

Lemma grows_refl bm file i s ino used : grows bm file i s ino used s ino used.
Proof. split; auto. Qed.

Lemma grows_trans bm file i s1 n1 u1 s2 n2 u2 s3 n3 u3 :
  grows bm file i s1 n1 u1 s2 n2 u2 -> grows bm file i s2 n2 u2 s3 n3 u3 -> grows bm file i s1 n1 u1 s3 n3 u3.
Proof.
  intros [U1 Z1 N1 V1 F1 I1 R1] [U2 Z2 N2 V2 F2 I2 R2]. split; auto.
  - intros j z Hj Hz. destruct (N2 j z Hj Hz) as [H|H]; [by apply N1|]. right. destruct (u1 z) eqn:E; [|done]. apply U1 in E. congruence.
  - intros m H0 Hb Hu Hm. rewrite V2, V1; auto. intros j Hj. destruct (N1 j m Hj H0) as [H|H]; [by apply (Hm j)|congruence].
  - intros x H0 Hx. rewrite F2, F1; auto.
  - intros x H0 Hx. rewrite I2, I1; auto.
  - lia.
Qed.

(** Nothing but the cache, the memory and the position of the file changes. *)
Lemma grows_same bm file i s ino used s' :
  (forall m, m <> 0 -> view_of s' m = view_of s m) ->
  (forall x, 0 <= x -> x <> file -> aget (fd_table s') x = aget (fd_table s) x) -> inode_table s' = inode_table s ->
  grows bm file i s ino used s' ino used.
Proof. intros V F I. split; auto. intros x _ _. by rewrite I. Qed.

(** ** Counting zones and blocks *)
Lemma filter_length_insert {A} (P : A -> Prop) `{!forall x, Decision (P x)} (l : list A) (i : nat) x y :
  l !! i = Some x -> P x -> ~ P y -> length (filter P l) = S (length (filter P (<[i := y]> l))).
Proof.
  intros Hi Hx Hy. rewrite <- (take_drop_middle l i x Hi) at 1. rewrite insert_take_drop by (by eapply lookup_lt_Some).
  rewrite !filter_app, !length_app, filter_cons_True, filter_cons_False by done. cbn [length]. lia.
Qed.

Lemma holes_fill ino j r :
  zone_of ino j = Some 0 -> r <> 0 -> holes ino = S (holes (ino <| i_zone ::= <[Z.to_nat j := r]> |>)).
Proof.
  intros Hj Hr. unfold zone_of, aget in Hj. case_decide; [|done].
  unfold holes. by apply (filter_length_insert (fun z => z = 0) _ _ 0).
Qed.

Lemma filter_agree {A} (P Q : A -> Prop) `{!forall x, Decision (P x)} `{!forall x, Decision (Q x)} (l : list A) :
  Forall (fun x => P x <-> Q x) l -> filter P l = filter Q l.
Proof.
  induction 1 as [|x l Hx _ IH]; [done|]. destruct (decide (P x)) as [Hp|Hp].
  - rewrite !filter_cons_True by tauto. by rewrite IH.
  - by rewrite !filter_cons_False by tauto.
Qed.

Lemma free_blocks_use used r :
  is_block r -> used r = false -> free_blocks used = S (free_blocks (use used r)).
Proof.
  intros Hr Hu. unfold free_blocks. set (l := seqZ 1 (NBLOCKS - 1)). assert (Hnd : NoDup l) by apply NoDup_seqZ.
  assert (Hin : r ∈ l) by (apply elem_of_seqZ; unfold is_block in Hr; lia). clearbody l.
  induction l as [|b l IH]; [by apply not_elem_of_nil in Hin|]. apply NoDup_cons in Hnd as [Hb Hnd].
  destruct (decide (b = r)) as [->|Hne].
  - rewrite filter_cons_True by done. rewrite filter_cons_False by (unfold use; rewrite bool_decide_true, orb_true_r; done).
    cbn [length]. do 2 f_equal. apply filter_agree, Forall_forall. intros x Hx. unfold use.
    rewrite bool_decide_false, orb_false_r by (intros ->; done). done.
  - apply elem_of_cons in Hin as [->|Hin]; [done|]. specialize (IH Hnd Hin).
    assert (Hiff : used b = false <-> use used r b = false) by (unfold use; rewrite bool_decide_false, orb_false_r by done; done).
    destruct (decide (used b = false)) as [Hf|Hf].
    + rewrite !filter_cons_True by tauto. cbn [length]. by rewrite IH.
    + by rewrite !filter_cons_False by tauto.
Qed.

Lemma least_is_block used r : least_free used r -> (0 < free_blocks used)%nat -> is_block r.
Proof.
  intros (Hr & _ & Hl) Hf. unfold free_blocks in Hf. destruct (filter _ _) as [|b bs] eqn:E; [cbn in Hf; lia|].
  assert (Hb : b ∈ b :: bs) by left. rewrite <- E in Hb. apply list_elem_of_filter in Hb as [Hu Hb%elem_of_seqZ].
  unfold is_block. destruct (decide (b < r)); [|lia]. rewrite Hl in Hu by lia. done.
Qed.

(** ** One block of a write *)
Lemma kfs_eta (k : kst) : k <| kfs := kfs k |> = k.
Proof. by destruct k. Qed.

Lemma fword_keep s ino s' ino' o v :
  fword s ino o = Some v -> (forall j z, zone_of ino j = Some z -> z <> 0 -> zone_of ino' j = Some z) ->
  (forall z, zone_of ino (o / BLOCK_SIZE) = Some z -> z <> 0 -> view_of s' z = view_of s z) -> fword s' ino' o = Some v.
Proof.
  unfold fword. intros H Hz Hv. destruct (zone_of ino _) as [z|] eqn:E; [|done]. destruct (Z.eqb_spec z 0); [done|].
  rewrite (Hz _ _ E) by done. rewrite (proj2 (Z.eqb_neq z 0)) by done. by rewrite Hv.
Qed.

Lemma file_rep_zone bm used k file i f ino j : file_rep bm used k file i f ino -> 0 <= j < NR_TZONES -> is_Some (zone_of ino j).
Proof. intros H Hj. apply aget_in. by rewrite (fr_len _ _ _ _ _ _ _ H). Qed.

(** The inode with block [r] in zone [j]. *)
Definition zoned (ino : inode_t) (j r : Z) : inode_t := grow_inode ino <| i_zone ::= <[Z.to_nat j := r]> |>.

Lemma zone_zoned ino j r j' :
  is_Some (zone_of ino j) -> zone_of (zoned ino j r) j' = if decide (j = j') then Some r else zone_of ino j'.
Proof.
  intros [z Hz%aget_Some_bound]. change (zone_of (zoned ino j r) j') with (aget (<[Z.to_nat j := r]> (i_zone ino)) j'). unfold zone_of.
  destruct (decide (0 <= j')).
  - by rewrite aget_insert by lia.
  - rewrite decide_False by lia. by rewrite !aget_oob by lia.
Qed.

(** A new zone keeps what the file says. *)
Lemma file_rep_zoned bm used k file i f ino j r s1 :
  file_rep bm used k file i f ino -> zone_of ino j = Some 0 -> least_free used r ->
  map_rep bm (use used r) s1 -> allocated bm r i ino (kfs k) s1 ->
  let s2 := s1 <| inode_table := <[Z.to_nat i := zoned ino j r]> (inode_table s1) |> in
  file_rep bm (use used r) (k <| kfs := s2 |>) file i f (zoned ino j r) /\ is_block r /\
  grows bm file i (kfs k) ino used s2 (zoned ino j r) (use used r).
Proof.
  intros [[Of Oi Od Odir Oino] Hp Hsz Hm Hbm Hdev Hfl Hlen Hb Hinj Htot Hroom] Hj Hl Hm1 [As Ai Af Av] s2.
  assert (Hh : holes ino = S (holes (zoned ino j r))) by (apply (holes_fill ino j r Hj); unfold least_free in Hl; lia).
  assert (Hr : is_block r) by (eapply least_is_block; [done|lia]).
  assert (Hur : used r = false) by apply Hl. assert (Hjs : is_Some (zone_of ino j)) by (by eexists).
  assert (Huse : forall x, used x = true -> use used r x = true) by (intros x Hx; unfold use; by rewrite Hx).
  assert (Hz : forall j' z, zone_of (zoned ino j r) j' = Some z -> z <> 0 -> (j' = j /\ z = r) \/ (j' <> j /\ zone_of ino j' = Some z)).
  { intros j' z. rewrite zone_zoned by done. case_decide; intros; simplify_eq; auto. }
  pose proof (fun j' z H H0 => proj2 (proj2 (Hb j' z H H0))) as Hbu. split; [|split; [done|]].
  - split; rewrite ?kfs_kfs; try done.
    + split; rewrite ?kfs_kfs; try done; [by rewrite <- Of; apply f_equal2|].
      change (inode_table s2) with (<[Z.to_nat i := zoned ino j r]> (inode_table s1)). rewrite Ai.
      rewrite list_insert_insert_eq. by eapply aget_insert_same.
    + by destruct Hm1; split.
    + by apply Huse.
    + change (alen (<[Z.to_nat j := r]> (i_zone ino)) = NR_TZONES). by rewrite alen_insert.
    + intros j' z H H0. destruct (Hz j' z H H0) as [[-> ->]|[_ H']].
      * split; [done|]. split; [congruence|]. unfold use. by rewrite bool_decide_true, orb_true_r.
      * destruct (Hb j' z H' H0) as (? & ? & ?). auto.
    + intros j1 j2 z H1 H2 H0. destruct (Hz j1 z H1 H0) as [[-> ->]|[? H1']], (Hz j2 _ H2 H0) as [[-> ?]|[? H2']]; subst; eauto.
      * apply Hbu in H2'; [congruence|done].
      * apply Hbu in H1'; [congruence|done].
    + change (i_total_size (zoned ino j r)) with (u32 (i_total_size ino + BLOCK_SIZE)). rewrite Htot.
      assert (Z.of_nat (holes ino) <= NR_TZONES). { rewrite <- Hlen. unfold holes, alen. pose proof (length_filter (fun z => z = 0) (i_zone ino)). lia. }
      rewrite u32_id by (unfold is_u32, UINT_MOD, BLOCK_SIZE, NR_TZONES in *; lia). lia.
    + pose proof (free_blocks_use used r Hr Hur). lia.
  - split.
    + done.
    + intros j' z H H0. rewrite zone_zoned by done. rewrite decide_False; [done|]. intros <-. congruence.
    + intros j' z H H0. destruct (Hz j' z H H0) as [[-> ->]|[_ H']]; auto.
    + intros m H0 Hmb _ _. by apply Av.
    + intros x _ _. by rewrite <- Af.
    + intros x H0 Hx. change (inode_table s2) with (<[Z.to_nat i := zoned ino j r]> (inode_table s1)). rewrite Ai, list_insert_insert_eq.
      apply aget_Some_bound in Oino. by rewrite aget_insert, decide_False by (lia || congruence).
    + pose proof (free_blocks_use used r Hr Hur). lia.
Qed.

(** The block of a round: the one the file has or a new one. *)
Lemma zone_ready bm used k file i f ino curr z :
  file_rep bm used k file i f ino -> zone_of ino curr = Some z ->
  exists used' ino' s' bnr,
    (if z =? 0 then
       a ← on_fs (alloc_block i (i_dev ino));
       _ ← (if u32 a >? 0 then kupdi i (fun x => x <| i_zone ::= <[Z.to_nat curr := u32 a]> |>) else mret tt);
       mret (u32 a)
     else mret z) k = Some (bnr, k <| kfs := s' |>) /\
    zone_of ino' curr = Some bnr /\ bnr <> 0 /\ file_rep bm used' (k <| kfs := s' |>) file i f ino' /\
    grows bm file i (kfs k) ino used s' ino' used' /\ i_size ino' = i_size ino /\
    (forall o v, fword (kfs k) ino o = Some v -> fword s' ino' o = Some v).
Proof.
  intros Hrep Hz. destruct (Z.eqb_spec z 0) as [->|Hne].
  - pose proof Hrep as [[_ _ _ _ Hi] _ _ Hm _ Hdev _ _ _ _ _ Hroom]. destruct (alloc_step bm used (kfs k) i ino Hm Hi) as (r & s1 & E1 & H).
    assert (Hh : (0 < holes ino)%nat) by (rewrite (holes_fill ino curr 1 Hz) by done; lia).
    destruct H as [(Hl & Hm1 & Ha)|(-> & Hall & _)]; cycle 1.
    { unfold free_blocks in Hroom. destruct (filter _ _) as [|b bs] eqn:E; [cbn in Hroom; lia|].
      assert (Hb : b ∈ b :: bs) by left. rewrite <- E in Hb. apply list_elem_of_filter in Hb as [Hu Hb%elem_of_seqZ].
      rewrite Hall in Hu by (unfold NBITS, NBLOCKS, BLOCK_SIZE_WORD in *; lia). done. }
    destruct (file_rep_zoned bm used k file i f ino curr r s1) as (Hrep2 & Hr & Hg); [done..|]. set (s2 := s1 <| inode_table := _ |>) in *.
    exists (use used r), (zoned ino curr r), s2, r. assert (Hu : u32 r = r) by (apply u32_id; unfold is_u32, is_block, UINT_MOD, NBLOCKS in *; lia).
    assert (Hr0 : 0 < r) by (unfold is_block in Hr; lia). split.
    + rewrite Hdev, (bind_run _ _ _ _ _ (on_fs_run _ _ _ _ E1)), Hu, (proj2 (Z.gtb_lt r 0)) by done. set (k1 := k <| kfs := s1 |>).
      assert (Hi1 : aget (inode_table (kfs k1)) i = Some (grow_inode ino)).
      { change (kfs k1) with s1. rewrite (al_inodes _ _ _ _ _ _ Ha). by eapply aget_insert_same. }
      rewrite (bind_run _ _ _ _ _ (kupdi_run _ _ _ _ Hi1)). reflexivity.
    + assert (Hzs : is_Some (zone_of ino curr)) by (by eexists). split; [by rewrite zone_zoned, decide_True|]. split; [lia|]. split; [done|].
      split; [done|]. split; [done|]. intros o v Ho. apply (fword_keep _ _ _ _ _ _ Ho); [apply (gr_zone _ _ _ _ _ _ _ _ _ Hg)|].
      intros x Hx Hx0. apply (al_view _ _ _ _ _ _ Ha); [done|]. by destruct (fr_blocks _ _ _ _ _ _ _ Hrep _ _ Hx Hx0) as (_ & ? & _).
  - exists used, ino, (kfs k), z. rewrite kfs_eta. split; [done|]. split; [done|]. split; [done|]. split; [done|]. split; [apply grows_refl|]. auto.
Qed.

(** The words of one round go into its block. *)
Lemma put_words_run k bnr off ws n :
  cache_idle k -> is_block bnr -> 0 <= off -> off + alen ws <= BLOCK_SIZE ->
  exists s', (buf ← on_fs (Cache.get_block bnr ROOTFS_DEV);
     b ← on_fs (get_buf buf);
     blk ← liftO (blk_write (block b) off ws);
     _ ← on_fs (upd_buf buf (fun x => x <| block := blk |>));
     _ ← on_fs (put_block_buffer_dirt buf);
     mret n) k = Some (n : Z, k <| kfs := s' |>) /\ cache_idle (k <| kfs := s' |>) /\ tables_kept (kfs k) s' /\
    forall m, m <> 0 -> view_of s' m = if decide (m = bnr) then splice (view_of (kfs k) bnr) off ws else view_of (kfs k) m.
Proof.
  intros (l & Hr & Hfl) Hb Ho Hl. pose proof (view_length _ _ _ Hr Hb) as Hvl.
  assert (Hbw : blk_write (view_of (kfs k) bnr) off ws = Some (splice (view_of (kfs k) bnr) off ws)).
  { unfold blk_write, splice. assert (alen (view_of (kfs k) bnr) = BLOCK_SIZE) as -> by (unfold alen; rewrite Hvl; done).
    rewrite (proj2 (Z.leb_le 0 off)), (proj2 (Z.leb_le _ _)) by lia. done. }
  destruct (write_block_run (kfs k) l bnr (splice (view_of (kfs k) bnr) off ws)) as (b & f1 & x & f2 & r & f3 & l3 & E1 & E2 & Ex & E3 & E4 & R3 & Fl3 & T & V3);
    [done..| |].
  { unfold splice. rewrite !length_app, length_take, length_drop, Hvl. unfold alen, BLOCK_SIZE in *. lia. }
  exists f3. set (k1 := k <| kfs := f1 |>). set (k2 := k <| kfs := f2 |>). split; [|split; [by exists l3|done]].
  rewrite (bind_run _ _ _ _ _ (on_fs_run _ _ _ _ E1)). fold k1. rewrite (bind_run _ _ k1 x k1) by (by apply (on_fs_run _ k1)).
  rewrite Ex, Hbw, (bind_run _ _ k1 (splice (view_of (kfs k) bnr) off ws) k1), (bind_run _ _ k1 tt k2) by (done || by apply (on_fs_run _ k1)).
  by rewrite (bind_run _ _ k2 r (k <| kfs := f3 |>)) by (by apply (on_fs_run _ k2)).
Qed.

Lemma splice_at l off ws j :
  0 <= off -> off + alen ws <= alen l -> 0 <= j ->
  splice l off ws !! Z.to_nat j = if decide (off <= j < off + alen ws) then ws !! Z.to_nat (j - off) else l !! Z.to_nat j.
Proof.
  intros Ho Hl Hj. unfold splice, alen in *. case_decide.
  - rewrite lookup_app_r by (rewrite length_take; lia). rewrite length_take, Nat.min_l by lia. rewrite lookup_app_l by lia. f_equal. lia.
  - destruct (decide (j < off)).
    + rewrite lookup_app_l by (rewrite length_take; lia). apply lookup_take_lt. lia.
    + rewrite lookup_app_r by (rewrite length_take; lia). rewrite length_take, Nat.min_l by lia. rewrite lookup_app_r by lia.
      rewrite lookup_drop. f_equal. lia.
Qed.

Lemma file_rep_kept bm used k file i f ino s' :
  file_rep bm used k file i f ino -> cache_idle (k <| kfs := s' |>) -> tables_kept (kfs k) s' ->
  view_of s' bm = view_of (kfs k) bm -> file_rep bm used (k <| kfs := s' |>) file i f ino.
Proof.
  intros [[Of Oi Od Odir Oino] Hp Hsz [_ Hn Hs Hw Hb H0] Hbm Hdev Hfl Hlen Hbl Hinj Htot Hroom] Hc [T1 T2 T3 _ _] Hv.
  split; try done; rewrite ?kfs_kfs.
  - split; rewrite ?kfs_kfs; try done; [by rewrite T1|by rewrite T2].
  - split; rewrite ?Hv, ?T3; done.
Qed.

(** The position moves and the size grows. *)
Lemma file_advance bm used k file i f ino n :
  file_rep bm used k file i f ino ->
  exists s1 s2, updf file (fun f => f <| filp_pos ::= (fun p => u32 (p + n)) |>) k = Some (tt, k <| kfs := s1 |>) /\
    kupdi i (fun x => x <| i_size ::= (fun s => u32 (s + n)) |>) (k <| kfs := s1 |>) = Some (tt, k <| kfs := s2 |>) /\
    file_rep bm used (k <| kfs := s1 |>) file i (moved f n) ino /\ grows bm file i (kfs k) ino used s1 ino used /\
    file_rep bm used (k <| kfs := s2 |>) file i (moved f n) (grown ino n) /\ grows bm file i (kfs k) ino used s2 (grown ino n) used /\
    view_of s1 = view_of (kfs k) /\ view_of s2 = view_of (kfs k).
Proof.
  intros [[Of Oi Od Odir Oino] Hp Hsz Hm Hbm Hdev Hfl Hlen Hbl Hinj Htot Hroom].
  exists (kfs k <| fd_table := <[Z.to_nat file := moved f n]> (fd_table (kfs k)) |>),
    (kfs k <| fd_table := <[Z.to_nat file := moved f n]> (fd_table (kfs k)) |> <| inode_table := <[Z.to_nat i := grown ino n]> (inode_table (kfs k)) |>).
  split; [exact (updf_run _ _ _ _ Of)|]. split; [exact (kupdi_run (k <| kfs := kfs k <| fd_table := _ |> |>) i ino _ Oino)|].
  assert (Hpos : is_u32 (filp_pos (moved f n))) by apply u32_range.
  assert (Ff : forall x, 0 <= x -> x <> file -> aget (<[Z.to_nat file := moved f n]> (fd_table (kfs k))) x = aget (fd_table (kfs k)) x).
  { intros x H0 Hx. apply aget_Some_bound in Of. by rewrite aget_insert, decide_False by (lia || congruence). }
  assert (Fi : forall x, 0 <= x -> x <> i -> aget (<[Z.to_nat i := grown ino n]> (inode_table (kfs k))) x = aget (inode_table (kfs k)) x).
  { intros x H0 Hx. apply aget_Some_bound in Oino. by rewrite aget_insert, decide_False by (lia || congruence). }
  split; [|split; [by split; auto|split; [|split; [by split; auto|done]]]];
    (split; [|done|done || apply u32_range|by destruct Hm; split|done..]); split; rewrite ?kfs_kfs; try done.
  - by apply (aget_insert_same _ _ f).
  - by apply (aget_insert_same _ _ f).
  - by apply (aget_insert_same _ _ ino).
Qed.

Lemma moved_0 f : is_u32 (filp_pos f) -> moved f 0 = f.
Proof.
  intros H. change (moved f 0) with (f <| filp_pos := u32 (filp_pos f + 0) |>). rewrite Z.add_0_r, u32_id by done. by destruct f.
Qed.

Lemma u32_add_assoc x a b : u32 (u32 (x + a) + b) = u32 (x + (a + b)).
Proof. unfold u32. rewrite Z.add_mod_idemp_l by done. f_equal. lia. Qed.

Lemma moved_moved f a b : moved (moved f a) b = moved f (a + b).
Proof.
  change (moved (moved f a) b) with (f <| filp_pos := u32 (u32 (filp_pos f + a) + b) |>). by rewrite u32_add_assoc.
Qed.

(** ** Writing *)

(** The [n] words at [data] are in the file from [p] on; the other words of the
    file are as before. *)
Record wrote (m : memory) (p n data : Z) (s : fsst) (ino : inode_t) (s' : fsst) (ino' : inode_t) : Prop := {
  wr_new : forall j, 0 <= j < n -> fword s' ino' (p + j) = Some (m (data + j));
  wr_old : forall o v, fword s ino o = Some v -> ~ (p <= o < p + n) -> fword s' ino' o = Some v
}.

Lemma wrote_trans m p a b data s1 n1 s2 n2 s3 n3 :
  0 <= a -> 0 <= b -> wrote m p a data s1 n1 s2 n2 -> wrote m (p + a) b (data + a) s2 n2 s3 n3 -> wrote m p (a + b) data s1 n1 s3 n3.
Proof.
  intros Ha Hb [N1 O1] [N2 O2]. split.
  - intros j Hj. destruct (decide (j < a)).
    + apply O2; [apply N1; lia|lia].
    + specialize (N2 (j - a)). replace (p + a + (j - a)) with (p + j) in N2 by lia. replace (data + a + (j - a)) with (data + j) in N2 by lia.
      apply N2. lia.
  - intros o v Ho Hn. apply O2; [apply O1; [done|lia]|lia].
Qed.

Lemma wrote_none m p data s ino s' ino' :
  (forall o v, fword s ino o = Some v -> fword s' ino' o = Some v) -> wrote m p 0 data s ino s' ino'.
Proof. intros H. split; [lia|auto]. Qed.

Lemma mem_words_at m a n j : 0 <= j < n -> mem_words m a n !! Z.to_nat j = Some (m (a + j)).
Proof. intros Hj. unfold mem_words. rewrite list_lookup_fmap, lookup_seqZ_lt by lia. cbn. do 2 f_equal. lia. Qed.

Lemma write_round bm used k file i f ino curr off n data bnr :
  file_rep bm used k file i f ino -> zone_of ino curr = Some bnr -> bnr <> 0 -> 0 <= off -> 0 <= n -> off + n <= BLOCK_SIZE ->
  exists s', (buf ← on_fs (Cache.get_block bnr ROOTFS_DEV);
     b ← on_fs (get_buf buf);
     blk ← liftO (blk_write (block b) off (mem_words (kmem k) data n));
     _ ← on_fs (upd_buf buf (fun x => x <| block := blk |>));
     _ ← on_fs (put_block_buffer_dirt buf);
     mret n) k = Some (n, k <| kfs := s' |>) /\
    file_rep bm used (k <| kfs := s' |>) file i f ino /\ grows bm file i (kfs k) ino used s' ino used /\
    wrote (kmem k) (curr * BLOCK_SIZE + off) n data (kfs k) ino s' ino.
Proof.
  intros Hrep Hz Hne Ho Hn Hfit. destruct (fr_blocks _ _ _ _ _ _ _ Hrep _ _ Hz Hne) as (Hb & Hbm & Hu).
  set (ws := mem_words (kmem k) data n). assert (Hws : alen ws = n) by (unfold ws, alen; rewrite length_mem_words; lia).
  pose proof (mr_cache _ _ _ (fr_map _ _ _ _ _ _ _ Hrep)) as Hc. pose proof Hc as (l & Hr & _). pose proof (view_length _ _ _ Hr Hb) as Hvl.
  assert (Hal : alen (view_of (kfs k) bnr) = BLOCK_SIZE) by (unfold alen; rewrite Hvl; done).
  destruct (put_words_run k bnr off ws n Hc Hb Ho) as (s' & E & Hc' & T & V); [lia|]. exists s'. split; [done|].
  pose proof (proj1 (mr_nr _ _ _ (fr_map _ _ _ _ _ _ _ Hrep))) as Hbmb.
  split; [|split].
  - apply file_rep_kept; [done..|]. rewrite V by (unfold is_block in Hbmb; lia). by rewrite decide_False.
  - destruct T as [T1 T2 _ _ _]. split; auto; [|intros; by rewrite T1|intros; by rewrite T2].
    intros m H0 _ _ Hm. rewrite V by done. rewrite decide_False; [done|]. intros ->. by apply (Hm curr).
  - assert (Hin : forall o, o / BLOCK_SIZE = curr -> fword s' ino o = splice (view_of (kfs k) bnr) off ws !! Z.to_nat (o mod BLOCK_SIZE)).
    { intros o Hoc. unfold fword. rewrite Hoc, Hz, (proj2 (Z.eqb_neq bnr 0)), V, decide_True by done. done. }
    assert (HB : BLOCK_SIZE = 1024) by done. split.
    + intros j Hj. rewrite Hin by (rewrite HB in *; zlia). replace ((curr * BLOCK_SIZE + off + j) mod BLOCK_SIZE) with (off + j) by (rewrite HB in *; zlia).
      rewrite splice_at by lia. rewrite decide_True by lia. replace (off + j - off) with j by lia. by apply mem_words_at.
    + intros o v Hov Hout. destruct (decide (o / BLOCK_SIZE = curr)) as [Hoc|Hoc].
      * rewrite Hin by done. rewrite splice_at by (rewrite HB in *; zlia). rewrite decide_False by (rewrite HB in *; zlia).
        unfold fword in Hov. by rewrite Hoc, Hz, (proj2 (Z.eqb_neq bnr 0)) in Hov by done.
      * apply (fword_keep _ _ _ _ _ _ Hov); [done|]. intros z Hoz H0. rewrite V by done. rewrite decide_False; [done|].
        intros ->. apply Hoc. by eapply (fr_inj _ _ _ _ _ _ _ Hrep).
Qed.

Lemma round_len off n : 0 <= off < BLOCK_SIZE -> 0 <= n -> (if u32 (BLOCK_SIZE - off) >? n then n else u32 (BLOCK_SIZE - off)) = Z.min n (BLOCK_SIZE - off).
Proof.
  intros Ho Hn. rewrite u32_id by (unfold is_u32, UINT_MOD, BLOCK_SIZE in *; lia). rewrite Z.gtb_ltb. destruct (Z.ltb_spec n (BLOCK_SIZE - off)); lia.
Qed.

Lemma write_loop_run bm file i rounds : forall used k f ino curr off count ret data limit,
  file_rep bm used k file i f ino -> 0 <= curr -> 0 <= off < BLOCK_SIZE -> 0 <= count ->
  curr * BLOCK_SIZE + off + count < MAX_FILE -> limit = (curr * BLOCK_SIZE + off + count) / BLOCK_SIZE ->
  limit - curr + 2 <= Z.of_nat rounds ->
  exists used' ino' s', root_write_loop rounds file curr limit off count ret data k = Some (ret + count, k <| kfs := s' |>) /\
    file_rep bm used' (k <| kfs := s' |>) file i (moved f count) ino' /\ i_size ino' = u32 (i_size ino + count) /\
    grows bm file i (kfs k) ino used s' ino' used' /\ wrote (kmem k) (curr * BLOCK_SIZE + off) count data (kfs k) ino s' ino'.
Proof.
  induction rounds as [|rounds IH]; intros used k f ino curr off count ret data limit Hrep Hc Ho Hn Hmax Hlim Hr.
  { assert (curr <= limit) by (subst limit; unfold BLOCK_SIZE in *; zlia). lia. }
  assert (HB : BLOCK_SIZE = 1024) by done. assert (Hcl : curr <= limit) by (subst limit; rewrite HB in *; zlia).
  assert (Hl8 : limit < NR_TZONES) by (subst limit; unfold MAX_FILE, NR_TZONES in *; rewrite HB in *; zlia).
  destruct (file_rep_zone _ _ _ _ _ _ _ curr Hrep) as [z Hz]; [lia|]. pose proof Hrep as [[Of Oi Od Odir Oino] Hpos Hsz _ _ _ _ _ _ _ _ _].
  cbn [root_write_loop]. rewrite Z.gtb_ltb, (proj2 (Z.ltb_ge limit curr)) by lia.
  rewrite (bind_run _ _ _ _ _ (getf_run _ _ _ Of)), Oi, (bind_run _ _ k i k) by done.
  rewrite (bind_run _ _ _ _ _ (kgeti_run _ _ _ Oino)), Hz, (bind_run _ _ k z k) by done.
  destruct (zone_ready bm used k file i f ino curr z Hrep Hz) as (used1 & ino1 & s1 & bnr & E1 & Hz1 & Hne & Hrep1 & Hg1 & Hsz1 & Hw1).
  rewrite (bind_run _ _ _ _ _ E1), (proj2 (Z.eqb_neq bnr 0)) by done. set (k1 := k <| kfs := s1 |>) in *.
  cbv zeta. rewrite round_len by lia. set (n := Z.min count (BLOCK_SIZE - off)). rewrite (bind_run _ _ k1 k1 k1), Odir, Od by done.
  destruct (write_round bm used1 k1 file i f ino1 curr off n data bnr) as (s2 & E2 & Hrep2 & Hg2 & Hw2); [done|done|done|lia..|].
  set (k2 := k1 <| kfs := s2 |>) in *. rewrite (bind_run _ _ k1 n k2) by exact E2.
  pose proof (grows_trans _ _ _ _ _ _ _ _ _ _ _ _ Hg1 Hg2) as Hg12.
  assert (Hw12 : wrote (kmem k) (curr * BLOCK_SIZE + off) n data (kfs k) ino s2 ino1).
  { split; [exact (wr_new _ _ _ _ _ _ _ _ Hw2)|]. intros o v Hv Hout. apply (wr_old _ _ _ _ _ _ _ _ Hw2); [by apply Hw1|done]. }
  destruct (Z.eqb_spec n 0) as [H0|H0].
  { assert (count = 0) as -> by lia. exists used1, ino1, s2. rewrite Z.add_0_r, moved_0 by done. split; [done|]. split; [done|].
    split; [|by rewrite H0 in Hw12]. by rewrite Hsz1, Z.add_0_r, u32_id. }
  assert (Hn0 : 0 < n) by lia.
  destruct (file_advance bm used1 k2 file i f ino1 n Hrep2) as (s3 & s4 & E3 & E4 & _ & _ & Hrep4 & Hg34 & _ & V4).
  rewrite (bind_run _ _ _ _ _ E3), (bind_run _ _ _ _ _ E4). set (k4 := k2 <| kfs := s4 |>) in *.
  assert (Hg4 : grows bm file i (kfs k) ino used s4 (grown ino1 n) used1).
  { exact (grows_trans _ _ _ _ _ _ _ _ _ _ _ _ Hg12 Hg34). }
  assert (Hfw : forall o, fword s4 (grown ino1 n) o = fword s2 ino1 o) by (intros o; unfold fword; by rewrite V4).
  assert (Hw4 : wrote (kmem k) (curr * BLOCK_SIZE + off) n data (kfs k) ino s4 (grown ino1 n)).
  { destruct Hw12 as [W1 W2]. split; intros; rewrite Hfw; auto. }
  assert (Hsz4 : i_size (grown ino1 n) = u32 (i_size ino + n)) by (rewrite <- Hsz1; done).
  destruct (decide (curr = limit)) as [He|He].
  - assert (n = count) as Hnc. { subst limit n. rewrite HB in *. zlia. }
    destruct rounds as [|rounds]; [lia|]. rewrite write_loop_stop by lia. rewrite Hnc in *.
    exists used1, (grown ino1 count), s4. split; [done|]. done.
  - assert (Hnb : n = BLOCK_SIZE - off). { subst limit n. rewrite HB in *. zlia. }
    assert (Hu : u32 (count - n) = count - n) by (apply u32_id; unfold is_u32, UINT_MOD, MAX_FILE, NR_TZONES in *; lia).
    assert (Hbase : curr * BLOCK_SIZE + off + n = (curr + 1) * BLOCK_SIZE + 0) by lia. rewrite Hu.
    destruct (IH used1 k4 (moved f n) (grown ino1 n) (curr + 1) 0 (count - n) (ret + n) (data + n) limit) as (used' & ino' & s' & E & Hrep' & Hsz' & Hg' & Hw');
      [done|lia|rewrite HB; lia|lia|lia|subst limit; f_equal; lia|lia|].
    exists used', ino', s'. split; [rewrite E; do 2 f_equal; lia|]. rewrite moved_moved in Hrep'. replace (n + (count - n)) with count in Hrep' by lia.
    split; [done|]. split; [rewrite Hsz', Hsz4, u32_add_assoc; f_equal; lia|]. split; [by eapply grows_trans|].
    replace count with (n + (count - n)) by lia. eapply wrote_trans; [lia|lia|exact Hw4|]. by rewrite Hbase.
Qed.

(** ** Reading *)
Lemma get_words_kernel k bnr off n data (c : K Z) :
  cache_idle k -> is_block bnr -> 0 <= off -> 0 <= n -> off + n <= BLOCK_SIZE ->
  exists s', (buf ← on_fs (Cache.get_block bnr ROOTFS_DEV);
     b ← on_fs (get_buf buf);
     ws ← liftO (block_slice b off n);
     _ ← modifyS (fun k => k <| kmem ::= (fun m => wr_words m data ws) |>);
     _ ← on_fs (put_block_buffer buf);
     c) k = c (k <| kmem := wr_words (kmem k) data (slice (view_of (kfs k) bnr) off n) |> <| kfs := s' |>) /\
    cache_idle (k <| kfs := s' |>) /\ tables_kept (kfs k) s' /\ forall m, m <> 0 -> view_of s' m = view_of (kfs k) m.
Proof.
  intros (l & Hr & Hfl) Hb Ho Hn Hl. pose proof (view_length _ _ _ Hr Hb) as Hvl.
  destruct (read_block_run (kfs k) l bnr) as (b & f1 & x & r & f2 & l2 & E1 & E2 & Ex & E3 & R2 & Fl2 & T & V2); [done..|].
  set (ws := slice (view_of (kfs k) bnr) off n).
  assert (Hbs : block_slice x off n = Some ws).
  { unfold block_slice, ws, slice. destruct (Z.leb_spec n 0); [by replace n with 0 by lia|].
    rewrite (proj2 (Z.leb_le (off + n) BLOCK_SIZE)) by lia. by rewrite Ex. }
  exists f2. set (k1 := k <| kfs := f1 |>). set (k2 := k1 <| kmem ::= (fun m => wr_words m data ws) |>). split; [|split; [by exists l2|done]].
  rewrite (bind_run _ _ _ _ _ (on_fs_run _ _ _ _ E1)). fold k1. rewrite (bind_run _ _ k1 x k1) by (by apply (on_fs_run _ k1)).
  rewrite Hbs, (bind_run _ _ k1 ws k1), (bind_run _ _ k1 tt k2) by done.
  by rewrite (bind_run _ _ k2 r (k2 <| kfs := f2 |>)) by (by apply (on_fs_run _ k2)).
Qed.

Lemma slice_at l off n j : 0 <= off -> 0 <= j < n -> off + n <= alen l -> slice l off n !! Z.to_nat j = l !! Z.to_nat (off + j).
Proof. intros Ho Hj Hl. unfold slice. rewrite lookup_take_lt by lia. rewrite lookup_drop. f_equal. lia. Qed.

Lemma file_rep_mem bm used k file i f ino m : file_rep bm used k file i f ino -> file_rep bm used (k <| kmem := m |>) file i f ino.
Proof. intros [[] ??????????]. by split. Qed.

(** The [n] words of the file from [p] on are at [data]; the rest of the memory is as before. *)
Record fetched (s : fsst) (ino : inode_t) (p n data : Z) (m m' : memory) : Prop := {
  fe_words : forall j, 0 <= j < n -> fword s ino (p + j) = Some (m' (data + j));
  fe_frame : forall x, ~ (data <= x < data + n) -> m' x = m x
}.

Lemma fetched_trans s ino s2 ino2 p a b data m1 m2 m3 :
  0 <= a -> 0 <= b -> (forall o, fword s2 ino2 o = fword s ino o) ->
  fetched s ino p a data m1 m2 -> fetched s2 ino2 (p + a) b (data + a) m2 m3 -> fetched s ino p (a + b) data m1 m3.
Proof.
  intros Ha Hb Hf [W1 F1] [W2 F2]. split.
  - intros j Hj. destruct (decide (j < a)).
    + rewrite W1, F2 by lia. done.
    + specialize (W2 (j - a)). rewrite Hf in W2. replace (p + a + (j - a)) with (p + j) in W2 by lia.
      replace (data + a + (j - a)) with (data + j) in W2 by lia. apply W2. lia.
  - intros x Hx. rewrite F2, F1 by lia. done.
Qed.

Lemma wr_words_fetched bm used k file i f ino curr off n data bnr :
  file_rep bm used k file i f ino -> zone_of ino curr = Some bnr -> bnr <> 0 -> 0 <= off -> 0 <= n -> off + n <= BLOCK_SIZE ->
  fetched (kfs k) ino (curr * BLOCK_SIZE + off) n data (kmem k) (wr_words (kmem k) data (slice (view_of (kfs k) bnr) off n)).
Proof.
  intros Hrep Hz Hne Ho Hn Hfit. destruct (fr_blocks _ _ _ _ _ _ _ Hrep _ _ Hz Hne) as (Hb & _).
  destruct (mr_cache _ _ _ (fr_map _ _ _ _ _ _ _ Hrep)) as (l & Hr & _). pose proof (view_length _ _ _ Hr Hb) as Hvl.
  assert (Hal : alen (view_of (kfs k) bnr) = BLOCK_SIZE) by (unfold alen; rewrite Hvl; done).
  set (ws := slice _ _ _). assert (Hws : alen ws = n). { unfold ws, slice, alen in *. rewrite length_take, length_drop. lia. }
  assert (HB : BLOCK_SIZE = 1024) by done. split.
  - intros j Hj. unfold fword. replace ((curr * BLOCK_SIZE + off + j) / BLOCK_SIZE) with curr by (rewrite HB in *; zlia).
    replace ((curr * BLOCK_SIZE + off + j) mod BLOCK_SIZE) with (off + j) by (rewrite HB in *; zlia).
    rewrite Hz, (proj2 (Z.eqb_neq bnr 0)) by done. rewrite <- (slice_at _ off n j) by lia. fold ws.
    destruct (ws !! Z.to_nat j) as [w|] eqn:E; [|apply lookup_ge_None in E; unfold alen in Hws; lia].
    rewrite <- (Z2Nat.id j) at 1 by lia. by rewrite (wr_words_in _ _ _ _ _ E).
  - intros x Hx. apply wr_words_out. by rewrite Hws.
Qed.

(** Where reading [count] words from [p] on stops: all words up to [e] are there, the
    test of the length ends a round there, and no zone follows. *)
Record ends_at (s : fsst) (ino : inode_t) (p count e : Z) : Prop := {
  en_pos : p <= e;
  en_words : forall o, p <= o < p + count -> o < e -> is_Some (fword s ino o);
  en_test : forall o l, p <= o <= e -> 0 <= l -> o + l <= p + count -> o mod BLOCK_SIZE + l <= BLOCK_SIZE ->
    (exists z, zone_of ino (o / BLOCK_SIZE) = Some z /\ z <> 0) ->
    (if u32 (o mod BLOCK_SIZE + l) <? i_size ino then l else u32 (i_size ino - o mod BLOCK_SIZE)) = Z.min l (e - o);
  en_stop : e < p + count -> forall j z, e <= j * BLOCK_SIZE -> zone_of ino j = Some z -> z = 0
}.

Lemma ends_at_later s ino p count e n s' :
  (forall o, fword s' ino o = fword s ino o) -> 0 <= n <= count -> p + n <= e -> ends_at s ino p count e -> ends_at s' ino (p + n) (count - n) e.
Proof.
  intros Hf Hn He [P W T S]. split; [done| | |].
  - intros o Ho Hoe. rewrite Hf. apply W; lia.
  - intros o l Ho Hl Hol Hfit Hz. apply T; done || lia.
  - intros Hlt. apply S. lia.
Qed.

(** A read of [count] words that were written and lie within the size. *)
Lemma ends_within s ino p count :
  0 <= p -> 0 <= count -> p + count < MAX_FILE -> p + count <= i_size ino -> (forall o, p <= o < p + count -> is_Some (fword s ino o)) ->
  ends_at s ino p count (p + count).
Proof.
  intros Hp Hn Hmax Hs Hw. split; [lia|auto| |lia]. intros o l Ho Hl Hol Hfit _. rewrite Z.min_l by lia.
  assert (Hm : 0 <= o mod BLOCK_SIZE <= o) by (unfold BLOCK_SIZE; zlia).
  rewrite u32_id by (unfold is_u32, UINT_MOD, BLOCK_SIZE in *; lia). destruct (Z.ltb_spec (o mod BLOCK_SIZE + l) (i_size ino)); [done|].
  assert (i_size ino - o mod BLOCK_SIZE = l) as -> by lia. apply u32_id. unfold is_u32, UINT_MOD, BLOCK_SIZE in *. lia.
Qed.

(** The first [q] zones are there and no other; the code takes a file of two blocks or
    more to end with its last block. *)
Record filled (ino : inode_t) (q : Z) : Prop := {
  fi_zones : forall j z, zone_of ino j = Some z -> if decide (j < q) then z <> 0 else z = 0;
  fi_size : 0 <= i_size ino < UINT_MOD;
  fi_some : 1 <= q -> 0 < i_size ino;
  fi_large : 2 <= q -> BLOCK_SIZE <= i_size ino
}.

Definition file_end (size q : Z) : Z := if q <=? 1 then Z.min size (q * BLOCK_SIZE) else q * BLOCK_SIZE.

Lemma ends_filled s ino q p count :
  filled ino q -> 0 <= p <= file_end (i_size ino) q -> (forall o, 0 <= o < file_end (i_size ino) q -> is_Some (fword s ino o)) ->
  ends_at s ino p count (file_end (i_size ino) q).
Proof.
  intros [Hz Hs Hs1 Hl] Hp Hw. assert (HB : BLOCK_SIZE = 1024) by done. set (e := file_end (i_size ino) q) in *.
  split; [lia|intros o ? ?; apply Hw; lia| |].
  - intros o l Ho Hl0 _ Hfit (z & Hoz & Hne). apply Hz in Hoz. case_decide as Hq; [|done].
    assert (Hu : u32 (o mod BLOCK_SIZE + l) = o mod BLOCK_SIZE + l) by (apply u32_id; unfold is_u32, UINT_MOD; rewrite HB in *; zlia).
    rewrite Hu. assert (He : if decide (q <= 1) then e = Z.min (i_size ino) (q * BLOCK_SIZE) else e = q * BLOCK_SIZE).
    { unfold e, file_end. case_decide; [by rewrite (proj2 (Z.leb_le q 1))|]. by rewrite (proj2 (Z.leb_gt q 1)) by lia. }
    clearbody e. destruct (Z.ltb_spec (o mod BLOCK_SIZE + l) (i_size ino)) as [Hlt|Hlt].
    + case_decide; rewrite HB in *; zlia.
    + rewrite u32_id by (unfold is_u32; case_decide; rewrite HB in *; zlia). case_decide; rewrite HB in *; zlia.
  - intros Hlt j z Hj Hjz. apply Hz in Hjz. case_decide as Hq; [|done]. exfalso. unfold e, file_end in *. destruct (Z.leb_spec q 1); rewrite HB in *; lia.
Qed.

(** Zones that are not there are passed over. *)
Lemma read_holes k file i f ino rounds : forall curr limit off count ret data,
  open_file k file i f ino -> alen (i_zone ino) = NR_TZONES -> 0 <= curr -> limit < NR_TZONES -> limit - curr + 2 <= Z.of_nat rounds ->
  1 <= Z.of_nat rounds -> (forall j z, curr <= j -> zone_of ino j = Some z -> z = 0) ->
  root_read_loop rounds file curr limit off count ret data k = Some (ret, k).
Proof.
  induction rounds as [|rounds IH]; intros curr limit off count ret data Ho Hl Hc Hlim Hr H1 Hz; [lia|].
  destruct (decide (curr > limit)); [apply read_loop_stop; lia|]. pose proof Ho as [Of Oi Od Odir Oino].
  cbn [root_read_loop]. rewrite Z.gtb_ltb, (proj2 (Z.ltb_ge limit curr)) by lia.
  rewrite (bind_run _ _ _ _ _ (getf_run _ _ _ Of)), Oi, (bind_run _ _ k i k) by done.
  rewrite (bind_run _ _ _ _ _ (kgeti_run _ _ _ Oino)). destruct (aget_in (i_zone ino) curr) as [z E]; [rewrite Hl; lia|].
  fold (zone_of ino curr) in E. rewrite E, (bind_run _ _ k z k) by done. rewrite (Hz curr z) by (done || lia). cbn [Z.eqb].
  apply IH; [done..|lia|lia|lia|lia|]. intros j y Hj. apply Hz. lia.
Qed.

(** One block: its words are fetched, then the position moves. *)
Lemma read_round bm used file i ino k f curr off len data bnr (c : K Z) :
  file_rep bm used k file i f ino -> zone_of ino curr = Some bnr -> bnr <> 0 -> 0 <= off -> 0 <= len -> off + len <= BLOCK_SIZE ->
  exists m s', (buf ← on_fs (Cache.get_block bnr ROOTFS_DEV);
     b ← on_fs (get_buf buf);
     ws ← liftO (block_slice b off len);
     _ ← modifyS (fun k => k <| kmem ::= (fun m => wr_words m data ws) |>);
     _ ← on_fs (put_block_buffer buf);
     _ ← updf file (fun f => f <| filp_pos ::= (fun p => u32 (p + len)) |>);
     c) k = c (k <| kmem := m |> <| kfs := s' |>) /\
    file_rep bm used (k <| kfs := s' |>) file i (moved f len) ino /\ grows bm file i (kfs k) ino used s' ino used /\
    (forall o, fword s' ino o = fword (kfs k) ino o) /\ fetched (kfs k) ino (curr * BLOCK_SIZE + off) len data (kmem k) m.
Proof.
  intros Hrep Hz Hne Ho Hn Hfit. destruct (fr_blocks _ _ _ _ _ _ _ Hrep _ _ Hz Hne) as (Hb & Hbm & _).
  destruct (get_words_kernel k bnr off len data (_ ← updf file (fun f => f <| filp_pos ::= (fun p => u32 (p + len)) |>); c))
    as (s1 & E1 & C1 & T1 & V1); [exact (mr_cache _ _ _ (fr_map _ _ _ _ _ _ _ Hrep))|done..|].
  set (m1 := wr_words _ _ _) in *. set (k1 := k <| kmem := m1 |> <| kfs := s1 |>) in *.
  pose proof (proj1 (mr_nr _ _ _ (fr_map _ _ _ _ _ _ _ Hrep))) as Hbmb.
  assert (Hrep1 : file_rep bm used (k <| kfs := s1 |>) file i f ino) by (apply file_rep_kept; [done..|apply V1; unfold is_block in *; lia]).
  destruct (file_advance bm used k1 file i f ino len) as (s2 & _ & E2 & _ & Hrep2 & Hg & _ & _ & V2 & _);
    [exact (file_rep_mem _ _ _ _ _ _ _ m1 Hrep1)|].
  assert (Hg' : grows bm file i (kfs k) ino used s2 ino used).
  { eapply grows_trans; [|exact Hg]. destruct T1 as [T1 T2 _ _ _]. apply grows_same; [done|intros x _ _; by rewrite <- T1|done]. }
  exists m1, s2. split; [rewrite E1, (bind_run _ _ _ _ _ E2); done|]. split; [exact (file_rep_mem _ _ _ _ _ _ _ (kmem k) Hrep2)|].
  split; [done|]. split; [|by apply (wr_words_fetched bm used k file i f)].
  intros o. unfold fword. destruct (zone_of ino (o / BLOCK_SIZE)) as [y|]; [|done]. destruct (Z.eqb_spec y 0); [done|].
  rewrite V2. by rewrite V1.
Qed.

Lemma read_loop_run bm used file i ino e rounds : forall k f curr off count ret data limit,
  file_rep bm used k file i f ino -> 0 <= curr -> 0 <= off < BLOCK_SIZE -> 0 <= count ->
  curr * BLOCK_SIZE + off + count < MAX_FILE -> limit = (curr * BLOCK_SIZE + off + count) / BLOCK_SIZE ->
  limit - curr + 2 <= Z.of_nat rounds -> ends_at (kfs k) ino (curr * BLOCK_SIZE + off) count e ->
  let n := Z.min count (e - (curr * BLOCK_SIZE + off)) in
  exists m' s', root_read_loop rounds file curr limit off count ret data k = Some (ret + n, k <| kmem := m' |> <| kfs := s' |>) /\
    file_rep bm used (k <| kfs := s' |>) file i (moved f n) ino /\
    fetched (kfs k) ino (curr * BLOCK_SIZE + off) n data (kmem k) m' /\ (forall o, fword s' ino o = fword (kfs k) ino o) /\
    grows bm file i (kfs k) ino used s' ino used.
Proof.
  assert (HB : BLOCK_SIZE = 1024) by done.
  induction rounds as [|rounds IH]; intros k f curr off count ret data limit Hrep Hc Ho Hn Hmax Hlim Hr He n.
  { assert (curr <= limit) by (subst limit; rewrite HB in *; zlia). lia. }
  set (p := curr * BLOCK_SIZE + off) in *. assert (Hcl : curr <= limit) by (subst limit p; rewrite HB in *; zlia).
  assert (Hpd : p / BLOCK_SIZE = curr /\ p mod BLOCK_SIZE = off) by (subst p; rewrite HB in *; zlia). destruct Hpd as [Hpd Hpm].
  assert (Hl8 : limit < NR_TZONES) by (subst limit; unfold MAX_FILE, NR_TZONES in *; rewrite HB in *; zlia).
  destruct (file_rep_zone _ _ _ _ _ _ _ curr Hrep) as [z Hz]; [lia|]. pose proof (fr_open _ _ _ _ _ _ _ Hrep) as Hof.
  pose proof Hof as [Of Oi Od Odir Oino]. pose proof He as [Epos Ew Et Es]. pose proof (fr_pos _ _ _ _ _ _ _ Hrep) as Hpos.
  assert (Hlz : alen (i_zone ino) = NR_TZONES) by apply (fr_len _ _ _ _ _ _ _ Hrep).
  assert (Hend : e < p + count -> forall j y, curr + 1 <= j -> e <= (curr + 1) * BLOCK_SIZE -> zone_of ino j = Some y -> y = 0).
  { intros Hlt j y Hj Hej. apply (Es Hlt). rewrite HB in *. lia. }
  cbn [root_read_loop]. rewrite Z.gtb_ltb, (proj2 (Z.ltb_ge limit curr)) by lia.
  rewrite (bind_run _ _ _ _ _ (getf_run _ _ _ Of)), Oi, (bind_run _ _ k i k) by done.
  rewrite (bind_run _ _ _ _ _ (kgeti_run _ _ _ Oino)), Hz, (bind_run _ _ k z k) by done.
  destruct (Z.eqb_spec z 0) as [->|Hne].
  { assert (Hz0 : n = 0).
    { destruct (decide (n = 0)) as [|Hn0]; [done|]. destruct (Ew p) as [v Hv]; [lia..|]. unfold fword in Hv. by rewrite Hpd, Hz in Hv. }
    exists (kmem k), (kfs k). assert (Hk : k <| kmem := kmem k |> <| kfs := kfs k |> = k) by by destruct k. rewrite Hz0, Hk, kfs_eta, Z.add_0_r, moved_0 by done.
    split; [|split; [done|split; [by split; [lia|]|split; [done|apply grows_refl]]]].
    destruct (decide (limit = curr)) as [Hlc|Hlc]; [destruct rounds; [lia|]; apply read_loop_stop; lia|].
    eapply read_holes; [done|done|lia|done|lia|lia|]. intros j y Hj. apply Hend; [|done|]; subst n limit p; rewrite HB in *; zlia. }
  cbv zeta. rewrite round_len by lia. set (l := Z.min count (BLOCK_SIZE - off)).
  rewrite <- Hpm, (Et p l), Hpm, Odir, Od by (done || lia || (rewrite Hpd; by exists z)). set (len := Z.min l (e - p)).
  destruct (read_round bm used file i ino k f curr off len data z (if len =? 0 then mret ret
    else root_read_loop rounds file (curr + 1) limit 0 (u32 (count - len)) (ret + len) (data + len))) as (m1 & s1 & E1 & R1 & G1 & W1 & F1); [done..|lia|lia|lia|].
  fold p in F1. rewrite E1. clear E1. set (k1 := k <| kmem := m1 |> <| kfs := s1 |>).
  assert (Hu : u32 (count - len) = count - len) by (apply u32_id; unfold is_u32, UINT_MOD, MAX_FILE, NR_TZONES in *; lia). rewrite Hu.
  destruct (Z.eqb_spec len 0) as [H0|H0].
  { assert (n = 0) as -> by lia. rewrite H0 in *. exists m1, s1. by rewrite Z.add_0_r. }
  destruct (decide (len = l)) as [Hl|Hl]; cycle 1.
  { assert (n = len) as -> by lia. exists m1, s1. split; [|done].
    apply (read_holes k1 file i (moved f len) ino); [by destruct (fr_open _ _ _ _ _ _ _ R1); split|done|lia|done|lia|lia|].
    intros j y Hj. apply Hend; [lia|done|]. subst l p. rewrite HB in *. lia. }
  destruct (decide (curr = limit)) as [He'|He'].
  { assert (l = count) by (subst l limit p; rewrite HB in *; zlia). assert (n = len) as -> by lia. exists m1, s1. split; [|done].
    destruct rounds; [lia|]. apply read_loop_stop. lia. }
  assert (Hlb : len = BLOCK_SIZE - off) by (subst l limit p; rewrite HB in *; zlia).
  assert (Hbase : p + len = (curr + 1) * BLOCK_SIZE + 0) by lia.
  destruct (IH k1 (moved f len) (curr + 1) 0 (count - len) (ret + len) (data + len) limit) as (m' & s' & E & R' & F' & W' & G');
    [exact (file_rep_mem _ _ _ _ _ _ _ m1 R1)|lia|rewrite HB; lia|lia|lia|subst limit; f_equal; lia|lia|rewrite <- Hbase; apply (ends_at_later (kfs k)); done || lia|].
  rewrite <- Hbase in *. assert (Hn' : len + Z.min (count - len) (e - (p + len)) = n) by lia. exists m', s'. split; [rewrite E; do 2 f_equal; lia|].
  rewrite moved_moved, Hn' in R'. split; [exact (file_rep_mem _ _ _ _ _ _ _ (kmem k) R')|]. split; [|split; [intros o; by rewrite W'|exact (grows_trans _ _ _ _ _ _ _ _ _ _ _ _ G1 G')]].
  rewrite <- Hn'. apply (fetched_trans _ _ s1 ino _ _ _ _ _ m1); [lia|lia|done..].
Qed.

(** ** The system calls *)
Record caller (k : kst) (who fd file : Z) : Prop := {
  ca_fd : 0 <= fd < OPEN_MAX;
  ca_file : exists p, procs k !! who = Some p /\ aget (fp_filp p) fd = Some (Some file)
}.

Lemma caller_run k who fd file : caller k who fd file -> is_fd_opened_and_valid who fd k = Some (true, k) /\ get_fp who fd k = Some (Some file, k).
Proof.
  intros [Hfd (p & Hp & Hf)]. assert (E : get_fp who fd k = Some (Some file, k)).
  { unfold get_fp. rewrite (bind_run _ _ _ _ _ (getp_run _ _ _ Hp)). by rewrite Hf. }
  split; [|done]. unfold is_fd_opened_and_valid. rewrite (proj2 (Z.ltb_ge fd 0)), Z.geb_leb, (proj2 (Z.leb_gt OPEN_MAX fd)) by lia.
  cbn [orb]. by rewrite (bind_run _ _ _ _ _ E).
Qed.

Lemma sys_write_run bm used k who fd file i f ino buf n :
  caller k who fd file -> file_rep bm used k file i f ino -> 0 <= n -> filp_pos f + n < MAX_FILE ->
  exists used' ino' s', sys_write who fd buf n k = Some (n, k <| curr_user_proc := Some who |> <| kfs := s' |>) /\
    file_rep bm used' (k <| kfs := s' |>) file i (moved f n) ino' /\ i_size ino' = u32 (i_size ino + n) /\
    grows bm file i (kfs k) ino used s' ino' used' /\ wrote (kmem k) (filp_pos f) n buf (kfs k) ino s' ino'.
Proof.
  intros Hc Hrep Hn Hmax. destruct (caller_run (k <| curr_user_proc := Some who |>) who fd file) as [E1 E2]; [by destruct Hc|].
  set (k1 := k <| curr_user_proc := Some who |>) in *. assert (Hrep1 : file_rep bm used k1 file i f ino) by (destruct Hrep as [[] ??????????]; by split).
  pose proof (fr_open _ _ _ _ _ _ _ Hrep1) as [Of _ Od _ _]. destruct (fr_pos _ _ _ _ _ _ _ Hrep) as [Hp _].
  assert (Hbase : filp_pos f / BLOCK_SIZE * BLOCK_SIZE + filp_pos f mod BLOCK_SIZE = filp_pos f) by (unfold BLOCK_SIZE; zlia).
  unfold sys_write. rewrite (bind_run _ _ k tt k1), (bind_run _ _ _ _ _ E1) by done. cbn [negb]. rewrite (bind_run _ _ _ _ _ E2), (bind_run _ _ k1 file k1) by done.
  rewrite (bind_run _ _ _ _ _ (getf_run _ _ _ Of)), Od, (bind_run _ _ k1 root_fops k1) by done. cbn [root_fops fop_write].
  unfold root_fs_write. rewrite (bind_run _ _ _ _ _ (getf_run _ _ _ Of)).
  rewrite u32_id by (unfold is_u32, UINT_MOD, MAX_FILE, NR_TZONES, BLOCK_SIZE in *; lia).
  edestruct (write_loop_run bm file i ZONE_ROUNDS used k1 f ino (filp_pos f / BLOCK_SIZE) (filp_pos f mod BLOCK_SIZE) n 0 buf)
    as (used' & ino' & s' & E & R & Sz & G & W); try exact Hrep1; [unfold BLOCK_SIZE; zlia|unfold BLOCK_SIZE; zlia|done|lia|reflexivity| |].
  { rewrite Hbase. change (Z.of_nat ZONE_ROUNDS) with 10. unfold MAX_FILE, NR_TZONES, BLOCK_SIZE in *. zlia. }
  rewrite Hbase in *. exists used', ino', s'. rewrite E. split; [done|]. split; [destruct R as [[] ??????????]; by split|]. done.
Qed.

(** Reading [n] words where [e] is the end: those before the end are delivered. *)
Lemma sys_read_run bm used k who fd file i f ino buf n e :
  caller k who fd file -> file_rep bm used k file i f ino -> 0 <= n -> filp_pos f + n < MAX_FILE -> ends_at (kfs k) ino (filp_pos f) n e ->
  let r := Z.min n (e - filp_pos f) in
  exists m' s', sys_read who fd buf n k = Some (r, k <| curr_user_proc := Some who |> <| kmem := m' |> <| kfs := s' |>) /\
    file_rep bm used (k <| kfs := s' |>) file i (moved f r) ino /\
    fetched (kfs k) ino (filp_pos f) r buf (kmem k) m' /\ (forall o, fword s' ino o = fword (kfs k) ino o) /\
    grows bm file i (kfs k) ino used s' ino used.
Proof.
  intros Hc Hrep Hn Hmax He r. destruct (caller_run (k <| curr_user_proc := Some who |>) who fd file) as [E1 E2]; [by destruct Hc|].
  set (k1 := k <| curr_user_proc := Some who |>) in *. assert (Hrep1 : file_rep bm used k1 file i f ino) by (destruct Hrep as [[] ??????????]; by split).
  pose proof (fr_open _ _ _ _ _ _ _ Hrep1) as [Of _ Od _ _]. destruct (fr_pos _ _ _ _ _ _ _ Hrep) as [Hp _].
  assert (Hbase : filp_pos f / BLOCK_SIZE * BLOCK_SIZE + filp_pos f mod BLOCK_SIZE = filp_pos f) by (unfold BLOCK_SIZE; zlia).
  unfold sys_read. rewrite (bind_run _ _ k tt k1), (bind_run _ _ _ _ _ E1) by done. cbn [negb]. rewrite (bind_run _ _ _ _ _ E2), (bind_run _ _ k1 file k1) by done.
  rewrite (bind_run _ _ _ _ _ (getf_run _ _ _ Of)), Od, (bind_run _ _ k1 root_fops k1) by done. cbn [root_fops fop_read].
  unfold root_fs_read. rewrite (bind_run _ _ _ _ _ (getf_run _ _ _ Of)).
  rewrite u32_id by (unfold is_u32, UINT_MOD, MAX_FILE, NR_TZONES, BLOCK_SIZE in *; lia).
  edestruct (read_loop_run bm used file i ino e ZONE_ROUNDS k1 f (filp_pos f / BLOCK_SIZE) (filp_pos f mod BLOCK_SIZE) n 0 buf)
    as (m' & s' & E & R & W & V); try exact Hrep1; [unfold BLOCK_SIZE; zlia|unfold BLOCK_SIZE; zlia|done|lia|reflexivity| |by rewrite Hbase|].
  { rewrite Hbase. change (Z.of_nat ZONE_ROUNDS) with 10. unfold MAX_FILE, NR_TZONES, BLOCK_SIZE in *. zlia. }
  rewrite Hbase in *. exists m', s'. rewrite E. split; [done|]. split; [destruct R as [[] ??????????]; by split|]. done.
Qed.

(** Zones up to the [q]-th filled leave at most [NR_TZONES - q] holes. *)
Lemma holes_bound ino q :
  alen (i_zone ino) = NR_TZONES -> 0 <= q <= NR_TZONES ->
  (forall j, 0 <= j < q -> exists z, zone_of ino j = Some z /\ z <> 0) -> Z.of_nat (holes ino) <= NR_TZONES - q.
Proof.
  intros Hl Hq Hz. unfold holes. rewrite <- (take_drop (Z.to_nat q) (i_zone ino)). rewrite filter_app, length_app.
  assert (E : filter (fun z => z = 0) (take (Z.to_nat q) (i_zone ino)) = []).
  { destruct (filter _ _) as [|x l] eqn:E; [done|]. assert (Hx : x ∈ x :: l) by left. rewrite <- E in Hx.
    apply list_elem_of_filter in Hx as [Hx0 [n Hn]%list_elem_of_lookup]. apply lookup_take_Some in Hn as [Hn Hlt].
    destruct (Hz (Z.of_nat n)) as (z & Ez & H0); [lia|]. unfold zone_of, aget in Ez. rewrite decide_True, Nat2Z.id in Ez by lia. congruence. }
  rewrite E. cbn [length Nat.add]. pose proof (length_filter (fun z => z = 0) (drop (Z.to_nat q) (i_zone ino))) as H.
  rewrite length_drop in H. unfold alen in Hl. lia.
Qed.

Lemma fword_zone s ino o v : fword s ino o = Some v -> exists z, zone_of ino (o / BLOCK_SIZE) = Some z /\ z <> 0.
Proof. unfold fword. destruct (zone_of ino _) as [z|]; [|done]. destruct (Z.eqb_spec z 0); [done|]. eauto. Qed.

Lemma sys_lseek_run bm used k who fd file i f ino p :
  caller k who fd file -> file_rep bm used k file i f ino -> 0 <= p < MAX_FILE ->
  (forall j, 0 <= j <= p / BLOCK_SIZE -> exists z, zone_of ino j = Some z /\ z <> 0) ->
  exists s', sys_lseek who fd p SEEK_SET k = Some (p, k <| kfs := s' |>) /\
    file_rep bm used (k <| kfs := s' |>) file i (f <| filp_pos := p |>) ino /\ grows bm file i (kfs k) ino used s' ino used /\
    view_of s' = view_of (kfs k).
Proof.
  intros Hc Hrep Hp Hz. destruct (caller_run k who fd file Hc) as [E1 E2].
  pose proof Hrep as [[Of Oi Od Odir Oino] Hpos Hsz Hm Hbm Hdev Hfl Hlen Hb Hinj Htot Hroom].
  assert (Hu : u32 p = p) by (apply u32_id; unfold is_u32, UINT_MOD, MAX_FILE, NR_TZONES, BLOCK_SIZE in *; lia).
  assert (Hh : Z.of_nat (holes ino) <= NR_TZONES - (p / BLOCK_SIZE + 1)).
  { apply holes_bound; [done|unfold MAX_FILE, NR_TZONES, BLOCK_SIZE in *; zlia|]. intros j Hj. apply Hz. lia. }
  unfold sys_lseek. rewrite (bind_run _ _ _ _ _ E1). cbn [negb]. rewrite (bind_run _ _ _ _ _ E2), (bind_run _ _ k file k) by done.
  rewrite (bind_run _ _ _ _ _ (getf_run _ _ _ Of)), Oi, (bind_run _ _ k i k), (bind_run _ _ _ _ _ (kgeti_run _ _ _ Oino)) by done.
  rewrite Hfl. cbn [Z.eqb SEEK_SET]. unfold extend_file. rewrite Hu.
  rewrite (bind_run _ _ _ _ _ (getf_run _ _ _ Of)), Oi, (bind_run _ _ k i k), (bind_run _ _ _ _ _ (kgeti_run _ _ _ Oino)) by done.
  rewrite (proj2 (Z.ltb_lt p _)) by (rewrite Htot; unfold BLOCK_SIZE in *; zlia).
  rewrite (bind_run _ _ _ _ _ (updf_run _ _ _ _ Of)).
  exists (kfs k <| fd_table := <[Z.to_nat file := f <| filp_pos := p |>]> (fd_table (kfs k)) |>).
  split; [|split; [|split; [|done]]].
  - by rewrite s32_id by (unfold is_s32, MAX_FILE, NR_TZONES, BLOCK_SIZE in *; lia).
  - split; rewrite ?kfs_kfs; try done; [|by rewrite <- Hu; apply u32_range|by destruct Hm; split].
    split; rewrite ?kfs_kfs; try done. by apply (aget_insert_same _ _ f).
  - apply grows_same; [done| |done]. intros x H0 Hx. apply aget_Some_bound in Of. 
    change (aget (<[Z.to_nat file := f <| filp_pos := p |>]> (fd_table (kfs k))) x = aget (fd_table (kfs k)) x).
    by rewrite aget_insert, decide_False by (lia || congruence).
Qed.

(** ** The file as a map *)

(** A file the way its user sees it, with the memory of the user. *)
Record afile := mkAFile { a_words : gmap Z Z; a_pos : Z; a_size : Z; a_mem : memory }.

Inductive freq := FWrite (src n : Z) | FSeek (p : Z) | FRead (dst n : Z).

Definition fserve (who fd : Z) (r : freq) : K Z :=
  match r with
  | FWrite src n => sys_write who fd src n
  | FSeek p => sys_lseek who fd p SEEK_SET
  | FRead dst n => sys_read who fd dst n
  end.

Fixpoint fserves (who fd : Z) (rs : list freq) : K (list Z) :=
  match rs with
  | [] => mret []
  | r :: rs' => x ← fserve who fd r; xs ← fserves who fd rs'; mret (x :: xs)
  end.

(** [n] words from [p] on. *)
Definition put_range (m : gmap Z Z) (p n : Z) (w : Z -> Z) : gmap Z Z :=
  foldr (fun j m => <[p + j := w j]> m) m (seqZ 0 n).

Definition afile_step (a : afile) (r : freq) : Z * afile :=
  match r with
  | FWrite src n =>
      (n, mkAFile (put_range (a_words a) (a_pos a) n (fun j => a_mem a (src + j))) (a_pos a + n) (a_size a + n) (a_mem a))
  | FSeek p => (p, mkAFile (a_words a) p (a_size a) (a_mem a))
  | FRead dst n =>
      (n, mkAFile (a_words a) (a_pos a + n) (a_size a)
            (fun x => if decide (dst <= x < dst + n) then default 0 (a_words a !! (a_pos a + (x - dst))) else a_mem a x))
  end.

Fixpoint afile_run (a : afile) (rs : list freq) : list Z * afile :=
  match rs with
  | [] => ([], a)
  | r :: rs' => let '(x, a') := afile_step a r in let '(xs, a'') := afile_run a' rs' in (x :: xs, a'')
  end.

(** Requests within the limits of a file: the end of its last zone is not
    reached, reads stay in what was written, and the position goes to a block of
    the file. *)
Definition freq_ok (a : afile) (r : freq) : Prop :=
  match r with
  | FWrite src n => 0 <= n /\ a_pos a + n < MAX_FILE /\ a_size a + n < UINT_MOD
  | FSeek p => 0 <= p < MAX_FILE /\ forall j, 0 <= j <= p / BLOCK_SIZE -> exists o, o / BLOCK_SIZE = j /\ is_Some (a_words a !! o)
  | FRead dst n => 0 <= n /\ a_pos a + n < MAX_FILE /\ a_pos a + n <= a_size a /\
      forall o, a_pos a <= o < a_pos a + n -> is_Some (a_words a !! o)
  end.

Fixpoint freqs_ok (a : afile) (rs : list freq) : Prop :=
  match rs with
  | [] => True
  | r :: rs' => freq_ok a r /\ freqs_ok (snd (afile_step a r)) rs'
  end.

Lemma put_range_lookup m p n w o :
  0 <= n -> put_range m p n w !! o = if decide (p <= o < p + n) then Some (w (o - p)) else m !! o.
Proof.
  intros Hn. unfold put_range. rewrite <- (Z2Nat.id n Hn). generalize (Z.to_nat n) as c. clear n Hn. intros c.
  assert (H : forall b, foldr (fun j m => <[p + j := w j]> m) m (seqZ b (Z.of_nat c)) !! o =
    if decide (p + b <= o < p + b + Z.of_nat c) then Some (w (o - p)) else m !! o).
  { induction c as [|c IH]; intros b; [cbn; rewrite decide_False by lia; done|]. rewrite seqZ_cons by lia.
    replace (Z.pred (Z.of_nat (S c))) with (Z.of_nat c) by lia. cbn [foldr]. destruct (decide (o = p + b)) as [->|Hne].
    - rewrite lookup_insert_eq, decide_True by lia. do 2 f_equal. lia.
    - rewrite lookup_insert_ne by congruence. rewrite IH. repeat case_decide; done || lia. }
  rewrite H. by rewrite Z.add_0_r.
Qed.

(** The open file [file] of the caller stands for [a]. *)
Record afile_rep (bm : Z) (used : Z -> bool) (k : kst) (who fd file i : Z) (ino : inode_t) (a : afile) : Prop := {
  ar_caller : caller k who fd file;
  ar_file : exists f, file_rep bm used k file i f ino /\ filp_pos f = a_pos a;
  ar_size : i_size ino = a_size a;
  ar_mem : forall x, kmem k x = a_mem a x;
  ar_words : forall o v, a_words a !! o = Some v -> fword (kfs k) ino o = Some v
}.

(** A read that may come to the end of the file delivers what is before the end. *)
Lemma afile_read bm used k who fd file i ino a dst n e :
  afile_rep bm used k who fd file i ino a -> 0 <= n -> a_pos a + n < MAX_FILE -> ends_at (kfs k) ino (a_pos a) n e ->
  (forall o, a_pos a <= o < Z.min (a_pos a + n) e -> is_Some (a_words a !! o)) ->
  let r := Z.min n (e - a_pos a) in
  exists k', sys_read who fd dst n k = Some (r, k') /\ afile_rep bm used k' who fd file i ino (snd (afile_step a (FRead dst r))) /\
    grows bm file i (kfs k) ino used (kfs k') ino used /\ procs k' = procs k.
Proof.
  intros [Hc (f & Hf & Hpos) Hsz Hmem Hw] Hn Hmax He Hhave r. pose proof (fr_pos _ _ _ _ _ _ _ Hf) as [Hp0 _]. rewrite <- Hpos in Hmax, He, Hhave.
  destruct (sys_read_run bm used k who fd file i f ino dst n _ Hc Hf Hn Hmax He) as (m' & s' & E & R & [W1 W2] & W & G).
  assert (Hr : Z.min n (e - filp_pos f) = r) by (subst r; by rewrite Hpos). rewrite Hr in *.
  pose proof (en_pos _ _ _ _ _ He) as Hpe.
  set (k' := k <| curr_user_proc := Some who |> <| kmem := m' |> <| kfs := s' |>) in *. assert (Hs' : kfs k' = s') by done.
  exists k'. split; [done|]. split; [|done].
  assert (Hpf : filp_pos (moved f r) = filp_pos f + r) by (apply u32_id; unfold is_u32, UINT_MOD, MAX_FILE, NR_TZONES, BLOCK_SIZE in *; lia).
  split; cbn [afile_step snd a_words a_pos a_size a_mem]; [by destruct Hc| |done| |].
  - exists (moved f r). split; [destruct R as [[] ??????????]; by split|by rewrite Hpf, Hpos].
  - intros x. change (kmem k') with m'. case_decide as Hx; [|rewrite W2 by lia; apply Hmem].
    destruct (Hhave (filp_pos f + (x - dst))) as [v Hv]; [lia|]. rewrite <- Hpos, Hv. cbn. apply Hw in Hv.
    rewrite W1 in Hv by lia. replace (dst + (x - dst)) with x in Hv by lia. congruence.
  - intros o v Hv%Hw. by rewrite Hs', W.
Qed.

Lemma afile_serve bm used k who fd file i ino a r :
  afile_rep bm used k who fd file i ino a -> freq_ok a r ->
  exists used' ino' k', fserve who fd r k = Some (fst (afile_step a r), k') /\
    afile_rep bm used' k' who fd file i ino' (snd (afile_step a r)) /\ grows bm file i (kfs k) ino used (kfs k') ino' used' /\
    procs k' = procs k.
Proof.
  intros [Hc (f & Hf & Hpos) Hsz Hmem Hw] Hok. pose proof (fr_pos _ _ _ _ _ _ _ Hf) as [Hp0 _].
  destruct r as [src n|p|dst n]; cbn [afile_step fst snd freq_ok fserve] in *; rewrite ?Hpos, <- ?Hsz in *.
  - destruct Hok as (Hn & Hmax & Hso). rewrite <- Hpos in Hmax.
    destruct (sys_write_run bm used k who fd file i f ino src n) as (used' & ino' & s' & E & R & Sz & G & [W1 W2]); [done..|].
    exists used', ino', (k <| curr_user_proc := Some who |> <| kfs := s' |>). split; [done|]. split; [|done].
    assert (Hpf : filp_pos (moved f n) = filp_pos f + n) by (apply u32_id; unfold is_u32, UINT_MOD, MAX_FILE, NR_TZONES, BLOCK_SIZE in *; lia).
    split; cbn [a_words a_pos a_size a_mem]; [by destruct Hc| | |done|].
    + exists (moved f n). split; [destruct R as [[] ??????????]; by split|by rewrite Hpf, Hpos].
    + rewrite Sz. destruct (fr_size _ _ _ _ _ _ _ Hf). apply u32_id. unfold is_u32. lia.
    + intros o v. rewrite put_range_lookup by done. change (kfs (k <| curr_user_proc := Some who |> <| kfs := s' |>)) with s'.
      case_decide as Ho; [|intros Hv; apply W2; [by apply Hw|by rewrite Hpos]]. intros [= <-].
      replace o with (filp_pos f + (o - filp_pos f)) at 1 by lia. rewrite W1 by lia. by rewrite Hmem, Hpos.
  - destruct Hok as (Hp & Hz). destruct (sys_lseek_run bm used k who fd file i f ino p) as (s' & E & R & G & V); [done..| |].
    { intros j Hj. destruct (Hz j Hj) as (o & <- & v & Hv). by eapply fword_zone, Hw. }
    exists used, ino, (k <| kfs := s' |>). split; [done|]. split; [|done].
    split; cbn [a_words a_pos a_size a_mem]; [by destruct Hc|by eexists|done|done|]. intros o v Hv%Hw. rewrite kfs_kfs. unfold fword in *. by rewrite V.
  - destruct Hok as (Hn & Hmax & Hs & Hhave). rewrite <- Hpos in Hmax, Hs, Hhave.
    rewrite Hpos in *. destruct (afile_read bm used k who fd file i ino a dst n (a_pos a + n)) as (k' & E & R & G & P); [by split; eauto|done..| | |].
    { apply ends_within; [lia..|]. intros o Ho. destruct (Hhave o Ho) as [v Hv]. eexists. by apply Hw. }
    { intros o Ho. apply Hhave. lia. }
    replace (Z.min n (a_pos a + n - a_pos a)) with n in * by lia. cbn [afile_step snd] in R. rewrite <- Hsz in R. by exists used, ino, k'.
Qed.

(** A file is a map from offsets to words.  For any sequence of writes, seeks
    and reads of an open file within its limits, [sys_write], [sys_lseek] and
    [sys_read] return the counts and positions of the map, reads deliver the words
    last written there, wherever the blocks of the file begin and end and whether
    they were there or are allocated on the way, and no other block in use changes. *)
Theorem file_refines rs : forall bm used k who fd file i ino a,
  afile_rep bm used k who fd file i ino a -> freqs_ok a rs ->
  exists used' ino' k', fserves who fd rs k = Some (fst (afile_run a rs), k') /\
    afile_rep bm used' k' who fd file i ino' (snd (afile_run a rs)) /\
    (forall m, m <> 0 -> m <> bm -> used m = true -> (forall j, zone_of ino j <> Some m) -> view_of (kfs k') m = view_of (kfs k) m).
Proof.
  enough (H : forall bm used k who fd file i ino a, afile_rep bm used k who fd file i ino a -> freqs_ok a rs ->
    exists used' ino' k', fserves who fd rs k = Some (fst (afile_run a rs), k') /\
      afile_rep bm used' k' who fd file i ino' (snd (afile_run a rs)) /\ grows bm file i (kfs k) ino used (kfs k') ino' used').
  { intros bm used k who fd file i ino a Ha Hok. destruct (H _ _ _ _ _ _ _ _ _ Ha Hok) as (used' & ino' & k' & E & R & G).
    exists used', ino', k'. split; [done|]. split; [done|]. apply G. }
  induction rs as [|r rs IH]; intros bm used k who fd file i ino a Ha Hok.
  - exists used, ino, k. split; [done|]. split; [done|apply grows_refl].
  - destruct Hok as [Hr Hok]. destruct (afile_serve _ _ _ _ _ _ _ _ _ _ Ha Hr) as (u1 & n1 & k1 & E1 & R1 & G1 & _). cbn [fserves afile_run].
    rewrite (bind_run _ _ _ _ _ E1). destruct (afile_step a r) as [x a1]. cbn [fst snd] in *.
    destruct (IH _ _ _ _ _ _ _ _ _ R1 Hok) as (u2 & n2 & k2 & E2 & R2 & G2). rewrite (bind_run _ _ _ _ _ E2).
    destruct (afile_run a1 rs) as [xs a2]. cbn [fst snd] in *. exists u2, n2, k2. split; [done|]. split; [done|]. by eapply grows_trans.
Qed.

(** A new file, 1500 words of which are written over two blocks; the words 1000 to
    1099 are read back. *)
Definition files_ino : inode_t := inode_zero <| i_dev := ROOTFS_DEV |>.
Definition files_file : filp_t := mkFilp 0 0 1 (Some 0) 0 ROOTFS_DEV 0 0 0 0 0 0.
Definition files_fs : fsst := alloc_sample <| fd_table := [files_file] |> <| inode_table := [files_ino] |>.
Definition files_proc : proc := proc_zero <| fp_filp := Some 0 :: replicate 15 None |>.
Definition files_k : kst := sample_k <| procs := {[ 2 := files_proc ]} |> <| kmem := fun a => a |> <| kfs := files_fs |>.
Definition files_a : afile := mkAFile ∅ 0 0 (fun a => a).

Lemma no_zone j z : zone_of files_ino j = Some z -> z = 0.
Proof. unfold zone_of, aget. case_decide; [|done]. by intros [-> _]%(lookup_replicate_1 8 0). Qed.

Lemma file_refines_witness :
  exists k', fserves 2 0 [FWrite 100 1500; FSeek 1000; FRead 5000 100] files_k = Some ([1500; 1000; 100], k') /\
    forall j, 0 <= j < 100 -> kmem k' (5000 + j) = 1100 + j.
Proof.
  assert (Hk : kfs files_k = files_fs) by apply kfs_kfs.
  destruct (file_refines [FWrite 100 1500; FSeek 1000; FRead 5000 100] 1 (fun x => x <? 5) files_k 2 0 0 0 files_ino files_a)
    as (used' & ino' & k' & E & [_ _ _ Hm _] & _).
  - split; [split; [done|exists files_proc; split; [vm_compute; reflexivity|done]]| |done|done|by intros o v].
    exists files_file. split; [|done]. split; rewrite ?Hk; try done.
    + by destruct alloc_sample_map; split.
    + by intros j z ->%no_zone.
    + by intros j1 j2 z ->%no_zone.
    + vm_compute. lia.
  - set (w := put_range ∅ 0 1500 (fun j => 100 + j)).
    assert (Hw : forall o, 0 <= o < 1500 -> is_Some (w !! o)).
    { intros o Ho. unfold w. rewrite put_range_lookup, decide_True by lia. by eexists. }
    split; [by vm_compute|]. split; [|split; [|done]].
    + split; [by vm_compute|]. intros j Hj. exists 0. split; [unfold BLOCK_SIZE in *; zlia|]. apply (Hw 0). lia.
    + split; [lia|]. split; [by vm_compute|]. split; [by vm_compute|]. intros o Ho. apply (Hw o). change (1000 <= o < 1000 + 100) in Ho. lia.
  - exists k'. split; [exact E|]. intros j Hj. rewrite Hm. cbn [afile_run afile_step snd a_mem a_pos a_words].
    rewrite decide_True by lia. rewrite put_range_lookup by lia. rewrite decide_True by (cbn; lia). cbn. lia.
Defined.
