(* ===== verification/Opens.v ===== *)
(** * Several open files

    Files that are opened apart, by one process or by many, do not see each other:
    whatever the order in which their reads, writes and seeks are served, each is a
    map of its own, also while the blocks they share the disk with are handed out. *)
From S2P Require Import Prelude Bitmap Mm Linked CString Timer Slab Kernel Proc Ipc Cache Coherence Blocks Inode Dirs Alloc Signal Filp Pipe Fifo Rootfs FileIO Fsys Files.

(** A descriptor of a process, and what it is open on: the entry of [fd_table], the
    entry of the inode table and the inode in it. *)
Notation key := (Z * Z)%type.
Record opened := mkOpened { o_file : Z; o_entry : Z; o_inode : inode_t }.

(** ** The files of all descriptors, in one memory *)
Definition share (m : memory) (a : afile) : afile := mkAFile (a_words a) (a_pos a) (a_size a) m.

Definition put_file (A : gmap key afile) (q : key) (a : afile) : gmap key afile := share (a_mem a) <$> <[q := a]> A.

Definition afiles_step (A : gmap key afile) (qr : key * freq) : option (Z * gmap key afile) :=
  a ← A !! fst qr; Some (fst (afile_step a (snd qr)), put_file A (fst qr) (snd (afile_step a (snd qr)))).

Fixpoint afiles_run (A : gmap key afile) (rs : list (key * freq)) : option (list Z * gmap key afile) :=
  match rs with
  | [] => Some ([], A)
  | r :: rs' => p ← afiles_step A r; p' ← afiles_run (snd p) rs'; Some (fst p :: fst p', snd p')
  end.

(** Every request is within the limits of its file. *)
Fixpoint requests_ok (A : gmap key afile) (rs : list (key * freq)) : Prop :=
  match rs with
  | [] => True
  | (q, r) :: rs' =>
      match A !! q with
      | Some a => freq_ok a r /\ requests_ok (put_file A q (snd (afile_step a r))) rs'
      | None => False
      end
  end.

Fixpoint serve_all (rs : list (key * freq)) : K (list Z) :=
  match rs with
  | [] => mret []
  | (q, r) :: rs' => x ← fserve (fst q) (snd q) r; xs ← serve_all rs'; mret (x :: xs)
  end.

(** ** The kernel behind them *)
Definition all_holes (D : gmap key opened) : nat := map_fold (fun _ d n => holes (o_inode d) + n)%nat 0%nat D.

Record apart (d1 d2 : opened) : Prop := {
  ap_file : o_file d1 <> o_file d2;
  ap_entry : o_entry d1 <> o_entry d2;
  ap_zones : forall j1 j2 z, zone_of (o_inode d1) j1 = Some z -> zone_of (o_inode d2) j2 = Some z -> z = 0
}.

Definition stands_for (bm : Z) (used : Z -> bool) (k : kst) (q : key) (d : opened) (a : afile) : Prop :=
  afile_rep bm used k (fst q) (snd q) (o_file d) (o_entry d) (o_inode d) a.

Record files_rep (bm : Z) (used : Z -> bool) (k : kst) (D : gmap key opened) (A : gmap key afile) : Prop := {
  fs_each : map_Forall2 (stands_for bm used k) D A;
  fs_apart : forall q1 q2 d1 d2, D !! q1 = Some d1 -> D !! q2 = Some d2 -> q1 <> q2 -> apart d1 d2;
  fs_room : (all_holes D <= free_blocks used)%nat
}.

(** No block is a block of an open file. *)
Definition unopened (D : gmap key opened) (m : Z) : Prop := forall q d j, D !! q = Some d -> zone_of (o_inode d) j <> Some m.

(** Blocks that no file has open are not changed, and stay so. *)
Record kept_apart (bm : Z) (used : Z -> bool) (k : kst) (D : gmap key opened) (used' : Z -> bool) (k' : kst) (D' : gmap key opened) : Prop := {
  ka_used : forall m, used m = true -> used' m = true;
  ka_view : forall m, m <> 0 -> m <> bm -> used m = true -> unopened D m -> unopened D' m /\ view_of (kfs k') m = view_of (kfs k) m
}.

Lemma kept_apart_trans bm u1 k1 D1 u2 k2 D2 u3 k3 D3 :
  kept_apart bm u1 k1 D1 u2 k2 D2 -> kept_apart bm u2 k2 D2 u3 k3 D3 -> kept_apart bm u1 k1 D1 u3 k3 D3.
Proof.
  intros [U1 V1] [U2 V2]. split; [auto|]. intros m H0 Hb Hu Ho. destruct (V1 m H0 Hb Hu Ho) as [O1 E1].
  destruct (V2 m H0 Hb (U1 _ Hu) O1) as [O2 E2]. split; [done|congruence].
Qed.

Lemma all_holes_insert D q d d' :
  D !! q = Some d -> (all_holes (<[q := d']> D) + holes (o_inode d) = all_holes D + holes (o_inode d'))%nat.
Proof.
  intros Hd. unfold all_holes. rewrite <- (insert_delete_id D q d Hd) at 2. rewrite <- insert_delete_eq.
  rewrite !map_fold_insert_L by (intros; lia || apply lookup_delete_eq). lia.
Qed.

Lemma holes_le_all D q d : D !! q = Some d -> (holes (o_inode d) <= all_holes D)%nat.
Proof.
  intros Hd. unfold all_holes. rewrite <- (insert_delete_id D q d Hd). rewrite map_fold_insert_L by (intros; lia || apply lookup_delete_eq). lia.
Qed.

(** ** One file changes *)
Lemma stands_for_kept bm used k q d a d1 used' k' n1 m :
  stands_for bm used k q d a -> apart d1 d -> grows bm (o_file d1) (o_entry d1) (kfs k) (o_inode d1) used (kfs k') n1 used' ->
  map_rep bm used' (kfs k') -> procs k' = procs k -> (forall x, kmem k' x = m x) -> (holes (o_inode d) <= free_blocks used')%nat ->
  stands_for bm used' k' q d (share m a).
Proof.
  intros [[Hfd Hp] (f & [[Of Oi Od Odir Oino] Hpos Hsz Hm Hbm Hdev Hfl Hlen Hb Hinj Htot _] & Hfp) Hs _ Hw] [Xf Xi Xz]
    [Gu _ _ Gv Gf Gi _] Hm' Hprocs Hmem Hroom.
  pose proof (aget_Some_bound _ _ _ Of) as [Bf _]. pose proof (aget_Some_bound _ _ _ Oino) as [Bi _].
  assert (Hb' : forall j z, zone_of (o_inode d) j = Some z -> z <> 0 -> is_block z /\ z <> bm /\ used' z = true).
  { intros j z Hj Hz. destruct (Hb j z Hj Hz) as (? & ? & ?). auto. }
  split; cbn [share a_words a_pos a_size a_mem]; [split; [done|by rewrite Hprocs]| |done|done|].
  - exists f. split; [|done]. split; try done; [|by apply Gu]. split; try done.
    + by rewrite Gf by congruence.
    + by rewrite Gi by congruence.
  - intros o v Hv%Hw. apply (fword_keep _ _ _ _ _ _ Hv); [done|]. intros z Hz H0. destruct (Hb _ _ Hz H0) as (_ & ? & ?).
    apply Gv; [done..|]. intros j Hj. by apply H0, (Xz j (o / BLOCK_SIZE)).
Qed.

Lemma apart_grown bm used k d1 d used' n1 s' :
  apart d1 d -> (forall j z, zone_of (o_inode d) j = Some z -> z <> 0 -> used z = true) ->
  grows bm (o_file d1) (o_entry d1) (kfs k) (o_inode d1) used s' n1 used' -> apart (mkOpened (o_file d1) (o_entry d1) n1) d.
Proof.
  intros [Xf Xi Xz] Hu [_ _ Gn _ _ _ _]. split; [done..|]. intros j1 j2 z H1 H2. cbn [o_inode] in H1.
  destruct (decide (z = 0)) as [|Hz]; [done|]. destruct (Gn j1 z H1 Hz) as [H|H]; [by apply (Xz j1 j2)|]. rewrite (Hu j2) in H; done.
Qed.

Lemma apart_sym d1 d2 : apart d1 d2 -> apart d2 d1.
Proof. intros [Xf Xi Xz]. split; [congruence..|]. intros j1 j2 z H1 H2. by apply (Xz j2 j1). Qed.

Lemma each_of (bm : Z) (used : Z -> bool) (k : kst) (D : gmap key opened) (A : gmap key afile) (q : key) d :
  map_Forall2 (stands_for bm used k) D A -> D !! q = Some d -> exists a, A !! q = Some a /\ stands_for bm used k q d a.
Proof. intros H Hd. specialize (H q). rewrite Hd in H. inversion H; eauto. Qed.

Lemma each_at (bm : Z) (used : Z -> bool) (k : kst) (D : gmap key opened) (A : gmap key afile) (q : key) a :
  map_Forall2 (stands_for bm used k) D A -> A !! q = Some a -> exists d, D !! q = Some d /\ stands_for bm used k q d a.
Proof. intros H Ha. specialize (H q). rewrite Ha in H. inversion H; eauto. Qed.

Lemma stands_for_used bm used k q d a j z :
  stands_for bm used k q d a -> zone_of (o_inode d) j = Some z -> z <> 0 -> used z = true.
Proof. intros [_ (f & Hf & _) _ _ _] Hj Hz. by destruct (fr_blocks _ _ _ _ _ _ _ Hf j z Hj Hz) as (_ & _ & ?). Qed.

(** What one file does to itself keeps all the others: the frame of every system
    call on an open file. *)
Lemma files_rep_frame bm used k D A q d a n1 used' k' a' :
  files_rep bm used k D A -> D !! q = Some d -> A !! q = Some a ->
  stands_for bm used' k' q (mkOpened (o_file d) (o_entry d) n1) a' ->
  grows bm (o_file d) (o_entry d) (kfs k) (o_inode d) used (kfs k') n1 used' -> procs k' = procs k ->
  let D' := <[q := mkOpened (o_file d) (o_entry d) n1]> D in
  files_rep bm used' k' D' (put_file A q a') /\ kept_apart bm used k D used' k' D'.
Proof.
  intros [Heach Hapart Hroom] Hd Ha Hst Hg Hprocs D'. set (d' := mkOpened (o_file d) (o_entry d) n1) in *.
  pose proof Hg as [Gu Gz Gn Gv Gf Gi Gr]. pose proof (ar_mem _ _ _ _ _ _ _ _ _ Hst) as Hmem.
  assert (Hused : forall q2 d2, D !! q2 = Some d2 -> forall j z, zone_of (o_inode d2) j = Some z -> z <> 0 -> used z = true).
  { intros q2 d2 Hd2 j z. destruct (each_of _ _ _ _ _ _ _ Heach Hd2) as (a2 & _ & H2). by apply (stands_for_used _ _ _ _ _ _ _ _ H2). }
  assert (Hroom' : (all_holes D' <= free_blocks used')%nat).
  { pose proof (all_holes_insert D q d d' Hd). fold D' in H. change (o_inode d') with n1 in H. lia. }
  assert (Hap : forall q2 d2, D !! q2 = Some d2 -> q <> q2 -> apart d' d2).
  { intros q2 d2 Hd2 Hne. eapply apart_grown; [by apply (Hapart q q2)|by eapply Hused|exact Hg]. }
  split; [split; [| |done]|].
  - intros q2. unfold put_file. rewrite lookup_fmap. destruct (decide (q = q2)) as [<-|Hne].
    + unfold D'. rewrite !lookup_insert_eq. constructor. by destruct a'.
    + unfold D'. rewrite !lookup_insert_ne by done. destruct (ar_file _ _ _ _ _ _ _ _ _ Hst) as (f' & Hf' & _).
      pose proof (Heach q2) as H2. destruct (D !! q2) as [d2|] eqn:Hd2; inversion H2 as [? a2 H2' E1 E2|]; constructor.
      eapply stands_for_kept; [exact H2'|by apply (Hapart q q2)|exact Hg|apply (fr_map _ _ _ _ _ _ _ Hf')|done|done|].
      etransitivity; [|exact Hroom']. apply (holes_le_all D' q2). unfold D'. by rewrite lookup_insert_ne.
  - intros q1 q2 d1 d2 H1 H2 Hne. unfold D' in H1, H2. apply lookup_insert_Some in H1 as [[-> <-]|[Hn1 H1]]; apply lookup_insert_Some in H2 as [[Hn2 E2]|[Hn2 H2]].
    + congruence.
    + by apply (Hap q2).
    + subst q2 d2. apply apart_sym. by apply (Hap q1).
    + by apply (Hapart q1 q2).
  - split; [done|]. intros m H0 Hb Hu Ho. split.
    + intros q2 d2 j H2. unfold D' in H2. apply lookup_insert_Some in H2 as [[<- <-]|[_ H2]]; [|by apply (Ho q2)].
      intros Hj. destruct (Gn j m Hj H0) as [H|H]; [by apply (Ho q d j)|congruence].
    + apply Gv; [done..|]. intros j. by apply (Ho q).
Qed.

(** ** Any order of requests *)
Lemma files_serve bm used k D A q r a :
  files_rep bm used k D A -> A !! q = Some a -> freq_ok a r ->
  exists used' D' k', fserve (fst q) (snd q) r k = Some (fst (afile_step a r), k') /\
    files_rep bm used' k' D' (put_file A q (snd (afile_step a r))) /\ kept_apart bm used k D used' k' D'.
Proof.
  intros Hrep Ha Hok. destruct (each_at _ _ _ _ _ _ _ (fs_each _ _ _ _ _ Hrep) Ha) as (d & Hd & Hst).
  destruct (afile_serve _ _ _ _ _ _ _ _ _ _ Hst Hok) as (used' & n1 & k' & E & R & G & P).
  destruct (files_rep_frame _ _ _ _ _ _ _ _ _ _ _ _ Hrep Hd Ha R G P) as [Hrep' Hk]. eauto 10.
Qed.

(** C4: open files are maps from offsets to words, each its own.  For any number of
    files opened apart, by one process or several, and any interleaving of writes,
    seeks and reads on them within their limits, [sys_write], [sys_lseek] and
    [sys_read] return the counts and positions of these maps and reads deliver the
    words last written to that file, although all of them take their blocks from
    the same disk through the same cache; no block in use that no file has open
    changes. *)
Theorem files_refine rs : forall bm used k D A,
  files_rep bm used k D A -> requests_ok A rs ->
  exists xs A' used' D' k', afiles_run A rs = Some (xs, A') /\ serve_all rs k = Some (xs, k') /\
    files_rep bm used' k' D' A' /\
    (forall m, m <> 0 -> m <> bm -> used m = true -> unopened D m -> view_of (kfs k') m = view_of (kfs k) m).
Proof.
  enough (H : forall bm used k D A, files_rep bm used k D A -> requests_ok A rs ->
    exists xs A' used' D' k', afiles_run A rs = Some (xs, A') /\ serve_all rs k = Some (xs, k') /\
      files_rep bm used' k' D' A' /\ kept_apart bm used k D used' k' D').
  { intros bm used k D A Hr Hok. destruct (H _ _ _ _ _ Hr Hok) as (xs & A' & used' & D' & k' & E & S & R & [_ V]).
    exists xs, A', used', D', k'. do 3 (split; [done|]). intros m H0 Hb Hu Ho. by apply V. }
  induction rs as [|[q r] rs IH]; intros bm used k D A Hr Hok.
  - exists [], A, used, D, k. do 3 (split; [done|]). split; auto.
  - cbn [requests_ok] in Hok. destruct (A !! q) as [a|] eqn:Ha; [|done]. destruct Hok as [H1 Hok].
    destruct (files_serve _ _ _ _ _ _ _ _ Hr Ha H1) as (u1 & D1 & k1 & E1 & R1 & K1).
    destruct (IH _ _ _ _ _ R1 Hok) as (xs & A2 & u2 & D2 & k2 & E2 & S2 & R2 & K2).
    exists (fst (afile_step a r) :: xs), A2, u2, D2, k2. split; [|split; [|split; [done|by eapply kept_apart_trans]]].
    + cbn [afiles_run]. unfold afiles_step. cbn [fst snd]. rewrite Ha. cbn [mbind option_bind fst snd]. by rewrite E2.
    + cbn [serve_all]. by rewrite (bind_run _ _ _ _ _ E1), (bind_run _ _ _ _ _ S2).
Qed.

(** Two processes write a new file each, in turns of 600 words, over the same free
    blocks; each reads its own words back. *)
Definition opens_proc (file : Z) : proc := proc_zero <| fp_filp := Some file :: replicate 15 None |>.
Definition opens_fs : fsst :=
  alloc_sample <| fd_table := [files_file; files_file <| filp_ino := Some 1 |>] |> <| inode_table := [files_ino; files_ino] |>.
Definition opens_k : kst :=
  sample_k <| procs := {[ 2 := opens_proc 0; 3 := opens_proc 1 ]} |> <| kmem := fun a => a |> <| kfs := opens_fs |>.
Definition opens_d : gmap key opened := {[ (2, 0) := mkOpened 0 0 files_ino; (3, 0) := mkOpened 1 1 files_ino ]}.
Definition opens_a : gmap key afile := {[ (2, 0) := files_a; (3, 0) := files_a ]}.
Definition opens_turns : list (key * freq) :=
  [((2, 0), FWrite 1000 600); ((3, 0), FWrite 5000 600); ((2, 0), FWrite 1600 600); ((3, 0), FWrite 5600 600);
   ((2, 0), FSeek 0); ((3, 0), FSeek 1100); ((2, 0), FRead 20000 1200); ((3, 0), FRead 30000 100)].

Lemma fresh_stands k p fd i pr :
  map_rep 1 (fun x => x <? 5) (kfs k) -> aget (inode_table (kfs k)) i = Some files_ino ->
  aget (fd_table (kfs k)) i = Some (files_file <| filp_ino := Some i |>) -> procs k !! p = Some pr -> aget (fp_filp pr) fd = Some (Some i) ->
  0 <= fd < OPEN_MAX -> kmem k = (fun a => a) -> stands_for 1 (fun x => x <? 5) k (p, fd) (mkOpened i i files_ino) files_a.
Proof.
  intros Hm Hi Hf Hp Hfd Hr Hmem. split; [split; [done|by exists pr]| |done|by intros x; cbn; rewrite Hmem|by intros o v].
  exists (files_file <| filp_ino := Some i |>). split; [|done]. split; try done.
  - by intros j z ->%no_zone.
  - by intros j1 j2 z ->%no_zone.
  - vm_compute. lia.
Qed.

Lemma fresh_apart d file entry : o_file d <> file -> o_entry d <> entry -> apart d (mkOpened file entry files_ino).
Proof. intros H1 H2. split; [done..|]. by intros j1 j2 z _ ->%no_zone. Qed.

Lemma opens_sample : files_rep 1 (fun x => x <? 5) opens_k opens_d opens_a.
Proof.
  assert (Hm : map_rep 1 (fun x => x <? 5) (kfs opens_k)) by (assert (kfs opens_k = opens_fs) as -> by apply kfs_kfs; by destruct alloc_sample_map; split).
  split.
  - apply map_Forall2_insert_2; [by eapply fresh_stands|]. apply map_Forall2_singleton. by eapply fresh_stands.
  - intros q1 q2 d1 d2 H1 H2 Hne. unfold opens_d in H1, H2. apply lookup_insert_Some in H1 as [[<- <-]|[_ [<- <-]%lookup_singleton_Some]];
      apply lookup_insert_Some in H2 as [[<- <-]|[_ [<- <-]%lookup_singleton_Some]]; done || by apply fresh_apart.
  - vm_compute. lia.
Qed.

(** [freq_ok], computed: a block that is sought has its first word. *)
Definition freq_okb (a : afile) (r : freq) : bool :=
  let have o := bool_decide (is_Some (a_words a !! o)) in
  match r with
  | FWrite src n => (0 <=? n) && (a_pos a + n <? MAX_FILE) && (a_size a + n <? UINT_MOD)
  | FSeek p => (0 <=? p) && (p <? MAX_FILE) && forallb (fun j => have (j * BLOCK_SIZE)) (seqZ 0 (p / BLOCK_SIZE + 1))
  | FRead dst n => (0 <=? n) && (a_pos a + n <? MAX_FILE) && (a_pos a + n <=? a_size a) && forallb have (seqZ (a_pos a) n)
  end.

Fixpoint requests_okb (A : gmap key afile) (rs : list (key * freq)) : bool :=
  match rs with
  | [] => true
  | (q, r) :: rs' =>
      match A !! q with
      | Some a => freq_okb a r && requests_okb (put_file A q (snd (afile_step a r))) rs'
      | None => false
      end
  end.

Lemma freq_okb_ok a r : freq_okb a r = true -> freq_ok a r.
Proof.
  destruct r as [src n|p|dst n]; cbn [freq_okb freq_ok]; rewrite !andb_true_iff, ?forallb_forall.
  - lia.
  - intros [[H1 H2] H]. split; [lia|]. intros j Hj. exists (j * BLOCK_SIZE). split; [unfold BLOCK_SIZE; zlia|].
    apply (proj1 (bool_decide_eq_true (is_Some _))), H, list_elem_of_In, elem_of_seqZ. lia.
  - intros [[[H1 H2] H3] H]. do 3 (split; [lia|]). intros o Ho. apply (proj1 (bool_decide_eq_true (is_Some _))), H, list_elem_of_In, elem_of_seqZ. lia.
Qed.

Lemma requests_okb_ok rs : forall A, requests_okb A rs = true -> requests_ok A rs.
Proof.
  induction rs as [|[q r] rs IH]; intros A; cbn; [done|]. destruct (A !! q) as [a|]; [|done].
  intros [H1 H2]%andb_true_iff. split; [by apply freq_okb_ok|by apply IH].
Qed.

Definition opens_end : bool :=
  match afiles_run opens_a opens_turns with
  | Some (xs, A) =>
      bool_decide (xs = [600; 600; 600; 600; 0; 1100; 1200; 100]) &&
      match A !! (2, 0) with
      | Some a => forallb (fun j => a_mem a (20000 + j) =? 1000 + j) (seqZ 0 1200) && forallb (fun j => a_mem a (30000 + j) =? 6100 + j) (seqZ 0 100)
      | None => false
      end
  | None => false
  end.

Lemma files_refine_witness :
  exists k', serve_all opens_turns opens_k = Some ([600; 600; 600; 600; 0; 1100; 1200; 100], k') /\
    (forall j, 0 <= j < 1200 -> kmem k' (20000 + j) = 1000 + j) /\ (forall j, 0 <= j < 100 -> kmem k' (30000 + j) = 6100 + j).
Proof.
  destruct (files_refine opens_turns _ _ _ _ _ opens_sample) as (xs & A & used & D & k' & E & S & R & _).
  - apply requests_okb_ok. by vm_compute.
  - assert (He : opens_end = true) by by vm_compute. unfold opens_end in He. rewrite E in He. apply andb_true_iff in He as [->%bool_decide_eq_true He].
    exists k'. split; [exact S|]. destruct (A !! (2, 0)) as [a|] eqn:Ha; [|done]. destruct (each_at _ _ _ _ _ _ _ (fs_each _ _ _ _ _ R) Ha) as (d & _ & Hst).
    apply andb_true_iff in He as [H1 H2]. rewrite forallb_forall in H1, H2.
    split; intros j Hj; rewrite (ar_mem _ _ _ _ _ _ _ _ _ Hst); apply Z.eqb_eq; [apply H1|apply H2]; apply list_elem_of_In, elem_of_seqZ; lia.
Defined.
