(* ===== verification/Cp.v ===== *)
(** * user/commands/cp.c and mv.c

    Two commands over the file system calls.  A call of the user library is the call
    of the kernel it ends in; the paths are lists of characters, and [buffer] and the
    two stat buffers are addresses of the memory the kernel writes to.  What the
    programs print is left out. *)
From S2P Require Import Prelude Bitmap Mm Linked CString Timer Slab Kernel Proc Ipc Cache Coherence Blocks Inode Dirs Alloc Signal Filp Pipe Fifo Rootfs FileIO Syscalls Exit Fsys Files Opens.

Definition BUFFER_SIZ : Z := 256.
Definition S_ISREG (m : Z) : bool := Z.land m S_IFMT =? S_IFREG.

(** [st_mode] of a struct stat in memory. *)
Definition st_mode (statbuf : Z) : K Z := k ← getS; mret (kmem k (statbuf + 2)).

Section programs.
Context (who buffer src_buf dest_buf : Z).

(** ** cp *)

(** The loop that copies; [ret] of read and of write. *)
Fixpoint copy_loop (fuel : nat) (src_fd dest_fd : Z) : K unit :=
  match fuel with
  | O => crash
  | S fu =>
      ret ← sys_read who src_fd buffer BUFFER_SIZ;
      if negb (ret >? 0) then mret tt
      else
        ret ← sys_write who dest_fd buffer ret;
        if ret <=? 0 then mret tt else copy_loop fu src_fd dest_fd
  end.

(** "dest/src" and its end in [buffer], which has 256 words. *)
Definition join_path (dest src : list Z) : K (list Z) :=
  let path := dest ++ 47 :: src in
  if alen path <? BUFFER_SIZ
  then _ ← modifyS (fun k => k <| kmem ::= (fun m => wr_words m buffer (path ++ [0])) |>); mret path
  else crash.

(** [dest_fd] is closed before it is assigned: [junk] is what it holds. *)
Definition open_dest (dest src : list Z) (ret mode_dest mode junk : Z) : K Z :=
  if (ret =? 0) && S_ISDIR mode_dest then
    path ← join_path dest src;
    _ ← sys_close who junk;
    sys_open who path (Z.lor O_WRONLY O_CREAT) mode
  else sys_open who dest (Z.lor O_WRONLY O_CREAT) mode.

(** main of cp; the mode of an open that creates nothing is not read. *)
Definition cp_main (fuel : nat) (argv : list (list Z)) (junk : Z) : K Z :=
  match argv with
  | _ :: src :: dest :: _ =>
      src_fd ← sys_open who src O_RDONLY 0;
      if src_fd <? 0 then mret 1
      else
        ret ← sys_fstat who src_fd src_buf;
        if negb (ret =? 0) then mret ret
        else
          mode ← st_mode src_buf;
          if negb (S_ISREG mode) then mret 1
          else
            ret ← sys_stat who dest dest_buf;
            mode_dest ← st_mode dest_buf;
            dest_fd ← open_dest dest src ret mode_dest mode junk;
            if dest_fd <? 0 then mret 1
            else
              _ ← copy_loop fuel src_fd dest_fd;
              _ ← sys_close who src_fd;
              _ ← sys_close who dest_fd;
              mret 0
  | _ => mret 1
  end.

(** ** mv *)

(** The question whether to overwrite: [None] for 'n', else the result of unlink. *)
Fixpoint ask_overwrite (fuel : nat) (dest : list Z) : K (option Z) :=
  match fuel with
  | O => crash
  | S fu =>
      _ ← sys_read who 0 buffer BUFFER_SIZ;
      k ← getS;
      if kmem k buffer =? 110 then mret None
      else if kmem k buffer =? 121 then ret ← sys_unlink who dest; mret (Some ret)
      else ask_overwrite fu dest
  end.

Definition mv_link (path dest : list Z) : K Z :=
  ret ← sys_link who path dest;
  if negb (ret =? 0) then mret 1
  else ret ← sys_unlink who path; if negb (ret =? 0) then mret 1 else mret 0.

Definition mv_main (fuel : nat) (argv : list (list Z)) : K Z :=
  match argv with
  | _ :: path :: dest :: _ =>
      ret ← sys_stat who path src_buf;
      if negb (ret =? 0) then mret 1
      else
        ret ← sys_stat who dest dest_buf;
        if negb (ret =? 0) then mv_link path dest
        else
          mode ← st_mode dest_buf;
          if negb (S_ISREG mode) then mret 1
          else
            a ← ask_overwrite fuel dest;
            match (a : option Z) with
            | None => mret 0
            | Some ret => if negb (ret =? 0) then mret 1 else mv_link path dest
            end
  | _ => mret 1
  end.
End programs.

(** ** What the loop of cp copies *)

(** The source is read up to [c]; the destination has the first [n] words of it from
    its position on. *)
Definition copied_dest (s d : afile) (n : Z) (m : memory) : afile :=
  mkAFile (put_range (a_words d) (a_pos d) n (fun j => default 0 (a_words s !! j))) (a_pos d + n) (a_size d + n) m.

Definition copied (A : gmap key afile) (src dest : key) (s d : afile) (c n : Z) (m : memory) : gmap key afile :=
  share m <$> <[dest := copied_dest s d n m]> (<[src := mkAFile (a_words s) c (a_size s) m]> A).

Lemma put_range_ext m p n w w' : 0 <= n -> (forall j, 0 <= j < n -> w j = w' j) -> put_range m p n w = put_range m p n w'.
Proof.
  intros Hn H. apply map_eq. intros o. rewrite !put_range_lookup by done. case_decide; [|done]. f_equal. apply H. lia.
Qed.

Lemma put_range_more m p c r w :
  0 <= c -> 0 <= r -> put_range (put_range m p c w) (p + c) r (fun j => w (c + j)) = put_range m p (c + r) w.
Proof.
  intros Hc Hr. apply map_eq. intros o. rewrite !put_range_lookup by lia. repeat case_decide; try lia; try done. do 2 f_equal. lia.
Qed.

Lemma put_file_share m A q a : put_file (share m <$> A) q a = put_file A q a.
Proof.
  unfold put_file. apply map_eq. intros q2. rewrite !lookup_fmap. destruct (decide (q = q2)) as [<-|Hne].
  - by rewrite !lookup_insert_eq.
  - rewrite !lookup_insert_ne by done. rewrite lookup_fmap. by destruct (A !! q2).
Qed.

Lemma share_insert m A q a : share m <$> <[q := share m a]> A = (share m <$> <[q := a]> A : gmap key afile).
Proof. by rewrite !fmap_insert. Qed.

Lemma share_over m m' A q a b : share m <$> <[q := a]> (<[q := b]> A) = (share m <$> <[q := a]> A : gmap key afile).
Proof. by rewrite insert_insert_eq. Qed.

Section loop.
Context (bm : Z) (who buffer src_fd dest_fd q : Z) (A : gmap key afile) (s d : afile).
Hypothesis (Hfds : src_fd <> dest_fd) (Hpos : 0 <= a_pos d).

Notation src := (who, src_fd).
Notation dest := (who, dest_fd).
Notation e := (file_end (a_size s) q).
Notation at_ := (copied A src dest s d).

Hypothesis (Hwords : forall o, 0 <= o < e -> is_Some (a_words s !! o)).
Hypothesis (Hend : e + BUFFER_SIZ < MAX_FILE) (Hroom : a_pos d + e < MAX_FILE) (Hsize : a_size d + e < UINT_MOD).

Lemma copied_src c n m : at_ c n m !! src = Some (mkAFile (a_words s) c (a_size s) m).
Proof. unfold copied. rewrite lookup_fmap, lookup_insert_ne, lookup_insert_eq by congruence. done. Qed.

Lemma copied_dst c n m : at_ c n m !! dest = Some (copied_dest s d n m).
Proof. unfold copied. by rewrite lookup_fmap, lookup_insert_eq. Qed.

Lemma copied_read c n m c' m' : put_file (at_ c n m) src (mkAFile (a_words s) c' (a_size s) m') = at_ c' n m'.
Proof.
  unfold copied. rewrite put_file_share. unfold put_file. cbn [a_mem]. rewrite insert_insert_ne by congruence.
  rewrite insert_insert_eq, !fmap_insert. done.
Qed.

Lemma copied_write c n m n' : put_file (at_ c n m) dest (copied_dest s d n' m) = at_ c n' m.
Proof. unfold copied. rewrite put_file_share. unfold put_file. cbn [a_mem copied_dest]. by rewrite insert_insert_eq. Qed.

(** The source keeps its inode, whose first [q] zones are there. *)
Definition has_source (D : gmap key opened) : Prop := exists o, D !! src = Some o /\ filled (o_inode o) q.

(** One call of read: the next words are in the buffer. *)
Lemma copy_read used k D c m :
  files_rep bm used k D (at_ c c m) -> has_source D -> 0 <= c <= e ->
  let r := Z.min BUFFER_SIZ (e - c) in
  exists D' k' m', sys_read who src_fd buffer BUFFER_SIZ k = Some (r, k') /\ files_rep bm used k' D' (at_ (c + r) c m') /\
    has_source D' /\ (forall j, 0 <= j < r -> m' (buffer + j) = default 0 (a_words s !! (c + j))).
Proof.
  intros Hrep (o & Ho & Hf) Hc r. destruct (each_of _ _ _ _ _ _ _ (fs_each _ _ _ _ _ Hrep) Ho) as (a & Ha & Hst).
  rewrite copied_src in Ha. injection Ha as <-. pose proof (ar_size _ _ _ _ _ _ _ _ _ Hst) as Hsz. cbn [a_size] in Hsz.
  destruct (afile_read _ _ _ _ _ _ _ _ _ buffer BUFFER_SIZ e Hst) as (k' & E & R & G & P); cbn [a_pos a_words]; [done|lia| | |].
  { rewrite <- Hsz. apply ends_filled; [done|by rewrite Hsz|]. intros x Hx. rewrite Hsz in Hx. destruct (Hwords x Hx) as [v Hv].
    exists v. by apply (ar_words _ _ _ _ _ _ _ _ _ Hst). }
  { intros x Hx. apply Hwords. lia. }
  cbn [a_pos fst snd] in E, R. fold r in E, R. destruct o as [file entry ino]. cbn [o_file o_entry o_inode] in *.
  destruct (files_rep_frame _ _ _ _ _ src (mkOpened file entry ino) _ ino used k' _ Hrep Ho (copied_src c c m) R G P) as [Hrep' _].
  cbn [afile_step snd] in Hrep'. rewrite copied_read in Hrep'. eexists _, k', _. split; [exact E|]. split; [exact Hrep'|]. split.
  - exists (mkOpened file entry ino). by rewrite lookup_insert_eq.
  - intros j Hj. rewrite decide_True by lia. cbn. do 2 f_equal. lia.
Qed.

(** One call of write with these words. *)
Lemma copy_write used k D c r m :
  files_rep bm used k D (at_ (c + r) c m) -> has_source D -> 0 <= c -> 0 <= r -> c + r <= e ->
  (forall j, 0 <= j < r -> m (buffer + j) = default 0 (a_words s !! (c + j))) ->
  exists used' D' k', sys_write who dest_fd buffer r k = Some (r, k') /\ files_rep bm used' k' D' (at_ (c + r) (c + r) m) /\ has_source D'.
Proof.
  intros Hrep (o & Ho & Hf) Hc Hr Hcr Hbuf. pose proof (fs_each _ _ _ _ _ Hrep) as Heach.
  destruct (each_at _ _ _ _ _ _ _ Heach (copied_dst (c + r) c m)) as (x & Hx & Hst).
  destruct (afile_serve _ _ _ _ _ _ _ _ _ (FWrite buffer r) Hst) as (used' & n1 & k' & E & R & G & P); [cbn; lia|].
  destruct (files_rep_frame _ _ _ _ _ dest x _ n1 used' k' _ Hrep Hx (copied_dst _ c m) R G P) as [Hrep' _].
  assert (Hstep : snd (afile_step (copied_dest s d c m) (FWrite buffer r)) = copied_dest s d (c + r) m).
  { unfold copied_dest. cbn [afile_step snd a_words a_pos a_size a_mem]. f_equal; [|lia..].
    rewrite (put_range_ext _ _ _ _ (fun j => default 0 (a_words s !! (c + j)))) by done. by apply (put_range_more _ _ _ _ (fun j => default 0 (a_words s !! j))). }
  rewrite Hstep, copied_write in Hrep'. exists used', (<[dest := mkOpened (o_file x) (o_entry x) n1]> D), k'. split; [exact E|]. split; [done|].
  exists o. rewrite lookup_insert_ne by congruence. done.
Qed.

Lemma copy_run fuel : forall used k D c m,
  files_rep bm used k D (at_ c c m) -> has_source D -> 0 <= c <= e -> (e - c + 255) / BUFFER_SIZ < Z.of_nat fuel ->
  exists used' D' k' m', copy_loop who buffer fuel src_fd dest_fd k = Some (tt, k') /\ files_rep bm used' k' D' (at_ e e m').
Proof.
  assert (HB : BUFFER_SIZ = 256) by done.
  induction fuel as [|fuel IH]; intros used k D c m Hrep Hsrc Hc Hfuel; [rewrite HB in *; zlia|].
  destruct (copy_read used k D c m Hrep Hsrc Hc) as (D1 & k1 & m1 & E1 & R1 & S1 & Hbuf). set (r := Z.min BUFFER_SIZ (e - c)) in *.
  cbn [copy_loop]. rewrite (bind_run _ _ _ _ _ E1). destruct (Z.gtb_spec r 0) as [Hr|Hr]; cbn [negb].
  - destruct (copy_write used k1 D1 c r m1) as (used2 & D2 & k2 & E2 & R2 & S2); [done|done|lia..|done|].
    rewrite (bind_run _ _ _ _ _ E2), (proj2 (Z.leb_gt r 0)) by lia. apply (IH used2 k2 D2 (c + r) m1 R2 S2); [lia|].
    subst r. rewrite HB in *. zlia.
  - exists used, D1, k1, m1. split; [done|]. assert (c = e) as -> by lia. assert (r = 0) as Hr0 by lia. by rewrite Hr0, Z.add_0_r in R1.
Qed.
End loop.

Lemma files_rep_share bm used k D A : files_rep bm used k D A -> files_rep bm used k D (share (kmem k) <$> A).
Proof.
  intros [Heach Hap Hroom]. split; [|done|done]. intros p. rewrite lookup_fmap. specialize (Heach p).
  destruct (D !! p), (A !! p); inversion Heach as [? ? [Hc Hf Hs Hm Hw]|]; subst; constructor. by split.
Qed.

(** What cp leaves: the destination has the words of the source up to its end, from
    the position of the destination on, and is larger by as many; all else that is in
    a file is as before. *)
Record copy_of (A A' : gmap key afile) (src dest : key) (s d : afile) (n : Z) : Prop := {
  cp_dest : exists d', A' !! dest = Some d' /\ a_pos d' = a_pos d + n /\ a_size d' = a_size d + n /\
    forall x, a_words d' !! x = if decide (a_pos d <= x < a_pos d + n) then a_words s !! (x - a_pos d) else a_words d !! x;
  cp_src : exists s', A' !! src = Some s' /\ a_words s' = a_words s /\ a_size s' = a_size s;
  cp_others : forall p a, p <> src -> p <> dest -> A !! p = Some a ->
    exists a', A' !! p = Some a' /\ a_words a' = a_words a /\ a_pos a' = a_pos a /\ a_size a' = a_size a
}.

Lemma copied_copy_of A src dest s d n m :
  src <> dest -> 0 <= n -> (forall o, 0 <= o < n -> is_Some (a_words s !! o)) -> copy_of A (copied A src dest s d n n m) src dest s d n.
Proof.
  intros Hne Hn Hw. unfold copied. split.
  - exists (copied_dest s d n m). rewrite lookup_fmap, lookup_insert_eq. do 3 (split; [done|]). intros x. cbn [copied_dest a_words].
    rewrite put_range_lookup by done. case_decide as Hx; [|done]. destruct (Hw (x - a_pos d)) as [v Hv]; [lia|]. by rewrite Hv.
  - exists (mkAFile (a_words s) n (a_size s) m). rewrite lookup_fmap, lookup_insert_ne, lookup_insert_eq by congruence. done.
  - intros p a H1 H2 Ha. exists (share m a). by rewrite lookup_fmap, !lookup_insert_ne, Ha by congruence.
Qed.

(** C34: cp copies.  When both files are open and there is room, its loop ends; the
    destination then has from its position on the words of the source, all other
    words of it and all other open files are as before, wherever the blocks begin
    and end.  The words of the source are those up to where read ends: its size for
    a file of one block, but the end of the last block for a longer one
    ([file_end]). *)
Theorem cp_copies fuel bm used k D A who buffer src_fd dest_fd q s d o :
  let e := file_end (a_size s) q in
  files_rep bm used k D A -> src_fd <> dest_fd -> A !! (who, src_fd) = Some s -> A !! (who, dest_fd) = Some d -> a_pos s = 0 ->
  D !! (who, src_fd) = Some o -> filled (o_inode o) q -> (forall x, 0 <= x < e -> is_Some (a_words s !! x)) ->
  0 <= q -> 0 <= a_pos d -> e + BUFFER_SIZ < MAX_FILE -> a_pos d + e < MAX_FILE -> a_size d + e < UINT_MOD ->
  (e + 255) / BUFFER_SIZ < Z.of_nat fuel ->
  exists used' D' k' A', copy_loop who buffer fuel src_fd dest_fd k = Some (tt, k') /\ files_rep bm used' k' D' A' /\
    copy_of A A' (who, src_fd) (who, dest_fd) s d e.
Proof.
  intros e Hrep Hne Hs Hd Hp Ho Hf Hw Hq Hpd Hmax Hroom Hsize Hfuel. destruct s as [ws ps ss ms]. cbn [a_pos a_words a_size] in *. subst ps.
  assert (He : 0 <= e). { unfold e, file_end, BLOCK_SIZE in *. destruct (each_of _ _ _ _ _ _ _ (fs_each _ _ _ _ _ Hrep) Ho) as (a & Ha & Hst).
    rewrite Hs in Ha. injection Ha as <-. pose proof (ar_size _ _ _ _ _ _ _ _ _ Hst) as Hz. cbn in Hz. destruct Hf as [_ Hf _ _]. destruct (q <=? 1); lia. }
  assert (H0 : copied A (who, src_fd) (who, dest_fd) (mkAFile ws 0 ss ms) d 0 0 (kmem k) = share (kmem k) <$> A).
  { apply map_eq. intros p. unfold copied. rewrite !lookup_fmap. destruct (decide (p = (who, dest_fd))) as [->|H1].
    - rewrite lookup_insert_eq, Hd. destruct d. cbn. unfold share, copied_dest. cbn. by rewrite !Z.add_0_r.
    - rewrite lookup_insert_ne by done. destruct (decide (p = (who, src_fd))) as [->|H2].
      + by rewrite lookup_insert_eq, Hs.
      + by rewrite lookup_insert_ne by done. }
  apply files_rep_share in Hrep. rewrite <- H0 in Hrep.
  destruct (copy_run bm who buffer src_fd dest_fd q A (mkAFile ws 0 ss ms) d Hne Hpd Hw Hmax Hroom Hsize fuel used k D 0 (kmem k))
    as (used' & D' & k' & m' & E & R); [done|by exists o|done|cbn; by rewrite Z.sub_0_r|].
  eexists used', D', k', _. split; [exact E|]. split; [exact R|]. apply copied_copy_of; [congruence|done|exact Hw].
Qed.

(** A file of 1100 words in the blocks 3 and 4, copied to a new one: 2048 words come
    out. *)
Definition cp_ino : inode_t := files_ino <| i_zone := [3; 4; 0; 0; 0; 0; 0; 0] |> <| i_size := 1100 |> <| i_total_size := 2048 |>.
Definition cp_fs : fsst :=
  alloc_sample <| disk := fun a => if a =? 1024 then 0xf8000000 else if (3072 <=? a) && (a <? 5120) then a + 1 else 0 |>
    <| fd_table := [files_file; files_file <| filp_ino := Some 1 |>] |> <| inode_table := [cp_ino; files_ino] |>.
Definition cp_proc : proc := proc_zero <| fp_filp := Some 0 :: Some 1 :: replicate 14 None |>.
Definition cp_k : kst := sample_k <| procs := {[ 2 := cp_proc ]} |> <| kmem := fun a => a |> <| kfs := cp_fs |>.
Definition cp_source : afile := mkAFile (put_range ∅ 0 2048 (fun j => 3073 + j)) 0 1100 (fun a => a).
Definition cp_d : gmap key opened := {[ (2, 0) := mkOpened 0 0 cp_ino; (2, 1) := mkOpened 1 1 files_ino ]}.
Definition cp_a : gmap key afile := {[ (2, 0) := cp_source; (2, 1) := files_a ]}.

Lemma cp_zone j z : zone_of cp_ino j = Some z -> z <> 0 -> (j = 0 /\ z = 3) \/ (j = 1 /\ z = 4).
Proof.
  unfold zone_of, aget. case_decide as Hj; [|done]. change (i_zone cp_ino) with (3 :: 4 :: replicate 6 0). intros H Hz.
  destruct (Z.to_nat j) as [|[|n]] eqn:E; cbn in H.
  - injection H as <-. lia.
  - injection H as <-. lia.
  - by apply (lookup_replicate_1 6 0) in H as [-> _].
Qed.

Lemma cp_map : map_rep 1 (fun x => x <? 5) (kfs cp_k).
Proof. assert (kfs cp_k = cp_fs) as -> by apply kfs_kfs. apply start_map; [reflexivity..|vm_compute; reflexivity]. Qed.

Lemma cp_stands_source : stands_for 1 (fun x => x <? 5) cp_k (2, 0) (mkOpened 0 0 cp_ino) cp_source.
Proof.
  assert (Hk : kfs cp_k = cp_fs) by apply kfs_kfs.
  split; [split; [done|by exists cp_proc]| |done|done|].
  - exists files_file. split; [|done]. split; rewrite ?Hk; try done; [by rewrite <- Hk; apply cp_map| | |vm_compute; lia].
    + intros j z Hz H0. by apply cp_zone in Hz as [[-> ->]|[-> ->]].
    + intros j1 j2 z H1 H2 H0. apply cp_zone in H1, H2; [|done..]. lia.
  - intros x v Hv. cbn [a_words cp_source] in Hv. rewrite put_range_lookup in Hv by done. case_decide as Hx; [|done]. injection Hv as <-. rewrite Hk.
    destruct (start_rep cp_fs) as [_ V]; [reflexivity..|]. unfold fword. assert (HB : BLOCK_SIZE = 1024) by done.
    assert (Hz : zone_of cp_ino (x / BLOCK_SIZE) = Some (3 + x / BLOCK_SIZE)).
    { assert (x / BLOCK_SIZE = 0 \/ x / BLOCK_SIZE = 1) as [-> | ->] by (rewrite HB; zlia); done. }
    cbn [o_inode]. rewrite Hz, (proj2 (Z.eqb_neq _ 0)), V by (rewrite ?HB in *; zlia).
    unfold disk_block. rewrite mem_words_at by (rewrite HB; zlia). f_equal. 
    replace ((3 + x / BLOCK_SIZE) * BLOCK_SIZE + x mod BLOCK_SIZE) with (3072 + x) by (rewrite HB; zlia).
    change (disk cp_fs (3072 + x)) with (if 3072 + x =? 1024 then 0xf8000000 else if (3072 <=? 3072 + x) && (3072 + x <? 5120) then 3072 + x + 1 else 0).
    rewrite (proj2 (Z.eqb_neq _ _)), (proj2 (Z.leb_le _ _)), (proj2 (Z.ltb_lt _ _)) by lia. cbn [andb]. lia.
Qed.

Lemma cp_sample : files_rep 1 (fun x => x <? 5) cp_k cp_d cp_a.
Proof.
  split.
  - apply map_Forall2_insert_2; [exact cp_stands_source|]. apply map_Forall2_singleton. eapply fresh_stands; [exact cp_map|reflexivity..|done|done].
  - intros q1 q2 d1 d2 H1 H2 Hne. unfold cp_d in H1, H2. apply lookup_insert_Some in H1 as [[<- <-]|[_ [<- <-]%lookup_singleton_Some]];
      apply lookup_insert_Some in H2 as [[<- <-]|[_ [<- <-]%lookup_singleton_Some]]; first [done|by apply fresh_apart|apply apart_sym; by apply fresh_apart].
  - vm_compute. lia.
Qed.

Lemma cp_filled : filled cp_ino 2.
Proof.
  split; [|by split|done|done]. intros j z. unfold zone_of, aget. case_decide as Hj; [|done]. change (i_zone cp_ino) with (3 :: 4 :: replicate 6 0).
  intros H. destruct (Z.to_nat j) as [|[|n]] eqn:E; cbn in H; try (injection H as <-).
  - by rewrite decide_True by lia.
  - by rewrite decide_True by lia.
  - rewrite decide_False by lia. by apply (lookup_replicate_1 6 0) in H as [-> _].
Qed.

Lemma cp_copies_witness :
  exists used' D' k' A' d', copy_loop 2 7000 9 0 1 cp_k = Some (tt, k') /\ files_rep 1 used' k' D' A' /\ A' !! (2, 1) = Some d' /\
    a_size d' = 2048 /\ forall x, 0 <= x < 2048 -> a_words d' !! x = Some (3073 + x).
Proof.
  assert (Hw : forall x, 0 <= x < 2048 -> a_words cp_source !! x = Some (3073 + x)).
  { intros x Hx. cbn [a_words cp_source]. by rewrite put_range_lookup, decide_True, Z.sub_0_r by lia. }
  destruct (cp_copies 9 1 (fun x => x <? 5) cp_k cp_d cp_a 2 7000 0 1 2 cp_source files_a (mkOpened 0 0 cp_ino))
    as (used' & D' & k' & A' & E & R & [(d' & Hd & _ & Hs & Hx) _ _]); [exact cp_sample|done|reflexivity|reflexivity|reflexivity|reflexivity|exact cp_filled| |done..|].
  - intros x Hx. rewrite Hw by exact Hx. done.
  - exists used', D', k', A', d'. split; [exact E|]. split; [exact R|]. split; [exact Hd|]. split; [exact Hs|]. intros x Hx'.
    rewrite Hx. cbn [a_pos files_a]. rewrite decide_True by exact Hx'. rewrite Hw by lia. do 2 f_equal. lia.
Defined.
