(* ===== verification/Exec.v ===== *)
(** * kernel/system/do_execve.c: loading a program

    The strings of the caller are copied to the kernel heap, the image is read from
    the file, and the stack the program starts on is built. *)
From S2P Require Import Prelude Bitmap Mm Linked CString Timer Slab Kernel Proc Ipc Cache Inode Signal Filp Pipe Rootfs Exit Syscalls Fsys.

Definition USER_STACK_SIZE : Z := PAGE_LEN.
Definition USER_HEAP_SIZE : Z := PAGE_LEN.
Definition ASM_ADDUI_SP_SP_2 : Z := 0x1ee10002.
Definition ASM_SYSCALL : Z := 0x200d0000.
Definition ELF_LEN : Z := 7.

(** The local variables [elf] and [m] of [exec_welf]. *)
Definition ELF_BUF : Z := -500.
Definition EXEC_MSG : Z := -600.

(** [array] is uninitialised when there is nothing to copy. *)
Record string_array := mkSarr { sarr_array : option Z; sarr_size : Z }.

(** while (STAR pptr++ && count-- > 0) size++ *)
Fixpoint count_strings (count : nat) (m : memory) (pptr : Z) : Z :=
  match count with
  | O => 0
  | S c => if m pptr =? 0 then 0 else 1 + count_strings c m (pptr + 1)
  end.

Fixpoint kfree_list (ps : list Z) : K unit :=
  match ps with
  | [] => mret tt
  | a :: ps' => p ← rd a; _ ← on_slab (_kfree p 0); kfree_list ps'
  end.

(** The strings of [from], from the [i]th on; the result is ERR when memory ran out. *)
Fixpoint copy_strings (n : nat) (arr from i who : Z) (is_physical_addr : bool) : K Z :=
  match n with
  | O => _ ← wr (arr + i) 0; mret OK
  | S n' =>
      a ← rd (from + i);
      physical ← (if is_physical_addr then mret a else phys who a);
      s ← kstring physical;
      let strsize := Z.min (alen s) 32 in
      p ← on_slab (_kmalloc (strsize + 1) 0);
      _ ← wr (arr + i) p;
      if p =? 0 then
        _ ← kfree_list (map (fun j => arr + j) (seqZ 0 i));
        _ ← on_slab (_kfree arr 0);
        mret ENOMEM
      else
        _ ← modifyS (fun k => k <| kmem ::= (fun m => wr_words m p (take 32 s ++ [0])) |>);
        copy_strings n' arr from (i + 1) who is_physical_addr
  end.

Definition copy_stirng_array (from who : Z) (is_physical_addr : bool) : K (string_array * Z) :=
  if from =? 0 then mret (mkSarr None 0, OK)
  else
    m ← get_mem;
    let size := count_strings 32 m from + 1 in
    arr ← on_slab (_kmalloc size 0);
    if arr =? 0 then mret (mkSarr (Some 0) 0, ENOMEM)
    else
      r ← copy_strings (Z.to_nat (size - 1)) arr from 0 who is_physical_addr;
      mret (mkSarr (Some arr) size, r).

Fixpoint kfree_strings (js : list Z) (arr : Z) : K unit :=
  match js with
  | [] => mret tt
  | j :: js' =>
      p ← rd (arr + j);
      _ ← (if p =? 0 then mret tt else on_slab (_kfree p 0));
      kfree_strings js' arr
  end.

Definition kfree_string_array (a : string_array) : K unit :=
  arr ← liftO (sarr_array a);
  _ ← kfree_strings (seqZ 0 (sarr_size a)) arr;
  on_slab (_kfree arr 0).

Fixpoint copy_sarray (js : list Z) (who arr p : Z) : K unit :=
  match js with
  | [] => wr p 0
  | j :: js' =>
      a ← rd (arr + j);
      s ← kstring a;
      v ← copyto_user_heap who (s ++ [0]);
      _ ← wr p v;
      copy_sarray js' who arr (p + 1)
  end.

Definition copy_sarray_to_heap (who : Z) (a : string_array) (p : Z) : K unit :=
  arr ← liftO (sarr_array a);
  copy_sarray (seqZ 0 (sarr_size a - 1)) who arr p.

(** The vector of the copied strings on the user heap; [None] when [kmalloc] fails. *)
Definition copy_vector (who : Z) (a : string_array) : K (option Z) :=
  if sarr_size a >? 0 then
    ptr ← on_slab (_kmalloc (sarr_size a) 0);
    if ptr =? 0 then mret None
    else
      _ ← copy_sarray_to_heap who a ptr;
      m ← get_mem;
      v ← copyto_user_heap who (mem_words m ptr (sarr_size a));
      _ ← on_slab (_kfree ptr 0);
      mret (Some v)
  else mret None.

Definition initial_frame (argc argv pm : Z) : list Z :=
  [argc; argv; WINIX_SENDREC; SYSTEM; pm] ++ msg_words (mkMsg 0 EXIT EXIT_MAGIC 0 0 0 0 0) ++
  [ASM_ADDUI_SP_SP_2; ASM_SYSCALL].

Definition build_user_stack (who : Z) (argv env : string_array) : K Z :=
  p ← getp who;
  let sp_btm := get_physical_addr (align_page (sp p) - 1) (rbase p) in
  av ← copy_vector who argv;
  ev ← copy_vector who env;
  _ ← match ev with Some v => wr sp_btm v | None => mret tt end;
  _ ← updp who (fun p => p <| ra := u32 (sp p - 2) |>);
  let '(argc, argvp) := match av with Some v => (sarr_size argv - 1, v) | None => (0, 0) end in
  p ← getp who;
  _ ← copyto_user_stack who (initial_frame argc argvp (u32 (sp p - 2 - MESSAGE_LEN)));
  mret OK.

Definition rd_elf (m : memory) (a : Z) : winix_elf :=
  mkElf (m a) (m (a + 1)) (m (a + 2)) (m (a + 3)) (m (a + 4)) (m (a + 5)) (m (a + 6)).

(** From the header to the new image; the error code goes nowhere. *)
Definition load_image (who fd path : Z) (argv env : string_array) : K Z :=
  _ ← sys_read who fd ELF_BUF ELF_LEN;
  m ← get_mem;
  let elf := rd_elf m ELF_BUF in
  ret ← alloc_mem_welf who elf USER_STACK_SIZE USER_HEAP_SIZE;
  if negb (ret =? 0) then mret ret
  else
    p ← getp who;
    ret ← sys_read who fd (u32 (rbase p + binary_offset elf)) (binary_size elf);
    if negb (u32 ret =? binary_size elf) then
      _ ← krelease_proc_mem who;
      mret EIO
    else
      _ ← build_user_stack who argv env;
      _ ← proc_memctl who 0 PROC_NO_ACCESS;
      s ← kstring path;
      _ ← set_proc who (binary_pc elf) s;
      mret OK.

(** [parent->flags | STATE_VFORKING] and [parent->state | STATE_VFORKING] hold of
    every parent. *)
Definition exec_welf (who path argv envp : Z) (is_new : bool) : K Z :=
  w ← getp who;
  par ← get_proc (parent w);
  _ ← wr_message EXEC_MSG (mkMsg 0 0 0 0 0 0 0 0);
  a ← copy_stirng_array argv who is_new;
  e ← copy_stirng_array envp who is_new;
  name ← kstring path;
  _ ← when (negb is_new)
        (_ ← updp who (fun p => proc_strncpy name PROC_NAME_LEN (p <| sig_pending := 0 |>));
         _ ← liftO par;
         t ← get_ptable who;
         r ← liftO (bitmap_clear t PTABLE_LEN);
         set_ptable who (snd (r : Z * list Z)));
  fd ← sys_open who name (Z.lor O_RDONLY O_DIRECT) 0;
  if fd <? 0 then mret fd
  else
    _ ← load_image who fd path (fst (a : string_array * Z)) (fst (e : string_array * Z));
    _ ← sys_close who fd;
    _ ← updp who (fun p => p <| state := STATE_RUNNABLE |>);
    _ ← enqueue_schedule who;
    _ ← kfree_string_array (fst a);
    _ ← kfree_string_array (fst e);
    _ ← when (negb is_new)
          (pn ← liftO par;
           _ ← updp pn (fun p => p <| state ::= clr_flag STATE_VFORKING |>);
           _ ← upd_message EXEC_MSG (fun m => m <| m_type := VFORK |>);
           w ← getp who;
           p ← getp pn;
           _ ← syscall_reply2 VFORK (pid w) (proc_nr p) EXEC_MSG;
           mret tt);
    mret DONTREPLY.

Definition do_execve (who m : Z) : K Z :=
  msg ← rd_message m;
  ok1 ← vaddr_ok who (m1_p1 msg);
  if negb ok1 then mret EACCES
  else
    ok2 ← vaddr_ok who (m1_p2 msg);
    if negb ok2 then mret EACCES
    else
      ok3 ← vaddr_ok who (m1_p3 msg);
      if negb ok3 then mret EACCES
      else
        path ← phys who (m1_p1 msg);
        argv ← phys who (m1_p2 msg);
        envp ← phys who (m1_p3 msg);
        exec_welf who path argv envp false.

(** ** kernel/main.c: the first process; a failure other than DONTREPLY panics *)
Definition start_init (INIT_PATH init_argv initial_env : Z) : K unit :=
  _ ← proc_set_default INIT;
  _ ← updp INIT (fun p => p <| state := STATE_RUNNABLE |> <| flags := IN_USE |> <| pid := 1 |>);
  ret ← exec_welf INIT INIT_PATH init_argv initial_env true;
  if negb (ret =? OK) && negb (ret =? DONTREPLY) then crash else mret tt.
