(* ===== verification/Dispatch.v ===== *)
(** * kernel/exception.c and kernel/system.c: traps and the system task

    A user process traps into [syscall_handler], which sends its message to the
    system task; the loop of [system_main] serves one message per [system_step]. *)
From S2P Require Import Prelude Bitmap Mm Linked CString Timer Slab Kernel Proc Ipc Reply Cache Inode Signal Filp Pipe Rootfs Exit Syscalls Fsys Exec.

Definition _NSYSCALL : Z := 53.

(** ** set_message_for_syscall: which arguments of the stack go where *)
Inductive arg_shape := A_i1 | A_i1i2 | A_i1i2i3 | A_i1p1i2 | A_p1 | A_p1p2 | A_p1p2p3 | A_sigaction
  | A_dprintf | A_open | A_varargs | A_none.

Definition arg_shape_of (operation : Z) : arg_shape :=
  let one_of l := existsb (Z.eqb operation) l in
  if operation =? 42 then A_i1i2i3                                            (* LSEEK *)
  else if one_of [35; 11; 20] then A_i1i2                                     (* DUP2 KILL SETPGID *)
  else if one_of [7; 25; 34; 43; 47; 21; 17; 16; 13; 50] then A_i1            (* ALARM .. SBRK *)
  else if one_of [23; 24; 26; 28; 30; 31; 33; 38; 39; 40; 14; 19; 10; 49; 52] then A_i1p1i2
  else if operation =? 8 then A_sigaction
  else if operation =? 5 then A_p1p2p3                                        (* EXECVE *)
  else if one_of [32; 36; 51] then A_p1p2                                     (* STAT LINK STATFS *)
  else if one_of [27; 29; 37; 18; 1] then A_p1                                (* PIPE .. TIMES *)
  else if operation =? 15 then A_dprintf
  else if operation =? 22 then A_open
  else if one_of [44; 45] then A_varargs                                      (* FCNTL IOCTL *)
  else A_none.

Definition set_message_for_syscall (operation sp' m who : Z) : K unit :=
  mem ← get_mem;
  p ← getp who;
  let w i := mem (sp' + i) in
  match arg_shape_of operation with
  | A_i1i2i3 => upd_message m (fun x => x <| m1_i3 := w 2 |> <| m1_i2 := w 1 |> <| m1_i1 := w 0 |>)
  | A_i1i2 => upd_message m (fun x => x <| m1_i2 := w 1 |> <| m1_i1 := w 0 |>)
  | A_i1 => upd_message m (fun x => x <| m1_i1 := w 0 |>)
  | A_i1p1i2 => upd_message m (fun x => x <| m1_i1 := w 0 |> <| m1_p1 := w 1 |> <| m1_i2 := w 2 |>)
  | A_sigaction => upd_message m (fun x => x <| m1_i1 := w 3 |> <| m1_p3 := w 2 |> <| m1_p2 := w 1 |> <| m1_p1 := w 0 |>)
  | A_p1p2p3 => upd_message m (fun x => x <| m1_p3 := w 2 |> <| m1_p2 := w 1 |> <| m1_p1 := w 0 |>)
  | A_p1p2 => upd_message m (fun x => x <| m1_p2 := w 1 |> <| m1_p1 := w 0 |>)
  | A_p1 => upd_message m (fun x => x <| m1_p1 := w 0 |>)
  | A_dprintf => upd_message m (fun x => x <| m1_i1 := w 0 |> <| m1_p1 := w 1 |> <| m1_p2 := w 2 |>)
  | A_open =>
      _ ← updp who (fun p => p <| sp ::= (fun s => u32 (s + 1)) |>);
      upd_message m (fun x => x <| m1_p1 := w 0 |> <| m1_i1 := w 1 |> <| m1_i2 := w 2 |>)
  | A_varargs =>
      _ ← updp who (fun p => p <| sp ::= (fun s => u32 (s + 1)) |>);
      upd_message m (fun x => x <| m1_i1 := w 0 |> <| m1_i2 := w 1 |>
                                <| m1_p1 := get_virtual_addr (sp' + 2) (rbase p) |>)
  | A_none => mret tt
  end.

(** ** kernel/exception.c *)

(** [USER_TMP_MESSAGE]: the pointer addition counts messages. *)
Definition USER_TMP_MESSAGE (p : proc) : Z := u32 (stack_top p + 2 * MESSAGE_LEN).

(** The message goes to the address [m] of a direct system call, or the one on the
    stack; the result of the operation goes to register 1. *)
Definition decode_trap (cur : Z) : K (Z * Z * Z) :=
  p ← getp cur;
  let sp' := get_physical_addr (sp p) (rbase p) in
  mem ← get_mem;
  let operation := s32 (mem sp') in
  if (operation >? 0) && (operation <? _NSYSCALL) then
    let m := USER_TMP_MESSAGE p in
    _ ← updp cur (fun p => p <| flags ::= set_flag DIRECT_SYSCALL |>);
    _ ← upd_message m (fun x => x <| m_type := operation |>);
    _ ← set_message_for_syscall operation (sp' + 1) m cur;
    mret (WINIX_SENDREC, SYSTEM, m)
  else
    mret (operation, s32 (mem (sp' + 1)), get_physical_addr (mem (sp' + 2)) (rbase p)).

Definition trap_operation (cur operation dest m : Z) : K unit :=
  let retval r := updp cur (fun p => p <| regs ::= <[0%nat := r]> |>) in
  let send :=
    r ← do_send dest m;
    _ ← retval r;
    when (r <? 0) (updp cur (fun p => p <| state ::= clr_flag STATE_RECEIVING |>)) in
  if operation =? WINIX_SENDREC then
    _ ← updp cur (fun p => p <| state ::= set_flag STATE_RECEIVING |>); send
  else if operation =? WINIX_SEND then send
  else if operation =? WINIX_RECEIVE then r ← do_receive m; retval r
  else if operation =? WINIX_NOTIFY then
    msg ← rd_message m; r ← do_notify (s32 (m_src msg)) dest m; retval r
  else retval ERR.

Definition syscall_handler : K unit :=
  cur ← this_proc;
  t ← decode_trap cur;
  let '(operation, dest, m) := (t : Z * Z * Z) in
  p ← getp cur;
  _ ← upd_message m (fun x => x <| m_src := proc_nr p |>);
  _ ← trap_operation cur operation dest m;
  sched.

(** A fault in the kernel panics. *)
Definition gpf_handler : K unit :=
  cur ← this_proc;
  p ← getp cur;
  if negb (IS_PROCN_OK (proc_nr p)) || IS_KERNEL_PROC p then crash
  else _ ← send_sig cur SIGSEGV; sched.

Definition arith_handler : K unit :=
  cur ← this_proc; _ ← send_sig cur SIGFPE; sched.

Definition preempt_currproc : K unit :=
  k ← getS;
  match current_proc k with
  | Some c => _ ← enqueue_schedule c; modifyS (fun k => k <| current_proc := None |>)
  | None => mret tt
  end.

(** ** kernel/system.c

    [do_winfo] and [do_winix_dprintf] print to a file of the caller; they are
    parameters of the dispatch. *)
Section system_task.
Context (do_winfo do_winix_dprintf : Z -> Z -> K Z).

Definition syscall_table : list (option (Z -> Z -> K Z)) :=
  [ None; Some do_times; Some do_exit; Some do_fork; Some do_vfork; Some do_execve; Some do_brk;
    Some do_alarm; Some do_sigaction; Some do_sigreturn; Some do_waitpid; Some do_kill; Some do_getpid;
    Some do_winfo; Some do_winix_strerror; Some do_winix_dprintf; Some do_sysconf; Some do_sigsuspend;
    Some do_sigpending; Some do_sigprocmask; Some do_setpgid; Some do_getpgid; Some do_open; Some do_read;
    Some do_write; Some do_close; Some do_creat; Some do_pipe; Some do_mknod; Some do_chdir; Some do_chown;
    Some do_chmod; Some do_stat; Some do_fstat; Some do_dup; Some do_dup2; Some do_link; Some do_unlink;
    Some do_getdents; Some do_access; Some do_mkdir; Some do_sync; Some do_lseek; Some do_umask; Some do_fcntl;
    Some do_ioctl; Some do_setsid; Some do_csleep; Some do_getppid; Some do_signal; Some do_sbrk; Some do_statfs;
    Some do_getcwd ].

Definition no_syscall (who m : Z) : K Z := mret ENOSYS.
Definition syscall_not_implemented (who m : Z) : K Z := mret ENOSYS.

(** The bound of the test is the length of the table, one more than its last index. *)
Definition select_handler (type : Z) : option (Z -> Z -> K Z) :=
  if (type >=? 1) && (type <=? _NSYSCALL) then
    h ← aget syscall_table type;
    Some (match h with Some f => f | None => syscall_not_implemented end)
  else Some no_syscall.

(** The assertions panic. *)
Definition syscall_region_begin (who : Z) : K unit :=
  msg ← rd_message SYS_MSG;
  _ ← modifyS (fun k => k <| bill_ptr := Some who |>);
  _ ← updp SYSTEM (fun p => p <| flags ::= set_flag BILLABLE |>);
  _ ← modifyS (fun k => k <| curr_syscall := s32 (m_type msg) |>);
  _ ← updp who (fun p => p <| state ::= set_flag STATE_RECEIVING |>);
  _ ← set_caller who;
  k ← getS;
  if who_proc_nr k =? SYSTEM then crash else mret tt.

Definition syscall_region_end : K unit :=
  _ ← updp SYSTEM (fun p => p <| flags ::= clr_flag BILLABLE |>);
  _ ← wr_message SYS_MSG (mkMsg 0 0 0 0 0 0 0 0);
  modifyS (fun k => k <| who_proc_nr := 0 |> <| curr_syscall := 0 |>).

(** One round of [system_main], with the received message in its buffer. *)
Definition system_step : K unit :=
  msg ← rd_message SYS_MSG;
  let nr := s32 (m_src msg) in
  _ ← modifyS (fun k => k <| who_proc_nr := nr |>);
  w ← get_proc nr;
  who ← liftO w;
  _ ← syscall_region_begin who;
  handler ← liftO (select_handler (s32 (m_type msg)));
  reply ← handler who SYS_MSG;
  _ ← (if (reply =? SUSPEND) || (reply =? DONTREPLY) then mret tt
       else
         msg ← rd_message SYS_MSG;
         _ ← syscall_reply2 (m_type msg) reply nr SYS_MSG; mret tt);
  syscall_region_end.
End system_task.

Definition is_in_syscall (who : Z) : K bool :=
  p ← getp who; k ← getS; mret (has (state p) STATE_RECEIVING && (who_proc_nr k =? proc_nr p)).

(** ** The interrupt of a tty, driver/tty.c

    [stat] and [rx] are the registers of the port when they are read. *)
Definition isprint (c : Z) : bool := u32 (c - 32) <? 95.

Definition tty_put (d val : Z) : K unit :=
  t ← get_tty d;
  let val := if val =? 13 then 10 else val in
  if isprint val || (val =? 10) then
    b ← liftO (aset (tty_buffer t) (bptr t) val);
    _ ← upd_tty d (fun t => t <| tty_buffer := b |> <| bptr ::= Z.succ |>);
    when (is_echoing t) (_ ← __kputc d val; mret tt)
  else _ ← __kputc d 7; mret tt.

Definition tty_exception_handler (d stat rx : Z) : K unit :=
  if negb (has stat 1) then mret tt
  else
    t ← get_tty d;
    if rx =? 8 then
      if bptr t >? 0 then
        _ ← upd_tty d (fun t => (if bptr t =? read_ptr t then t <| read_ptr ::= Z.pred |> else t) <| bptr ::= Z.pred |>);
        _ ← __kputc d rx; mret tt
      else mret tt
    else if rx =? 3 then
      if (controlling_session t >? 0) && (foreground_group t >? 0) then
        _ ← sys_kill SYSTEM (- foreground_group t) SIGINT; mret tt
      else mret tt
    else
      let end_ := TTY_BUFFER_SIZ - 1 in
      _ ← when ((bptr t >=? end_) && (read_ptr t =? bptr t))
            (upd_tty d (fun t => t <| read_ptr := 0 |> <| bptr := 0 |>));
      t ← get_tty d;
      let val := if (bptr t <? end_) && (rx =? 13) then 10 else rx in
      _ ← when (bptr t <? end_) (tty_put d rx);
      t ← get_tty d;
      match reader t with
      | Some r =>
          if (val =? 10) || (bptr t >=? end_) then
            b ← liftO (aset (tty_buffer t) (bptr t) 0);
            _ ← modifyS (fun k => k <| kmem ::= (fun m =>
                  tty_strncpy m (read_data t) (drop (Z.to_nat (read_ptr t)) b) (read_count t)) |>);
            p ← getp r;
            _ ← syscall_reply2 SYS_READ (bptr t) (proc_nr p) EXPT_MSG;
            upd_tty d (fun t => t <| tty_buffer := b |> <| bptr := 0 |> <| read_ptr := 0 |> <| reader := None |>)
          else mret tt
      | None => mret tt
      end.

(** ** A system call is answered *)

(** The kernel when the handler starts, and the message it gets. *)
Definition begun (k : kst) (nr : Z) : kst :=
  k <| who_proc_nr := nr |> <| bill_ptr := Some nr |>
    <| procs ::= alter (fun p => p <| flags ::= set_flag BILLABLE |>) SYSTEM |>
    <| curr_syscall := s32 (m_type (rd_msg (kmem k) SYS_MSG)) |>
    <| procs ::= alter (fun p => p <| state ::= set_flag STATE_RECEIVING |>) nr |>
    <| curr_user_proc := Some nr |>.

Lemma insert_alter {A} (ps : gmap Z A) n p (f : A -> A) : ps !! n = Some p -> <[n := f p]> ps = alter f n ps.
Proof.
  intros Hp. apply map_eq. intros x. destruct (decide (x = n)) as [->|].
  - by rewrite lookup_insert_eq, lookup_alter_eq, Hp.
  - by rewrite lookup_insert_ne, lookup_alter_ne.
Qed.

Lemma updp_alter k n p f : procs k !! n = Some p -> updp n f k = Some (tt, k <| procs ::= alter f n |>).
Proof. intros Hp. rewrite (updp_run _ _ _ _ Hp), (insert_alter _ _ _ f Hp). done. Qed.

Lemma begun_run k nr w s :
  procs k !! nr = Some w -> procs k !! SYSTEM = Some s -> nr <> SYSTEM ->
  syscall_region_begin nr (k <| who_proc_nr := nr |>) = Some (tt, begun k nr).
Proof.
  intros Hw Hs Hne. unfold syscall_region_begin. set (k0 := k <| who_proc_nr := nr |>).
  rewrite (bind_run _ _ k0 (rd_msg (kmem k) SYS_MSG) k0) by done.
  set (k1 := k0 <| bill_ptr := Some nr |>). rewrite (bind_run _ _ k0 tt k1) by done.
  rewrite (bind_run _ _ _ _ _ (updp_alter k1 SYSTEM s _ Hs)).
  set (k2 := k1 <| procs ::= _ |>). set (k3 := k2 <| curr_syscall := s32 (m_type (rd_msg (kmem k) SYS_MSG)) |>).
  rewrite (bind_run _ _ k2 tt k3) by done.
  assert (Hw3 : procs k3 !! nr = Some w) by (etransitivity; [apply lookup_alter_ne; congruence|exact Hw]).
  rewrite (bind_run _ _ _ _ _ (updp_alter k3 nr w _ Hw3)). set (k4 := k3 <| procs ::= _ |>).
  rewrite (bind_run _ _ k4 tt (begun k nr)), (bind_run _ _ (begun k nr) (begun k nr) (begun k nr)) by done.
  change (who_proc_nr (begun k nr)) with nr. by rewrite (proj2 (Z.eqb_neq nr SYSTEM)).
Qed.

Lemma region_end_run k s :
  procs k !! SYSTEM = Some s ->
  exists k', syscall_region_end k = Some (tt, k') /\
    (forall x, 0 <= x -> kmem k' x = kmem k x) /\ ready_q k' = ready_q k /\ who_proc_nr k' = 0 /\
    procs k' = <[SYSTEM := s <| flags ::= clr_flag BILLABLE |>]> (procs k).
Proof.
  intros Hs. unfold syscall_region_end. rewrite (bind_run _ _ _ _ _ (updp_run _ _ _ _ Hs)). eexists. split; [done|].
  split; [|done]. intros x Hx. apply wr_msg_out. unfold SYS_MSG, MESSAGE_LEN. lia.
Qed.

Lemma p_link_alter ps n f x : (forall p, p_next (f p) = p_next p) -> p_link (alter f n ps) x = p_link ps x.
Proof.
  intros Hf. unfold p_link. destruct (decide (x = n)) as [->|]; [|by rewrite lookup_alter_ne].
  rewrite lookup_alter_eq. destruct (ps !! n) as [p|]; [|done]. cbn. by rewrite Hf.
Qed.

(** The queues are not touched before the handler runs. *)
Lemma rq_rep_same k k' ls : rq_rep k ls -> ready_q k' = ready_q k -> procs k' = procs k -> rq_rep k' ls.
Proof. intros Hr Hq Hp. apply (rq_rep_ext k); [done|done| |]; by rewrite Hp. Qed.

Lemma rq_rep_alter k n f ls :
  (forall p, p_next (f p) = p_next p) -> rq_rep k ls -> rq_rep (k <| procs ::= alter f n |>) ls.
Proof.
  intros Hf Hr. apply (rq_rep_ext k); [done|done| |].
  - intros x. change (p_link (alter f n (procs k)) x = p_link (procs k) x). by apply p_link_alter.
  - intros x Hx. change (is_Some (alter f n (procs k) !! x)). by apply lookup_alter_is_Some.
Qed.

Lemma begun_rep k nr ls : rq_rep k ls -> rq_rep (begun k nr) ls.
Proof.
  intros Hr. unfold begun. set (ty := s32 _). clearbody ty.
  set (k1 := k <| who_proc_nr := nr |>). assert (H1 : rq_rep k1 ls) by by apply (rq_rep_same k). clearbody k1.
  set (k2 := k1 <| bill_ptr := Some nr |>). assert (H2 : rq_rep k2 ls) by by apply (rq_rep_same k1). clearbody k2.
  set (k3 := k2 <| procs ::= _ |>). assert (H3 : rq_rep k3 ls) by by apply rq_rep_alter. clearbody k3.
  set (k4 := k3 <| curr_syscall := ty |>). assert (H4 : rq_rep k4 ls) by by apply (rq_rep_same k3). clearbody k4.
  set (k5 := k4 <| procs ::= _ |>). assert (H5 : rq_rep k5 ls) by by apply rq_rep_alter. clearbody k5.
  by apply (rq_rep_same k5).
Qed.

(** C2: a round of the system task answers the caller.  Whatever handler the table
    names for the message, when it returns a result other than SUSPEND and DONTREPLY
    and the caller still waits, the caller finds the result in its message buffer and
    in register 1 (-1 for an error of a direct system call, with errno on its stack),
    no longer waits and is the first process of its ready queue. *)
Theorem system_step_replies winfo dprintf k nr w s h reply k2 d ls l :
  let msg := rd_msg (kmem k) SYS_MSG in
  s32 (m_src msg) = nr -> IS_PROCN_OK nr = true -> nr <> SYSTEM ->
  procs k !! nr = Some w -> IS_INUSE w = true -> procs k !! SYSTEM = Some s ->
  select_handler winfo dprintf (s32 (m_type msg)) = Some h ->
  h nr SYS_MSG (begun k nr) = Some (reply, k2) -> reply <> SUSPEND -> reply <> DONTREPLY -> is_s32 reply ->
  procs k2 !! nr = Some d -> IS_INUSE d = true -> state d = STATE_RECEIVING -> 0 <= message_ptr d ->
  is_Some (procs k2 !! SYSTEM) -> rq_rep k2 ls -> aget ls (priority d) = Some l -> ~ queued ls nr ->
  exists k' d', system_step winfo dprintf k = Some (tt, k') /\
    rd_msg (kmem k') (message_ptr d) = rd_msg (kmem k2) SYS_MSG <| m_type := told d reply |> /\
    (is_direct d = true -> reply < 0 -> ~ (message_ptr d <= errno_addr d < message_ptr d + MESSAGE_LEN) ->
       kmem k' (errno_addr d) = - reply) /\
    procs k' !! nr = Some d' /\ state d' = STATE_RUNNABLE /\ regs d' = <[0%nat := told d reply]> (regs d) /\
    rq_rep k' (<[Z.to_nat (priority d) := nr :: l]> ls) /\ who_proc_nr k' = 0.
Proof.
  intros msg Hsrc Hn Hne Hw Hu Hs Hh Hrun Hsus Hdon Hr32 Hd Hud Hst Hptr [s2 Hs2] Hr Hl Hnq.
  unfold system_step. rewrite (bind_run _ _ k msg k) by done. cbv zeta. rewrite Hsrc.
  set (k0 := k <| who_proc_nr := nr |>). rewrite (bind_run _ _ k tt k0) by done.
  rewrite (bind_run _ _ k0 (Some nr) k0) by (by apply (get_proc_run k0 nr w)). rewrite (bind_run _ _ k0 nr k0) by done.
  rewrite (bind_run _ _ _ _ _ (begun_run k nr w s Hw Hs Hne)), Hh, (bind_run _ _ (begun k nr) h (begun k nr)) by done.
  rewrite (bind_run _ _ _ _ _ Hrun), (proj2 (Z.eqb_neq _ _) Hsus), (proj2 (Z.eqb_neq _ _) Hdon). cbn [orb].
  set (msg2 := rd_msg (kmem k2) SYS_MSG). set (msg3 := msg2 <| m_type := reply |>).
  set (k3 := k2 <| kmem ::= (fun mem => wr_msg mem SYS_MSG msg3) |>).
  destruct (do_notify_delivers k3 ls SYSTEM nr d l SYS_MSG msg3) as (k4 & d' & E4 & M4 & Herr & Hd4 & Hst4 & Hrg & _ & Hr4 & Hdom4);
    [done..|apply rd_wr_msg|done|done|done|by apply (rq_rep_ext k2)|done|done|].
  rewrite (bind_run _ _ k2 tt k4).
  2:{ rewrite (bind_run _ _ k2 msg2 k2) by done. erewrite bind_run; [done|]. unfold syscall_reply2.
      rewrite (bind_run _ _ k2 (Some nr) k2) by (by eapply get_proc_run). rewrite (bind_run _ _ k2 tt k3) by done. exact E4. }
  destruct (Hdom4 SYSTEM s2) as [v4 Hs4]; [congruence|done|].
  destruct (region_end_run k4 _ Hs4) as (k5 & E5 & M5 & Q5 & W5 & P5). exists k5, d'. split; [exact E5|].
  split; [|split; [|split; [|split; [done|split; [done|split; [|done]]]]]].
  - eapply eq_trans; [|exact M4]. apply rd_msg_frame. intros x Hx. apply M5. lia.
  - intros Hdir Hneg Hout. rewrite M5; [by apply Herr|]. apply u32_range.
  - by rewrite P5, lookup_insert_ne.
  - apply (rq_rep_ext k4); [done|done| |intros x Hx; rewrite P5; by apply is_Some_insert_mono].
    intros x. rewrite P5. by apply (p_link_insert_eq _ _ _ _ x Hs4).
Qed.

(** getpid of process 4, a direct system call. *)
Definition getpid_p : proc :=
  sample_proc 4 <| flags := IN_USE + DIRECT_SYSCALL |> <| state := STATE_RECEIVING |> <| message_ptr := 9000 |>.

Definition getpid_k : kst :=
  queued_k <| procs := <[4 := getpid_p]> (procs queued_k) |>
    <| kmem := wr_msg (fun _ => 0) SYS_MSG (mkMsg 4 12 0 0 0 0 0 0) |>.

Lemma rq_rep_proc k n p p' mem ls :
  rq_rep k ls -> procs k !! n = Some p -> p_next p' = p_next p ->
  rq_rep (k <| procs := <[n := p']> (procs k) |> <| kmem := mem |>) ls.
Proof.
  intros Hr Hp Hn. apply (rq_rep_ext k); [done|done| |].
  - intros x. exact (p_link_insert_eq (procs k) n p p' x Hp Hn).
  - intros x Hx. exact (is_Some_insert_mono (procs k) n p' x Hx).
Qed.

Lemma rq_rep_mem k g ls : rq_rep k ls -> rq_rep (k <| kmem ::= g |>) ls.
Proof. intros Hr. by apply (rq_rep_same k). Qed.

Lemma procs_mem (k : kst) g : procs (k <| kmem ::= g |>) = procs k.
Proof. done. Qed.

Lemma getpid_k_rep : rq_rep getpid_k [[]; []; [1; 2; 3]; []; []].
Proof.
  assert (H4 : procs queued_k !! 4 = Some (sample_proc 4)) by (vm_compute; reflexivity).
  exact (rq_rep_proc queued_k 4 _ getpid_p _ _ queued_k_rep H4 eq_refl).
Qed.

Lemma do_getpid_run k who m p :
  procs k !! who = Some p ->
  do_getpid who m k = Some (pid p, k <| kmem ::= (fun mem => wr_msg mem m (rd_msg (kmem k) m <| m1_i2 := parent p |>)) |>).
Proof. intros Hp. unfold do_getpid. by rewrite (bind_run _ _ _ _ _ (getp_run _ _ _ Hp)). Qed.

Lemma system_step_replies_witness :
  exists k' d', system_step (fun _ _ => crash) (fun _ _ => crash) getpid_k = Some (tt, k') /\
    m_type (rd_msg (kmem k') 9000) = 4 /\ procs k' !! 4 = Some d' /\ state d' = STATE_RUNNABLE /\
    rq_rep k' [[4]; []; [1; 2; 3]; []; []].
Proof.
  assert (H4 : procs getpid_k !! 4 = Some getpid_p) by (vm_compute; reflexivity).
  assert (H0 : procs getpid_k !! SYSTEM = Some (sample_proc 0)) by (vm_compute; reflexivity).
  assert (Hb4 : procs (begun getpid_k 4) !! 4 = Some getpid_p) by (vm_compute; reflexivity).
  assert (Hb0 : is_Some (procs (begun getpid_k 4) !! SYSTEM)) by (vm_compute; eauto).
  pose proof (begun_rep getpid_k 4 _ getpid_k_rep) as Hr. pose proof (do_getpid_run _ _ SYS_MSG _ Hb4) as Hrun.
  set (k1 := begun getpid_k 4 <| kmem ::= _ |>) in Hrun.
  pose proof (rq_rep_mem (begun getpid_k 4) (fun m => wr_msg m SYS_MSG (rd_msg (kmem (begun getpid_k 4)) SYS_MSG <| m1_i2 := parent getpid_p |>)) _ Hr) as Hr1.
  fold k1 in Hr1. pose proof (procs_mem (begun getpid_k 4) (fun m => wr_msg m SYS_MSG (rd_msg (kmem (begun getpid_k 4)) SYS_MSG <| m1_i2 := parent getpid_p |>))) as Hp1.
  fold k1 in Hp1. rewrite <- Hp1 in Hb4, Hb0. clearbody k1.
  assert (Hty : s32 (m_type (rd_msg (kmem getpid_k) SYS_MSG)) = 12) by (vm_compute; reflexivity).
  assert (Hsrc : s32 (m_src (rd_msg (kmem getpid_k) SYS_MSG)) = 4) by (vm_compute; reflexivity).
  assert (Hsel : select_handler (fun _ _ => crash) (fun _ _ => crash) (s32 (m_type (rd_msg (kmem getpid_k) SYS_MSG))) = Some do_getpid)
    by (rewrite Hty; reflexivity).
  destruct (system_step_replies (fun _ _ => crash) (fun _ _ => crash) getpid_k 4 getpid_p (sample_proc 0) do_getpid 4 k1
    getpid_p [[]; []; [1; 2; 3]; []; []] [] Hsrc eq_refl ltac:(discriminate) H4 eq_refl H0 Hsel Hrun ltac:(discriminate)
    ltac:(discriminate) ltac:(by split) Hb4 eq_refl eq_refl ltac:(discriminate) Hb0 Hr1 eq_refl ltac:(apply not_queued_k; set_solver))
    as (k' & d' & E & M & _ & Hd & Hst & _ & Hq & _).
  exists k', d'. split; [exact E|]. split; [change 9000 with (message_ptr getpid_p); rewrite M; reflexivity|]. split; [exact Hd|]. split; [exact Hst|exact Hq].
Defined.
