(* ===== verification/Except.v ===== *)
(** * kernel/exception.c: the order in which pending exceptions are served

    The processor enters [exception_handler] with its status register; each set bit is
    a line with a handler in a table, to which drivers register theirs.  A handler that
    ends in [sched] does not return, and the lines below it stay pending.  The
    acknowledge registers of the devices are written only, which is kept as the list of
    their addresses.  [port] is what the status and data registers of a serial port
    hold when they are read. *)
From S2P Require Import Prelude Bitmap Mm Linked CString Timer Slab Kernel Proc Ipc Cache Inode Signal Filp Pipe Rootfs Exit Syscalls Dispatch.

Definition NUM_HANDLERS : Z := 16.
(** include/winix/rex.h *)
Definition RexSp1 : Z := 0x70000.
Definition RexSp2 : Z := 0x71000.
Definition RexTimer : Z := 0x72000.
Definition RexParallel : Z := 0x73000.
Definition RexUserInt : Z := 0x7f000.

(** The functions the table points to. *)
Inductive expt_handler_t :=
  | H_no | H_button | H_clock | H_parallel | H_serial1 | H_serial2 | H_gpf | H_syscall | H_break | H_arith
  | H_tty1 | H_tty2.

Record machine := mkMachine { kern : kst; handlers : list expt_handler_t; acks : list Z }.
#[export] Instance eta_machine : Settable machine := mkEta (fun m => mkMachine (kern m) (handlers m) (acks m)).
Notation X := (ST machine).

Definition on_kern {A} : K A -> X A := zoom kern (fun k m => m <| kern := k |>).
Definition ack (rex : Z) : X unit := modifyS (fun m => m <| acks ::= fun l => l ++ [rex] |>).

(** The table at the start. *)
Definition boot_handlers : list expt_handler_t :=
  [H_no; H_no; H_no; H_no; H_no; H_button; H_clock; H_parallel; H_serial1; H_serial2; H_no; H_no; H_gpf; H_syscall; H_break; H_arith].

(** The last line cannot be registered. *)
Definition register_irq (irq : Z) (handler : expt_handler_t) : X unit :=
  if (irq <? 0) || (irq >=? 15) then mret tt
  else m ← getS; l ← liftO (aset (handlers m) irq handler); modifyS (fun m => m <| handlers := l |>).

(** What [tty_dev_init] and [tty2_dev_init] register. *)
Definition register_ttys : X unit := _ ← register_irq 8 H_tty1; register_irq 9 H_tty2.

Section exceptions.
Context (port : Z -> Z * Z).

(** Whether the handler returns. *)
Definition call_handler (h : expt_handler_t) : X bool :=
  match h with
  | H_no => crash
  | H_button => _ ← ack RexUserInt; mret true
  | H_clock => _ ← ack RexTimer; _ ← on_kern clock_handler; mret false
  | H_parallel => _ ← ack RexParallel; mret true
  | H_serial1 => _ ← ack RexSp1; mret true
  | H_serial2 => _ ← ack RexSp2; mret true
  | H_gpf => _ ← on_kern gpf_handler; mret false
  | H_syscall => _ ← on_kern syscall_handler; mret false
  | H_break => mret true
  | H_arith => _ ← on_kern arith_handler; mret false
  | H_tty1 => _ ← on_kern (tty_exception_handler TTY_DEV (fst (port RexSp1)) (snd (port RexSp1))); _ ← ack RexSp1; mret true
  | H_tty2 => _ ← on_kern (tty_exception_handler TTY2_DEV (fst (port RexSp2)) (snd (port RexSp2))); _ ← ack RexSp2; mret true
  end.

Definition count_irq : K unit := modifyS (fun k => k <| irq_count ::= Z.succ |>).

(** The loop over the bits, from [n] - 1 downwards. *)
Fixpoint exception_loop (n : nat) (estat : Z) : X bool :=
  match n with
  | O => mret true
  | S n' =>
      let i := Z.of_nat n' in
      if negb (Z.land estat (Z.shiftl 1 i) =? 0) then
        _ ← on_kern count_irq;
        m ← getS;
        h ← liftO (aget (handlers m) i);
        r ← call_handler h;
        if (r : bool) then exception_loop n' estat else mret false
      else exception_loop n' estat
  end.

(** The loop begins at NUM_HANDLERS itself, one past the table. *)
Definition exception_handler (estat : Z) : X bool :=
  _ ← on_kern (modifyS (fun k => k <| irq_count := 0 |>));
  exception_loop (S (Z.to_nat NUM_HANDLERS)) estat.

(** ** What an exception does *)

(** The handlers by what they do to the kernel, to a device and to the processor. *)
Definition kernel_part (h : expt_handler_t) : K unit :=
  match h with
  | H_no => crash
  | H_clock => clock_handler
  | H_gpf => gpf_handler
  | H_syscall => syscall_handler
  | H_arith => arith_handler
  | H_tty1 => tty_exception_handler TTY_DEV (fst (port RexSp1)) (snd (port RexSp1))
  | H_tty2 => tty_exception_handler TTY2_DEV (fst (port RexSp2)) (snd (port RexSp2))
  | _ => mret tt
  end.
Definition device (h : expt_handler_t) : option Z :=
  match h with
  | H_button => Some RexUserInt | H_clock => Some RexTimer | H_parallel => Some RexParallel
  | H_serial1 | H_tty1 => Some RexSp1 | H_serial2 | H_tty2 => Some RexSp2
  | _ => None
  end.
Definition schedules (h : expt_handler_t) : bool :=
  match h with H_clock | H_gpf | H_syscall | H_arith => true | _ => false end.

(** The pending lines of a table, the highest first. *)
Definition pending (hs : list expt_handler_t) (estat : Z) : list expt_handler_t :=
  snd <$> filter (fun ih => Z.testbit estat (Z.of_nat (fst ih)) = true) (rev (imap pair hs)).

(** Down to the first one that does not return. *)
Fixpoint served (hs : list expt_handler_t) : list expt_handler_t :=
  match hs with [] => [] | h :: hs' => if schedules h then [h] else h :: served hs' end.

Fixpoint kernel_parts (hs : list expt_handler_t) : K unit :=
  match hs with [] => mret tt | h :: hs' => _ ← count_irq; _ ← kernel_part h; kernel_parts hs' end.

Lemma call_handler_run h m :
  call_handler h m = match kernel_part h (kern m) with
                     | Some (_, k) => Some (negb (schedules h), mkMachine k (handlers m) (acks m ++ omap device [h]))
                     | None => None
                     end.
Proof.
  assert (Hk : forall (c : K unit) m, on_kern c m = match c (kern m) with Some (_, k) => Some (tt, mkMachine k (handlers m) (acks m)) | None => None end).
  { intros c [k hs a]. unfold on_kern, zoom. cbn [kern]. by destruct (c k) as [[[] k']|]. }
  assert (Ha : forall d, ack d m = Some (tt, mkMachine (kern m) (handlers m) (acks m ++ [d]))) by (intros d; by destruct m).
  destruct m as [k hs a].
  destruct h; cbn [call_handler kernel_part kern handlers acks] in *; unfold mbind, st_bind;
    rewrite ?Ha, ?Hk; cbn [kern handlers acks device omap list_omap]; rewrite ?app_nil_r; try done;
    match goal with |- context [match ?c ?x with _ => _ end] => destruct (c x) as [[[] k']|] end; try done; by rewrite ?Ha.
Qed.

Lemma pending_nil estat : pending [] estat = [].
Proof. done. Qed.

(** The pending lines below line [n]. *)
Definition pending_below (hs : list expt_handler_t) (n : nat) (estat : Z) : list expt_handler_t := pending (take n hs) estat.

Lemma pending_below_S hs n h estat : hs !! n = Some h ->
  pending_below hs (S n) estat = (if Z.testbit estat (Z.of_nat n) then [h] else []) ++ pending_below hs n estat.
Proof.
  intros Hh. unfold pending_below, pending. rewrite (take_S_r _ _ _ Hh), imap_app, rev_app_distr, filter_app, fmap_app. f_equal.
  assert (Hn : length (take n hs) = n) by (apply lookup_lt_Some in Hh; rewrite length_take; lia).
  cbn [imap rev app]. rewrite Hn, Nat.add_0_r, filter_cons. cbn [fst].
  destruct (Z.testbit estat (Z.of_nat n)); [by rewrite decide_True|by rewrite decide_False].
Qed.

Lemma bit_test estat i : 0 <= i -> negb (Z.land estat (Z.shiftl 1 i) =? 0) = Z.testbit estat i.
Proof.
  intros Hi. rewrite Z.shiftl_1_l. destruct (Z.testbit estat i) eqn:E.
  - apply negb_true_iff, Z.eqb_neq. intros H0. apply (f_equal (fun z => Z.testbit z i)) in H0.
    by rewrite Z.land_spec, Z.pow2_bits_true, E, Z.bits_0 in H0.
  - apply negb_false_iff, Z.eqb_eq, Z.bits_inj'. intros j Hj. rewrite Z.land_spec, Z.bits_0, Z.pow2_bits_eqb by done.
    destruct (Z.eqb_spec i j) as [<-|]; [by rewrite E|by rewrite andb_false_r].
Qed.

(** What serving some handlers does to the machine. *)
Definition serve (hs : list expt_handler_t) (m : machine) : option (bool * machine) :=
  match kernel_parts hs (kern m) with
  | Some (_, k) => Some (negb (existsb schedules hs), mkMachine k (handlers m) (acks m ++ omap device hs))
  | None => None
  end.

Lemma serve_cons h hs m :
  serve (h :: hs) m = match count_irq (kern m) with
                      | Some (_, k) =>
                          match kernel_part h k with
                          | Some (_, k) => match serve hs (mkMachine k (handlers m) (acks m ++ omap device [h])) with
                                           | Some (r, m') => Some (negb (schedules h) && r, m')
                                           | None => None
                                           end
                          | None => None
                          end
                      | None => None
                      end.
Proof.
  destruct m as [k tbl a]. unfold serve. cbn [kernel_parts kern handlers acks existsb]. unfold mbind, st_bind.
  destruct (count_irq k) as [[[] k1]|]; [|done]. destruct (kernel_part h k1) as [[[] k2]|]; [|done].
  destruct (kernel_parts hs k2) as [[[] k3]|]; [|done]. rewrite negb_orb, <- app_assoc, <- omap_app. done.
Qed.

Lemma loop_run estat n : forall m, (n <= length (handlers m))%nat ->
  exception_loop n estat m = serve (served (pending_below (handlers m) n estat)) m.
Proof.
  induction n as [|n IH]; intros m Hn.
  - unfold serve. cbn. rewrite app_nil_r. by destruct m.
  - destruct (lookup_lt_is_Some_2 (handlers m) n Hn) as [h Hh]. rewrite (pending_below_S _ _ _ _ Hh). cbn [exception_loop].
    rewrite bit_test by lia. destruct (Z.testbit estat (Z.of_nat n)); [|apply IH; lia].
    assert (Hs : served ([h] ++ pending_below (handlers m) n estat) = h :: if schedules h then [] else served (pending_below (handlers m) n estat))
      by (cbn; by destruct (schedules h)).
    rewrite Hs, serve_cons. clear Hs. destruct m as [k tbl a]. cbn [handlers kern acks] in *.
    rewrite (bind_run (on_kern count_irq) _ _ tt (mkMachine (k <| irq_count ::= Z.succ |>) tbl a)) by done.
    change (count_irq k) with (Some (tt, k <| irq_count ::= Z.succ |>)). cbv beta iota. set (k1 := k <| irq_count ::= Z.succ |>). clearbody k1.
    rewrite (bind_run getS _ _ (mkMachine k1 tbl a) (mkMachine k1 tbl a)) by done. cbn [handlers].
    rewrite (bind_run _ _ _ h (mkMachine k1 tbl a)) by (unfold aget; rewrite decide_True, Nat2Z.id, Hh by lia; done).
    unfold mbind at 1, st_bind. rewrite call_handler_run. cbn [kern handlers acks].
    destruct (kernel_part h k1) as [[[] k2]|]; [|done]. destruct (schedules h) eqn:Hsch; cbn [negb andb].
    + unfold serve. cbn. by rewrite app_nil_r.
    + rewrite IH by (cbn [handlers]; lia). cbn [handlers]. by destruct (serve _ _) as [[]|].
Qed.

(** C13: exceptions are served in order.  For every table and every status of the sixteen lines,
    [exception_handler] serves the pending lines from the highest down to the first one
    whose handler leaves through the scheduler, and no other: the kernel does what these
    handlers do one after the other, exactly their devices are acknowledged, and the handler
    returns if none of the pending lines schedules.  Status bits beyond the table
    read behind it. *)
Theorem exception_serves estat m :
  alen (handlers m) = NUM_HANDLERS -> 0 <= estat ->
  exception_handler estat m =
    if Z.testbit estat NUM_HANDLERS then None
    else serve (served (pending (handlers m) estat)) (m <| kern ::= (fun k => k <| irq_count := 0 |>) |>).
Proof.
  intros Hl He. destruct m as [k tbl a]. cbn [handlers] in *. unfold exception_handler.
  rewrite (bind_run _ _ _ tt (mkMachine (k <| irq_count := 0 |>) tbl a)) by done. set (k0 := k <| irq_count := 0 |>).
  change (mkMachine k tbl a <| kern ::= _ |>) with (mkMachine k0 tbl a). clearbody k0.
  change (S (Z.to_nat NUM_HANDLERS)) with 17%nat. cbn [exception_loop]. change (Z.of_nat 16) with NUM_HANDLERS. rewrite bit_test by done.
  destruct (Z.testbit estat NUM_HANDLERS).
  - rewrite (bind_run (on_kern count_irq) _ _ tt (mkMachine (k0 <| irq_count ::= Z.succ |>) tbl a)) by done.
    rewrite (bind_run getS _ _ (mkMachine (k0 <| irq_count ::= Z.succ |>) tbl a) (mkMachine (k0 <| irq_count ::= Z.succ |>) tbl a)) by done.
    cbn [handlers]. rewrite aget_oob by lia. done.
  - change (exception_loop 16 estat (mkMachine k0 tbl a) = serve (served (pending tbl estat)) (mkMachine k0 tbl a)).
    assert (Hn : length tbl = 16%nat) by (unfold alen, NUM_HANDLERS in Hl; lia).
    rewrite loop_run by (cbn [handlers]; lia). unfold pending_below. cbn [handlers]. by rewrite take_ge by lia.
Qed.
End exceptions.

(** A driver's handler serves its line from then on. *)
Lemma register_irq_serves port irq h m :
  alen (handlers m) = NUM_HANDLERS -> 0 <= irq < 15 ->
  exists m', register_irq irq h m = Some (tt, m') /\ kern m' = kern m /\ acks m' = acks m /\
    exception_handler port (Z.shiftl 1 irq) m' = serve port [h] (m' <| kern ::= (fun k => k <| irq_count := 0 |>) |>).
Proof.
  intros Hl Hi. assert (HN : NUM_HANDLERS = 16) by done. destruct m as [k tbl a]. cbn [handlers] in *.
  exists (mkMachine k (<[Z.to_nat irq := h]> tbl) a). split; [|split; [done|split; [done|]]].
  { unfold register_irq. destruct (Z.ltb_spec irq 0); [lia|]. destruct (Z.geb_spec irq 15); [lia|]. cbn [orb].
    rewrite (bind_run getS _ _ (mkMachine k tbl a) (mkMachine k tbl a)) by done. cbn [handlers]. by rewrite aset_in by lia. }
  rewrite exception_serves; [|cbn [handlers]; by rewrite alen_insert|rewrite Z.shiftl_1_l; lia].
  rewrite Z.shiftl_1_l, Z.pow2_bits_eqb by lia. destruct (Z.eqb_spec irq NUM_HANDLERS) as [|Hne0]; [lia|]. cbn [handlers]. f_equal.
  assert (Hp : forall n tbl, (n <= length tbl)%nat ->
    pending_below tbl n (2 ^ irq) = match tbl !! Z.to_nat irq with Some h => if decide (Z.to_nat irq < n)%nat then [h] else [] | None => [] end).
  { induction n as [|n IH]; intros t Hn; [by destruct (t !! Z.to_nat irq)|].
    destruct (lookup_lt_is_Some_2 t n Hn) as [x Hx]. rewrite (pending_below_S _ _ _ _ Hx), IH by lia. rewrite Z.pow2_bits_eqb by lia.
    destruct (Z.eqb_spec irq (Z.of_nat n)) as [->|Hne].
    - rewrite Nat2Z.id, Hx. by rewrite decide_False, decide_True by lia.
    - destruct (t !! Z.to_nat irq); [|done]. repeat case_decide; (done || lia). }
  assert (Hlen : length (<[Z.to_nat irq := h]> tbl) = 16%nat) by (rewrite length_insert; unfold alen in Hl; lia).
  specialize (Hp 16%nat (<[Z.to_nat irq := h]> tbl) ltac:(lia)). unfold pending_below in Hp. rewrite take_ge in Hp by lia. rewrite Hp.
  rewrite list_lookup_insert_eq by (unfold alen in Hl; lia). rewrite decide_True by lia. cbn. by destruct (schedules h).
Qed.

(** A clock tick that comes with a system call waits: its device is not acknowledged. *)
Lemma syscall_before_clock port k a :
  exception_handler port (Z.lor (Z.shiftl 1 13) (Z.shiftl 1 6)) (mkMachine k boot_handlers a) =
    match (_ ← count_irq; syscall_handler) (k <| irq_count := 0 |>) with
    | Some (_, k') => Some (false, mkMachine k' boot_handlers a)
    | None => None
    end.
Proof.
  rewrite exception_serves by done.
  change (Z.testbit (Z.lor (Z.shiftl 1 13) (Z.shiftl 1 6)) NUM_HANDLERS) with false. cbv iota.
  assert (Hs : served (pending boot_handlers (Z.lor (Z.shiftl 1 13) (Z.shiftl 1 6))) = [H_syscall]) by reflexivity.
  cbn [handlers]. rewrite Hs, serve_cons. cbn [kernel_part].
  change (kern (mkMachine k boot_handlers a <| kern ::= (fun k => k <| irq_count := 0 |>) |>)) with (k <| irq_count := 0 |>).
  unfold mbind, st_bind. destruct (count_irq (k <| irq_count := 0 |>)) as [[[] k1]|]; [|done].
  destruct (syscall_handler k1) as [[[] k2]|]; [|done]. unfold serve. cbn. by rewrite !app_nil_r.
Qed.

(** The button and the parallel port while a process runs. *)
Definition machine_sample : machine := mkMachine getpid_k boot_handlers [].
Lemma exception_serves_witness :
  exception_handler (fun _ => (0, 0)) (Z.shiftl 1 5 + Z.shiftl 1 7) machine_sample =
    Some (true, mkMachine (getpid_k <| irq_count := 2 |>) boot_handlers [RexParallel; RexUserInt]).
Proof.
  eapply eq_trans; [apply (exception_serves (fun _ => (0, 0)) (Z.shiftl 1 5 + Z.shiftl 1 7) machine_sample); [reflexivity|done]|].
  unfold machine_sample. generalize getpid_k as k. intros k. cbn [handlers].
  change (Z.testbit (Z.shiftl 1 5 + Z.shiftl 1 7) NUM_HANDLERS) with false. cbv iota.
  assert (Hs : served (pending boot_handlers (Z.shiftl 1 5 + Z.shiftl 1 7)) = [H_parallel; H_button]) by reflexivity.
  rewrite Hs. reflexivity.
Defined.
